(* ===== verification/_CoqProject ===== *)
-Q . S2P
Prelude.v
Codec.v
Types.v
Notification.v
Snapshot.v
SecureBuffer.v
Objects.v
ObjectStore.v
Token.v
Session.v
Pkcs11.v
Vault.v
AuditLog.v
KeyPolicy.v
SlotInfo.v
Evp.v
Crypto.v
KeyWrap.v
Rng.v
KeyMgmt.v
SignatureStore.v
Delivery.v
Adapters.v
NotificationStore.v
Schema.v
Drivers.v
TaskWorker.v
ThreadPool.v
Ledger.v
Admin.v
Enclave.v
Lifecycle.v
Clock.v
Support.v
Firmware.v
FirmwareBoot.v
Double.v
Cjson.v
CjsonPrint.v
CjsonRoundtrip.v
CjsonTree.v
CjsonList.v
CjsonSort.v
CjsonPointer.v
CjsonMerge.v
FirmwareJson.v
