(* ===== verification/Prelude.v ===== *)
(** * vHSM: a verification library

    vHSM is a software PKCS#11 token in C++.  An application calls the [C_*]
    functions; they look a slot, its token and a session up, check the login,
    and work on the objects of the session.  The token keeps the PINs and the
    key-encryption key, its durable state is a snapshot that the persistence
    layer encrypts into a vault file, and security events go to a hash-chained
    audit log.  A signature is recorded in a database together with an outbox
    event; the record is anchored to a ledger by background tasks of a worker
    pool, the event goes through a bounded bus to the notification dispatcher.
    Paths below are relative to [src/src/] of the repository.

    ** Parts, files and correspondence with the code

    - [Prelude]: bytes, machine widths, the result type [res] for C++
      exceptions, the shared list and map lemmas.
    - [Codec]: [LeBytes] is [persistence/le_bytes.h]; [Utils] is
      [core/utils.cpp] (hexadecimal, Base64, UUID, the [getrandom] loop).
    - [Types]: the constants of [domain/pkcs11/pkcs11_types.h].
    - [Snapshot]: [Snapshot] is the byte format of
      [persistence/token_serializer.cpp], [Migrations] is
      [persistence/migrations.cpp].
    - [SecureBuffer]: [core/secure_buffer.cpp].
    - [Objects]: [HsmObj] is [keystore/hsm_object.cpp] and
      [keystore/key_state.h]; [AttrStore] is [keystore/attribute_store.cpp].
    - [ObjectStore]: [keystore/object_store.cpp] and [.h], the table with its
      free list, versioned handles, secondary indices and searches.
    - [Token]: [keystore/internal/token_core.cpp], [keystore/token.cpp] and the
      token conversions of [persistence/token_serializer.cpp].
    - [Session]: [Sess] is [session/session.cpp], [SessMgr] is
      [session/internal/session_manager_core.cpp] with its facade, [Slots] is
      [keystore/slot.cpp] and [session/internal/slot_manager_core.cpp],
      [Throttle] is [session/login_throttle.cpp], [Contexts] is
      [session/find_context.cpp] and [session/sign_context.cpp].
    - [Pkcs11]: [pkcs11/p11_session.cpp], [pkcs11/p11_object.cpp], the PIN and
      slot-list calls of [pkcs11/p11_slot.cpp] and the lookups of
      [pkcs11/p11_internal.cpp].  The record [P11] is the library's global
      state; a call takes it and returns it with its return code.
    - [Vault]: [persistence/vault.cpp], [persistence/kdf.cpp],
      [crypto/aes_gcm.cpp] and the vault half of the token serializer.
    - [AuditLog]: [audit/audit_log.cpp], and the log without a chain of
      [pkcs11/pkcs11_internal.h].
    - [SlotInfo]: the information calls of [pkcs11/p11_slot.cpp].
    - [Notification]: [notification/notification_event.h] and
      [notification/bounded_notification_bus.cpp].
    - [KeyPolicy]: [domain/signing/key_policy.cpp].
    - [Evp]: the mechanism tables, key storage and OpenSSL calls of
      [pkcs11/p11_internal.cpp], and [crypto/fips.cpp].
    - [Crypto]: [pkcs11/p11_crypto.cpp], every entry point of encryption,
      decryption, digest, signature and verification.
    - [KeyWrap]: [keystore/key_wrap.cpp] and [keystore/key_rotation.cpp].
    - [Rng]: [crypto/secure_rng.cpp], [crypto/ctr_drbg_aes256.cpp] and
      [pkcs11/p11_random.cpp].
    - [KeyMgmt]: [pkcs11/p11_keygen.cpp] and [pkcs11/p11_wrap.cpp].
    - [SignatureStore]: the records, row integrity, dispatcher, verification,
      query and retry queue of [signature_store/].
    - [Delivery]: [Outbox] is [signature_store/outbox_poller.cpp], [Notify] is
      [signature_store/notification_dispatcher.cpp].
    - [Adapters]: the e-mail, webhook, gRPC and mobile adapters of
      [notification/].
    - [NotificationStore]: [signature_store/notification_repository.cpp].
    - [Schema]: [signature_store/db_schema.cpp], the tables as data and the
      statements that make, migrate and check them.
    - [Drivers]: [signature_store/postgres_connection.cpp],
      [mysql_connection.cpp], the statement cache of [sqlite_connection.cpp] and
      [db_row.cpp].
    - [TaskWorker]: [threadpool/task_worker.h], over the memory it works on.
    - [ThreadPool]: [threadpool/thread_pool.cpp] and [.h].
    - [Ledger]: [Client] is [ledger/ledger_client.cpp], [Worker] is
      [ledger/ledger_worker.cpp].
    - [Admin]: [admin/admin_service.cpp] and [admin/hsm_admin_grpc.cpp].
    - [Enclave]: [kvm/enclave_manager.cpp].
    - [Lifecycle]: [pkcs11/composition_root.cpp] and [pkcs11/p11_init.cpp], how
      the components above are wired, started and taken down.
    - [Clock]: [core/clock_utils.h] and the two clocks.
    - [Support]: the metrics registry, the logger, the self-test of FIPS mode, the
      signing engine, the asymmetric keys and their fingerprints, the post-quantum
      keyring, the instance identity and the store adapters.
    - [Firmware]: the commands, throttles, audit log and HTTP handlers of the
      ESP32 signing device, [firmware/main/hsm.cpp] under [src/]; [FirmwareBoot] is
      its start, [app_main].
    - [Double], [Cjson], [CjsonPrint], [CjsonRoundtrip], [CjsonTree], [CjsonList]:
      the JSON library the device is built with, [cJSON.c] under
      [firmware/managed_components/]: its numbers, its parser, its printer, the two
      together, the trees (creation, copy, comparison, minification), and the pointers
      of the item lists.  [FirmwareJson] puts that library under [Firmware].
    - [CjsonSort], [CjsonPointer], [CjsonMerge]: sorting, JSON pointers and merge patches
      of [cJSON_Utils.c].

    ** Conventions

    A C++ object is a record with the names of its members; an operation is a
    function from the record to the new record and the result; an exception is
    [Throw]; a pointer that may be null is an [option]; integers are [Z] with
    the reductions of their width written out.  A method that holds a mutex for
    its whole body is one step; the pool and the ledger worker, which do not,
    are machines whose steps are the atomic actions of their threads, and their
    theorems hold for every schedule.  Clocks, random bytes and the answers of system
    calls are arguments; the vault lists what its calls do to the disk, so that what a
    crash leaves can be stated.  Objects and sessions that C++ shares by [shared_ptr]
    are written back to the table that owns them.

    The cryptography of the [scrypto] submodule is not in the repository: the
    vault takes it as the class [Scrypto] with the laws [ScryptoLaws] (what
    authenticated encryption and a key derivation document), the audit log
    takes HMAC-SHA256 as a parameter of which only the length is assumed, and
    key wrapping the AES-256 block cipher as a permutation.  So are the others:
    OpenSSL ([Evp]), the JSON library ([KeyPolicy]), the database engine (tables
    with their keys and checks, statements that may fail, [SignatureStore]), the
    order of rows it leaves open ([Delivery], [NotificationStore]), libpq and
    libmysqlclient ([Drivers]), the JSON writer and libcurl ([Adapters]), the
    Fabric gateway ([Ledger]), the enclave library ([Enclave]), liboqs
    ([Support]), mbedTLS ([Firmware]).  [Firmware] is stated over any JSON parser of the
    class [CJson]; [FirmwareJson] gives it the one of the repository.
    Each has an instance, used by the witnesses.

    ** What the theorems show

    - Login and PINs ([Pkcs11], [Token]): login succeeds exactly with the right,
      unlocked PIN; guessing is bounded by the lockout; a lock ends only with a
      change that knows the PIN; the token's PIN code refines an abstract PIN
      machine (as long as PINs are changed by those who know them and not while they
      are locked); the lockout event is published exactly once.
    - Objects ([ObjectStore], [Objects], [Pkcs11]): the store refines a finite
      map; a destroyed handle does not come back; searches are sound, and
      complete on up-to-date indices, which the operations keep; flags latch;
      the value of a sensitive object is never returned by the object interface,
      through any sequence of session, login and object calls; a created object reads back as its template.
    - Sessions ([Session], [Pkcs11]): the login state machine, the registry as a
      finite map, closed handles stay closed, calls on one session leave the
      others alone, searches return each result once.
    - Persistence ([Snapshot], [Vault], [Token]): round trips of snapshots,
      vault files and whole tokens, rejection of truncated data, atomic
      replacement of the vault file across a crash at any system call, on a disk that
      keeps what was synced, authenticity of what is loaded, composition of migrations.
    - Audit ([AuditLog]): a log that was only appended to verifies and is
      recovered on reopening; the last HMAC binds the file, byte for byte, when it has no
      NUL.
    - Cryptographic calls ([Crypto], [KeyMgmt], [KeyWrap], [KeyPolicy], [Rng]): a
      signature is made only with a key of the session that its state and its
      policy permit; an operation in parts is the one-shot operation on the
      concatenation; the last call ends the operation; sign and verify, encrypt
      and decrypt, wrap and unwrap are round trips; key wrapping accepts exactly
      what it produced; a policy permits exactly what it says; rotation
      supersedes the old key.
    - Records ([SignatureStore]): the row, its outbox event and the anchoring
      happen together or not at all, with the HMAC when there is a key; the row HMAC
      binds the 18 columns it is made over and stays valid through anchoring; a pending record is recovered from its row.
    - Start and stop ([Lifecycle]): an initialization whose database does not come up
      leaves the module uninitialized and nothing behind; a restart finds the snapshot
      of the token that was saved; the members of the container are taken down after
      the threads that use them.
    - Administration ([Admin], [Enclave]): a call without authority changes no vault,
      record, ledger queue or object; a backup restores the token; the integrity report says exactly
      which rows fail; the enclave report is what the enclave answers.
    - Database ([Schema], [Drivers], [NotificationStore]): the first start makes
      the whole schema or nothing; a transaction commits all its statements or
      none, also when the client code throws or a [COMMIT] is lost, and is not left
      open; the statement cache never returns another statement; the
      repository refines maps of subscribers and of deliveries.
    - Delivery ([Notification], [Delivery], [Adapters]): the bus is a bounded queue that
      counts what it drops; the outbox drains into a bus with room, each event once;
      deliveries end, and the final sweep accounts for every
      event and subscriber; an adapter that reports success sent the whole event.
    - Concurrency ([ThreadPool], [TaskWorker], [Ledger]): a task is owned by one
      holder and destroyed once, through every sequence of moves; under every interleaving the pool
      neither loses nor duplicates a task inside, and a shutdown with no call in
      progress runs all it accepted; a record is anchored by one task at a time,
      with bounded retries, and its task terminates; the ledger check of a
      policy permits only on an explicit answer.
    - The device ([Firmware], [FirmwareBoot]): it serves only once its card,
      random generator and network are there; without the token no key, upload or signature
      changes; a command touches only the files its names allow; a created key
      signs the bytes uploaded; the audit log only grows, numbered across restarts; wrong
      tokens lock the device, and the throttles bound what gets through.
    - The device's JSON ([Cjson] to [FirmwareJson]): parsing any bytes, with any allocation
      failing, stays inside the buffers, returns and releases what it does not return; the
      printer writes exactly the text of the tree in a block that holds it; what is printed
      reads back as the same tree; escapes decode to the UTF-8 of their code point; copies
      are exact and leak nothing; minified text is the unformatted text; the pointers of a
      list implement a list; the answers of the device are read back by the same library.
      Sorting relinks the members in the order of their names; pointers go both ways; a
      merge patch does what RFC 7396 says.
    - Reports ([SlotInfo]): every field has the type and the width of its
      structure, and says what the token's state says.
    - Memory, codecs and time ([SecureBuffer], [Codec], [Clock]): bounds, the constant-time
      comparison decides equality, hexadecimal, Base64 and UUID laws, the
      round trip of timestamps.

    Lemmas at the end of the files show where the code departs from its
    comments, by evaluation on a concrete state.

    ** Bounds and fuel

    Recursion is structural.  Where the code loops over a range the number of
    rounds is an argument computed from the state ([migrate_loop]: the versions
    to cross; [batch_loop]: the results left; [dec]: the 20 digits of a 64-bit
    number; [fuel_for]: twice the bytes of a JSON text, as every call of the parser reads
    one), and the theorems show it is enough.  Loops over system calls
    ([write_loop], [csprng_fill]) consume the list of answers; a list that ends
    is a process still waiting ([Running]), and success is proved for answers
    that make progress.  Theorems on handles assume what the counters allow: 32
    bits for table indices and versions, 64 bits for session handles.

    ** What is not modelled

    Calls that only forward to OpenSSL or [scrypto] ([crypto/], beyond what the
    files above name); the table of entry points ([pkcs11/function_list.cpp]); the
    error categories of [abi/], which the code does not use; the construction of the TLS channel of the ledger client; the sharing
    of objects by threads outside the pool and the ledger worker, and memory
    protection; the Windows branches; the drivers of the radio and of the card
    and the serial log of the firmware; JSON patches ([apply_patch] and [create_patches] of
    [cJSON_Utils.c]), which the firmware does not call and which go on with lists whose
    links the sort has left incomplete ([sorted_object_loses_members]); the programs in other languages. *)

From Stdlib Require Import Strings.Byte.
From Corelib Require Export Init.Byte.
From Stdlib Require Export ZArith Lia.
From stdpp Require Export base gmap strings list numbers.

Global Open Scope Z_scope.

(** ** Bytes

    [std::uint8_t], [std::byte] and the characters of a [std::string] are all
    the 256-valued type [byte]; [u8] reads a byte as an unsigned integer and
    [to_u8] is [static_cast<u8>] (reduction modulo 256). *)

Abbreviation byte := Init.Byte.byte.

Definition u8 (b : byte) : Z := Z.of_N (Byte.to_N b).

Definition to_u8 (z : Z) : byte :=
  match Byte.of_N (Z.to_N (z mod 256)) with
  | Some b => b
  | None => x00
  end.

Lemma u8_range (b : byte) : 0 <= u8 b < 256.
Proof.
  unfold u8. pose proof (Byte.to_N_bounded b). lia.
Qed.

Lemma u8_to_u8 (z : Z) : u8 (to_u8 z) = z mod 256.
Proof.
  unfold to_u8, u8. pose proof (Z.mod_pos_bound z 256 eq_refl) as Hb.
  destruct (Byte.of_N (Z.to_N (z mod 256))) as [b|] eqn:E.
  - rewrite (Byte.to_of_N _ E). lia.
  - apply Byte.of_N_None_iff in E. lia.
Qed.

Lemma u8_inj (a b : byte) : u8 a = u8 b -> a = b.
Proof.
  unfold u8. intros E. apply N2Z.inj in E.
  pose proof (Byte.of_to_N a) as Ea. pose proof (Byte.of_to_N b) as Eb. congruence.
Qed.

Lemma to_u8_u8 (b : byte) : to_u8 (u8 b) = b.
Proof. apply u8_inj. rewrite u8_to_u8. apply Z.mod_small, u8_range. Qed.

#[global] Instance byte_eq_dec : EqDecision byte := Byte.byte_eq_dec.

#[global] Instance byte_countable : Countable byte.
Proof.
  refine (inj_countable' u8 to_u8 _). apply to_u8_u8.
Defined.

(** The bytes of a string literal of the source. *)
Definition bytes_of (s : string) : list byte := String.list_byte_of_string s.

(** All byte values: the enumeration behind the decision procedures below. *)
Definition all_bytes : list byte := map (fun n => to_u8 (Z.of_nat n)) (seq 0 256).

Lemma elem_of_all_bytes (b : byte) : In b all_bytes.
Proof.
  unfold all_bytes. apply in_map_iff. exists (Z.to_nat (u8 b)).
  pose proof (u8_range b) as Hb. split.
  - rewrite Z2Nat.id by lia. apply to_u8_u8.
  - apply in_seq. lia.
Qed.

(** A boolean property of bytes, or of pairs of bytes, holds of all of them as
    soon as it evaluates to [true] on the enumeration. *)
Lemma forall_bytes (P : byte -> bool) :
  forallb P all_bytes = true -> forall b, P b = true.
Proof. rewrite forallb_forall. intros H b. apply H, elem_of_all_bytes. Qed.

Lemma forall_byte_pairs (P : byte -> byte -> bool) :
  forallb (fun a => forallb (P a) all_bytes) all_bytes = true ->
  forall a b, P a b = true.
Proof.
  intros H a. apply forall_bytes.
  apply (forall_bytes (fun a => forallb (P a) all_bytes) H).
Qed.

(** ** Machine integers *)

Definition u32 (z : Z) : Z := z mod 2 ^ 32.
Definition u64 (z : Z) : Z := z mod 2 ^ 64.

Definition is_u32 (z : Z) : Prop := 0 <= z < 2 ^ 32.
Definition is_u64 (z : Z) : Prop := 0 <= z < 2 ^ 64.

Lemma u32_id (z : Z) : is_u32 z -> u32 z = z.
Proof. apply Z.mod_small. Qed.

Lemma u64_id (z : Z) : is_u64 z -> u64 z = z.
Proof. apply Z.mod_small. Qed.

Lemma u32_is_u32 (z : Z) : is_u32 (u32 z).
Proof. apply Z.mod_pos_bound. reflexivity. Qed.

Lemma u64_is_u64 (z : Z) : is_u64 (u64 z).
Proof. apply Z.mod_pos_bound. reflexivity. Qed.

(** [a << n | b] is [a * 2^n + b] when [b] fits below the shifted value. *)
Lemma lor_shiftl_add (a b n : Z) :
  0 <= n -> 0 <= b < 2 ^ n -> Z.lor (Z.shiftl a n) b = a * 2 ^ n + b.
Proof.
  intros Hn Hb. rewrite Z.shiftl_mul_pow2 by lia.
  assert (Z.land (a * 2 ^ n) b = 0) as Hdisj.
  { apply Z.bits_inj'. intros i Hi. rewrite Z.land_spec, Z.bits_0.
    destruct (Z.lt_ge_cases i n).
    - rewrite Z.mul_pow2_bits_low by lia. reflexivity.
    - rewrite <- (Z.mod_small b (2 ^ n)) by lia.
      rewrite Z.mod_pow2_bits_high by lia. apply andb_false_r. }
  rewrite <- Z.lxor_lor by exact Hdisj. symmetry. apply Z.add_nocarry_lxor, Hdisj.
Qed.

(** ** Errors

    The internal C++ layers report failures with [std::] exceptions; the
    extern "C" boundary maps them to [CKR_*] codes.  A computation that may
    throw is a value of [res]. *)

Inductive exn : Type :=
| RuntimeError (msg : string)
| InvalidArgument (msg : string)
| OutOfRange (msg : string)
| OtherException (msg : string).

Inductive res (A : Type) : Type :=
| Ok (a : A)
| Throw (e : exn).
Arguments Ok {A} _.
Arguments Throw {A} _.

#[global] Instance exn_eq_dec : EqDecision exn.
Proof. solve_decision. Defined.

#[global] Instance res_eq_dec `{EqDecision A} : EqDecision (res A).
Proof. solve_decision. Defined.

Definition rbind {A B} (r : res A) (k : A -> res B) : res B :=
  match r with
  | Ok a => k a
  | Throw e => Throw e
  end.

(** [VHSM_CHECK_MSG(condition, msg)]. *)
Definition check (b : bool) (msg : string) : res unit :=
  if b then Ok tt else Throw (RuntimeError msg).

Definition is_ok {A} (r : res A) : bool :=
  match r with Ok _ => true | Throw _ => false end.

Declare Scope vhsm_scope.
Delimit Scope vhsm_scope with vhsm.

Notation "'let*' x ':=' r 'in' k" := (rbind r (fun x => k))
  (at level 10, x pattern, r at level 100, k at level 200) : vhsm_scope.
Notation "'check!' b 'orelse' m 'in' k" := (rbind (check b m) (fun _ => k))
  (at level 10, b at level 100, m at level 100, k at level 200) : vhsm_scope.

Global Open Scope vhsm_scope.

Lemma rbind_ok {A B} (r : res A) (k : A -> res B) (b : B) :
  rbind r k = Ok b -> exists a, r = Ok a /\ k a = Ok b.
Proof. destruct r; simpl; [eauto | discriminate]. Qed.

Lemma Ok_inj {A} (a b : A) : Ok a = Ok b -> a = b.
Proof. congruence. Qed.

Lemma check_ok (b : bool) (m : string) (u : unit) : check b m = Ok u -> b = true.
Proof. destruct b; simpl; congruence. Qed.

(** ** Tactics and hints *)

Create HintDb vhsm.
Create Rewrite HintDb vhsm.
#[export] Hint Resolve u8_range u32_is_u32 u64_is_u64 elem_of_all_bytes : vhsm.

(** Takes apart a successful run of the error monad, step by step. *)
Ltac inv_res :=
  repeat match goal with
  | H : rbind _ _ = Ok _ |- _ => apply rbind_ok in H; destruct H as (? & ? & ?)
  | H : check _ _ = Ok _ |- _ => apply check_ok in H
  | H : Ok _ = Ok _ |- _ => apply Ok_inj in H
  | H : Throw _ = Ok _ |- _ => discriminate H
  end.

(** Turns the boolean tests of the code into the propositions they decide. *)
Ltac bool_to_prop :=
  repeat match goal with
  | H : _ && _ = true |- _ => apply andb_true_iff in H; destruct H
  | H : _ || _ = false |- _ => apply orb_false_iff in H; destruct H
  | H : negb _ = true |- _ => apply negb_true_iff in H
  | H : negb _ = false |- _ => apply negb_false_iff in H
  | H : (_ =? _) = true |- _ => apply Z.eqb_eq in H
  | H : (_ =? _) = false |- _ => apply Z.eqb_neq in H
  | H : (_ <? _) = true |- _ => apply Z.ltb_lt in H
  | H : (_ <? _) = false |- _ => apply Z.ltb_ge in H
  | H : (_ <=? _) = true |- _ => apply Z.leb_le in H
  | H : (_ <=? _) = false |- _ => apply Z.leb_gt in H
  | H : bool_decide _ = true |- _ => apply bool_decide_eq_true in H
  | H : bool_decide _ = false |- _ => apply bool_decide_eq_false in H
  end.

(** Case analysis on the conditionals and matches of the goal or a hypothesis,
    keeping the equation of each scrutinee. *)
Ltac split_ifs :=
  repeat match goal with
  | |- context [if ?b then _ else _] => destruct b eqn:?
  | |- context [match ?x with _ => _ end] => destruct x eqn:?
  end.
Ltac split_ifs_in H :=
  repeat match type of H with
  | context [if ?b then _ else _] => destruct b eqn:?
  | context [match ?x with _ => _ end] => destruct x eqn:?
  end.

(** ** Lists *)

(** Length as the machine integer [.size()]. *)
Definition len {A} (l : list A) : Z := Z.of_nat (length l).

Lemma len_app {A} (l k : list A) : len (l ++ k) = len l + len k.
Proof. unfold len. rewrite length_app. lia. Qed.

Lemma len_cons {A} (x : A) (l : list A) : len (x :: l) = 1 + len l.
Proof. unfold len. simpl. lia. Qed.

Lemma len_nil {A} : len (@nil A) = 0.
Proof. reflexivity. Qed.

Lemma len_nonneg {A} (l : list A) : 0 <= len l.
Proof. unfold len. lia. Qed.

#[export] Hint Rewrite @len_app @len_cons @len_nil : vhsm.
#[export] Hint Resolve len_nonneg : vhsm.

Lemma map_all_eq {A B} (f : A -> B) (y : B) (l : list A) :
  (forall x, f x = y) -> map f l = replicate (length l) y.
Proof. intros H. induction l as [|x l IH]; [done|]. cbn. by rewrite H, IH. Qed.

(** The bytes [p + off .. p + off + n) of a buffer. *)
Definition slice {A} (off n : nat) (l : list A) : list A := take n (drop off l).

Lemma slice_app_skip {A} (off n : nat) (l k : list A) :
  off = length l -> slice off n (l ++ k) = take n k.
Proof. intros ->. unfold slice. rewrite drop_app_length. reflexivity. Qed.

Lemma slice_exact {A} (pre l post : list A) (off n : nat) :
  off = length pre -> n = length l -> slice off n (pre ++ l ++ post) = l.
Proof.
  intros -> ->. rewrite slice_app_skip by reflexivity. apply take_app_length.
Qed.

(** [s.find(sub) != npos], [strstr(s, sub) != nullptr]. *)
Fixpoint contains (sub s : list byte) : bool :=
  bool_decide (take (length sub) s = sub) ||
  match s with
  | [] => false
  | _ :: s => contains sub s
  end.
