(* ===== verification/Codec.v ===== *)
(** * Byte codecs

    - [LeBytes]: the little-endian helpers of [src/src/persistence/le_bytes.h];
    - [Utils]: the hexadecimal, Base64 and UUID codecs of
      [src/src/core/utils.cpp], with the [getrandom] retry loop.

    The theorems are the round trips, the exact set of inputs each decoder
    accepts, and the shape of a generated UUID. *)

From S2P Require Import Prelude.

(** ** Little-endian integers *)

Module LeBytes.

Definition put_le32 (out : list byte) (v : Z) : list byte :=
  out ++ [to_u8 (Z.land v 255);
          to_u8 (Z.land (Z.shiftr v 8) 255);
          to_u8 (Z.land (Z.shiftr v 16) 255);
          to_u8 (Z.land (Z.shiftr v 24) 255)].

(** [p[i]]: the callers have checked that the index is inside the buffer. *)
Definition at_ (p : list byte) (i : nat) : Z := u8 (nth i p x00).

Definition get_le32 (p : list byte) : Z :=
  Z.lor (Z.lor (Z.lor (at_ p 0) (Z.shiftl (at_ p 1) 8))
               (Z.shiftl (at_ p 2) 16))
        (Z.shiftl (at_ p 3) 24).

(** [for (i = 0; i < 8; ++i) push_back((v >> 8*i) & 0xFF)]. *)
Definition put_le64 (out : list byte) (v : Z) : list byte :=
  fold_left (fun o i => o ++ [to_u8 (Z.land (Z.shiftr v (8 * Z.of_nat i)) 255)])
            (seq 0 8) out.

(** [for (i = 7; i >= 0; --i) v = (v << 8) | p[i]], in 64 bits. *)
Definition get_le64 (p : list byte) : Z :=
  fold_left (fun v i => Z.lor (u64 (Z.shiftl v 8)) (at_ p i))
            (rev (seq 0 8)) 0.

(** The mathematical reading of a little-endian buffer. *)
Fixpoint le_value (p : list byte) : Z :=
  match p with
  | [] => 0
  | b :: r => u8 b + 256 * le_value r
  end.

Fixpoint le_digits (n : nat) (v : Z) : list byte :=
  match n with
  | O => []
  | S n => to_u8 v :: le_digits n (v / 256)
  end.

Lemma length_le_digits n v : length (le_digits n v) = n.
Proof. revert v. induction n; simpl; auto. Qed.

Lemma le_value_range p : 0 <= le_value p < 256 ^ Z.of_nat (length p).
Proof.
  induction p as [|b r IH]; cbn [le_value length]; [simpl; lia|].
  rewrite Nat2Z.inj_succ, Z.pow_succ_r by lia. pose proof (u8_range b). lia.
Qed.

Lemma le_value_digits n v : le_value (le_digits n v) = v mod 256 ^ Z.of_nat n.
Proof.
  revert v. induction n as [|n IH]; intros v.
  - simpl. rewrite Z.mod_1_r. reflexivity.
  - cbn [le_digits le_value]. rewrite IH, u8_to_u8, Nat2Z.inj_succ, Z.pow_succ_r by lia.
    rewrite Z.rem_mul_r by lia. lia.
Qed.

Lemma le_digits_value p n : n = length p -> le_digits n (le_value p) = p.
Proof.
  intros ->. induction p as [|b r IH]; cbn [le_value le_digits length]; [done|].
  pose proof (u8_range b) as Hb.
  f_equal.
  - apply u8_inj. rewrite u8_to_u8.
    rewrite (Z.mul_comm 256), Z.mod_add by lia. apply Z.mod_small, Hb.
  - rewrite (Z.mul_comm 256), Z.div_add, Z.div_small by lia. exact IH.
Qed.

Lemma to_u8_land v : to_u8 (Z.land v 255) = to_u8 v.
Proof.
  apply u8_inj. rewrite !u8_to_u8. change 255 with (Z.ones 8).
  rewrite Z.land_ones by lia. apply Z.mod_mod. lia.
Qed.

Lemma put_le32_digits out v : put_le32 out v = out ++ le_digits 4 v.
Proof.
  unfold put_le32. rewrite !to_u8_land. cbn [le_digits].
  rewrite !Z.shiftr_div_pow2, !Z.div_div by lia. reflexivity.
Qed.

Lemma put_le64_digits out v : put_le64 out v = out ++ le_digits 8 v.
Proof.
  unfold put_le64.
  replace (le_digits 8 v)
    with (map (fun i => to_u8 (Z.land (Z.shiftr v (8 * Z.of_nat i)) 255)) (seq 0 8)).
  - generalize (seq 0 8). intros l. revert out.
    induction l as [|i l IH]; intros out; simpl; [by rewrite app_nil_r|].
    rewrite IH, <- app_assoc. reflexivity.
  - cbn [seq map le_digits Z.of_nat Z.mul]. rewrite !to_u8_land. repeat f_equal.
    all: rewrite ?Z.shiftr_0_r, ?Z.div_div, ?Z.shiftr_div_pow2 by lia; reflexivity.
Qed.

Lemma get_le32_value p : (4 <= length p)%nat -> get_le32 p = le_value (take 4 p).
Proof.
  destruct p as [|a [|b [|c [|d p]]]]; cbn [length]; try lia. intros _.
  unfold get_le32, at_. cbn [nth take le_value].
  pose proof (u8_range a); pose proof (u8_range b);
  pose proof (u8_range c); pose proof (u8_range d).
  rewrite (Z.lor_comm (u8 a)), lor_shiftl_add by lia.
  rewrite (Z.lor_comm _ (Z.shiftl (u8 c) 16)), lor_shiftl_add by lia.
  rewrite (Z.lor_comm _ (Z.shiftl (u8 d) 24)), lor_shiftl_add by lia.
  rewrite take_0. cbn [le_value]. lia.
Qed.

Lemma get_le64_value p : (8 <= length p)%nat -> get_le64 p = le_value (take 8 p).
Proof.
  destruct p as [|a [|b [|c [|d [|e [|f [|g [|h p]]]]]]]]; cbn [length]; try lia.
  intros _. unfold get_le64, at_. cbn [seq rev app fold_left nth take le_value].
  pose proof (u8_range a); pose proof (u8_range b); pose proof (u8_range c);
  pose proof (u8_range d); pose proof (u8_range e); pose proof (u8_range f);
  pose proof (u8_range g); pose proof (u8_range h).
  repeat match goal with
  | |- context [Z.lor (u64 (Z.shiftl ?v 8)) ?x] =>
    replace (Z.lor (u64 (Z.shiftl v 8)) x) with (v * 256 + x)
      by (rewrite u64_id; [rewrite lor_shiftl_add by lia; lia |
          unfold is_u64; rewrite Z.shiftl_mul_pow2 by lia; lia])
  end.
  rewrite take_0. cbn [le_value]. lia.
Qed.

Lemma get_put_le32 v rest : is_u32 v -> get_le32 (le_digits 4 v ++ rest) = v.
Proof.
  intros Hv. rewrite get_le32_value by (rewrite length_app, length_le_digits; lia).
  rewrite (take_app_length' _ _ 4) by (by rewrite length_le_digits).
  rewrite le_value_digits. apply Z.mod_small. exact Hv.
Qed.

Lemma get_put_le64 v rest : is_u64 v -> get_le64 (le_digits 8 v ++ rest) = v.
Proof.
  intros Hv. rewrite get_le64_value by (rewrite length_app, length_le_digits; lia).
  rewrite (take_app_length' _ _ 8) by (by rewrite length_le_digits).
  rewrite le_value_digits. apply Z.mod_small. exact Hv.
Qed.

End LeBytes.

(** ** Hexadecimal, Base64, UUID *)

Module Utils.

(** One outcome of the [::getrandom] system call: some bytes written at [ptr]
    (at most the number asked for), an interrupted call, or another error. *)
Inductive getrandom_result : Type :=
| GrBytes (l : list byte)
| GrEINTR
| GrError.

(** The fill loop, against the sequence of outcomes the kernel gives; [None]
    is a loop that has not returned when the sequence ends. *)
Fixpoint csprng_fill (sys : list getrandom_result) (remaining : nat)
    : option (res (list byte)) :=
  match remaining with
  | O => Some (Ok [])
  | _ =>
    match sys with
    | [] => None
    | GrEINTR :: sys => csprng_fill sys remaining
    | GrError :: _ => Some (Throw (RuntimeError "Invalid bytes from ::getrandom()"))
    | GrBytes l :: sys =>
      let n := take remaining l in
      match csprng_fill sys (remaining - length n) with
      | Some (Ok rest) => Some (Ok (n ++ rest))
      | r => r
      end
    end
  end.

Definition K_HEX_CHARS : list byte := bytes_of "0123456789abcdef".

Definition hex_char (i : Z) : byte := nth (Z.to_nat i) K_HEX_CHARS x00.

(** [{:02x}]: the two digits of a byte. *)
Definition hex2 (b : byte) : list byte :=
  [hex_char (Z.shiftr (u8 b) 4); hex_char (Z.land (u8 b) 15)].

Fixpoint hex_encode (data : list byte) : list byte :=
  match data with
  | [] => []
  | b :: rest => hex_char (Z.shiftr (u8 b) 4) :: hex_char (Z.land (u8 b) 15)
                 :: hex_encode rest
  end.

(** The code points of ['0'], ['9'], ['a'], ['f'], ['A'], ['F']. *)
Definition hex_val (c : byte) : Z :=
  let c := u8 c in
  if (48 <=? c) && (c <=? 57) then c - 48
  else if (97 <=? c) && (c <=? 102) then c - 97 + 10
  else if (65 <=? c) && (c <=? 70) then c - 65 + 10
  else 255.

(** The loop of [hex_decode], after the parity test. *)
Fixpoint hex_decode_loop (s : list byte) : option (list byte) :=
  match s with
  | c0 :: c1 :: rest =>
    let hi := hex_val c0 in
    let lo := hex_val c1 in
    if (hi =? 255) || (lo =? 255) then None
    else match hex_decode_loop rest with
         | Some out => Some (to_u8 (Z.lor (Z.shiftl hi 4) lo) :: out)
         | None => None
         end
  | _ => Some []
  end.

Definition hex_decode (s : list byte) : option (list byte) :=
  if negb (len s mod 2 =? 0) then None else hex_decode_loop s.

(** RFC 4122: version nibble 4, variant bits 10. *)
Definition uuid_set_bits (rnd : list byte) : list byte :=
  let r6 := to_u8 (Z.lor (Z.land (u8 (nth 6 rnd x00)) 15) 64) in
  let r8 := to_u8 (Z.lor (Z.land (u8 (nth 8 rnd x00)) 63) 128) in
  <[8%nat := r8]> (<[6%nat := r6]> rnd).

Definition DASH : byte := to_u8 45.

Definition uuid_format (b : list byte) : list byte :=
  hex_encode (slice 0 4 b) ++ DASH :: hex_encode (slice 4 2 b) ++
  DASH :: hex_encode (slice 6 2 b) ++ DASH :: hex_encode (slice 8 2 b) ++
  DASH :: hex_encode (slice 10 6 b).

Definition uuid_v4 (sys : list getrandom_result) : option (res (list byte)) :=
  match csprng_fill sys 16 with
  | Some (Ok rnd) => Some (Ok (uuid_format (uuid_set_bits rnd)))
  | Some (Throw e) => Some (Throw e)
  | None => None
  end.

(** [vhsm::v1::Errc], the only value this file produces. *)
Inductive Errc : Type := DeviceError.

Definition try_uuid_v4 (sys : list getrandom_result) : option (list byte + Errc) :=
  match uuid_v4 sys with
  | Some (Ok s) => Some (inl s)
  | Some (Throw _) => Some (inr DeviceError)
  | None => None
  end.

Definition K_B64_CHARS : list byte :=
  bytes_of "ABCDEFGHIJKLMNOPQRSTUVWXYZabcdefghijklmnopqrstuvwxyz0123456789+/".

Definition b64_char (i : Z) : byte := nth (Z.to_nat i) K_B64_CHARS x00.

Definition PAD : byte := to_u8 61.

(** One iteration of the encoding loop; [None] is a read past the end of the
    input, which the code replaces by 0 and by a padding character. *)
Definition b64_group (b0 : byte) (ob1 ob2 : option byte) : list byte :=
  let v0 := u8 b0 in
  let b1 := match ob1 with Some b => u8 b | None => 0 end in
  let b2 := match ob2 with Some b => u8 b | None => 0 end in
  [b64_char (Z.shiftr v0 2);
   b64_char (Z.lor (Z.shiftl (Z.land v0 3) 4) (Z.shiftr b1 4));
   match ob1 with
   | Some _ => b64_char (Z.lor (Z.shiftl (Z.land b1 15) 2) (Z.shiftr b2 6))
   | None => PAD
   end;
   match ob2 with
   | Some _ => b64_char (Z.land b2 63)
   | None => PAD
   end].

Fixpoint base64_encode (data : list byte) : list byte :=
  match data with
  | [] => []
  | [b0] => b64_group b0 None None
  | [b0; b1] => b64_group b0 (Some b1) None
  | b0 :: b1 :: b2 :: rest => b64_group b0 (Some b1) (Some b2) ++ base64_encode rest
  end.

(** 256 entries: 0xFF, then the alphabet, then 0xFE for the padding. *)
Definition make_b64_decode_table : list Z :=
  let t := replicate 256 255 in
  let t := fold_left
    (fun t i => <[Z.to_nat (u8 (b64_char (Z.of_nat i))) := Z.of_nat i]> t)
    (seq 0 64) t in
  <[Z.to_nat (u8 PAD) := 254]> t.

Definition K_B64_DECODE : list Z := Eval vm_compute in make_b64_decode_table.

Definition b64_val (c : byte) : Z := nth (Z.to_nat (u8 c)) K_B64_DECODE 0.

(** One iteration of the decoding loop; [last] is [i + 4 == s.size()]. *)
Definition b64_decode_group (ch0 ch1 ch2 ch3 : byte) (last : bool) : option (list byte) :=
  let c0 := b64_val ch0 in let c1 := b64_val ch1 in
  let c2 := b64_val ch2 in let c3 := b64_val ch3 in
  if (254 <=? c0) || (254 <=? c1) then None
  else if (c2 =? 255) || (c3 =? 255) then None
  else
    let pad2 := c2 =? 254 in
    let pad1 := c3 =? 254 in
    if pad2 && negb pad1 then None
    else if (pad2 || pad1) && negb last then None
    else Some ([to_u8 (Z.lor (Z.shiftl c0 2) (Z.shiftr c1 4))] ++
               (if negb pad2 then [to_u8 (Z.lor (Z.shiftl c1 4) (Z.shiftr c2 2))] else []) ++
               (if negb pad2 && negb pad1 then [to_u8 (Z.lor (Z.shiftl c2 6) c3)] else [])).

Fixpoint b64_decode_loop (s : list byte) : option (list byte) :=
  match s with
  | a :: b :: c :: d :: rest =>
    match b64_decode_group a b c d (match rest with [] => true | _ => false end) with
    | None => None
    | Some out =>
      match b64_decode_loop rest with
      | Some out' => Some (out ++ out')
      | None => None
      end
    end
  | _ => Some []
  end.

Definition base64_decode (s : list byte) : option (list byte) :=
  if negb (len s mod 4 =? 0) then None else b64_decode_loop s.

(** *** Lengths *)

Lemma length_hex_encode d : length (hex_encode d) = (2 * length d)%nat.
Proof. induction d; simpl; lia. Qed.

(** Induction three bytes, or four characters, at a time. *)
Lemma list_ind3 {A} (P : list A -> Prop) :
  P [] -> (forall a, P [a]) -> (forall a b, P [a; b]) ->
  (forall a b c l, P l -> P (a :: b :: c :: l)) -> forall l, P l.
Proof.
  intros H0 H1 H2 H3.
  cut (forall n l, (length l <= n)%nat -> P l); [eauto|].
  induction n as [|n IH]; intros [|a [|b [|c l]]]; simpl; auto; try lia.
  intros Hl. apply H3, IH. lia.
Qed.

Lemma list_ind2 {A} (P : list A -> Prop) :
  P [] -> (forall a, P [a]) ->
  (forall a b l, P l -> P (a :: b :: l)) -> forall l, P l.
Proof.
  intros H0 H1 H2.
  cut (forall n l, (length l <= n)%nat -> P l); [eauto|].
  induction n as [|n IH]; intros [|a [|b l]]; simpl; auto; try lia.
  intros Hl. apply H2, IH. lia.
Qed.

Lemma len_base64_encode d : len (base64_encode d) = (len d + 2) / 3 * 4.
Proof.
  induction d as [|a|a b|a b c d IH] using list_ind3; try reflexivity.
  cbn [base64_encode]. rewrite len_app, IH. unfold len. cbn [length].
  rewrite !Nat2Z.inj_succ.
  replace (Z.succ (Z.succ (Z.succ (Z.of_nat (length d)))) + 2)
    with (Z.of_nat (length d) + 2 + 1 * 3) by lia.
  rewrite Z.div_add by lia. simpl (Z.of_nat (length (b64_group _ _ _))). lia.
Qed.

(** *** Hexadecimal *)

Lemma hex_pair_roundtrip b :
  hex_val (hex_char (Z.shiftr (u8 b) 4)) <> 255 /\
  hex_val (hex_char (Z.land (u8 b) 15)) <> 255 /\
  to_u8 (Z.lor (Z.shiftl (hex_val (hex_char (Z.shiftr (u8 b) 4))) 4)
               (hex_val (hex_char (Z.land (u8 b) 15)))) = b.
Proof.
  assert (Hc : forallb (fun b =>
    negb (hex_val (hex_char (Z.shiftr (u8 b) 4)) =? 255) &&
    negb (hex_val (hex_char (Z.land (u8 b) 15)) =? 255) &&
    bool_decide (to_u8 (Z.lor (Z.shiftl (hex_val (hex_char (Z.shiftr (u8 b) 4))) 4)
               (hex_val (hex_char (Z.land (u8 b) 15)))) = b)) all_bytes = true)
    by (vm_compute; reflexivity).
  pose proof (forall_bytes _ Hc b) as H. cbv beta in H. bool_to_prop. auto.
Qed.

Lemma hex_decode_loop_encode d : hex_decode_loop (hex_encode d) = Some d.
Proof.
  induction d as [|b d IH]; [reflexivity|].
  cbn [hex_encode hex_decode_loop]. destruct (hex_pair_roundtrip b) as (Hh & Hl & Hb).
  apply Z.eqb_neq in Hh, Hl. rewrite Hh, Hl, IH. cbn [orb]. by rewrite Hb.
Qed.

(** The lower-case form of a hexadecimal digit. *)
Definition hex_lower (c : byte) : byte :=
  if (65 <=? u8 c) && (u8 c <=? 70) then to_u8 (u8 c + 32) else c.

Definition is_hex (c : byte) : bool := negb (hex_val c =? 255).

Lemma hex_chars_roundtrip c0 c1 :
  is_hex c0 = true -> is_hex c1 = true ->
  hex2 (to_u8 (Z.lor (Z.shiftl (hex_val c0) 4) (hex_val c1))) = [hex_lower c0; hex_lower c1].
Proof.
  assert (Hc : forallb (fun c0 => forallb (fun c1 =>
    implb (is_hex c0) (implb (is_hex c1) (bool_decide
     (hex2 (to_u8 (Z.lor (Z.shiftl (hex_val c0) 4) (hex_val c1)))
      = [hex_lower c0; hex_lower c1])))) all_bytes) all_bytes = true)
    by (vm_compute; reflexivity).
  pose proof (forall_byte_pairs _ Hc c0 c1) as H. cbv beta in H. clear Hc.
  intros H0 H1. rewrite H0, H1 in H. cbn [implb] in H. by bool_to_prop.
Qed.

Lemma hex_decode_loop_inv s d :
  hex_decode_loop s = Some d -> len s mod 2 = 0 ->
  forallb is_hex s = true /\ hex_encode d = map hex_lower s.
Proof.
  revert d. induction s as [|a|a b s IH] using list_ind2; intros d Hd Hs.
  - injection Hd as <-. auto.
  - discriminate Hs.
  - cbn [hex_decode_loop] in Hd.
    destruct ((hex_val a =? 255) || (hex_val b =? 255)) eqn:E; [discriminate|].
    destruct (hex_decode_loop s) as [out|]; [|discriminate]. injection Hd as <-.
    apply orb_false_iff in E as [Ea Eb].
    assert (len s mod 2 = 0) as Hs'.
    { rewrite !len_cons in Hs. rewrite <- Hs.
      replace (1 + (1 + len s)) with (len s + 1 * 2) by lia. by rewrite Z.mod_add. }
    destruct (IH out eq_refl Hs') as [IH1 IH2].
    assert (is_hex a = true /\ is_hex b = true) as [Ha Hb] by (unfold is_hex; by rewrite Ea, Eb).
    cbn [forallb map]. rewrite Ha, Hb, IH1. split; [reflexivity|].
    pose proof (hex_chars_roundtrip a b Ha Hb) as Hc.
    unfold hex2 in Hc. cbn [hex_encode]. injection Hc as -> ->. by rewrite IH2.
Qed.

Lemma hex_decode_loop_complete s :
  forallb is_hex s = true -> exists d, hex_decode_loop s = Some d.
Proof.
  induction s as [|a|a b s IH] using list_ind2; intros H.
  - exists []. reflexivity.
  - exists []. reflexivity.
  - cbn [forallb] in H. bool_to_prop. destruct IH as [d Hd]; [done|].
    unfold is_hex in *. bool_to_prop. cbn [hex_decode_loop].
    rewrite Hd. destruct (Z.eqb_spec (hex_val a) 255), (Z.eqb_spec (hex_val b) 255);
      try lia. eexists. reflexivity.
Qed.

(** *** Base64 *)

Lemma b64_val_char i : 0 <= i < 64 -> b64_val (b64_char i) = i.
Proof.
  intros Hi.
  assert (Hc : forallb (fun n => b64_val (b64_char (Z.of_nat n)) =? Z.of_nat n) (seq 0 64) = true)
    by (vm_compute; reflexivity).
  rewrite forallb_forall in Hc. specialize (Hc (Z.to_nat i)).
  rewrite Z2Nat.id in Hc by lia. apply Z.eqb_eq, Hc, in_seq. lia.
Qed.

Lemma b64_val_pad : b64_val PAD = 254.
Proof. reflexivity. Qed.

(** The decode table is the one the constexpr loop builds. *)
Lemma K_B64_DECODE_table : K_B64_DECODE = make_b64_decode_table.
Proof. vm_compute. reflexivity. Qed.

(** The four sextets of a group stay inside the alphabet, and the shifts of the
    decoder undo those of the encoder. *)
Lemma b64_sextets b0 b1 :
  (0 <= Z.shiftr (u8 b0) 2 < 64 /\ 0 <= Z.land (u8 b0) 63 < 64) /\
  0 <= Z.lor (Z.shiftl (Z.land (u8 b0) 3) 4) (Z.shiftr (u8 b1) 4) < 64 /\
  0 <= Z.lor (Z.shiftl (Z.land (u8 b0) 15) 2) (Z.shiftr (u8 b1) 6) < 64.
Proof.
  assert (Hc : forallb (fun b0 => forallb (fun b1 =>
    ((0 <=? Z.shiftr (u8 b0) 2) && (Z.shiftr (u8 b0) 2 <? 64)) &&
    ((0 <=? Z.land (u8 b0) 63) && (Z.land (u8 b0) 63 <? 64)) &&
    ((0 <=? Z.lor (Z.shiftl (Z.land (u8 b0) 3) 4) (Z.shiftr (u8 b1) 4)) &&
     (Z.lor (Z.shiftl (Z.land (u8 b0) 3) 4) (Z.shiftr (u8 b1) 4) <? 64)) &&
    ((0 <=? Z.lor (Z.shiftl (Z.land (u8 b0) 15) 2) (Z.shiftr (u8 b1) 6)) &&
     (Z.lor (Z.shiftl (Z.land (u8 b0) 15) 2) (Z.shiftr (u8 b1) 6) <? 64)))
    all_bytes) all_bytes = true) by (vm_compute; reflexivity).
  pose proof (forall_byte_pairs _ Hc b0 b1) as H. cbv beta in H. bool_to_prop. lia.
Qed.

Lemma b64_join b0 b1 :
  to_u8 (Z.lor (Z.shiftl (Z.shiftr (u8 b0) 2) 2)
    (Z.shiftr (Z.lor (Z.shiftl (Z.land (u8 b0) 3) 4) (Z.shiftr (u8 b1) 4)) 4)) = b0 /\
  to_u8 (Z.lor (Z.shiftl (Z.lor (Z.shiftl (Z.land (u8 b0) 15) 2) (Z.shiftr (u8 b1) 6)) 6)
    (Z.land (u8 b1) 63)) = b1.
Proof.
  assert (Hc : forallb (fun b0 => forallb (fun b1 =>
   (u8 (to_u8 (Z.lor (Z.shiftl (Z.shiftr (u8 b0) 2) 2)
    (Z.shiftr (Z.lor (Z.shiftl (Z.land (u8 b0) 3) 4) (Z.shiftr (u8 b1) 4)) 4))) =? u8 b0) &&
   (u8 (to_u8 (Z.lor (Z.shiftl (Z.lor (Z.shiftl (Z.land (u8 b0) 15) 2) (Z.shiftr (u8 b1) 6)) 6)
    (Z.land (u8 b1) 63))) =? u8 b1)) all_bytes) all_bytes = true) by (vm_compute; reflexivity).
  pose proof (forall_byte_pairs _ Hc b0 b1) as H. cbv beta in H. bool_to_prop.
  split; by apply u8_inj.
Qed.

(** The middle byte depends on three inputs: its high half comes from the
    second sextet, its low half from the third. *)
Lemma b64_join_mid b0 b1 b2 :
  to_u8 (Z.lor (Z.shiftl (Z.lor (Z.shiftl (Z.land (u8 b0) 3) 4) (Z.shiftr (u8 b1) 4)) 4)
    (Z.shiftr (Z.lor (Z.shiftl (Z.land (u8 b1) 15) 2) (Z.shiftr (u8 b2) 6)) 2)) = b1.
Proof.
  assert (Hlow : Z.shiftr (Z.lor (Z.shiftl (Z.land (u8 b1) 15) 2) (Z.shiftr (u8 b2) 6)) 2
                 = Z.land (u8 b1) 15).
  { rewrite Z.shiftr_lor, Z.shiftr_shiftr, Z.shiftr_shiftl_l by lia. cbn [Z.sub Z.add Z.opp].
    rewrite Z.shiftl_0_r. rewrite (Z.shiftr_div_pow2 (u8 b2)) by lia.
    pose proof (u8_range b2). rewrite Z.div_small by (simpl; lia). apply Z.lor_0_r. }
  rewrite Hlow.
  assert (Hc : forallb (fun b0 => forallb (fun b1 =>
    u8 (to_u8 (Z.lor (Z.shiftl (Z.lor (Z.shiftl (Z.land (u8 b0) 3) 4) (Z.shiftr (u8 b1) 4)) 4)
    (Z.land (u8 b1) 15))) =? u8 b1) all_bytes) all_bytes = true) by (vm_compute; reflexivity).
  pose proof (forall_byte_pairs _ Hc b0 b1) as H. cbv beta in H. by apply u8_inj, Z.eqb_eq.
Qed.

Ltac sextet_ranges :=
  repeat match goal with
  | |- context [b64_val (b64_char ?i)] => rewrite (b64_val_char i)
  end.

Lemma b64_decode_group_full b0 b1 b2 last :
  b64_decode_group (b64_char (Z.shiftr (u8 b0) 2))
    (b64_char (Z.lor (Z.shiftl (Z.land (u8 b0) 3) 4) (Z.shiftr (u8 b1) 4)))
    (b64_char (Z.lor (Z.shiftl (Z.land (u8 b1) 15) 2) (Z.shiftr (u8 b2) 6)))
    (b64_char (Z.land (u8 b2) 63)) last = Some [b0; b1; b2].
Proof.
  destruct (b64_sextets b0 b1) as ((H0 & _) & H1 & _).
  destruct (b64_sextets b1 b2) as (_ & _ & H2).
  destruct (b64_sextets b2 b2) as ((_ & H3) & _).
  unfold b64_decode_group. rewrite !b64_val_char by assumption.
  rewrite !(proj2 (Z.leb_gt _ _)), !(proj2 (Z.eqb_neq _ _)) by lia.
  cbn [orb andb negb app]. rewrite b64_join_mid.
  destruct (b64_join b0 b1) as [-> _]. destruct (b64_join b1 b2) as [_ ->]. reflexivity.
Qed.

Lemma b64_decode_group_two b0 b1 :
  b64_decode_group (b64_char (Z.shiftr (u8 b0) 2))
    (b64_char (Z.lor (Z.shiftl (Z.land (u8 b0) 3) 4) (Z.shiftr (u8 b1) 4)))
    (b64_char (Z.lor (Z.shiftl (Z.land (u8 b1) 15) 2) (Z.shiftr (u8 x00) 6)))
    PAD true = Some [b0; b1].
Proof.
  destruct (b64_sextets b0 b1) as ((H0 & _) & H1 & _).
  destruct (b64_sextets b1 x00) as (_ & _ & H2).
  unfold b64_decode_group. rewrite !b64_val_char by assumption. rewrite b64_val_pad.
  rewrite !(proj2 (Z.leb_gt _ _)), !(proj2 (Z.eqb_neq _ _)) by lia.
  cbn [orb andb negb app Z.eqb Pos.eqb]. rewrite b64_join_mid.
  destruct (b64_join b0 b1) as [-> _]. reflexivity.
Qed.

Lemma b64_decode_group_one b0 :
  b64_decode_group (b64_char (Z.shiftr (u8 b0) 2))
    (b64_char (Z.lor (Z.shiftl (Z.land (u8 b0) 3) 4) (Z.shiftr (u8 x00) 4)))
    PAD PAD true = Some [b0].
Proof.
  destruct (b64_sextets b0 x00) as ((H0 & _) & H1 & _).
  unfold b64_decode_group. rewrite !b64_val_char by assumption. rewrite b64_val_pad.
  rewrite !(proj2 (Z.leb_gt _ _)) by lia.
  cbn [orb andb negb app Z.eqb Pos.eqb].
  destruct (b64_join b0 x00) as [-> _]. reflexivity.
Qed.

Lemma b64_decode_loop_encode d : b64_decode_loop (base64_encode d) = Some d.
Proof.
  induction d as [|a|a b|a b c d IH] using list_ind3; [reflexivity| | |].
  - cbn [base64_encode b64_decode_loop b64_group app].
    rewrite b64_decode_group_one. reflexivity.
  - cbn [base64_encode b64_decode_loop b64_group app].
    rewrite b64_decode_group_two. reflexivity.
  - cbn [base64_encode b64_decode_loop b64_group app].
    rewrite b64_decode_group_full, IH. reflexivity.
Qed.

(** *** The random source and the UUID format *)

Lemma csprng_fill_length sys n l :
  csprng_fill sys n = Some (Ok l) -> length l = n.
Proof.
  revert n l. induction sys as [|g sys IH]; intros [|n] l; cbn [csprng_fill].
  1,3: by intros [= <-].
  - discriminate.
  - destruct g as [b| |].
    + destruct (csprng_fill sys _) as [[r|]|] eqn:E; try discriminate.
      intros [= <-]. rewrite length_app, (IH _ _ E), length_take. lia.
    + apply IH.
    + discriminate.
Qed.

Lemma length_uuid_set_bits rnd : length (uuid_set_bits rnd) = length rnd.
Proof. unfold uuid_set_bits. rewrite !length_insert. reflexivity. Qed.


(** A lower-case hexadecimal digit. *)
Definition is_hex_lower (c : byte) : bool := is_hex c && bool_decide (hex_lower c = c).

Lemma hex2_lower b :
  is_hex_lower (hex_char (Z.shiftr (u8 b) 4)) = true /\
  is_hex_lower (hex_char (Z.land (u8 b) 15)) = true.
Proof.
  assert (Hc : forallb (fun b => is_hex_lower (hex_char (Z.shiftr (u8 b) 4)) &&
    is_hex_lower (hex_char (Z.land (u8 b) 15))) all_bytes = true) by (vm_compute; reflexivity).
  apply andb_true_iff, (forall_bytes _ Hc b).
Qed.

Lemma hex_encode_lower d : forallb is_hex_lower (hex_encode d) = true.
Proof.
  induction d as [|b d IH]; [reflexivity|]. cbn [hex_encode forallb].
  destruct (hex2_lower b) as [-> ->]. exact IH.
Qed.

Lemma hex_lower_fixed s :
  forallb is_hex_lower s = true -> forallb is_hex s = true /\ map hex_lower s = s.
Proof.
  induction s as [|c s IH]; [done|]. cbn [forallb map]. unfold is_hex_lower at 1.
  intros H. bool_to_prop. destruct IH as [-> ->]; [done|].
  split; [by rewrite andb_true_r|congruence].
Qed.

(** The canonical form [xxxxxxxx-xxxx-4xxx-yxxx-xxxxxxxxxxxx], [y] one of
    [8], [9], [a], [b]. *)
Definition uuid_v4_shape (s : list byte) : bool :=
  (len s =? 36) &&
  forallb (fun i =>
    let c := nth i s x00 in
    if existsb (Nat.eqb i) [8; 13; 18; 23]%nat then bool_decide (c = DASH)
    else if Nat.eqb i 14 then u8 c =? 52
    else if Nat.eqb i 19 then existsb (fun d => u8 c =? d) [56; 57; 97; 98]
    else is_hex_lower c) (seq 0 36).

Lemma uuid_version_digit b :
  u8 (hex_char (Z.shiftr (u8 (to_u8 (Z.lor (Z.land (u8 b) 15) 64))) 4)) = 52.
Proof.
  assert (Hc : forallb (fun b =>
    u8 (hex_char (Z.shiftr (u8 (to_u8 (Z.lor (Z.land (u8 b) 15) 64))) 4)) =? 52)
    all_bytes = true) by (vm_compute; reflexivity).
  apply Z.eqb_eq, (forall_bytes _ Hc b).
Qed.

Lemma uuid_variant_digit b :
  existsb (fun d => u8 (hex_char (Z.shiftr (u8 (to_u8 (Z.lor (Z.land (u8 b) 63) 128))) 4)) =? d)
    [56; 57; 97; 98] = true.
Proof.
  assert (Hc : forallb (fun b => existsb (fun d =>
    u8 (hex_char (Z.shiftr (u8 (to_u8 (Z.lor (Z.land (u8 b) 63) 128))) 4)) =? d)
    [56; 57; 97; 98]) all_bytes = true) by (vm_compute; reflexivity).
  apply (forall_bytes _ Hc b).
Qed.

Lemma uuid_format_shape rnd :
  length rnd = 16%nat -> uuid_v4_shape (uuid_format (uuid_set_bits rnd)) = true.
Proof.
  intros Hl. do 16 (destruct rnd as [|? rnd]; [discriminate Hl|]).
  destruct rnd; [clear Hl|discriminate Hl].
  unfold uuid_v4_shape. apply andb_true_iff. split; [reflexivity|].
  unfold uuid_set_bits, uuid_format, slice.
  cbn [insert list_insert nth take drop hex_encode app seq forallb existsb Nat.eqb orb].
  rewrite uuid_version_digit, bool_decide_true by reflexivity.
  pose proof (fun b => proj1 (hex2_lower b)) as Hh.
  pose proof (fun b => proj2 (hex2_lower b)) as Hlo.
  rewrite !Hh, !Hlo. cbn [andb Z.eqb Pos.eqb]. rewrite andb_true_r. apply uuid_variant_digit.
Qed.

(** *** Properties *)

(** Base64 decoding inverts encoding on every byte string. *)
Theorem base64_roundtrip (d : list byte) : base64_decode (base64_encode d) = Some d.
Proof.
  unfold base64_decode. rewrite len_base64_encode, Z.mod_mul by lia.
  apply b64_decode_loop_encode.
Qed.

(** Hexadecimal decoding inverts encoding, and a string is accepted exactly
    when its length is even and all its characters are hexadecimal digits of
    either case; the decoded bytes then print as its lower-case form. *)
Theorem hex_decode_spec :
  (forall d, hex_decode (hex_encode d) = Some d) /\
  (forall s d, hex_decode s = Some d <->
     len s mod 2 = 0 /\ forallb is_hex s = true /\ hex_encode d = map hex_lower s).
Proof.
  split.
  - intros d. unfold hex_decode, len. rewrite length_hex_encode, Nat2Z.inj_mul.
    rewrite Z.mul_comm, Z.mod_mul by lia. apply hex_decode_loop_encode.
  - intros s d. unfold hex_decode. destruct (len s mod 2 =? 0) eqn:E; bool_to_prop; cbn [negb].
    + split.
      * intros H. split; [done|]. by apply hex_decode_loop_inv.
      * intros (_ & Hs & Hd). destruct (hex_decode_loop_complete s Hs) as [d' Hd'].
        destruct (hex_decode_loop_inv s d' Hd' E) as [_ Hd2]. rewrite <- Hd2 in Hd.
        apply (f_equal hex_decode_loop) in Hd.
        rewrite !hex_decode_loop_encode in Hd. congruence.
    + split; [discriminate|]. intros [H _]. contradiction.
Qed.

(** A generated UUID has the canonical version-4 shape: 36 characters,
    dashes at 8, 13, 18 and 23, version digit 4, variant digit in [89ab], every
    other character a lower-case hexadecimal digit; and however often the
    system call is interrupted first, 16 bytes of randomness give one. *)
Theorem uuid_v4_canonical :
  (forall sys s, uuid_v4 sys = Some (Ok s) -> uuid_v4_shape s = true) /\
  (forall k l, (16 <= length l)%nat ->
     try_uuid_v4 (replicate k GrEINTR ++ [GrBytes l])
     = Some (inl (uuid_format (uuid_set_bits (take 16 l))))).
Proof.
  split.
  - intros sys s. unfold uuid_v4.
    destruct (csprng_fill sys 16) as [[rnd|]|] eqn:E; try discriminate.
    intros [= <-]. eapply uuid_format_shape, csprng_fill_length, E.
  - intros k l Hl. unfold try_uuid_v4, uuid_v4.
    assert (csprng_fill (replicate k GrEINTR ++ [GrBytes l]) 16 = Some (Ok (take 16 l))) as ->;
      [|reflexivity].
    induction k as [|k IH]; [|exact IH].
    cbn [replicate app csprng_fill]. rewrite length_take, Nat.min_l by lia.
    rewrite Nat.sub_diag. by rewrite app_nil_r.
Qed.

End Utils.
