(* ===== verification/Types.v ===== *)
(** * PKCS#11 types and constants

    The return codes, object classes, attribute types, session states and flags
    of [src/src/domain/pkcs11/pkcs11_types.h], [src/src/pkcs11/pkcs11_types.h],
    [src/src/pkcs11/pkcs11_internal.h] and [src/src/keystore/key_state.h] that
    the modelled operations use.
    A [CK_RV], like every [CK_ULONG], is an integer. *)

From S2P Require Import Prelude.

Definition CK_RV : Set := Z.

Definition CK_FALSE := 0.
Definition CK_TRUE := 1.

Definition CKR_OK := 0x00.
Definition CKR_SLOT_ID_INVALID := 0x03.
Definition CKR_GENERAL_ERROR := 0x05.
Definition CKR_FUNCTION_FAILED := 0x06.
Definition CKR_ARGUMENTS_BAD := 0x07.
Definition CKR_ATTRIBUTE_READ_ONLY := 0x10.
Definition CKR_ATTRIBUTE_SENSITIVE := 0x11.
Definition CKR_ATTRIBUTE_TYPE_INVALID := 0x12.
Definition CKR_ATTRIBUTE_VALUE_INVALID := 0x13.
Definition CKR_OBJECT_HANDLE_INVALID := 0x52.
Definition CKR_OPERATION_ACTIVE := 0x53.
Definition CKR_OPERATION_NOT_INITIALIZED := 0x54.
Definition CKR_PIN_INCORRECT := 0x5A.
Definition CKR_PIN_LEN_RANGE := 0x5C.
Definition CKR_PIN_LOCKED := 0x5E.
Definition CKR_SESSION_COUNT := 0x60.
Definition CKR_SESSION_HANDLE_INVALID := 0x61.
Definition CKR_SESSION_PARALLEL_NOT_SUPPORTED := 0x62.
Definition CKR_SESSION_READ_ONLY := 0x63.
Definition CKR_SESSION_READ_ONLY_SO_EXISTS := 0x65.
Definition CKR_TOKEN_NOT_PRESENT := 0x72.
Definition CKR_USER_ALREADY_LOGGED_IN := 0x78.
Definition CKR_USER_NOT_LOGGED_IN := 0x79.
Definition CKR_USER_PIN_NOT_INITIALIZED := 0x7A.
Definition CKR_USER_TYPE_INVALID := 0x7B.
Definition CKR_USER_PIN_ALREADY_INITIALIZED := 0x102.
Definition CKR_SO_PIN_NOT_INITIALIZED := 0x107.
Definition CKR_SO_PIN_ALREADY_INITIALIZED := 0x108.
Definition CKR_BUFFER_TOO_SMALL := 0x150.
Definition CKR_HOST_MEMORY := 0x02.
Definition CKR_PIN_INVALID := 0x5B.
Definition CKR_TEMPLATE_INCOMPLETE := 0x70.
Definition CKR_CRYPTOKI_NOT_INITIALIZED := 0xD0.
Definition CKR_ACTION_PROHIBITED := 0x148.

Definition CKR_DEVICE_ERROR := 0x30.
Definition CKR_ENCRYPTED_DATA_LEN_RANGE := 0x41.
Definition CKR_MECHANISM_INVALID := 0x50.
Definition CKR_MECHANISM_PARAM_INVALID := 0x51.
Definition CKR_FUNCTION_NOT_SUPPORTED := 0x54.
Definition CKR_SIGNATURE_INVALID := 0x56.
Definition CKR_KEY_HANDLE_INVALID := 0x93.
Definition CKR_KEY_INDIGESTIBLE := 0x96.
Definition CKR_KEY_FUNCTION_NOT_PERMITTED := 0x97.
Definition CKR_KEY_TYPE_INCONSISTENT := 0x9A.
Definition CKR_WRAPPING_KEY_HANDLE_INVALID := 0x69.
Definition CKR_UNWRAPPING_KEY_HANDLE_INVALID := 0x75.
Definition CKR_WRAPPED_KEY_INVALID := 0x7E.
Definition CKR_KEY_SIZE_RANGE := 0xA1.
Definition CKR_KEY_UNEXTRACTABLE := 0x130.

Definition CKU_INVALID := 0.
Definition CKU_USER := 1.
Definition CKU_SO := 2.

Definition CKS_RO_PUBLIC_SESSION := 0x00.
Definition CKS_RO_USER_FUNCTIONS := 0x01.
Definition CKS_RW_PUBLIC_SESSION := 0x02.
Definition CKS_RW_USER_FUNCTIONS := 0x03.
Definition CKS_RW_SO_FUNCTIONS := 0x04.
Definition CKS_RO_SO_FUNCTIONS := 0x05.

Definition CKF_RW_SESSION := 0x02.
Definition CKF_SERIAL_SESSION := 0x04.
Definition CKF_TOKEN_PRESENT := 0x01.
Definition CKF_HW_SLOT := 0x02.
Definition CKF_REMOVABLE_DEVICE := 0x04.

Definition CKO_DATA := 0x00.
Definition CKO_CERTIFICATE := 0x01.
Definition CKO_PUBLIC_KEY := 0x02.
Definition CKO_PRIVATE_KEY := 0x03.
Definition CKO_SECRET_KEY := 0x04.
Definition CKO_HW_FEATURE := 0x05.
Definition CKO_DOMAIN_PARAMETERS := 0x06.
Definition CKO_OTHER := 0x10.

Definition CKA_CLASS := 0x00.
Definition CKA_TOKEN := 0x01.
Definition CKA_PRIVATE := 0x02.
Definition CKA_LABEL := 0x03.
Definition CKA_VALUE := 0x11.
Definition CKA_VALUE_LEN := 0x161.
Definition CKA_ID := 0x102.
Definition CKA_SENSITIVE := 0x103.
Definition CKA_EXTRACTABLE := 0x162.
Definition CKA_KEY_TYPE := 0x100.
Definition CKA_MODULUS_BITS := 0x121.
Definition CKA_EC_PARAMS := 0x180.
Definition CKA_EC_POINT := 0x181.
Definition CKA_VHSM_RSA_PRIV := 0x81000001.
Definition CKA_VHSM_RSA_PUB := 0x81000002.
Definition CKA_VHSM_EC_PRIV := 0x81000003.
Definition CKA_VHSM_EC_PUB := 0x81000004.
Definition CKA_VHSM_POLICY := 0x81000005.
Definition CKA_VHSM_ATTESTATION_COUNT := 0x81000006.
Definition CKF_ARRAY_ATTRIBUTE := 0x40000000.
Definition CKA_VHSM_KEY_STATE := 0x81000004.

(** Mechanisms. *)
Definition CKM_RSA_PKCS_KEY_PAIR_GEN := 0x00.
Definition CKM_RSA_PKCS := 0x01.
Definition CKM_RSA_X_509 := 0x03.
Definition CKM_RSA_PKCS_OAEP := 0x09.
Definition CKM_RSA_PKCS_PSS := 0x0D.
Definition CKM_SHA1_RSA_PKCS_PSS := 0x0E.
Definition CKM_SHA256_RSA_PKCS_PSS := 0x0F.
Definition CKM_SHA384_RSA_PKCS_PSS := 0x10.
Definition CKM_SHA512_RSA_PKCS_PSS := 0x11.
Definition CKM_ECDH1_DERIVE := 0x30.
Definition CKM_ECDSA := 0x41.
Definition CKM_ECDSA_SHA256 := 0x1043.
Definition CKM_ECDSA_SHA384 := 0x1044.
Definition CKM_ECDSA_SHA512 := 0x1045.
Definition CKM_ECDSA_KEY_PAIR_GEN := 0x40.
Definition CKM_EC_KEY_PAIR_GEN := 0x1040.
Definition CKM_AES_KEY_GEN := 0x1080.
Definition CKM_AES_ECB := 0x1081.
Definition CKM_AES_CBC := 0x1082.
Definition CKM_AES_CBC_PAD := 0x1085.
Definition CKM_AES_CTR := 0x1086.
Definition CKM_AES_GCM := 0x1087.
Definition CKM_AES_KEY_WRAP := 0x2109.
Definition CKM_SHA_1 := 0x220.
Definition CKM_SHA256_RSA_PKCS := 0x241.
Definition CKM_SHA384_RSA_PKCS := 0x242.
Definition CKM_SHA512_RSA_PKCS := 0x243.
Definition CKM_SHA_256 := 0x250.
Definition CKM_SHA_384 := 0x260.
Definition CKM_SHA_512 := 0x270.
Definition CKM_SHA256 := 0x250.
Definition CKM_SHA384 := 0x260.
Definition CKM_SHA512 := 0x270.
Definition CKM_SHA256_HMAC := 0x290.
Definition CKM_SHA384_HMAC := 0x291.
Definition CKM_SHA512_HMAC := 0x292.
Definition CKM_VENDOR_DEFINED := 0x80000000.

Definition CKK_RSA := 0x00.
Definition CKK_EC := 0x03.
Definition CKK_GENERIC_SECRET := 0x10.
Definition CKK_AES := 0x1F.

Definition CK_INVALID_HANDLE := 0.

Definition CK_UNAVAILABLE_INFORMATION := 2 ^ 64 - 1.

(** [static_cast] of a flag test to bool: [(flags & f) != 0]. *)
Definition has_flag (flags f : Z) : bool := negb (Z.land flags f =? 0).
