(* ===== verification/Notification.v ===== *)
(** * Notification events and the bounded bus

    [src/src/notification/notification_event.h] and
    [src/src/notification/bounded_notification_bus.cpp].  Every method of the bus
    holds its mutex for the whole body, so it is one step; [pop_timeout] takes
    from its condition variable only whether an event arrived in time. *)

From S2P Require Import Prelude.

Module EventType.
Inductive EventType : Type :=
| SIGN_CREATED | DB_WRITE_FAILED | LEDGER_COMMIT_FAILED | LEDGER_COMMITTED
| LEDGER_VERIFY_FAILED | VERIFY_COMPLETED | VERIFY_FAILED | ENCRYPT_COMPLETED
| DECRYPT_COMPLETED | WRAP_KEY_COMPLETED | UNWRAP_KEY_COMPLETED | KEY_ROTATED
| KEY_DESTROYED | INTEGRITY_ALERT | ADMIN_LOGIN | PIN_LOCKOUT.
End EventType.

Module Severity.
Inductive Severity : Type := INFO | WARNING | CRITICAL.
End Severity.

#[global] Instance EventType_eq_dec : EqDecision EventType.EventType.
Proof. solve_decision. Defined.
#[global] Instance Severity_eq_dec : EqDecision Severity.Severity.
Proof. solve_decision. Defined.

Record NotificationEvent : Type := mkEvent {
  ev_type : EventType.EventType;
  ev_severity : Severity.Severity;
  ev_timestamp : Z;
  ev_source : list byte;
  ev_actor : list byte;
  ev_summary : list byte;
  ev_detail_json : list byte;
  ev_hsm_instance : list byte
}.

#[global] Instance NotificationEvent_eq_dec : EqDecision NotificationEvent.
Proof. solve_decision. Defined.

(** What producers rely on: [NotificationBus::publish]. *)
Class NotificationBus (B : Type) : Type := publish_event : B -> NotificationEvent -> B.

Module Bus.

Record BoundedNotificationBus : Type := mkBus {
  capacity_ : Z;
  queue_ : list NotificationEvent;
  dropped_ : Z
}.

Definition new_bus (capacity : Z) : BoundedNotificationBus :=
  mkBus (if 0 <? capacity then capacity else 1) [] 0.

Definition publish (b : BoundedNotificationBus) (e : NotificationEvent) : BoundedNotificationBus :=
  if capacity_ b <=? len (queue_ b) then mkBus (capacity_ b) (queue_ b) (u64 (dropped_ b + 1))
  else mkBus (capacity_ b) (queue_ b ++ [e]) (dropped_ b).

#[global] Instance bounded_bus : NotificationBus BoundedNotificationBus := publish.

Definition try_pop (b : BoundedNotificationBus) : option NotificationEvent * BoundedNotificationBus :=
  match queue_ b with
  | [] => (None, b)
  | e :: q => (Some e, mkBus (capacity_ b) q (dropped_ b))
  end.

(** [arrived]: the events other threads publish while this one waits; the wait
    ends as soon as the queue is not empty, or at the timeout. *)
Definition pop_timeout (b : BoundedNotificationBus) (arrived : list NotificationEvent)
    : option NotificationEvent * BoundedNotificationBus :=
  try_pop (match queue_ b with [] => fold_left publish arrived b | _ => b end).

Definition size (b : BoundedNotificationBus) : Z := len (queue_ b).
Definition dropped_count (b : BoundedNotificationBus) : Z := dropped_ b.

(** ** Runs

    A run of the bus: producers publish, the consumer pops. *)
Inductive BusOp : Type := Publish (e : NotificationEvent) | Pop.

Record Run : Type := mkRun {
  bus : BoundedNotificationBus;
  accepted : list NotificationEvent;
  delivered : list NotificationEvent;
  refused : Z
}.

Definition bus_step (r : Run) (op : BusOp) : Run :=
  match op with
  | Publish e =>
    let b := publish (bus r) e in
    if size (bus r) <? size b then mkRun b (accepted r ++ [e]) (delivered r) (refused r)
    else mkRun b (accepted r) (delivered r) (refused r + 1)
  | Pop =>
    match try_pop (bus r) with
    | (Some e, b) => mkRun b (accepted r) (delivered r ++ [e]) (refused r)
    | (None, b) => mkRun b (accepted r) (delivered r) (refused r)
    end
  end.

Definition run (capacity : Z) (ops : list BusOp) : Run :=
  fold_left bus_step ops (mkRun (new_bus capacity) [] [] 0).

Definition published (ops : list BusOp) : list NotificationEvent :=
  omap (fun op => match op with Publish e => Some e | Pop => None end) ops.

Definition cap_of (capacity : Z) : Z := if 0 <? capacity then capacity else 1.

Record bus_ok (cap : Z) (r : Run) (pub : list NotificationEvent) : Prop := {
  bo_cap : capacity_ (bus r) = cap;
  bo_pos : 0 < cap;
  bo_size : size (bus r) <= cap;
  bo_fifo : accepted r = delivered r ++ queue_ (bus r);
  bo_sub : accepted r `sublist_of` pub;
  bo_count : len pub = len (accepted r) + refused r;
  bo_refused : 0 <= refused r;
  bo_dropped : dropped_count (bus r) = u64 (refused r)
}.

Lemma publish_size b e :
  size (publish b e) = if capacity_ b <=? size b then size b else size b + 1.
Proof.
  unfold size, publish. destruct (_ <=? _); [done|]. cbn [queue_]. rewrite len_app. done.
Qed.

Lemma bus_step_ok cap r pub op :
  bus_ok cap r pub -> bus_ok cap (bus_step r op) (pub ++ published [op]).
Proof.
  intros [Hc Hp Hs Hf Hsub Hn Hr Hd]. destruct op as [e|].
  - change (published [Publish e]) with [e]. cbn [bus_step]. rewrite publish_size, Hc.
    unfold publish, size, dropped_count in *. rewrite Hc.
    destruct (Z.leb_spec cap (len (queue_ (bus r)))) as [Hfull|Hfree].
    + rewrite Z.ltb_irrefl. split; unfold size, dropped_count;
        cbn [bus accepted delivered refused capacity_ queue_ dropped_]; rewrite ?len_app; try done; try lia.
      * by apply sublist_inserts_r.
      * rewrite len_cons, len_nil. lia.
      * rewrite Hd. unfold u64. by rewrite Zplus_mod_idemp_l.
    + rewrite (proj2 (Z.ltb_lt _ _)) by lia. split; unfold size, dropped_count;
        cbn [bus accepted delivered refused capacity_ queue_ dropped_];
        rewrite ?len_app, ?len_cons, ?len_nil; try done; try lia.
      * rewrite Hf, <- app_assoc. done.
      * by apply sublist_app.
  - change (published [Pop]) with (@nil NotificationEvent). cbn [bus_step]. rewrite app_nil_r. unfold try_pop.
    destruct (queue_ (bus r)) as [|e q] eqn:Eq.
    + split; cbn [bus accepted delivered refused]; rewrite ?Eq; done.
    + unfold size, dropped_count in *. rewrite Eq, len_cons in Hs.
      split; unfold size, dropped_count; cbn [bus accepted delivered refused capacity_ queue_ dropped_];
        try done; try lia. rewrite Hf, <- app_assoc. done.
Qed.

Lemma published_app a b : published (a ++ b) = published a ++ published b.
Proof. apply omap_app. Qed.

Lemma run_ok capacity ops : bus_ok (cap_of capacity) (run capacity ops) (published ops).
Proof.
  unfold run. assert (H0 : bus_ok (cap_of capacity) (mkRun (new_bus capacity) [] [] 0) []).
  { unfold cap_of, new_bus. destruct (Z.ltb_spec 0 capacity); split; unfold size;
      cbn [bus accepted delivered refused capacity_ queue_]; rewrite ?len_nil; done || lia. }
  revert H0. generalize (mkRun (new_bus capacity) [] [] 0) as r. change (published ops) with ([] ++ published ops).
  generalize (@nil NotificationEvent) as pub. induction ops as [|op ops IH]; intros pub r H; cbn [fold_left].
  - by rewrite app_nil_r.
  - change (op :: ops) with ([op] ++ ops). rewrite published_app, app_assoc. by apply IH, bus_step_ok.
Qed.

(** A run with one more operation. *)
Lemma run_snoc capacity ops op : run capacity (ops ++ [op]) = bus_step (run capacity ops) op.
Proof. unfold run. by rewrite fold_left_app. Qed.

(** C40: Whatever producers and the consumer do, the bus is a bounded first-in
    first-out queue: it never holds more than its capacity (1 for a capacity of 0), what
    was popped followed by what is queued is what was accepted, in the order of
    publication, and every event that is missing is counted as dropped (below 2^64
    events).  At any moment an event published to a queue with room is queued last, one
    published to a full queue changes nothing but the count, and a pop takes the first
    event of the queue, if there is one. *)
Theorem bus_bounded_fifo (capacity : Z) (ops : list BusOp) :
  let r := run capacity ops in
  size (bus r) <= cap_of capacity /\
  delivered r ++ queue_ (bus r) = accepted r /\
  accepted r `sublist_of` published ops /\
  (len (published ops) < 2 ^ 64 ->
     dropped_count (bus r) = len (published ops) - len (accepted r)) /\
  (len (published ops) <= cap_of capacity -> accepted r = published ops) /\
  (forall e, queue_ (bus (run capacity (ops ++ [Publish e]))) =
     if size (bus r) <? cap_of capacity then queue_ (bus r) ++ [e] else queue_ (bus r)) /\
  (let r' := run capacity (ops ++ [Pop]) in
   match queue_ (bus r) with
   | [] => r' = r
   | e :: q => delivered r' = delivered r ++ [e] /\ queue_ (bus r') = q
   end).
Proof.
  cbv zeta. destruct (run_ok capacity ops) as [Hc Hp Hs Hf Hsub Hn Hr Hd].
  split_and!; [done|done|done| | | |].
  - intros Hlt. rewrite Hd, u64_id; [lia|]. pose proof (len_nonneg (accepted (run capacity ops))). unfold is_u64. lia.
  - clear Hsub. intros Hle.
    assert (H : forall pre post, ops = pre ++ post -> accepted (run capacity pre) = published pre).
    { induction pre as [|op pre IH] using rev_ind; intros post Heq; [done|].
      rewrite <- app_assoc in Heq. specialize (IH _ Heq). unfold run in *. rewrite fold_left_app.
      cbn [fold_left]. fold (run capacity pre) in *. rewrite published_app.
      pose proof (run_ok capacity pre) as [Hc' _ _ Hf' _ _ _ _].
      destruct op as [e|]; cbn [bus_step published omap list_omap].
      - rewrite publish_size, Hc'. rewrite (proj2 (Z.leb_gt _ _)), (proj2 (Z.ltb_lt _ _)) by
          (try lia; rewrite Heq, published_app in Hle; cbn [app] in Hle;
           change (Publish e :: post) with ([Publish e] ++ post) in Hle;
           rewrite published_app in Hle; cbn in Hle; rewrite <- IH, Hf' in Hle; unfold size;
           autorewrite with vhsm in Hle;
           pose proof (len_nonneg (delivered (run capacity pre)));
           pose proof (len_nonneg (published post)); lia).
        cbn [accepted]. by rewrite IH.
      - rewrite app_nil_r. destruct (try_pop _) as [[e|] b]; cbn [accepted]; done. }
    apply (H ops []). by rewrite app_nil_r.
  - intros e. rewrite run_snoc. cbn [bus_step]. rewrite publish_size, Hc. unfold publish, size. rewrite Hc.
    destruct (Z.leb_spec (cap_of capacity) (len (queue_ (bus (run capacity ops))))) as [H|H].
    + rewrite Z.ltb_irrefl. cbn [bus queue_]. by rewrite (proj2 (Z.ltb_ge _ _)) by lia.
    + rewrite (proj2 (Z.ltb_lt _ (_ + 1))) by lia. cbn [bus queue_]. by rewrite (proj2 (Z.ltb_lt _ _)) by lia.
  - rewrite run_snoc. cbn [bus_step]. unfold try_pop. destruct (queue_ (bus (run capacity ops))) as [|e q] eqn:E; [|done].
    by destruct (run capacity ops).
Qed.

Definition sample_event (t : Z) : NotificationEvent :=
  mkEvent EventType.SIGN_CREATED Severity.INFO t [] [] [] [] [].

Lemma bus_bounded_fifo_witness :
  let ops := [Publish (sample_event 1); Publish (sample_event 2); Pop; Publish (sample_event 3)] in
  accepted (run 3 ops) = published ops /\ delivered (run 3 ops) = [sample_event 1] /\
  dropped_count (bus (run 1 ops)) = 1.
Proof. split; [|split; reflexivity]. apply (bus_bounded_fifo 3); vm_compute; discriminate. Defined.

End Bus.
