(* ===== verification/Snapshot.v ===== *)
(** * Token snapshots and payload migrations

    - [Snapshot]: the domain record of
      [src/src/domain/keystore/token_snapshot.h] and its versioned byte layout,
      [serialize_token_snapshot] and [deserialize_token_snapshot] of
      [src/src/persistence/token_serializer.cpp];
    - [Migrations]: the registry of [src/src/persistence/migrations.cpp].

    The theorems: the round trip with arbitrary trailing bytes, the rejection of
    every truncation, and the composition of migrations. *)

From S2P Require Import Prelude Codec.
Import LeBytes.

Module Snapshot.

(** [CK_BBOOL] is an unsigned char; [CK_TRUE] is 1 and [CK_FALSE] is 0. *)
Record TokenSnapshot : Type := mkSnapshot {
  label : list byte;
  id : list byte;
  max_session_count : Z;
  session_count : Z;
  max_rw_session_count : Z;
  rw_session_count : Z;
  token_initialized : Z;
  user_pin_set : Z;
  so_pin_set : Z;
  user_login_required : Z;
  so_login_required : Z;
  max_failed_attempts : Z;
  user_failed_attempts : Z;
  so_failed_attempts : Z;
  user_pin_locked : Z;
  so_pin_locked : Z;
  kek : list byte
}.

Definition KTokenInit := 1.
Definition KUserPinSet := 2.
Definition KSoPinSet := 4.
Definition KUserLoginReq := 8.
Definition KSoLoginReq := 16.
Definition KUserPinLocked := 32.
Definition KSoPinLocked := 64.

Definition KMagic := 1447580493. (* 0x5648534D *)
Definition KVersion := 1.

(** [if (b) flags |= k]. *)
Definition set_flag (b k flags : Z) : Z := if b =? 0 then flags else Z.lor flags k.

Definition pack_flags (s : TokenSnapshot) : Z :=
  let flags := 0 in
  let flags := set_flag (token_initialized s) KTokenInit flags in
  let flags := set_flag (user_pin_set s) KUserPinSet flags in
  let flags := set_flag (so_pin_set s) KSoPinSet flags in
  let flags := set_flag (user_login_required s) KUserLoginReq flags in
  let flags := set_flag (so_login_required s) KSoLoginReq flags in
  let flags := set_flag (user_pin_locked s) KUserPinLocked flags in
  let flags := set_flag (so_pin_locked s) KSoPinLocked flags in
  flags.

Definition serialize_token_snapshot (s : TokenSnapshot) : res (list byte) :=
  check! len (label s) <=? 255 orelse "serialize_token_snapshot: label too long" in
  check! len (id s) <=? 255 orelse "serialize_token_snapshot: id too long" in
  let out := [] in
  let out := put_le32 out KMagic in
  let out := put_le32 out KVersion in
  let out := out ++ [to_u8 (len (label s))] in
  let out := out ++ label s in
  let out := out ++ [to_u8 (len (id s))] in
  let out := out ++ id s in
  let out := put_le64 out (max_session_count s) in
  let out := put_le64 out (session_count s) in
  let out := put_le64 out (max_rw_session_count s) in
  let out := put_le64 out (rw_session_count s) in
  let out := out ++ [to_u8 (pack_flags s)] in
  let out := put_le32 out (max_failed_attempts s) in
  let out := put_le32 out (user_failed_attempts s) in
  let out := put_le32 out (so_failed_attempts s) in
  let out := put_le64 out (len (kek s)) in
  let out := out ++ kek s in
  Ok out.

(** The lambda [read_string]: the string at [off] and the offset after it. *)
Definition read_string (data : list byte) (off : nat) : res (list byte * nat) :=
  check! Z.of_nat off <? len data
    orelse "deserialize_token_snapshot: truncated string length" in
  let n := at_ data off in
  let off := S off in
  check! n <=? len data - Z.of_nat off
    orelse "deserialize_token_snapshot: truncated string" in
  Ok (slice off (Z.to_nat n) data, (off + Z.to_nat n)%nat).

(** [(flags & k) != 0], stored in a [CK_BBOOL]. *)
Definition get_flag (flags k : Z) : Z := if Z.land flags k =? 0 then 0 else 1.

Definition deserialize_token_snapshot (data : list byte) : res TokenSnapshot :=
  check! 8 + 2 <=? len data orelse "deserialize_token_snapshot: data too short" in
  check! get_le32 data =? KMagic orelse "deserialize_token_snapshot: bad magic" in
  check! get_le32 (drop 4 data) =? KVersion
    orelse "deserialize_token_snapshot: unsupported version" in
  let* (label_, off) := read_string data 8 in
  let* (id_, off) := read_string data off in
  check! 8 + 8 + 8 + 8 + 1 + 4 + 4 + 4 + 8 <=? len data - Z.of_nat off
    orelse "deserialize_token_snapshot: truncated numeric fields" in
  let flags := at_ data (off + 32) in
  let kek_len := get_le64 (drop (off + 45) data) in
  let koff := (off + 53)%nat in
  check! kek_len <=? len data - Z.of_nat koff
    orelse "deserialize_token_snapshot: truncated KEK" in
  Ok {| label := label_;
        id := id_;
        max_session_count := get_le64 (drop off data);
        session_count := get_le64 (drop (off + 8) data);
        max_rw_session_count := get_le64 (drop (off + 16) data);
        rw_session_count := get_le64 (drop (off + 24) data);
        token_initialized := get_flag flags KTokenInit;
        user_pin_set := get_flag flags KUserPinSet;
        so_pin_set := get_flag flags KSoPinSet;
        user_login_required := get_flag flags KUserLoginReq;
        so_login_required := get_flag flags KSoLoginReq;
        max_failed_attempts := get_le32 (drop (off + 33) data);
        user_failed_attempts := get_le32 (drop (off + 37) data);
        so_failed_attempts := get_le32 (drop (off + 41) data);
        user_pin_locked := get_flag flags KUserPinLocked;
        so_pin_locked := get_flag flags KSoPinLocked;
        kek := slice koff (Z.to_nat kek_len) data |}.

(** *** Well-formed snapshots: every field at its C++ width *)

Definition is_bbool (b : Z) : bool := (b =? 0) || (b =? 1).

Definition wf_snapshot (s : TokenSnapshot) : Prop :=
  (len (label s) <= 255 /\ len (id s) <= 255 /\ is_u64 (len (kek s))) /\
  (is_u64 (max_session_count s) /\ is_u64 (session_count s) /\
   is_u64 (max_rw_session_count s) /\ is_u64 (rw_session_count s)) /\
  (is_u32 (max_failed_attempts s) /\ is_u32 (user_failed_attempts s) /\
   is_u32 (so_failed_attempts s)) /\
  forallb is_bbool [token_initialized s; user_pin_set s; so_pin_set s;
    user_login_required s; so_login_required s; user_pin_locked s; so_pin_locked s] = true.

(** The bytes of a snapshot, as one concatenation of its fields. *)
Definition layout (s : TokenSnapshot) : list byte :=
  le_digits 4 KMagic ++ le_digits 4 KVersion ++
  [to_u8 (len (label s))] ++ label s ++ [to_u8 (len (id s))] ++ id s ++
  le_digits 8 (max_session_count s) ++ le_digits 8 (session_count s) ++
  le_digits 8 (max_rw_session_count s) ++ le_digits 8 (rw_session_count s) ++
  [to_u8 (pack_flags s)] ++
  le_digits 4 (max_failed_attempts s) ++ le_digits 4 (user_failed_attempts s) ++
  le_digits 4 (so_failed_attempts s) ++
  le_digits 8 (len (kek s)) ++ kek s.

Lemma serialize_layout s :
  len (label s) <= 255 -> len (id s) <= 255 ->
  serialize_token_snapshot s = Ok (layout s).
Proof.
  intros Hl Hi. unfold serialize_token_snapshot.
  apply Z.leb_le in Hl, Hi. rewrite Hl, Hi. cbn [check rbind].
  repeat rewrite ?put_le32_digits, ?put_le64_digits.
  unfold layout. rewrite <- !app_assoc. reflexivity.
Qed.

Lemma length_layout s :
  length (layout s) = (63 + length (label s) + length (id s) + length (kek s))%nat.
Proof.
  unfold layout. rewrite !length_app, !length_le_digits. cbn [length]. lia.
Qed.

(** *** Reading back *)

Lemma drop_digits n v (r : list byte) k : drop (n + k) (le_digits n v ++ r) = drop k r.
Proof.
  rewrite drop_app, length_le_digits, drop_ge by (rewrite length_le_digits; lia).
  simpl. f_equal. lia.
Qed.

Lemma read_string_app pre s post :
  len s <= 255 ->
  read_string (pre ++ [to_u8 (len s)] ++ s ++ post) (length pre)
  = Ok (s, (length pre + 1 + length s)%nat).
Proof.
  intros Hs. unfold read_string, at_.
  rewrite app_nth2, Nat.sub_diag by lia. cbn [nth app].
  rewrite u8_to_u8, Z.mod_small by (pose proof (len_nonneg s); lia).
  assert (E : len (pre ++ to_u8 (len s) :: s ++ post) = len pre + 1 + len s + len post)
    by (autorewrite with vhsm; lia).
  rewrite E, (proj2 (Z.ltb_lt _ _)), (proj2 (Z.leb_le _ _))
    by (pose proof (len_nonneg s); pose proof (len_nonneg post); unfold len in *; lia).
  cbn [check rbind]. unfold len. rewrite Nat2Z.id.
  rewrite (app_assoc pre [_] (s ++ post) : pre ++ _ :: s ++ post = _).
  rewrite slice_exact by (rewrite ?length_app; simpl; lia).
  do 2 f_equal. lia.
Qed.

Lemma get_flag_pack s :
  forallb is_bbool [token_initialized s; user_pin_set s; so_pin_set s;
    user_login_required s; so_login_required s; user_pin_locked s; so_pin_locked s] = true ->
  0 <= pack_flags s < 256 /\
  get_flag (pack_flags s) KTokenInit = token_initialized s /\
  get_flag (pack_flags s) KUserPinSet = user_pin_set s /\
  get_flag (pack_flags s) KSoPinSet = so_pin_set s /\
  get_flag (pack_flags s) KUserLoginReq = user_login_required s /\
  get_flag (pack_flags s) KSoLoginReq = so_login_required s /\
  get_flag (pack_flags s) KUserPinLocked = user_pin_locked s /\
  get_flag (pack_flags s) KSoPinLocked = so_pin_locked s.
Proof.
  unfold pack_flags. cbn [forallb]. unfold is_bbool. intros H. bool_to_prop.
  repeat match goal with
  | H : (?x =? 0) || (?x =? 1) = true |- _ =>
    apply orb_true_iff in H; destruct H as [H|H]; apply Z.eqb_eq in H; rewrite H
  end; vm_compute; intuition congruence.
Qed.

(** The layout up to the identifier, and the fixed-size fields after it. *)
Definition layout_head (s : TokenSnapshot) : list byte :=
  le_digits 4 KMagic ++ le_digits 4 KVersion ++
  [to_u8 (len (label s))] ++ label s ++ [to_u8 (len (id s))] ++ id s.

Definition layout_fixed (s : TokenSnapshot) : list byte :=
  le_digits 8 (max_session_count s) ++ le_digits 8 (session_count s) ++
  le_digits 8 (max_rw_session_count s) ++ le_digits 8 (rw_session_count s) ++
  [to_u8 (pack_flags s)] ++
  le_digits 4 (max_failed_attempts s) ++ le_digits 4 (user_failed_attempts s) ++
  le_digits 4 (so_failed_attempts s) ++ le_digits 8 (len (kek s)).

Lemma layout_split s : layout s = layout_head s ++ layout_fixed s ++ kek s.
Proof. unfold layout, layout_head, layout_fixed. by rewrite <- !app_assoc. Qed.

Lemma length_layout_head s :
  length (layout_head s) = (10 + length (label s) + length (id s))%nat.
Proof. unfold layout_head. rewrite !length_app, !length_le_digits. simpl. lia. Qed.

Lemma length_layout_fixed s : length (layout_fixed s) = 53%nat.
Proof. unfold layout_fixed. rewrite !length_app, !length_le_digits. reflexivity. Qed.

Lemma read_head s post :
  len (label s) <= 255 -> len (id s) <= 255 ->
  let d := layout_head s ++ post in
  get_le32 d = KMagic /\ get_le32 (drop 4 d) = KVersion /\
  read_string d 8 = Ok (label s, (9 + length (label s))%nat) /\
  read_string d (9 + length (label s)) = Ok (id s, length (layout_head s)).
Proof.
  intros Hl Hi d.
  assert (E : d = (le_digits 4 KMagic ++ le_digits 4 KVersion) ++ [to_u8 (len (label s))] ++
    label s ++ ([to_u8 (len (id s))] ++ id s ++ post))
    by (unfold d, layout_head; by rewrite <- !app_assoc).
  split_and!.
  - rewrite E, <- !app_assoc. by apply get_put_le32.
  - rewrite E, <- !app_assoc. by apply get_put_le32.
  - rewrite E. apply (read_string_app (le_digits 4 KMagic ++ le_digits 4 KVersion)), Hl.
  - rewrite length_layout_head. rewrite E, !app_assoc, <- !(app_assoc _ _ post).
    rewrite <- app_assoc.
    replace (9 + length (label s))%nat with
      (length (((le_digits 4 KMagic ++ le_digits 4 KVersion) ++ [to_u8 (len (label s))]) ++ label s))
      by (rewrite !length_app, !length_le_digits; simpl; lia).
    rewrite read_string_app by exact Hi.
    do 2 f_equal. rewrite !length_app, !length_le_digits. simpl. lia.
Qed.

Lemma read_fixed s post :
  wf_snapshot s ->
  let d := layout_fixed s ++ post in
  (get_le64 d = max_session_count s /\ get_le64 (drop 8 d) = session_count s /\
   get_le64 (drop 16 d) = max_rw_session_count s /\ get_le64 (drop 24 d) = rw_session_count s) /\
  at_ d 32 = pack_flags s /\
  (get_le32 (drop 33 d) = max_failed_attempts s /\ get_le32 (drop 37 d) = user_failed_attempts s /\
   get_le32 (drop 41 d) = so_failed_attempts s) /\
  get_le64 (drop 45 d) = len (kek s).
Proof.
  intros ((_ & _ & Hk) & (H1 & H2 & H3 & H4) & (H5 & H6 & H7) & Hb) d.
  destruct (get_flag_pack s Hb) as (Hf & _).
  unfold d, layout_fixed. rewrite <- !app_assoc.
  split_and!; try (by apply get_put_le64); try (by apply get_put_le32).
  unfold at_. cbn [le_digits app nth]. rewrite u8_to_u8. by apply Z.mod_small.
Qed.

Lemma deserialize_layout s rest :
  wf_snapshot s -> deserialize_token_snapshot (layout s ++ rest) = Ok s.
Proof.
  intros Hwf. pose proof Hwf as ((Hl & Hi & _) & _ & _ & Hb).
  destruct (get_flag_pack s Hb) as (_ & F1 & F2 & F3 & F4 & F5 & F6 & F7).
  rewrite layout_split, <- !app_assoc.
  destruct (read_head s (layout_fixed s ++ kek s ++ rest) Hl Hi) as (M1 & M2 & R1 & R2).
  destruct (read_fixed s (kek s ++ rest) Hwf)
    as ((G1 & G2 & G3 & G4) & A & (G5 & G6 & G7) & G8).
  assert (Hn : len (layout_head s ++ layout_fixed s ++ kek s ++ rest)
    = len (layout_head s) + 53 + len (kek s) + len rest)
    by (rewrite !len_app; unfold len at 2; rewrite length_layout_fixed; lia).
  assert (10 <= len (layout_head s)) by (unfold len; rewrite length_layout_head; lia).
  pose proof (len_nonneg (kek s)). pose proof (len_nonneg rest).
  unfold deserialize_token_snapshot.
  rewrite M1, M2, R1. cbn [rbind]. rewrite R2. cbn [rbind]. rewrite Hn.
  unfold at_. rewrite app_nth2_plus, !drop_app_add, drop_app_length.
  fold (at_ (layout_fixed s ++ kek s ++ rest) 32).
  rewrite A, G1, G2, G3, G4, G5, G6, G7, G8, F1, F2, F3, F4, F5, F6, F7.
  rewrite !(proj2 (Z.leb_le _ _)) by (unfold len in *; lia). cbn [check rbind].
  rewrite !Z.eqb_refl. cbn [check rbind].
  rewrite app_assoc, slice_exact;
    [by destruct s | rewrite length_app, length_layout_fixed; lia | unfold len; lia].
Qed.

(** *** Accepted inputs

    A successful parse reads exactly the length of the layout and never looks
    past it, so it is not changed by bytes appended to the input. *)

Lemma len_slice (off n : nat) (d : list byte) :
  (off + n <= length d)%nat -> length (slice off n d) = n.
Proof. intros H. unfold slice. rewrite length_take, length_drop. lia. Qed.

Lemma slice_app_l (off n : nat) (d e : list byte) :
  (off + n <= length d)%nat -> slice off n (d ++ e) = slice off n d.
Proof.
  intros H. unfold slice. rewrite drop_app_le by lia.
  apply take_app_le. rewrite length_drop. lia.
Qed.

Lemma at_app_l i (d e : list byte) : (i < length d)%nat -> at_ (d ++ e) i = at_ d i.
Proof. intros H. unfold at_. by rewrite app_nth1. Qed.

Lemma get_le64_app_l off (d e : list byte) :
  (off + 8 <= length d)%nat -> get_le64 (drop off (d ++ e)) = get_le64 (drop off d).
Proof.
  intros H. rewrite !get_le64_value by (rewrite length_drop, ?length_app; lia).
  f_equal. by apply (slice_app_l off 8).
Qed.

Lemma get_le32_app_l off (d e : list byte) :
  (off + 4 <= length d)%nat -> get_le32 (drop off (d ++ e)) = get_le32 (drop off d).
Proof.
  intros H. rewrite !get_le32_value by (rewrite length_drop, ?length_app; lia).
  f_equal. by apply (slice_app_l off 4).
Qed.

Lemma read_string_inv d off s off' :
  read_string d off = Ok (s, off') ->
  off' = (off + 1 + length s)%nat /\ (off' <= length d)%nat /\
  (forall e, read_string (d ++ e) off = Ok (s, off')).
Proof.
  unfold read_string. intros H. inv_res. bool_to_prop.
  injection H1 as <- <-. clear x x0. unfold len in *.
  pose proof (u8_range (nth off d x00)) as Hr. fold (at_ d off) in Hr.
  rewrite len_slice by lia. split_and!; [lia..|]. intros e.
  rewrite length_app. rewrite at_app_l by lia.
  rewrite (proj2 (Z.ltb_lt _ _)), (proj2 (Z.leb_le _ _)) by lia.
  cbn [check rbind]. rewrite slice_app_l by lia. reflexivity.
Qed.

Lemma deserialize_inv d s :
  deserialize_token_snapshot d = Ok s ->
  (length (layout s) <= length d)%nat /\
  (forall e, deserialize_token_snapshot (d ++ e) = Ok s).
Proof.
  unfold deserialize_token_snapshot at 1. intros H. inv_res.
  match goal with R : read_string d 8 = Ok ?p |- _ =>
    destruct p as [lab off1]; apply read_string_inv in R as (E1 & B1 & R1) end.
  inv_res.
  match goal with R : read_string d off1 = Ok ?p |- _ =>
    destruct p as [i off2]; apply read_string_inv in R as (E2 & B2 & R2) end.
  inv_res. bool_to_prop.
  assert (0 <= get_le64 (drop (off2 + 45) d)) as Hk.
  { rewrite get_le64_value by (unfold len in *; rewrite length_drop; lia).
    apply le_value_range. }
  unfold len in *. split.
  - rewrite length_layout, <- H4. cbn [label id kek]. rewrite len_slice by lia. lia.
  - intros e. unfold deserialize_token_snapshot. unfold len. rewrite length_app.
    assert (get_le32 (d ++ e) = get_le32 d) as -> by (apply (get_le32_app_l 0); lia).
    rewrite R1. cbn [rbind]. rewrite R2. cbn [rbind].
    rewrite at_app_l, !get_le64_app_l, !get_le32_app_l by lia.
    rewrite !(proj2 (Z.leb_le _ _)) by lia. rewrite !(proj2 (Z.eqb_eq _ _)) by assumption.
    cbn [check rbind]. rewrite slice_app_l by lia. by rewrite H4.
Qed.

Lemma snapshot_bytes s :
  wf_snapshot s ->
  exists bytes, serialize_token_snapshot s = Ok bytes /\
    len bytes = 63 + len (label s) + len (id s) + len (kek s) /\
    deserialize_token_snapshot bytes = Ok s.
Proof.
  intros Hwf. exists (layout s). split_and!; [apply serialize_layout; apply Hwf| |].
  - unfold layout, len. rewrite !length_app, !length_le_digits. cbn [length]. lia.
  - rewrite <- (app_nil_r (layout s)). by apply deserialize_layout.
Qed.

(** *** Properties *)

(** Serializing a snapshot whose fields are at their widths succeeds, and
    the bytes, with anything after them, parse back to the same snapshot. *)
Theorem snapshot_roundtrip (s : TokenSnapshot) (Hwf : wf_snapshot s) :
  exists bytes, serialize_token_snapshot s = Ok bytes /\
    forall trailing, deserialize_token_snapshot (bytes ++ trailing) = Ok s.
Proof.
  exists (layout s). split.
  - apply serialize_layout; apply Hwf.
  - intros trailing. by apply deserialize_layout.
Qed.

(** A token with a label, a pin and a two-byte key. *)
Definition sample_snapshot : TokenSnapshot :=
  {| label := bytes_of "vHSM"; id := bytes_of "t0";
     max_session_count := 1024; session_count := 3;
     max_rw_session_count := 1024; rw_session_count := 1;
     token_initialized := 1; user_pin_set := 1; so_pin_set := 0;
     user_login_required := 1; so_login_required := 1;
     max_failed_attempts := 5; user_failed_attempts := 2; so_failed_attempts := 0;
     user_pin_locked := 0; so_pin_locked := 0; kek := [x01; xff] |}.

Lemma sample_snapshot_wf : wf_snapshot sample_snapshot.
Proof. vm_compute. intuition congruence. Qed.

Lemma snapshot_roundtrip_witness :
  exists bytes, serialize_token_snapshot sample_snapshot = Ok bytes /\
    forall trailing, deserialize_token_snapshot (bytes ++ trailing) = Ok sample_snapshot.
Proof. apply (snapshot_roundtrip sample_snapshot), sample_snapshot_wf. Defined.

(** Every strict prefix of a serialized snapshot is rejected: a truncated
    payload never parses, and whatever the parser accepts is at least as long
    as the layout of what it returns. *)
Theorem snapshot_truncation_rejected (s : TokenSnapshot) (bytes : list byte) (n : nat)
    (Hwf : wf_snapshot s) (Hs : serialize_token_snapshot s = Ok bytes)
    (Hn : (n < length bytes)%nat) :
  exists e, deserialize_token_snapshot (take n bytes) = Throw e.
Proof.
  destruct (deserialize_token_snapshot (take n bytes)) as [s'|e] eqn:E; [exfalso|eauto].
  rewrite serialize_layout in Hs by apply Hwf. injection Hs as <-.
  apply deserialize_inv in E as [Hlen Happ].
  specialize (Happ (drop n (layout s))). rewrite take_drop in Happ.
  rewrite <- (app_nil_r (layout s)), deserialize_layout in Happ by exact Hwf.
  injection Happ as <-. rewrite length_take in Hlen. lia.
Qed.

Lemma snapshot_truncation_rejected_witness :
  exists e, deserialize_token_snapshot (take 40 (layout sample_snapshot)) = Throw e.
Proof.
  apply (snapshot_truncation_rejected sample_snapshot (layout sample_snapshot) 40).
  - exact sample_snapshot_wf.
  - vm_compute. reflexivity.
  - rewrite length_layout. simpl. lia.
Defined.

End Snapshot.

(** ** Payload migrations *)

Module Migrations.

(** [std::map<uint32_t, MigrationFn>]; an empty [std::function] is [None]. *)
Abbreviation MigrationFn := (list byte -> list byte).

Record MigrationRegistry : Type := mkRegistry { fns_ : gmap Z MigrationFn }.

Definition empty_registry : MigrationRegistry := mkRegistry ∅.

Definition register_migration (r : MigrationRegistry) (from : Z) (fn : option MigrationFn)
    : res (bool * MigrationRegistry) :=
  match fn with
  | None => Throw (RuntimeError "register_migration: null migration function")
  | Some f =>
    match fns_ r !! from with
    | Some _ => Ok (false, r)
    | None => Ok (true, mkRegistry (<[from := f]> (fns_ r)))
    end
  end.

(** [while (current < target)], with [target - current] iterations left. *)
Fixpoint migrate_loop (r : MigrationRegistry) (data : list byte) (current : Z) (todo : nat)
    : res (list byte) :=
  match todo with
  | O => Ok data
  | S todo =>
    match fns_ r !! current with
    | None => Throw (RuntimeError "migrate: no migration registered from version")
    | Some fn => migrate_loop r (fn data) (current + 1) todo
    end
  end.

Definition migrate (r : MigrationRegistry) (data : list byte) (from target : Z)
    : res (list byte) :=
  if from =? target then Ok data
  else if target <? from then Throw (RuntimeError "migrate: cannot downgrade (from > target)")
  else migrate_loop r data from (Z.to_nat (target - from)).

Definition current_version (r : MigrationRegistry) : Z :=
  let max_from :=
    foldr (fun kv m => if m <? fst kv then fst kv else m) 0 (map_to_list (fns_ r)) in
  u32 (max_from + 1).

Definition clear (r : MigrationRegistry) : MigrationRegistry := mkRegistry ∅.

Lemma migrate_loop_app r d c n m :
  migrate_loop r d c (n + m) =
  rbind (migrate_loop r d c n) (fun d' => migrate_loop r d' (c + Z.of_nat n) m).
Proof.
  revert d c. induction n as [|n IH]; intros d c.
  - simpl. f_equal. lia.
  - cbn [Nat.add migrate_loop]. destruct (fns_ r !! c) as [f|]; [|reflexivity].
    rewrite IH. destruct (migrate_loop r (f d) (c + 1) n); [|reflexivity].
    cbn [rbind]. f_equal. lia.
Qed.

Lemma migrate_loop_total r d c n :
  (forall v, c <= v < c + Z.of_nat n -> is_Some (fns_ r !! v)) <->
  is_ok (migrate_loop r d c n) = true.
Proof.
  revert d c. induction n as [|n IH]; intros d c; cbn [migrate_loop].
  - split; [reflexivity|]. intros _ v Hv. lia.
  - destruct (fns_ r !! c) as [f|] eqn:E; split.
    + intros H. apply IH. intros v Hv. apply H. lia.
    + intros H v Hv. destruct (Z.eq_dec v c) as [->|]; [eauto|].
      apply (IH (f d) (c + 1)); [exact H|lia].
    + intros H. destruct (H c ltac:(lia)) as [f Hf]. congruence.
    + discriminate.
Qed.

Lemma migrate_eq r d a b : a <= b -> migrate r d a b = migrate_loop r d a (Z.to_nat (b - a)).
Proof.
  intros H. unfold migrate. destruct (Z.eqb_spec a b) as [->|].
  - by rewrite Z.sub_diag.
  - by rewrite (proj2 (Z.ltb_ge _ _)).
Qed.

(** Migrating [a -> c] is migrating [a -> b] and then [b -> c]; it succeeds
    exactly when every intermediate version has a registered step (so a gap is
    always reported), downgrades always fail, and a second registration for a
    version is refused without changing the registry. *)
Theorem migrate_spec (r : MigrationRegistry) (d : list byte) :
  (forall a b c, a <= b <= c ->
     migrate r d a c = rbind (migrate r d a b) (fun d' => migrate r d' b c)) /\
  (forall a b, a <= b ->
     (forall v, a <= v < b -> is_Some (fns_ r !! v)) <-> is_ok (migrate r d a b) = true) /\
  (forall a b, b < a -> is_ok (migrate r d a b) = false) /\
  (forall v f, is_Some (fns_ r !! v) -> register_migration r v (Some f) = Ok (false, r)).
Proof.
  split_and!.
  - intros a b c H. rewrite !migrate_eq by lia.
    replace (Z.to_nat (c - a)) with (Z.to_nat (b - a) + Z.to_nat (c - b))%nat by lia.
    rewrite migrate_loop_app. destruct (migrate_loop r d a _); [|reflexivity].
    cbn [rbind]. rewrite migrate_eq by lia. f_equal. lia.
  - intros a b H. rewrite migrate_eq by lia.
    rewrite <- migrate_loop_total. split; intros Hv v Hr; apply Hv; lia.
  - intros a b H. unfold migrate. destruct (Z.eqb_spec a b); [lia|].
    by rewrite (proj2 (Z.ltb_lt _ _)).
  - intros v f [g Hg]. unfold register_migration. by rewrite Hg.
Qed.

End Migrations.
