(* ===== verification/SecureBuffer.v ===== *)
(** * Guarded, locked memory

    [src/src/core/secure_buffer.cpp]: an allocation of a guard page, the data
    pages and a second guard page; bounded reads and writes; a constant-time
    comparison; zeroing.  [data_] is [None] for the null pointer of a
    moved-from buffer, and otherwise the bytes of all the data pages, of which
    the first [size_] are the caller's. *)

From S2P Require Import Prelude.

Record SecureBuffer : Type := mkBuffer {
  data_ : option (list byte);
  size_ : Z;
  alloc_size_ : Z
}.

(** Page size of the platform, a power of two on every target. *)
Section Pages.
Context (ps : Z).

Definition v_sb_round_up_to_page (n : Z) : Z := u64 (u64 (n + ps - 1) / ps * ps).

(** What the system calls of the constructor answer. *)
Record AllocSys : Type := mkAllocSys {
  mmap_ok : bool;
  mprotect_front_ok : bool;
  mprotect_rear_ok : bool;
  mlock_ok : bool
}.

(** Fresh anonymous pages are zero. *)
Definition new (sys : AllocSys) (size : Z) : res SecureBuffer :=
  check! negb (size =? 0) orelse "SecureBuffer: size must be > 0" in
  let data_pages := v_sb_round_up_to_page size in
  let alloc_size := u64 (ps + data_pages + ps) in
  check! mmap_ok sys orelse "SecureBuffer: mmap failed" in
  check! mprotect_front_ok sys orelse "SecureBuffer: mprotect (front guard) failed" in
  check! mprotect_rear_ok sys orelse "SecureBuffer: mprotect (rear guard) failed" in
  check! mlock_ok sys orelse "SecureBuffer: mlock(2) failed." in
  Ok {| data_ := Some (replicate (Z.to_nat data_pages) x00);
        size_ := size; alloc_size_ := alloc_size |}.

End Pages.

(** The moved-from and the released state. *)
Definition null_buffer : SecureBuffer := {| data_ := None; size_ := 0; alloc_size_ := 0 |}.

(** Zeroes every data page before the pages go back to the system; the pair is
    the buffer afterwards and the pages as the system gets them. *)
Definition v_sb_release (b : SecureBuffer) : SecureBuffer * option (list byte) :=
  match data_ b with
  | None => (b, None)
  | Some d => (null_buffer, Some (replicate (length d) x00))
  end.

(** [SecureBuffer(SecureBuffer &&other)]: the new buffer and [other] after. *)
Definition move (other : SecureBuffer) : SecureBuffer * SecureBuffer := (other, null_buffer).

(** [operator=(SecureBuffer &&other)] on two buffers: the assigned one, [other] after,
    and the pages given back to the system. *)
Definition move_assign (this other : SecureBuffer) : SecureBuffer * SecureBuffer * option (list byte) :=
  (fst (move other), snd (move other), snd (v_sb_release this)).

(** What an assignment gives back to the system is zero, in every byte. *)
Lemma move_assign_zeroes this other d b :
  snd (move_assign this other) = Some d -> b ∈ d -> b = x00.
Proof.
  unfold move_assign, v_sb_release. destruct (data_ this) as [d'|]; cbn; [|done].
  intros [= <-] Hb. by apply elem_of_replicate in Hb as [-> _].
Qed.

Definition byte_size (b : SecureBuffer) : Z := size_ b.

(** [memcpy(data + offset, src, len)]. *)
Definition memcpy_at (d : list byte) (offset : nat) (src : list byte) : list byte :=
  take offset d ++ src ++ drop (offset + length src) d.

(** [src] is [None] for a null pointer, and otherwise the [len] bytes at it. *)
Definition write (b : SecureBuffer) (offset : Z) (src : option (list byte)) (len_ : Z)
    : res SecureBuffer :=
  if len_ =? 0 then Ok b
  else match src with
  | None => Throw (InvalidArgument "SecureBuffer::write: src is null")
  | Some s =>
    if (size_ b <? offset) || (u64 (size_ b - offset) <? len_)
    then Throw (OutOfRange "SecureBuffer::write")
    else match data_ b with
         | Some d => Ok {| data_ := Some (memcpy_at d (Z.to_nat offset) (take (Z.to_nat len_) s));
                           size_ := size_ b; alloc_size_ := alloc_size_ b |}
         | None => Ok b
         end
  end.

(** The bytes copied to [dst]; [dst_null] is a null destination. *)
Definition read (b : SecureBuffer) (offset : Z) (dst_null : bool) (len_ : Z) : res (list byte) :=
  if len_ =? 0 then Ok []
  else if dst_null then Throw (InvalidArgument "SecureBuffer::read: dst is null")
  else if (size_ b <? offset) || (u64 (size_ b - offset) <? len_)
  then Throw (OutOfRange "SecureBuffer::read")
  else match data_ b with
       | Some d => Ok (slice (Z.to_nat offset) (Z.to_nat len_) d)
       | None => Ok []
       end.

(** [for (i < n) acc |= a[i] ^ b[i]]. *)
Fixpoint xor_acc (n : nat) (a b : list byte) (acc : Z) : Z :=
  match n with
  | O => acc
  | S n =>
    let x := u8 (hd x00 a) in
    let y := u8 (hd x00 b) in
    xor_acc n (tl a) (tl b) (Z.lor acc (Z.lxor x y))
  end.

Definition equals (a b : SecureBuffer) : bool :=
  if negb (size_ a =? size_ b) then false
  else match data_ a, data_ b with
  | None, None => true
  | Some x, Some y => xor_acc (Z.to_nat (size_ a)) x y 0 =? 0
  | _, _ => false
  end.

Definition wipe (b : SecureBuffer) : SecureBuffer :=
  match data_ b with
  | None => b
  | Some d => {| data_ := Some (memcpy_at d 0 (replicate (Z.to_nat (size_ b)) x00));
                 size_ := size_ b; alloc_size_ := alloc_size_ b |}
  end.

(** The caller's bytes. *)
Definition contents (b : SecureBuffer) : list byte :=
  match data_ b with
  | Some d => take (Z.to_nat (size_ b)) d
  | None => []
  end.

(** A live buffer has at least [size_] bytes of data pages; a null one is empty. *)
Definition wf (b : SecureBuffer) : Prop :=
  is_u64 (size_ b) /\
  match data_ b with
  | Some d => size_ b <= len d
  | None => size_ b = 0
  end.

(** ** Lemmas *)

Lemma lor_eq_0 a b : Z.lor a b = 0 <-> a = 0 /\ b = 0.
Proof. apply Z.lor_eq_0_iff. Qed.

Lemma xor_acc_zero n a b acc :
  (n <= length a)%nat -> (n <= length b)%nat ->
  xor_acc n a b acc = 0 <-> acc = 0 /\ take n a = take n b.
Proof.
  revert a b acc. induction n as [|n IH]; intros a b acc Ha Hb.
  - cbn [xor_acc take]. rewrite !take_0. tauto.
  - destruct a as [|x a], b as [|y b]; cbn [length] in *; try lia.
    cbn [xor_acc hd tl take]. rewrite IH by lia. rewrite lor_eq_0, Z.lxor_eq_0_iff.
    split.
    + intros ((-> & E) & ->). apply u8_inj in E as ->. auto.
    + intros (-> & E). injection E as -> ->. auto.
Qed.

Lemma length_contents b : wf b -> length (contents b) = Z.to_nat (size_ b).
Proof.
  unfold wf, contents, len. intros [Hu H]. destruct (data_ b).
  - rewrite length_take. unfold is_u64 in *. lia.
  - simpl. lia.
Qed.

Lemma length_memcpy d off s :
  (off + length s <= length d)%nat -> length (memcpy_at d off s) = length d.
Proof. intros H. unfold memcpy_at. rewrite !length_app, length_take, length_drop. lia. Qed.

Lemma slice_memcpy d off s :
  (off + length s <= length d)%nat -> slice off (length s) (memcpy_at d off s) = s.
Proof.
  intros H. unfold memcpy_at. apply slice_exact; [|reflexivity].
  rewrite length_take. lia.
Qed.

Lemma lookup_memcpy_ne d off s i :
  (off + length s <= length d)%nat -> (i < off \/ off + length s <= i)%nat ->
  memcpy_at d off s !! i = d !! i.
Proof.
  intros H [Hi|Hi]; unfold memcpy_at.
  - rewrite lookup_app_l by (rewrite length_take; lia). by rewrite lookup_take_lt.
  - rewrite lookup_app_r, length_take, Nat.min_l by (rewrite ?length_take; lia).
    rewrite lookup_app_r by lia. rewrite lookup_drop. f_equal. lia.
Qed.

(** The bounds test of [read] and [write] has no overflow: on 64-bit operands
    it accepts exactly the ranges inside the buffer. *)
Lemma bounds_test b offset n :
  wf b -> is_u64 offset -> is_u64 n ->
  (size_ b <? offset) || (u64 (size_ b - offset) <? n) = false <-> offset + n <= size_ b.
Proof.
  intros [Hs _] Ho Hn. rewrite orb_false_iff, !Z.ltb_ge. unfold is_u64 in *.
  destruct (Z.le_gt_cases offset (size_ b)).
  - rewrite u64_id by (unfold is_u64; lia). lia.
  - lia.
Qed.

Lemma write_ok b offset s :
  wf b -> is_u64 offset -> is_u64 (len s) -> data_ b <> None ->
  offset + len s <= size_ b ->
  exists b', write b offset (Some s) (len s) = Ok b' /\ wf b' /\ size_ b' = size_ b /\
    read b' offset false (len s) = Ok s /\
    (forall i, (i < Z.to_nat offset \/ Z.to_nat offset + length s <= i)%nat ->
       contents b' !! i = contents b !! i).
Proof.
  intros Hwf Ho Hs Hd Hle. pose proof Hwf as [Hu Hw].
  pose proof (proj2 (bounds_test b offset (len s) Hwf Ho Hs) Hle) as Hb.
  unfold write, read. destruct (Z.eqb_spec (len s) 0) as [E|E].
  - exists b. assert (s = []) as -> by (destruct s; [done|unfold len in E; simpl in E; lia]).
    split_and!; auto.
  - rewrite Hb. destruct (data_ b) as [d|] eqn:Ed; [|done].
    assert (take (Z.to_nat (len s)) s = s) as -> by (apply take_ge; unfold len; lia).
    assert (Hlen : (Z.to_nat offset + length s <= length d)%nat)
      by (unfold len, is_u64 in *; lia).
    eexists. split; [reflexivity|]. cbn [size_ data_]. split_and!.
    + split; [done|]. cbn [data_ size_]. unfold len. by rewrite length_memcpy.
    + done.
    + rewrite Hb. unfold len. by rewrite Nat2Z.id, slice_memcpy.
    + intros i Hi. unfold contents. cbn [data_ size_]. rewrite Ed.
      destruct (Nat.lt_ge_cases i (Z.to_nat (size_ b))).
      * rewrite !lookup_take_lt by done. by apply lookup_memcpy_ne.
      * by rewrite !lookup_take_ge.
Qed.

(** ** Properties *)

(** The constant-time comparison of two buffers decides equality of their
    sizes and of their contents. *)
Theorem equals_spec (a b : SecureBuffer) (Ha : wf a) (Hb : wf b) :
  (data_ a = None <-> data_ b = None) ->
  equals a b = true <-> size_ a = size_ b /\ contents a = contents b.
Proof.
  intros Hn. pose proof (length_contents a Ha) as La. pose proof (length_contents b Hb) as Lb.
  destruct Ha as [Hua Ha], Hb as [Hub Hb]. unfold equals, contents in *.
  destruct (Z.eqb_spec (size_ a) (size_ b)) as [E|E]; cbn [negb]; [|intuition congruence].
  destruct (data_ a) as [x|], (data_ b) as [y|]; try (intuition congruence; fail).
  rewrite Z.eqb_eq, xor_acc_zero by (unfold len, is_u64 in *; lia).
  rewrite <- E. intuition.
Qed.

Definition sample_buffer (s : string) : SecureBuffer :=
  {| data_ := Some (bytes_of s); size_ := len (bytes_of s); alloc_size_ := 12288 |}.

Lemma equals_spec_witness :
  equals (sample_buffer "1234") (sample_buffer "1234") = true <->
  size_ (sample_buffer "1234") = size_ (sample_buffer "1234") /\
  contents (sample_buffer "1234") = contents (sample_buffer "1234").
Proof.
  apply equals_spec; [vm_compute; intuition congruence..|intuition congruence].
Defined.

(** A write inside the buffer succeeds, is read back exactly, and leaves
    every other byte alone; a write or read that does not fit in the buffer is
    refused with [out_of_range], with no overflow in the test. *)
Theorem write_read_bounds (b : SecureBuffer) (offset : Z) (s : list byte)
    (Hwf : wf b) (Ho : is_u64 offset) (Hs : is_u64 (len s)) (Hd : data_ b <> None) :
  (offset + len s <= size_ b ->
   exists b', write b offset (Some s) (len s) = Ok b' /\ wf b' /\ size_ b' = size_ b /\
     read b' offset false (len s) = Ok s /\
     (forall i, (i < Z.to_nat offset \/ Z.to_nat offset + length s <= i)%nat ->
        contents b' !! i = contents b !! i)) /\
  (s <> [] -> size_ b < offset + len s ->
   write b offset (Some s) (len s) = Throw (OutOfRange "SecureBuffer::write") /\
   read b offset false (len s) = Throw (OutOfRange "SecureBuffer::read")).
Proof.
  split; [by apply write_ok|]. intros Hne Hlt.
  unfold write, read. destruct (Z.eqb_spec (len s) 0) as [E|E].
  - destruct s; [done|]. unfold len in E. simpl in E. lia.
  - destruct ((size_ b <? offset) || (u64 (size_ b - offset) <? len s)) eqn:Hb; [done|].
    apply bounds_test in Hb; [lia|done..].
Qed.

Lemma write_read_bounds_witness :
  exists b', write (sample_buffer "abcd") 1 (Some [x01; x02]) 2 = Ok b' /\ wf b' /\
    size_ b' = 4 /\ read b' 1 false 2 = Ok [x01; x02] /\
    (forall i, (i < 1 \/ 1 + 2 <= i)%nat -> contents b' !! i = contents (sample_buffer "abcd") !! i).
Proof.
  apply (write_read_bounds (sample_buffer "abcd") 1 [x01; x02]);
    vm_compute; intuition congruence.
Defined.

(** A request that leaves room for the three extra pages in 64 bits gets
    data pages that cover it, rounded up by less than a page, between the two
    guard pages, and reads as zeroes. *)
Theorem new_covers_request (ps : Z) (sys : AllocSys) (size : Z) (b : SecureBuffer)
    (Hps : 0 < ps) (Hsize : 0 < size) (Hfit : size + 3 * ps < 2 ^ 64)
    (Hnew : new ps sys size = Ok b) :
  wf b /\ size_ b = size /\ contents b = replicate (Z.to_nat size) x00 /\
  exists k, alloc_size_ b = 2 * ps + k * ps /\ size <= k * ps < size + ps.
Proof.
  unfold new in Hnew. inv_res. subst b. cbn [size_ alloc_size_].
  pose proof (Z.div_mod (size + ps - 1) ps ltac:(lia)) as Hdiv.
  pose proof (Z.mod_pos_bound (size + ps - 1) ps ltac:(lia)).
  assert (Hr : v_sb_round_up_to_page ps size = (size + ps - 1) / ps * ps).
  { unfold v_sb_round_up_to_page. rewrite (u64_id (size + ps - 1)) by (unfold is_u64; lia).
    apply u64_id. unfold is_u64. nia. }
  rewrite Hr.
  assert (size <= (size + ps - 1) / ps * ps < size + ps) by lia.
  split_and!; [| | |exists ((size + ps - 1) / ps)].
  - split; cbn [size_ data_]; [unfold is_u64; lia|].
    unfold len. rewrite length_replicate. lia.
  - reflexivity.
  - unfold contents. cbn [size_ data_]. rewrite take_replicate. f_equal. lia.
  - split; [|lia]. rewrite u64_id by (unfold is_u64; lia). lia.
Qed.

Lemma new_covers_request_witness :
  exists b, new 4096 (mkAllocSys true true true true) 256 = Ok b /\ wf b /\ size_ b = 256 /\
  contents b = replicate (Z.to_nat 256) x00 /\
  exists k, alloc_size_ b = 2 * 4096 + k * 4096 /\ 256 <= k * 4096 < 256 + 4096.
Proof.
  eexists. split; [vm_compute; reflexivity|].
  apply (new_covers_request 4096 (mkAllocSys true true true true) 256); try lia.
  vm_compute. reflexivity.
Defined.

(** Without that room the rounding wraps around: a request for the largest
    [size_t] is granted with no data page at all. *)
Lemma new_wraps_around :
  exists b, new 4096 (mkAllocSys true true true true) (2 ^ 64 - 1) = Ok b /\
    size_ b = 2 ^ 64 - 1 /\ data_ b = Some [] /\ alloc_size_ b = 8192.
Proof. eexists. split; [vm_compute; reflexivity|]. vm_compute. auto. Qed.
