(* ===== verification/Objects.v ===== *)
(** * Keystore objects and their attributes

    - [HsmObj]: [src/src/keystore/hsm_object.cpp] and the lifecycle states of
      [src/src/keystore/key_state.h];
    - [AttrStore]: the PKCS#11 attribute semantics of
      [src/src/keystore/attribute_store.cpp].

    The identifier of an object lives in a [SecureBuffer]; here it is the
    contents of that buffer (a default-constructed buffer is one zero byte). *)

From S2P Require Import Prelude Codec Types.
Import LeBytes.

Module HsmObj.

Inductive ObjectType : Type :=
| DATA | CERTIFICATE | PUBLIC_KEY | PRIVATE_KEY | SECRET_KEY
| HARDWARE_FEATURE | DOMAIN_PARAMETERS | OTHER.

#[global] Instance ObjectType_eq_dec : EqDecision ObjectType.
Proof. solve_decision. Defined.

(** The underlying values of [enum class ObjectType : u8]. *)
Definition ObjectType_val (t : ObjectType) : Z :=
  match t with
  | DATA => 0 | CERTIFICATE => 1 | PUBLIC_KEY => 2 | PRIVATE_KEY => 3
  | SECRET_KEY => 4 | HARDWARE_FEATURE => 5 | DOMAIN_PARAMETERS => 6 | OTHER => 7
  end.

(** [enum class KeyState : u8]: any byte can be cast to it. *)
Definition KeyState : Set := Z.
Definition Active : KeyState := 0.
Definition Rotating : KeyState := 1.
Definition Revoked : KeyState := 2.

Definition key_can_sign (s : KeyState) : bool := s =? Active.
Definition key_can_decrypt (s : KeyState) : bool := negb (s =? Revoked).
Definition key_can_verify (s : KeyState) : bool := negb (s =? Revoked).
Definition key_can_wrap (s : KeyState) : bool := negb (s =? Revoked).
Definition key_is_revoked (s : KeyState) : bool := s =? Revoked.

Record HsmObject : Type := mkObject {
  type_ : ObjectType;
  sensitive_ : bool;
  extractable_ : bool;
  token_ : bool;
  private_ : bool;
  id_ : list byte;
  idSet_ : bool;
  attrs_ : gmap Z (list byte)
}.

#[global] Instance HsmObject_eq_dec : EqDecision HsmObject.
Proof. solve_decision. Defined.

Definition default_id : list byte := [x00].

Definition new_object (type : ObjectType) (sensitive extractable token priv : bool) : HsmObject :=
  {| type_ := type; sensitive_ := sensitive; extractable_ := extractable;
     token_ := token; private_ := priv; id_ := default_id; idSet_ := false; attrs_ := ∅ |}.

Definition with_attrs (o : HsmObject) (a : gmap Z (list byte)) : HsmObject :=
  {| type_ := type_ o; sensitive_ := sensitive_ o; extractable_ := extractable_ o;
     token_ := token_ o; private_ := private_ o; id_ := id_ o; idSet_ := idSet_ o;
     attrs_ := a |}.

Definition with_id (o : HsmObject) (i : list byte) (set : bool) : HsmObject :=
  {| type_ := type_ o; sensitive_ := sensitive_ o; extractable_ := extractable_ o;
     token_ := token_ o; private_ := private_ o; id_ := i; idSet_ := set;
     attrs_ := attrs_ o |}.

Definition with_sensitive (o : HsmObject) (b : bool) : HsmObject :=
  {| type_ := type_ o; sensitive_ := b; extractable_ := extractable_ o;
     token_ := token_ o; private_ := private_ o; id_ := id_ o; idSet_ := idSet_ o;
     attrs_ := attrs_ o |}.

Definition with_extractable (o : HsmObject) (b : bool) : HsmObject :=
  {| type_ := type_ o; sensitive_ := sensitive_ o; extractable_ := b;
     token_ := token_ o; private_ := private_ o; id_ := id_ o; idSet_ := idSet_ o;
     attrs_ := attrs_ o |}.

Definition findAttribute (o : HsmObject) (type : Z) : option (list byte) := attrs_ o !! type.

(** [data] is [None] for a null pointer, else the [len] bytes at it. *)
Definition setAttribute (o : HsmObject) (type : Z) (data : option (list byte)) (len_ : Z)
    : res HsmObject :=
  if (0 <? len_) && bool_decide (data = None) then
    Throw (InvalidArgument "HsmObject::setAttribute: null data with non-zero length")
  else if len_ =? 0 then Ok (with_attrs o (<[type := []]> (attrs_ o)))
  else match data with
       | Some d => Ok (with_attrs o (<[type := take (Z.to_nat len_) d]> (attrs_ o)))
       | None => Ok o
       end.

Definition getKeyState (o : HsmObject) : KeyState :=
  match findAttribute o CKA_VHSM_KEY_STATE with
  | Some (b :: _) => u8 b
  | _ => Active
  end.

Definition setKeyState (o : HsmObject) (state : KeyState) : HsmObject :=
  match setAttribute o CKA_VHSM_KEY_STATE (Some [to_u8 state]) 1 with
  | Ok o' => o'
  | Throw _ => o
  end.

Definition getId (o : HsmObject) : list byte := if idSet_ o then id_ o else [].

Definition setId (o : HsmObject) (i : list byte) : HsmObject :=
  match i with
  | [] => with_id o default_id false
  | _ => with_id o i true
  end.

(** Copy construction. *)
Definition copy (other : HsmObject) : res HsmObject :=
  if sensitive_ other
  then Throw (RuntimeError "HsmObject: copy of sensitive object is not permitted")
  else
    let o := {| type_ := type_ other; sensitive_ := sensitive_ other;
                extractable_ := extractable_ other; token_ := token_ other;
                private_ := private_ other; id_ := default_id; idSet_ := false;
                attrs_ := attrs_ other |} in
    if idSet_ other && (0 <? len (id_ other)) then Ok (with_id o (id_ other) true) else Ok o.

(** Zeroes the identifier in place and drops the attributes and the flags. *)
Definition wipe (o : HsmObject) : HsmObject :=
  {| type_ := type_ o; sensitive_ := false; extractable_ := false; token_ := false;
     private_ := false; id_ := replicate (length (id_ o)) x00; idSet_ := false;
     attrs_ := ∅ |}.

(** Copy assignment between two distinct objects. *)
Definition assign (this other : HsmObject) : res HsmObject :=
  if sensitive_ this || sensitive_ other
  then Throw (RuntimeError "HsmObject: copy-assignment of sensitive object is not permitted")
  else
    let o := {| type_ := type_ other; sensitive_ := sensitive_ other;
                extractable_ := extractable_ other; token_ := token_ other;
                private_ := private_ other; id_ := id_ (wipe this); idSet_ := false;
                attrs_ := attrs_ other |} in
    if idSet_ other && (0 <? len (id_ other)) then Ok (with_id o (id_ other) true)
    else Ok (with_id o default_id false).

(** Move construction: the new object and the moved-from one. *)
Definition moved_from : HsmObject :=
  {| type_ := OTHER; sensitive_ := false; extractable_ := false; token_ := false;
     private_ := false; id_ := []; idSet_ := false; attrs_ := ∅ |}.

Definition move (other : HsmObject) : HsmObject * HsmObject := (other, moved_from).

(** Move assignment ([same]: of an object to itself): the target, which is wiped
    first, and the moved-from object. *)
Definition move_assign (same : bool) (this other : HsmObject) : HsmObject * HsmObject :=
  if same then (this, other)
  else
    let w := wipe this in
    let o := {| type_ := type_ other; sensitive_ := sensitive_ other; extractable_ := extractable_ other;
                token_ := token_ other; private_ := private_ other; id_ := id_ w; idSet_ := idSet_ other;
                attrs_ := attrs_ w |} in
    ({| type_ := type_ o; sensitive_ := sensitive_ o; extractable_ := extractable_ o; token_ := token_ o;
        private_ := private_ o; id_ := id_ other; idSet_ := idSet_ o; attrs_ := attrs_ other |},
     moved_from).

(** A sensitive object, which cannot be copied, can be moved: the target is the
    object and the source keeps neither its attributes nor its identifier. *)
Lemma move_assign_moves this other :
  move_assign false this other = move other /\ (forall t, findAttribute (snd (move_assign false this other)) t = None).
Proof. split; [by destruct other|done]. Qed.

End HsmObj.

Module AttrStore.
Import HsmObj.

Definition class_of (t : ObjectType) : Z :=
  match t with
  | DATA => CKO_DATA
  | CERTIFICATE => CKO_CERTIFICATE
  | PUBLIC_KEY => CKO_PUBLIC_KEY
  | PRIVATE_KEY => CKO_PRIVATE_KEY
  | SECRET_KEY => CKO_SECRET_KEY
  | HARDWARE_FEATURE => CKO_HW_FEATURE
  | DOMAIN_PARAMETERS => CKO_DOMAIN_PARAMETERS
  | OTHER => CKO_OTHER
  end.

(** [memcpy] of a [CK_ULONG] on the little-endian targets, of a [CK_BBOOL]. *)
Definition ulong_bytes (v : Z) : list byte := le_digits 8 v.
Definition bbool_bytes (b : bool) : list byte := [to_u8 (if b then CK_TRUE else CK_FALSE)].

(** What [v_get_attribute] leaves: the code, the new [*pulValueLen], and the
    bytes written at [pValue] (none when it writes nothing). *)
Record GetResult : Type := mkGet { rv : CK_RV; out_len : option Z; written : list byte }.

(** The value of the attribute, or the early return of a sensitive value, or
    an unknown type. *)
Inductive Value : Type := Known (v : list byte) | Sensitive | Unknown.

Definition attribute_value (o : HsmObject) (type : Z) : Value :=
  let stored := match findAttribute o type with Some v => Known v | None => Unknown end in
  if type =? CKA_CLASS then Known (ulong_bytes (class_of (type_ o)))
  else if type =? CKA_TOKEN then Known (bbool_bytes (token_ o))
  else if type =? CKA_PRIVATE then Known (bbool_bytes (private_ o))
  else if type =? CKA_SENSITIVE then Known (bbool_bytes (sensitive_ o))
  else if type =? CKA_EXTRACTABLE then Known (bbool_bytes (extractable_ o))
  else if type =? CKA_ID then Known (getId o)
  else if type =? CKA_VALUE then (if sensitive_ o then Sensitive else stored)
  else stored.

(** [pValue_null]: the size query; [pulValueLen] is [None] when null. *)
Definition v_get_attribute (o : HsmObject) (type : Z) (pValue_null : bool)
    (pulValueLen : option Z) : GetResult :=
  match pulValueLen with
  | None => mkGet CKR_ARGUMENTS_BAD None []
  | Some room =>
    match attribute_value o type with
    | Sensitive => mkGet CKR_ATTRIBUTE_SENSITIVE (Some CK_UNAVAILABLE_INFORMATION) []
    | Unknown => mkGet CKR_ATTRIBUTE_TYPE_INVALID (Some CK_UNAVAILABLE_INFORMATION) []
    | Known value =>
      if pValue_null then mkGet CKR_OK (Some (len value)) []
      else if room <? len value then mkGet CKR_BUFFER_TOO_SMALL (Some (len value)) []
      else mkGet CKR_OK (Some (len value)) value
    end
  end.

(** [CK_ATTRIBUTE]: [pValue] is [None] for a null pointer, else the
    [ulValueLen] bytes at it. *)
Record CK_ATTRIBUTE : Type := mkAttr { a_type : Z; pValue : option (list byte); ulValueLen : Z }.

(** A caller that passes a pointer gives [ulValueLen] readable bytes. *)
Definition wf_attr (a : CK_ATTRIBUTE) : Prop :=
  0 <= ulValueLen a /\ (forall v, pValue a = Some v -> len v = ulValueLen a).

Definition v_is_read_only (o : HsmObject) (type : Z) : bool :=
  if (type =? CKA_CLASS) || (type =? CKA_TOKEN) || (type =? CKA_PRIVATE) then true
  else if type =? CKA_SENSITIVE then sensitive_ o
  else if type =? CKA_EXTRACTABLE then negb (extractable_ o)
  else false.

(** [*static_cast<CK_BBOOL *>(pValue)], and a [CK_ULONG] likewise. *)
Definition deref_bbool (p : option (list byte)) : Z :=
  match p with Some (b :: _) => u8 b | _ => 0 end.
Definition deref_ulong (p : option (list byte)) : Z :=
  match p with Some d => le_value (take 8 d) | None => 0 end.

Definition is_bool_attr (type : Z) : bool :=
  (type =? CKA_TOKEN) || (type =? CKA_PRIVATE) || (type =? CKA_SENSITIVE) || (type =? CKA_EXTRACTABLE).

Definition v_validate_attribute (type : Z) (pv : option (list byte)) (n : Z) : CK_RV :=
  if bool_decide (pv = None) && (0 <? n) then CKR_ARGUMENTS_BAD
  else if type =? CKA_CLASS then
    if negb (n =? 8) then CKR_ATTRIBUTE_VALUE_INVALID
    else if existsb (Z.eqb (deref_ulong pv))
              [CKO_DATA; CKO_CERTIFICATE; CKO_PUBLIC_KEY; CKO_PRIVATE_KEY; CKO_SECRET_KEY;
               CKO_HW_FEATURE; CKO_DOMAIN_PARAMETERS; CKO_OTHER]
    then CKR_OK else CKR_ATTRIBUTE_VALUE_INVALID
  else if is_bool_attr type then
    if negb (n =? 1) then CKR_ATTRIBUTE_VALUE_INVALID
    else let b := deref_bbool pv in
         if negb (b =? CK_FALSE) && negb (b =? CK_TRUE) then CKR_ATTRIBUTE_VALUE_INVALID
         else CKR_OK
  else CKR_OK.

(** The code and the object afterwards; [setAttribute] cannot throw here, since
    a null value with a length has been refused. *)
Definition v_set_attribute (o : HsmObject) (pAttr : option CK_ATTRIBUTE) : CK_RV * HsmObject :=
  match pAttr with
  | None => (CKR_ARGUMENTS_BAD, o)
  | Some a =>
    if v_is_read_only o (a_type a) then (CKR_ATTRIBUTE_READ_ONLY, o)
    else
      let r := v_validate_attribute (a_type a) (pValue a) (ulValueLen a) in
      if negb (r =? CKR_OK) then (r, o)
      else if (a_type a =? CKA_CLASS) || (a_type a =? CKA_TOKEN) || (a_type a =? CKA_PRIVATE)
      then (CKR_ATTRIBUTE_READ_ONLY, o)
      else if a_type a =? CKA_ID then
        if 0 <? ulValueLen a
        then (CKR_OK, setId o (take (Z.to_nat (ulValueLen a)) (default [] (pValue a))))
        else (CKR_OK, setId o [])
      else if a_type a =? CKA_SENSITIVE then
        if negb (ulValueLen a =? 1) then (CKR_ATTRIBUTE_VALUE_INVALID, o)
        else let b := deref_bbool (pValue a) in
             if sensitive_ o && (b =? 0) then (CKR_ATTRIBUTE_READ_ONLY, o)
             else (CKR_OK, with_sensitive o (b =? CK_TRUE))
      else if a_type a =? CKA_EXTRACTABLE then
        if negb (ulValueLen a =? 1) then (CKR_ATTRIBUTE_VALUE_INVALID, o)
        else let b := deref_bbool (pValue a) in
             if negb (extractable_ o) && negb (b =? 0) then (CKR_ATTRIBUTE_READ_ONLY, o)
             else (CKR_OK, with_extractable o (b =? CK_TRUE))
      else match setAttribute o (a_type a) (pValue a) (ulValueLen a) with
           | Ok o' => (CKR_OK, o')
           | Throw _ => (CKR_GENERAL_ERROR, o)
           end
  end.

(** A client's sequence of attribute writes. *)
Definition set_all (o : HsmObject) (l : list (option CK_ATTRIBUTE)) : HsmObject :=
  fold_left (fun o a => snd (v_set_attribute o a)) l o.

(** *** Lemmas *)

Lemma setAttribute_frame o t d n o' :
  setAttribute o t d n = Ok o' -> exists a, o' = with_attrs o a.
Proof.
  unfold setAttribute. intros H. split_ifs_in H; try discriminate; injection H as <-; eauto.
  exists (attrs_ o). by destruct o.
Qed.

Lemma v_set_attribute_frame o a :
  let o' := snd (v_set_attribute o a) in
  (type_ o' = type_ o /\ token_ o' = token_ o /\ private_ o' = private_ o) /\
  (sensitive_ o = true -> sensitive_ o' = true) /\
  (extractable_ o = false -> extractable_ o' = false).
Proof.
  destruct a as [a|]; cbn [v_set_attribute snd]; [|auto].
  unfold v_is_read_only, setId. split_ifs;
  try match goal with H : setAttribute _ _ _ _ = Ok _ |- _ =>
    apply setAttribute_frame in H as [? ->] end; cbn [snd type_ token_ private_ sensitive_ extractable_ with_id with_attrs
    with_sensitive with_extractable]; bool_to_prop; intuition congruence.
Qed.

Lemma set_all_frame l o :
  let o' := set_all o l in
  (type_ o' = type_ o /\ token_ o' = token_ o /\ private_ o' = private_ o) /\
  (sensitive_ o = true -> sensitive_ o' = true) /\
  (extractable_ o = false -> extractable_ o' = false).
Proof.
  revert o. induction l as [|a l IH]; intros o; [auto|].
  change (set_all o (a :: l)) with (set_all (snd (v_set_attribute o a)) l). cbv zeta.
  destruct (IH (snd (v_set_attribute o a))) as ((-> & -> & ->) & Hs & He).
  destruct (v_set_attribute_frame o a) as ((-> & -> & ->) & Hs' & He').
  split_and!; auto.
Qed.

Lemma get_value_sensitive o p room :
  sensitive_ o = true ->
  v_get_attribute o CKA_VALUE p (Some room)
  = mkGet CKR_ATTRIBUTE_SENSITIVE (Some CK_UNAVAILABLE_INFORMATION) [].
Proof. intros H. unfold v_get_attribute, attribute_value. cbn. by rewrite H. Qed.

Lemma bbool_roundtrip v :
  len v = 1 -> negb (deref_bbool (Some v) =? CK_FALSE) && negb (deref_bbool (Some v) =? CK_TRUE) = false ->
  bbool_bytes (deref_bbool (Some v) =? CK_TRUE) = v.
Proof.
  destruct v as [|b [|c v]]; unfold len; cbn [length]; try lia. intros _.
  cbn [deref_bbool]. unfold bbool_bytes, CK_TRUE, CK_FALSE.
  destruct (Z.eqb_spec (u8 b) 1) as [E|E]; intros H.
  - f_equal. rewrite <- E. apply to_u8_u8.
  - rewrite andb_true_r in H. bool_to_prop. f_equal. rewrite <- H. apply to_u8_u8.
Qed.

Lemma set_attribute_value o o' t v :
  v_set_attribute o (Some (mkAttr t (Some v) (len v))) = (CKR_OK, o') ->
  ~ (t = CKA_VALUE /\ sensitive_ o = true) ->
  attribute_value o' t = Known v.
Proof.
  intros Hset Hval. cbn [v_set_attribute a_type pValue ulValueLen] in Hset.
  unfold attribute_value, v_is_read_only, v_validate_attribute, setAttribute, is_bool_attr in *.
  assert (Htake : take (Z.to_nat (len v)) v = v) by (apply take_ge; unfold len; lia).
  assert (Hz : len v <= 0 -> v = []) by (destruct v; [done|unfold len; simpl; lia]).
  change (default [] (Some v)) with v in Hset. rewrite !Htake, (bool_decide_false (Some v = None)) in Hset by done.
  rewrite andb_false_r in Hset. cbn [andb] in Hset.
  destruct (t =? CKA_CLASS) eqn:E1; [discriminate|].
  destruct (t =? CKA_TOKEN) eqn:E2; [discriminate|].
  destruct (t =? CKA_PRIVATE) eqn:E3; [discriminate|]. cbn [orb] in Hset.
  destruct (t =? CKA_SENSITIVE) eqn:E4; [|destruct (t =? CKA_EXTRACTABLE) eqn:E5;
    [|destruct (t =? CKA_ID) eqn:E6]].
  - apply Z.eqb_eq in E4 as ->. cbn [orb Z.eqb Pos.eqb CKA_SENSITIVE CKA_ID] in Hset.
    split_ifs_in Hset; try discriminate. injection Hset as <-.
    match goal with H : negb ((if ?c then _ else _) =? _) = false |- _ =>
      destruct c eqn:?; [discriminate H|] end.
    cbn [sensitive_ with_sensitive]. f_equal. apply bbool_roundtrip; [by bool_to_prop|done].
  - apply Z.eqb_eq in E5 as ->. cbn [orb Z.eqb Pos.eqb CKA_EXTRACTABLE CKA_ID] in Hset.
    split_ifs_in Hset; try discriminate. injection Hset as <-.
    match goal with H : negb ((if ?c then _ else _) =? _) = false |- _ =>
      destruct c eqn:?; [discriminate H|] end.
    cbn [extractable_ with_extractable]. f_equal. apply bbool_roundtrip; [by bool_to_prop|done].
  - cbn [negb Z.eqb orb CKR_OK] in Hset.
    destruct (0 <? len v) eqn:El; injection Hset as <-; bool_to_prop.
    + destruct v; [discriminate El|]. reflexivity.
    + rewrite (Hz El). reflexivity.
  - cbn [negb Z.eqb orb CKR_OK] in Hset.
    assert (Hst : findAttribute o' t = Some v /\ sensitive_ o' = sensitive_ o).
    { destruct (len v =? 0) eqn:El; injection Hset as <-; bool_to_prop;
        unfold findAttribute; cbn [attrs_ sensitive_ with_attrs];
        rewrite lookup_insert_eq; [rewrite Hz by lia|]; auto. }
    destruct Hst as [-> ->].
    destruct (t =? CKA_VALUE) eqn:E7, (sensitive_ o) eqn:E8; try reflexivity.
    bool_to_prop. exfalso. auto.
Qed.

(** *** Properties *)

(** Whatever sequence of attribute writes a client issues, a sensitive
    object stays sensitive, a non-extractable object stays non-extractable, its
    class, token and private flags never change, and the value of a sensitive
    object is never returned, not even its length. *)
Theorem sensitivity_latch (o : HsmObject) (l : list (option CK_ATTRIBUTE)) :
  let o' := set_all o l in
  (type_ o' = type_ o /\ token_ o' = token_ o /\ private_ o' = private_ o) /\
  (extractable_ o = false -> extractable_ o' = false) /\
  (sensitive_ o = true ->
     sensitive_ o' = true /\
     forall p room, v_get_attribute o' CKA_VALUE p (Some room)
       = mkGet CKR_ATTRIBUTE_SENSITIVE (Some CK_UNAVAILABLE_INFORMATION) []).
Proof.
  destruct (set_all_frame l o) as (H1 & H2 & H3).
  split_and!; [apply H1..|exact H3|]. intros Hs. split; [by apply H2|].
  intros p room. apply get_value_sensitive, H2, Hs.
Qed.

(** A successful write of an attribute is what a later read returns, under
    the two-call protocol: the size query gives the length, a large enough
    buffer then gets exactly the value, and a smaller one gets nothing but the
    needed length and [CKR_BUFFER_TOO_SMALL]. *)
Theorem attribute_set_get (o o' : HsmObject) (t : Z) (v : list byte)
    (Hset : v_set_attribute o (Some (mkAttr t (Some v) (len v))) = (CKR_OK, o'))
    (Hval : ~ (t = CKA_VALUE /\ sensitive_ o = true)) :
  v_get_attribute o' t true (Some 0) = mkGet CKR_OK (Some (len v)) [] /\
  (forall room, len v <= room ->
     v_get_attribute o' t false (Some room) = mkGet CKR_OK (Some (len v)) v) /\
  (forall room, room < len v ->
     v_get_attribute o' t false (Some room) = mkGet CKR_BUFFER_TOO_SMALL (Some (len v)) []).
Proof.
  assert (attribute_value o' t = Known v) as E by (by eapply set_attribute_value).
  unfold v_get_attribute. rewrite E.
  split_and!; [reflexivity| |]; intros room Hr; cbv zeta;
    [by rewrite (proj2 (Z.ltb_ge _ _)) | by rewrite (proj2 (Z.ltb_lt _ _))].
Qed.

Lemma attribute_set_get_witness :
  let o := new_object SECRET_KEY false true false false in
  let o' := snd (v_set_attribute o (Some (mkAttr CKA_LABEL (Some (bytes_of "KEK")) 3))) in
  v_get_attribute o' CKA_LABEL true (Some 0) = mkGet CKR_OK (Some 3) [] /\
  (forall room, 3 <= room ->
     v_get_attribute o' CKA_LABEL false (Some room) = mkGet CKR_OK (Some 3) (bytes_of "KEK")) /\
  (forall room, room < 3 ->
     v_get_attribute o' CKA_LABEL false (Some room) = mkGet CKR_BUFFER_TOO_SMALL (Some 3) []).
Proof.
  intros o o'. apply (attribute_set_get o o' CKA_LABEL (bytes_of "KEK")); [reflexivity|].
  intros [H _]. discriminate H.
Defined.

End AttrStore.
