(* ===== verification/ObjectStore.v ===== *)
(** * The object store: handles, slot reuse and secondary indices

    [src/src/keystore/object_store.h] and [.cpp]: a table of entries with an
    intrusive free list, 64-bit handles made of a table index and a slot
    version, and secondary indices on label, identifier and class used by the
    attribute searches.

    [unordered_multimap]s are association lists.  Each operation holds the lock
    of the store, so it is one step; the re-validation the searches do after
    taking the lock again reads the same table. *)

From S2P Require Import Prelude Codec Types Objects.
Import LeBytes HsmObj.

Definition UINT32_MAX : Z := 2 ^ 32 - 1.
Definition CK_INVALID_HANDLE : Z := 0.

Record v_ObjectEntry : Type := mkEntry {
  v_object : option HsmObject;
  v_version : Z;
  v_is_free : bool;
  v_next_free : Z
}.

Definition empty_entry : v_ObjectEntry := mkEntry None 0 true UINT32_MAX.

Record v_ObjectStore_M1 : Type := mkStore {
  v_table_ : list v_ObjectEntry;
  v_free_head_ : Z;
  v_label_index_ : list (list byte * Z);
  v_id_index_ : list (list byte * Z);
  v_class_index_ : list (Z * Z)
}.

Definition new_store : v_ObjectStore_M1 := mkStore [] UINT32_MAX [] [] [].

(** ** Handles *)

Definition v_extract_index (handle : Z) : Z := u32 (Z.land (Z.shiftr handle 32) 0xFFFFFFFF).
Definition v_extract_version (handle : Z) : Z := u32 (Z.land handle 0xFFFFFFFF).
Definition v_compose_handle (index version : Z) : Z := Z.lor (u64 (Z.shiftl index 32)) version.

(** ** Index maintenance *)

Definition v_extract_label (obj : HsmObject) : list byte :=
  match findAttribute obj CKA_LABEL with Some v => v | None => [] end.

Definition v_extract_id (obj : HsmObject) : list byte :=
  match findAttribute obj CKA_ID with
  | Some (b :: v) => b :: v
  | _ => getId obj
  end.

Definition v_extract_class (obj : HsmObject) : Z := ObjectType_val (type_ obj).

(** [if (!key.empty()) index.emplace(key, i)]. *)
Definition emplace_nonempty (k : list byte) (i : Z) (idx : list (list byte * Z))
    : list (list byte * Z) :=
  match k with [] => idx | _ => idx ++ [(k, i)] end.

Definition v_index_insert (s : v_ObjectStore_M1) (index : Z) (obj : HsmObject)
    : v_ObjectStore_M1 :=
  let cls := v_extract_class obj in
  {| v_table_ := v_table_ s; v_free_head_ := v_free_head_ s;
     v_label_index_ := emplace_nonempty (v_extract_label obj) index (v_label_index_ s);
     v_id_index_ := emplace_nonempty (v_extract_id obj) index (v_id_index_ s);
     v_class_index_ := if negb (cls =? 0xFFFFFFFF) then v_class_index_ s ++ [(cls, index)]
                       else v_class_index_ s |}.

(** Erases the first entry of the bucket of [k] that points at [i]. *)
Fixpoint erase_first {K} `{EqDecision K} (k : K) (i : Z) (idx : list (K * Z)) : list (K * Z) :=
  match idx with
  | [] => []
  | (k', j) :: r => if bool_decide (k = k') && (j =? i) then r else (k', j) :: erase_first k i r
  end.

Definition v_index_remove (s : v_ObjectStore_M1) (index : Z) (obj : HsmObject)
    : v_ObjectStore_M1 :=
  let label := v_extract_label obj in
  let id := v_extract_id obj in
  let cls := v_extract_class obj in
  {| v_table_ := v_table_ s; v_free_head_ := v_free_head_ s;
     v_label_index_ := match label with [] => v_label_index_ s
                       | _ => erase_first label index (v_label_index_ s) end;
     v_id_index_ := match id with [] => v_id_index_ s
                    | _ => erase_first id index (v_id_index_ s) end;
     v_class_index_ := if negb (cls =? 0xFFFFFFFF) then erase_first cls index (v_class_index_ s)
                       else v_class_index_ s |}.

(** ** Creation, lookup, destruction *)

Definition with_table (s : v_ObjectStore_M1) (t : list v_ObjectEntry) (head : Z)
    : v_ObjectStore_M1 :=
  {| v_table_ := t; v_free_head_ := head; v_label_index_ := v_label_index_ s;
     v_id_index_ := v_id_index_ s; v_class_index_ := v_class_index_ s |}.

(** [v_table_[i]]. *)
Definition entry_at (s : v_ObjectStore_M1) (i : Z) : option v_ObjectEntry :=
  v_table_ s !! Z.to_nat i.

(** The object built from the constructor arguments, the handle, the store. *)
Definition v_create_object (s : v_ObjectStore_M1) (obj : HsmObject) : Z * v_ObjectStore_M1 :=
  if negb (v_free_head_ s =? UINT32_MAX) then
    let index := v_free_head_ s in
    let e := default empty_entry (entry_at s index) in
    let version := u32 (v_version e + 1) in
    let e' := mkEntry (Some obj) version false (v_next_free e) in
    let s := with_table s (<[Z.to_nat index := e']> (v_table_ s)) (v_next_free e) in
    (v_compose_handle index version, v_index_insert s index obj)
  else
    let index := u32 (len (v_table_ s)) in
    let version := u32 (v_version empty_entry + 1) in
    let e' := mkEntry (Some obj) version false UINT32_MAX in
    let s := with_table s (<[Z.to_nat index := e']> (v_table_ s ++ [empty_entry])) UINT32_MAX in
    (v_compose_handle index version, v_index_insert s index obj).

(** The test every handle operation starts with: a live entry of that version. *)
Definition lookup_handle (s : v_ObjectStore_M1) (handle : Z) : option v_ObjectEntry :=
  let index := v_extract_index handle in
  let version := v_extract_version handle in
  match entry_at s index with
  | None => None
  | Some e => if v_is_free e then None
              else if negb (v_version e =? version) then None else Some e
  end.

Definition v_get_object (s : v_ObjectStore_M1) (handle : Z) : option HsmObject :=
  match lookup_handle s handle with Some e => v_object e | None => None end.

Definition v_is_valid_handle (s : v_ObjectStore_M1) (handle : Z) : bool :=
  match lookup_handle s handle with Some _ => true | None => false end.

Definition v_destroy_object (s : v_ObjectStore_M1) (handle : Z) : bool * v_ObjectStore_M1 :=
  match lookup_handle s handle with
  | None => (false, s)
  | Some e =>
    let index := v_extract_index handle in
    let s := match v_object e with Some o => v_index_remove s index o | None => s end in
    let e' := mkEntry None (v_version e) true (v_free_head_ s) in
    (true, with_table s (<[Z.to_nat index := e']> (v_table_ s)) index)
  end.

(** A mutation of the object behind a handle through the [shared_ptr] that
    [v_get_object] returned. *)
Definition update_object (s : v_ObjectStore_M1) (handle : Z) (f : HsmObject -> HsmObject)
    : v_ObjectStore_M1 :=
  match lookup_handle s handle with
  | None => s
  | Some e =>
    let e' := mkEntry (option_map f (v_object e)) (v_version e) false (v_next_free e) in
    with_table s (<[Z.to_nat (v_extract_index handle) := e']> (v_table_ s)) (v_free_head_ s)
  end.

Definition erase_index {K} (i : Z) (idx : list (K * Z)) : list (K * Z) :=
  List.filter (fun kv => negb (snd kv =? i)) idx.

Definition v_reindex (s : v_ObjectStore_M1) (handle : Z) : v_ObjectStore_M1 :=
  match lookup_handle s handle with
  | Some {| v_object := Some o |} =>
    let index := v_extract_index handle in
    v_index_insert
      {| v_table_ := v_table_ s; v_free_head_ := v_free_head_ s;
         v_label_index_ := erase_index index (v_label_index_ s);
         v_id_index_ := erase_index index (v_id_index_ s);
         v_class_index_ := erase_index index (v_class_index_ s) |} index o
  | _ => s
  end.

(** ** Enumeration and search *)

(** The live entries in table order, with their index: the loops
    [if (!v_is_free && v_object) snapshot.emplace_back(i, v_object)]. *)
Fixpoint live_from (i : Z) (t : list v_ObjectEntry) : list (Z * HsmObject) :=
  match t with
  | [] => []
  | e :: t =>
    match v_is_free e, v_object e with
    | false, Some o => (i, o) :: live_from (i + 1) t
    | _, _ => live_from (i + 1) t
    end
  end.

Definition live (s : v_ObjectStore_M1) : list (Z * HsmObject) := live_from 0 (v_table_ s).

Definition v_get_object_count (s : v_ObjectStore_M1) : Z := len (live s).

(** [v_compose_handle(idx, v_table_[idx].v_version)]. *)
Definition handle_at (s : v_ObjectStore_M1) (i : Z) : Z :=
  v_compose_handle i (match entry_at s i with Some e => v_version e | None => 0 end).

Definition v_all_handles (s : v_ObjectStore_M1) : list Z :=
  map (fun io => handle_at s (fst io)) (live s).

Definition v_find_object_if (s : v_ObjectStore_M1) (pred : HsmObject -> bool)
    : Z * option HsmObject :=
  match List.find (fun io => pred (snd io)) (live s) with
  | Some (i, o) => (handle_at s i, Some o)
  | None => (CK_INVALID_HANDLE, None)
  end.

(** [for (kv : templ) if (!attr || *attr != kv.second) match = false]. *)
Definition template_matches (templ : gmap Z (list byte)) (o : HsmObject) : bool :=
  forallb (fun kv => bool_decide (findAttribute o (fst kv) = Some (snd kv))) (map_to_list templ).

(** The candidate set of an indexed search: a bucket was empty (the search
    returns at once), or the indices so far ([None]: no indexed attribute). *)
Inductive Candidates : Type := NoBucket | Cands (c : option (list Z)).

Definition bucket {K} `{EqDecision K} (k : K) (idx : list (K * Z)) : list Z :=
  map snd (List.filter (fun kv => bool_decide (k = fst kv)) idx).

(** One indexed attribute: start from its bucket or intersect with it. *)
Definition narrow (b : list Z) (c : Candidates) : Candidates :=
  match c with
  | NoBucket => NoBucket
  | Cands prev =>
    match b with
    | [] => NoBucket
    | _ =>
      match prev with
      | None => Cands (Some b)
      | Some existing =>
        match List.filter (fun i => existsb (Z.eqb i) existing) b with
        | [] => NoBucket
        | inter => Cands (Some inter)
        end
      end
    end
  end.

Definition narrow_class (s : v_ObjectStore_M1) (templ : gmap Z (list byte)) (c : Candidates)
    : Candidates :=
  match templ !! CKA_CLASS with
  | Some v => if len v =? 8
              then narrow (bucket (u32 (le_value v)) (v_class_index_ s)) c else c
  | None => c
  end.

Definition narrow_label (s : v_ObjectStore_M1) (templ : gmap Z (list byte)) (c : Candidates)
    : Candidates :=
  match templ !! CKA_LABEL with
  | Some v => narrow (bucket v (v_label_index_ s)) c
  | None => c
  end.

Definition narrow_id (s : v_ObjectStore_M1) (templ : gmap Z (list byte)) (c : Candidates)
    : Candidates :=
  match templ !! CKA_ID with
  | Some v => narrow (bucket v (v_id_index_ s)) c
  | None => c
  end.

Definition candidates (s : v_ObjectStore_M1) (templ : gmap Z (list byte)) : Candidates :=
  narrow_id s templ (narrow_label s templ (narrow_class s templ (Cands None))).

(** Entry [i] if it is inside the table and live. *)
Definition live_at (s : v_ObjectStore_M1) (i : Z) : option HsmObject :=
  match entry_at s i with
  | Some e => if v_is_free e then None else v_object e
  | None => None
  end.

Definition snapshot (s : v_ObjectStore_M1) (c : option (list Z)) : list (Z * HsmObject) :=
  match c with
  | None => live s
  | Some l => omap (fun i => match live_at s i with Some o => Some (i, o) | None => None end) l
  end.

Definition v_find_by_attributes (s : v_ObjectStore_M1) (templ : gmap Z (list byte))
    : Z * option HsmObject :=
  match candidates s templ with
  | NoBucket => (CK_INVALID_HANDLE, None)
  | Cands c =>
    match List.find (fun io => template_matches templ (snd io)) (snapshot s c) with
    | Some (i, o) => (handle_at s i, Some o)
    | None => (CK_INVALID_HANDLE, None)
    end
  end.

Definition v_find_all_by_attributes (s : v_ObjectStore_M1) (templ : gmap Z (list byte)) : list Z :=
  if bool_decide (templ = ∅) then v_all_handles s
  else match candidates s templ with
       | NoBucket => []
       | Cands c =>
         map (fun io => handle_at s (fst io))
             (List.filter (fun io => template_matches templ (snd io)) (snapshot s c))
       end.

(** ** Well-formed stores

    The free list is a duplicate-free chain of exactly the free slots, versions
    are 32-bit, an entry has an object exactly when it is not free, and every
    index fits below the [UINT32_MAX] sentinel. *)

Fixpoint free_chain (t : list v_ObjectEntry) (head : Z) (fl : list nat) : Prop :=
  match fl with
  | [] => head = UINT32_MAX
  | i :: fl => head = Z.of_nat i /\
      exists e, t !! i = Some e /\ v_is_free e = true /\ free_chain t (v_next_free e) fl
  end.

Definition wf_entry (e : v_ObjectEntry) : Prop :=
  is_u32 (v_version e) /\ (v_is_free e = false <-> is_Some (v_object e)).

Definition wf_store (s : v_ObjectStore_M1) : Prop :=
  len (v_table_ s) <= UINT32_MAX /\
  (forall i e, v_table_ s !! i = Some e -> wf_entry e) /\
  exists fl, NoDup fl /\ free_chain (v_table_ s) (v_free_head_ s) fl /\
    (forall i e, v_table_ s !! i = Some e -> v_is_free e = true -> i ∈ fl).

(** There is a free slot, or an index left for a new one. *)
Definition has_room (s : v_ObjectStore_M1) : Prop :=
  v_free_head_ s <> UINT32_MAX \/ len (v_table_ s) < UINT32_MAX.

(** *** Handles encode an index and a version *)

Lemma extract_index_range h : is_u32 (v_extract_index h).
Proof. apply u32_is_u32. Qed.

Lemma extract_index_eq h : is_u64 h -> v_extract_index h = h / 2 ^ 32.
Proof.
  intros Hh. unfold v_extract_index, is_u64 in *.
  change 0xFFFFFFFF with (Z.ones 32). rewrite Z.land_ones, Z.shiftr_div_pow2 by lia.
  rewrite u32_id by apply u32_is_u32. apply Z.mod_small.
  split; [apply Z.div_pos; lia|]. apply Z.div_lt_upper_bound; lia.
Qed.

Lemma extract_version_eq h : v_extract_version h = h mod 2 ^ 32.
Proof.
  unfold v_extract_version. change 0xFFFFFFFF with (Z.ones 32). rewrite Z.land_ones by lia.
  apply u32_id, u32_is_u32.
Qed.

Lemma compose_eq i v : is_u32 i -> is_u32 v -> v_compose_handle i v = i * 2 ^ 32 + v.
Proof.
  unfold is_u32. intros Hi Hv. unfold v_compose_handle. rewrite u64_id.
  - apply lor_shiftl_add; lia.
  - unfold is_u64. rewrite Z.shiftl_mul_pow2; lia.
Qed.

Lemma compose_is_u64 i v : is_u32 i -> is_u32 v -> is_u64 (v_compose_handle i v).
Proof. intros Hi Hv. rewrite compose_eq by done. unfold is_u32, is_u64 in *. lia. Qed.

Lemma compose_iff h i v :
  is_u64 h -> is_u32 i -> is_u32 v ->
  h = v_compose_handle i v <-> v_extract_index h = i /\ v_extract_version h = v.
Proof.
  intros Hh Hi Hv. rewrite extract_index_eq, extract_version_eq, compose_eq by done.
  pose proof (Z.div_mod h (2 ^ 32) ltac:(lia)). unfold is_u32 in *.
  pose proof (Z.mod_pos_bound h (2 ^ 32) ltac:(lia)). split.
  - intros ->. split.
    + rewrite Z.div_add_l, Z.div_small by lia. lia.
    + rewrite Z.add_comm, Z.mod_add, Z.mod_small by lia. reflexivity.
  - intros [<- <-]. lia.
Qed.

(** *** Updating one slot of the table *)

Lemma lookup_handle_update s s' idx e' h :
  is_u32 idx ->
  v_table_ s' !! Z.to_nat idx = Some e' ->
  (forall j, j <> Z.to_nat idx -> v_table_ s' !! j = v_table_ s !! j) ->
  lookup_handle s' h =
    if v_extract_index h =? idx
    then (if v_is_free e' then None
          else if negb (v_version e' =? v_extract_version h) then None else Some e')
    else lookup_handle s h.
Proof.
  intros Hi He Hne. unfold lookup_handle, entry_at.
  destruct (Z.eqb_spec (v_extract_index h) idx) as [->|E]; [by rewrite He|].
  rewrite Hne; [reflexivity|]. pose proof (extract_index_range h).
  unfold is_u32 in *. lia.
Qed.

Lemma free_chain_insert t head fl i e :
  free_chain t head fl -> i ∉ fl -> free_chain (<[i := e]> t) head fl.
Proof.
  revert head. induction fl as [|j fl IH]; intros head; cbn [free_chain]; [done|].
  intros (-> & e' & He & Hf & Hc) Hi. apply not_elem_of_cons in Hi as [Hij Hi].
  split; [done|]. exists e'. rewrite list_lookup_insert_ne by congruence. auto.
Qed.

Lemma free_chain_app t head fl e :
  free_chain t head fl -> free_chain (t ++ [e]) head fl.
Proof.
  revert head. induction fl as [|j fl IH]; intros head; cbn [free_chain]; [done|].
  intros (-> & e' & He & Hf & Hc). split; [done|]. exists e'.
  rewrite lookup_app_l by (by eapply lookup_lt_Some). auto.
Qed.

Lemma free_head_sentinel s fl i :
  wf_store s -> free_chain (v_table_ s) (v_free_head_ s) (i :: fl) -> v_free_head_ s <> UINT32_MAX.
Proof.
  intros (Hlen & _) (-> & e & He & _). apply lookup_lt_Some in He. unfold len in *. lia.
Qed.

(** *** The slot a creation takes *)

(** What either branch of [v_create_object] does before indexing the object:
    the slot was unused, and the table changes only there. *)
Record slot_taken (s s1 : v_ObjectStore_M1) (idx ver : Z) (o : HsmObject) : Prop := {
  st_idx : is_u32 idx;
  st_ver : is_u32 ver;
  st_old : forall e, v_table_ s !! Z.to_nat idx = Some e ->
             v_is_free e = true /\ ver = u32 (v_version e + 1);
  st_new : exists nxt, v_table_ s1 !! Z.to_nat idx = Some (mkEntry (Some o) ver false nxt);
  st_other : forall j, j <> Z.to_nat idx -> v_table_ s1 !! j = v_table_ s !! j;
  st_indices : v_label_index_ s1 = v_label_index_ s /\ v_id_index_ s1 = v_id_index_ s /\
               v_class_index_ s1 = v_class_index_ s;
  st_wf : wf_store s1
}.

Lemma lookup_insert_case (t : list v_ObjectEntry) i j e e' :
  <[i := e]> t !! j = Some e' -> (j = i /\ e' = e) \/ (j <> i /\ t !! j = Some e').
Proof.
  destruct (decide (j = i)) as [->|Hne].
  - intros H. left. split; [done|].
    pose proof (lookup_lt_Some _ _ _ H) as Hlt. rewrite length_insert in Hlt.
    rewrite list_lookup_insert_eq in H by done. congruence.
  - rewrite list_lookup_insert_ne by done. auto.
Qed.

Lemma create_reuse s o i fl :
  wf_store s -> NoDup (i :: fl) ->
  free_chain (v_table_ s) (v_free_head_ s) (i :: fl) ->
  (forall j e, v_table_ s !! j = Some e -> v_is_free e = true -> j ∈ i :: fl) ->
  exists idx ver s1, v_create_object s o = (v_compose_handle idx ver, v_index_insert s1 idx o) /\
    slot_taken s s1 idx ver o.
Proof.
  intros Hwf Hnd Hch Hall. pose proof (free_head_sentinel s fl i Hwf Hch) as Hs.
  destruct Hwf as (Hlen & Hent & _). destruct Hch as (Hh & e & He & Hf & Hch).
  apply list.NoDup_cons in Hnd as [Hni Hnd]. pose proof (lookup_lt_Some _ _ _ He) as Hlt.
  unfold v_create_object, entry_at. rewrite (proj2 (Z.eqb_neq _ _)) by done. cbn [negb].
  rewrite Hh, Nat2Z.id, He. cbn [default from_option id].
  eexists _, _, _. split; [reflexivity|]. constructor; cbn [v_table_ with_table
    v_label_index_ v_id_index_ v_class_index_]; rewrite ?Nat2Z.id.
  - unfold is_u32, len, UINT32_MAX in *. lia.
  - apply u32_is_u32.
  - intros e0 He0. rewrite He in He0. injection He0 as <-. auto.
  - eexists. by apply list_lookup_insert_eq.
  - intros j Hj. by apply list_lookup_insert_ne.
  - auto.
  - split; [|split]; cbn [v_table_ v_free_head_ with_table].
    + unfold len in *. by rewrite length_insert.
    + intros j e' [[-> ->]|[Hj He']]%lookup_insert_case; [|by eapply Hent].
      split; [apply u32_is_u32|]. cbn. split; [eauto|done].
    + exists fl. split_and!; [done|by apply free_chain_insert|].
      intros j e' [[-> ->]|[Hj He']]%lookup_insert_case; [discriminate|].
      intros Hfe. specialize (Hall _ _ He' Hfe). apply elem_of_cons in Hall as [|]; done.
Qed.

Lemma create_append s o :
  wf_store s -> v_free_head_ s = UINT32_MAX -> len (v_table_ s) < UINT32_MAX ->
  (forall j e, v_table_ s !! j = Some e -> v_is_free e = true -> False) ->
  exists idx ver s1, v_create_object s o = (v_compose_handle idx ver, v_index_insert s1 idx o) /\
    slot_taken s s1 idx ver o.
Proof.
  intros (Hlen & Hent & _) Hh Hroom Hall. pose proof (len_nonneg (v_table_ s)) as Hnn.
  unfold v_create_object. rewrite Hh, Z.eqb_refl. cbn [negb].
  rewrite (u32_id (len (v_table_ s))) by (unfold is_u32, UINT32_MAX in *; lia).
  assert (Ht : forall e, <[Z.to_nat (len (v_table_ s)) := e]> (v_table_ s ++ [empty_entry])
                         = v_table_ s ++ [e]).
  { intros e. unfold len. rewrite Nat2Z.id, insert_app_r_alt, Nat.sub_diag by lia. reflexivity. }
  rewrite Ht. eexists _, _, _. split; [reflexivity|].
  assert (Hnat : Z.to_nat (len (v_table_ s)) = length (v_table_ s)) by (unfold len; lia).
  constructor; cbn [v_table_ with_table v_label_index_ v_id_index_ v_class_index_];
    rewrite ?Hnat.
  - unfold is_u32, UINT32_MAX in *. lia.
  - apply u32_is_u32.
  - intros e He. apply lookup_lt_Some in He. lia.
  - eexists. by apply list_lookup_middle.
  - intros j Hj. destruct (Nat.lt_ge_cases j (length (v_table_ s))).
    + by apply lookup_app_l.
    + rewrite (lookup_ge_None_2 (v_table_ s)) by done.
      apply lookup_ge_None_2. rewrite length_app. simpl. lia.
  - auto.
  - split; [|split]; cbn [v_table_ v_free_head_ with_table].
    + rewrite len_app. unfold len in *. simpl. lia.
    + intros j e [He|[Hj He]]%lookup_app_Some; [by eapply Hent|].
      apply list_lookup_singleton_Some in He as [_ <-].
      split; [apply u32_is_u32|]. cbn. split; [eauto|done].
    + exists []. split_and!; [constructor|done|].
      intros j e [He|[Hj He]]%lookup_app_Some Hf; [by destruct (Hall _ _ He)|].
      apply list_lookup_singleton_Some in He as [_ <-]. discriminate Hf.
Qed.

Lemma create_slot s o :
  wf_store s -> has_room s ->
  exists idx ver s1, v_create_object s o = (v_compose_handle idx ver, v_index_insert s1 idx o) /\
    slot_taken s s1 idx ver o.
Proof.
  intros Hwf Hroom. pose proof Hwf as (Hlen & Hent & [|i fl] & Hnd & Hch & Hall).
  - cbn [free_chain] in Hch. apply create_append; [done..| |].
    + destruct Hroom; [congruence|done].
    + intros j e He Hf. by apply (Hall _ _ He) in Hf as ?%elem_of_nil.
  - by apply (create_reuse s o i fl).
Qed.

(** Creation as the store's clients see it: a handle that was not valid, that
    now denotes the object, and no other handle affected. *)
Lemma create_get s o :
  wf_store s -> has_room s ->
  let (h, s') := v_create_object s o in
  wf_store s' /\ is_u64 h /\ v_get_object s h = None /\
  (forall h', is_u64 h' -> v_get_object s' h' = if h' =? h then Some o else v_get_object s h').
Proof.
  intros Hwf Hroom. destruct (create_slot s o Hwf Hroom) as (idx & ver & s1 & -> & H).
  destruct H as [Hi Hv Hold [nxt Hnew] Hother _ Hwf1].
  assert (Hh : is_u64 (v_compose_handle idx ver)) by (by apply compose_is_u64).
  assert (Hold' : forall h', v_extract_index h' = idx -> v_get_object s h' = None).
  { intros h' E. unfold v_get_object, lookup_handle, entry_at. rewrite E.
    destruct (v_table_ s !! Z.to_nat idx) as [e|] eqn:Ee; [|done].
    destruct (Hold e eq_refl) as [-> _]. done. }
  split_and!; [exact Hwf1|apply Hh..| |].
  - apply Hold'. by apply (compose_iff _ idx ver).
  - intros h' Hh'. unfold v_get_object at 1. change (lookup_handle (v_index_insert s1 idx o) h')
      with (lookup_handle s1 h').
    rewrite (lookup_handle_update s s1 idx _ h' Hi Hnew Hother). cbn [v_is_free v_version].
    pose proof (compose_iff h' idx ver Hh' Hi Hv) as Hiff.
    destruct (Z.eqb_spec (v_extract_index h') idx) as [E|E],
      (Z.eqb_spec h' (v_compose_handle idx ver)) as [Eh|Eh]; cbn.
    + destruct (Z.eqb_spec ver (v_extract_version h')); cbn; [done|]. apply Hiff in Eh. lia.
    + destruct (Z.eqb_spec ver (v_extract_version h')); cbn.
      * destruct Eh. apply Hiff. auto.
      * symmetry. by apply Hold'.
    + apply Hiff in Eh. lia.
    + done.
Qed.

(** *** Destruction and mutation *)

Lemma free_chain_elem t head fl i :
  free_chain t head fl -> i ∈ fl -> exists e, t !! i = Some e /\ v_is_free e = true.
Proof.
  revert head. induction fl as [|j fl IH]; intros head Hc Hi; [by apply elem_of_nil in Hi|].
  destruct Hc as (_ & e & He & Hf & Hc). apply elem_of_cons in Hi as [->|Hi]; eauto.
Qed.

Lemma lookup_handle_inv s h e :
  lookup_handle s h = Some e ->
  v_table_ s !! Z.to_nat (v_extract_index h) = Some e /\ v_is_free e = false /\
  v_version e = v_extract_version h.
Proof.
  unfold lookup_handle, entry_at.
  destruct (v_table_ s !! _) as [e'|]; [|discriminate].
  destruct (v_is_free e') eqn:Ef; [discriminate|].
  destruct (Z.eqb_spec (v_version e') (v_extract_version h)); cbn; [|discriminate].
  intros [= <-]. auto.
Qed.

Lemma handle_inj h h' :
  is_u64 h -> is_u64 h' -> v_extract_index h = v_extract_index h' ->
  v_extract_version h = v_extract_version h' -> h = h'.
Proof.
  intros H H' Ei Ev.
  assert (Hv : is_u32 (v_extract_version h')) by apply u32_is_u32.
  rewrite (proj2 (compose_iff h _ _ H (extract_index_range h') Hv) (conj Ei Ev)).
  symmetry. by apply compose_iff; [|apply extract_index_range|..].
Qed.

Lemma index_length s h e :
  lookup_handle s h = Some e -> (Z.to_nat (v_extract_index h) < length (v_table_ s))%nat.
Proof. intros H. apply lookup_handle_inv in H as (H & _). by eapply lookup_lt_Some. Qed.

Lemma destroy_table s h s1 :
  v_destroy_object s h = (true, s1) ->
  exists e, v_table_ s !! Z.to_nat (v_extract_index h) = Some e /\
    v_version e = v_extract_version h /\
    v_table_ s1 = <[Z.to_nat (v_extract_index h) :=
      mkEntry None (v_version e) true (v_free_head_ s)]> (v_table_ s).
Proof.
  unfold v_destroy_object. destruct (lookup_handle s h) as [e|] eqn:El; [|discriminate].
  apply lookup_handle_inv in El as (He & _ & Hv). intros [_ <-]%pair_equal_spec.
  exists e. split_and!; [done..|]. by destruct (v_object e).
Qed.

Lemma destroy_get s h :
  wf_store s -> is_u64 h ->
  let (b, s') := v_destroy_object s h in
  wf_store s' /\ b = v_is_valid_handle s h /\
  (forall h', is_u64 h' -> v_get_object s' h' = if h' =? h then None else v_get_object s h').
Proof.
  intros Hwf Hh. unfold v_destroy_object, v_is_valid_handle, v_get_object.
  destruct (lookup_handle s h) as [e|] eqn:El.
  2:{ split_and!; [apply Hwf..|done|]. intros h' _.
      destruct (Z.eqb_spec h' h) as [->|]; [by rewrite El|done]. }
  pose proof (index_length s h e El) as Hlt.
  apply lookup_handle_inv in El as (He & Hf & Hv). set (idx := v_extract_index h) in *.
  pose proof (extract_index_range h : is_u32 idx) as Hi.
  set (s1 := match v_object e with Some o => v_index_remove s idx o | None => s end).
  assert (Ht : v_table_ s1 = v_table_ s /\ v_free_head_ s1 = v_free_head_ s)
    by (unfold s1; by destruct (v_object e)).
  destruct Ht as [Ht Hhead]. rewrite Ht, Hhead. split_and!; [|done|].
  - destruct Hwf as (Hlen & Hent & fl & Hnd & Hch & Hall).
    assert (Hni : Z.to_nat idx ∉ fl)
      by (intros Hin; destruct (free_chain_elem _ _ _ _ Hch Hin) as (? & ? & ?); congruence).
    split; [|split]; cbn [v_table_ v_free_head_ with_table].
    + unfold len in *. by rewrite length_insert.
    + intros j e' [[-> ->]|[Hj He']]%lookup_insert_case; [|by eapply Hent].
      destruct (Hent _ _ He) as [Hu _]. split; [exact Hu|]. cbn. split; [done|by intros []].
    + exists (Z.to_nat idx :: fl). split_and!.
      * by apply list.NoDup_cons.
      * cbn [free_chain]. split; [unfold is_u32 in *; lia|]. eexists.
        rewrite list_lookup_insert_eq by done. split_and!; [done..|].
        by apply free_chain_insert.
      * intros j e' [[-> ->]|[Hj He']]%lookup_insert_case Hfe; apply elem_of_cons; eauto.
  - intros h' Hh'.
    erewrite (lookup_handle_update s _ idx _ h' Hi);
      [|by apply list_lookup_insert_eq|intros j Hj; by apply list_lookup_insert_ne].
    cbn [v_is_free]. destruct (Z.eqb_spec (v_extract_index h') idx) as [E|E],
      (Z.eqb_spec h' h) as [Eh|Eh]; try done.
    + unfold lookup_handle, entry_at. rewrite E, He, Hf.
      destruct (Z.eqb_spec (v_version e) (v_extract_version h')); cbn; [|done].
      destruct Eh. apply handle_inj; [done|done|exact E|congruence].
    + destruct E. by rewrite Eh.
Qed.

Lemma update_get s h f :
  wf_store s -> is_u64 h ->
  wf_store (update_object s h f) /\
  (forall h', is_u64 h' -> v_get_object (update_object s h f) h'
     = if h' =? h then option_map f (v_get_object s h) else v_get_object s h').
Proof.
  intros Hwf Hh. unfold update_object, v_get_object.
  destruct (lookup_handle s h) as [e|] eqn:El.
  2:{ split; [done|]. intros h' _. destruct (Z.eqb_spec h' h) as [->|]; [by rewrite El|done]. }
  pose proof (index_length s h e El) as Hlt.
  pose proof El as El'. apply lookup_handle_inv in El' as (He & Hf & Hv).
  set (idx := v_extract_index h) in *.
  pose proof (extract_index_range h : is_u32 idx) as Hi. split.
  - destruct Hwf as (Hlen & Hent & fl & Hnd & Hch & Hall).
    split; [|split]; cbn [v_table_ v_free_head_ with_table].
    + unfold len in *. by rewrite length_insert.
    + intros j e' [[-> ->]|[Hj He']]%lookup_insert_case; [|by eapply Hent].
      destruct (Hent _ _ He) as [Hu Ho]. split; [exact Hu|]. cbn.
      destruct (proj1 Ho Hf) as [o ->]. cbn. split; eauto.
    + exists fl. split_and!; [done| |].
      * apply free_chain_insert; [done|]. intros Hin.
        destruct (free_chain_elem _ _ _ _ Hch Hin) as (? & ? & ?); congruence.
      * intros j e' [[-> ->]|[Hj He']]%lookup_insert_case Hfe; [discriminate|eauto].
  - intros h' Hh'.
    erewrite (lookup_handle_update s _ idx _ h' Hi);
      [|by apply list_lookup_insert_eq|intros j Hj; by apply list_lookup_insert_ne].
    cbn [v_is_free v_version v_object].
    destruct (Z.eqb_spec h' h) as [->|Eh].
    + fold idx. rewrite Z.eqb_refl, Hv, Z.eqb_refl. reflexivity.
    + destruct (Z.eqb_spec (v_extract_index h') idx) as [E|E]; [|done].
      unfold lookup_handle, entry_at. rewrite E, He, Hf.
      destruct (Z.eqb_spec (v_version e) (v_extract_version h')); cbn; [|done].
      destruct Eh. apply handle_inj; [done|done|exact E|congruence].
Qed.

(** *** Runs of a store *)

Inductive Op : Type :=
| OpCreate (o : HsmObject)
| OpDestroy (h : Z)
| OpUpdate (h : Z) (f : HsmObject -> HsmObject)
| OpReindex (h : Z).

Definition step (s : v_ObjectStore_M1) (op : Op) : v_ObjectStore_M1 :=
  match op with
  | OpCreate o => snd (v_create_object s o)
  | OpDestroy h => snd (v_destroy_object s h)
  | OpUpdate h f => update_object s h f
  | OpReindex h => v_reindex s h
  end.

Definition run (s : v_ObjectStore_M1) (ops : list Op) : v_ObjectStore_M1 := fold_left step ops s.

Definition op_creates (op : Op) : Z := match op with OpCreate _ => 1 | _ => 0 end.

Definition creates (ops : list Op) : Z := foldr (fun op n => op_creates op + n) 0 ops.

Lemma room_from_len s : len (v_table_ s) < UINT32_MAX -> has_room s.
Proof. right. done. Qed.

Lemma reindex_table s h :
  v_table_ (v_reindex s h) = v_table_ s /\ v_free_head_ (v_reindex s h) = v_free_head_ s.
Proof. unfold v_reindex. by destruct (lookup_handle s h) as [[[o|] v f n]|]. Qed.

Lemma reindex_wf s h : wf_store s -> wf_store (v_reindex s h).
Proof. unfold wf_store. by destruct (reindex_table s h) as [-> ->]. Qed.

(** One slot, across one operation: its version moves by at most one, and only
    by taking a free slot. *)
Definition slot_ge (s : v_ObjectStore_M1) (i : nat) (v j : Z) : Prop :=
  exists e, v_table_ s !! i = Some e /\ exists k, 0 <= k <= j /\ v_version e = u32 (v + k) /\
    (v_is_free e = false -> 1 <= k).

Lemma u32_succ v k : u32 (u32 (v + k) + 1) = u32 (v + (k + 1)).
Proof. unfold u32. rewrite Zplus_mod_idemp_l. f_equal. lia. Qed.

Lemma table_length_step s op :
  len (v_table_ (step s op)) <= len (v_table_ s) + op_creates op.
Proof.
  destruct op as [o|h|h f|h]; cbn [step op_creates].
  - unfold v_create_object. destruct (negb _); cbn [snd v_table_ v_index_insert with_table];
      unfold len; rewrite length_insert, ?length_app; cbn [length]; lia.
  - unfold v_destroy_object. destruct (lookup_handle s h) as [e|]; cbn [snd v_table_ with_table];
      [|lia]. unfold len. rewrite length_insert.
    destruct (v_object e); cbn [v_table_ v_index_remove]; lia.
  - unfold update_object. destruct (lookup_handle s h); cbn [v_table_ with_table];
      unfold len; rewrite ?length_insert; lia.
  - destruct (reindex_table s h) as [-> _]. lia.
Qed.

Lemma slot_ge_same s s' i v j n e e' :
  0 <= n -> v_table_ s !! i = Some e -> v_table_ s' !! i = Some e' ->
  v_version e' = v_version e -> (v_is_free e' = false -> v_is_free e = false) ->
  slot_ge s i v j -> slot_ge s' i v (j + n).
Proof.
  intros Hn He He' Ev Ef (e0 & He0 & k & Hk & Hv & Hf).
  rewrite He in He0. injection He0 as <-.
  exists e'. split; [done|]. exists k. rewrite Ev. split_and!; auto; lia.
Qed.

Lemma slot_ge_step s op i v j :
  wf_store s -> (op_creates op = 1 -> has_room s) -> slot_ge s i v j -> slot_ge (step s op) i v (j + op_creates op).
Proof.
  intros Hwf Hroom Hs. pose proof Hs as (e & He & k & Hk & Hv & Hf).
  destruct op as [o|h|h f|h]; cbn [step op_creates].
  - destruct (create_slot s o Hwf (Hroom eq_refl)) as (idx & ver & s1 & -> & H).
    destruct H as [Hi _ Hold [nxt Hnew] Hother _ _].
    destruct (decide (i = Z.to_nat idx)) as [->|Hne].
    + destruct (Hold e He) as [_ ->]. eexists. split; [exact Hnew|].
      exists (k + 1). cbn [v_version v_is_free]. rewrite Hv, u32_succ.
      split_and!; [lia..|done|lia].
    + eapply (slot_ge_same s); [lia|exact He| |done..].
      cbn [snd v_table_ v_index_insert]. by rewrite Hother.
  - unfold v_destroy_object. destruct (lookup_handle s h) as [e'|] eqn:El.
    2:{ eapply (slot_ge_same s); [lia|exact He..|done|done|done]. }
    pose proof (index_length _ _ _ El) as Hlt. apply lookup_handle_inv in El as (He' & _ & _).
    assert (Ht : v_table_ (match v_object e' with Some o => v_index_remove s (v_extract_index h) o
      | None => s end) = v_table_ s) by (by destruct (v_object e')).
    destruct (decide (i = Z.to_nat (v_extract_index h))) as [->|Hne];
      (eapply (slot_ge_same s); [lia|exact He| | | |exact Hs]); cbn [snd v_table_ with_table].
    1: rewrite Ht; by apply list_lookup_insert_eq.
    3: rewrite Ht, list_lookup_insert_ne by done; exact He.
    all: cbn; congruence.
  - unfold update_object. destruct (lookup_handle s h) as [e'|] eqn:El.
    2:{ eapply (slot_ge_same s); [lia|exact He..|done|done|done]. }
    pose proof (index_length _ _ _ El) as Hlt. apply lookup_handle_inv in El as (He' & Hf' & _).
    destruct (decide (i = Z.to_nat (v_extract_index h))) as [->|Hne];
      (eapply (slot_ge_same s); [lia|exact He| | | |exact Hs]); cbn [v_table_ with_table].
    1: by apply list_lookup_insert_eq.
    3: rewrite list_lookup_insert_ne by done; exact He.
    all: cbn; congruence.
  - eapply (slot_ge_same s); [lia|exact He| |done..|done].
    by destruct (reindex_table s h) as [-> _].
Qed.

Definition op_ok (op : Op) : Prop :=
  match op with OpDestroy h | OpUpdate h _ => is_u64 h | _ => True end.

Lemma step_wf s op :
  wf_store s -> (op_creates op = 1 -> has_room s) -> op_ok op -> wf_store (step s op).
Proof.
  intros Hwf Hroom Hop. destruct op as [o|h|h f|h]; cbn [step op_creates] in *.
  - pose proof (create_get s o Hwf (Hroom eq_refl)). destruct (v_create_object s o). apply H.
  - pose proof (destroy_get s h Hwf Hop). destruct (v_destroy_object s h). apply H.
  - by apply update_get.
  - by apply reindex_wf.
Qed.

Lemma creates_nonneg ops : 0 <= creates ops.
Proof. induction ops as [|[] ops IH]; simpl; unfold creates in *; simpl; lia. Qed.

Lemma run_slot_ge ops s i v j :
  wf_store s -> Forall op_ok ops -> len (v_table_ s) + creates ops <= UINT32_MAX ->
  slot_ge s i v j -> wf_store (run s ops) /\ slot_ge (run s ops) i v (j + creates ops).
Proof.
  revert s j. induction ops as [|op ops IH]; intros s j Hwf Hops Hlen Hs.
  - change (creates []) with 0. rewrite Z.add_0_r. done.
  - apply list.Forall_cons in Hops as [Hop Hops].
    change (creates (op :: ops)) with (op_creates op + creates ops) in *.
    change (run s (op :: ops)) with (run (step s op) ops).
    pose proof (creates_nonneg ops). pose proof (table_length_step s op).
    assert (op_creates op = 1 -> has_room s) as Hroom by (intros; apply room_from_len; lia).
    rewrite Z.add_assoc. apply IH; [by apply step_wf|done|lia|by apply slot_ge_step].
Qed.

(** ** Properties of handles *)

(** The store as a finite map from handles to objects. *)
Definition refines (s : v_ObjectStore_M1) (m : gmap Z HsmObject) : Prop :=
  forall h, is_u64 h -> v_get_object s h = m !! h.

(** C5: The store implements a finite map from handles to objects: creation
    inserts at a handle outside the map, destruction deletes and reports
    whether the handle was there, mutation through a handle changes only that
    object, and each keeps the store well formed. *)
Theorem store_refines_map (s : v_ObjectStore_M1) (m : gmap Z HsmObject)
    (Hwf : wf_store s) (Href : refines s m) :
  (forall o, has_room s -> let (h, s') := v_create_object s o in
     is_u64 h /\ m !! h = None /\ wf_store s' /\ refines s' (<[h := o]> m)) /\
  (forall h, is_u64 h -> let (b, s') := v_destroy_object s h in
     b = bool_decide (is_Some (m !! h)) /\ wf_store s' /\ refines s' (delete h m)) /\
  (forall h f, is_u64 h -> wf_store (update_object s h f) /\
     refines (update_object s h f) (alter f h m)).
Proof.
  split_and!.
  - intros o Hroom. pose proof (create_get s o Hwf Hroom) as H.
    destruct (v_create_object s o) as [h s']. destruct H as (Hwf' & Hh & Hn & Hg).
    split_and!; [apply Hh..|by rewrite <- Href|done|]. intros h' Hh'.
    rewrite Hg, lookup_insert by done.
    destruct (Z.eqb_spec h' h), (decide (h = h')); try congruence. by apply Href.
  - intros h Hh. pose proof (destroy_get s h Hwf Hh) as H.
    destruct (v_destroy_object s h) as [b s']. destruct H as (Hwf' & -> & Hg).
    split_and!; [|done|].
    + rewrite <- (Href h Hh). unfold v_is_valid_handle, v_get_object.
      destruct (lookup_handle s h) as [e|] eqn:E; [|done].
      apply lookup_handle_inv in E as (He & Hf & _).
      destruct (proj1 (proj2 (proj1 (proj2 Hwf) _ _ He)) Hf) as [o ->].
      symmetry. apply bool_decide_true. eauto.
    + intros h' Hh'. rewrite Hg, lookup_delete by done.
      destruct (Z.eqb_spec h' h), (decide (h = h')); try congruence. by apply Href.
  - intros h f Hh. destruct (update_get s h f Hwf Hh) as [Hwf' Hg]. split; [done|].
    intros h' Hh'. rewrite Hg, lookup_alter by done.
    destruct (Z.eqb_spec h' h) as [E|], (decide (h = h')); try congruence.
    + rewrite (Href h Hh). by destruct (m !! h).
    + by apply Href.
Qed.

(** A store without a free slot, checked by evaluation. *)
Definition full_entry (e : v_ObjectEntry) : bool :=
  negb (v_is_free e) && bool_decide (is_Some (v_object e)) && (0 <=? v_version e) && (v_version e <? 2 ^ 32).

Lemma full_store_wf s :
  (len (v_table_ s) <=? UINT32_MAX) = true -> forallb full_entry (v_table_ s) = true ->
  (v_free_head_ s =? UINT32_MAX) = true -> wf_store s.
Proof.
  intros H1 H2 H3. assert (He : forall i e, v_table_ s !! i = Some e -> full_entry e = true).
  { intros i e Hi. apply (proj1 (forallb_forall _ _) H2). by apply list_elem_of_In, list_elem_of_lookup_2 with i. }
  split; [by apply Z.leb_le|]. split.
  - intros i e Hi. specialize (He i e Hi). unfold full_entry in He.
    apply andb_true_iff in He as [[[Hf Ho]%andb_true_iff Hl]%andb_true_iff Hu]. bool_to_prop.
    split; [split; lia|]. by rewrite Hf.
  - exists []. split_and!; [constructor|by apply Z.eqb_eq|]. intros i e Hi Hf. specialize (He i e Hi).
    unfold full_entry in He. by rewrite Hf in He.
Qed.

Lemma new_store_wf : wf_store new_store.
Proof.
  split; [vm_compute; discriminate|]. split; [done|].
  exists []. split_and!; [constructor|done|done].
Qed.

Lemma new_store_refines : refines new_store ∅.
Proof.
  intros h _. unfold v_get_object, lookup_handle, entry_at. cbn.
  by rewrite lookup_empty, lookup_nil.
Qed.

Lemma store_refines_map_witness :
  let o := new_object SECRET_KEY true false true true in
  let (h, s') := v_create_object new_store o in
  is_u64 h /\ (∅ : gmap Z HsmObject) !! h = None /\ wf_store s' /\ refines s' (<[h := o]> ∅).
Proof.
  apply (store_refines_map new_store ∅ new_store_wf new_store_refines).
  right. vm_compute. reflexivity.
Defined.

(** C6: A destroyed handle stays invalid: whatever creations, destructions,
    mutations and re-indexings follow, as long as the table indices and the
    32-bit slot versions are not exhausted, no later object is reachable
    through it, even when its slot is reused. *)
Theorem destroyed_handle_never_revives (s s1 : v_ObjectStore_M1) (h : Z) (ops : list Op)
    (Hwf : wf_store s) (Hh : is_u64 h) (Hd : v_destroy_object s h = (true, s1))
    (Hops : Forall op_ok ops) (Hfit : len (v_table_ s1) + creates ops <= UINT32_MAX) :
  v_get_object (run s1 ops) h = None /\ v_destroy_object (run s1 ops) h = (false, run s1 ops).
Proof.
  pose proof (destroy_get s h Hwf Hh) as H. rewrite Hd in H. destruct H as (Hwf1 & _ & _).
  assert (Hs : slot_ge s1 (Z.to_nat (v_extract_index h)) (v_extract_version h) 0).
  { apply destroy_table in Hd as (e & He & Hv & Ht). unfold slot_ge. rewrite Ht. eexists.
    split; [apply list_lookup_insert_eq; by eapply lookup_lt_Some|].
    exists 0. cbn [v_version v_is_free]. rewrite Z.add_0_r, Hv, u32_id by apply u32_is_u32.
    split_and!; [lia..|done|done]. }
  destruct (run_slot_ge ops s1 _ _ _ Hwf1 Hops Hfit Hs) as [_ (e & He & k & Hk & Hv & Hf)].
  assert (lookup_handle (run s1 ops) h = None) as Hnone.
  { unfold lookup_handle, entry_at. rewrite He. destruct (v_is_free e); [done|].
    specialize (Hf eq_refl). pose proof (len_nonneg (v_table_ s1)).
    assert (is_u32 (v_extract_version h)) as Hvr by apply u32_is_u32.
    destruct (Z.eqb_spec (v_version e) (v_extract_version h)) as [E|]; [exfalso|done].
    rewrite Hv in E. unfold u32, is_u32, UINT32_MAX in *.
    pose proof (Z.div_mod (v_extract_version h + k) (2 ^ 32) ltac:(lia)). nia. }
  unfold v_get_object, v_destroy_object. by rewrite Hnone.
Qed.

Lemma destroyed_handle_never_revives_witness :
  let o := new_object PUBLIC_KEY false true false false in
  let (h, s) := v_create_object new_store o in
  let s1 := snd (v_destroy_object s h) in
  v_get_object (run s1 [OpCreate o; OpCreate o]) h = None /\
  v_destroy_object (run s1 [OpCreate o; OpCreate o]) h = (false, run s1 [OpCreate o; OpCreate o]).
Proof.
  set (o := new_object PUBLIC_KEY false true false false).
  pose proof (create_get new_store o new_store_wf (room_from_len new_store eq_refl)) as H.
  destruct (v_create_object new_store o) as [h s] eqn:E. destruct H as (Hwf & Hh & _).
  vm_compute in E. injection E as <- <-.
  eapply (destroyed_handle_never_revives _ _ _ [OpCreate o; OpCreate o] Hwf Hh).
  - vm_compute. reflexivity.
  - repeat constructor.
  - vm_compute. discriminate.
Defined.

(** ** Properties of searches *)

Lemma elem_of_live_from t i k o :
  (k, o) ∈ live_from i t <->
  exists j e, k = i + Z.of_nat j /\ t !! j = Some e /\ v_is_free e = false /\ v_object e = Some o.
Proof.
  revert i. induction t as [|e t IH]; intros i; cbn [live_from].
  - split; [by intros ?%elem_of_nil|]. intros (j & e & _ & H & _). by rewrite lookup_nil in H.
  - assert (Hrest : (k, o) ∈ live_from (i + 1) t <-> exists j e0, k = i + Z.of_nat (S j) /\
      t !! j = Some e0 /\ v_is_free e0 = false /\ v_object e0 = Some o).
    { rewrite IH. split; intros (j & e0 & Hk & H); exists j, e0; split; [lia|done|lia|done]. }
    assert (Hskip : (v_is_free e = true \/ v_object e = None) ->
      (k, o) ∈ live_from (i + 1) t <-> exists j e0, k = i + Z.of_nat j /\
        (e :: t) !! j = Some e0 /\ v_is_free e0 = false /\ v_object e0 = Some o).
    { intros Hd. rewrite Hrest. split.
      - intros (j & e0 & Hk & He & H). exists (S j), e0. auto.
      - intros ([|j] & e0 & Hk & He & Hf & Ho); cbn in He; [|eauto 6].
        injection He as <-. destruct Hd; congruence. }
    destruct (v_is_free e) eqn:Ef; [apply Hskip; auto|].
    destruct (v_object e) as [o'|] eqn:Eo; [|apply Hskip; auto].
    rewrite elem_of_cons, Hrest. split.
    + intros [[= -> ->]|(j & e0 & Hk & He & H)].
      * exists 0%nat, e. rewrite Z.add_0_r. auto.
      * exists (S j), e0. auto.
    + intros ([|j] & e0 & Hk & He & Hf & Ho); cbn in He.
      * left. injection He as <-. rewrite Z.add_0_r in Hk. congruence.
      * right. eauto 6.
Qed.

Lemma elem_of_live s k o : (k, o) ∈ live s <-> 0 <= k /\ live_at s k = Some o.
Proof.
  unfold live, live_at, entry_at. rewrite elem_of_live_from. split.
  - intros (j & e & -> & He & Hf & Ho). rewrite Z.add_0_l, Nat2Z.id, He, Hf. split; [lia|done].
  - intros [Hk H]. destruct (v_table_ s !! Z.to_nat k) as [e|] eqn:He; [|done].
    destruct (v_is_free e) eqn:Hf; [done|]. exists (Z.to_nat k), e. split_and!; [lia|done..].
Qed.

Lemma live_at_range s k o : wf_store s -> live_at s k = Some o -> 0 <= k -> is_u32 k.
Proof.
  intros (Hlen & _) H Hk. unfold live_at, entry_at in H.
  destruct (v_table_ s !! Z.to_nat k) as [e|] eqn:He; [|done].
  apply lookup_lt_Some in He. unfold is_u32, len, UINT32_MAX in *. lia.
Qed.

(** The handle a search reports denotes the object it matched. *)
Lemma get_handle_at s k o :
  wf_store s -> 0 <= k -> live_at s k = Some o ->
  is_u64 (handle_at s k) /\ v_get_object s (handle_at s k) = Some o.
Proof.
  intros Hwf Hk H. pose proof (live_at_range s k o Hwf H Hk) as Hu.
  unfold live_at, entry_at in H. unfold handle_at, v_get_object, lookup_handle, entry_at.
  destruct (v_table_ s !! Z.to_nat k) as [e|] eqn:He; [|done].
  destruct (v_is_free e) eqn:Hf; [done|].
  destruct (proj1 (proj2 Hwf) _ _ He) as [Hv _].
  pose proof (compose_is_u64 k (v_version e) Hu Hv) as Hc.
  destruct (proj1 (compose_iff _ k (v_version e) Hc Hu Hv) eq_refl) as [-> ->].
  by rewrite He, Hf, Z.eqb_refl.
Qed.

Lemma template_matches_spec templ o :
  template_matches templ o = true <->
  forall k v, templ !! k = Some v -> findAttribute o k = Some v.
Proof.
  unfold template_matches. rewrite forallb_forall. split.
  - intros H k v Hk. apply elem_of_map_to_list, list_elem_of_In, H in Hk. by bool_to_prop.
  - intros H [k v] Hk. apply bool_decide_eq_true, H, elem_of_map_to_list, list_elem_of_In, Hk.
Qed.

(** *** The index invariant: every live object is listed under its label, its
    identifier and its class, and the indices name table positions. *)

Definition index_range (s : v_ObjectStore_M1) : Prop :=
  Forall (fun kv => 0 <= snd kv) (v_label_index_ s) /\
  Forall (fun kv => 0 <= snd kv) (v_id_index_ s) /\
  Forall (fun kv => 0 <= snd kv) (v_class_index_ s).

Definition listed (s : v_ObjectStore_M1) (i : Z) (o : HsmObject) : Prop :=
  (v_extract_label o <> [] -> (v_extract_label o, i) ∈ v_label_index_ s) /\
  (v_extract_id o <> [] -> (v_extract_id o, i) ∈ v_id_index_ s) /\
  (v_extract_class o, i) ∈ v_class_index_ s.

Definition index_inv (s : v_ObjectStore_M1) : Prop :=
  wf_store s /\ index_range s /\
  forall i o, 0 <= i -> live_at s i = Some o -> listed s i o.

Lemma emplace_range k i idx :
  0 <= i -> Forall (fun kv => 0 <= snd kv) idx ->
  Forall (fun kv => 0 <= snd kv) (emplace_nonempty k i idx).
Proof.
  intros Hi H. destruct k; cbn [emplace_nonempty]; [done|].
  apply Forall_app. split; [done|by repeat constructor].
Qed.

Lemma elem_of_emplace (k k' : list byte) i j idx :
  (k', j) ∈ idx -> (k', j) ∈ emplace_nonempty k i idx.
Proof. destruct k; cbn [emplace_nonempty]; [done|]. rewrite elem_of_app. auto. Qed.

Lemma elem_of_emplace_eq (k : list byte) i idx : k <> [] -> (k, i) ∈ emplace_nonempty k i idx.
Proof.
  destruct k; cbn [emplace_nonempty]; [done|]. intros _.
  apply elem_of_app. right. by apply list_elem_of_singleton.
Qed.

Lemma class_not_max o : negb (v_extract_class o =? 0xFFFFFFFF) = true.
Proof. unfold v_extract_class. by destruct (type_ o). Qed.

Lemma index_insert_listed s i o :
  listed (v_index_insert s i o) i o /\
  (forall j o', listed s j o' -> listed (v_index_insert s i o) j o').
Proof.
  unfold listed, v_index_insert. cbn [v_label_index_ v_id_index_ v_class_index_].
  rewrite class_not_max. split.
  - split_and!; [apply elem_of_emplace_eq..|].
    apply elem_of_app. right. by apply list_elem_of_singleton.
  - intros j o' (H1 & H2 & H3). split_and!; eauto using elem_of_emplace.
    apply elem_of_app. auto.
Qed.

Lemma index_insert_range s i o :
  0 <= i -> index_range s -> index_range (v_index_insert s i o).
Proof.
  intros Hi (H1 & H2 & H3). unfold index_range, v_index_insert.
  cbn [v_label_index_ v_id_index_ v_class_index_]. rewrite class_not_max.
  split_and!; [by apply emplace_range..|].
  apply Forall_app. split; [done|by repeat constructor].
Qed.

Lemma elem_of_erase_first `{EqDecision K} (k k' : K) i j idx :
  (k', j) ∈ idx -> j <> i -> (k', j) ∈ erase_first k i idx.
Proof.
  intros H Hji. induction idx as [|[k0 j0] idx IH]; [done|]. cbn [erase_first].
  destruct (bool_decide (k = k0) && (j0 =? i)) eqn:E; apply elem_of_cons in H as [[= -> ->]|H].
  - bool_to_prop. congruence.
  - done.
  - apply elem_of_cons. auto.
  - apply elem_of_cons. auto.
Qed.

Lemma erase_first_range `{EqDecision K} (k : K) i idx :
  Forall (fun kv => 0 <= snd kv) idx -> Forall (fun kv => 0 <= snd kv) (erase_first k i idx).
Proof.
  induction 1 as [|[k0 j0] idx H Ht IH]; cbn [erase_first]; [constructor|].
  destruct (bool_decide (k = k0) && (j0 =? i)); [done|by constructor].
Qed.

Lemma index_remove_listed s i o j o' :
  j <> i -> listed s j o' -> listed (v_index_remove s i o) j o'.
Proof.
  intros Hji (H1 & H2 & H3). unfold listed, v_index_remove.
  cbn [v_label_index_ v_id_index_ v_class_index_]. rewrite class_not_max. split_and!.
  - intros Hl. destruct (v_extract_label o); [auto|]. apply elem_of_erase_first; auto.
  - intros Hl. destruct (v_extract_id o); [auto|]. apply elem_of_erase_first; auto.
  - by apply elem_of_erase_first.
Qed.

Lemma index_remove_range s i o : index_range s -> index_range (v_index_remove s i o).
Proof.
  intros (H1 & H2 & H3). unfold index_range, v_index_remove.
  cbn [v_label_index_ v_id_index_ v_class_index_]. rewrite class_not_max.
  split_and!; [destruct (v_extract_label o); [done|] | destruct (v_extract_id o); [done|] |];
    by apply erase_first_range.
Qed.

Lemma elem_of_erase_index {K} (k : K) i j idx :
  (k, j) ∈ idx -> j <> i -> (k, j) ∈ erase_index i idx.
Proof.
  intros H Hji. unfold erase_index. apply list_elem_of_In, filter_In.
  split; [by apply list_elem_of_In|]. cbn. apply negb_true_iff, Z.eqb_neq, Hji.
Qed.

Lemma erase_index_range {K} i (idx : list (K * Z)) :
  Forall (fun kv => 0 <= snd kv) idx -> Forall (fun kv => 0 <= snd kv) (erase_index i idx).
Proof.
  rewrite !list.Forall_forall. intros H x Hx. apply H.
  unfold erase_index in Hx. apply list_elem_of_In, filter_In in Hx as [Hx _].
  by apply list_elem_of_In.
Qed.

Lemma live_at_other s s' i j :
  0 <= i -> 0 <= j -> j <> i ->
  (forall n, n <> Z.to_nat i -> v_table_ s' !! n = v_table_ s !! n) ->
  live_at s' j = live_at s j.
Proof. intros Hi Hj Hne H. unfold live_at, entry_at. rewrite H; [done|lia]. Qed.

Lemma create_index_inv s o :
  index_inv s -> has_room s -> index_inv (snd (v_create_object s o)).
Proof.
  intros (Hwf & Hr & Hl) Hroom. destruct (create_slot s o Hwf Hroom) as (idx & ver & s1 & -> & H).
  destruct H as [Hi _ _ [nxt Hnew] Hother (El & Ei & Ec) Hwf1]. cbn [snd].
  assert (0 <= idx) as Hi0 by apply Hi.
  assert (Hls : forall j o', listed s j o' -> listed s1 j o')
    by (unfold listed; by rewrite El, Ei, Ec).
  split; [exact Hwf1|split].
  - apply index_insert_range; [done|]. unfold index_range. by rewrite El, Ei, Ec.
  - intros j o' Hj Hlive. change (live_at (v_index_insert s1 idx o) j) with (live_at s1 j) in Hlive.
    destruct (decide (j = idx)) as [->|Hne].
    + unfold live_at, entry_at in Hlive. rewrite Hnew in Hlive. injection Hlive as <-.
      apply (proj1 (index_insert_listed _ _ _)).
    + apply (proj2 (index_insert_listed s1 idx o)), Hls, Hl; [done|]. by rewrite <- (live_at_other s s1 idx j).
Qed.

Lemma destroy_index_inv s h :
  index_inv s -> is_u64 h -> index_inv (snd (v_destroy_object s h)).
Proof.
  intros (Hwf & Hr & Hl) Hh. pose proof (destroy_get s h Hwf Hh) as Hd.
  unfold v_destroy_object in *. destruct (lookup_handle s h) as [e|] eqn:El; [|done].
  destruct Hd as [Hwf' _]. cbn [snd].
  pose proof (index_length _ _ _ El) as Hlt. apply lookup_handle_inv in El as (He & Hf & _).
  destruct (proj1 (proj2 (proj1 (proj2 Hwf) _ _ He)) Hf) as [o Ho]. rewrite Ho in *.
  split; [exact Hwf'|split].
  - apply (index_remove_range s (v_extract_index h) o Hr).
  - intros j o' Hj Hlive. destruct (decide (j = v_extract_index h)) as [->|Hne].
    + unfold live_at, entry_at in Hlive. cbn [v_table_ with_table] in Hlive.
      rewrite list_lookup_insert_eq in Hlive by done. discriminate.
    + apply (index_remove_listed s (v_extract_index h) o j o' Hne), Hl; [done|].
      rewrite <- Hlive. symmetry.
      apply (live_at_other s _ (v_extract_index h)); [apply extract_index_range|done..|].
      intros n Hn. by apply list_lookup_insert_ne.
Qed.

Lemma update_reindex_inv s h f :
  index_inv s -> is_u64 h -> index_inv (v_reindex (update_object s h f) h).
Proof.
  intros (Hwf & Hr & Hl) Hh. destruct (update_get s h f Hwf Hh) as [Hwf' _].
  pose proof (reindex_wf _ h Hwf') as Hwf2.
  unfold update_object, v_reindex in *.
  destruct (lookup_handle s h) as [e|] eqn:El; [|by rewrite El in *].
  pose proof (index_length _ _ _ El) as Hlt. apply lookup_handle_inv in El as (He & Hf & Hv).
  destruct (proj1 (proj2 (proj1 (proj2 Hwf) _ _ He)) Hf) as [o Ho]. rewrite Ho in *.
  set (s1 := with_table s _ _) in *. cbn [option_map] in s1.
  assert (lookup_handle s1 h = Some (mkEntry (Some (f o)) (v_version e) false (v_next_free e))) as E1.
  { unfold lookup_handle, entry_at. unfold s1. cbn [v_table_ with_table].
    rewrite list_lookup_insert_eq by done. cbn [v_is_free v_version]. by rewrite Hv, Z.eqb_refl. }
  rewrite E1 in *. destruct Hr as (R1 & R2 & R3).
  pose proof (extract_index_range h) as [Hi0 _].
  split; [exact Hwf2|split].
  - apply index_insert_range; [done|]. split_and!; cbn; by apply erase_index_range.
  - intros j o' Hj Hlive. destruct (decide (j = v_extract_index h)) as [->|Hne].
    + unfold live_at, entry_at, s1 in Hlive. cbn [v_table_ with_table v_index_insert] in Hlive.
      rewrite list_lookup_insert_eq in Hlive by done. injection Hlive as <-.
      apply (proj1 (index_insert_listed _ _ _)).
    + apply (proj2 (index_insert_listed _ _ _)).
      assert (listed s j o') as (L1 & L2 & L3).
      { apply Hl; [done|]. rewrite <- Hlive. symmetry.
        apply (live_at_other s _ (v_extract_index h)); [done..|].
        intros n Hn. by apply list_lookup_insert_ne. }
      split_and!; cbn; intros; apply elem_of_erase_index; auto.
Qed.

(** *** Candidates *)

Definition keeps (i : Z) (c : Candidates) : Prop :=
  match c with NoBucket => False | Cands None => True | Cands (Some l) => i ∈ l end.

Definition all_nonneg (c : Candidates) : Prop :=
  match c with Cands (Some l) => Forall (fun i => 0 <= i) l | _ => True end.

Lemma elem_of_bucket `{EqDecision K} (k : K) i idx : i ∈ bucket k idx <-> (k, i) ∈ idx.
Proof.
  unfold bucket. rewrite list_elem_of_In, in_map_iff, list_elem_of_In. split.
  - intros ([k' j] & <- & [H E]%filter_In). cbn in *. bool_to_prop. by subst.
  - intros H. exists (k, i). split; [done|]. apply filter_In. split; [done|].
    by apply bool_decide_eq_true.
Qed.

Lemma narrow_keeps i b c : i ∈ b -> keeps i c -> keeps i (narrow b c).
Proof.
  intros Hb Hc. destruct c as [|[l|]]; cbn [narrow keeps] in *; [done|..];
    destruct b as [|x b]; try (by apply elem_of_nil in Hb); [|done].
  set (F := List.filter _ (x :: b)).
  assert (i ∈ F) as Hin.
  { apply list_elem_of_In, filter_In. split; [by apply list_elem_of_In|].
    apply existsb_exists. exists i. split; [by apply list_elem_of_In|apply Z.eqb_refl]. }
  destruct F; [by apply elem_of_nil in Hin|done].
Qed.

Lemma narrow_nonneg b c :
  Forall (fun i => 0 <= i) b -> all_nonneg c -> all_nonneg (narrow b c).
Proof.
  intros Hb Hc. destruct c as [|[l|]]; cbn [narrow]; [done|..]; destruct b as [|x b]; try done.
  set (F := List.filter _ (x :: b)).
  assert (Forall (fun i => 0 <= i) F) as Hin; [|by destruct F].
  rewrite list.Forall_forall in Hb |- *. intros y Hy. apply Hb.
  apply list_elem_of_In, filter_In in Hy as [Hy _]. by apply list_elem_of_In.
Qed.

Lemma bucket_nonneg `{EqDecision K} (k : K) idx :
  Forall (fun kv => 0 <= snd kv) idx -> Forall (fun i => 0 <= i) (bucket k idx).
Proof.
  rewrite !list.Forall_forall. intros H i Hi. apply elem_of_bucket in Hi. by apply (H (k, i)).
Qed.

Lemma candidates_nonneg s templ : index_range s -> all_nonneg (candidates s templ).
Proof.
  intros (H1 & H2 & H3). unfold candidates, narrow_id, narrow_label, narrow_class.
  destruct (templ !! CKA_CLASS) as [v|]; [destruct (len v =? 8)|];
  destruct (templ !! CKA_LABEL); destruct (templ !! CKA_ID);
  repeat (apply narrow_nonneg; [by apply bucket_nonneg|]); done.
Qed.

Lemma elem_of_snapshot s c k o :
  all_nonneg (Cands c) -> (k, o) ∈ snapshot s c -> 0 <= k /\ live_at s k = Some o.
Proof.
  destruct c as [l|]; cbn [snapshot all_nonneg]; [|intros _; apply elem_of_live].
  intros Hl Hin. apply list_elem_of_omap in Hin as (i & Hi & E).
  rewrite list.Forall_forall in Hl. destruct (live_at s i) as [o'|] eqn:El; [|done].
  injection E as <- <-. auto.
Qed.

Lemma snapshot_elem s c k o :
  keeps k (Cands c) -> 0 <= k -> live_at s k = Some o -> (k, o) ∈ snapshot s c.
Proof.
  destruct c as [l|]; cbn [keeps snapshot]; intros Hk H0 Hl.
  - apply list_elem_of_omap. exists k. by rewrite Hl.
  - by apply elem_of_live.
Qed.

(** Every handle an attribute search returns is valid and denotes an
    object whose attributes equal the template's, whichever index was used. *)
Theorem find_all_sound (s : v_ObjectStore_M1) (templ : gmap Z (list byte)) (h : Z)
    (Hwf : wf_store s) (Hr : index_range s)
    (Hin : h ∈ v_find_all_by_attributes s templ) :
  exists o, v_get_object s h = Some o /\
    forall k v, templ !! k = Some v -> findAttribute o k = Some v.
Proof.
  unfold v_find_all_by_attributes, v_all_handles in Hin. case_bool_decide as E.
  - subst templ. apply list_elem_of_In, in_map_iff in Hin as ([k o] & <- & Hin).
    apply list_elem_of_In, elem_of_live in Hin as [Hk Hl]. exists o.
    split; [by apply get_handle_at|]. intros k' v Hv. by rewrite lookup_empty in Hv.
  - pose proof (candidates_nonneg s templ Hr) as Hnn.
    destruct (candidates s templ) as [|c]; [by apply elem_of_nil in Hin|].
    apply list_elem_of_In, in_map_iff in Hin as ([k o] & <- & Hin).
    apply filter_In in Hin as [Hin Hm]. cbn [fst snd] in *.
    apply list_elem_of_In, (elem_of_snapshot s c k o Hnn) in Hin as [Hk Hl].
    exists o. split; [by apply get_handle_at|]. by apply template_matches_spec.
Qed.

(** Objects whose stored class attribute agrees with the indexed one. *)
Definition class_coherent (o : HsmObject) : Prop :=
  forall v, findAttribute o CKA_CLASS = Some v -> le_value v = ObjectType_val (type_ o).

(** Templates the label and identifier indices can answer: the indices do not
    list empty keys. *)
Definition indexable (templ : gmap Z (list byte)) : Prop :=
  templ !! CKA_LABEL <> Some [] /\ templ !! CKA_ID <> Some [].

Lemma candidates_keep s templ i o :
  listed s i o -> class_coherent o -> indexable templ ->
  (forall k v, templ !! k = Some v -> findAttribute o k = Some v) ->
  keeps i (candidates s templ).
Proof.
  intros (L1 & L2 & L3) Hc [Hl Hi] Hm. unfold candidates.
  assert (keeps i (narrow_class s templ (Cands None))) as H1.
  { unfold narrow_class. destruct (templ !! CKA_CLASS) as [v|] eqn:E; [|done].
    destruct (len v =? 8); [|done]. apply narrow_keeps; [|done].
    apply elem_of_bucket. rewrite (Hc v (Hm _ _ E)).
    rewrite u32_id by (by destruct (type_ o)). exact L3. }
  assert (keeps i (narrow_label s templ (narrow_class s templ (Cands None)))) as H2.
  { unfold narrow_label. destruct (templ !! CKA_LABEL) as [v|] eqn:E; [|done].
    apply narrow_keeps; [|done]. apply elem_of_bucket.
    unfold v_extract_label in L1. rewrite (Hm _ _ E) in L1. apply L1. congruence. }
  unfold narrow_id. destruct (templ !! CKA_ID) as [v|] eqn:E; [|done].
  apply narrow_keeps; [|done]. apply elem_of_bucket.
  unfold v_extract_id in L2. rewrite (Hm _ _ E) in L2.
  destruct v as [|b v]; [congruence|]. by apply L2.
Qed.

(** In a store whose indices are up to date, an attribute search with
    non-empty label and identifier finds every live object that matches, given
    that its stored class attribute is its type's: the indexed search returns
    what a scan of the whole table would. *)
Theorem find_all_complete (s : v_ObjectStore_M1) (templ : gmap Z (list byte)) (i : Z) (o : HsmObject)
    (Hinv : index_inv s) (Hi : 0 <= i) (Hlive : live_at s i = Some o)
    (Hc : class_coherent o) (Ht : indexable templ)
    (Hm : forall k v, templ !! k = Some v -> findAttribute o k = Some v) :
  handle_at s i ∈ v_find_all_by_attributes s templ.
Proof.
  destruct Hinv as (_ & _ & Hl). unfold v_find_all_by_attributes. case_bool_decide.
  - unfold v_all_handles. apply list_elem_of_In, in_map_iff. exists (i, o).
    split; [done|]. by apply list_elem_of_In, elem_of_live.
  - pose proof (candidates_keep s templ i o (Hl i o Hi Hlive) Hc Ht Hm) as Hk.
    destruct (candidates s templ) as [|c]; [done|].
    apply list_elem_of_In, in_map_iff. exists (i, o). split; [done|].
    apply filter_In. split; [by apply list_elem_of_In, snapshot_elem|].
    by apply template_matches_spec.
Qed.

Lemma new_store_inv : index_inv new_store.
Proof.
  split; [exact new_store_wf|]. split; [by repeat constructor|].
  intros i o _ H. unfold live_at, entry_at, new_store in H. cbn [v_table_] in H.
  by rewrite lookup_nil in H.
Qed.

(** The index invariant holds of the empty store and is kept by creation,
    by destruction, and by a mutation followed by the re-indexing
    [C_SetAttributeValue] does. *)
Theorem index_invariant_preserved :
  index_inv new_store /\
  (forall s o, index_inv s -> has_room s -> index_inv (snd (v_create_object s o))) /\
  (forall s h, index_inv s -> is_u64 h -> index_inv (snd (v_destroy_object s h))) /\
  (forall s h f, index_inv s -> is_u64 h -> index_inv (v_reindex (update_object s h f) h)).
Proof.
  split_and!.
  - exact new_store_inv.
  - intros s o. apply create_index_inv.
  - intros s h. apply destroy_index_inv.
  - intros s h f. apply update_reindex_inv.
Qed.

(** A store with one labelled key, and its handle. *)
Definition sample_object : HsmObject :=
  with_attrs (new_object SECRET_KEY false true false false)
    (<[CKA_LABEL := bytes_of "KEK"]> (<[CKA_CLASS := le_digits 8 CKO_SECRET_KEY]> ∅)).

Definition sample_store : v_ObjectStore_M1 := snd (v_create_object new_store sample_object).

Definition sample_template : gmap Z (list byte) :=
  <[CKA_CLASS := le_digits 8 CKO_SECRET_KEY]> (<[CKA_LABEL := bytes_of "KEK"]> ∅).

Lemma sample_store_inv : index_inv sample_store.
Proof. apply create_index_inv; [exact new_store_inv|by apply room_from_len]. Qed.

Lemma sample_matches k v :
  sample_template !! k = Some v -> findAttribute sample_object k = Some v.
Proof.
  unfold sample_template. intros [[<- <-]|[Hk H]]%lookup_insert_Some; [reflexivity|].
  apply lookup_insert_Some in H as [[<- <-]|[_ H]]; [reflexivity|].
  by rewrite lookup_empty in H.
Qed.

Lemma find_all_sound_witness :
  exists o, v_get_object sample_store 1 = Some o /\
    forall k v, sample_template !! k = Some v -> findAttribute o k = Some v.
Proof.
  apply (find_all_sound sample_store sample_template 1); [apply sample_store_inv..|].
  vm_compute. constructor.
Defined.

Lemma find_all_complete_witness :
  handle_at sample_store 0 ∈ v_find_all_by_attributes sample_store sample_template.
Proof.
  apply (find_all_complete sample_store sample_template 0 sample_object).
  - exact sample_store_inv.
  - lia.
  - reflexivity.
  - intros v [= <-]. reflexivity.
  - split; vm_compute; discriminate.
  - exact sample_matches.
Defined.

(** The class index files [ObjectType::OTHER] under 7 while its PKCS#11 class
    is [CKO_OTHER] = 16: an object of that type, with its class attribute set,
    is live and matches, but a search on its class returns nothing. *)
Lemma find_all_misses_other :
  let o := with_attrs (new_object OTHER false true false false)
             (<[CKA_CLASS := le_digits 8 CKO_OTHER]> ∅) in
  let s := snd (v_create_object new_store o) in
  let templ := <[CKA_CLASS := le_digits 8 CKO_OTHER]> ∅ in
  live_at s 0 = Some o /\ template_matches templ o = true /\
  v_find_all_by_attributes s templ = [].
Proof. vm_compute. auto. Qed.

(** An identifier written through [v_set_attribute] lives in the object's
    [id_] buffer, which the final comparison of a search does not consult: a
    search for it finds nothing. *)
Lemma find_all_misses_set_id :
  let o := snd (AttrStore.v_set_attribute (new_object SECRET_KEY false true false false)
             (Some (AttrStore.mkAttr CKA_ID (Some (bytes_of "k1")) 2))) in
  let s := snd (v_create_object new_store o) in
  AttrStore.attribute_value o CKA_ID = AttrStore.Known (bytes_of "k1") /\
  v_find_all_by_attributes s (<[CKA_ID := bytes_of "k1"]> ∅) = [].
Proof. vm_compute. auto. Qed.

(** ** First match and slot frames

    What the clients that enumerate the table rely on: [v_find_object_if] gives
    the first live object that satisfies the predicate, and creation,
    destruction and mutation change one slot. *)

Lemma live_from_find (pred : HsmObject -> bool) t i :
  match List.find (fun io => pred (snd io)) (live_from i t) with
  | Some (k, o) => i <= k /\ pred o = true /\
      (exists e, t !! Z.to_nat (k - i) = Some e /\ v_is_free e = false /\ v_object e = Some o) /\
      (forall j e o', i <= j < k -> t !! Z.to_nat (j - i) = Some e -> v_is_free e = false ->
         v_object e = Some o' -> pred o' = false)
  | None => forall j e o', i <= j -> t !! Z.to_nat (j - i) = Some e -> v_is_free e = false ->
         v_object e = Some o' -> pred o' = false
  end.
Proof.
  revert i. induction t as [|e t IH]; intros i; cbn [live_from List.find]; [done|].
  assert (Hskip : (v_is_free e = false -> forall o, v_object e = Some o -> pred o = false) ->
    match List.find (fun io => pred (snd io)) (live_from (i + 1) t) with
    | Some (k, o) => i <= k /\ pred o = true /\
        (exists e', (e :: t) !! Z.to_nat (k - i) = Some e' /\ v_is_free e' = false /\ v_object e' = Some o) /\
        (forall j e' o', i <= j < k -> (e :: t) !! Z.to_nat (j - i) = Some e' -> v_is_free e' = false ->
           v_object e' = Some o' -> pred o' = false)
    | None => forall j e' o', i <= j -> (e :: t) !! Z.to_nat (j - i) = Some e' ->
           v_is_free e' = false -> v_object e' = Some o' -> pred o' = false
    end).
  { intros He. specialize (IH (i + 1)).
    assert (Hsh : forall j, i + 1 <= j ->
      (e :: t) !! Z.to_nat (j - i) = t !! Z.to_nat (j - (i + 1))).
    { intros j Hj. replace (Z.to_nat (j - i)) with (S (Z.to_nat (j - (i + 1)))) by lia. done. }
    assert (Hstep : forall j e' o', i <= j -> (e :: t) !! Z.to_nat (j - i) = Some e' ->
      v_is_free e' = false -> v_object e' = Some o' ->
      (i + 1 <= j -> t !! Z.to_nat (j - (i + 1)) = Some e' -> pred o' = false) -> pred o' = false).
    { intros j e' o' Hj Hl Hf Ho H. destruct (Z.eq_dec j i) as [->|].
      - rewrite Z.sub_diag in Hl. injection Hl as <-. by apply He.
      - rewrite Hsh in Hl by lia. apply H; [lia|done]. }
    destruct (List.find _ _) as [[k o]|].
    - destruct IH as (Hk & Hp & Hex & Hall). rewrite Hsh by done. split_and!; [lia|done..|].
      intros j e' o' Hj Hl Hf Ho. apply (Hstep j e' o'); [lia|done..|]. intros; by apply (Hall j e' o'); [lia|..].
    - intros j e' o' Hj Hl Hf Ho. apply (Hstep j e' o'); [lia|done..|]. intros; by apply (IH j e' o'). }
  destruct (v_is_free e) eqn:Ef; [by apply Hskip|].
  destruct (v_object e) as [o|] eqn:Eo; [|by apply Hskip].
  cbn [List.find snd]. destruct (pred o) eqn:Ep.
  - split_and!; [lia|done| |lia]. exists e. rewrite Z.sub_diag. done.
  - apply Hskip. congruence.
Qed.

Lemma live_at_inv s j o :
  live_at s j = Some o <->
  exists e, v_table_ s !! Z.to_nat j = Some e /\ v_is_free e = false /\ v_object e = Some o.
Proof.
  unfold live_at, entry_at. destruct (v_table_ s !! Z.to_nat j) as [e|].
  - destruct (v_is_free e) eqn:E; [split; [done|]; intros (e' & [= <-] & ? & _); congruence|].
    split; [eauto|]. by intros (e' & [= <-] & _ & ?).
  - split; [done|]. by intros (? & ? & _).
Qed.

Lemma find_if_spec s pred :
  match v_find_object_if s pred with
  | (h, Some o) => exists k, h = handle_at s k /\ 0 <= k /\ live_at s k = Some o /\ pred o = true /\
      forall j o', 0 <= j < k -> live_at s j = Some o' -> pred o' = false
  | (h, None) => h = CK_INVALID_HANDLE /\
      forall j o', 0 <= j -> live_at s j = Some o' -> pred o' = false
  end.
Proof.
  unfold v_find_object_if, live. pose proof (live_from_find pred (v_table_ s) 0) as H.
  destruct (List.find _ _) as [[k o]|].
  - destruct H as (Hk & Hp & Hex & Hall). rewrite Z.sub_0_r in Hex. exists k.
    split_and!; [done..|by apply live_at_inv|done|]. intros j o' Hj (e & He & Hf & Ho)%live_at_inv.
    apply (Hall j e o' Hj); by rewrite ?Z.sub_0_r.
  - split; [done|]. intros j o' Hj (e & He & Hf & Ho)%live_at_inv.
    apply (H j e o' Hj); by rewrite ?Z.sub_0_r.
Qed.

Lemma find_if_first s pred k o :
  0 <= k -> live_at s k = Some o -> pred o = true ->
  (forall j o', 0 <= j -> j <> k -> live_at s j = Some o' -> pred o' = true -> k < j) ->
  v_find_object_if s pred = (handle_at s k, Some o).
Proof.
  intros Hk Hl Hp Hfirst. pose proof (find_if_spec s pred) as H.
  destruct (v_find_object_if s pred) as [h [o'|]].
  - destruct H as (k' & -> & Hk' & Hl' & Hp' & Hall).
    destruct (Z.eq_dec k' k) as [->|Hne]; [congruence|].
    pose proof (Hfirst k' o' Hk' Hne Hl' Hp').
    assert (pred o = false) by (apply (Hall k); [lia|done]). congruence.
  - destruct H as [_ H]. rewrite (H k o Hk Hl) in Hp. discriminate.
Qed.

(** [h] is the handle of the live object [o] in slot [k]. *)
Definition points (s : v_ObjectStore_M1) (h k : Z) (o : HsmObject) : Prop :=
  v_extract_index h = k /\ exists e, lookup_handle s h = Some e /\ v_object e = Some o.

Lemma points_live s h k o : points s h k o -> live_at s k = Some o.
Proof.
  intros (<- & e & (He & Hf & _)%lookup_handle_inv & Ho). apply live_at_inv. eauto.
Qed.

Lemma update_points s h k o f :
  points s h k o ->
  points (update_object s h f) h k (f o) /\
  (forall j, 0 <= j -> j <> k -> live_at (update_object s h f) j = live_at s j).
Proof.
  intros (<- & e & El & Ho). pose proof (index_length _ _ _ El) as Hlt.
  pose proof El as (He & Hf & Hv)%lookup_handle_inv.
  pose proof (extract_index_range h) as Hi. unfold update_object. rewrite El. split.
  - split; [done|]. eexists.
    erewrite (lookup_handle_update s _ (v_extract_index h) _ h Hi);
      [|by apply list_lookup_insert_eq|intros j Hj; by apply list_lookup_insert_ne].
    rewrite Z.eqb_refl. cbn [v_is_free v_version]. rewrite Hv, Z.eqb_refl. cbn [negb].
    split; [done|]. cbn [v_object]. by rewrite Ho.
  - intros j Hj Hne. unfold is_u32 in Hi. apply (live_at_other _ _ (v_extract_index h)); [lia|done..|].
    intros n Hn. by apply list_lookup_insert_ne.
Qed.

Lemma extract_index_compose i v :
  is_u32 i -> is_u32 v -> v_extract_index (v_compose_handle i v) = i.
Proof. intros Hi Hv. by apply (compose_iff _ i v); auto using compose_is_u64. Qed.

(** A creation takes a slot that was not live, and when there is a free slot,
    the head of the free list. *)
Lemma create_points s o :
  wf_store s -> has_room s ->
  exists k, points (snd (v_create_object s o)) (fst (v_create_object s o)) k o /\
    0 <= k /\ live_at s k = None /\
    (v_free_head_ s <> UINT32_MAX -> k = v_free_head_ s) /\
    (forall j, 0 <= j -> j <> k -> live_at (snd (v_create_object s o)) j = live_at s j).
Proof.
  intros Hwf Hroom. destruct (create_slot s o Hwf Hroom) as (idx & ver & s1 & Hc & H).
  destruct H as [Hi Hv Hold [nxt Hnew] Hother _ _]. exists idx.
  assert (Hhead : v_free_head_ s <> UINT32_MAX -> idx = v_free_head_ s).
  { intros Hne. destruct Hwf as (Hlen & _ & [|i fl] & _ & Hch & _); [done|].
    destruct Hch as (Hh & e & He & _). apply lookup_lt_Some in He.
    assert (is_u32 (v_free_head_ s)) by (unfold is_u32, len, UINT32_MAX in *; lia).
    unfold v_create_object in Hc. rewrite (proj2 (Z.eqb_neq _ _) Hne) in Hc. cbn [negb] in Hc.
    apply pair_equal_spec in Hc as [Hc _].
    apply (f_equal v_extract_index) in Hc.
    rewrite !extract_index_compose in Hc by auto using u32_is_u32. done. }
  rewrite Hc. cbn [fst snd].
  assert (Hx : v_extract_index (v_compose_handle idx ver) = idx /\
               v_extract_version (v_compose_handle idx ver) = ver)
    by (apply compose_iff; auto using compose_is_u64).
  destruct Hx as [Hx1 Hx2]. unfold is_u32 in Hi. split_and!; [|lia| |done|].
  - split; [done|]. unfold lookup_handle, entry_at. rewrite Hx1, Hx2.
    change (v_table_ (v_index_insert s1 idx o)) with (v_table_ s1). rewrite Hnew.
    cbn [v_is_free v_version]. rewrite Z.eqb_refl. by eexists.
  - unfold live_at, entry_at. destruct (v_table_ s !! Z.to_nat idx) as [e|] eqn:E; [|done].
    by rewrite (proj1 (Hold e eq_refl)).
  - intros j Hj Hne. apply (live_at_other _ _ idx); [lia|done..|].
    intros n Hn. cbn [v_index_insert v_table_]. by apply Hother.
Qed.

(** Destroying the object of slot [k] frees the slot, at the head of the list. *)
Lemma destroy_points s h k o :
  points s h k o ->
  fst (v_destroy_object s h) = true /\ v_free_head_ (snd (v_destroy_object s h)) = k /\
  live_at (snd (v_destroy_object s h)) k = None /\
  (forall j, 0 <= j -> j <> k -> live_at (snd (v_destroy_object s h)) j = live_at s j).
Proof.
  intros (<- & e & El & Ho). pose proof (index_length _ _ _ El) as Hlt.
  unfold v_destroy_object. rewrite El, Ho. cbn [fst snd with_table v_free_head_].
  pose proof (extract_index_range h) as Hi. unfold is_u32 in Hi. split_and!; [done..| |].
  - unfold live_at, entry_at. cbn [with_table v_table_ v_index_remove].
    by rewrite list_lookup_insert_eq.
  - intros j Hj Hne. apply (live_at_other _ _ (v_extract_index h)); [lia|done..|].
    intros n Hn. by apply list_lookup_insert_ne.
Qed.

Lemma handle_at_points s k o :
  wf_store s -> 0 <= k -> live_at s k = Some o -> points s (handle_at s k) k o.
Proof.
  intros Hwf Hk Hl. pose proof (live_at_range s k o Hwf Hl Hk) as Hu.
  destruct (get_handle_at s k o Hwf Hk Hl) as [Hh Hg].
  pose proof Hl as (e & He & Hf & Ho)%live_at_inv.
  assert (Hv : is_u32 (v_version e)) by (by destruct Hwf as (_ & Hent & _); destruct (Hent _ _ He)).
  split.
  - unfold handle_at, entry_at. rewrite He.
    by apply extract_index_compose.
  - unfold v_get_object in Hg. destruct (lookup_handle s (handle_at s k)) as [e'|]; [eauto|done].
Qed.
