(* ===== verification/Token.v ===== *)
(** * The token: PINs, lockout, login, session accounting and the KEK

    [src/src/keystore/internal/token_core.h] and [.cpp], the facade
    [src/src/keystore/token.h] and [.cpp], and the conversions between a token
    and its snapshot in [src/src/persistence/token_serializer.cpp].

    The core keeps every PIN field twice, for the user and for the security
    officer; here a [PinRole] is one copy.  Each PIN operation runs under the
    mutex of its role, so it is one step.  A pointer argument is [None] when
    null and otherwise the bytes it points at; a core operation returns its
    code or the exception of [SecureBuffer::write], and the token afterwards. *)

From S2P Require Import Prelude Codec Types Snapshot SecureBuffer Objects ObjectStore.
Import LeBytes Snapshot HsmObj AttrStore.

Record PinRole : Type := mkRole {
  pin_ : SecureBuffer;
  pin_len_ : Z;
  pin_set_ : Z;
  login_required_ : Z;
  failed_attempts_ : Z;
  pin_locked_ : Z
}.

Inductive Role : Type := User | SO.

#[global] Instance Role_eq_dec : EqDecision Role.
Proof. solve_decision. Defined.

Record v_TokenCore_M1 : Type := mkCore {
  v_label_ : list byte;
  v_id_ : list byte;
  v_object_store_ : v_ObjectStore_M1;
  v_session_count_ : Z;
  v_rw_session_count_ : Z;
  v_token_initialized_ : Z;
  v_user_ : PinRole;
  v_so_ : PinRole;
  v_max_failed_attempts_ : Z;
  v_last_pin_op_at_ : Z
}.

(** [SecureBuffer v_user_pin_{256}]: one data page of zeroes. *)
Definition fresh_pin_buffer : SecureBuffer :=
  {| data_ := Some (replicate 4096 x00); size_ := 256; alloc_size_ := 12288 |}.

Definition new_role : PinRole := mkRole fresh_pin_buffer 0 CK_FALSE CK_TRUE 0 CK_FALSE.

Definition new_core (label id : list byte) (now : Z) : v_TokenCore_M1 :=
  mkCore label id new_store 0 0 CK_FALSE new_role new_role 5 now.

Definition role_of (t : v_TokenCore_M1) (r : Role) : PinRole :=
  match r with User => v_user_ t | SO => v_so_ t end.

Definition with_role (t : v_TokenCore_M1) (r : Role) (p : PinRole) : v_TokenCore_M1 :=
  mkCore (v_label_ t) (v_id_ t) (v_object_store_ t) (v_session_count_ t) (v_rw_session_count_ t)
    (v_token_initialized_ t)
    (match r with User => p | SO => v_user_ t end)
    (match r with User => v_so_ t | SO => p end)
    (v_max_failed_attempts_ t) (v_last_pin_op_at_ t).

Definition with_store (t : v_TokenCore_M1) (s : v_ObjectStore_M1) : v_TokenCore_M1 :=
  mkCore (v_label_ t) (v_id_ t) s (v_session_count_ t) (v_rw_session_count_ t)
    (v_token_initialized_ t) (v_user_ t) (v_so_ t) (v_max_failed_attempts_ t)
    (v_last_pin_op_at_ t).

Definition with_counts (t : v_TokenCore_M1) (n rw : Z) : v_TokenCore_M1 :=
  mkCore (v_label_ t) (v_id_ t) (v_object_store_ t) n rw (v_token_initialized_ t)
    (v_user_ t) (v_so_ t) (v_max_failed_attempts_ t) (v_last_pin_op_at_ t).

Definition v_touch_pin_op (now : Z) (t : v_TokenCore_M1) : v_TokenCore_M1 :=
  mkCore (v_label_ t) (v_id_ t) (v_object_store_ t) (v_session_count_ t) (v_rw_session_count_ t)
    (v_token_initialized_ t) (v_user_ t) (v_so_ t) (v_max_failed_attempts_ t) now.

(** The destructor: both PIN buffers are zeroed. *)
Definition destroy_core (t : v_TokenCore_M1) : SecureBuffer * SecureBuffer :=
  (SecureBuffer.wipe (pin_ (v_user_ t)), SecureBuffer.wipe (pin_ (v_so_ t))).

(** ** PIN comparison

    [for (i < capacity) diff |= stored_byte ^ candidate_byte], where a byte past
    the end of either PIN reads as zero. *)

Definition pin_byte (d : list byte) (n : Z) (i : nat) : Z :=
  if Z.of_nat i <? n then u8 (nth i d x00) else 0.

Fixpoint pin_diff (k i : nat) (stored : list byte) (stored_len : Z)
    (candidate : list byte) (candidate_len : Z) (diff : Z) : Z :=
  match k with
  | O => diff
  | S k =>
    let candidate_byte := pin_byte candidate candidate_len i in
    let stored_byte := pin_byte stored stored_len i in
    pin_diff k (S i) stored stored_len candidate candidate_len
      (Z.lor diff (Z.lxor stored_byte candidate_byte))
  end.

Definition v_secure_pin_equals (stored : SecureBuffer) (stored_len : Z)
    (candidate : option (list byte)) (candidate_len : Z) : bool :=
  let diff := if negb (stored_len =? candidate_len) then 1 else 0 in
  pin_diff (Z.to_nat (byte_size stored)) 0 (default [] (data_ stored)) stored_len
    (default [] candidate) candidate_len diff =? 0.

(** ** PIN operations of the core *)

(** The bodies shared by the user and the security officer variants. *)
Definition store_pin (r : PinRole) (b : SecureBuffer) (n set : Z) : PinRole :=
  mkRole b n set (login_required_ r) 0 CK_FALSE.

Definition initialize_pin (r : PinRole) (already : CK_RV) (pin : option (list byte)) (pinLen : Z)
    : res CK_RV * PinRole :=
  if pin_set_ r =? CK_TRUE then (Ok already, r)
  else if byte_size (pin_ r) <? pinLen then (Ok CKR_PIN_LEN_RANGE, r)
  else match write (pin_ r) 0 pin pinLen with
       | Throw e => (Throw e, r)
       | Ok b => (Ok CKR_OK, store_pin r b pinLen CK_TRUE)
       end.

Definition set_pin (r : PinRole) (not_initialized : CK_RV) (oldPin : option (list byte)) (oldLen : Z)
    (newPin : option (list byte)) (newLen : Z) : res CK_RV * PinRole :=
  if pin_set_ r =? CK_FALSE then (Ok not_initialized, r)
  else if negb (v_secure_pin_equals (pin_ r) (pin_len_ r) oldPin oldLen)
  then (Ok CKR_PIN_INCORRECT, r)
  else if byte_size (pin_ r) <? newLen then (Ok CKR_PIN_LEN_RANGE, r)
  else match write (pin_ r) 0 newPin newLen with
       | Throw e => (Throw e, r)
       | Ok b => (Ok CKR_OK, store_pin r b newLen (pin_set_ r))
       end.

Definition with_lockout (r : PinRole) (counter locked : Z) : PinRole :=
  mkRole (pin_ r) (pin_len_ r) (pin_set_ r) (login_required_ r) counter locked.

Definition v_verify_pin_with_lockout (r : PinRole) (candidate : option (list byte))
    (candidate_len : Z) (not_initialized_rv : CK_RV) (max_attempts : Z) : CK_RV * PinRole :=
  if pin_locked_ r =? CK_TRUE then (CKR_PIN_LOCKED, r)
  else if pin_set_ r =? CK_FALSE then (not_initialized_rv, r)
  else if negb (v_secure_pin_equals (pin_ r) (pin_len_ r) candidate candidate_len) then
    let n := u32 (failed_attempts_ r + 1) in
    if max_attempts <=? n then (CKR_PIN_LOCKED, with_lockout r n CK_TRUE)
    else (CKR_PIN_INCORRECT, with_lockout r n (pin_locked_ r))
  else (CKR_OK, with_lockout r 0 CK_FALSE).

Definition v_initialize_user_pin (now : Z) (t : v_TokenCore_M1) (pin : option (list byte))
    (pinLen : Z) : res CK_RV * v_TokenCore_M1 :=
  let t := v_touch_pin_op now t in
  let (rv, r) := initialize_pin (v_user_ t) CKR_USER_PIN_ALREADY_INITIALIZED pin pinLen in
  (rv, with_role t User r).

Definition v_initialize_so_pin (now : Z) (t : v_TokenCore_M1) (pin : option (list byte))
    (pinLen : Z) : res CK_RV * v_TokenCore_M1 :=
  let t := v_touch_pin_op now t in
  let (rv, r) := initialize_pin (v_so_ t) CKR_SO_PIN_ALREADY_INITIALIZED pin pinLen in
  (rv, with_role t SO r).

Definition v_set_user_pin (now : Z) (t : v_TokenCore_M1) (oldPin : option (list byte)) (oldLen : Z)
    (newPin : option (list byte)) (newLen : Z) : res CK_RV * v_TokenCore_M1 :=
  let t := v_touch_pin_op now t in
  let (rv, r) := set_pin (v_user_ t) CKR_USER_PIN_NOT_INITIALIZED oldPin oldLen newPin newLen in
  (rv, with_role t User r).

Definition v_set_so_pin (now : Z) (t : v_TokenCore_M1) (oldPin : option (list byte)) (oldLen : Z)
    (newPin : option (list byte)) (newLen : Z) : res CK_RV * v_TokenCore_M1 :=
  let t := v_touch_pin_op now t in
  let (rv, r) := set_pin (v_so_ t) CKR_SO_PIN_NOT_INITIALIZED oldPin oldLen newPin newLen in
  (rv, with_role t SO r).

Definition v_verify_user_pin (now : Z) (t : v_TokenCore_M1) (pin : option (list byte))
    (pinLen : Z) : CK_RV * v_TokenCore_M1 :=
  let t := v_touch_pin_op now t in
  let (rv, r) := v_verify_pin_with_lockout (v_user_ t) pin pinLen
                   CKR_USER_PIN_NOT_INITIALIZED (v_max_failed_attempts_ t) in
  (rv, with_role t User r).

Definition v_verify_so_pin (now : Z) (t : v_TokenCore_M1) (pin : option (list byte))
    (pinLen : Z) : CK_RV * v_TokenCore_M1 :=
  let t := v_touch_pin_op now t in
  let (rv, r) := v_verify_pin_with_lockout (v_so_ t) pin pinLen
                   CKR_SO_PIN_NOT_INITIALIZED (v_max_failed_attempts_ t) in
  (rv, with_role t SO r).

Definition v_change_user_pin := v_set_user_pin.
Definition v_change_so_pin := v_set_so_pin.

Definition v_login (now : Z) (t : v_TokenCore_M1) (userType : Z) (pin : option (list byte))
    (pinLen : Z) : CK_RV * v_TokenCore_M1 :=
  if userType =? CKU_USER then v_verify_user_pin now t pin pinLen
  else if userType =? CKU_SO then v_verify_so_pin now t pin pinLen
  else (CKR_USER_TYPE_INVALID, t).

Definition v_logout (userType : Z) : CK_RV :=
  if (userType =? CKU_USER) || (userType =? CKU_SO) then CKR_OK else CKR_USER_TYPE_INVALID.

Definition v_set_max_failed_attempts (t : v_TokenCore_M1) (max : Z) : v_TokenCore_M1 :=
  let relock r := if max <=? failed_attempts_ r
                  then with_lockout r (failed_attempts_ r) CK_TRUE else r in
  mkCore (v_label_ t) (v_id_ t) (v_object_store_ t) (v_session_count_ t) (v_rw_session_count_ t)
    (v_token_initialized_ t) (relock (v_user_ t)) (relock (v_so_ t)) max (v_last_pin_op_at_ t).

(** ** Session accounting *)

Definition v_get_max_session_count : Z := 1024.
Definition v_get_max_rw_session_count : Z := 1024.

Definition v_increment_session_count (t : v_TokenCore_M1) : v_TokenCore_M1 :=
  with_counts t (u64 (v_session_count_ t + 1)) (v_rw_session_count_ t).

Definition v_decrement_session_count (t : v_TokenCore_M1) : v_TokenCore_M1 :=
  if 0 <? v_session_count_ t
  then with_counts t (u64 (v_session_count_ t - 1)) (v_rw_session_count_ t) else t.

Definition v_increment_rw_session_count (t : v_TokenCore_M1) : v_TokenCore_M1 :=
  with_counts t (v_session_count_ t) (u64 (v_rw_session_count_ t + 1)).

Definition v_decrement_rw_session_count (t : v_TokenCore_M1) : v_TokenCore_M1 :=
  if 0 <? v_rw_session_count_ t
  then with_counts t (v_session_count_ t) (u64 (v_rw_session_count_ t - 1)) else t.

(** ** Objects of the token and the KEK *)

Definition token_create_object (t : v_TokenCore_M1) (o : HsmObject) : Z * v_TokenCore_M1 :=
  let (h, s) := v_create_object (v_object_store_ t) o in (h, with_store t s).

Definition token_get_object (t : v_TokenCore_M1) (h : Z) : option HsmObject :=
  v_get_object (v_object_store_ t) h.

Definition token_destroy_object (t : v_TokenCore_M1) (h : Z) : bool * v_TokenCore_M1 :=
  let (b, s) := v_destroy_object (v_object_store_ t) h in (b, with_store t s).

(** The size query, the resize, the read: [None] when either call fails. *)
Definition fetch_attribute (o : HsmObject) (type : Z) : option (list byte) :=
  let q := v_get_attribute o type true (Some 0) in
  if negb (rv q =? CKR_OK) then None
  else
    let n := default 0 (out_len q) in
    let r := v_get_attribute o type false (Some n) in
    if negb (rv r =? CKR_OK) then None else Some (written r).

Definition has_kek_label (o : HsmObject) : bool :=
  match fetch_attribute o CKA_LABEL with
  | Some l => bool_decide (l = bytes_of "KEK")
  | None => false
  end.

Definition is_kek (o : HsmObject) : bool :=
  if negb (has_kek_label o) then false
  else match fetch_attribute o CKA_CLASS with
       | None => false
       | Some c => if negb (len c =? 8) then false else le_value c =? CKO_SECRET_KEY
       end.

Definition v_get_kek (t : v_TokenCore_M1) : list byte :=
  match v_find_object_if (v_object_store_ t) is_kek with
  | (_, None) => []
  | (_, Some o) => match fetch_attribute o CKA_VALUE with Some k => k | None => [] end
  end.

Definition v_find_object_by_label_and_id (t : v_TokenCore_M1) (label id : list byte)
    : option HsmObject :=
  snd (v_find_object_if (v_object_store_ t) (fun o =>
    match fetch_attribute o CKA_LABEL, fetch_attribute o CKA_ID with
    | Some l, Some i => bool_decide (l = label) && bool_decide (i = id)
    | _, _ => false
    end)).

(** [obj->setAttribute(type, data, len)] with a valid pointer. *)
Definition set_attr (type : Z) (v : list byte) (o : HsmObject) : HsmObject :=
  match setAttribute o type (Some v) (len v) with Ok o' => o' | Throw _ => o end.

(** The object the restored KEK lives in. *)
Definition kek_shell : HsmObject := new_object SECRET_KEY false true false false.

Definition restore_kek (s : v_ObjectStore_M1) (kek : list byte) : v_ObjectStore_M1 :=
  let existing := v_find_object_if s has_kek_label in
  let s := match snd existing with
           | Some _ => snd (v_destroy_object s (fst existing))
           | None => s
           end in
  match kek with
  | [] => s
  | _ =>
    let (h, s) := v_create_object s kek_shell in
    let s := update_object s h (set_attr CKA_CLASS (ulong_bytes CKO_SECRET_KEY)) in
    let s := update_object s h (set_attr CKA_LABEL (bytes_of "KEK")) in
    update_object s h (set_attr CKA_VALUE kek)
  end.

Definition restore_role (r : PinRole) (set login_required failed locked : Z) : PinRole :=
  mkRole (pin_ r) (pin_len_ r) set login_required failed locked.

Definition v_restore_state (t : v_TokenCore_M1)
    (token_initialized user_pin_set so_pin_set user_login_required so_login_required
     max_failed_attempts user_failed_attempts so_failed_attempts user_pin_locked so_pin_locked : Z)
    (kek : list byte) : v_TokenCore_M1 :=
  mkCore (v_label_ t) (v_id_ t) (restore_kek (v_object_store_ t) kek)
    (v_session_count_ t) (v_rw_session_count_ t) token_initialized
    (restore_role (v_user_ t) user_pin_set user_login_required user_failed_attempts user_pin_locked)
    (restore_role (v_so_ t) so_pin_set so_login_required so_failed_attempts so_pin_locked)
    max_failed_attempts (v_last_pin_op_at_ t).

(** ** The facade [Token]

    A null pointer with a non-zero length is [CKR_ARGUMENTS_BAD]. *)

Definition null_with_length (p : option (list byte)) (n : Z) : bool :=
  bool_decide (p = None) && (0 <? n).

Definition initialize_user_pin (now : Z) (t : v_TokenCore_M1) (pin : option (list byte)) (pinLen : Z)
    : res CK_RV * v_TokenCore_M1 :=
  if null_with_length pin pinLen then (Ok CKR_ARGUMENTS_BAD, t)
  else v_initialize_user_pin now t pin pinLen.

Definition initialize_so_pin (now : Z) (t : v_TokenCore_M1) (pin : option (list byte)) (pinLen : Z)
    : res CK_RV * v_TokenCore_M1 :=
  if null_with_length pin pinLen then (Ok CKR_ARGUMENTS_BAD, t)
  else v_initialize_so_pin now t pin pinLen.

Definition set_user_pin (now : Z) (t : v_TokenCore_M1) (oldPin : option (list byte)) (oldLen : Z)
    (newPin : option (list byte)) (newLen : Z) : res CK_RV * v_TokenCore_M1 :=
  if null_with_length oldPin oldLen || null_with_length newPin newLen
  then (Ok CKR_ARGUMENTS_BAD, t)
  else v_set_user_pin now t oldPin oldLen newPin newLen.

Definition set_so_pin (now : Z) (t : v_TokenCore_M1) (oldPin : option (list byte)) (oldLen : Z)
    (newPin : option (list byte)) (newLen : Z) : res CK_RV * v_TokenCore_M1 :=
  if null_with_length oldPin oldLen || null_with_length newPin newLen
  then (Ok CKR_ARGUMENTS_BAD, t)
  else v_set_so_pin now t oldPin oldLen newPin newLen.

Definition verify_user_pin (now : Z) (t : v_TokenCore_M1) (pin : option (list byte)) (pinLen : Z)
    : CK_RV * v_TokenCore_M1 :=
  if null_with_length pin pinLen then (CKR_ARGUMENTS_BAD, t)
  else v_verify_user_pin now t pin pinLen.

Definition verify_so_pin (now : Z) (t : v_TokenCore_M1) (pin : option (list byte)) (pinLen : Z)
    : CK_RV * v_TokenCore_M1 :=
  if null_with_length pin pinLen then (CKR_ARGUMENTS_BAD, t)
  else v_verify_so_pin now t pin pinLen.

Definition change_user_pin (now : Z) (t : v_TokenCore_M1) (oldPin : option (list byte)) (oldLen : Z)
    (newPin : option (list byte)) (newLen : Z) : res CK_RV * v_TokenCore_M1 :=
  if null_with_length oldPin oldLen || null_with_length newPin newLen
  then (Ok CKR_ARGUMENTS_BAD, t)
  else v_change_user_pin now t oldPin oldLen newPin newLen.

Definition change_so_pin (now : Z) (t : v_TokenCore_M1) (oldPin : option (list byte)) (oldLen : Z)
    (newPin : option (list byte)) (newLen : Z) : res CK_RV * v_TokenCore_M1 :=
  if null_with_length oldPin oldLen || null_with_length newPin newLen
  then (Ok CKR_ARGUMENTS_BAD, t)
  else v_change_so_pin now t oldPin oldLen newPin newLen.

Definition login (now : Z) (t : v_TokenCore_M1) (userType : Z) (pin : option (list byte))
    (pinLen : Z) : CK_RV * v_TokenCore_M1 :=
  if null_with_length pin pinLen then (CKR_ARGUMENTS_BAD, t)
  else v_login now t userType pin pinLen.

Definition logout (userType : Z) : CK_RV := v_logout userType.

(** ** Snapshots of a token *)

Definition snapshot_from_token (t : v_TokenCore_M1) : TokenSnapshot :=
  {| label := v_label_ t; id := v_id_ t;
     max_session_count := v_get_max_session_count;
     session_count := v_session_count_ t;
     max_rw_session_count := v_get_max_rw_session_count;
     rw_session_count := v_rw_session_count_ t;
     token_initialized := v_token_initialized_ t;
     user_pin_set := pin_set_ (v_user_ t);
     so_pin_set := pin_set_ (v_so_ t);
     user_login_required := login_required_ (v_user_ t);
     so_login_required := login_required_ (v_so_ t);
     user_failed_attempts := failed_attempts_ (v_user_ t);
     so_failed_attempts := failed_attempts_ (v_so_ t);
     max_failed_attempts := v_max_failed_attempts_ t;
     user_pin_locked := pin_locked_ (v_user_ t);
     so_pin_locked := pin_locked_ (v_so_ t);
     kek := v_get_kek t |}.

Definition restore_token_from_snapshot (t : v_TokenCore_M1) (s : TokenSnapshot)
    : res v_TokenCore_M1 :=
  if (255 <? len (label s)) || (255 <? len (id s))
  then Throw (RuntimeError "restore_token_from_snapshot: label/id too long")
  else Ok (v_restore_state t (token_initialized s) (user_pin_set s) (so_pin_set s)
             (user_login_required s) (so_login_required s) (max_failed_attempts s)
             (user_failed_attempts s) (so_failed_attempts s) (user_pin_locked s)
             (so_pin_locked s) (kek s)).

(** ** The PIN comparison decides equality *)

Definition stored_pin (r : PinRole) : list byte :=
  take (Z.to_nat (pin_len_ r)) (default [] (data_ (pin_ r))).

(** A role as the core keeps it: a live 256-byte buffer, a PIN inside it,
    boolean flags and a 32-bit counter. *)
Definition wf_role (r : PinRole) : Prop :=
  wf (pin_ r) /\ size_ (pin_ r) = 256 /\ data_ (pin_ r) <> None /\ 0 <= pin_len_ r <= 256 /\
  is_bbool (pin_set_ r) = true /\ is_bbool (pin_locked_ r) = true /\ is_u32 (failed_attempts_ r).

Lemma pin_diff_zero k i s n c m d :
  pin_diff k i s n c m d = 0 <->
  d = 0 /\ forall j, (i <= j < i + k)%nat -> pin_byte s n j = pin_byte c m j.
Proof.
  revert i d. induction k as [|k IH]; intros i d; cbn [pin_diff].
  - split; [intros ->; split; [done|lia]|tauto].
  - rewrite IH, Z.lor_eq_0_iff, Z.lxor_eq_0_iff. split.
    + intros ([-> E] & H). split; [done|]. intros j Hj.
      destruct (Nat.eq_dec j i) as [->|]; [done|]. apply H. lia.
    + intros (-> & H). split; [split; [done|]|]; intros; apply H; lia.
Qed.

Lemma nth_lookup_u8 (d : list byte) (i : nat) :
  (i < length d)%nat -> d !! i = Some (nth i d x00).
Proof.
  intros H. destruct (lookup_lt_is_Some_2 d i H) as [x Hx].
  rewrite Hx. f_equal. symmetry. apply nth_lookup_Some with (d := x00) in Hx. done.
Qed.

Lemma pin_equals_iff r candidate :
  wf_role r ->
  v_secure_pin_equals (pin_ r) (pin_len_ r) (Some candidate) (len candidate) = true <->
  candidate = stored_pin r.
Proof.
  intros ([Hu Hwf] & Hsz & Hd & Hl & _). unfold v_secure_pin_equals, stored_pin, byte_size.
  destruct (data_ (pin_ r)) as [d|]; [|done]. rewrite Hsz in *.
  change (default [] (Some d)) with d. change (default [] (Some candidate)) with candidate.
  rewrite Z.eqb_eq, pin_diff_zero. unfold len, is_u64 in *.
  destruct (Z.eqb_spec (pin_len_ r) (Z.of_nat (length candidate))) as [E|E]; cbn [negb].
  - rewrite E, Nat2Z.id. split.
    + intros [_ H]. apply list_eq. intros i. destruct (Nat.lt_ge_cases i (length candidate)).
      * specialize (H i ltac:(lia)). unfold pin_byte in H.
        rewrite (proj2 (Z.ltb_lt _ _)) in H by lia. apply u8_inj in H.
        rewrite lookup_take_lt, !nth_lookup_u8 by lia. by rewrite H.
      * rewrite lookup_take_ge by done. by apply lookup_ge_None.
    + intros Hc. split; [done|]. intros j _. unfold pin_byte.
      destruct (Z.of_nat j <? Z.of_nat (length candidate)) eqn:Hj; [|done]. bool_to_prop. f_equal.
      assert (d !! j = candidate !! j) as E2.
      { rewrite Hc at 1. by rewrite lookup_take_lt by lia. }
      rewrite !nth_lookup_u8 in E2 by lia. congruence.
  - split; [intros [? _]; lia|]. intros ->. rewrite length_take in E. lia.
Qed.

(** A pointer argument with its length: [n] readable bytes, or null. *)
Definition wf_ptr (p : option (list byte)) (n : Z) : Prop :=
  is_u64 n /\ forall v, p = Some v -> len v = n.

Definition bytes_at (p : option (list byte)) : list byte := default [] p.

Lemma not_null_bytes p n : wf_ptr p n -> null_with_length p n = false -> n = len (bytes_at p).
Proof.
  intros [Hn Hp] H. unfold null_with_length in H. destruct p as [v|]; [symmetry; by apply Hp|].
  rewrite bool_decide_true in H by done. cbn [andb] in H. bool_to_prop.
  unfold is_u64 in Hn. change (len (bytes_at None)) with 0. lia.
Qed.

Lemma pin_equals_ptr r p n :
  wf_role r -> wf_ptr p n -> null_with_length p n = false ->
  v_secure_pin_equals (pin_ r) (pin_len_ r) p n = bool_decide (bytes_at p = stored_pin r).
Proof.
  intros Hr Hp Hn. rewrite (not_null_bytes _ _ Hp Hn).
  pose proof (pin_equals_iff r (bytes_at p) Hr) as H.
  assert (v_secure_pin_equals (pin_ r) (pin_len_ r) p (len (bytes_at p)) =
          v_secure_pin_equals (pin_ r) (pin_len_ r) (Some (bytes_at p)) (len (bytes_at p))) as ->
    by (by destruct p).
  destruct (v_secure_pin_equals _ _ _ _), (bool_decide_reflect (bytes_at p = stored_pin r));
    intuition congruence.
Qed.

(** ** Abstract specification of the PINs

    A role has an optional PIN, a count of failures and a lock. *)

Record APin : Type := mkAPin { a_pin : option (list byte); a_failed : Z; a_locked : bool }.

Definition abs_role (r : PinRole) : APin :=
  mkAPin (if pin_set_ r =? CK_FALSE then None else Some (stored_pin r))
    (failed_attempts_ r) (pin_locked_ r =? CK_TRUE).

Definition a_init (already : CK_RV) (a : APin) (new : list byte) : CK_RV * APin :=
  match a_pin a with
  | Some _ => (already, a)
  | None => if 256 <? len new then (CKR_PIN_LEN_RANGE, a) else (CKR_OK, mkAPin (Some new) 0 false)
  end.

Definition a_set (not_init : CK_RV) (a : APin) (old new : list byte) : CK_RV * APin :=
  match a_pin a with
  | None => (not_init, a)
  | Some p => if negb (bool_decide (old = p)) then (CKR_PIN_INCORRECT, a)
              else if 256 <? len new then (CKR_PIN_LEN_RANGE, a)
              else (CKR_OK, mkAPin (Some new) 0 false)
  end.

Definition a_verify (not_init : CK_RV) (max : Z) (a : APin) (c : list byte) : CK_RV * APin :=
  if a_locked a then (CKR_PIN_LOCKED, a)
  else match a_pin a with
  | None => (not_init, a)
  | Some p =>
    if bool_decide (c = p) then (CKR_OK, mkAPin (Some p) 0 false)
    else if max <=? a_failed a + 1 then (CKR_PIN_LOCKED, mkAPin (Some p) (a_failed a + 1) true)
    else (CKR_PIN_INCORRECT, mkAPin (Some p) (a_failed a + 1) false)
  end.

Lemma write_pin r p n :
  wf_role r -> wf_ptr p n -> null_with_length p n = false -> n <= 256 ->
  exists b, write (pin_ r) 0 p n = Ok b /\
    (forall set, is_bbool set = true -> wf_role (store_pin r b n set)) /\
    (forall set, stored_pin (store_pin r b n set) = bytes_at p).
Proof.
  intros (Hwf & Hsz & Hd & _) Hp Hn Hle. pose proof (not_null_bytes _ _ Hp Hn) as ->.
  destruct Hp as [Hu _]. set (s := bytes_at p) in *.
  destruct (write_ok (pin_ r) 0 s Hwf) as (b & Hw & Hwb & Hs & Hread & _);
    [unfold is_u64; lia|done..|lia|].
  exists b. split.
  { rewrite <- Hw. unfold write. destruct (len s =? 0) eqn:E; [done|]. by destruct p. }
  assert (Hdb : data_ b <> None).
  { unfold wf in Hwb. destruct (data_ b); [done|]. lia. }
  split; intros set.
  - intros Hset. unfold wf_role. cbn [pin_ pin_len_ pin_set_ pin_locked_ failed_attempts_ store_pin].
    split_and!; try done; try lia; unfold is_u64 in *; try lia.
  - unfold stored_pin. cbn [pin_ pin_len_ store_pin]. unfold read in Hread.
    destruct (len s =? 0) eqn:E.
    { bool_to_prop. rewrite E. injection Hread as <-. apply take_0. }
    rewrite (proj2 (bounds_test b 0 (len s) Hwb ltac:(unfold is_u64; lia) Hu)) in Hread by lia.
    destruct (data_ b) as [d|]; [|done]. injection Hread as H. exact H.
Qed.

Lemma u32_counter r : wf_role r -> failed_attempts_ r + 1 < 2 ^ 32 ->
  u32 (failed_attempts_ r + 1) = failed_attempts_ r + 1.
Proof. intros Hr H. apply u32_id. destruct Hr as (_ & _ & _ & _ & _ & _ & Hf). unfold is_u32 in *. lia. Qed.

Lemma bbool_cases b : is_bbool b = true -> b = 0 \/ b = 1.
Proof. unfold is_bbool. intros H. apply orb_true_iff in H as [H|H]; bool_to_prop; auto. Qed.

Lemma initialize_refines r already p n :
  wf_role r -> wf_ptr p n -> null_with_length p n = false ->
  let (rv, r') := initialize_pin r already p n in
  exists c, rv = Ok c /\ wf_role r' /\ a_init already (abs_role r) (bytes_at p) = (c, abs_role r').
Proof.
  intros Hr Hp Hn. unfold initialize_pin, a_init, abs_role, byte_size.
  pose proof Hr as (_ & Hsz & _ & _ & Hset & _). rewrite Hsz.
  rewrite <- (not_null_bytes _ _ Hp Hn).
  destruct (bbool_cases _ Hset) as [E|E]; rewrite E; cbn [Z.eqb CK_TRUE CK_FALSE a_pin].
  - destruct (256 <? n) eqn:El.
    + exists CKR_PIN_LEN_RANGE. split_and!; [done..|]. by rewrite E.
    + bool_to_prop. destruct (write_pin r p n Hr Hp Hn El) as (b & -> & Hwb & Hst).
      exists CKR_OK. split_and!; [done|by apply Hwb|]. by rewrite Hst.
  - exists already. split_and!; [done..|]. by rewrite E.
Qed.

Lemma set_refines r ni o on p n :
  wf_role r -> wf_ptr o on -> wf_ptr p n ->
  null_with_length o on = false -> null_with_length p n = false ->
  let (rv, r') := set_pin r ni o on p n in
  exists c, rv = Ok c /\ wf_role r' /\
    a_set ni (abs_role r) (bytes_at o) (bytes_at p) = (c, abs_role r').
Proof.
  intros Hr Ho Hp Hon Hn. unfold set_pin, a_set, byte_size. rewrite pin_equals_ptr by done.
  pose proof Hr as (_ & Hsz & _ & _ & Hset & _). rewrite Hsz.
  rewrite <- (not_null_bytes _ _ Hp Hn).
  destruct (pin_set_ r =? CK_FALSE) eqn:E; cbn [abs_role a_pin]; rewrite E; [eauto 6|].
  destruct (bool_decide (bytes_at o = stored_pin r)); cbn [negb]; [|eauto 6].
  destruct (256 <? n) eqn:El; [eauto 6|].
  bool_to_prop. destruct (write_pin r p n Hr Hp Hn El) as (b & -> & Hwb & Hst).
  exists CKR_OK. split_and!; [done|by apply Hwb|]. unfold abs_role.
  rewrite Hst. cbn [store_pin pin_set_ failed_attempts_ pin_locked_].
  by rewrite (proj2 (Z.eqb_neq _ _) E).
Qed.

Lemma verify_refines r ni max p n :
  wf_role r -> wf_ptr p n -> null_with_length p n = false -> failed_attempts_ r + 1 < 2 ^ 32 ->
  let (c, r') := v_verify_pin_with_lockout r p n ni max in
  wf_role r' /\ a_verify ni max (abs_role r) (bytes_at p) = (c, abs_role r').
Proof.
  intros Hr Hp Hn Hf. unfold v_verify_pin_with_lockout, a_verify.
  rewrite pin_equals_ptr, u32_counter by done.
  destruct (pin_locked_ r =? CK_TRUE) eqn:El; cbn [abs_role a_locked a_pin a_failed]; rewrite El;
    [done|].
  destruct (pin_set_ r =? CK_FALSE) eqn:Es; [done|].
  assert (Hw : forall c l, is_u32 c -> is_bbool l = true -> wf_role (with_lockout r c l)).
  { intros c l Hc Hl. destruct Hr as (? & ? & ? & ? & ? & _). unfold wf_role. done. }
  assert (Hu : is_u32 (failed_attempts_ r + 1))
    by (destruct Hr as (_ & _ & _ & _ & _ & _ & H); unfold is_u32 in *; lia).
  assert (Hl : is_bbool (pin_locked_ r) = true) by apply Hr.
  destruct (bool_decide (bytes_at p = stored_pin r)); cbn [negb];
    [|destruct (max <=? failed_attempts_ r + 1)];
    (split; [apply Hw; [try done; unfold is_u32; lia|done]|]);
    unfold abs_role, with_lockout, stored_pin; cbn [pin_set_ pin_ pin_len_ failed_attempts_ pin_locked_];
    rewrite Es, ?El; done.
Qed.

(** ** Sequences of PIN operations on a token *)

Inductive PinOp : Type :=
| OInit (r : Role) (pin : option (list byte)) (n : Z)
| OSet (r : Role) (old : option (list byte)) (on : Z) (new : option (list byte)) (n : Z)
| OLogin (r : Role) (pin : option (list byte)) (n : Z)
| OMax (max : Z).

Definition user_type (r : Role) : Z := match r with User => CKU_USER | SO => CKU_SO end.

(** The facade's entry point of each operation, at time [now]. *)
Definition pin_step (now : Z) (t : v_TokenCore_M1) (op : PinOp) : res CK_RV * v_TokenCore_M1 :=
  match op with
  | OInit User p n => initialize_user_pin now t p n
  | OInit SO p n => initialize_so_pin now t p n
  | OSet User o on p n => change_user_pin now t o on p n
  | OSet SO o on p n => change_so_pin now t o on p n
  | OLogin r p n => let (c, t) := login now t (user_type r) p n in (Ok c, t)
  | OMax m => (Ok CKR_OK, v_set_max_failed_attempts t m)
  end.

Definition wf_op (op : PinOp) : Prop :=
  match op with
  | OInit _ p n | OLogin _ p n => wf_ptr p n
  | OSet _ o on p n => wf_ptr o on /\ wf_ptr p n
  | OMax m => is_u32 m
  end.

(** An unlocked role has failed less often than the threshold. *)
Definition below_threshold (max : Z) (r : PinRole) : Prop :=
  pin_locked_ r = CK_TRUE \/ failed_attempts_ r < Z.max 1 max.

Definition wf_token (t : v_TokenCore_M1) : Prop :=
  is_u32 (v_max_failed_attempts_ t) /\
  forall r, wf_role (role_of t r) /\ below_threshold (v_max_failed_attempts_ t) (role_of t r).

Record ASpec : Type := mkASpec { a_role : Role -> APin; a_max : Z }.

Definition abs (t : v_TokenCore_M1) : ASpec :=
  mkASpec (fun r => abs_role (role_of t r)) (v_max_failed_attempts_ t).

Definition already_code (r : Role) : CK_RV :=
  match r with User => CKR_USER_PIN_ALREADY_INITIALIZED | SO => CKR_SO_PIN_ALREADY_INITIALIZED end.
Definition not_init_code (r : Role) : CK_RV :=
  match r with User => CKR_USER_PIN_NOT_INITIALIZED | SO => CKR_SO_PIN_NOT_INITIALIZED end.

(** What one operation answers and leaves for the role it names. *)
Definition spec_role (max : Z) (a : APin) (op : PinOp) : CK_RV * APin :=
  match op with
  | OInit r p n => if null_with_length p n then (CKR_ARGUMENTS_BAD, a)
                   else a_init (already_code r) a (bytes_at p)
  | OSet r o on p n => if null_with_length o on || null_with_length p n then (CKR_ARGUMENTS_BAD, a)
                       else a_set (not_init_code r) a (bytes_at o) (bytes_at p)
  | OLogin r p n => if null_with_length p n then (CKR_ARGUMENTS_BAD, a)
                    else a_verify (not_init_code r) max a (bytes_at p)
  | OMax m => (CKR_OK, mkAPin (a_pin a) (a_failed a) (a_locked a || (m <=? a_failed a)))
  end.

Definition concerns (op : PinOp) (r : Role) : bool :=
  match op with
  | OInit r' _ _ | OSet r' _ _ _ _ | OLogin r' _ _ => bool_decide (r = r')
  | OMax _ => true
  end.

Lemma role_of_with_role t r p r' :
  role_of (with_role t r p) r' = if bool_decide (r' = r) then p else role_of t r'.
Proof. by destruct r, r'. Qed.

(** How a step of the token relates to the role-level bodies. *)
Lemma pin_step_role now t op :
  match op with
  | OInit r p n =>
    if null_with_length p n then pin_step now t op = (Ok CKR_ARGUMENTS_BAD, t)
    else pin_step now t op =
         let (rv, x) := initialize_pin (role_of t r) (already_code r) p n in
         (rv, with_role (v_touch_pin_op now t) r x)
  | OSet r o on p n =>
    if null_with_length o on || null_with_length p n
    then pin_step now t op = (Ok CKR_ARGUMENTS_BAD, t)
    else pin_step now t op =
         let (rv, x) := set_pin (role_of t r) (not_init_code r) o on p n in
         (rv, with_role (v_touch_pin_op now t) r x)
  | OLogin r p n =>
    if null_with_length p n then pin_step now t op = (Ok CKR_ARGUMENTS_BAD, t)
    else pin_step now t op =
         let (c, x) := v_verify_pin_with_lockout (role_of t r) p n (not_init_code r)
                         (v_max_failed_attempts_ t) in
         (Ok c, with_role (v_touch_pin_op now t) r x)
  | OMax m => True
  end.
Proof.
  destruct op as [[] p n|[] o on p n|[] p n|m]; cbn [pin_step already_code not_init_code user_type];
    unfold initialize_user_pin, initialize_so_pin, change_user_pin, change_so_pin, login, v_login,
      v_change_user_pin, v_change_so_pin, v_initialize_user_pin, v_initialize_so_pin,
      v_set_user_pin, v_set_so_pin; try done;
    try (destruct (null_with_length o on)); try (destruct (null_with_length p n)); try done;
    cbn [orb Z.eqb Pos.eqb CKU_USER CKU_SO]; unfold v_verify_user_pin, v_verify_so_pin;
    cbn [v_touch_pin_op v_user_ v_so_ v_max_failed_attempts_ role_of]; by destruct (v_verify_pin_with_lockout _ _ _ _ _).
Qed.

Definition a_below (max : Z) (a : APin) : Prop := a_locked a = true \/ a_failed a < Z.max 1 max.

Lemma below_abs max r : wf_role r -> below_threshold max r <-> a_below max (abs_role r).
Proof.
  intros Hr. unfold below_threshold, a_below, abs_role. cbn [a_locked a_failed]. by rewrite Z.eqb_eq.
Qed.

Definition next_max (max : Z) (op : PinOp) : Z := match op with OMax m => m | _ => max end.

Lemma spec_below max a op :
  a_below max a -> a_below (next_max max op) (snd (spec_role max a op)).
Proof.
  intros Ha. unfold a_below in *.
  destruct op as [r p n|r o on p n|r p n|m]; cbn [spec_role next_max];
    [unfold a_init; split_ifs|unfold a_set; split_ifs|unfold a_verify; split_ifs|];
    cbn [snd a_locked a_failed]; bool_to_prop; try done; try (by left); try (right; lia).
  destruct (a_locked a) eqn:E; [by left|]. destruct (Z.leb_spec m (a_failed a)); [by left|].
  right. lia.
Qed.

Lemma below_counter max r :
  is_u32 max -> wf_role r -> pin_locked_ r <> CK_TRUE -> below_threshold max r ->
  failed_attempts_ r + 1 < 2 ^ 32 \/ failed_attempts_ r + 1 = 1.
Proof. unfold is_u32, below_threshold. intros Hm Hr Hl [H|H]; [done|]. lia. Qed.

Lemma verify_locked r p n ni max :
  pin_locked_ r = CK_TRUE -> v_verify_pin_with_lockout r p n ni max = (CKR_PIN_LOCKED, r).
Proof. intros H. unfold v_verify_pin_with_lockout. by rewrite H. Qed.

Lemma verify_refines_below r ni max p n :
  is_u32 max -> wf_role r -> below_threshold max r -> wf_ptr p n -> null_with_length p n = false ->
  let (c, r') := v_verify_pin_with_lockout r p n ni max in
  wf_role r' /\ a_verify ni max (abs_role r) (bytes_at p) = (c, abs_role r').
Proof.
  intros Hm Hr Hb Hp Hn. destruct (decide (pin_locked_ r = CK_TRUE)) as [E|E].
  - rewrite verify_locked by done. split; [done|]. unfold a_verify, abs_role. cbn [a_locked].
    by rewrite E.
  - apply verify_refines; [done..|]. destruct (below_counter max r) as [H|H]; [done..|lia].
Qed.

(** The role an operation names: the body refines the specification. *)
Lemma relock_refines max r :
  wf_role r ->
  let r' := if max <=? failed_attempts_ r
            then with_lockout r (failed_attempts_ r) CK_TRUE else r in
  wf_role r' /\
  mkAPin (a_pin (abs_role r)) (a_failed (abs_role r))
    (a_locked (abs_role r) || (max <=? a_failed (abs_role r))) = abs_role r'.
Proof.
  intros Hr. cbn [abs_role a_pin a_failed a_locked].
  destruct (max <=? failed_attempts_ r); cbv zeta.
  - split; [by destruct Hr as (? & ? & ? & ? & ? & _ & ?)|].
    rewrite orb_true_r. reflexivity.
  - rewrite orb_false_r. done.
Qed.

Record step_ok (t : v_TokenCore_M1) (op : PinOp) (c : CK_RV) (t' : v_TokenCore_M1) : Prop := {
  so_wf : wf_token t';
  so_max : a_max (abs t') = next_max (a_max (abs t)) op;
  so_role : forall r, if concerns op r
              then spec_role (a_max (abs t)) (a_role (abs t) r) op = (c, a_role (abs t') r)
              else role_of t' r = role_of t r;
  so_store : v_object_store_ t' = v_object_store_ t;
  so_counts : v_session_count_ t' = v_session_count_ t /\
              v_rw_session_count_ t' = v_rw_session_count_ t
}.

Lemma step_ok_role now t op r c x :
  wf_token t -> (forall r', concerns op r' = bool_decide (r' = r)) ->
  next_max (v_max_failed_attempts_ t) op = v_max_failed_attempts_ t ->
  wf_role x ->
  spec_role (v_max_failed_attempts_ t) (abs_role (role_of t r)) op = (c, abs_role x) ->
  step_ok t op c (with_role (v_touch_pin_op now t) r x).
Proof.
  intros [Hm Hwf] Hc Hmax Hx Hspec.
  assert (Hb : below_threshold (v_max_failed_attempts_ t) x).
  { apply below_abs; [done|]. pose proof (spec_below (v_max_failed_attempts_ t)
      (abs_role (role_of t r)) op) as H. rewrite Hspec, Hmax in H. apply H, below_abs; apply Hwf. }
  constructor; cbn [abs a_max a_role].
  - split; [by destruct r|]. intros r'. rewrite role_of_with_role.
    replace (v_max_failed_attempts_ (with_role (v_touch_pin_op now t) r x))
      with (v_max_failed_attempts_ t) by by destruct r.
    destruct (bool_decide (r' = r)); [done|]. destruct r'; [apply (Hwf User)|apply (Hwf SO)].
  - by destruct r.
  - intros r'. rewrite Hc, role_of_with_role.
    destruct (bool_decide_reflect (r' = r)) as [->|]; [done|by destruct r'].
  - by destruct r.
  - by destruct r.
Qed.

Lemma step_ok_same t op r c :
  wf_token t -> (forall r', concerns op r' = bool_decide (r' = r)) ->
  next_max (v_max_failed_attempts_ t) op = v_max_failed_attempts_ t ->
  spec_role (v_max_failed_attempts_ t) (abs_role (role_of t r)) op = (c, abs_role (role_of t r)) ->
  step_ok t op c t.
Proof.
  intros Hwf Hc Hmax Hspec. constructor; try done.
  intros r'. rewrite Hc. by destruct (bool_decide_reflect (r' = r)) as [->|].
Qed.

Lemma step_ok_max t m :
  wf_token t -> is_u32 m -> step_ok t (OMax m) CKR_OK (v_set_max_failed_attempts t m).
Proof.
  intros [Hm Hwf] Hop.
  assert (Hr : forall r, wf_role (role_of (v_set_max_failed_attempts t m) r) /\
    spec_role (a_max (abs t)) (a_role (abs t) r) (OMax m)
    = (CKR_OK, abs_role (role_of (v_set_max_failed_attempts t m) r))).
  { intros r. destruct (relock_refines m (role_of t r)) as [H1 H2]; [apply Hwf|].
    cbn [spec_role abs a_role]. rewrite H2. by destruct r. }
  constructor; try done; [|intros r; apply Hr].
  split; [done|]. intros r. destruct (Hr r) as [H1 H2]. split; [done|].
  apply below_abs; [done|]. pose proof (spec_below (a_max (abs t)) (a_role (abs t) r) (OMax m)) as H.
  rewrite H2 in H. apply H, below_abs; apply Hwf.
Qed.

Lemma pin_step_ok now t op :
  wf_token t -> wf_op op ->
  exists c t', pin_step now t op = (Ok c, t') /\ step_ok t op c t'.
Proof.
  intros Hwf Hop. pose proof (pin_step_role now t op) as Hstep. pose proof Hwf as [Hm Hr].
  destruct op as [r p n|r o on p n|r p n|m].
  - destruct (null_with_length p n) eqn:Hn; rewrite Hstep.
    + do 2 eexists. split; [done|]. apply (step_ok_same _ _ r); [done..|].
      cbn [spec_role]. by rewrite Hn.
    + pose proof (initialize_refines (role_of t r) (already_code r) p n (proj1 (Hr r)) Hop Hn) as H.
      destruct (initialize_pin _ _ _ _) as [rv x]. destruct H as (c & -> & Hx & Hs).
      do 2 eexists. split; [done|]. apply step_ok_role; [done..|]. cbn [spec_role]. by rewrite Hn.
  - destruct Hop as [Ho Hp].
    destruct (null_with_length o on || null_with_length p n) eqn:Hn; rewrite Hstep.
    + do 2 eexists. split; [done|]. apply (step_ok_same _ _ r); [done..|].
      cbn [spec_role]. by rewrite Hn.
    + pose proof Hn as [H1 H2]%orb_false_iff.
      pose proof (set_refines (role_of t r) (not_init_code r) o on p n (proj1 (Hr r)) Ho Hp H1 H2) as H.
      destruct (set_pin _ _ _ _ _ _) as [rv x]. destruct H as (c & -> & Hx & Hs).
      do 2 eexists. split; [done|]. apply step_ok_role; [done..|]. cbn [spec_role]. by rewrite Hn.
  - destruct (null_with_length p n) eqn:Hn; rewrite Hstep.
    + do 2 eexists. split; [done|]. apply (step_ok_same _ _ r); [done..|].
      cbn [spec_role]. by rewrite Hn.
    + pose proof (verify_refines_below (role_of t r) (not_init_code r) _ p n Hm
        (proj1 (Hr r)) (proj2 (Hr r)) Hop Hn) as H.
      destruct (v_verify_pin_with_lockout _ _ _ _ _) as [c x]. destruct H as (Hx & Hs).
      do 2 eexists. split; [done|]. apply step_ok_role; [done..|]. cbn [spec_role]. by rewrite Hn.
  - do 2 eexists. split; [done|]. by apply step_ok_max.
Qed.

Definition pin_run (now : Z) (t : v_TokenCore_M1) (ops : list PinOp) : v_TokenCore_M1 :=
  fold_left (fun t op => snd (pin_step now t op)) ops t.

(** A successful change of the PIN of [r] would need [p] as the old PIN. *)
Definition changes_from (r : Role) (p : list byte) (op : PinOp) : bool :=
  match op with
  | OSet r' o _ _ _ => bool_decide (r' = r) && bool_decide (bytes_at o = p)
  | _ => false
  end.

Lemma spec_locked max a p op r :
  a_locked a = true -> a_pin a = Some p -> concerns op r = true -> changes_from r p op = false ->
  let a' := snd (spec_role max a op) in a_locked a' = true /\ a_pin a' = Some p.
Proof.
  intros Hl Hp Hr Hc. destruct op as [r' q n|r' o on q n|r' q n|m]; cbn [spec_role].
  - unfold a_init. rewrite Hp. by destruct (null_with_length q n).
  - cbn [changes_from concerns] in *. bool_to_prop. subst r'. rewrite (bool_decide_true (r = r)) in Hc by done.
    cbn [andb] in Hc. unfold a_set. rewrite Hp, Hc. by destruct (_ || _).
  - unfold a_verify. rewrite Hl. by destruct (null_with_length q n).
  - cbn [snd a_locked a_pin]. by rewrite Hl.
Qed.

Lemma locked_step now t op r p :
  wf_token t -> wf_op op -> changes_from r p op = false ->
  a_locked (a_role (abs t) r) = true -> a_pin (a_role (abs t) r) = Some p ->
  let t' := snd (pin_step now t op) in
  wf_token t' /\ a_locked (a_role (abs t') r) = true /\ a_pin (a_role (abs t') r) = Some p.
Proof.
  intros Hwf Hop Hc Hl Hp. destruct (pin_step_ok now t op Hwf Hop) as (c & t' & -> & H).
  cbn [snd]. split; [apply H|]. pose proof (so_role _ _ _ _ H r) as Hr.
  destruct (concerns op r) eqn:E.
  - pose proof (spec_locked (a_max (abs t)) _ p op r Hl Hp E Hc) as Hs. by rewrite Hr in Hs.
  - cbn [abs a_role] in *. by rewrite Hr.
Qed.

Lemma locked_run now ops t r p :
  wf_token t -> Forall wf_op ops -> Forall (fun op => changes_from r p op = false) ops ->
  a_locked (a_role (abs t) r) = true -> a_pin (a_role (abs t) r) = Some p ->
  let t' := pin_run now t ops in
  wf_token t' /\ a_locked (a_role (abs t') r) = true /\ a_pin (a_role (abs t') r) = Some p.
Proof.
  revert t. induction ops as [|op ops IH]; intros t Hwf Hops Hch Hl Hp; [done|].
  apply list.Forall_cons in Hops as [Ho Hops], Hch as [Hc Hch].
  destruct (locked_step now t op r p) as (? & ? & ?); [done..|]. by apply (IH (snd (pin_step now t op))).
Qed.

Lemma login_spec now t r c :
  wf_token t -> is_u64 (len c) ->
  exists t', login now t (user_type r) (Some c) (len c) =
    (fst (a_verify (not_init_code r) (v_max_failed_attempts_ t) (abs_role (role_of t r)) c), t') /\
    wf_token t' /\ v_max_failed_attempts_ t' = v_max_failed_attempts_ t /\
    abs_role (role_of t' r) =
      snd (a_verify (not_init_code r) (v_max_failed_attempts_ t) (abs_role (role_of t r)) c).
Proof.
  intros Hwf Hc. assert (Hop : wf_op (OLogin r (Some c) (len c))).
  { split; [done|]. by intros v [= ->]. }
  destruct (pin_step_ok now t _ Hwf Hop) as (rv & t' & Hs & [Hwf' Hmax Hrole _ _]).
  cbn [pin_step] in Hs. destruct (login now t _ _ _) as [x y]. injection Hs as -> ->.
  exists t'. specialize (Hrole r). cbn [concerns] in Hrole. rewrite bool_decide_true in Hrole by done.
  cbn [spec_role abs a_role a_max next_max] in *. change (bytes_at (Some c)) with c in Hrole.
  unfold null_with_length in Hrole. rewrite bool_decide_false in Hrole by done. cbn [andb] in Hrole.
  by rewrite Hrole.
Qed.

(** The codes a run of login attempts on one role answers, and the token after. *)
Fixpoint logins (now : Z) (t : v_TokenCore_M1) (r : Role) (guesses : list (list byte))
    : list CK_RV * v_TokenCore_M1 :=
  match guesses with
  | [] => ([], t)
  | g :: gs =>
    let (c, t) := login now t (user_type r) (Some g) (len g) in
    let (cs, t) := logins now t r gs in
    (c :: cs, t)
  end.

Lemma logins_locked now gs t r p :
  wf_token t -> Forall (fun g => is_u64 (len g)) gs ->
  a_locked (abs_role (role_of t r)) = true -> a_pin (abs_role (role_of t r)) = Some p ->
  fst (logins now t r gs) = replicate (length gs) CKR_PIN_LOCKED /\
  wf_token (snd (logins now t r gs)) /\
  a_locked (abs_role (role_of (snd (logins now t r gs)) r)) = true /\
  a_pin (abs_role (role_of (snd (logins now t r gs)) r)) = Some p.
Proof.
  revert t. induction gs as [|g gs IH]; intros t Hwf Hgs Hl Hp; [done|].
  apply list.Forall_cons in Hgs as [Hg Hgs]. cbn [logins].
  destruct (login_spec now t r g Hwf Hg) as (t' & -> & Hwf' & Hm & Habs).
  unfold a_verify in *. rewrite Hl in *. cbn [fst snd] in *.
  destruct (IH t') as (H1 & H2 & H3 & H4); [done..|by rewrite Habs|by rewrite Habs|].
  destruct (logins now t' r gs) as [cs t2]. cbn [fst snd] in *. split_and!; [|done..].
  cbn [length replicate]. by rewrite H1.
Qed.

(** The answer to the [k]-th wrong guess in a row (from 0). *)
Definition guess_code (max failed : Z) (k : nat) : CK_RV :=
  if failed + Z.of_nat k + 1 <? max then CKR_PIN_INCORRECT else CKR_PIN_LOCKED.

Lemma logins_wrong now gs t r p f :
  wf_token t -> Forall (fun g => is_u64 (len g)) gs -> Forall (fun g => g <> p) gs ->
  abs_role (role_of t r) = mkAPin (Some p) f false ->
  fst (logins now t r gs) = map (guess_code (v_max_failed_attempts_ t) f) (seq 0 (length gs)) /\
  (gs <> [] -> v_max_failed_attempts_ t <= f + len gs ->
   wf_token (snd (logins now t r gs)) /\
   a_locked (abs_role (role_of (snd (logins now t r gs)) r)) = true /\
   a_pin (abs_role (role_of (snd (logins now t r gs)) r)) = Some p).
Proof.
  revert t f. induction gs as [|g gs IH]; intros t f Hwf Hgs Hne Habs; [done|].
  apply list.Forall_cons in Hgs as [Hg Hgs], Hne as [Hn Hne]. cbn [logins length seq map].
  destruct (login_spec now t r g Hwf Hg) as (t' & -> & Hwf' & Hm & Habs').
  rewrite Habs in *. unfold a_verify in *. cbn [a_locked a_pin a_failed] in *.
  rewrite bool_decide_false in * by done. unfold guess_code at 1. rewrite Z.add_0_r.
  rewrite <- (seq_shift (length gs) 0), map_map.
  destruct (Z.leb_spec (v_max_failed_attempts_ t) (f + 1)) as [Hle|Hlt]; cbn [fst snd] in *.
  - destruct (logins_locked now gs t' r p) as (H1 & H2 & H3 & H4);
      [done..|by rewrite Habs'|by rewrite Habs'|].
    destruct (logins now t' r gs) as [cs t2]. cbn [fst snd] in *.
    rewrite (proj2 (Z.ltb_ge _ _)) by lia. split; [|done]. f_equal. rewrite H1.
    rewrite (map_all_eq _ CKR_PIN_LOCKED), length_seq; [done|]. intros k.
    unfold guess_code. by rewrite (proj2 (Z.ltb_ge _ _)) by lia.
  - destruct (IH t' (f + 1)) as (H1 & H2); [done..|].
    destruct (logins now t' r gs) as [cs t2]. cbn [fst snd] in *.
    rewrite (proj2 (Z.ltb_lt _ _)) by lia. split.
    + f_equal. rewrite H1, Hm. apply map_ext. intros k. unfold guess_code.
      by replace (f + Z.of_nat (S k) + 1) with (f + 1 + Z.of_nat k + 1) by lia.
    + intros _ Hle. rewrite len_cons in Hle. apply H2; [|rewrite Hm; lia].
      intros ->. rewrite len_nil in Hle. lia.
Qed.

(** *** Properties of the PINs *)

(** The operations for which the lock of [token.h] is kept: a change of the PIN is made
    with the PIN, of a role that is not locked.  [change_user_pin] and [change_so_pin]
    do not count other attempts and do not look at the lock ([change_pin_guesses_uncounted]). *)
Definition keeps_lock (t : v_TokenCore_M1) (op : PinOp) : Prop :=
  match op with
  | OSet r o _ _ _ => a_locked (a_role (abs t) r) = false /\ a_pin (a_role (abs t) r) = Some (bytes_at o)
  | _ => True
  end.

(** C3: Setting the first PIN, logging in, setting the threshold, and changing the PIN
    of a role that is not locked with the PIN it has, implement the abstract PIN machine
    on every branch: for valid pointers no exception escapes, the code returned and
    the new PIN, failure count and lock of the role are those of the
    specification (byte equality of the whole PIN, counters that never wrap),
    the other role, the objects and the session counts are untouched, and the
    token stays well formed, an unlocked role below its threshold. *)
Theorem pin_operations_refine (now : Z) (t : v_TokenCore_M1) (op : PinOp)
    (Hwf : wf_token t) (Hop : wf_op op) (Hlock : keeps_lock t op) :
  exists c t', pin_step now t op = (Ok c, t') /\ wf_token t' /\
    a_max (abs t') = next_max (a_max (abs t)) op /\
    (forall r, if concerns op r
       then spec_role (a_max (abs t)) (a_role (abs t) r) op = (c, a_role (abs t') r)
       else role_of t' r = role_of t r) /\
    v_object_store_ t' = v_object_store_ t /\
    v_session_count_ t' = v_session_count_ t /\ v_rw_session_count_ t' = v_rw_session_count_ t.
Proof.
  destruct (pin_step_ok now t op Hwf Hop) as (c & t' & Hs & [? ? ? ? ?]).
  exists c, t'. done.
Qed.

Lemma new_core_wf l i now : wf_token (new_core l i now).
Proof.
  split; [by vm_compute|]. intros r. split.
  - destruct r; (split; [vm_compute; split; [intuition congruence|discriminate]|]);
      vm_compute; intuition congruence.
  - right. destruct r; vm_compute; reflexivity.
Qed.

(** A token whose user PIN is "1234", at the default threshold of 5. *)
Definition sample_token : v_TokenCore_M1 :=
  snd (initialize_user_pin 0 (new_core [] [] 0) (Some (bytes_of "1234")) 4).

Lemma wf_ptr_some v : is_u64 (len v) -> wf_ptr (Some v) (len v).
Proof. intros H. split; [done|]. by intros ? [= ->]. Qed.

Lemma sample_token_wf : wf_token sample_token.
Proof.
  destruct (pin_step_ok 0 (new_core [] [] 0) (OInit User (Some (bytes_of "1234")) 4))
    as (c & t' & Hs & H); [apply new_core_wf|by apply wf_ptr_some|].
  unfold sample_token. cbn [pin_step] in Hs. rewrite Hs. apply H.
Qed.

Lemma pin_operations_refine_witness :
  exists c t', pin_step 7 sample_token (OLogin User (Some (bytes_of "12345")) 5) = (Ok c, t') /\
    wf_token t' /\ a_max (abs t') = 5 /\
    (forall r, if concerns (OLogin User (Some (bytes_of "12345")) 5) r
       then spec_role 5 (a_role (abs sample_token) r) (OLogin User (Some (bytes_of "12345")) 5)
            = (c, a_role (abs t') r)
       else role_of t' r = role_of sample_token r) /\
    v_object_store_ t' = v_object_store_ sample_token /\
    v_session_count_ t' = 0 /\ v_rw_session_count_ t' = 0.
Proof.
  apply (pin_operations_refine 7 sample_token (OLogin User (Some (bytes_of "12345")) 5)).
  - apply sample_token_wf.
  - by apply (wf_ptr_some (bytes_of "12345")).
  - exact I.
Defined.

(** C2: Brute force is bounded: from [failed] failures, the wrong guesses of a
    run of logins are answered [CKR_PIN_INCORRECT] until the threshold and
    [CKR_PIN_LOCKED] from there on, and once the threshold is reached even the
    right PIN is answered [CKR_PIN_LOCKED]. *)
Theorem lockout_bounds_guessing (now : Z) (t : v_TokenCore_M1) (r : Role) (p : list byte)
    (failed : Z) (guesses : list (list byte))
    (Hwf : wf_token t) (Hopen : abs_role (role_of t r) = mkAPin (Some p) failed false)
    (Hlen : Forall (fun g => is_u64 (len g)) (p :: guesses))
    (Hwrong : Forall (fun g => g <> p) guesses) :
  let (codes, t') := logins now t r guesses in
  codes = map (guess_code (v_max_failed_attempts_ t) failed) (seq 0 (length guesses)) /\
  (guesses <> [] -> v_max_failed_attempts_ t <= failed + len guesses ->
   fst (login now t' (user_type r) (Some p) (len p)) = CKR_PIN_LOCKED).
Proof.
  apply list.Forall_cons in Hlen as [Hp Hlen].
  destruct (logins_wrong now guesses t r p failed Hwf Hlen Hwrong Hopen) as [H1 H2].
  destruct (logins now t r guesses) as [codes t']. cbn [fst snd] in *. split; [done|].
  intros Hne Hle. destruct (H2 Hne Hle) as (Hwf' & Hl & _).
  destruct (login_spec now t' r p Hwf' Hp) as (t2 & -> & _). cbn [fst]. unfold a_verify.
  by rewrite Hl.
Qed.

Lemma lockout_bounds_guessing_witness :
  let guesses := replicate 6 (bytes_of "0000") in
  let (codes, t') := logins 0 sample_token User guesses in
  codes = [CKR_PIN_INCORRECT; CKR_PIN_INCORRECT; CKR_PIN_INCORRECT; CKR_PIN_INCORRECT;
           CKR_PIN_LOCKED; CKR_PIN_LOCKED] /\
  (guesses <> [] -> 5 <= 0 + len guesses ->
   fst (login 0 t' (user_type User) (Some (bytes_of "1234")) 4) = CKR_PIN_LOCKED).
Proof.
  apply (lockout_bounds_guessing 0 sample_token User (bytes_of "1234") 0 (replicate 6 (bytes_of "0000"))).
  - apply sample_token_wf.
  - vm_compute. reflexivity.
  - by repeat constructor.
  - by repeat constructor.
Defined.

(** A locked PIN stays locked through any sequence of operations on the
    token, logins with the right PIN, re-initialisation and a raised threshold
    included, as long as no PIN change presents the current PIN as the old one;
    every login meanwhile is answered [CKR_PIN_LOCKED]. *)
Theorem locked_until_changed (now : Z) (t : v_TokenCore_M1) (r : Role) (p c : list byte)
    (ops : list PinOp) (Hwf : wf_token t) (Hops : Forall wf_op ops) (Hlen : is_u64 (len c))
    (Hlocked : a_locked (a_role (abs t) r) = true) (Hpin : a_pin (a_role (abs t) r) = Some p)
    (Hno : Forall (fun op => changes_from r p op = false) ops) :
  let t' := pin_run now t ops in
  pin_locked_ (role_of t' r) = CK_TRUE /\ stored_pin (role_of t' r) = p /\
  fst (login now t' (user_type r) (Some c) (len c)) = CKR_PIN_LOCKED.
Proof.
  destruct (locked_run now ops t r p) as (H1 & H2 & H3); [done..|].
  intros t'. fold t' in H1, H2, H3. cbn [abs a_role abs_role a_locked a_pin] in H2, H3.
  split_and!; [by apply Z.eqb_eq in H2| |].
  - destruct (pin_set_ (role_of t' r) =? CK_FALSE); congruence.
  - destruct (login_spec now t' r c H1 Hlen) as (t2 & -> & _). cbn [fst]. unfold a_verify.
    cbn [abs_role a_locked]. by rewrite H2.
Qed.

Definition locked_token : v_TokenCore_M1 :=
  snd (pin_step 0 sample_token (OMax 0)).

Lemma locked_until_changed_witness :
  let ops := [OMax 9; OLogin User (Some (bytes_of "1234")) 4; OInit User (Some (bytes_of "9")) 1;
              OSet User (Some (bytes_of "1")) 1 (Some (bytes_of "2")) 1] in
  let t' := pin_run 0 locked_token ops in
  pin_locked_ (role_of t' User) = CK_TRUE /\ stored_pin (role_of t' User) = bytes_of "1234" /\
  fst (login 0 t' (user_type User) (Some (bytes_of "1234")) 4) = CKR_PIN_LOCKED.
Proof.
  apply (locked_until_changed 0 locked_token User (bytes_of "1234") (bytes_of "1234")
    [OMax 9; OLogin User (Some (bytes_of "1234")) 4; OInit User (Some (bytes_of "9")) 1;
     OSet User (Some (bytes_of "1")) 1 (Some (bytes_of "2")) 1]).
  - destruct (pin_step_ok 0 sample_token (OMax 0)) as (x & t' & Hs & H);
      [apply sample_token_wf|by vm_compute|].
    unfold locked_token. rewrite Hs. apply H.
  - repeat constructor; try (by vm_compute); try by intros ? [= <-].
  - by vm_compute.
  - by vm_compute.
  - by vm_compute.
  - by repeat constructor.
Defined.

(** Guessing through the PIN change is neither counted nor locked out: a
    hundred wrong old PINs leave the counter at zero. *)
Lemma change_pin_guesses_uncounted :
  let t' := pin_run 0 sample_token
    (replicate 100 (OSet User (Some (bytes_of "0000")) 4 (Some (bytes_of "0000")) 4)) in
  failed_attempts_ (v_user_ t') = 0 /\ pin_locked_ (v_user_ t') = CK_FALSE.
Proof. vm_compute. split; reflexivity. Qed.

(** ** The KEK across a restore *)

Lemma set_attr_attrs t v o : attrs_ (set_attr t v o) = <[t := v]> (attrs_ o).
Proof.
  unfold set_attr, setAttribute. rewrite (bool_decide_false (Some v = None)), andb_false_r by done.
  destruct (len v =? 0) eqn:E; cbn [attrs_ with_attrs].
  - bool_to_prop. destruct v; [done|]. rewrite len_cons in E. pose proof (len_nonneg v). lia.
  - rewrite take_ge; [done|]. unfold len. lia.
Qed.

Lemma set_attr_frame t v o :
  type_ (set_attr t v o) = type_ o /\ sensitive_ (set_attr t v o) = sensitive_ o.
Proof.
  unfold set_attr. destruct (setAttribute o t (Some v) (len v)) eqn:E; [|done].
  by apply setAttribute_frame in E as [? ->].
Qed.

Lemma fetch_known o t v : attribute_value o t = Known v -> fetch_attribute o t = Some v.
Proof.
  intros E. unfold fetch_attribute, v_get_attribute. rewrite E. cbn [rv out_len default].
  change (default 0 (Some (len v))) with (len v). by rewrite Z.ltb_irrefl.
Qed.

(** The object a restore leaves. *)
Definition kek_object (kek : list byte) : HsmObject :=
  set_attr CKA_VALUE kek (set_attr CKA_LABEL (bytes_of "KEK")
    (set_attr CKA_CLASS (ulong_bytes CKO_SECRET_KEY) kek_shell)).

Lemma kek_object_value kek : fetch_attribute (kek_object kek) CKA_VALUE = Some kek.
Proof.
  apply fetch_known. unfold attribute_value. cbn [Z.eqb Pos.eqb CKA_VALUE CKA_CLASS CKA_TOKEN
    CKA_PRIVATE CKA_SENSITIVE CKA_EXTRACTABLE CKA_ID].
  unfold kek_object, findAttribute. rewrite !(proj2 (set_attr_frame _ _ _)). cbn [kek_shell new_object sensitive_].
  by rewrite set_attr_attrs, lookup_insert_eq.
Qed.

Lemma kek_object_is_kek kek : has_kek_label (kek_object kek) = true /\ is_kek (kek_object kek) = true.
Proof.
  assert (Hl : has_kek_label (kek_object kek) = true).
  { unfold has_kek_label. rewrite (fetch_known _ _ (bytes_of "KEK")); [by apply bool_decide_eq_true|].
    unfold attribute_value. cbn [Z.eqb Pos.eqb CKA_LABEL CKA_VALUE CKA_CLASS CKA_TOKEN
      CKA_PRIVATE CKA_SENSITIVE CKA_EXTRACTABLE CKA_ID]. unfold kek_object, findAttribute.
    by rewrite !set_attr_attrs, lookup_insert_ne, lookup_insert_eq. }
  split; [done|]. unfold is_kek. rewrite Hl. cbn [negb].
  rewrite (fetch_known _ _ (ulong_bytes CKO_SECRET_KEY)); [done|].
  unfold attribute_value, kek_object. cbn [Z.eqb CKA_CLASS].
  by rewrite !(proj1 (set_attr_frame _ _ _)).
Qed.

Lemma is_kek_label o : is_kek o = true -> has_kek_label o = true.
Proof. unfold is_kek. by destruct (has_kek_label o). Qed.

Definition cleared (s : v_ObjectStore_M1) : v_ObjectStore_M1 :=
  match v_find_object_if s has_kek_label with
  | (h, Some _) => snd (v_destroy_object s h)
  | (_, None) => s
  end.

(** After the old KEK is gone there is room for the new one, and the slot it
    will take comes before every other object labelled "KEK". *)
Lemma cleared_spec s :
  wf_store s -> has_room s ->
  wf_store (cleared s) /\ has_room (cleared s) /\
  (forall j o, 0 <= j -> live_at s j = Some o -> has_kek_label o = false ->
     live_at (cleared s) j = Some o) /\
  (forall j o, 0 <= j -> live_at (cleared s) j = Some o -> has_kek_label o = true ->
     v_free_head_ (cleared s) <> UINT32_MAX /\ v_free_head_ (cleared s) < j).
Proof.
  intros Hwf Hroom. unfold cleared. pose proof (find_if_spec s has_kek_label) as H.
  destruct (v_find_object_if s has_kek_label) as [h [o|]].
  2:{ destruct H as [_ H]. split_and!; [done..|]. intros j o Hj Hl Hk.
      by rewrite (H j o Hj Hl) in Hk. }
  destruct H as (k & -> & Hk & Hl & Hp & Hall).
  pose proof (live_at_range s k o Hwf Hl Hk) as Hu.
  pose proof (handle_at_points s k o Hwf Hk Hl) as Hpt.
  destruct (get_handle_at s k o Hwf Hk Hl) as [Hh _].
  destruct (destroy_points s _ k o Hpt) as (_ & Hhead & Hnone & Hframe).
  pose proof (destroy_get s _ Hwf Hh) as Hd.
  destruct (v_destroy_object s (handle_at s k)) as [b s1]. cbn [fst snd] in *. destruct Hd as [Hwf1 _].
  assert (Hmax : k <> UINT32_MAX).
  { pose proof Hl as (e & He & _)%live_at_inv. apply lookup_lt_Some in He.
    destruct Hwf as (Hlen & _). unfold len in Hlen. lia. }
  assert (Hsame : forall j o', 0 <= j -> live_at s1 j = Some o' -> j <> k /\ live_at s j = Some o').
  { intros j o' Hj Hl'. destruct (Z.eq_dec j k) as [->|Hne]; [congruence|].
    by rewrite Hframe in Hl'. }
  split_and!; [done|left; congruence| |].
  { intros j o' Hj Hl' Hnk. rewrite Hframe; [done..|]. intros ->. congruence. }
  intros j o' Hj Hl' Hkek. rewrite Hhead. split; [done|]. destruct (Hsame j o' Hj Hl') as [Hne Hs].
  destruct (Z.lt_ge_cases j k) as [Hlt|]; [|lia]. 
  assert (has_kek_label o' = false) by (apply (Hall j); [lia|done]). congruence.
Qed.

Lemma restore_kek_eq s kek :
  kek <> [] ->
  restore_kek s kek =
  let (h, s1) := v_create_object (cleared s) kek_shell in
  update_object (update_object (update_object s1 h
    (set_attr CKA_CLASS (ulong_bytes CKO_SECRET_KEY))) h
    (set_attr CKA_LABEL (bytes_of "KEK"))) h (set_attr CKA_VALUE kek).
Proof.
  intros Hne. unfold restore_kek, cleared. destruct kek; [done|].
  by destruct (v_find_object_if s has_kek_label) as [h [o|]].
Qed.

Lemma restore_kek_spec s kek :
  wf_store s -> has_room s -> kek <> [] ->
  exists k, 0 <= k /\ wf_store (restore_kek s kek) /\
    live_at (restore_kek s kek) k = Some (kek_object kek) /\
    (forall j, 0 <= j -> j <> k -> live_at (restore_kek s kek) j = live_at (cleared s) j) /\
    live_at (cleared s) k = None /\
    (v_free_head_ (cleared s) <> UINT32_MAX -> k = v_free_head_ (cleared s)).
Proof.
  intros Hwf Hroom Hne. destruct (cleared_spec s Hwf Hroom) as (Hwf1 & Hroom1 & _).
  rewrite restore_kek_eq by done.
  destruct (create_points (cleared s) kek_shell Hwf1 Hroom1) as (k & Hpt & Hk & Hnone & Hhead & Hfr).
  pose proof (create_get (cleared s) kek_shell Hwf1 Hroom1) as Hc.
  destruct (v_create_object (cleared s) kek_shell) as [h s1]. cbn [fst snd] in *.
  destruct Hc as (Hw & Hh & _). exists k.
  pose proof (update_get s1 h (set_attr CKA_CLASS (ulong_bytes CKO_SECRET_KEY)) Hw Hh) as [Hw1 _].
  destruct (update_points _ _ _ _ (set_attr CKA_CLASS (ulong_bytes CKO_SECRET_KEY)) Hpt) as [Hp1 Hf1].
  pose proof (update_get _ h (set_attr CKA_LABEL (bytes_of "KEK")) Hw1 Hh) as [Hw2 _].
  destruct (update_points _ _ _ _ (set_attr CKA_LABEL (bytes_of "KEK")) Hp1) as [Hp2 Hf2].
  pose proof (update_get _ h (set_attr CKA_VALUE kek) Hw2 Hh) as [Hw3 _].
  destruct (update_points _ _ _ _ (set_attr CKA_VALUE kek) Hp2) as [Hp3 Hf3].
  split_and!; try done; [by eapply points_live|].
  intros j Hj Hjk. by rewrite Hf3, Hf2, Hf1, Hfr.
Qed.

Lemma restored_get_kek t s t' :
  wf_store (v_object_store_ t) -> has_room (v_object_store_ t) -> kek s <> [] ->
  restore_token_from_snapshot t s = Ok t' -> v_get_kek t' = kek s.
Proof.
  intros Hwf Hroom Hne H. unfold restore_token_from_snapshot in H.
  destruct (_ || _); [discriminate|]. injection H as <-.
  unfold v_get_kek, v_restore_state. cbn [v_object_store_].
  destruct (cleared_spec _ Hwf Hroom) as (_ & _ & _ & Hlater).
  destruct (restore_kek_spec _ (kek s) Hwf Hroom Hne) as (k & Hk & _ & Hl & Hother & _ & Hhead).
  rewrite (find_if_first _ is_kek k (kek_object (kek s))); [by rewrite kek_object_value|done..| |].
  - apply kek_object_is_kek.
  - intros j o' Hj Hjk Hlj Hp. rewrite Hother in Hlj by done.
    destruct (Hlater j o' Hj Hlj (is_kek_label _ Hp)) as [H1 H2]. by rewrite Hhead.
Qed.

(** The snapshot a restore must reproduce: the durable fields of [s], the
    identity and the session counts of the token it went into. *)
Definition installed (t : v_TokenCore_M1) (s : TokenSnapshot) : TokenSnapshot :=
  {| label := v_label_ t; id := v_id_ t;
     max_session_count := v_get_max_session_count; session_count := v_session_count_ t;
     max_rw_session_count := v_get_max_rw_session_count; rw_session_count := v_rw_session_count_ t;
     token_initialized := token_initialized s; user_pin_set := user_pin_set s;
     so_pin_set := so_pin_set s; user_login_required := user_login_required s;
     so_login_required := so_login_required s; max_failed_attempts := max_failed_attempts s;
     user_failed_attempts := user_failed_attempts s; so_failed_attempts := so_failed_attempts s;
     user_pin_locked := user_pin_locked s; so_pin_locked := so_pin_locked s; kek := kek s |}.

Lemma snapshot_restored t t' s :
  wf_store (v_object_store_ t) -> has_room (v_object_store_ t) -> kek s <> [] ->
  restore_token_from_snapshot t s = Ok t' -> snapshot_from_token t' = installed t s.
Proof.
  intros Hwf Hroom Hkek Hres. pose proof (restored_get_kek t s t' Hwf Hroom Hkek Hres) as Hk.
  unfold restore_token_from_snapshot in Hres. destruct (_ || _); [discriminate|].
  injection Hres as Ht. unfold snapshot_from_token. rewrite Hk. subst t'. reflexivity.
Qed.

(** A snapshot restored into a token is the snapshot the token then gives:
    every durable field and the KEK come back, whatever KEK-labelled objects the
    token held before (the restored key wins), the store stays well formed and
    every object not labelled "KEK" keeps its slot. *)
Theorem restore_snapshot_roundtrip (t t' : v_TokenCore_M1) (s : TokenSnapshot)
    (Hwf : wf_store (v_object_store_ t)) (Hroom : has_room (v_object_store_ t))
    (Hkek : kek s <> []) (Hres : restore_token_from_snapshot t s = Ok t') :
  snapshot_from_token t' = installed t s /\
  wf_store (v_object_store_ t') /\
  (forall j o, 0 <= j -> live_at (v_object_store_ t) j = Some o -> has_kek_label o = false ->
     live_at (v_object_store_ t') j = Some o).
Proof.
  split; [by apply snapshot_restored|].
  unfold restore_token_from_snapshot in Hres. destruct (_ || _); [discriminate|].
  injection Hres as <-. cbn [v_restore_state v_object_store_].
  destruct (cleared_spec _ Hwf Hroom) as (_ & _ & Hkeep & _).
  destruct (restore_kek_spec _ (kek s) Hwf Hroom Hkek) as (k & _ & Hw & _ & Hother & Hnone & _).
  split; [done|]. intros j o Hj Hl Hn. specialize (Hkeep j o Hj Hl Hn).
  rewrite Hother; [done..|]. intros ->. congruence.
Qed.

(** A token with two KEK-labelled objects and one other. *)
Definition crowded_token : v_TokenCore_M1 :=
  let t := snd (token_create_object (new_core [] [] 0) kek_shell) in
  let t := snd (token_create_object t (kek_object (bytes_of "old"))) in
  snd (token_create_object t (kek_object (bytes_of "older"))).

Definition sample_snapshot : TokenSnapshot :=
  mkSnapshot (bytes_of "tok") (bytes_of "1") 1024 3 1024 2 1 1 1 1 1 5 2 0 0 0 (bytes_of "new").

Lemma crowded_token_wf : wf_store (v_object_store_ crowded_token).
Proof.
  assert (H : forall s o, wf_store s -> len (v_table_ s) < UINT32_MAX ->
    wf_store (snd (v_create_object s o))).
  { intros s o Hwf Hr. pose proof (create_get s o Hwf (room_from_len s Hr)).
    destruct (v_create_object s o). apply H. }
  apply (H (snd (v_create_object (snd (v_create_object new_store kek_shell))
    (kek_object (bytes_of "old")))) (kek_object (bytes_of "older"))); [|by vm_compute].
  apply H; [|by vm_compute]. apply H; [apply new_store_wf|by vm_compute].
Qed.

Lemma restore_snapshot_roundtrip_witness :
  exists t', restore_token_from_snapshot crowded_token sample_snapshot = Ok t' /\
  snapshot_from_token t' = installed crowded_token sample_snapshot /\
  wf_store (v_object_store_ t') /\
  (forall j o, 0 <= j -> live_at (v_object_store_ crowded_token) j = Some o ->
     has_kek_label o = false -> live_at (v_object_store_ t') j = Some o).
Proof.
  eexists. split; [reflexivity|].
  apply (restore_snapshot_roundtrip crowded_token _ sample_snapshot).
  - apply crowded_token_wf.
  - apply room_from_len. by vm_compute.
  - discriminate.
  - reflexivity.
Defined.

(** The snapshot holds no PIN: a token restored in a new process reports its
    user PIN as set, refuses the PIN that was set and accepts the empty one. *)
Lemma restored_token_accepts_empty_pin :
  let s := snapshot_from_token sample_token in
  match restore_token_from_snapshot (new_core [] [] 0) s with
  | Ok t =>
    pin_set_ (v_user_ t) = CK_TRUE /\
    fst (login 0 t CKU_USER (Some (bytes_of "1234")) 4) = CKR_PIN_INCORRECT /\
    fst (login 0 t CKU_USER None 0) = CKR_OK
  | Throw _ => False
  end.
Proof. vm_compute. repeat split; reflexivity. Qed.

(** The restored KEK is not reindexed: a search by its label misses it. *)
Lemma restored_kek_missed_by_label :
  let s := restore_kek new_store (bytes_of "new") in
  v_find_all_by_attributes s {[ CKA_LABEL := bytes_of "KEK" ]} = [] /\
  snd (v_find_object_if s is_kek) = Some (kek_object (bytes_of "new")).
Proof. vm_compute. split; reflexivity. Qed.
