(* ===== verification/Session.v ===== *)
(** * Sessions, the session registry, slots and login throttling

    - [Sess]: [src/src/session/session.h] and [.cpp], the login state machine,
      the multi-part operation state and the search cursor of one session;
    - [SessMgr]: [src/src/session/internal/session_manager_core.cpp] and the
      facade [session_manager.cpp], the registry of live sessions;
    - [Slots]: [src/src/keystore/slot.cpp] and
      [src/src/session/internal/slot_manager_core.cpp];
    - [Throttle], [FindCtx], [SignCtx]: [login_throttle.cpp],
      [find_context.cpp] and [sign_context.cpp] of [src/src/session].

    Each method holds the mutex of its object, so it is one step.  The
    application pointer and the notification callback of a session are stored
    and never read by this code; they are left out. *)

From S2P Require Import Prelude Codec Types Objects ObjectStore Token.

Module Sess.

(** The fields of an operation in progress. *)
Record OpState : Type := mkOp {
  activeMech_ : Z;
  signKey_ : Z;
  opBuf_ : list byte;
  gcmIv_ : list byte;
  gcmAad_ : list byte;
  oaepMgf1_ : list byte;
  oaepLabel_ : list byte
}.

Definition no_op : OpState := mkOp 0 0 [] [] [] [] [].

(** The fields of a search. *)
Record FindState : Type := mkFind {
  findHandles_ : list Z;
  findPos_ : Z;
  findActive_ : bool
}.

Record Session : Type := mkSession {
  handle_ : Z;
  slotID_ : Z;
  flags_ : Z;
  state_ : Z;
  userType_ : Z;
  objectStore_ : v_ObjectStore_M1;
  operationInitialized_ : bool;
  currentOperationMechanism_ : Z;
  op_ : OpState;
  find_ : FindState
}.

Definition is_rw (flags : Z) : bool := has_flag flags CKF_RW_SESSION.

Definition new_session (handle slotID flags : Z) : Session :=
  {| handle_ := handle; slotID_ := slotID; flags_ := flags;
     state_ := if is_rw flags then CKS_RW_PUBLIC_SESSION else CKS_RO_PUBLIC_SESSION;
     userType_ := CKU_INVALID; objectStore_ := new_store; operationInitialized_ := false;
     currentOperationMechanism_ := 0; op_ := no_op; find_ := mkFind [] 0 false |}.

Definition with_login (s : Session) (st ut : Z) : Session :=
  mkSession (handle_ s) (slotID_ s) (flags_ s) st ut (objectStore_ s) (operationInitialized_ s)
    (currentOperationMechanism_ s) (op_ s) (find_ s).
Definition with_init (s : Session) (b : bool) (m : Z) : Session :=
  mkSession (handle_ s) (slotID_ s) (flags_ s) (state_ s) (userType_ s) (objectStore_ s) b m
    (op_ s) (find_ s).
Definition with_op (s : Session) (o : OpState) : Session :=
  mkSession (handle_ s) (slotID_ s) (flags_ s) (state_ s) (userType_ s) (objectStore_ s)
    (operationInitialized_ s) (currentOperationMechanism_ s) o (find_ s).
Definition with_find (s : Session) (f : FindState) : Session :=
  mkSession (handle_ s) (slotID_ s) (flags_ s) (state_ s) (userType_ s) (objectStore_ s)
    (operationInitialized_ s) (currentOperationMechanism_ s) (op_ s) f.
Definition with_objects (s : Session) (st : v_ObjectStore_M1) : Session :=
  mkSession (handle_ s) (slotID_ s) (flags_ s) (state_ s) (userType_ s) st
    (operationInitialized_ s) (currentOperationMechanism_ s) (op_ s) (find_ s).

(** ** Login state *)

Definition logged_in (st : Z) : bool :=
  (st =? CKS_RW_USER_FUNCTIONS) || (st =? CKS_RW_SO_FUNCTIONS) ||
  (st =? CKS_RO_USER_FUNCTIONS) || (st =? CKS_RO_SO_FUNCTIONS).

(** The PIN argument is ignored: the token has checked it. *)
Definition login (s : Session) (userType : Z) : CK_RV * Session :=
  if logged_in (state_ s) then (CKR_USER_ALREADY_LOGGED_IN, s)
  else if negb (userType =? CKU_USER) && negb (userType =? CKU_SO) then (CKR_USER_TYPE_INVALID, s)
  else
    let rw := is_rw (flags_ s) in
    let st := if userType =? CKU_SO
              then (if rw then CKS_RW_SO_FUNCTIONS else CKS_RO_SO_FUNCTIONS)
              else (if rw then CKS_RW_USER_FUNCTIONS else CKS_RO_USER_FUNCTIONS) in
    (CKR_OK, with_login s st userType).

Definition logout (s : Session) : CK_RV * Session :=
  if (state_ s =? CKS_RO_PUBLIC_SESSION) || (state_ s =? CKS_RW_PUBLIC_SESSION)
  then (CKR_USER_NOT_LOGGED_IN, s)
  else
    let s := with_login s (if is_rw (flags_ s) then CKS_RW_PUBLIC_SESSION
                           else CKS_RO_PUBLIC_SESSION) CKU_INVALID in
    let s := if operationInitialized_ s then with_init s false 0 else s in
    let s := with_op s no_op in
    (CKR_OK, with_find s (mkFind [] 0 (findActive_ (find_ s)))).

(** ** Operations *)

Definition initializeOperation (s : Session) (mechanism : Z) : CK_RV * Session :=
  if negb (logged_in (state_ s)) then (CKR_USER_NOT_LOGGED_IN, s)
  else if operationInitialized_ s then (CKR_OPERATION_ACTIVE, s)
  else (CKR_OK, with_init s true mechanism).

Definition finalizeOperation (s : Session) : CK_RV * Session :=
  if negb (operationInitialized_ s) then (CKR_OPERATION_NOT_INITIALIZED, s)
  else (CKR_OK, with_op (with_init s false 0) no_op).

Definition opBegin (s : Session) (mech key : Z) : CK_RV * Session :=
  if operationInitialized_ s && negb (activeMech_ (op_ s) =? 0) then (CKR_OPERATION_ACTIVE, s)
  else
    let o := op_ s in
    (CKR_OK, with_op s (mkOp mech key [] (gcmIv_ o) (gcmAad_ o) (oaepMgf1_ o) (oaepLabel_ o))).

Definition opCheck (s : Session) : CK_RV :=
  if activeMech_ (op_ s) =? 0 then CKR_OPERATION_NOT_INITIALIZED else CKR_OK.

Definition opEnd (s : Session) : Session := with_op s no_op.

Definition with_buf (s : Session) (b : list byte) : Session :=
  let o := op_ s in
  with_op s (mkOp (activeMech_ o) (signKey_ o) b (gcmIv_ o) (gcmAad_ o) (oaepMgf1_ o)
               (oaepLabel_ o)).

(** [data] is [None] when null, else the [len] bytes at it. *)
Definition opUpdate (s : Session) (data : option (list byte)) (len_ : Z) : Session :=
  match data with
  | None => s
  | Some d => if len_ =? 0 then s
              else with_buf s (opBuf_ (op_ s) ++ take (Z.to_nat len_) d)
  end.

Definition opBuffer (s : Session) : list byte := opBuf_ (op_ s).

Definition opTakeBuffer (s : Session) : list byte * Session := (opBuf_ (op_ s), with_buf s []).

Definition opClear (s : Session) : Session := with_buf s [].

Definition setGcmParams (s : Session) (iv aad : list byte) : Session :=
  let o := op_ s in
  with_op s (mkOp (activeMech_ o) (signKey_ o) (opBuf_ o) iv aad (oaepMgf1_ o) (oaepLabel_ o)).

Definition setOaepParams (s : Session) (mgf1 label : list byte) : Session :=
  let o := op_ s in
  with_op s (mkOp (activeMech_ o) (signKey_ o) (opBuf_ o) (gcmIv_ o) (gcmAad_ o) mgf1 label).

(** ** Searches *)

Definition setFindResults (s : Session) (handles : list Z) : Session :=
  with_find s (mkFind handles 0 true).

Definition hasFindResults (s : Session) : bool :=
  findPos_ (find_ s) <? len (findHandles_ (find_ s)).

Definition setFindActive (s : Session) (b : bool) : Session :=
  with_find s (mkFind (findHandles_ (find_ s)) (findPos_ (find_ s)) b).

(** [while (findPos_ < size && n < maxCount)]: the handles written to [out] and
    the position after.  Each round advances [findPos_], so the number of
    handles left bounds the rounds. *)
Fixpoint batch_loop (fuel : nat) (handles : list Z) (pos n maxCount : Z) : list Z * Z :=
  match fuel with
  | O => ([], pos)
  | S fuel =>
    if (pos <? len handles) && (n <? maxCount) then
      let (out, pos') := batch_loop fuel handles (pos + 1) (n + 1) maxCount in
      (nth (Z.to_nat pos) handles 0 :: out, pos')
    else ([], pos)
  end.

Definition findNextBatch (s : Session) (maxCount : Z) : list Z * Session :=
  let f := find_ s in
  let (out, pos) := batch_loop (length (findHandles_ f)) (findHandles_ f) (findPos_ f) 0 maxCount in
  (out, with_find s (mkFind (findHandles_ f) pos (findActive_ f))).

Definition clearFindResults (s : Session) : Session := with_find s (mkFind [] 0 false).

Definition allHandles (s : Session) : list Z := v_all_handles (objectStore_ s).

(** [CK_SESSION_INFO]. *)
Record SessionInfo : Type := mkInfo { i_slotID : Z; i_state : Z; i_flags : Z; i_ulDeviceError : Z }.

Definition getSessionInfo (s : Session) : SessionInfo :=
  mkInfo (slotID_ s) (state_ s) (flags_ s) 0.

(** *** The session state machine *)

(** Who is logged in. *)
Inductive Auth : Type := Public | LoggedIn (r : Role).

(** The [CK_STATE] and the user type that stand for it. *)
Definition state_of (flags : Z) (a : Auth) : Z :=
  match a with
  | Public => if is_rw flags then CKS_RW_PUBLIC_SESSION else CKS_RO_PUBLIC_SESSION
  | LoggedIn User => if is_rw flags then CKS_RW_USER_FUNCTIONS else CKS_RO_USER_FUNCTIONS
  | LoggedIn SO => if is_rw flags then CKS_RW_SO_FUNCTIONS else CKS_RO_SO_FUNCTIONS
  end.

Definition type_of (a : Auth) : Z := match a with Public => CKU_INVALID | LoggedIn r => user_type r end.

Definition in_state (s : Session) (a : Auth) : Prop :=
  state_ s = state_of (flags_ s) a /\ userType_ s = type_of a.

Inductive SessOp : Type :=
| SLogin (ut : Z) | SLogout | SInit (m : Z) | SFinal | SBegin (m k : Z) | SEnd
| SUpdate (d : option (list byte)) (n : Z) | STake | SClear
| SGcm (iv aad : list byte) | SOaep (mgf1 label : list byte)
| SSetFind (h : list Z) | SNext (n : Z) | SClearFind.

Definition sess_step (s : Session) (op : SessOp) : Session :=
  match op with
  | SLogin ut => snd (login s ut)
  | SLogout => snd (logout s)
  | SInit m => snd (initializeOperation s m)
  | SFinal => snd (finalizeOperation s)
  | SBegin m k => snd (opBegin s m k)
  | SEnd => opEnd s
  | SUpdate d n => opUpdate s d n
  | STake => snd (opTakeBuffer s)
  | SClear => opClear s
  | SGcm iv aad => setGcmParams s iv aad
  | SOaep m l => setOaepParams s m l
  | SSetFind h => setFindResults s h
  | SNext n => snd (findNextBatch s n)
  | SClearFind => clearFindResults s
  end.

(** The transitions of the login state. *)
Definition next_auth (a : Auth) (op : SessOp) : Auth :=
  match op, a with
  | SLogin ut, Public => if ut =? CKU_USER then LoggedIn User
                         else if ut =? CKU_SO then LoggedIn SO else Public
  | SLogout, LoggedIn _ => Public
  | _, _ => a
  end.

Lemma logged_in_state flags a :
  logged_in (state_of flags a) = match a with Public => false | LoggedIn _ => true end.
Proof. unfold state_of. destruct a as [|[]], (is_rw flags); reflexivity. Qed.

Lemma public_state flags a :
  (state_of flags a =? CKS_RO_PUBLIC_SESSION) || (state_of flags a =? CKS_RW_PUBLIC_SESSION)
  = match a with Public => true | LoggedIn _ => false end.
Proof. unfold state_of. destruct a as [|[]], (is_rw flags); reflexivity. Qed.

Lemma sess_login_spec s a ut :
  in_state s a ->
  (fst (login s ut) = match a with
     | LoggedIn _ => CKR_USER_ALREADY_LOGGED_IN
     | Public => if (ut =? CKU_USER) || (ut =? CKU_SO) then CKR_OK else CKR_USER_TYPE_INVALID
     end) /\ in_state (snd (login s ut)) (next_auth a (SLogin ut)).
Proof.
  intros [H1 H2]. unfold login. rewrite H1, logged_in_state. destruct a as [|r]; [|done].
  cbn [next_auth]. destruct (Z.eqb_spec ut CKU_USER) as [->|N1]; [done|].
  destruct (Z.eqb_spec ut CKU_SO) as [->|N2]; done.
Qed.

Lemma logout_spec s a :
  in_state s a ->
  (fst (logout s) = match a with Public => CKR_USER_NOT_LOGGED_IN | LoggedIn _ => CKR_OK end) /\
  in_state (snd (logout s)) Public.
Proof.
  intros [H1 H2]. unfold logout. rewrite H1, public_state. destruct a as [|r]; [done|].
  by destruct (operationInitialized_ _).
Qed.

Lemma step_in_state s a op : in_state s a -> in_state (sess_step s op) (next_auth a op).
Proof.
  intros H. destruct op; cbn [sess_step next_auth].
  - by apply sess_login_spec.
  - destruct (logout_spec s a H) as [_ H']. by destruct a.
  - unfold initializeOperation. split_ifs; apply H.
  - unfold finalizeOperation. split_ifs; apply H.
  - unfold opBegin. split_ifs; apply H.
  - apply H.
  - unfold opUpdate. split_ifs; apply H.
  - apply H.
  - apply H.
  - apply H.
  - apply H.
  - apply H.
  - unfold findNextBatch. destruct (batch_loop _ _ _ _ _). apply H.
  - apply H.
Qed.

Lemma run_in_state ops s a :
  in_state s a -> in_state (fold_left sess_step ops s) (fold_left next_auth ops a).
Proof.
  revert s a. induction ops as [|op ops IH]; intros s a H; [done|]. cbn [fold_left].
  by apply IH, step_in_state.
Qed.

(** From its creation on, whatever sequence of calls a session sees, its
    [CK_STATE] and user type are those of the login state machine (public, user
    or security officer, read-only or read-write by the session's flags): a
    login moves only out of public, a logout only back to it, and every other
    call leaves it; the return codes of login, logout and operation
    initialisation follow that state. *)
Theorem session_login_machine (handle slotID flags : Z) (ops : list SessOp) :
  let s := fold_left sess_step ops (new_session handle slotID flags) in
  let a := fold_left next_auth ops Public in
  in_state s a /\
  fst (logout s) = match a with Public => CKR_USER_NOT_LOGGED_IN | LoggedIn _ => CKR_OK end /\
  (forall ut, fst (login s ut) = match a with
     | LoggedIn _ => CKR_USER_ALREADY_LOGGED_IN
     | Public => if (ut =? CKU_USER) || (ut =? CKU_SO) then CKR_OK else CKR_USER_TYPE_INVALID
     end) /\
  (forall m, fst (initializeOperation s m) = match a with
     | Public => CKR_USER_NOT_LOGGED_IN
     | LoggedIn _ => if operationInitialized_ s then CKR_OPERATION_ACTIVE else CKR_OK
     end).
Proof.
  intros s a. assert (H : in_state s a) by (by apply run_in_state).
  split_and!; [apply H..|by apply logout_spec|intros ut; by apply sess_login_spec|].
  intros m. unfold initializeOperation. destruct H as [-> _]. rewrite logged_in_state.
  destruct a; cbn [negb]; [done|]. by destruct (operationInitialized_ s).
Qed.

(** A logout leaves nothing of the operation in progress: no key, no
    mechanism, no buffered data, no parameters, no search results, and further
    operations need a new login. *)
Theorem logout_clears_operation (s s' : Session) (r : Role)
    (Hin : in_state s (LoggedIn r)) (Hl : logout s = (CKR_OK, s')) :
  op_ s' = no_op /\ operationInitialized_ s' = false /\ opCheck s' = CKR_OPERATION_NOT_INITIALIZED /\
  hasFindResults s' = false /\ objectStore_ s' = objectStore_ s /\
  (forall m, fst (initializeOperation s' m) = CKR_USER_NOT_LOGGED_IN).
Proof.
  pose proof (logout_spec s _ Hin) as [_ Hp]. rewrite Hl in Hp. cbn [snd] in Hp.
  destruct Hin as [H1 H2]. unfold logout in Hl. rewrite H1, public_state in Hl.
  cbn [with_login operationInitialized_] in Hl. split_and!.
  1-5: destruct (operationInitialized_ s) eqn:E; injection Hl as <-; done.
  intros m. unfold initializeOperation. destruct Hp as [-> _]. by rewrite logged_in_state.
Qed.

Lemma logout_clears_operation_witness :
  let s := fold_left sess_step [SLogin CKU_USER; SInit 9; SBegin 9 5; SUpdate (Some [x01]) 1;
                                SSetFind [1; 2]] (new_session 1 0 CKF_RW_SESSION) in
  let s' := snd (logout s) in
  op_ s' = no_op /\ operationInitialized_ s' = false /\ opCheck s' = CKR_OPERATION_NOT_INITIALIZED /\
  hasFindResults s' = false /\ objectStore_ s' = objectStore_ s /\
  (forall m, fst (initializeOperation s' m) = CKR_USER_NOT_LOGGED_IN).
Proof.
  intros s s'. apply (logout_clears_operation s s' User); [|reflexivity].
  split; reflexivity.
Defined.

(** A search that was active stays marked active: the next one is refused. *)
Lemma logout_keeps_find_active :
  let s := fold_left sess_step [SLogin CKU_USER; SSetFind [1; 2]; SLogout]
             (new_session 1 0 CKF_RW_SESSION) in
  findActive_ (find_ s) = true.
Proof. reflexivity. Qed.

(** An operation begun with [opBegin] alone is replaced without an error by the
    next one. *)
Lemma opBegin_overwrites :
  let s := snd (opBegin (new_session 1 0 CKF_RW_SESSION) 7 1) in
  let s := opUpdate s (Some [x01; x02]) 2 in
  opCheck s = CKR_OK /\ fst (opBegin s 8 2) = CKR_OK /\ opBuffer (snd (opBegin s 8 2)) = [].
Proof. repeat split. Qed.

(** *** Search batches *)

Lemma batch_loop_spec fuel h pos n max :
  0 <= pos -> 0 <= n -> (length h - Z.to_nat pos <= fuel)%nat ->
  batch_loop fuel h pos n max =
    (take (Z.to_nat (max - n)) (drop (Z.to_nat pos) h),
     pos + len (take (Z.to_nat (max - n)) (drop (Z.to_nat pos) h))).
Proof.
  revert pos n. induction fuel as [|fuel IH]; intros pos n Hp Hn Hf; cbn [batch_loop].
  - rewrite drop_ge by lia. rewrite take_nil, len_nil. f_equal. lia.
  - destruct ((pos <? len h) && (n <? max)) eqn:E.
    + bool_to_prop. unfold len in H. rewrite IH by lia.
      replace (Z.to_nat (pos + 1)) with (S (Z.to_nat pos)) by lia.
      destruct (lookup_lt_is_Some_2 h (Z.to_nat pos) ltac:(lia)) as [x Hx].
      rewrite (drop_S h x _ Hx). replace (Z.to_nat (max - n)) with (S (Z.to_nat (max - (n + 1)))) by lia.
      rewrite firstn_cons, len_cons. rewrite (nth_lookup_Some h _ 0 x Hx). f_equal. lia.
    + apply andb_false_iff in E as [E|E]; bool_to_prop.
      * rewrite drop_ge by (unfold len in E; lia). rewrite take_nil, len_nil. f_equal. lia.
      * replace (Z.to_nat (max - n)) with 0%nat by lia. rewrite take_0, len_nil. f_equal. lia.
Qed.

(** The batches a client gets with the given sizes, in order. *)
Fixpoint batches (s : Session) (sizes : list Z) : list (list Z) * Session :=
  match sizes with
  | [] => ([], s)
  | n :: sizes => let (out, s) := findNextBatch s n in
                  let (outs, s) := batches s sizes in (out :: outs, s)
  end.

Lemma findNextBatch_spec s n :
  0 <= findPos_ (find_ s) ->
  let out := take (Z.to_nat n) (drop (Z.to_nat (findPos_ (find_ s))) (findHandles_ (find_ s))) in
  findNextBatch s n =
    (out, with_find s (mkFind (findHandles_ (find_ s)) (findPos_ (find_ s) + len out)
                         (findActive_ (find_ s)))).
Proof.
  intros Hp. unfold findNextBatch. rewrite batch_loop_spec by lia. rewrite Z.sub_0_r. reflexivity.
Qed.

Lemma batches_position sizes s :
  0 <= findPos_ (find_ s) ->
  findHandles_ (find_ (snd (batches s sizes))) = findHandles_ (find_ s) /\
  findPos_ (find_ (snd (batches s sizes))) = findPos_ (find_ s) + len (List.concat (fst (batches s sizes))).
Proof.
  revert s. induction sizes as [|n sizes IH]; intros s Hp; [cbn; split; [done|unfold len; cbn; lia]|]. cbn [batches].
  rewrite findNextBatch_spec by done. set (out := take _ _). set (s1 := with_find _ _).
  pose proof (len_nonneg out). specialize (IH s1).
  destruct (batches s1 sizes) as [outs s2]. cbn [fst snd] in *.
  unfold s1 in IH. cbn [with_find find_ findPos_ findHandles_] in IH.
  destruct IH as [-> ->]; [lia|]. cbn [List.concat]. rewrite len_app. split; [done|lia].
Qed.

Lemma batches_concat sizes s :
  0 <= findPos_ (find_ s) -> Forall (fun n => 0 <= n) sizes ->
  List.concat (fst (batches s sizes)) =
    take (Z.to_nat (foldr Z.add 0 sizes))
      (drop (Z.to_nat (findPos_ (find_ s))) (findHandles_ (find_ s))).
Proof.
  revert s. induction sizes as [|n sizes IH]; intros s Hp Hs; [by rewrite take_0|].
  apply list.Forall_cons in Hs as [Hn Hs]. cbn [batches foldr].
  rewrite findNextBatch_spec by done. set (out := take _ _).
  set (s1 := with_find _ _). specialize (IH s1). pose proof (len_nonneg out).
  destruct (batches s1 sizes) as [outs s2] eqn:E. cbn [fst] in *.
  cbn [List.concat]. rewrite IH; [|unfold s1; cbn [with_find find_ findPos_]; lia|done].
  unfold s1. cbn [with_find find_ findPos_ findHandles_].
  assert (Hsum : 0 <= foldr Z.add 0 sizes).
  { clear -Hs. induction Hs; cbn [foldr]; lia. }
  set (l := drop (Z.to_nat (findPos_ (find_ s))) (findHandles_ (find_ s))) in *.
  rewrite Z2Nat.inj_add, (Z2Nat.inj_add n) by lia. rewrite <- drop_drop. fold l.
  unfold out, len. rewrite Nat2Z.id, length_take.
  destruct (Nat.le_gt_cases (Z.to_nat n) (length l)).
  - rewrite Nat.min_l by done. apply take_take_drop.
  - rewrite Nat.min_r, drop_ge, take_nil, app_nil_r by lia. rewrite !take_ge by lia. done.
Qed.

(** A search gives every result exactly once and in order: whatever batch
    sizes the client asks for, the batches put end to end are the first of the
    results set, up to the total asked for, and all of them once the total
    reaches their number; the session then reports none left. *)
Theorem find_batches_exhaust (s : Session) (handles sizes : list Z)
    (Hpos : Forall (fun n => 0 <= n) sizes) :
  let (outs, s') := batches (setFindResults s handles) sizes in
  List.concat outs = take (Z.to_nat (foldr Z.add 0 sizes)) handles /\
  (len handles <= foldr Z.add 0 sizes -> List.concat outs = handles /\ hasFindResults s' = false).
Proof.
  pose proof (batches_position sizes (setFindResults s handles) (Z.le_refl 0)) as [H1 H2].
  pose proof (batches_concat sizes (setFindResults s handles) (Z.le_refl 0) Hpos) as H.
  destruct (batches (setFindResults s handles) sizes) as [outs s']. cbn [fst snd setFindResults
    with_find find_ findPos_ findHandles_] in *. rewrite drop_0 in H. split; [done|].
  intros Hle. assert (Hall : List.concat outs = handles).
  { rewrite H. apply take_ge. unfold len in Hle. lia. }
  split; [done|]. unfold hasFindResults. rewrite H1, H2, Hall. apply Z.ltb_ge. lia.
Qed.

Lemma find_batches_exhaust_witness :
  let (outs, s') := batches (setFindResults (new_session 1 0 0) [11; 12; 13; 14; 15]) [2; 2; 2; 2] in
  List.concat outs = take 8 [11; 12; 13; 14; 15] /\
  (len [11; 12; 13; 14; 15] <= foldr Z.add 0 [2; 2; 2; 2] ->
   List.concat outs = [11; 12; 13; 14; 15] /\ hasFindResults s' = false).
Proof.
  apply (find_batches_exhaust (new_session 1 0 0) [11; 12; 13; 14; 15] [2; 2; 2; 2]).
  repeat constructor; lia.
Defined.

End Sess.

Module SessMgr.
Import Sess.

Record v_SessionManagerCore_M1 : Type := mkManager {
  v_sessions_ : list Session;
  v_next_session_id_ : Z;
  v_last_op_at_ : Z
}.

Definition new_manager (now : Z) : v_SessionManagerCore_M1 := mkManager [] 1 now.

Definition v_touch_op (now : Z) (m : v_SessionManagerCore_M1) : v_SessionManagerCore_M1 :=
  mkManager (v_sessions_ m) (v_next_session_id_ m) now.

(** The code, the handle stored at [phSession] and the registry after. *)
Definition v_open_session (now : Z) (m : v_SessionManagerCore_M1) (slotID flags : Z)
    : CK_RV * Z * v_SessionManagerCore_M1 :=
  let h := v_next_session_id_ m in
  let next := u64 (h + 1) in
  let (h, next) := if h =? 0 then (next, u64 (next + 1)) else (h, next) in
  (CKR_OK, h, mkManager (v_sessions_ m ++ [new_session h slotID flags]) next now).

Fixpoint erase_handle (h : Z) (l : list Session) : option (list Session) :=
  match l with
  | [] => None
  | s :: l => if handle_ s =? h then Some l
              else match erase_handle h l with Some l' => Some (s :: l') | None => None end
  end.

Definition v_close_session (now : Z) (m : v_SessionManagerCore_M1) (h : Z)
    : CK_RV * v_SessionManagerCore_M1 :=
  match erase_handle h (v_sessions_ m) with
  | Some l => (CKR_OK, mkManager l (v_next_session_id_ m) now)
  | None => (CKR_SESSION_HANDLE_INVALID, m)
  end.

Definition v_close_all_sessions (now : Z) (m : v_SessionManagerCore_M1) (slotID : Z)
    : CK_RV * v_SessionManagerCore_M1 :=
  (CKR_OK, mkManager (List.filter (fun s => negb (slotID_ s =? slotID)) (v_sessions_ m))
             (v_next_session_id_ m) now).

Definition v_get_session (m : v_SessionManagerCore_M1) (h : Z) : option Session :=
  List.find (fun s => handle_ s =? h) (v_sessions_ m).

Definition v_get_session_info (m : v_SessionManagerCore_M1) (h : Z) : CK_RV * option SessionInfo :=
  match v_get_session m h with
  | Some s => (CKR_OK, Some (Sess.getSessionInfo s))
  | None => (CKR_SESSION_HANDLE_INVALID, None)
  end.

Definition v_have_session (m : v_SessionManagerCore_M1) (slotID : Z) : bool :=
  existsb (fun s => slotID_ s =? slotID) (v_sessions_ m).

Definition v_have_ro_session (m : v_SessionManagerCore_M1) (slotID : Z) : bool :=
  existsb (fun s => (slotID_ s =? slotID) && negb (is_rw (flags_ s))) (v_sessions_ m).

(** The facade; [phSession_null] is a null handle pointer. *)
Definition openSession (now : Z) (m : v_SessionManagerCore_M1) (slotID flags : Z)
    (phSession_null : bool) : CK_RV * option Z * v_SessionManagerCore_M1 :=
  if phSession_null then (CKR_ARGUMENTS_BAD, None, m)
  else if negb (Z.land flags (Z.lnot (Z.lor CKF_RW_SESSION CKF_SERIAL_SESSION)) =? 0)
  then (CKR_ARGUMENTS_BAD, None, m)
  else let '(rv, h, m) := v_open_session now m slotID flags in (rv, Some h, m).

Definition getSessionInfo (m : v_SessionManagerCore_M1) (h : Z) (pInfo_null : bool)
    : CK_RV * option SessionInfo :=
  if pInfo_null then (CKR_ARGUMENTS_BAD, None) else v_get_session_info m h.

(** A mutation of the session behind a handle, through the [shared_ptr] that
    [v_get_session] returned. *)
Definition update_session (m : v_SessionManagerCore_M1) (h : Z) (f : Session -> Session)
    : v_SessionManagerCore_M1 :=
  mkManager (map (fun s => if handle_ s =? h then f s else s) (v_sessions_ m))
    (v_next_session_id_ m) (v_last_op_at_ m).

(** ** The registry is a map from handles to sessions *)

Definition handles (m : v_SessionManagerCore_M1) : list Z := map handle_ (v_sessions_ m).

(** Handles are distinct, non-zero and below the next one to be given. *)
Definition wf_manager (m : v_SessionManagerCore_M1) : Prop :=
  NoDup (handles m) /\ Forall (fun h => 0 < h < v_next_session_id_ m) (handles m) /\
  0 < v_next_session_id_ m < 2 ^ 64.

Lemma get_in m h s : v_get_session m h = Some s -> s ∈ v_sessions_ m /\ handle_ s = h.
Proof.
  intros [H1 H2]%List.find_some. split; [by apply list_elem_of_In|]. by bool_to_prop.
Qed.

Lemma get_none m h : v_get_session m h = None <-> h ∉ handles m.
Proof.
  unfold v_get_session, handles. induction (v_sessions_ m) as [|s l IH]; cbn [List.find map].
  - split; [intros _ ?%elem_of_nil; done|done].
  - rewrite not_elem_of_cons. destruct (Z.eqb_spec (handle_ s) h); [split; [done|]; intros []; congruence|].
    rewrite IH. split; [intros; split; [congruence|done]|by intros []].
Qed.

Lemma find_app_fresh (l : list Session) (s : Session) h :
  List.find (fun x => handle_ x =? h) (l ++ [s]) =
  match List.find (fun x => handle_ x =? h) l with
  | Some x => Some x
  | None => if handle_ s =? h then Some s else None
  end.
Proof.
  induction l as [|x l IH]; cbn [app List.find]; [done|]. by destruct (handle_ x =? h).
Qed.

Lemma open_wf now m slotID flags :
  wf_manager m -> v_next_session_id_ m + 1 < 2 ^ 64 ->
  let '(rv, h, m') := v_open_session now m slotID flags in
  rv = CKR_OK /\ h = v_next_session_id_ m /\ wf_manager m' /\ v_get_session m h = None /\
  v_next_session_id_ m' = v_next_session_id_ m + 1 /\
  (forall h', v_get_session m' h' =
     if h' =? h then Some (new_session h slotID flags) else v_get_session m h').
Proof.
  intros (Hnd & Hall & Hn) Hroom. unfold v_open_session.
  rewrite (proj2 (Z.eqb_neq _ 0)) by lia. rewrite u64_id by (unfold is_u64; lia).
  assert (Hfresh : v_next_session_id_ m ∉ handles m).
  { intros Hin. rewrite list.Forall_forall in Hall. specialize (Hall _ Hin). lia. }
  split_and!; [done..| |by apply get_none|done|].
  - unfold wf_manager, handles. cbn [v_sessions_ v_next_session_id_]. rewrite map_app.
    split_and!; [| |lia|lia].
    + apply list.NoDup_app. split_and!; [done| |apply NoDup_singleton].
      intros x Hx ->%list_elem_of_singleton. done.
    + apply Forall_app. split; [|repeat constructor; cbn; lia].
      eapply list.Forall_impl; [done|]. cbn. intros. lia.
  - intros h'. unfold v_get_session. cbn [v_sessions_]. rewrite find_app_fresh.
    cbn [new_session handle_]. rewrite (Z.eqb_sym h').
    destruct (Z.eqb_spec (v_next_session_id_ m) h') as [<-|]; [|by destruct (List.find _ _)].
    by rewrite (proj2 (get_none m _) Hfresh : List.find _ _ = None).
Qed.

Lemma erase_spec h l :
  NoDup (map handle_ l) ->
  match erase_handle h l with
  | Some l' => h ∈ map handle_ l /\ l' = List.filter (fun s => negb (handle_ s =? h)) l
  | None => h ∉ map handle_ l
  end.
Proof.
  induction l as [|s l IH]; cbn [erase_handle map]; [intros _ ?%elem_of_nil; done|].
  intros [Hs Hnd]%list.NoDup_cons. specialize (IH Hnd). cbn [List.filter].
  destruct (Z.eqb_spec (handle_ s) h) as [<-|Hne]; cbn [negb].
  - split; [by apply elem_of_cons; left|]. clear IH Hnd. induction l as [|x l IHl]; [done|].
    cbn [map] in Hs. apply not_elem_of_cons in Hs as [Hx Hl]. cbn [List.filter].
    rewrite (proj2 (Z.eqb_neq _ _)) by congruence. cbn [negb]. by rewrite <- IHl.
  - destruct (erase_handle h l) as [l'|].
    + destruct IH as [Hin ->]. split; [by apply elem_of_cons; right|done].
    + apply not_elem_of_cons. split; [congruence|done].
Qed.

Lemma filter_handles (P : Session -> bool) l x :
  x ∈ map handle_ (List.filter P l) -> x ∈ map handle_ l.
Proof.
  intros H. apply list_elem_of_In, in_map_iff in H as (s & <- & [Hs _]%filter_In).
  apply list_elem_of_In, in_map, Hs.
Qed.

Lemma filter_wf P m now :
  wf_manager m ->
  wf_manager (mkManager (List.filter P (v_sessions_ m)) (v_next_session_id_ m) now).
Proof.
  intros (Hnd & Hall & Hn). split_and!; [| |apply Hn..].
  - unfold handles in *. cbn [v_sessions_]. clear Hall.
    induction (v_sessions_ m) as [|s l IH]; cbn [List.filter map] in *; [done|].
    apply list.NoDup_cons in Hnd as [Hs Hnd]. destruct (P s); [|auto].
    cbn [map]. apply list.NoDup_cons. split; [|auto]. intros H. by apply Hs, (filter_handles P).
  - rewrite list.Forall_forall in *. intros x Hx. apply Hall. by apply (filter_handles P).
Qed.

Lemma get_filter P l h :
  NoDup (map handle_ l) ->
  List.find (fun s => handle_ s =? h) (List.filter P l) =
  match List.find (fun s => handle_ s =? h) l with
  | Some s => if P s then Some s else None
  | None => None
  end.
Proof.
  induction l as [|s l IH]; [done|]. intros [Hs Hnd]%list.NoDup_cons. cbn [List.filter List.find].
  destruct (Z.eqb_spec (handle_ s) h) as [<-|Hne].
  - destruct (P s) eqn:E; cbn [List.find]; [by rewrite Z.eqb_refl|].
    rewrite IH by done.
    rewrite (proj2 (get_none (mkManager l 0 0) (handle_ s)) Hs
             : List.find (fun x => handle_ x =? handle_ s) l = None). done.
  - destruct (P s); cbn [List.find]; [rewrite (proj2 (Z.eqb_neq _ _) Hne)|]; by apply IH.
Qed.

Lemma close_spec now m h :
  wf_manager m ->
  let (rv, m') := v_close_session now m h in
  wf_manager m' /\ v_next_session_id_ m' = v_next_session_id_ m /\
  rv = (if bool_decide (is_Some (v_get_session m h)) then CKR_OK else CKR_SESSION_HANDLE_INVALID) /\
  (forall h', v_get_session m' h' = if h' =? h then None else v_get_session m h').
Proof.
  intros Hwf. pose proof Hwf as (Hnd & _). unfold v_close_session.
  pose proof (erase_spec h (v_sessions_ m) Hnd) as He.
  destruct (erase_handle h (v_sessions_ m)) as [l|].
  - destruct He as [Hin ->]. split_and!; [by apply filter_wf|done| |].
    + rewrite bool_decide_true; [done|]. destruct (v_get_session m h) eqn:E; [done|].
      by apply get_none in E.
    + intros h'. unfold v_get_session. cbn [v_sessions_]. rewrite get_filter by done.
      fold (v_get_session m h'). destruct (v_get_session m h') as [s|] eqn:E; [|by destruct (h' =? h)].
      apply get_in in E as [_ <-]. by destruct (handle_ s =? h).
  - apply get_none in He. split_and!; [done..| |].
    + rewrite bool_decide_false; [done|]. rewrite He. by intros [].
    + intros h'. by destruct (Z.eqb_spec h' h) as [->|].
Qed.

Lemma close_all_spec now m slotID :
  wf_manager m ->
  let (rv, m') := v_close_all_sessions now m slotID in
  wf_manager m' /\ v_next_session_id_ m' = v_next_session_id_ m /\ rv = CKR_OK /\
  v_have_session m' slotID = false /\
  (forall h, v_get_session m' h = match v_get_session m h with
     | Some s => if slotID_ s =? slotID then None else Some s
     | None => None end).
Proof.
  intros Hwf. unfold v_close_all_sessions. split_and!; [by apply filter_wf|done..| |].
  - unfold v_have_session. cbn [v_sessions_]. induction (v_sessions_ m) as [|s l IH]; [done|].
    cbn [List.filter]. destruct (slotID_ s =? slotID) eqn:E; cbn [negb existsb]; [done|].
    by rewrite E.
  - intros h. unfold v_get_session. cbn [v_sessions_]. rewrite get_filter by apply Hwf.
    destruct (List.find _ _) as [s|]; [|done]. by destruct (slotID_ s =? slotID).
Qed.

Lemma update_spec m h f :
  wf_manager m -> (forall s, handle_ s = h -> handle_ (f s) = h) ->
  wf_manager (update_session m h f) /\
  (forall h', v_get_session (update_session m h f) h' =
     if h' =? h then option_map f (v_get_session m h) else v_get_session m h').
Proof.
  intros Hwf Hf.
  assert (Hh : handles (update_session m h f) = handles m).
  { unfold handles. cbn [v_sessions_ update_session]. rewrite map_map. apply map_ext.
    intros s. destruct (Z.eqb_spec (handle_ s) h); [|done]. by rewrite Hf. }
  split; [unfold wf_manager; rewrite Hh; apply Hwf|].
  intros h'. unfold v_get_session. cbn [v_sessions_ update_session].
  induction (v_sessions_ m) as [|s l IH]; cbn [map List.find]; [by destruct (h' =? h)|].
  destruct (Z.eqb_spec (handle_ s) h) as [E|E]; [rewrite (Hf s E)|]; rewrite ?E;
    destruct (Z.eqb_spec h' h) as [E'|E']; subst; rewrite ?Z.eqb_refl.
  - done.
  - rewrite (proj2 (Z.eqb_neq _ _)) by congruence. rewrite IH. done.
  - rewrite (proj2 (Z.eqb_neq _ _) E). rewrite IH. done.
  - destruct (handle_ s =? h'); [done|]. exact IH.
Qed.

(** The registry against a finite map from handles to sessions. *)
Definition registry (m : v_SessionManagerCore_M1) (g : gmap Z Session) : Prop :=
  forall h, v_get_session m h = g !! h.

(** The session registry is a finite map from handles to sessions: opening
    a session stores a fresh public one under a non-zero handle that no open
    session has, closing deletes exactly that handle or reports it invalid,
    closing all of a slot deletes exactly the sessions of the slot, and a
    mutation through a handle changes only that session; the registry stays
    well formed throughout. *)
Theorem session_registry_refines (now : Z) (m : v_SessionManagerCore_M1) (g : gmap Z Session)
    (Hwf : wf_manager m) (Hg : registry m g) :
  (forall slotID flags, v_next_session_id_ m + 1 < 2 ^ 64 ->
     let '(rv, h, m') := v_open_session now m slotID flags in
     rv = CKR_OK /\ h <> 0 /\ g !! h = None /\ wf_manager m' /\
     registry m' (<[h := new_session h slotID flags]> g)) /\
  (forall h, let (rv, m') := v_close_session now m h in
     rv = (if bool_decide (is_Some (g !! h)) then CKR_OK else CKR_SESSION_HANDLE_INVALID) /\
     wf_manager m' /\ registry m' (delete h g)) /\
  (forall slotID, let (rv, m') := v_close_all_sessions now m slotID in
     rv = CKR_OK /\ wf_manager m' /\ v_have_session m' slotID = false /\
     registry m' (filter (fun hs => slotID_ (snd hs) <> slotID) g)) /\
  (forall h f, (forall s, handle_ s = h -> handle_ (f s) = h) ->
     wf_manager (update_session m h f) /\ registry (update_session m h f) (alter f h g)).
Proof.
  unfold registry in *. split_and!.
  - intros slotID flags Hr. pose proof (open_wf now m slotID flags Hwf Hr) as H.
    destruct (v_open_session now m slotID flags) as [[rv h] m'].
    destruct H as (-> & -> & Hwf' & Hn & _ & Hget). rewrite <- Hg. destruct Hwf as (_ & _ & Hpos).
    split_and!; [done|lia|done..|]. intros h'. rewrite Hget, Hg.
    destruct (Z.eqb_spec h' (v_next_session_id_ m)) as [->|]; [by rewrite lookup_insert_eq|].
    by rewrite lookup_insert_ne.
  - intros h. pose proof (close_spec now m h Hwf) as H. destruct (v_close_session now m h) as [rv m'].
    destruct H as (Hwf' & _ & -> & Hget). rewrite <- Hg. split_and!; [done..|].
    intros h'. rewrite Hget, Hg. destruct (Z.eqb_spec h' h) as [->|]; [by rewrite lookup_delete_eq|].
    by rewrite lookup_delete_ne.
  - intros slotID. pose proof (close_all_spec now m slotID Hwf) as H.
    destruct (v_close_all_sessions now m slotID) as [rv m'].
    destruct H as (Hwf' & _ & -> & Hhave & Hget). split_and!; [done..|]. intros h. rewrite Hget, Hg.
    destruct (g !! h) as [s|] eqn:E.
    + destruct (Z.eqb_spec (slotID_ s) slotID).
      * symmetry. apply map_lookup_filter_None. right. intros s' Hs'. rewrite E in Hs'.
        injection Hs' as <-. cbn. tauto.
      * symmetry. by apply map_lookup_filter_Some.
    + symmetry. apply map_lookup_filter_None. by left.
  - intros h f Hf. destruct (update_spec m h f Hwf Hf) as [Hwf' Hget]. split; [done|].
    intros h'. rewrite Hget, !Hg. destruct (Z.eqb_spec h' h) as [->|].
    + rewrite lookup_alter_eq. done.
    + by rewrite lookup_alter_ne.
Qed.

Lemma new_manager_wf now : wf_manager (new_manager now).
Proof. split_and!; [constructor|constructor|cbn; lia..]. Qed.

Lemma session_registry_refines_witness :
  let '(rv, h, m') := v_open_session 3 (new_manager 0) 0 CKF_RW_SESSION in
  rv = CKR_OK /\ h <> 0 /\ (∅ : gmap Z Session) !! h = None /\ wf_manager m' /\
  registry m' (<[h := new_session h 0 CKF_RW_SESSION]> ∅).
Proof.
  apply (session_registry_refines 3 (new_manager 0) ∅ (new_manager_wf 0)
    (fun h => eq_sym (lookup_empty h))). cbn. lia.
Defined.

(** ** Handles are never reused *)

Inductive MgrOp : Type :=
| MOpen (slotID flags : Z) | MClose (h : Z) | MCloseAll (slotID : Z)
| MUpdate (h : Z) (op : SessOp).

Definition mgr_step (now : Z) (m : v_SessionManagerCore_M1) (op : MgrOp) : v_SessionManagerCore_M1 :=
  match op with
  | MOpen slotID flags => snd (v_open_session now m slotID flags)
  | MClose h => snd (v_close_session now m h)
  | MCloseAll slotID => snd (v_close_all_sessions now m slotID)
  | MUpdate h o => update_session m h (fun s => sess_step s o)
  end.

Definition opens (ops : list MgrOp) : Z :=
  foldr (fun op n => match op with MOpen _ _ => 1 | _ => 0 end + n) 0 ops.

Lemma sess_step_handle s op : handle_ (sess_step s op) = handle_ s.
Proof.
  destruct op; cbn [sess_step]; unfold login, logout, initializeOperation, finalizeOperation,
    opBegin, opUpdate, findNextBatch; try done; try (split_ifs; done); by destruct (batch_loop _ _ _ _ _).
Qed.

Lemma mgr_step_gone now m op h :
  wf_manager m -> 0 < h < v_next_session_id_ m -> v_get_session m h = None ->
  v_next_session_id_ m + opens [op] < 2 ^ 64 ->
  wf_manager (mgr_step now m op) /\ v_get_session (mgr_step now m op) h = None /\
  v_next_session_id_ (mgr_step now m op) = v_next_session_id_ m + opens [op].
Proof.
  intros Hwf Hh Hn Hr. destruct op as [slotID flags|h'|slotID|h' o]; cbn [mgr_step opens foldr] in *.
  - pose proof (open_wf now m slotID flags Hwf ltac:(lia)) as H.
    destruct (v_open_session now m slotID flags) as [[rv hh] m'].
    destruct H as (_ & -> & Hwf' & _ & Hnx & Hget). cbn [snd]. split_and!; [done| |lia].
    rewrite Hget, (proj2 (Z.eqb_neq _ _)) by lia. done.
  - pose proof (close_spec now m h' Hwf) as H. destruct (v_close_session now m h') as [rv m'].
    destruct H as (Hwf' & Hnx & _ & Hget). cbn [snd]. split_and!; [done| |lia]. rewrite Hget.
    by destruct (h =? h').
  - pose proof (close_all_spec now m slotID Hwf) as H.
    destruct (v_close_all_sessions now m slotID) as [rv m'].
    destruct H as (Hwf' & Hnx & _ & _ & Hget). cbn [snd]. split_and!; [done| |lia]. by rewrite Hget, Hn.
  - destruct (update_spec m h' (fun s => sess_step s o) Hwf) as [Hwf' Hget];
      [intros s <-; apply sess_step_handle|]. split_and!; [done| |cbn; lia]. rewrite Hget, Hn.
    destruct (Z.eqb_spec h h') as [->|]; [by rewrite Hn|done].
Qed.

Lemma opens_nonneg ops : 0 <= opens ops.
Proof. unfold opens. induction ops as [|[] ops IH]; cbn [foldr]; lia. Qed.

Lemma mgr_run_gone now ops m h :
  wf_manager m -> 0 < h < v_next_session_id_ m -> v_get_session m h = None ->
  v_next_session_id_ m + opens ops < 2 ^ 64 ->
  v_get_session (fold_left (mgr_step now) ops m) h = None.
Proof.
  revert m. induction ops as [|op ops IH]; intros m Hwf Hh Hn Hr; [done|].
  pose proof (opens_nonneg ops) as Hop.
  assert (Hcons : opens (op :: ops) = opens [op] + opens ops) by (unfold opens; cbn [foldr]; lia).
  assert (Hone : 0 <= opens [op]) by (destruct op; cbn; lia).
  destruct (mgr_step_gone now m op h) as (H1 & H2 & H3); [done..|lia|].
  cbn [fold_left]. apply IH; [done|lia|done|lia].
Qed.

(** The handle of a closed session stays invalid whatever the application
    does next, for all of the [2^64] handles before the counter wraps: no later
    session is reachable under it. *)
Theorem closed_session_stays_closed (now : Z) (m m' : v_SessionManagerCore_M1) (h : Z)
    (ops : list MgrOp) (Hwf : wf_manager m) (Hc : v_close_session now m h = (CKR_OK, m'))
    (Hfit : v_next_session_id_ m + opens ops < 2 ^ 64) :
  v_get_session (fold_left (mgr_step now) ops m') h = None.
Proof.
  pose proof (close_spec now m h Hwf) as H. rewrite Hc in H.
  destruct H as (Hwf' & Hn & Hrv & Hget).
  assert (Hin : h ∈ handles m).
  { destruct (decide (h ∈ handles m)) as [|Hni]; [done|].
    apply get_none in Hni. rewrite Hni, bool_decide_false in Hrv by (by intros []). done. }
  assert (Hr : 0 < h < v_next_session_id_ m).
  { destruct Hwf as (_ & Hall & _). rewrite list.Forall_forall in Hall. by apply Hall. }
  apply mgr_run_gone; [done|lia| |lia]. by rewrite Hget, Z.eqb_refl.
Qed.

Lemma closed_session_stays_closed_witness :
  let m := snd (v_open_session 0 (new_manager 0) 0 6) in
  let m' := snd (v_close_session 0 m 1) in
  v_get_session (fold_left (mgr_step 0) [MOpen 0 6; MUpdate 2 (SLogin CKU_SO); MOpen 0 4] m') 1 = None.
Proof.
  intros m m'. apply (closed_session_stays_closed 0 m m' 1); [|reflexivity|vm_compute; reflexivity].
  pose proof (open_wf 0 (new_manager 0) 0 6 (new_manager_wf 0) ltac:(cbn; lia)) as H.
  unfold m. destruct (v_open_session 0 (new_manager 0) 0 6) as [[rv h] m1]. apply H.
Defined.

End SessMgr.

(** ** Slots and the slot registry *)

Module Slots.

Record version : Type := mkVersion { major_version : Z; minor_version : Z }.

Record Slot : Type := mkSlot {
  slot_id_ : Z;
  token_ : option v_TokenCore_M1;
  hardware_version_ : version;
  firmware_version_ : version
}.

Definition new_slot (slot_id : Z) : Slot := mkSlot slot_id None (mkVersion 1 0) (mkVersion 1 0).

Definition is_token_present (s : Slot) : bool := match token_ s with Some _ => true | None => false end.

Definition insert_token (s : Slot) (t : v_TokenCore_M1) : Slot :=
  mkSlot (slot_id_ s) (Some t) (hardware_version_ s) (firmware_version_ s).

Definition remove_token (s : Slot) : Slot :=
  mkSlot (slot_id_ s) None (hardware_version_ s) (firmware_version_ s).

Definition get_token (s : Slot) : option v_TokenCore_M1 := token_ s.

Definition get_flags (s : Slot) : Z :=
  let flags := 0 in
  let flags := Z.lor flags CKF_REMOVABLE_DEVICE in
  let flags := Z.lor flags CKF_HW_SLOT in
  if is_token_present s then Z.lor flags CKF_TOKEN_PRESENT else flags.

Definition define_firmware_version (s : Slot) (v : version) : res Slot :=
  let cur := firmware_version_ s in
  if (major_version v <=? major_version cur) &&
     (negb (major_version v =? major_version cur) || (minor_version v <=? minor_version cur))
  then Throw (RuntimeError "Slot: incoherent firmware version downgrade refused")
  else Ok (mkSlot (slot_id_ s) (token_ s) (hardware_version_ s) v).

(** Lexicographic order of versions. *)
Definition version_lt (a b : version) : Prop :=
  major_version a < major_version b \/
  (major_version a = major_version b /\ minor_version a < minor_version b).

Lemma firmware_upgrade s v s' :
  define_firmware_version s v = Ok s' <->
  version_lt (firmware_version_ s) v /\
  s' = mkSlot (slot_id_ s) (token_ s) (hardware_version_ s) v.
Proof.
  unfold define_firmware_version, version_lt.
  destruct (Z.leb_spec (major_version v) (major_version (firmware_version_ s)));
    destruct (Z.eqb_spec (major_version v) (major_version (firmware_version_ s)));
    destruct (Z.leb_spec (minor_version v) (minor_version (firmware_version_ s)));
    cbn [andb orb negb]; split; try (intros [= <-]; split; [lia|done]); try (intros [? ->]; try done; lia); try done.
Qed.

Record v_SlotManagerCore_M1 : Type := mkSlotManager {
  v_slots_ : gmap Z Slot;
  v_last_registration_at_ : Z
}.

Definition v_register_slot (now : Z) (m : v_SlotManagerCore_M1) (slot_id : Z)
    : bool * v_SlotManagerCore_M1 :=
  match v_slots_ m !! slot_id with
  | Some _ => (false, m)
  | None => (true, mkSlotManager (<[slot_id := new_slot slot_id]> (v_slots_ m)) now)
  end.

Definition v_get_slot (m : v_SlotManagerCore_M1) (slot_id : Z) : option Slot := v_slots_ m !! slot_id.

Definition v_get_slot_id_list (m : v_SlotManagerCore_M1) : list Z := map fst (map_to_list (v_slots_ m)).

Definition v_reset (m : v_SlotManagerCore_M1) : v_SlotManagerCore_M1 :=
  mkSlotManager ∅ (v_last_registration_at_ m).

(** Over any sequence of firmware updates, accepted or refused, the
    firmware version of a slot never goes down, and an accepted update is a
    strict upgrade in (major, minor) order. *)
Theorem firmware_never_downgrades (s : Slot) (vs : list version) :
  let apply s v := match define_firmware_version s v with Ok s' => s' | Throw _ => s end in
  let s' := fold_left apply vs s in
  (firmware_version_ s' = firmware_version_ s \/
   version_lt (firmware_version_ s) (firmware_version_ s')) /\
  token_ s' = token_ s /\
  (forall v s2, define_firmware_version s' v = Ok s2 ->
     version_lt (firmware_version_ s') (firmware_version_ s2)).
Proof.
  intros apply. split_and!; [| |intros v s2 H; apply firmware_upgrade in H as [H ->]; done].
  - revert s. induction vs as [|v vs IH]; intros s; [by left|]. cbn [fold_left].
    specialize (IH (apply s v)). destruct (define_firmware_version s v) as [s1|] eqn:E.
    + assert (Ha : apply s v = s1) by (unfold apply; by rewrite E). rewrite Ha in *.
      apply firmware_upgrade in E as [E ->]. cbn [firmware_version_] in *. right.
      destruct IH as [->|IH]; [done|]. unfold version_lt in *. lia.
    + assert (Ha : apply s v = s) by (unfold apply; by rewrite E). by rewrite Ha in *.
  - revert s. induction vs as [|v vs IH]; intros s; [done|]. cbn [fold_left]. rewrite IH.
    unfold apply. destruct (define_firmware_version s v) as [s1|] eqn:E; [|done].
    by apply firmware_upgrade in E as [_ ->].
Qed.

End Slots.

(** ** Login throttling *)

Module Throttle.

Record Policy : Type := mkPolicy { soft_threshold : Z; base_delay_ms : Z; max_delay_ms : Z }.

Definition default_policy : Policy := mkPolicy 3 250 8000.

Record LoginThrottle : Type := mkThrottle { policy_ : Policy; attempts_ : gmap (list byte) Z }.

Definition delay_before_attempt (t : LoginThrottle) (key : list byte) : Z :=
  match attempts_ t !! key with
  | None => 0
  | Some n =>
    if n <? soft_threshold (policy_ t) then 0
    else
      let exp := u32 (n - soft_threshold (policy_ t)) in
      let delay := u32 (Z.shiftl (base_delay_ms (policy_ t)) (Z.min exp 16)) in
      Z.min delay (max_delay_ms (policy_ t))
  end.

Definition record_success (t : LoginThrottle) (key : list byte) : LoginThrottle :=
  mkThrottle (policy_ t) (delete key (attempts_ t)).

Definition record_failure (t : LoginThrottle) (key : list byte) : LoginThrottle :=
  mkThrottle (policy_ t) (<[key := u32 (default 0 (attempts_ t !! key) + 1)]> (attempts_ t)).

Definition failures (t : LoginThrottle) (key : list byte) : Z := default 0 (attempts_ t !! key).

(** [base * 2^(n - soft_threshold)] up to the cap, without wrap-around. *)
Definition ideal_delay (p : Policy) (n : Z) : Z :=
  if n <? soft_threshold p then 0
  else Z.min (base_delay_ms p * 2 ^ (n - soft_threshold p)) (max_delay_ms p).

Lemma ideal_delay_default n m :
  0 <= n <= m -> 0 <= ideal_delay default_policy n <= ideal_delay default_policy m.
Proof.
  intros H. unfold ideal_delay. cbn [soft_threshold base_delay_ms max_delay_ms default_policy].
  destruct (Z.ltb_spec n 3), (Z.ltb_spec m 3); try lia.
  pose proof (Z.pow_le_mono_r 2 (n - 3) (m - 3) ltac:(lia) ltac:(lia)).
  pose proof (Z.pow_pos_nonneg 2 (n - 3) ltac:(lia) ltac:(lia)). lia.
Qed.

Lemma delay_default t key :
  policy_ t = default_policy -> is_u32 (failures t key) ->
  delay_before_attempt t key = ideal_delay default_policy (failures t key).
Proof.
  intros Hp Hu. unfold delay_before_attempt, ideal_delay, failures in *. rewrite Hp.
  destruct (attempts_ t !! key) as [n|]; [|done]. change (default 0 (Some n)) with n in *.
  cbn [soft_threshold base_delay_ms max_delay_ms default_policy].
  destruct (Z.ltb_spec n 3); [done|]. unfold is_u32 in Hu.
  rewrite (u32_id (n - 3)) by (unfold is_u32; lia). rewrite Z.shiftl_mul_pow2 by lia.
  assert (Hb : 1 <= 2 ^ Z.min (n - 3) 16 <= 2 ^ 16).
  { split; [change 1 with (2 ^ 0)|]; apply Z.pow_le_mono_r; lia. }
  rewrite u32_id by (unfold is_u32; change (2 ^ 16) with 65536 in Hb; lia).
  destruct (Z.le_gt_cases (n - 3) 16); [by rewrite (Z.min_l (n - 3) 16) by lia|].
  rewrite (Z.min_r (n - 3) 16) by lia. pose proof (Z.pow_le_mono_r 2 16 (n - 3) ltac:(lia) ltac:(lia)).
  change (2 ^ 16) with 65536 in *. lia.
Qed.

(** Under the default policy the delay before an attempt is zero below the
    threshold and [250 * 2^(failures - 3)] milliseconds from there on, capped at
    8000 and with no wrap-around; it never shrinks as failures add up, a
    success resets it, and the history of one key does not affect another. *)
Theorem throttle_delay_spec (t : LoginThrottle) (key other : list byte)
    (Hp : policy_ t = default_policy) (Hu : failures t key + 1 < 2 ^ 32)
    (Hn : 0 <= failures t key) (Ho : other <> key) :
  delay_before_attempt t key = ideal_delay default_policy (failures t key) /\
  0 <= delay_before_attempt t key <= delay_before_attempt (record_failure t key) key /\
  delay_before_attempt (record_failure t key) key <= 8000 /\
  delay_before_attempt (record_success t key) key = 0 /\
  delay_before_attempt (record_failure t key) other = delay_before_attempt t other /\
  delay_before_attempt (record_success t key) other = delay_before_attempt t other.
Proof.
  assert (Hf : failures (record_failure t key) key = failures t key + 1).
  { unfold failures, record_failure in *. cbn [attempts_]. rewrite lookup_insert_eq. cbn.
    apply u32_id. unfold is_u32. lia. }
  rewrite !delay_default, Hf by (try done; rewrite ?Hf; unfold is_u32; lia).
  pose proof (ideal_delay_default (failures t key) (failures t key + 1) ltac:(lia)).
  split_and!; try done; try lia.
  - unfold ideal_delay. destruct (_ <? _); cbn; lia.
  - unfold delay_before_attempt, record_success. cbn [attempts_]. by rewrite lookup_delete_eq.
  - unfold delay_before_attempt, record_failure. cbn [attempts_ policy_]. by rewrite lookup_insert_ne.
  - unfold delay_before_attempt, record_success. cbn [attempts_ policy_]. by rewrite lookup_delete_ne.
Qed.

Definition failed_five : LoginThrottle :=
  Nat.iter 5 (fun t => record_failure t (bytes_of "0:1")) (mkThrottle default_policy ∅).

Lemma throttle_delay_spec_witness :
  delay_before_attempt failed_five (bytes_of "0:1") = 1000 /\
  0 <= delay_before_attempt failed_five (bytes_of "0:1")
    <= delay_before_attempt (record_failure failed_five (bytes_of "0:1")) (bytes_of "0:1") /\
  delay_before_attempt (record_failure failed_five (bytes_of "0:1")) (bytes_of "0:1") <= 8000 /\
  delay_before_attempt (record_success failed_five (bytes_of "0:1")) (bytes_of "0:1") = 0 /\
  delay_before_attempt (record_failure failed_five (bytes_of "0:1")) (bytes_of "0:2") = 0 /\
  delay_before_attempt (record_success failed_five (bytes_of "0:1")) (bytes_of "0:2") = 0.
Proof.
  apply (throttle_delay_spec failed_five (bytes_of "0:1") (bytes_of "0:2")); vm_compute; try done.
Defined.

End Throttle.

(** ** Search and signature contexts *)

Module Contexts.

Record FindContext : Type := mkFindCtx { m_matches : list Z; m_current_index : Z }.

Definition new_find_context (matches : list Z) : FindContext := mkFindCtx matches 0.
Definition has_next (c : FindContext) : bool := m_current_index c <? len (m_matches c).
Definition next (c : FindContext) : res (Z * FindContext) :=
  if negb (has_next c)
  then Throw (OutOfRange "FindContext::next(): no matches remain; call has_next() first")
  else Ok (nth (Z.to_nat (m_current_index c)) (m_matches c) 0,
           mkFindCtx (m_matches c) (m_current_index c + 1)).
Definition reset (c : FindContext) : FindContext := mkFindCtx (m_matches c) 0.

Record SignContext : Type := mkSignCtx {
  m_mechanism : Z;
  m_key_handle : Z;
  m_accumulator : list byte
}.

Definition new_sign_context (mech key : Z) : res SignContext :=
  if key =? CKR_OBJECT_HANDLE_INVALID
  then Throw (InvalidArgument "SignContext: invalid key handle")
  else Ok (mkSignCtx mech key []).

Definition update (c : SignContext) (data : option (list byte)) (len_ : Z) : res SignContext :=
  if bool_decide (data = None) && (0 <? len_)
  then Throw (InvalidArgument "SignContext: null data pointer with positive length")
  else if 0 <? len_
  then Ok (mkSignCtx (m_mechanism c) (m_key_handle c)
             (m_accumulator c ++ take (Z.to_nat len_) (default [] data)))
  else Ok c.

Definition clear (c : SignContext) : SignContext :=
  mkSignCtx (m_mechanism c) (m_key_handle c) [].

(** The guard compares the handle with a return code: the invalid handle 0 is
    accepted and the handle 0x52 refused. *)
Lemma sign_context_guard :
  new_sign_context 1 CK_INVALID_HANDLE = Ok (mkSignCtx 1 0 []) /\
  new_sign_context 1 0x52 = Throw (InvalidArgument "SignContext: invalid key handle").
Proof. split; reflexivity. Qed.

End Contexts.
