(* ===== verification/Pkcs11.v ===== *)
(** * The PKCS#11 entry points for sessions, login, PINs and objects

    [src/src/pkcs11/p11_session.cpp], [p11_object.cpp], the PIN and slot calls
    of [p11_slot.cpp] and the lookups and attribute helpers of
    [p11_internal.cpp].

    The globals of the module are the record [P11].  A call is a function of the
    state and of its arguments; a pointer is [None] when null.  The exceptions
    of the inner layers become codes as in [VHSM_C_CATCH].  What
    [p11_publish_event] is called with is appended to [events_]. *)

From S2P Require Import Prelude Codec Types Notification SecureBuffer Objects ObjectStore Token Session.
From stdpp Require Import pretty.
Import LeBytes HsmObj AttrStore Sess.
Local Open Scope Z_scope.

(** [crypto::SignResult] and the arguments of [SignatureDispatcher::dispatch]. *)
Record SignResult : Type := mkSignResult {
  signature : list byte;
  mechanism_str : list byte;
  digest_alg : list byte;
  payload_digest : list byte;
  payload_size : Z
}.

Record DispatchCall : Type := mkDispatch {
  d_result : SignResult;
  d_created_at : Z;
  d_slot_id : Z;
  d_token_label : list byte;
  d_key_id : list byte;
  d_key_fingerprint : list byte;
  d_session : list byte;
  d_user_label : option (list byte)
}.

(** Security events given to the notification bus and the audit log: those of
    the session and object calls by their contents, those of the cryptographic
    calls in full, with the identifier and type of the audit record; and the
    signatures given to the dispatcher. *)
Inductive Event : Type :=
| PIN_LOCKOUT (slotID userType max_attempts : Z)
| KEY_DESTROYED (slotID hObject : Z)
| NOTIFIED (e : NotificationEvent) (audit_id audit_type : list byte)
| DISPATCHED (c : DispatchCall).

Record P11 : Type := mkP11 {
  g_initialized : bool;
  g_slotManager : Slots.v_SlotManagerCore_M1;
  g_sessionManager : SessMgr.v_SessionManagerCore_M1;
  login_throttle : option Throttle.LoginThrottle;
  events_ : list Event
}.

Definition with_slots (st : P11) (m : Slots.v_SlotManagerCore_M1) : P11 :=
  mkP11 (g_initialized st) m (g_sessionManager st) (login_throttle st) (events_ st).
Definition with_sessions (st : P11) (m : SessMgr.v_SessionManagerCore_M1) : P11 :=
  mkP11 (g_initialized st) (g_slotManager st) m (login_throttle st) (events_ st).
Definition with_throttle (st : P11) (t : option Throttle.LoginThrottle) : P11 :=
  mkP11 (g_initialized st) (g_slotManager st) (g_sessionManager st) t (events_ st).
Definition publish (st : P11) (e : Event) : P11 :=
  mkP11 (g_initialized st) (g_slotManager st) (g_sessionManager st) (login_throttle st)
    (events_ st ++ [e]).

(** [VHSM_C_CATCH]. *)
Definition c_catch (r : res CK_RV) : CK_RV :=
  match r with
  | Ok rv => rv
  | Throw (InvalidArgument _) => CKR_ARGUMENTS_BAD
  | Throw (OutOfRange _) => CKR_BUFFER_TOO_SMALL
  | Throw (RuntimeError _) => CKR_GENERAL_ERROR
  | Throw (OtherException _) => CKR_GENERAL_ERROR
  end.

(** ** Lookups *)

Definition p11_get_slot (st : P11) (id : Z) : option Slots.Slot :=
  Slots.v_get_slot (g_slotManager st) id.

Definition p11_get_token (st : P11) (id : Z) : option v_TokenCore_M1 :=
  match p11_get_slot st id with Some s => Slots.get_token s | None => None end.

Definition p11_get_session (st : P11) (h : Z) : option Session :=
  SessMgr.v_get_session (g_sessionManager st) h.

Definition p11_get_token_for_session (st : P11) (h : Z) : option v_TokenCore_M1 :=
  match p11_get_session st h with Some s => p11_get_token st (slotID_ s) | None => None end.

Definition p11_get_object (st : P11) (hSession hObject : Z) : option HsmObject :=
  match p11_get_session st hSession with
  | Some s => v_get_object (objectStore_ s) hObject
  | None => None
  end.

(** The effect of a call on the shared token of a slot. *)
Definition put_token (st : P11) (id : Z) (t : v_TokenCore_M1) : P11 :=
  with_slots st (Slots.mkSlotManager
    (alter (fun s => Slots.insert_token s t) id (Slots.v_slots_ (g_slotManager st)))
    (Slots.v_last_registration_at_ (g_slotManager st))).

(** The effect of a call on a session. *)
Definition put_session (st : P11) (h : Z) (s : Session) : P11 :=
  with_sessions st (SessMgr.update_session (g_sessionManager st) h (fun _ => s)).

Definition p11_reset_op (st : P11) (h : Z) : P11 :=
  match p11_get_session st h with
  | Some s => put_session st h (clearFindResults (opEnd s))
  | None => st
  end.

(** ** Sessions and login *)

Definition C_OpenSession (now : Z) (st : P11) (slotID flags : Z) (phSession_null : bool)
    : CK_RV * option Z * P11 :=
  if negb (g_initialized st) then (CKR_CRYPTOKI_NOT_INITIALIZED, None, st)
  else if phSession_null then (CKR_ARGUMENTS_BAD, None, st)
  else match p11_get_slot st slotID with
  | None => (CKR_SLOT_ID_INVALID, None, st)
  | Some _ =>
    let '(rv, h, m) := SessMgr.openSession now (g_sessionManager st) slotID flags phSession_null in
    (rv, h, with_sessions st m)
  end.

Definition C_CloseSession (now : Z) (st : P11) (hSession : Z) : CK_RV * P11 :=
  if negb (g_initialized st) then (CKR_CRYPTOKI_NOT_INITIALIZED, st)
  else let (rv, m) := SessMgr.v_close_session now (g_sessionManager st) hSession in
       (rv, with_sessions st m).

Definition C_CloseAllSessions (now : Z) (st : P11) (slotID : Z) : CK_RV * P11 :=
  if negb (g_initialized st) then (CKR_CRYPTOKI_NOT_INITIALIZED, st)
  else let (rv, m) := SessMgr.v_close_all_sessions now (g_sessionManager st) slotID in
       (rv, with_sessions st m).

Definition C_GetSessionInfo (st : P11) (hSession : Z) (pInfo_null : bool)
    : CK_RV * option SessionInfo :=
  if pInfo_null then (CKR_ARGUMENTS_BAD, None)
  else match p11_get_session st hSession with
  | None => (CKR_SESSION_HANDLE_INVALID, None)
  | Some s =>
    let ut := userType_ s in
    let rw := is_rw (flags_ s) in
    let state :=
      if ut =? CKU_USER then (if rw then CKS_RW_USER_FUNCTIONS else CKS_RO_USER_FUNCTIONS)
      else if ut =? CKU_SO then (if rw then CKS_RW_SO_FUNCTIONS else CKS_RO_SO_FUNCTIONS)
      else (if rw then CKS_RW_PUBLIC_SESSION else CKS_RO_PUBLIC_SESSION) in
    (CKR_OK, Some (mkInfo (slotID_ s) state (flags_ s) 0))
  end.

Definition is_pin_locked (t : v_TokenCore_M1) (userType : Z) : bool :=
  if userType =? CKU_USER then pin_locked_ (v_user_ t) =? CK_TRUE
  else pin_locked_ (v_so_ t) =? CK_TRUE.

(** [std::to_string(slot) + ":" + std::to_string(userType)]. *)
Definition throttle_key (slotID userType : Z) : list byte :=
  bytes_of (pretty slotID +:+ ":" +:+ pretty userType).

Definition throttle_after (rv : CK_RV) (key : list byte) (t : Throttle.LoginThrottle)
    : Throttle.LoginThrottle :=
  if (rv =? CKR_OK) || (rv =? CKR_PIN_LOCKED) then Throttle.record_success t key
  else if negb (rv =? CKR_PIN_INCORRECT) && negb (rv =? CKR_PIN_INVALID) then t
  else Throttle.record_failure t key.

(** The code, the milliseconds slept before the attempt, the state. *)
(** [sink_ok]: whether [SecureBuffer pin_sink(1)] gets its locked page; its constructor
    throws otherwise. *)
Definition C_Login (now : Z) (st : P11) (hSession userType : Z) (pPin : option (list byte))
    (ulPinLen : Z) (sink_ok : bool) : CK_RV * Z * P11 :=
  if negb (g_initialized st) then (CKR_CRYPTOKI_NOT_INITIALIZED, 0, st)
  else if negb (userType =? CKU_USER) && negb (userType =? CKU_SO)
  then (CKR_USER_TYPE_INVALID, 0, st)
  else match p11_get_token_for_session st hSession, p11_get_session st hSession with
  | Some tok, Some s =>
    let was_locked := is_pin_locked tok userType in
    let key := throttle_key (slotID_ s) userType in
    let delay_ms := match login_throttle st with
                    | Some t => Throttle.delay_before_attempt t key
                    | None => 0
                    end in
    let (rv, tok) := Token.login now tok userType pPin ulPinLen in
    let st := put_token st (slotID_ s) tok in
    let st := with_throttle st (option_map (throttle_after rv key) (login_throttle st)) in
    if rv =? CKR_OK then
      if negb sink_ok then (c_catch (Throw (RuntimeError "SecureBuffer: mmap failed")), delay_ms, st)
      else
        let (rv, s) := Sess.login s userType in
        (rv, delay_ms, put_session st hSession s)
    else
      let now_locked := is_pin_locked tok userType in
      let st := if negb was_locked && now_locked
                then publish st (PIN_LOCKOUT (slotID_ s) userType (v_max_failed_attempts_ tok))
                else st in
      (rv, delay_ms, st)
  | _, _ => (CKR_SESSION_HANDLE_INVALID, 0, st)
  end.

Definition C_Logout (st : P11) (hSession : Z) : CK_RV * P11 :=
  if negb (g_initialized st) then (CKR_CRYPTOKI_NOT_INITIALIZED, st)
  else match p11_get_token_for_session st hSession, p11_get_session st hSession with
  | Some tok, Some s =>
    let ut := userType_ s in
    let rv := Token.logout ut in
    if (rv =? CKR_OK) || (rv =? CKR_USER_NOT_LOGGED_IN) then
      let s := snd (Sess.logout s) in
      let s := opEnd s in
      let s := clearFindResults s in
      let rv := if rv =? CKR_USER_NOT_LOGGED_IN then CKR_OK else rv in
      (rv, put_session st hSession s)
    else (rv, st)
  | _, _ => (CKR_SESSION_HANDLE_INVALID, st)
  end.

(** ** PIN administration *)

Definition C_InitToken (now : Z) (st : P11) (slotID : Z) (pPin : option (list byte)) (ulPinLen : Z)
    : CK_RV * P11 :=
  match p11_get_token st slotID with
  | None => (CKR_SLOT_ID_INVALID, st)
  | Some tok =>
    if bool_decide (is_Some pPin) && (0 <? ulPinLen) then
      let (r, tok) := initialize_so_pin now tok pPin ulPinLen in
      (c_catch r, put_token st slotID tok)
    else (CKR_OK, st)
  end.

Definition C_InitPIN (now : Z) (st : P11) (hSession : Z) (pPin : option (list byte)) (ulPinLen : Z)
    : CK_RV * P11 :=
  match p11_get_token_for_session st hSession, p11_get_session st hSession with
  | Some tok, Some s =>
    if bool_decide (pPin = None) then (CKR_ARGUMENTS_BAD, st)
    else let (r, tok) := initialize_user_pin now tok pPin ulPinLen in
         (c_catch r, put_token st (slotID_ s) tok)
  | _, _ => (CKR_SESSION_HANDLE_INVALID, st)
  end.

Definition C_SetPIN (now : Z) (st : P11) (hSession : Z) (pOldPin : option (list byte)) (ulOldLen : Z)
    (pNewPin : option (list byte)) (ulNewLen : Z) : CK_RV * P11 :=
  match p11_get_token_for_session st hSession, p11_get_session st hSession with
  | Some tok, Some s =>
    if bool_decide (pNewPin = None) then (CKR_ARGUMENTS_BAD, st)
    else
      let (r, tok) := if bool_decide (is_Some pOldPin) && (0 <? ulOldLen)
                      then change_user_pin now tok pOldPin ulOldLen pNewPin ulNewLen
                      else set_user_pin now tok None 0 pNewPin ulNewLen in
      (c_catch r, put_token st (slotID_ s) tok)
  | _, _ => (CKR_SESSION_HANDLE_INVALID, st)
  end.

(** ** Slots *)

(** The code, the ids written to [pSlotList] and the new [*pulCount]; [room] is
    [None] for a null list and otherwise the caller's [*pulCount]. *)
Definition C_GetSlotList (st : P11) (tokenPresent : bool) (pulCount_null : bool) (room : option Z)
    : CK_RV * list Z * Z :=
  if pulCount_null then (CKR_ARGUMENTS_BAD, [], 0)
  else
    let ids := Slots.v_get_slot_id_list (g_slotManager st) in
    let ids := if tokenPresent
               then List.filter (fun id => match p11_get_slot st id with
                                           | Some s => Slots.is_token_present s
                                           | None => false end) ids
               else ids in
    match room with
    | None => (CKR_OK, [], len ids)
    | Some r => if r <? len ids then (CKR_BUFFER_TOO_SMALL, [], len ids) else (CKR_OK, ids, len ids)
    end.

(** ** Objects *)

Definition class_from_attr (c : Z) : ObjectType :=
  if c =? CKO_DATA then DATA
  else if c =? CKO_CERTIFICATE then CERTIFICATE
  else if c =? CKO_PUBLIC_KEY then PUBLIC_KEY
  else if c =? CKO_PRIVATE_KEY then PRIVATE_KEY
  else if c =? CKO_SECRET_KEY then SECRET_KEY
  else OTHER.

(** The class, if given, and the flags read from a creation template. *)
Record Parsed : Type := mkParsed {
  p_class : option Z;
  p_sensitive : bool;
  p_extractable : bool;
  p_token : bool;
  p_private : bool
}.

Definition parse_attr (p : Parsed) (a : CK_ATTRIBUTE) : Parsed :=
  match pValue a with
  | None => p
  | Some v =>
    let b := deref_bbool (Some v) =? CK_TRUE in
    if (a_type a =? CKA_CLASS) && (ulValueLen a =? 8) then
      mkParsed (Some (deref_ulong (Some v))) (p_sensitive p) (p_extractable p) (p_token p) (p_private p)
    else if (a_type a =? CKA_TOKEN) && (ulValueLen a =? 1) then
      mkParsed (p_class p) (p_sensitive p) (p_extractable p) b (p_private p)
    else if (a_type a =? CKA_PRIVATE) && (ulValueLen a =? 1) then
      mkParsed (p_class p) (p_sensitive p) (p_extractable p) (p_token p) b
    else if (a_type a =? CKA_SENSITIVE) && (ulValueLen a =? 1) then
      mkParsed (p_class p) b (p_extractable p) (p_token p) (p_private p)
    else if (a_type a =? CKA_EXTRACTABLE) && (ulValueLen a =? 1) then
      mkParsed (p_class p) (p_sensitive p) b (p_token p) (p_private p)
    else p
  end.

Definition parse_class_and_flags (t : list CK_ATTRIBUTE) : Parsed :=
  fold_left parse_attr t (mkParsed None false true false false).

(** The loop with its early return: the code and the object as left so far. *)
Fixpoint p11_apply_template (obj : HsmObject) (t : list CK_ATTRIBUTE) : CK_RV * HsmObject :=
  match t with
  | [] => (CKR_OK, obj)
  | a :: t =>
    if has_flag (a_type a) CKF_ARRAY_ATTRIBUTE then p11_apply_template obj t
    else match pValue a with
    | None => if negb (ulValueLen a =? 0) then (CKR_ARGUMENTS_BAD, obj) else p11_apply_template obj t
    | Some v =>
      match setAttribute obj (a_type a) (Some v) (ulValueLen a) with
      | Ok obj' => p11_apply_template obj' t
      | Throw e => (c_catch (Throw e), obj)
      end
    end
  end.

(** Creation, then the template, undone by a destruction when it fails: shared
    by [C_CreateObject] and [C_CopyObject]. *)
Definition create_with (s : Session) (fresh : HsmObject) (prepare : HsmObject -> HsmObject)
    (t : list CK_ATTRIBUTE) : CK_RV * option Z * Session :=
  let (h, store) := v_create_object (objectStore_ s) fresh in
  let store := update_object store h prepare in
  let rv := fst (p11_apply_template (prepare fresh) t) in
  let store := update_object store h (fun o => snd (p11_apply_template o t)) in
  if negb (rv =? CKR_OK) then (rv, None, with_objects s (snd (v_destroy_object store h)))
  else (CKR_OK, Some h, with_objects s store).

Definition C_CreateObject (st : P11) (hSession : Z) (t : list CK_ATTRIBUTE) (phObject_null : bool)
    : CK_RV * option Z * P11 :=
  if negb (g_initialized st) then (CKR_CRYPTOKI_NOT_INITIALIZED, None, st)
  else if phObject_null then (CKR_ARGUMENTS_BAD, None, st)
  else match p11_get_session st hSession with
  | None => (CKR_SESSION_HANDLE_INVALID, None, st)
  | Some s =>
    let p := parse_class_and_flags t in
    match p_class p with
    | None => (CKR_TEMPLATE_INCOMPLETE, None, st)
    | Some cls =>
      let fresh := new_object (class_from_attr cls) (p_sensitive p) (p_extractable p)
                     (p_token p) (p_private p) in
      let '(rv, h, s) := create_with s fresh (fun o => o) t in
      (rv, h, put_session st hSession s)
    end
  end.

Definition material : list Z :=
  [CKA_VALUE; CKA_KEY_TYPE; CKA_EC_PARAMS; CKA_EC_POINT; CKA_VHSM_RSA_PUB; CKA_VHSM_RSA_PRIV;
   CKA_VHSM_EC_PUB; CKA_VHSM_EC_PRIV; CKA_LABEL; CKA_ID; CKA_MODULUS_BITS; CKA_CLASS].

Definition copy_material (src dst : HsmObject) : HsmObject :=
  fold_left (fun dst t => match findAttribute src t with
                          | Some (b :: v) => set_attr t (b :: v) dst
                          | _ => dst
                          end) material dst.

Definition C_CopyObject (st : P11) (hSession hObject : Z) (t : list CK_ATTRIBUTE)
    (phNewObject_null : bool) : CK_RV * option Z * P11 :=
  if negb (g_initialized st) then (CKR_CRYPTOKI_NOT_INITIALIZED, None, st)
  else if phNewObject_null then (CKR_ARGUMENTS_BAD, None, st)
  else match p11_get_session st hSession with
  | None => (CKR_SESSION_HANDLE_INVALID, None, st)
  | Some s =>
    match p11_get_object st hSession hObject with
    | None => (CKR_OBJECT_HANDLE_INVALID, None, st)
    | Some src =>
      if sensitive_ src then (CKR_ACTION_PROHIBITED, None, st)
      else
        let fresh := new_object (type_ src) (sensitive_ src) (extractable_ src)
                       (HsmObj.token_ src) (private_ src) in
        let '(rv, h, s) := create_with s fresh (copy_material src) t in
        (rv, h, put_session st hSession s)
    end
  end.

Definition C_DestroyObject (st : P11) (hSession hObject : Z) : CK_RV * P11 :=
  if negb (g_initialized st) then (CKR_CRYPTOKI_NOT_INITIALIZED, st)
  else match p11_get_session st hSession with
  | None => (CKR_SESSION_HANDLE_INVALID, st)
  | Some s =>
    if negb (v_is_valid_handle (objectStore_ s) hObject) then (CKR_OBJECT_HANDLE_INVALID, st)
    else
      let (ok, store) := v_destroy_object (objectStore_ s) hObject in
      if negb ok then (CKR_OBJECT_HANDLE_INVALID, st)
      else (CKR_OK, publish (put_session st hSession (with_objects s store))
                      (KEY_DESTROYED (slotID_ s) hObject))
  end.

Definition C_GetObjectSize (st : P11) (hSession hObject : Z) (pulSize_null : bool) : CK_RV * Z :=
  if pulSize_null then (CKR_ARGUMENTS_BAD, 0)
  else match p11_get_object st hSession hObject with
  | None => (CKR_OBJECT_HANDLE_INVALID, 0)
  | Some o =>
    match findAttribute o CKA_VALUE, findAttribute o CKA_VHSM_RSA_PRIV,
          findAttribute o CKA_VHSM_EC_PRIV with
    | Some v, _, _ => (CKR_OK, len v)
    | None, Some v, _ => (CKR_OK, len v)
    | None, None, Some v => (CKR_OK, len v)
    | None, None, None => (CKR_OK, 0)
    end
  end.

(** [p11_get_attr]: [pValue] of the request is only tested for null. *)
Definition p11_get_attr (o : HsmObject) (a : CK_ATTRIBUTE) : GetResult :=
  v_get_attribute o (a_type a) (bool_decide (pValue a = None)) (Some (ulValueLen a)).

Definition combine_rv (rv r : CK_RV) : CK_RV :=
  if negb (r =? CKR_OK) && negb (r =? CKR_BUFFER_TOO_SMALL) then r else rv.

Definition C_GetAttributeValue (st : P11) (hSession hObject : Z) (t : list CK_ATTRIBUTE)
    : CK_RV * list GetResult :=
  if negb (g_initialized st) then (CKR_CRYPTOKI_NOT_INITIALIZED, [])
  else match p11_get_object st hSession hObject with
  | None => (CKR_OBJECT_HANDLE_INVALID, [])
  | Some o =>
    let rs := map (p11_get_attr o) t in
    (fold_left (fun acc g => combine_rv acc (rv g)) rs CKR_OK, rs)
  end.

(** The writes in order, each applied whether or not another fails. *)
Fixpoint set_attributes (o : HsmObject) (t : list CK_ATTRIBUTE) (acc : CK_RV) : CK_RV * HsmObject :=
  match t with
  | [] => (acc, o)
  | a :: t =>
    let (r, o) := v_set_attribute o (Some a) in
    set_attributes o t (if negb (r =? CKR_OK) then r else acc)
  end.

Definition C_SetAttributeValue (st : P11) (hSession hObject : Z) (t : list CK_ATTRIBUTE)
    : CK_RV * P11 :=
  if negb (g_initialized st) then (CKR_CRYPTOKI_NOT_INITIALIZED, st)
  else match p11_get_session st hSession, p11_get_object st hSession hObject with
  | Some s, Some o =>
    let rv := fst (set_attributes o t CKR_OK) in
    let store := update_object (objectStore_ s) hObject (fun o => snd (set_attributes o t CKR_OK)) in
    let store := if rv =? CKR_OK then v_reindex store hObject else store in
    (rv, put_session st hSession (with_objects s store))
  | _, _ => (CKR_OBJECT_HANDLE_INVALID, st)
  end.

Definition match_attr (o : HsmObject) (a : CK_ATTRIBUTE) : bool :=
  if has_flag (a_type a) CKF_ARRAY_ATTRIBUTE then true
  else match pValue a with
  | None =>
    let r := v_get_attribute o (a_type a) true (Some 0) in
    (rv r =? CKR_BUFFER_TOO_SMALL) || (rv r =? CKR_OK)
  | Some v =>
    let r := v_get_attribute o (a_type a) (ulValueLen a =? 0) (Some (ulValueLen a)) in
    if negb (rv r =? CKR_OK) then false
    else if negb (default 0 (out_len r) =? ulValueLen a) then false
    else bool_decide (written r = take (Z.to_nat (ulValueLen a)) v)
  end.

Definition match_object (o : HsmObject) (t : list CK_ATTRIBUTE) : bool := forallb (match_attr o) t.

Definition indexed_type (t : Z) : bool := (t =? CKA_CLASS) || (t =? CKA_LABEL) || (t =? CKA_ID).

Definition use_index (t : list CK_ATTRIBUTE) : bool :=
  (0 <? len t) && (len t <=? 3) && forallb (fun a => indexed_type (a_type a)) t.

Definition template_map (t : list CK_ATTRIBUTE) : gmap Z (list byte) :=
  fold_left (fun m a => <[a_type a := take (Z.to_nat (ulValueLen a)) (default [] (pValue a))]> m) t ∅.

Definition find_results (store : v_ObjectStore_M1) (t : list CK_ATTRIBUTE) : list Z :=
  if use_index t then v_find_all_by_attributes store (template_map t)
  else List.filter (fun h => match v_get_object store h with
                             | Some o => match_object o t
                             | None => false
                             end) (v_all_handles store).

Definition C_FindObjectsInit (st : P11) (hSession : Z) (t : list CK_ATTRIBUTE) : CK_RV * P11 :=
  if negb (g_initialized st) then (CKR_CRYPTOKI_NOT_INITIALIZED, st)
  else match p11_get_session st hSession with
  | None => (CKR_SESSION_HANDLE_INVALID, st)
  | Some s =>
    if hasFindResults s || findActive_ (find_ s) then (CKR_OPERATION_ACTIVE, st)
    else (CKR_OK, put_session st hSession (setFindResults s (find_results (objectStore_ s) t)))
  end.

(** The code, the handles written at [phObject] and the state. *)
Definition C_FindObjects (st : P11) (hSession ulMaxObjectCount : Z) (pulObjectCount_null : bool)
    : CK_RV * list Z * P11 :=
  if pulObjectCount_null then (CKR_ARGUMENTS_BAD, [], st)
  else match p11_get_session st hSession with
  | None => (CKR_SESSION_HANDLE_INVALID, [], st)
  | Some s =>
    if negb (findActive_ (find_ s)) then (CKR_OPERATION_NOT_INITIALIZED, [], st)
    else let (out, s) := findNextBatch s ulMaxObjectCount in (CKR_OK, out, put_session st hSession s)
  end.

Definition C_FindObjectsFinal (st : P11) (hSession : Z) : CK_RV * P11 :=
  match p11_get_session st hSession with
  | None => (CKR_SESSION_HANDLE_INVALID, st)
  | Some s => (CKR_OK, put_session st hSession (clearFindResults s))
  end.

(** ** Frame lemmas *)

Definition wf_p11 (st : P11) : Prop := SessMgr.wf_manager (g_sessionManager st).

Lemma get_session_handle st h s : p11_get_session st h = Some s -> handle_ s = h.
Proof. intros H. by apply SessMgr.get_in in H as [_ ?]. Qed.

Lemma get_put_session st h s h' :
  wf_p11 st -> handle_ s = h ->
  wf_p11 (put_session st h s) /\
  p11_get_session (put_session st h s) h' =
    if h' =? h then option_map (fun _ => s) (p11_get_session st h) else p11_get_session st h'.
Proof.
  intros Hwf Hs. destruct (SessMgr.update_spec (g_sessionManager st) h (fun _ => s) Hwf) as [H1 H2];
    [done|]. split; [done|]. apply H2.
Qed.

(** The session calls only ever store a successor of the session they read. *)
Lemma put_back st h s s' h' :
  wf_p11 st -> p11_get_session st h = Some s -> handle_ s' = handle_ s ->
  wf_p11 (put_session st h s') /\
  p11_get_session (put_session st h s') h' = if h' =? h then Some s' else p11_get_session st h'.
Proof.
  intros Hwf Hg Hh. pose proof (get_session_handle _ _ _ Hg) as <-.
  destruct (get_put_session st (handle_ s) s' h' Hwf Hh) as [H1 H2]. split; [done|].
  rewrite H2, Hg. done.
Qed.

Lemma get_put_token st i t id :
  p11_get_token (put_token st i t) id =
  if id =? i then match p11_get_slot st i with Some _ => Some t | None => None end
  else p11_get_token st id.
Proof.
  unfold p11_get_token, p11_get_slot, Slots.v_get_slot, put_token. cbn [with_slots g_slotManager Slots.v_slots_].
  destruct (Z.eqb_spec id i) as [->|Hne].
  - rewrite lookup_alter_eq. by destruct (Slots.v_slots_ _ !! i).
  - by rewrite lookup_alter_ne.
Qed.

(** *** Login *)

Definition role_for (ut : Z) : Role := if ut =? CKU_SO then SO else User.

Lemma user_type_role ut : (ut =? CKU_USER) || (ut =? CKU_SO) = true -> user_type (role_for ut) = ut.
Proof.
  unfold role_for. destruct (Z.eqb_spec ut CKU_SO) as [->|]; [done|].
  rewrite orb_false_r. intros H. by bool_to_prop.
Qed.

Lemma valid_type_test ut :
  (ut =? CKU_USER) || (ut =? CKU_SO) = true -> negb (ut =? CKU_USER) && negb (ut =? CKU_SO) = false.
Proof. by destruct (ut =? CKU_USER), (ut =? CKU_SO). Qed.

Lemma token_login_spec now t ut p n :
  wf_token t -> wf_ptr p n -> (ut =? CKU_USER) || (ut =? CKU_SO) = true ->
  null_with_length p n = false ->
  exists t', Token.login now t ut p n =
    (fst (a_verify (not_init_code (role_for ut)) (v_max_failed_attempts_ t)
            (abs_role (role_of t (role_for ut))) (bytes_at p)), t') /\
    wf_token t' /\
    abs_role (role_of t' (role_for ut)) =
      snd (a_verify (not_init_code (role_for ut)) (v_max_failed_attempts_ t)
             (abs_role (role_of t (role_for ut))) (bytes_at p)) /\
    v_object_store_ t' = v_object_store_ t /\ v_max_failed_attempts_ t' = v_max_failed_attempts_ t.
Proof.
  intros Hwf Hp Hut Hn.
  destruct (pin_step_ok now t (OLogin (role_for ut) p n) Hwf Hp) as (rv & t' & Hs & [Hwf' Hmax Hrole Hst _]).
  cbn [pin_step] in Hs. rewrite user_type_role in Hs by done.
  destruct (Token.login now t ut p n) as [x y]. injection Hs as -> ->.
  exists t'. specialize (Hrole (role_for ut)). cbn [concerns] in Hrole.
  rewrite bool_decide_true in Hrole by done. cbn [spec_role abs a_role a_max] in Hrole.
  rewrite Hn in Hrole. by rewrite Hrole.
Qed.

Lemma a_verify_ok ni max a c :
  fst (a_verify ni max a c) = CKR_OK -> ni <> CKR_OK ->
  a_locked a = false /\ a_pin a = Some c.
Proof.
  unfold a_verify. destruct (a_locked a); [done|]. destruct (a_pin a) as [p|]; [|done].
  destruct (bool_decide_reflect (c = p)) as [->|]; [done|]. by destruct (_ <=? _).
Qed.

(** C1: A session is logged in exactly when it should be: with a valid session
    handle and argument pointer, [C_Login] answers [CKR_OK] if and only if the
    session was not logged in, the PIN of that role is set, is not locked and is
    byte for byte the PIN given, and a locked page could be had; the session is then in the state of that role,
    and no other session has changed. *)
Theorem login_exactly_with_pin (now : Z) (st : P11) (h ut : Z) (pin : option (list byte)) (n : Z) (sink_ok : bool)
    (s : Session) (tok : v_TokenCore_M1) (a : Auth)
    (Hinit : g_initialized st = true) (Hwf : wf_p11 st) (Hs : p11_get_session st h = Some s)
    (Ha : in_state s a) (Htok : p11_get_token st (slotID_ s) = Some tok) (Hwt : wf_token tok)
    (Hp : wf_ptr pin n) (Hn : null_with_length pin n = false)
    (Hut : (ut =? CKU_USER) || (ut =? CKU_SO) = true) :
  let '(rv, _, st') := C_Login now st h ut pin n sink_ok in
  (rv = CKR_OK <->
   a = Public /\ a_locked (abs_role (role_of tok (role_for ut))) = false /\
   a_pin (abs_role (role_of tok (role_for ut))) = Some (bytes_at pin) /\ sink_ok = true) /\
  (rv = CKR_OK -> exists s', p11_get_session st' h = Some s' /\ in_state s' (LoggedIn (role_for ut))) /\
  (forall h', h' <> h -> p11_get_session st' h' = p11_get_session st h').
Proof.
  unfold C_Login. rewrite Hinit, valid_type_test by done. cbn [negb].
  unfold p11_get_token_for_session. rewrite Hs, Htok.
  destruct (token_login_spec now tok ut pin n Hwt Hp Hut Hn) as (tok' & -> & _ & _).
  set (v := a_verify _ _ _ _).
  destruct (Z.eqb_spec (fst v) CKR_OK) as [E|E].
  - apply a_verify_ok in E as [El Ep]; [|by destruct (role_for ut)].
    destruct sink_ok; cbn [negb]; [|split_and!; [split; [done|by intros (_ & _ & _ & [=])]|done|done]].
    pose proof (sess_login_spec s a ut Ha) as [H1 H2].
    destruct (Sess.login s ut) as [rv s'] eqn:El2. cbn [fst snd] in *. subst rv.
    set (st1 := with_throttle _ _).
    assert (Hh : handle_ s' = handle_ s).
    { replace s' with (sess_step s (SLogin ut)); [apply SessMgr.sess_step_handle|].
      cbn [sess_step]. by rewrite El2. }
    assert (Hput : forall h', p11_get_session (put_session st1 h s') h' =
      if h' =? h then Some s' else p11_get_session st h').
    { intros h'. destruct (put_back st1 h s s' h' Hwf Hs Hh) as [_ ->]. done. }
    split_and!.
    + destruct a; [|split; [done|by intros []]]. by rewrite Hut.
    + intros Hok. exists s'. rewrite Hput, Z.eqb_refl. split; [done|]. destruct a; [|done].
      cbn [next_auth] in H2. unfold role_for. apply orb_true_iff in Hut as [Hu|Hu]; bool_to_prop; by subst ut.
    + intros h' Hne. by rewrite Hput, (proj2 (Z.eqb_neq _ _) Hne).
  - split_and!; [|done|by intros h' _; destruct (negb _ && _)].
    split; [done|]. intros (-> & El & Ep & _). destruct E. unfold v, a_verify. rewrite El, Ep.
    by rewrite bool_decide_true.
Qed.

(** A module with one slot, the token of [Token.sample_token] (user PIN "1234")
    in it and two read-write sessions. *)
Definition sample_p11 : P11 :=
  let slot := Slots.insert_token (Slots.new_slot 0) sample_token in
  let st := mkP11 true (Slots.mkSlotManager {[ 0 := slot ]} 0) (SessMgr.new_manager 0)
              (Some (Throttle.mkThrottle Throttle.default_policy ∅)) [] in
  let st := snd (C_OpenSession 0 st 0 6 false) in
  snd (C_OpenSession 0 st 0 6 false).

Lemma sample_p11_wf : wf_p11 sample_p11.
Proof.
  pose proof (SessMgr.open_wf 0 (SessMgr.new_manager 0) 0 6 (SessMgr.new_manager_wf 0) ltac:(cbn; lia)) as H.
  destruct (SessMgr.v_open_session 0 (SessMgr.new_manager 0) 0 6) as [[rv h] m] eqn:E.
  destruct H as (_ & _ & Hwf & _ & Hn & _).
  pose proof (SessMgr.open_wf 0 m 0 6 Hwf ltac:(rewrite Hn; cbn; lia)) as H.
  injection E as <- <- <-. apply H.
Qed.

Lemma login_exactly_with_pin_witness :
  let '(rv, _, st') := C_Login 0 sample_p11 1 CKU_USER (Some (bytes_of "1234")) 4 true in
  (rv = CKR_OK <->
   Public = Public /\ a_locked (abs_role (role_of sample_token User)) = false /\
   a_pin (abs_role (role_of sample_token User)) = Some (bytes_of "1234") /\ true = true) /\
  (rv = CKR_OK -> exists s', p11_get_session st' 1 = Some s' /\ in_state s' (LoggedIn User)) /\
  (forall h', h' <> 1 -> p11_get_session st' h' = p11_get_session sample_p11 h').
Proof.
  apply (login_exactly_with_pin 0 sample_p11 1 CKU_USER (Some (bytes_of "1234")) 4 true
           (new_session 1 0 6) sample_token Public).
  - reflexivity.
  - apply sample_p11_wf.
  - reflexivity.
  - split; reflexivity.
  - reflexivity.
  - apply sample_token_wf.
  - by apply (wf_ptr_some (bytes_of "1234")).
  - reflexivity.
  - reflexivity.
Defined.

(** *** The calls of an application *)

(** The session, login, PIN, object and search calls.  The calls of [Crypto], [KeyMgmt]
    and [Lifecycle] are not among them. *)
Inductive Call : Type :=
| COpen (slotID flags : Z) | CClose (h : Z) | CCloseAll (slotID : Z)
| CLogin (h ut : Z) (pin : option (list byte)) (n : Z) (sink_ok : bool) | CLogout (h : Z)
| CInitToken (slotID : Z) (pin : option (list byte)) (n : Z)
| CInitPIN (h : Z) (pin : option (list byte)) (n : Z)
| CSetPIN (h : Z) (old : option (list byte)) (on : Z) (new : option (list byte)) (n : Z)
| CCreate (h : Z) (t : list CK_ATTRIBUTE) | CCopy (h o : Z) (t : list CK_ATTRIBUTE)
| CDestroy (h o : Z) | CSetAttribute (h o : Z) (t : list CK_ATTRIBUTE)
| CFindInit (h : Z) (t : list CK_ATTRIBUTE) | CFind (h max : Z) | CFindFinal (h : Z).

Definition call (now : Z) (st : P11) (c : Call) : P11 :=
  match c with
  | COpen slotID flags => snd (C_OpenSession now st slotID flags false)
  | CClose h => snd (C_CloseSession now st h)
  | CCloseAll slotID => snd (C_CloseAllSessions now st slotID)
  | CLogin h ut pin n sink_ok => snd (C_Login now st h ut pin n sink_ok)
  | CLogout h => snd (C_Logout st h)
  | CInitToken slotID pin n => snd (C_InitToken now st slotID pin n)
  | CInitPIN h pin n => snd (C_InitPIN now st h pin n)
  | CSetPIN h old on new n => snd (C_SetPIN now st h old on new n)
  | CCreate h t => snd (C_CreateObject st h t false)
  | CCopy h o t => snd (C_CopyObject st h o t false)
  | CDestroy h o => snd (C_DestroyObject st h o)
  | CSetAttribute h o t => snd (C_SetAttributeValue st h o t)
  | CFindInit h t => snd (C_FindObjectsInit st h t)
  | CFind h max => snd (C_FindObjects st h max false)
  | CFindFinal h => snd (C_FindObjectsFinal st h)
  end.

(** The session a call acts on. *)
Definition session_of (c : Call) : option Z :=
  match c with
  | COpen _ _ | CCloseAll _ | CInitToken _ _ _ => None
  | CClose h | CLogin h _ _ _ _ | CLogout h | CInitPIN h _ _ | CSetPIN h _ _ _ _ | CCreate h _
  | CCopy h _ _ | CDestroy h _ | CSetAttribute h _ _ | CFindInit h _ | CFind h _ | CFindFinal h => Some h
  end.

(** What a call other than opening and closing does to the sessions: nothing,
    or one session becomes [s']. *)
Definition session_effect (st st' : P11) (h : Z) (s s' : Session) : Prop :=
  handle_ s' = handle_ s /\ g_sessionManager st' = g_sessionManager (put_session st h s').

Lemma create_with_handle s o f t : handle_ (snd (create_with s o f t)) = handle_ s.
Proof.
  unfold create_with. destruct (v_create_object _ _) as [h store]. by destruct (negb _).
Qed.

Lemma logout_handle s : handle_ (snd (Sess.logout s)) = handle_ s.
Proof. apply (SessMgr.sess_step_handle s SLogout). Qed.

Definition open_or_close (c : Call) : bool :=
  match c with COpen _ _ | CClose _ | CCloseAll _ => true | _ => false end.

(** A call that leaves all sessions alone, or changes the session [h]. *)
Definition acts_on (st st' : P11) (h : Z) : Prop :=
  g_sessionManager st' = g_sessionManager st \/
  exists s s', p11_get_session st h = Some s /\ session_effect st st' h s s'.

Ltac find_session st h s := destruct (p11_get_session st h) as [s|] eqn:?; [|by left].
Ltac changed s s' := right; exists s, s'; split; [done|by split].

Lemma login_acts now st h ut pin n sink_ok : acts_on st (snd (C_Login now st h ut pin n sink_ok)) h.
Proof.
  unfold C_Login. destruct (negb _); [by left|]. destruct (negb _ && negb _); [by left|].
  unfold p11_get_token_for_session. find_session st h s.
  destruct (p11_get_token st (slotID_ s)) as [tok|]; [|by left].
  destruct (Token.login _ _ _ _ _) as [rv tok']. destruct (rv =? CKR_OK).
  - destruct (negb sink_ok); [by left|]. pose proof (SessMgr.sess_step_handle s (SLogin ut)) as Hh. cbn [sess_step] in Hh.
    destruct (Sess.login s ut) as [rv' s']. changed s s'.
  - left. by destruct (negb _ && _).
Qed.

Lemma logout_acts st h : acts_on st (snd (C_Logout st h)) h.
Proof.
  unfold C_Logout. destruct (negb _); [by left|]. unfold p11_get_token_for_session. find_session st h s.
  destruct (p11_get_token st (slotID_ s)) as [tok|]; [|by left]. destruct (_ || _); [|by left].
  right. exists s, (clearFindResults (opEnd (snd (Sess.logout s)))).
  split; [done|split; [apply logout_handle|done]].
Qed.

Lemma pin_calls_quiet now st slotID h pin n old on new m :
  g_sessionManager (snd (C_InitToken now st slotID pin n)) = g_sessionManager st /\
  g_sessionManager (snd (C_InitPIN now st h pin n)) = g_sessionManager st /\
  g_sessionManager (snd (C_SetPIN now st h old on new m)) = g_sessionManager st.
Proof.
  unfold C_InitToken, C_InitPIN, C_SetPIN. split_and!.
  - destruct (p11_get_token st slotID); [|done]. destruct (_ && _); [|done].
    by destruct (initialize_so_pin _ _ _ _).
  - destruct (p11_get_token_for_session st h), (p11_get_session st h); try done.
    destruct (bool_decide _); [done|]. by destruct (initialize_user_pin _ _ _ _).
  - destruct (p11_get_token_for_session st h), (p11_get_session st h); try done. destruct (bool_decide _); [done|].
    destruct (_ && _); [by destruct (change_user_pin _ _ _ _ _ _)|by destruct (set_user_pin _ _ _ _ _ _)].
Qed.

Lemma create_acts st h t : acts_on st (snd (C_CreateObject st h t false)) h.
Proof.
  unfold C_CreateObject. destruct (negb _); [by left|]. find_session st h s.
  destruct (p_class _) as [cls|]; [|by left].
  match goal with |- context [create_with s ?o ?f t] => pose proof (create_with_handle s o f t) as Hh end.
  destruct (create_with _ _ _ _) as [[rv ho] s']. changed s s'.
Qed.

Lemma copy_acts st h o t : acts_on st (snd (C_CopyObject st h o t false)) h.
Proof.
  unfold C_CopyObject. destruct (negb _); [by left|]. find_session st h s.
  destruct (p11_get_object st h o) as [src|]; [|by left]. destruct (sensitive_ src); [by left|].
  match goal with |- context [create_with s ?o ?f t] => pose proof (create_with_handle s o f t) as Hh end.
  destruct (create_with _ _ _ _) as [[rv ho] s']. changed s s'.
Qed.

Lemma object_acts st h o t :
  acts_on st (snd (C_DestroyObject st h o)) h /\ acts_on st (snd (C_SetAttributeValue st h o t)) h.
Proof.
  unfold C_DestroyObject, C_SetAttributeValue. split; (destruct (negb _); [by left|]); find_session st h s.
  - destruct (negb _); [by left|]. destruct (v_destroy_object _ _) as [ok store].
    destruct (negb ok); [by left|]. changed s (with_objects s store).
  - destruct (p11_get_object st h o) as [x|]; [|by left]. right. eexists s, _.
    split; [done|]. split; [|reflexivity]. done.
Qed.

Lemma find_acts st h t max :
  acts_on st (snd (C_FindObjectsInit st h t)) h /\ acts_on st (snd (C_FindObjects st h max false)) h /\
  acts_on st (snd (C_FindObjectsFinal st h)) h.
Proof.
  unfold C_FindObjectsInit, C_FindObjects, C_FindObjectsFinal. split_and!.
  - destruct (negb _); [by left|]. find_session st h s. destruct (_ || _); [by left|].
    right. eexists s, _. split; [done|]. split; [|reflexivity]. done.
  - find_session st h s. destruct (negb _); [by left|].
    pose proof (SessMgr.sess_step_handle s (SNext max)) as Hh. cbn [sess_step] in Hh.
    destruct (findNextBatch s max) as [out s']. changed s s'.
  - find_session st h s. right. eexists s, _. split; [done|]. split; [|reflexivity]. done.
Qed.

Lemma call_effect now st c :
  open_or_close c = false ->
  g_sessionManager (call now st c) = g_sessionManager st \/
  exists h s s', session_of c = Some h /\ p11_get_session st h = Some s /\
    session_effect st (call now st c) h s s'.
Proof.
  assert (Lift : forall st' h, session_of c = Some h -> acts_on st st' h ->
    g_sessionManager st' = g_sessionManager st \/
    exists h s s', session_of c = Some h /\ p11_get_session st h = Some s /\ session_effect st st' h s s').
  { intros st' h Hc [E|(s & s' & Hs & He)]; [by left|]. right. by exists h, s, s'. }
  destruct c as [| | |h ut pin n|h|slotID pin n|h pin n|h old on new n|h t|h o t|h o|h o t|h t|h max|h];
    intros Hoc; try discriminate Hoc; cbn [call].
  all: lazymatch goal with
       | |- context [C_InitToken] => left; apply (pin_calls_quiet now st slotID 0 pin n None 0 None 0)
       | |- context [C_InitPIN] => left; apply (pin_calls_quiet now st 0 h pin n None 0 None 0)
       | |- context [C_SetPIN] => left; apply (pin_calls_quiet now st 0 h None 0 old on new n)
       | _ => apply (Lift _ h eq_refl)
       end.
  all: first [apply login_acts | apply logout_acts | apply create_acts | apply copy_acts
             | apply (object_acts st h o []) | apply (object_acts st h o t)
             | apply (find_acts st h t 0) | apply (find_acts st h [] max) | apply (find_acts st h [] 0)].
Qed.

Lemma call_other now st c h s :
  wf_p11 st -> SessMgr.v_next_session_id_ (g_sessionManager st) + 1 < 2 ^ 64 ->
  p11_get_session st h = Some s ->
  wf_p11 (call now st c) /\
  (session_of c <> Some h -> (forall slotID, c = CCloseAll slotID -> slotID_ s <> slotID) ->
   p11_get_session (call now st c) h = Some s).
Proof.
  intros Hwf Hr Hs. destruct (open_or_close c) eqn:Eoc.
  - destruct c as [slotID flags|h'|slotID| | | | | | | | | | | |]; try discriminate Eoc; cbn [call].
    + unfold C_OpenSession. destruct (negb _); [done|]. destruct (p11_get_slot st slotID); [|done].
      unfold SessMgr.openSession. destruct (negb _); [done|].
      pose proof (SessMgr.open_wf now (g_sessionManager st) slotID flags Hwf Hr) as H.
      destruct (SessMgr.v_open_session _ _ _ _) as [[rv hh] m]. cbn [snd].
      destruct H as (_ & -> & Hwf' & Hn & _ & Hget). split; [done|]. intros _ _.
      unfold p11_get_session. cbn [with_sessions g_sessionManager]. rewrite Hget.
      destruct (Z.eqb_spec h (SessMgr.v_next_session_id_ (g_sessionManager st))) as [->|]; [|done].
      unfold p11_get_session in Hs. congruence.
    + unfold C_CloseSession. destruct (negb _); [done|].
      pose proof (SessMgr.close_spec now (g_sessionManager st) h' Hwf) as H.
      destruct (SessMgr.v_close_session _ _ _) as [rv m]. cbn [snd]. destruct H as (Hwf' & _ & _ & Hget).
      split; [done|]. intros Hne _. cbn [session_of] in Hne. unfold p11_get_session.
      cbn [with_sessions g_sessionManager]. rewrite Hget, (proj2 (Z.eqb_neq h h')); [done|congruence].
    + unfold C_CloseAllSessions. destruct (negb _); [done|].
      pose proof (SessMgr.close_all_spec now (g_sessionManager st) slotID Hwf) as H.
      destruct (SessMgr.v_close_all_sessions _ _ _) as [rv m]. cbn [snd].
      destruct H as (Hwf' & _ & _ & _ & Hget). split; [done|]. intros _ Hslot. unfold p11_get_session.
      cbn [with_sessions g_sessionManager]. rewrite Hget.
      unfold p11_get_session in Hs. rewrite Hs, (proj2 (Z.eqb_neq _ _)); [done|]. by apply Hslot.
  - destruct (call_effect now st c Eoc) as [E|(h' & s0 & s' & Hc & Hg & Hh & E)].
    + unfold wf_p11, p11_get_session. rewrite E. done.
    + destruct (put_back st h' s0 s' h Hwf Hg Hh) as [H1 H2]. unfold wf_p11, p11_get_session in *.
      rewrite E. split; [done|]. intros Hne _. rewrite H2, (proj2 (Z.eqb_neq h h')); [done|congruence].
Qed.

(** C9: Sessions are isolated: a call on one session leaves every other session
    exactly as it was, its objects, its login and its operation included;
    opening a session changes no existing one, and closing all sessions of a
    slot spares those of other slots. *)
Theorem session_isolation (now : Z) (st : P11) (c : Call) (h : Z) (s : Session)
    (Hwf : wf_p11 st) (Hs : p11_get_session st h = Some s)
    (Hroom : SessMgr.v_next_session_id_ (g_sessionManager st) + 1 < 2 ^ 64)
    (Hother : session_of c <> Some h)
    (Hslot : forall slotID, c = CCloseAll slotID -> slotID_ s <> slotID) :
  p11_get_session (call now st c) h = Some s /\ wf_p11 (call now st c).
Proof. by destruct (call_other now st c h s Hwf Hroom Hs) as [H1 H2]; auto. Qed.

Lemma session_isolation_witness :
  p11_get_session (call 0 sample_p11 (CLogin 2 CKU_USER (Some (bytes_of "1234")) 4 true)) 1
    = Some (new_session 1 0 6) /\
  wf_p11 (call 0 sample_p11 (CLogin 2 CKU_USER (Some (bytes_of "1234")) 4 true)).
Proof.
  apply (session_isolation 0 sample_p11 _ 1 (new_session 1 0 6)).
  - apply sample_p11_wf.
  - reflexivity.
  - vm_compute. reflexivity.
  - discriminate.
  - discriminate.
Defined.

(** *** Sensitive objects *)

(** The object behind [o] is there and sensitive. *)
Definition holds_sensitive (store : v_ObjectStore_M1) (o : Z) : Prop :=
  wf_store store /\ exists x, v_get_object store o = Some x /\ sensitive_ x = true.

Definition creates_object (c : Call) : Z := match c with CCreate _ _ | CCopy _ _ _ => 1 | _ => 0 end.

(** Calls whose object handles are 64-bit. *)
Definition wf_call (c : Call) : Prop :=
  match c with CCopy _ o _ | CDestroy _ o | CSetAttribute _ o _ => is_u64 o | _ => True end.

Lemma set_attributes_sensitive t o acc :
  sensitive_ o = true -> sensitive_ (snd (set_attributes o t acc)) = true.
Proof.
  revert o acc. induction t as [|a t IH]; intros o acc Ho; [done|]. cbn [set_attributes].
  pose proof (v_set_attribute_frame o (Some a)) as (_ & H & _).
  destruct (v_set_attribute o (Some a)) as [r o']. apply IH, H, Ho.
Qed.

Lemma update_other store o h f :
  is_u64 o -> is_u64 h -> o <> h -> holds_sensitive store o ->
  holds_sensitive (update_object store h f) o.
Proof.
  intros Ho Hh Hne [Hwf (x & Hx & Hsx)]. destruct (update_get store h f Hwf Hh) as [Hwf' Hget].
  split; [done|]. exists x. by rewrite Hget, (proj2 (Z.eqb_neq _ _) Hne).
Qed.

Lemma create_with_keeps s fresh f t o :
  is_u64 o -> len (v_table_ (objectStore_ s)) < UINT32_MAX -> holds_sensitive (objectStore_ s) o ->
  let s' := snd (create_with s fresh f t) in
  holds_sensitive (objectStore_ s') o /\
  len (v_table_ (objectStore_ s')) <= len (v_table_ (objectStore_ s)) + 1.
Proof.
  intros Ho Hroom (Hwf & x & Hx & Hsx). unfold create_with.
  pose proof (create_get (objectStore_ s) fresh Hwf (room_from_len _ Hroom)) as Hc.
  pose proof (table_length_step (objectStore_ s) (OpCreate fresh)) as L1. cbn [step op_creates] in L1.
  destruct (v_create_object (objectStore_ s) fresh) as [h st1]. cbn [snd] in L1.
  destruct Hc as (Hwf1 & Hh & Hnone & Hget).
  assert (Hne : o <> h) by congruence.
  assert (H1 : holds_sensitive st1 o).
  { split; [done|]. exists x. by rewrite Hget, (proj2 (Z.eqb_neq _ _) Hne). }
  pose proof (update_other _ _ _ f Ho Hh Hne H1) as H2.
  pose proof (table_length_step st1 (OpUpdate h f)) as L2. cbn [step op_creates] in L2.
  set (st2 := update_object st1 h f) in *. set (g := fun o0 : HsmObject => _).
  pose proof (update_other _ _ _ g Ho Hh Hne H2) as H3.
  pose proof (table_length_step st2 (OpUpdate h g)) as L3. cbn [step op_creates] in L3.
  set (st3 := update_object st2 h g) in *.
  destruct (negb _); cbn [snd with_objects objectStore_]; [|split; [done|lia]].
  destruct H3 as [Hwf3 (y & Hy & Hsy)]. pose proof (destroy_get st3 h Hwf3 Hh) as Hd.
  pose proof (table_length_step st3 (OpDestroy h)) as L4. cbn [step op_creates] in L4.
  destruct (v_destroy_object st3 h) as [b st4]. cbn [snd] in *. destruct Hd as (Hwf4 & _ & Hget4).
  split; [|lia]. split; [done|]. exists y. by rewrite Hget4, (proj2 (Z.eqb_neq _ _) Hne).
Qed.

Lemma set_attribute_keeps s o o' t :
  is_u64 o -> is_u64 o' -> holds_sensitive (objectStore_ s) o ->
  let f x := snd (set_attributes x t CKR_OK) in
  forall b, let store := update_object (objectStore_ s) o' f in
  let store := if b : bool then v_reindex store o' else store in
  holds_sensitive store o /\ len (v_table_ store) <= len (v_table_ (objectStore_ s)).
Proof.
  intros Ho Ho' (Hwf & x & Hx & Hsx) f b. cbv zeta.
  destruct (update_get (objectStore_ s) o' f Hwf Ho') as [Hwf' Hget].
  pose proof (table_length_step (objectStore_ s) (OpUpdate o' f)) as L. cbn [step op_creates] in L.
  set (st1 := update_object _ o' f) in *.
  assert (H1 : holds_sensitive st1 o).
  { split; [done|]. rewrite Hget by done. destruct (Z.eqb_spec o o') as [<-|]; [|by exists x].
    rewrite Hx. eexists. split; [done|]. by apply set_attributes_sensitive. }
  destruct b; [|split; [done|lia]]. destruct (reindex_table st1 o') as [Ht _]. rewrite Ht.
  split; [|lia]. split; [by apply reindex_wf|]. destruct H1 as [_ (y & Hy & Hsy)]. exists y.
  split; [|done]. unfold v_get_object, lookup_handle, entry_at in *. by rewrite Ht.
Qed.

(** The sensitive object survives in session [h], whose table grew by at most
    [n]. *)
Definition kept (st' : P11) (h : Z) (s : Session) (o n : Z) : Prop :=
  exists s', p11_get_session st' h = Some s' /\ slotID_ s' = slotID_ s /\
    holds_sensitive (objectStore_ s') o /\
    len (v_table_ (objectStore_ s')) <= len (v_table_ (objectStore_ s)) + n.

Section Keeps.
Context (st : P11) (h : Z) (s : Session) (o : Z).
Hypotheses (Hwf : wf_p11 st) (Hs : p11_get_session st h = Some s) (Ho : is_u64 o)
  (Hh : holds_sensitive (objectStore_ s) o).

Lemma kept_same st' n :
  g_sessionManager st' = g_sessionManager st -> 0 <= n -> kept st' h s o n.
Proof. intros E H0. exists s. unfold p11_get_session. rewrite E. split_and!; [done..|lia]. Qed.

Lemma kept_put st' s' n :
  g_sessionManager st' = g_sessionManager (put_session st h s') ->
  handle_ s' = handle_ s -> slotID_ s' = slotID_ s -> holds_sensitive (objectStore_ s') o ->
  len (v_table_ (objectStore_ s')) <= len (v_table_ (objectStore_ s)) + n -> kept st' h s o n.
Proof.
  intros E Hhd Hsl Hk Hl. exists s'. destruct (put_back st h s s' h Hwf Hs Hhd) as [_ H].
  unfold p11_get_session in *. rewrite E, H, Z.eqb_refl. done.
Qed.

(** A call that stores a session with the same objects. *)
Lemma kept_quiet st' s' :
  g_sessionManager st' = g_sessionManager (put_session st h s') ->
  handle_ s' = handle_ s -> slotID_ s' = slotID_ s -> objectStore_ s' = objectStore_ s ->
  kept st' h s o 0.
Proof. intros E H1 H2 H3. apply (kept_put _ s'); [done..| |]; rewrite H3; [done|lia]. Qed.

Lemma login_kept now ut pin n sink_ok : kept (snd (C_Login now st h ut pin n sink_ok)) h s o 0.
Proof.
  unfold C_Login. destruct (negb _); [by apply kept_same|].
  destruct (negb _ && negb _); [by apply kept_same|]. unfold p11_get_token_for_session. rewrite Hs.
  destruct (p11_get_token st (slotID_ s)) as [tok|]; [|by apply kept_same].
  destruct (Token.login _ _ _ _ _) as [rv tok']. destruct (rv =? CKR_OK).
  - destruct (negb sink_ok); [by apply kept_same|]. unfold Sess.login. destruct (logged_in _); [by eapply kept_quiet|].
    destruct (_ && _); by eapply kept_quiet.
  - apply kept_same; [|done]. by destruct (negb _ && _).
Qed.

Lemma logout_kept : kept (snd (C_Logout st h)) h s o 0.
Proof.
  unfold C_Logout. destruct (negb _); [by apply kept_same|]. unfold p11_get_token_for_session.
  rewrite Hs. destruct (p11_get_token st (slotID_ s)) as [tok|]; [|by apply kept_same].
  destruct (_ || _); [|by apply kept_same]. eapply kept_quiet; [reflexivity|apply logout_handle|..];
    unfold Sess.logout; destruct (_ || _); try done; cbn [with_login operationInitialized_];
    by destruct (operationInitialized_ s).
Qed.

Lemma pin_kept now pin n old on new m :
  kept (snd (C_InitPIN now st h pin n)) h s o 0 /\
  kept (snd (C_SetPIN now st h old on new m)) h s o 0.
Proof.
  unfold C_InitPIN, C_SetPIN, p11_get_token_for_session. rewrite Hs.
  destruct (p11_get_token st (slotID_ s)); [|split; by apply kept_same]. split.
  - destruct (bool_decide _); [by apply kept_same|].
    destruct (initialize_user_pin _ _ _ _). by apply kept_same.
  - destruct (bool_decide _); [by apply kept_same|].
    destruct (_ && _); [destruct (change_user_pin _ _ _ _ _ _)|destruct (set_user_pin _ _ _ _ _ _)];
      by apply kept_same.
Qed.

Lemma create_with_kept fresh f t :
  len (v_table_ (objectStore_ s)) < UINT32_MAX ->
  kept (put_session st h (snd (create_with s fresh f t))) h s o 1.
Proof.
  intros Hroom. destruct (create_with_keeps s fresh f t o Ho Hroom Hh) as [K1 K2].
  eapply kept_put; [reflexivity|apply create_with_handle| |done..].
  unfold create_with. destruct (v_create_object _ _). by destruct (negb _).
Qed.

Lemma create_kept t :
  len (v_table_ (objectStore_ s)) < UINT32_MAX ->
  kept (snd (C_CreateObject st h t false)) h s o 1.
Proof.
  intros Hroom. unfold C_CreateObject. destruct (negb _); [by apply kept_same|]. rewrite Hs.
  destruct (p_class _) as [cls|]; [|by apply kept_same]. set (fresh := new_object _ _ _ _ _).
  pose proof (create_with_kept fresh (fun x => x) t Hroom) as H.
  by destruct (create_with s fresh _ t) as [[rv ho] s'].
Qed.

Lemma copy_kept o' t :
  len (v_table_ (objectStore_ s)) < UINT32_MAX ->
  kept (snd (C_CopyObject st h o' t false)) h s o 1.
Proof.
  intros Hroom. unfold C_CopyObject. destruct (negb _); [by apply kept_same|]. rewrite Hs.
  destruct (p11_get_object st h o') as [src|]; [|by apply kept_same].
  destruct (sensitive_ src) eqn:E; [by apply kept_same|]. set (fresh := new_object _ _ _ _ _).
  pose proof (create_with_kept fresh (copy_material src) t Hroom) as H.
  by destruct (create_with s fresh _ t) as [[rv ho] s'].
Qed.

Lemma destroy_kept o' : is_u64 o' -> o' <> o -> kept (snd (C_DestroyObject st h o')) h s o 0.
Proof.
  intros Ho' Hne. unfold C_DestroyObject. destruct (negb _); [by apply kept_same|]. rewrite Hs.
  destruct (negb _); [by apply kept_same|]. destruct Hh as [Hws (x & Hx & Hsx)].
  pose proof (destroy_get (objectStore_ s) o' Hws Ho') as Hd.
  pose proof (table_length_step (objectStore_ s) (OpDestroy o')) as L. cbn [step op_creates] in L.
  destruct (v_destroy_object _ _) as [ok store]. destruct Hd as (Hws' & _ & Hget). cbn [snd] in L.
  destruct (negb ok); [by apply kept_same|]. apply (kept_put _ (with_objects s store)); [done..| |cbn; lia].
  split; [done|]. exists x. cbn [with_objects objectStore_]. rewrite Hget by done.
  rewrite (proj2 (Z.eqb_neq o o')); [done|congruence].
Qed.

Lemma set_kept o' t : is_u64 o' -> kept (snd (C_SetAttributeValue st h o' t)) h s o 0.
Proof.
  intros Ho'. unfold C_SetAttributeValue. destruct (negb _); [by apply kept_same|]. rewrite Hs.
  destruct (p11_get_object st h o') as [x|]; [|by apply kept_same].
  destruct (set_attribute_keeps s o o' t Ho Ho' Hh (fst (set_attributes x t CKR_OK) =? CKR_OK)) as [K1 K2].
  eapply kept_put; [reflexivity|done|done|exact K1|]. cbn [with_objects objectStore_]. lia.
Qed.

Lemma find_kept t max :
  kept (snd (C_FindObjectsInit st h t)) h s o 0 /\
  kept (snd (C_FindObjects st h max false)) h s o 0 /\
  kept (snd (C_FindObjectsFinal st h)) h s o 0.
Proof.
  unfold C_FindObjectsInit, C_FindObjects, C_FindObjectsFinal. rewrite Hs. split_and!.
  - destruct (negb _); [by apply kept_same|]. destruct (_ || _); [by apply kept_same|].
    by eapply kept_quiet.
  - destruct (negb _); [by apply kept_same|]. unfold findNextBatch.
    destruct (batch_loop _ _ _ _ _) as [out pos]. by eapply kept_quiet.
  - by eapply kept_quiet.
Qed.

(** What a call that acts on a session does to the objects of that session. *)
Lemma call_keeps now c :
  session_of c = Some h -> open_or_close c = false -> wf_call c -> c <> CDestroy h o ->
  len (v_table_ (objectStore_ s)) + creates_object c <= UINT32_MAX ->
  kept (call now st c) h s o (creates_object c).
Proof.
  intros Hc Hoc Hwc Hnd Hroom.
  destruct c; try discriminate Hoc; try discriminate Hc; injection Hc as ->;
    cbn [call creates_object wf_call] in *.
  - apply login_kept.
  - apply logout_kept.
  - by apply (pin_kept now pin n None 0 None 0).
  - by apply (pin_kept now None 0 old on new n).
  - apply create_kept. lia.
  - apply copy_kept. lia.
  - apply destroy_kept; [done|congruence].
  - by apply set_kept.
  - by apply (find_kept t 0).
  - by apply (find_kept [] max).
  - by apply (find_kept [] 0).
Qed.

End Keeps.

Definition opens_session (c : Call) : Z := match c with COpen _ _ => 1 | _ => 0 end.

Definition sum_over (f : Call -> Z) (cs : list Call) : Z := foldr (fun c n => f c + n) 0 cs.

Lemma sum_nonneg f cs : (forall c, 0 <= f c) -> 0 <= sum_over f cs.
Proof. intros H. unfold sum_over. induction cs as [|c cs IH]; cbn [foldr]; [lia|]. specialize (H c). lia. Qed.

Lemma opens_session_nonneg c : 0 <= opens_session c.
Proof. by destruct c. Qed.

Lemma creates_object_nonneg c : 0 <= creates_object c.
Proof. by destruct c. Qed.

Lemma call_next_id now st c :
  wf_p11 st -> SessMgr.v_next_session_id_ (g_sessionManager st) + 1 < 2 ^ 64 ->
  SessMgr.v_next_session_id_ (g_sessionManager (call now st c))
    <= SessMgr.v_next_session_id_ (g_sessionManager st) + opens_session c.
Proof.
  intros Hwf Hr. destruct (open_or_close c) eqn:Eoc.
  - destruct c as [slotID flags|h|slotID| | | | | | | | | | | |]; try discriminate Eoc;
      cbn [call opens_session].
    + unfold C_OpenSession. destruct (negb _); [cbn; lia|]. destruct (p11_get_slot st slotID); [|cbn; lia].
      unfold SessMgr.openSession. destruct (negb _); [cbn; lia|].
      pose proof (SessMgr.open_wf now (g_sessionManager st) slotID flags Hwf Hr) as H.
      destruct (SessMgr.v_open_session _ _ _ _) as [[rv hh] m]. cbn [snd with_sessions g_sessionManager].
      destruct H as (_ & _ & _ & _ & -> & _). lia.
    + unfold C_CloseSession. destruct (negb _); [cbn; lia|].
      unfold SessMgr.v_close_session. destruct (SessMgr.erase_handle _ _); cbn; lia.
    + unfold C_CloseAllSessions. destruct (negb _); cbn; lia.
  - pose proof (opens_session_nonneg c).
    destruct (call_effect now st c Eoc) as [->|(h & s & s' & _ & _ & _ & ->)]; [lia|]. cbn. lia.
Qed.

Lemma call_initialized now st c : g_initialized (call now st c) = g_initialized st.
Proof.
  destruct c; cbn [call]; unfold C_OpenSession, C_CloseSession, C_CloseAllSessions, C_Login, C_Logout,
    C_InitToken, C_InitPIN, C_SetPIN, C_CreateObject, C_CopyObject, C_DestroyObject,
    C_SetAttributeValue, C_FindObjectsInit, C_FindObjects, C_FindObjectsFinal;
    repeat case_match; simplify_eq; done.
Qed.

(** Calls that leave session [h] of slot [slot] open and its object [o] undestroyed. *)
Definition spares (h slot o : Z) (c : Call) : Prop :=
  c <> CDestroy h o /\ c <> CClose h /\ c <> CCloseAll slot.

Lemma call_spared now st c h s o :
  wf_p11 st -> SessMgr.v_next_session_id_ (g_sessionManager st) + 1 < 2 ^ 64 ->
  p11_get_session st h = Some s -> is_u64 o -> wf_call c -> spares h (slotID_ s) o c ->
  len (v_table_ (objectStore_ s)) + creates_object c <= UINT32_MAX ->
  holds_sensitive (objectStore_ s) o ->
  wf_p11 (call now st c) /\ kept (call now st c) h s o (creates_object c).
Proof.
  intros Hwf Hr Hs Ho Hwc (Hd & Hc & Hca) Hroom Hh.
  destruct (call_other now st c h s Hwf Hr Hs) as [Hwf' Hoth]. split; [done|].
  destruct (decide (session_of c = Some h)) as [E|E].
  - apply call_keeps; try done. destruct c; try done; cbn [session_of] in E; congruence.
  - exists s. pose proof (creates_object_nonneg c).
    split_and!; [|done..|lia]. apply Hoth; [done|]. intros slotID -> <-. done.
Qed.

Lemma calls_spared now cs st h s o :
  wf_p11 st -> SessMgr.v_next_session_id_ (g_sessionManager st) + sum_over opens_session cs + 1 < 2 ^ 64 ->
  p11_get_session st h = Some s -> is_u64 o -> Forall wf_call cs -> Forall (spares h (slotID_ s) o) cs ->
  len (v_table_ (objectStore_ s)) + sum_over creates_object cs <= UINT32_MAX ->
  holds_sensitive (objectStore_ s) o ->
  exists s', p11_get_session (fold_left (call now) cs st) h = Some s' /\
    holds_sensitive (objectStore_ s') o.
Proof.
  revert st s. induction cs as [|c cs IH]; intros st s Hwf Hr Hs Ho Hwc Hsp Hroom Hh; [eauto|].
  apply list.Forall_cons in Hwc as [Hc Hwc], Hsp as [Hspc Hsp].
  pose proof (sum_nonneg opens_session cs opens_session_nonneg) as N1.
  pose proof (sum_nonneg creates_object cs creates_object_nonneg) as N2.
  pose proof (opens_session_nonneg c). pose proof (creates_object_nonneg c).
  unfold sum_over in Hr, Hroom. cbn [foldr] in Hr, Hroom.
  fold (sum_over opens_session cs) in Hr. fold (sum_over creates_object cs) in Hroom.
  destruct (call_spared now st c h s o) as [Hwf' (s1 & Hs1 & Hsl & Hh1 & Hl1)]; try done; [lia..|].
  pose proof (call_next_id now st c Hwf ltac:(lia)).
  cbn [fold_left]. apply (IH _ s1); try done; [lia|by rewrite Hsl|lia].
Qed.

(** A result that gives nothing away, not even a length. *)
Definition withheld : GetResult := mkGet CKR_ATTRIBUTE_SENSITIVE (Some CK_UNAVAILABLE_INFORMATION) [].

Lemma combine_error rs acc :
  (exists g, g ∈ rs /\ rv g = CKR_ATTRIBUTE_SENSITIVE) \/ (acc <> CKR_OK /\ acc <> CKR_BUFFER_TOO_SMALL) ->
  let r := fold_left (fun acc g => combine_rv acc (rv g)) rs acc in r <> CKR_OK /\ r <> CKR_BUFFER_TOO_SMALL.
Proof.
  revert acc. induction rs as [|x rs IH]; intros acc H; cbn [fold_left].
  { destruct H as [(g & Hg%elem_of_nil & _)|H]; done. }
  apply IH. unfold combine_rv. destruct H as [(g & [->|Hg]%elem_of_cons & Hv)|H].
  - right. by rewrite Hv.
  - left. eauto.
  - right. destruct (Z.eqb_spec (rv x) CKR_OK), (Z.eqb_spec (rv x) CKR_BUFFER_TOO_SMALL); cbn [negb andb]; first [exact H|by split; congruence].
Qed.

(** What a template that asks for the value of a sensitive object gets. *)
Lemma template_withheld o t :
  sensitive_ o = true ->
  (forall i a, t !! i = Some a -> a_type a = CKA_VALUE -> map (p11_get_attr o) t !! i = Some withheld) /\
  ((exists a, a ∈ t /\ a_type a = CKA_VALUE) -> exists g, g ∈ map (p11_get_attr o) t /\ rv g = CKR_ATTRIBUTE_SENSITIVE).
Proof.
  intros Hs. assert (Hv : forall a, a_type a = CKA_VALUE -> p11_get_attr o a = withheld).
  { intros a Ha. unfold p11_get_attr. rewrite Ha. by apply get_value_sensitive. }
  split.
  - intros i a Hi Ha. rewrite list_lookup_fmap, Hi. exact (f_equal Some (Hv a Ha)).
  - intros (a & Hin & Ha). exists withheld. split; [|done]. rewrite <- (Hv a Ha). by apply list_elem_of_fmap_2.
Qed.

(** C4: The object interface does not give the value of a sensitive object away: as long
    as the module is initialized, whatever sequence of session, login, PIN, object
    and search calls an application makes, short of destroying the object or closing its
    session, every template that asks [C_GetAttributeValue] for [CKA_VALUE] gets an error,
    and at each entry for it no byte and no length, whatever else it asks for; and the
    object cannot be copied.  (Wrapping, by which an extractable key leaves, is another
    interface.) *)
Theorem sensitive_value_never_read (now : Z) (cs : list Call) (st : P11) (h : Z) (s : Session) (o : Z)
    (Hinit : g_initialized st = true) (Hwf : wf_p11 st)
    (Hids : SessMgr.v_next_session_id_ (g_sessionManager st) + sum_over opens_session cs + 1 < 2 ^ 64)
    (Hs : p11_get_session st h = Some s) (Ho : is_u64 o)
    (Hcalls : Forall wf_call cs) (Hspare : Forall (spares h (slotID_ s) o) cs)
    (Hroom : len (v_table_ (objectStore_ s)) + sum_over creates_object cs <= UINT32_MAX)
    (Hsens : holds_sensitive (objectStore_ s) o) :
  let st' := fold_left (call now) cs st in
  (forall t, (exists a, a ∈ t /\ a_type a = CKA_VALUE) ->
     let (rv, rs) := C_GetAttributeValue st' h o t in
     rv <> CKR_OK /\ rv <> CKR_BUFFER_TOO_SMALL /\ (len t = 1 -> rv = CKR_ATTRIBUTE_SENSITIVE) /\
     forall i a, t !! i = Some a -> a_type a = CKA_VALUE -> rs !! i = Some withheld) /\
  (forall t, C_CopyObject st' h o t false = (CKR_ACTION_PROHIBITED, None, st')).
Proof.
  destruct (calls_spared now cs st h s o) as (s' & Hs' & Hwf' & x & Hx & Hsx); try done.
  intros st'. fold st' in Hs'.
  assert (Hi : g_initialized st' = true).
  { unfold st'. clear -Hinit. revert st Hinit. induction cs as [|c cs IH]; intros st Hi; [done|].
    cbn [fold_left]. apply IH. by rewrite call_initialized. }
  split.
  - intros t Ht. unfold C_GetAttributeValue, p11_get_object. rewrite Hi, Hs', Hx. cbn [negb].
    destruct (template_withheld x t Hsx) as [H1 H2]. destruct (combine_error (map (p11_get_attr x) t) CKR_OK) as [H3 H4]; [left; by apply H2|].
    split_and!; [done..| |exact H1]. intros Hl. destruct t as [|a [|b t]]; [done| |exfalso; rewrite !len_cons in Hl; pose proof (len_nonneg t); lia].
    destruct Ht as (a' & ->%list_elem_of_singleton & Ha). assert (E : p11_get_attr x a = withheld) by (injection (H1 0%nat a eq_refl Ha); done).
    cbn [map fold_left]. by rewrite E.
  - intros t. unfold C_CopyObject, p11_get_object. by rewrite Hi, Hs', Hx, Hsx.
Qed.

(** *** Creation *)

Lemma create_with_ok s fresh f t rv h s' :
  wf_store (objectStore_ s) -> has_room (objectStore_ s) ->
  create_with s fresh f t = (rv, Some h, s') ->
  rv = CKR_OK /\ fst (p11_apply_template (f fresh) t) = CKR_OK /\
  is_u64 h /\ v_get_object (objectStore_ s) h = None /\ wf_store (objectStore_ s') /\
  (forall h', is_u64 h' -> v_get_object (objectStore_ s') h' =
     if h' =? h then Some (snd (p11_apply_template (f fresh) t))
     else v_get_object (objectStore_ s) h').
Proof.
  intros Hwf Hroom H. unfold create_with in H.
  pose proof (create_get (objectStore_ s) fresh Hwf Hroom) as Hc.
  destruct (v_create_object (objectStore_ s) fresh) as [h1 st1].
  destruct Hc as (Hwf1 & Hh & Hn & Hget).
  destruct (update_get st1 h1 f Hwf1 Hh) as [Hwf2 Hget2].
  set (g := fun o => snd (p11_apply_template o t)) in *.
  destruct (update_get _ h1 g Hwf2 Hh) as [Hwf3 Hget3].
  destruct (Z.eqb_spec (fst (p11_apply_template (f fresh) t)) CKR_OK) as [E|E]; cbn [negb] in H;
    [|discriminate]. injection H as <- <- <-. cbn [with_objects objectStore_].
  split_and!; [done..|]. intros h' Hh'. rewrite Hget3, !Hget2, !Hget, Z.eqb_refl by done.
  by destruct (h' =? h1).
Qed.

Lemma apply_template_frame t o :
  type_ (snd (p11_apply_template o t)) = type_ o /\
  sensitive_ (snd (p11_apply_template o t)) = sensitive_ o /\
  extractable_ (snd (p11_apply_template o t)) = extractable_ o /\
  HsmObj.token_ (snd (p11_apply_template o t)) = HsmObj.token_ o /\
  private_ (snd (p11_apply_template o t)) = private_ o.
Proof.
  revert o. induction t as [|a t IH]; intros o; [done|]. cbn [p11_apply_template].
  destruct (has_flag _ _); [done|]. destruct (pValue a) as [v|]; [|by destruct (negb _)].
  destruct (setAttribute o (a_type a) (Some v) (ulValueLen a)) as [o'|] eqn:E; [|done].
  apply setAttribute_frame in E as [m ->]. destruct (IH (with_attrs o m)) as (-> & -> & -> & -> & ->). done.
Qed.

(** The last attribute of a type decides; here types are not repeated. *)
Lemma apply_template_other t o ty :
  ty ∉ map a_type t -> findAttribute (snd (p11_apply_template o t)) ty = findAttribute o ty.
Proof.
  revert o. induction t as [|a t IH]; intros o Hni; [done|]. cbn [p11_apply_template map] in *.
  apply not_elem_of_cons in Hni as [Hne Hni]. destruct (has_flag _ _); [by apply IH|].
  destruct (pValue a) as [v|]; [|destruct (negb _); [done|by apply IH]].
  unfold setAttribute. rewrite (bool_decide_false (Some v = None)), andb_false_r by done.
  destruct (ulValueLen a =? 0); rewrite IH by done; unfold findAttribute; cbn [attrs_ with_attrs];
    by rewrite lookup_insert_ne.
Qed.

Lemma apply_template_lookup t o a v :
  NoDup (map a_type t) -> a ∈ t -> pValue a = Some v -> len v = ulValueLen a ->
  has_flag (a_type a) CKF_ARRAY_ATTRIBUTE = false -> fst (p11_apply_template o t) = CKR_OK ->
  findAttribute (snd (p11_apply_template o t)) (a_type a) = Some v.
Proof.
  revert o. induction t as [|b t IH]; intros o Hnd Hin Hv Hl Hf; [by apply elem_of_nil in Hin|].
  cbn [map] in Hnd. apply list.NoDup_cons in Hnd as [Hb Hnd]. cbn [p11_apply_template].
  apply elem_of_cons in Hin as [<-|Hin].
  - rewrite Hf, Hv. unfold setAttribute.
    rewrite (bool_decide_false (Some v = None)), andb_false_r by done. rewrite <- Hl.
    destruct (len v =? 0) eqn:E; intros _; rewrite apply_template_other by done;
      unfold findAttribute; cbn [attrs_ with_attrs]; rewrite lookup_insert_eq.
    + bool_to_prop. destruct v; [done|]. rewrite len_cons in E. pose proof (len_nonneg v). lia.
    + rewrite take_ge; [done|]. unfold len. lia.
  - destruct (has_flag (a_type b) _); [by apply IH|].
    destruct (pValue b) as [w|]; [|destruct (negb _); [done|by apply IH]].
    destruct (setAttribute o (a_type b) (Some w) (ulValueLen b)) as [o'|] eqn:E; [by apply IH|].
    unfold setAttribute in E. rewrite (bool_decide_false (Some w = None)), andb_false_r in E by done.
    by destruct (ulValueLen b =? 0).
Qed.

(** Attributes whose value is the stored one, not one of the object's fields. *)
Definition stored_type (t : Z) : bool :=
  negb (existsb (Z.eqb t)
    [CKA_CLASS; CKA_TOKEN; CKA_PRIVATE; CKA_SENSITIVE; CKA_EXTRACTABLE; CKA_ID]).

Lemma attribute_value_stored o t v :
  stored_type t = true -> findAttribute o t = Some v -> ~ (t = CKA_VALUE /\ sensitive_ o = true) ->
  attribute_value o t = Known v.
Proof.
  intros Ht Hv Hs. unfold stored_type in Ht. cbn [existsb] in Ht.
  apply negb_true_iff in Ht. bool_to_prop. unfold attribute_value.
  repeat match goal with H : _ <> _ |- _ => rewrite (proj2 (Z.eqb_neq _ _) H); clear H end.
  rewrite Hv. destruct (Z.eqb_spec t CKA_VALUE), (sensitive_ o); try done. by destruct Hs.
Qed.

(** A successful [C_CreateObject] gives a fresh handle to an object with the
    class and the flags of the template, every attribute of the template that
    is kept as given (all but the flags, the class and the identifier, and the
    value of a sensitive object) is what [C_GetAttributeValue] returns for it,
    the session's other objects are untouched and its store stays well formed. *)
Theorem create_object_readable (st st' : P11) (h o : Z) (s : Session) (t : list CK_ATTRIBUTE) (rv : CK_RV)
    (Hwf : wf_p11 st) (Hs : p11_get_session st h = Some s) (Hst : wf_store (objectStore_ s))
    (Hroom : has_room (objectStore_ s))
    (Hc : C_CreateObject st h t false = (rv, Some o, st')) (Hnd : NoDup (map a_type t)) :
  let p := parse_class_and_flags t in
  rv = CKR_OK /\ p11_get_object st h o = None /\
  (exists s' x, p11_get_session st' h = Some s' /\ wf_store (objectStore_ s') /\
     p11_get_object st' h o = Some x /\ Some (type_ x) = option_map class_from_attr (p_class p) /\
     sensitive_ x = p_sensitive p /\ extractable_ x = p_extractable p /\
     HsmObj.token_ x = p_token p /\ private_ x = p_private p) /\
  (forall a v room, a ∈ t -> pValue a = Some v -> len v = ulValueLen a ->
     has_flag (a_type a) CKF_ARRAY_ATTRIBUTE = false -> stored_type (a_type a) = true ->
     ~ (a_type a = CKA_VALUE /\ p_sensitive p = true) -> len v <= room ->
     C_GetAttributeValue st' h o [mkAttr (a_type a) (Some []) room] =
       (CKR_OK, [mkGet CKR_OK (Some (len v)) v])) /\
  (forall o', is_u64 o' -> o' <> o -> p11_get_object st' h o' = p11_get_object st h o').
Proof.
  intros p. unfold C_CreateObject in Hc. destruct (g_initialized st) eqn:Hi; [|discriminate].
  cbn [negb] in Hc. rewrite Hs in Hc. fold p in Hc.
  destruct (p_class p) as [cls|]; [|discriminate]. set (fresh := new_object _ _ _ _ _) in Hc.
  pose proof (create_with_handle s fresh (fun x => x) t) as Hh.
  destruct (create_with s fresh (fun x => x) t) as [[rv0 o0] s'] eqn:E.
  injection Hc as <- -> <-. cbn [snd] in Hh.
  destruct (create_with_ok _ _ _ _ _ _ _ Hst Hroom E) as (-> & Hrv & Ho & Hn & Hwf' & Hget).
  destruct (put_back st h s s' h Hwf Hs Hh) as [_ Hg]. rewrite Z.eqb_refl in Hg.
  assert (Hobj : forall o', is_u64 o' -> p11_get_object (put_session st h s') h o' =
    if o' =? o then Some (snd (p11_apply_template fresh t)) else p11_get_object st h o').
  { intros o' Ho'. unfold p11_get_object. rewrite Hg, Hs. by apply Hget. }
  pose proof (apply_template_frame t fresh) as (F1 & F2 & F3 & F4 & F5).
  split_and!; [done|by unfold p11_get_object; rewrite Hs| | |].
  - exists s', (snd (p11_apply_template fresh t)). rewrite Hobj, Z.eqb_refl by done.
    rewrite F1, F2, F3, F4, F5. done.
  - intros a v room Ha Hv Hl Hf Hty Hsen Hr. unfold C_GetAttributeValue.
    cbn [put_session with_sessions g_initialized]. rewrite Hi, Hobj, Z.eqb_refl by done.
    cbn [negb map fold_left]. unfold p11_get_attr, v_get_attribute. cbn [a_type pValue ulValueLen].
    rewrite (attribute_value_stored _ _ v Hty); [|by apply apply_template_lookup|by rewrite F2].
    rewrite bool_decide_false by done. by rewrite (proj2 (Z.ltb_ge room (len v))).
  - intros o' Ho' Hne. by rewrite Hobj, (proj2 (Z.eqb_neq _ _) Hne).
Qed.

(** Templates for the examples. *)
Definition attr (t : Z) (v : list byte) : CK_ATTRIBUTE := mkAttr t (Some v) (len v).

Definition secret_template : list CK_ATTRIBUTE :=
  [attr CKA_CLASS (ulong_bytes CKO_SECRET_KEY); attr CKA_SENSITIVE [x01];
   attr CKA_LABEL (bytes_of "k"); attr CKA_ID [x07]; attr CKA_VALUE (bytes_of "secret");
   attr CKA_VHSM_EC_PRIV (bytes_of "der")].

Definition secret_handle : Z := default 0 (snd (fst (C_CreateObject sample_p11 1 secret_template false))).
Definition secret_p11 : P11 := snd (C_CreateObject sample_p11 1 secret_template false).

Lemma fresh_room : has_room new_store.
Proof. right. vm_compute. reflexivity. Qed.

Lemma create_object_readable_witness :
  let p := parse_class_and_flags secret_template in
  CKR_OK = CKR_OK /\ p11_get_object sample_p11 1 secret_handle = None /\
  (exists s' x, p11_get_session secret_p11 1 = Some s' /\ wf_store (objectStore_ s') /\
     p11_get_object secret_p11 1 secret_handle = Some x /\
     Some (type_ x) = option_map class_from_attr (p_class p) /\
     sensitive_ x = p_sensitive p /\ extractable_ x = p_extractable p /\
     HsmObj.token_ x = p_token p /\ private_ x = p_private p) /\
  (forall a v room, a ∈ secret_template -> pValue a = Some v -> len v = ulValueLen a ->
     has_flag (a_type a) CKF_ARRAY_ATTRIBUTE = false -> stored_type (a_type a) = true ->
     ~ (a_type a = CKA_VALUE /\ p_sensitive p = true) -> len v <= room ->
     C_GetAttributeValue secret_p11 1 secret_handle [mkAttr (a_type a) (Some []) room] =
       (CKR_OK, [mkGet CKR_OK (Some (len v)) v])) /\
  (forall o', is_u64 o' -> o' <> secret_handle ->
     p11_get_object secret_p11 1 o' = p11_get_object sample_p11 1 o').
Proof.
  apply (create_object_readable sample_p11 secret_p11 1 secret_handle (new_session 1 0 6)).
  - apply sample_p11_wf.
  - reflexivity.
  - apply new_store_wf.
  - apply fresh_room.
  - vm_compute. reflexivity.
  - apply (bool_decide_unpack _). vm_compute. exact I.
Defined.

Lemma sensitive_value_never_read_witness :
  let cs := [CSetAttribute 1 secret_handle [attr CKA_SENSITIVE [x00]; attr CKA_LABEL [x41]];
             CCopy 1 secret_handle []; CCreate 1 secret_template; CLogout 1; COpen 0 6;
             CDestroy 2 secret_handle] in
  let st' := fold_left (call 0) cs secret_p11 in
  (forall t, (exists a, a ∈ t /\ a_type a = CKA_VALUE) ->
     let (rv, rs) := C_GetAttributeValue st' 1 secret_handle t in
     rv <> CKR_OK /\ rv <> CKR_BUFFER_TOO_SMALL /\ (len t = 1 -> rv = CKR_ATTRIBUTE_SENSITIVE) /\
     forall i a, t !! i = Some a -> a_type a = CKA_VALUE -> rs !! i = Some withheld) /\
  (forall t, C_CopyObject st' 1 secret_handle t false = (CKR_ACTION_PROHIBITED, None, st')).
Proof.
  assert (Hw : wf_p11 secret_p11).
  { destruct (call_other 0 sample_p11 (CCreate 1 secret_template) 1 (new_session 1 0 6))
      as [H _]; [apply sample_p11_wf|vm_compute; reflexivity|reflexivity|exact H]. }
  destruct (create_with_ok (new_session 1 0 6) (new_object SECRET_KEY true true false false)
    (fun x => x) secret_template CKR_OK secret_handle
    (snd (create_with (new_session 1 0 6) (new_object SECRET_KEY true true false false)
       (fun x => x) secret_template)) new_store_wf fresh_room ltac:(vm_compute; reflexivity))
    as (_ & _ & Hu & _ & Hwf & Hget).
  eapply (sensitive_value_never_read 0 _ secret_p11 1
    (snd (create_with (new_session 1 0 6) (new_object SECRET_KEY true true false false)
       (fun x => x) secret_template)) secret_handle).
  - reflexivity.
  - exact Hw.
  - vm_compute. reflexivity.
  - vm_compute. reflexivity.
  - exact Hu.
  - repeat constructor; vm_compute; congruence.
  - repeat constructor; vm_compute; congruence.
  - vm_compute. congruence.
  - split; [exact Hwf|]. eexists. split; [by rewrite Hget, Z.eqb_refl|]. vm_compute. reflexivity.
Defined.

(** *** Session information and the lockout event *)

(** The state that [C_GetSessionInfo] recomputes from the user type is the
    [CK_STATE] the session keeps, for every session the calls can produce. *)
Theorem session_info_agrees (st : P11) (h : Z) (s : Session) (a : Auth)
    (Hs : p11_get_session st h = Some s) (Ha : in_state s a) :
  C_GetSessionInfo st h false = SessMgr.getSessionInfo (g_sessionManager st) h false /\
  snd (C_GetSessionInfo st h false) = Some (mkInfo (slotID_ s) (state_of (flags_ s) a) (flags_ s) 0).
Proof.
  destruct Ha as [H1 H2]. unfold C_GetSessionInfo, SessMgr.getSessionInfo, SessMgr.v_get_session_info.
  unfold p11_get_session in *. rewrite Hs. unfold Sess.getSessionInfo. rewrite H1, H2.
  by destruct a as [|[]].
Qed.

Lemma session_info_agrees_witness :
  C_GetSessionInfo sample_p11 1 false = SessMgr.getSessionInfo (g_sessionManager sample_p11) 1 false /\
  snd (C_GetSessionInfo sample_p11 1 false) = Some (mkInfo 0 (state_of 6 Public) 6 0).
Proof.
  apply (session_info_agrees sample_p11 1 (new_session 1 0 6) Public); [reflexivity|].
  split; reflexivity.
Defined.

(** The attempt that reaches the threshold: set, unlocked, wrong, and last. *)
Definition locks (max : Z) (a : APin) (c : list byte) : bool :=
  negb (a_locked a) &&
  match a_pin a with
  | Some p => negb (bool_decide (c = p)) && (max <=? a_failed a + 1)
  | None => false
  end.

Lemma a_verify_locks ni max a c :
  negb (a_locked a) && a_locked (snd (a_verify ni max a c)) = locks max a c /\
  (locks max a c = true -> fst (a_verify ni max a c) <> CKR_OK).
Proof.
  unfold locks, a_verify. destruct (a_locked a) eqn:El; cbn [negb andb]; [done|].
  destruct (a_pin a) as [p|]; cbn [snd fst]; [|by rewrite El].
  destruct (bool_decide (c = p)); cbn [negb andb snd fst a_locked]; [done|].
  by destruct (max <=? a_failed a + 1).
Qed.

Lemma is_pin_locked_abs t ut :
  (ut =? CKU_USER) || (ut =? CKU_SO) = true ->
  is_pin_locked t ut = a_locked (abs_role (role_of t (role_for ut))).
Proof.
  unfold is_pin_locked, role_for. intros [H|H]%orb_true_iff; bool_to_prop; by subst ut.
Qed.

(** The lockout is reported exactly once: [C_Login] publishes a
    [PIN_LOCKOUT] event when, and only when, this attempt is the wrong one that
    reaches the threshold on a PIN that was not yet locked. *)
Theorem lockout_event_exact (now : Z) (st : P11) (h ut : Z) (pin : option (list byte)) (n : Z) (sink_ok : bool)
    (s : Session) (tok : v_TokenCore_M1)
    (Hinit : g_initialized st = true) (Hs : p11_get_session st h = Some s)
    (Htok : p11_get_token st (slotID_ s) = Some tok) (Hwt : wf_token tok)
    (Hp : wf_ptr pin n) (Hn : null_with_length pin n = false)
    (Hut : (ut =? CKU_USER) || (ut =? CKU_SO) = true) :
  events_ (snd (C_Login now st h ut pin n sink_ok)) = events_ st ++
    (if locks (v_max_failed_attempts_ tok) (abs_role (role_of tok (role_for ut))) (bytes_at pin)
     then [PIN_LOCKOUT (slotID_ s) ut (v_max_failed_attempts_ tok)] else []).
Proof.
  unfold C_Login. rewrite Hinit, valid_type_test by done. cbn [negb].
  unfold p11_get_token_for_session. rewrite Hs, Htok.
  destruct (token_login_spec now tok ut pin n Hwt Hp Hut Hn) as (tok' & -> & _ & Habs & _ & Hmax).
  cbv zeta. rewrite !is_pin_locked_abs, Habs, Hmax by done. set (a := abs_role (role_of tok (role_for ut))).
  destruct (a_verify_locks (not_init_code (role_for ut)) (v_max_failed_attempts_ tok) a (bytes_at pin)) as [-> Hne].
  set (v := a_verify _ _ a _) in *. destruct (Z.eqb_spec (fst v) CKR_OK) as [E|E].
  - destruct (locks _ _ _); [by destruct Hne|]. destruct (negb sink_ok); [cbn; by rewrite app_nil_r|].
    destruct (Sess.login s ut) as [rv s']. cbn. by rewrite app_nil_r.
  - destruct (locks _ _ _); cbn; [done|by rewrite app_nil_r].
Qed.

Lemma lockout_event_exact_witness :
  events_ (snd (C_Login 0 sample_p11 1 CKU_USER (Some (bytes_of "0")) 1 true)) =
    events_ sample_p11 ++
    (if locks 5 (abs_role (role_of sample_token User)) (bytes_of "0")
     then [PIN_LOCKOUT 0 CKU_USER 5] else []).
Proof.
  apply (lockout_event_exact 0 sample_p11 1 CKU_USER (Some (bytes_of "0")) 1 true (new_session 1 0 6) sample_token).
  - reflexivity.
  - reflexivity.
  - reflexivity.
  - apply sample_token_wf.
  - by apply (wf_ptr_some (bytes_of "0")).
  - reflexivity.
  - reflexivity.
Defined.

(** *** Behaviours that differ from what the code says of itself *)

(** The value of a sensitive key is refused, its private key is not: the
    vendor attribute that holds it is returned like any other. *)
Lemma sensitive_private_key_is_returned :
  fst (C_GetAttributeValue secret_p11 1 secret_handle [mkAttr CKA_VALUE (Some []) 16])
    = CKR_ATTRIBUTE_SENSITIVE /\
  C_GetAttributeValue secret_p11 1 secret_handle [mkAttr CKA_VHSM_EC_PRIV (Some []) 16]
    = (CKR_OK, [mkGet CKR_OK (Some 3) (bytes_of "der")]).
Proof. vm_compute. split; reflexivity. Qed.

(** The template is applied after the object is indexed, and it is not indexed
    again: a search by the label or identifier it was created with misses it,
    although an unindexed attribute next to the label finds it. *)
Lemma created_object_missed_by_label :
  let find t := match p11_get_session secret_p11 1 with
                | Some s => find_results (objectStore_ s) t
                | None => []
                end in
  find [attr CKA_LABEL (bytes_of "k")] = [] /\ find [attr CKA_ID [x07]] = [] /\
  find [attr CKA_LABEL (bytes_of "k"); attr CKA_SENSITIVE [x01]] = [secret_handle].
Proof. vm_compute. repeat split; reflexivity. Qed.

(** The identifier of the template is stored where no read looks for it. *)
Lemma created_identifier_reads_empty :
  C_GetAttributeValue secret_p11 1 secret_handle [mkAttr CKA_ID (Some []) 16]
    = (CKR_OK, [mkGet CKR_OK (Some 0) []]).
Proof. vm_compute. reflexivity. Qed.

(** The lifecycle state shares its attribute number with the EC public key:
    revoking an object replaces that key, and storing that key sets the state. *)
Lemma key_state_is_ec_pub (o : HsmObject) (s : KeyState) :
  findAttribute (setKeyState o s) CKA_VHSM_EC_PUB = Some [to_u8 s].
Proof.
  unfold setKeyState, setAttribute. cbn. unfold findAttribute. cbn [attrs_ with_attrs].
  apply lookup_insert_eq.
Qed.

(** A client can undo a revocation by writing the state attribute. *)
Lemma client_can_unrevoke :
  let o := setKeyState (new_object PRIVATE_KEY true false true true) Revoked in
  let (rv, o') := v_set_attribute o (Some (attr CKA_VHSM_KEY_STATE [x00])) in
  getKeyState o = Revoked /\ rv = CKR_OK /\ getKeyState o' = Active.
Proof. vm_compute. repeat split; reflexivity. Qed.

(** A logout without a login is not the idempotent success of the comment. *)
Lemma logout_when_public : fst (C_Logout sample_p11 1) = CKR_USER_TYPE_INVALID.
Proof. vm_compute. reflexivity. Qed.

(** After a restore from the vault in a new process, a client without any PIN
    can set the user PIN. *)
Lemma restored_pin_set_without_old :
  match restore_token_from_snapshot (new_core [] [] 0) (snapshot_from_token sample_token) with
  | Ok t => fst (C_SetPIN 0 (put_token sample_p11 0 t) 1 None 0 (Some (bytes_of "evil")) 4) = CKR_OK
  | Throw _ => False
  end.
Proof. vm_compute. reflexivity. Qed.
