(* ===== verification/Vault.v ===== *)
(** * The encrypted vault

    [src/src/persistence/vault.cpp], [vault_format.h], [kdf.cpp], the wrapper
    [src/src/crypto/aes_gcm.cpp], and the token persistence of
    [token_serializer.cpp].

    The cryptographic library [scrypto] is not part of the repository: its
    functions are the operations of the class [Scrypto], and [ScryptoLaws]
    states what its interface documents of them.  Random bytes (the salt of a
    save, the nonce of an encryption) are arguments.  The file system is a map
    from paths to contents; [save] gives the list of what its system calls do to
    it.  What a crash leaves is the relation [crash_after]: a file that was
    written and not synced can have any contents, and the last changes of the
    directory can be missing unless the directory was synced. *)

From S2P Require Import Prelude Codec Types Snapshot SecureBuffer Objects ObjectStore Token.
From stdpp Require Import pretty.
Import LeBytes.
Local Open Scope Z_scope.

Class Scrypto : Type := {
  pbkdf2_hmac_sha256 : list byte -> list byte -> Z -> Z -> list byte;
  (** key, nonce, plaintext: ciphertext and tag *)
  aes256_gcm_encrypt : list byte -> list byte -> list byte -> list byte * list byte;
  (** key, nonce, ciphertext, tag: the plaintext, unless the tag is wrong *)
  aes256_gcm_decrypt : list byte -> list byte -> list byte -> list byte -> option (list byte)
}.

Class ScryptoLaws (C : Scrypto) : Prop := {
  pbkdf2_length : forall password salt iterations n,
    0 <= n -> len (pbkdf2_hmac_sha256 password salt iterations n) = n;
  gcm_tag_length : forall key nonce p, length (snd (aes256_gcm_encrypt key nonce p)) = 16%nat;
  gcm_ciphertext_length : forall key nonce p,
    length (fst (aes256_gcm_encrypt key nonce p)) = length p;
  gcm_decrypt_encrypt : forall key nonce p,
    aes256_gcm_decrypt key nonce (fst (aes256_gcm_encrypt key nonce p))
      (snd (aes256_gcm_encrypt key nonce p)) = Some p;
  (** decryption recomputes the tag and compares it *)
  gcm_authentic : forall key nonce c tag p,
    aes256_gcm_decrypt key nonce c tag = Some p -> aes256_gcm_encrypt key nonce p = (c, tag)
}.

Definition K_VAULT_MAGIC : list byte := bytes_of "VHSMVAUL".
Definition K_VAULT_FORMAT_VERSION : Z := 1.
Definition K_VAULT_PBKDF2_ITERATIONS : Z := 600000.
Definition K_VAULT_SALT_LEN : nat := 16.
Definition K_VAULT_NONCE_LEN : nat := 12.
Definition K_VAULT_TAG_LEN : nat := 16.
Definition K_VAULT_KEY_LEN : Z := 32.
Definition K_VAULT_HEADER_LEN : nat :=
  (8 + 4 + K_VAULT_SALT_LEN + 4 + K_VAULT_NONCE_LEN + K_VAULT_TAG_LEN + 8)%nat.

Record AESGCMResult : Type := mkGcm { ciphertext : list byte; nonce : list byte; tag : list byte }.

Abbreviation FS := (gmap (list byte) (list byte)).

Section Crypto.
Context `{C : Scrypto}.

(** [VHSM_CHECK_ARG]. *)
Definition check_arg (b : bool) (msg : string) : res unit :=
  if b then Ok tt else Throw (InvalidArgument msg).

Definition AESGCM_encrypt (rnd_nonce key plaintext : list byte) : res AESGCMResult :=
  let* _ := check_arg (len key =? 32) "AESGCM::encrypt: key must be 32 bytes" in
  let (c, t) := aes256_gcm_encrypt key rnd_nonce plaintext in
  Ok (mkGcm c rnd_nonce t).

Definition AESGCM_decrypt (key : list byte) (data : AESGCMResult) : res (list byte) :=
  let* _ := check_arg (len key =? 32) "AESGCM::decrypt: key must be 32 bytes" in
  let* _ := check_arg (len (nonce data) =? 12) "AESGCM::decrypt: nonce must be 12 bytes" in
  let* _ := check_arg (len (tag data) =? 16) "AESGCM::decrypt: tag must be 16 bytes" in
  match aes256_gcm_decrypt key (nonce data) (ciphertext data) (tag data) with
  | Some p => Ok p
  | None => Throw (RuntimeError "authentication failed: ")
  end.

Definition derive_vault_key (password salt : list byte) (iterations out_len : Z) : res (list byte) :=
  check! 0 <? len password orelse "derive_vault_key: password must not be empty" in
  check! 0 <? len salt orelse "derive_vault_key: salt must not be empty" in
  check! 0 <? iterations orelse "derive_vault_key: iterations must be > 0" in
  check! 0 <? out_len orelse "derive_vault_key: out_len must be > 0" in
  Ok (pbkdf2_hmac_sha256 password salt iterations out_len).

Record Vault : Type := mkVault {
  path_ : list byte;
  password_ : list byte;
  version_ : Z;
  valid_ : bool
}.

Definition make_key (v : Vault) (salt : list byte) (iterations : Z) : res (list byte) :=
  derive_vault_key (password_ v) salt iterations K_VAULT_KEY_LEN.

Definition read_file_bytes (fs : FS) (p : list byte) : res (list byte) :=
  match fs !! p with
  | Some b => Ok b
  | None => Throw (RuntimeError "Vault: cannot open file: ")
  end.

Definition has_magic (raw : list byte) : bool := bool_decide (take 8 raw = K_VAULT_MAGIC).

(** The fields at their offsets in the header. *)
Definition hdr_version (raw : list byte) : Z := get_le32 (drop 8 raw).
Definition hdr_salt (raw : list byte) : list byte := slice 12 K_VAULT_SALT_LEN raw.
Definition hdr_iterations (raw : list byte) : Z := get_le32 (drop 28 raw).
Definition hdr_nonce (raw : list byte) : list byte := slice 32 K_VAULT_NONCE_LEN raw.
Definition hdr_tag (raw : list byte) : list byte := slice 44 K_VAULT_TAG_LEN raw.
Definition hdr_ct_len (raw : list byte) : Z := get_le64 (drop 60 raw).
Definition hdr_ciphertext (raw : list byte) : list byte := drop K_VAULT_HEADER_LEN raw.

(** [raw.size() != K_VAULT_HEADER_LEN + ct_len], in 64 bits. *)
Definition size_matches (raw : list byte) : bool :=
  len raw =? u64 (Z.of_nat K_VAULT_HEADER_LEN + hdr_ct_len raw).

(** [Vault(path, password)]. *)
Definition open_vault (fs : FS) (path password : list byte) : res Vault :=
  let v := mkVault path password K_VAULT_FORMAT_VERSION false in
  let* raw := read_file_bytes fs path in
  check! negb (len raw <? Z.of_nat K_VAULT_HEADER_LEN)
    orelse "Vault: file too short to be a valid vault" in
  check! has_magic raw orelse "Vault: bad magic (not a vHSM vault)" in
  check! hdr_version raw =? K_VAULT_FORMAT_VERSION orelse "Vault: unsupported format version: " in
  check! negb (hdr_iterations raw =? 0) orelse "Vault: invalid PBKDF2 iteration count" in
  check! size_matches raw orelse "Vault: ciphertext length does not match file size" in
  let* key := make_key v (hdr_salt raw) (hdr_iterations raw) in
  match AESGCM_decrypt key (mkGcm (hdr_ciphertext raw) (hdr_nonce raw) (hdr_tag raw)) with
  | Throw _ => Throw (RuntimeError "Vault: authentication failed (wrong password or corrupt file)")
  | Ok _ => Ok (mkVault path password (hdr_version raw) true)
  end.

Definition load (fs : FS) (v : Vault) : res (list byte) :=
  check! valid_ v orelse "Vault::load: vault is not valid" in
  let* raw := read_file_bytes fs (path_ v) in
  check! negb ((len raw <? Z.of_nat K_VAULT_HEADER_LEN) || negb (has_magic raw))
    orelse "Vault::load: file is not a valid vault" in
  check! hdr_version raw =? K_VAULT_FORMAT_VERSION orelse "Vault::load: unsupported format version" in
  check! size_matches raw orelse "Vault::load: ciphertext length mismatch" in
  let* key := make_key v (hdr_salt raw) (hdr_iterations raw) in
  AESGCM_decrypt key (mkGcm (hdr_ciphertext raw) (hdr_nonce raw) (hdr_tag raw)).

(** ** Saving *)

Definition vault_image (salt : list byte) (enc : AESGCMResult) : list byte :=
  let out := [] in
  let out := out ++ K_VAULT_MAGIC in
  let out := put_le32 out K_VAULT_FORMAT_VERSION in
  let out := out ++ salt in
  let out := put_le32 out K_VAULT_PBKDF2_ITERATIONS in
  let out := out ++ nonce enc in
  let out := out ++ tag enc in
  let out := put_le64 out (len (ciphertext enc)) in
  out ++ ciphertext enc.

(** What a system call does to the disk. *)
Inductive DiskOp : Type :=
| Create (p : list byte)
| Append (p data : list byte)
| Sync (p : list byte)
| Rename (p q : list byte)
| Unlink (p : list byte)
| SyncDir.

Definition apply_op (fs : FS) (op : DiskOp) : FS :=
  match op with
  | Create p => <[p := []]> fs
  | Append p data => <[p := default [] (fs !! p) ++ data]> fs
  | Rename p q => match fs !! p with Some c => <[q := c]> (delete p fs) | None => fs end
  | Unlink p => delete p fs
  | Sync _ | SyncDir => fs
  end.

(** What later calls see. *)
Definition run_ops (fs : FS) (ops : list DiskOp) : FS := fold_left apply_op ops fs.

(** The files whose contents are not on the disk. *)
Definition unsynced_step (D : gset (list byte)) (op : DiskOp) : gset (list byte) :=
  match op with
  | Create p | Append p _ => {[p]} ∪ D
  | Sync p | Unlink p => D ∖ {[p]}
  | Rename p q => if decide (p ∈ D) then {[q]} ∪ (D ∖ {[p]}) else D ∖ {[p; q]}
  | SyncDir => D
  end.

Definition unsynced (ops : list DiskOp) : gset (list byte) := fold_left unsynced_step ops ∅.

(** [fs'] is what a crash after the calls [ops] can leave of a disk that held
    [fs]: the changes of the directory up to some call, none lost that precedes
    a sync of the directory; files that are not synced are left anyhow. *)
Definition crash_after (fs : FS) (ops : list DiskOp) (fs' : FS) : Prop :=
  exists kept lost, ops = kept ++ lost /\ (SyncDir ∉ lost) /\
    forall p, p ∉ unsynced kept -> fs' !! p = run_ops fs kept !! p.

(** What the system answers: each [write] gives a negative number for an error
    or the number of bytes it took. *)
Record SaveSys : Type := mkSys {
  pid : Z;
  seq_no : Z;
  open_ok : bool;
  writes : list Z;
  fsync_ok : bool;
  close_ok : bool;
  rename_ok : bool;
  unlink_ok : bool;
  dir_sync_ok : bool
}.

Definition tmp_path (sys : SaveSys) (path : list byte) : list byte :=
  path ++ bytes_of (".tmp" +:+ pretty (pid sys) +:+ "-" +:+ pretty (seq_no sys)).

(** How a save ends: it returns, throws, or is still waiting for the system. *)
Inductive Outcome : Type := Saved | Thrown (e : exn) | Running.

(** [::unlink(tmp_path)], whose answer is ignored. *)
Definition unlink_tmp (sys : SaveSys) (tmp : list byte) : list DiskOp :=
  if unlink_ok sys then [Unlink tmp] else [].

(** [while (written < total)]. *)
Fixpoint write_loop (sys : SaveSys) (answers : list Z) (tmp out : list byte) (written : Z)
    : Outcome * list DiskOp :=
  if len out <=? written then (Saved, [])
  else match answers with
  | [] => (Running, [])
  | n :: answers =>
    if n <? 0 then (Thrown (RuntimeError "Vault::save: write failed: "), unlink_tmp sys tmp)
    else
      let taken := Z.min n (len out - written) in
      let (o, ops) := write_loop sys answers tmp out (written + taken) in
      (o, Append tmp (slice (Z.to_nat written) (Z.to_nat taken) out) :: ops)
  end.

Definition fail_unlink (sys : SaveSys) (msg : string) (tmp : list byte) (ops : list DiskOp)
    : Outcome * list DiskOp :=
  (Thrown (RuntimeError msg), ops ++ unlink_tmp sys tmp).

(** The system calls of a save of [out] at [path]. *)
Definition write_atomically (sys : SaveSys) (path out : list byte) : Outcome * list DiskOp :=
  let tmp := tmp_path sys path in
  if negb (open_ok sys) then (Thrown (RuntimeError "Vault::save: cannot create temp file: "), [])
  else
    let (o, ops) := write_loop sys (writes sys) tmp out 0 in
    let ops := Create tmp :: ops in
    match o with
    | Saved =>
      if negb (fsync_ok sys) then fail_unlink sys "Vault::save: fsync failed: " tmp ops
      else
        let ops := ops ++ [Sync tmp] in
        if negb (close_ok sys) then fail_unlink sys "Vault::save: close failed: " tmp ops
        else if negb (rename_ok sys) then fail_unlink sys "Vault::save: rename failed: " tmp ops
        else
          let ops := ops ++ [Rename tmp path] in
          (Saved, ops ++ if dir_sync_ok sys then [SyncDir] else [])
    | _ => (o, ops)
    end.

(** The outcome, the vault after and what was done to the disk. *)
Definition save (sys : SaveSys) (v : Vault) (salt rnd_nonce payload : list byte)
    : Outcome * Vault * list DiskOp :=
  let prepared :=
    check! 0 <? len (password_ v) orelse "Vault::save: no password available" in
    let* key := make_key v salt K_VAULT_PBKDF2_ITERATIONS in
    AESGCM_encrypt rnd_nonce key payload in
  match prepared with
  | Throw e => (Thrown e, v, [])
  | Ok enc =>
    let (o, ops) := write_atomically sys (path_ v) (vault_image salt enc) in
    let v := match o with
             | Saved => mkVault (path_ v) (password_ v) (version_ v) true
             | _ => v
             end in
    (o, v, ops)
  end.

Definition create (sys : SaveSys) (fs : FS) (path password salt rnd_nonce payload : list byte)
    : Outcome * Vault * list DiskOp :=
  let v := mkVault path password K_VAULT_FORMAT_VERSION false in
  if negb (0 <? len password)
  then (Thrown (RuntimeError "Vault::create: password must not be empty"), v, [])
  else if bool_decide (is_Some (fs !! path))
  then (Thrown (RuntimeError "Vault::create: file already exists: "), v, [])
  else save sys v salt rnd_nonce payload.

(** [persist_token_to_vault] and [restore_token_from_vault]. *)
Definition persist_token_to_vault (sys : SaveSys) (t : v_TokenCore_M1) (v : Vault)
    (salt rnd_nonce : list byte) : Outcome * Vault * list DiskOp :=
  match Snapshot.serialize_token_snapshot (snapshot_from_token t) with
  | Throw e => (Thrown e, v, [])
  | Ok bytes => save sys v salt rnd_nonce bytes
  end.

Definition restore_token_from_vault (fs : FS) (t : v_TokenCore_M1) (v : Vault)
    : res v_TokenCore_M1 :=
  let* bytes := load fs v in
  let* snap := Snapshot.deserialize_token_snapshot bytes in
  restore_token_from_snapshot t snap.

(** ** The image and its header *)

Lemma vault_image_eq salt enc :
  vault_image salt enc =
  K_VAULT_MAGIC ++ le_digits 4 K_VAULT_FORMAT_VERSION ++ salt ++
  le_digits 4 K_VAULT_PBKDF2_ITERATIONS ++ nonce enc ++ tag enc ++
  le_digits 8 (len (ciphertext enc)) ++ ciphertext enc.
Proof. unfold vault_image. rewrite !put_le32_digits, put_le64_digits. by rewrite <- !app_assoc. Qed.

Definition wf_enc (enc : AESGCMResult) : Prop :=
  length (nonce enc) = 12%nat /\ length (tag enc) = 16%nat /\ is_u64 (68 + len (ciphertext enc)).

Lemma image_fields salt enc :
  length salt = K_VAULT_SALT_LEN -> wf_enc enc ->
  let raw := vault_image salt enc in
  len raw = 68 + len (ciphertext enc) /\ has_magic raw = true /\ hdr_version raw = 1 /\
  hdr_salt raw = salt /\ hdr_iterations raw = K_VAULT_PBKDF2_ITERATIONS /\
  hdr_nonce raw = nonce enc /\ hdr_tag raw = tag enc /\ hdr_ciphertext raw = ciphertext enc /\
  size_matches raw = true.
Proof.
  intros Hs (Hn & Ht & Hu). intros raw. unfold raw. rewrite vault_image_eq.
  assert (Hm : length K_VAULT_MAGIC = 8%nat) by reflexivity.
  pose proof (length_le_digits 4 K_VAULT_FORMAT_VERSION) as Hv.
  pose proof (length_le_digits 4 K_VAULT_PBKDF2_ITERATIONS) as Hi.
  pose proof (length_le_digits 8 (len (ciphertext enc))) as Hc.
  pose proof (len_nonneg (ciphertext enc)) as Hpos.
  assert (Hcu : is_u64 (len (ciphertext enc))) by (unfold is_u64 in *; lia).
  unfold K_VAULT_SALT_LEN in Hs.
  set (V := le_digits 4 K_VAULT_FORMAT_VERSION) in *.
  set (I := le_digits 4 K_VAULT_PBKDF2_ITERATIONS) in *.
  set (L := le_digits 8 (len (ciphertext enc))) in *.
  assert (Hlen : len (K_VAULT_MAGIC ++ V ++ salt ++ I ++ nonce enc ++ tag enc ++ L ++ ciphertext enc)
                 = 68 + len (ciphertext enc)).
  { rewrite !len_app. unfold len at 1 2 3 4 5 6 7. lia. }
  assert (Hct : hdr_ct_len (K_VAULT_MAGIC ++ V ++ salt ++ I ++ nonce enc ++ tag enc ++ L ++ ciphertext enc)
                = len (ciphertext enc)).
  { unfold hdr_ct_len. rewrite !app_assoc, <- (app_assoc _ L).
    rewrite drop_app_length' by (rewrite !length_app; lia). by apply get_put_le64. }
  split_and!.
  - done.
  - unfold has_magic. apply bool_decide_eq_true. by rewrite take_app_length'.
  - unfold hdr_version. rewrite drop_app_length' by done. by apply get_put_le32.
  - unfold hdr_salt, K_VAULT_SALT_LEN. rewrite app_assoc. apply slice_exact; [|done].
    rewrite length_app. lia.
  - unfold hdr_iterations. rewrite !app_assoc, <- !(app_assoc _ I), <- !app_assoc.
    rewrite (app_assoc K_VAULT_MAGIC), (app_assoc _ salt).
    rewrite drop_app_length' by (rewrite !length_app; lia). by apply get_put_le32.
  - unfold hdr_nonce, K_VAULT_NONCE_LEN. rewrite (app_assoc K_VAULT_MAGIC), (app_assoc _ salt), (app_assoc _ I).
    apply slice_exact; [|done]. rewrite !length_app. lia.
  - unfold hdr_tag, K_VAULT_TAG_LEN.
    rewrite (app_assoc K_VAULT_MAGIC), (app_assoc _ salt), (app_assoc _ I), (app_assoc _ (nonce enc)).
    apply slice_exact; [|done]. rewrite !length_app. lia.
  - unfold hdr_ciphertext, K_VAULT_HEADER_LEN. rewrite !app_assoc.
    apply drop_app_length'. rewrite !length_app. unfold K_VAULT_SALT_LEN, K_VAULT_NONCE_LEN, K_VAULT_TAG_LEN. lia.
  - unfold size_matches. rewrite Hct, Hlen, u64_id by done. apply Z.eqb_refl.
Qed.

(** ** Atomic replacement *)

(** [fs'] and [fs] differ at most at the temporary file. *)
Definition same_but (tmp : list byte) (fs fs' : FS) : Prop :=
  forall p, p <> tmp -> fs' !! p = fs !! p.

#[local] Instance same_but_refl tmp : Reflexive (same_but tmp).
Proof. by intros fs p. Qed.

#[local] Instance same_but_trans tmp : Transitive (same_but tmp).
Proof. intros a b c H1 H2 p Hp. by rewrite H2, H1. Qed.

Lemma same_but_insert tmp fs x : same_but tmp fs (<[tmp := x]> fs).
Proof. intros p Hp. by rewrite lookup_insert_ne. Qed.

Lemma same_but_delete tmp fs : same_but tmp fs (delete tmp fs).
Proof. intros p Hp. by rewrite lookup_delete_ne. Qed.

Lemma run_ops_app fs a b : run_ops fs (a ++ b) = run_ops (run_ops fs a) b.
Proof. apply fold_left_app. Qed.

Lemma unsynced_snoc ops op : unsynced (ops ++ [op]) = unsynced_step (unsynced ops) op.
Proof. apply fold_left_app. Qed.

(** The calls on the temporary file alone. *)
Definition on_tmp (tmp : list byte) (op : DiskOp) : Prop :=
  match op with Create p | Append p _ | Sync p | Unlink p => p = tmp | Rename _ _ | SyncDir => False end.

Lemma on_tmp_run tmp fs ops : Forall (on_tmp tmp) ops -> same_but tmp fs (run_ops fs ops).
Proof.
  intros H. revert fs. induction H as [|op ops Hop _ IH]; intros fs; [reflexivity|].
  change (run_ops fs (op :: ops)) with (run_ops (apply_op fs op) ops). etrans; [|apply IH].
  destruct op; cbn in *; subst; try done; apply same_but_insert || apply same_but_delete.
Qed.

Lemma on_tmp_unsynced tmp ops p : Forall (on_tmp tmp) ops -> p <> tmp -> p ∉ unsynced ops.
Proof.
  intros H Hp. induction ops as [|op ops IH] using rev_ind; [apply not_elem_of_empty|].
  apply Forall_app in H as [H Hop]. apply list.Forall_cons in Hop as [Hop _]. specialize (IH H). rewrite unsynced_snoc.
  destruct op; cbn [on_tmp unsynced_step] in *; subst; try done;
    rewrite ?elem_of_union, ?elem_of_difference, ?elem_of_singleton; intuition congruence.
Qed.

Lemma unlink_on_tmp sys tmp : Forall (on_tmp tmp) (unlink_tmp sys tmp).
Proof. unfold unlink_tmp. destruct (unlink_ok sys); by repeat constructor. Qed.

Lemma unlink_gone sys tmp fs : unlink_ok sys = true -> run_ops fs (unlink_tmp sys tmp) !! tmp = None.
Proof. unfold unlink_tmp. intros ->. cbn. apply lookup_delete_eq. Qed.

Lemma write_loop_spec sys answers tmp out written :
  0 <= written <= len out ->
  let (o, ops) := write_loop sys answers tmp out written in
  Forall (on_tmp tmp) ops /\
  forall fs, fs !! tmp = Some (take (Z.to_nat written) out) ->
    match o with
    | Saved => run_ops fs ops !! tmp = Some out
    | Thrown _ => unlink_ok sys = true -> run_ops fs ops !! tmp = None
    | Running => True
    end.
Proof.
  revert written. induction answers as [|n answers IH]; intros written Hw; cbn [write_loop];
    destruct (Z.leb_spec (len out) written) as [Hle|Hlt].
  1,3: split; [constructor|]; intros fs Hf; cbn; rewrite Hf, take_ge; [done|unfold len in *; lia].
  1: by split.
  destruct (Z.ltb_spec n 0) as [Hn|Hn].
  - split; [apply unlink_on_tmp|]. intros fs _. apply unlink_gone.
  - set (k := Z.min n (len out - written)). specialize (IH (written + k) ltac:(unfold k; lia)).
    destruct (write_loop sys answers tmp out (written + k)) as [o ops]. destruct IH as [H1 H2].
    split; [by constructor|]. intros fs Hf. apply H2. cbn [apply_op]. rewrite lookup_insert_eq, Hf. cbn [default]. f_equal.
    unfold id, slice. rewrite Z2Nat.inj_add by (unfold k; lia). by rewrite take_take_drop.
Qed.

Lemma tmp_path_ne sys path : tmp_path sys path <> path.
Proof.
  unfold tmp_path. generalize (pretty (pid sys) +:+ "-" +:+ pretty (seq_no sys)). intros s H.
  apply (f_equal length) in H. rewrite length_app in H.
  destruct (bytes_of (".tmp" +:+ s)) eqn:E; [discriminate E|cbn [length] in H; lia].
Qed.

(** What the calls so far have come to: the new contents are not in place, or
    they are there, complete, and on the disk. *)
Definition in_place (fs : FS) (path tmp out : list byte) (ops : list DiskOp) : Prop :=
  (forall p, p <> tmp -> p ∉ unsynced ops) /\
  (forall p, p <> path -> p <> tmp -> run_ops fs ops !! p = fs !! p) /\
  run_ops fs ops !! path = Some out.

Definition not_yet (fs : FS) (tmp : list byte) (ops : list DiskOp) : Prop :=
  (forall p, p <> tmp -> p ∉ unsynced ops) /\ same_but tmp fs (run_ops fs ops).

Lemma on_tmp_not_yet fs tmp ops : Forall (on_tmp tmp) ops -> not_yet fs tmp ops.
Proof. intros H. split; [intros p; by apply on_tmp_unsynced|by apply on_tmp_run]. Qed.

(** What each crash, the final state and the outcome are. *)
Record atomic (sys : SaveSys) (fs : FS) (path tmp out : list byte) (o : Outcome) (ops : list DiskOp) : Prop := {
  at_crash : forall kept, kept `prefix_of` ops -> not_yet fs tmp kept \/ in_place fs path tmp out kept;
  at_saved : o = Saved -> in_place fs path tmp out ops /\
               (dir_sync_ok sys = true -> exists before, ops = before ++ [SyncDir]);
  at_thrown : (exists e, o = Thrown e) -> run_ops fs ops !! path = fs !! path /\
                (unlink_ok sys = true -> fs !! tmp = None -> run_ops fs ops !! tmp = None)
}.

Lemma atomic_on_tmp sys fs path tmp out o ops :
  path <> tmp -> Forall (on_tmp tmp) ops -> o <> Saved ->
  ((exists e, o = Thrown e) -> unlink_ok sys = true -> fs !! tmp = None -> run_ops fs ops !! tmp = None) ->
  atomic sys fs path tmp out o ops.
Proof.
  intros Hp Hops Ho Hu. split; [|done|].
  - intros kept [rest ->]. left. apply Forall_app in Hops as [Hops _]. by apply on_tmp_not_yet.
  - intros He. split; [exact (on_tmp_run tmp fs ops Hops path Hp)|by apply Hu].
Qed.

(** A synced temporary file is renamed. *)
Lemma rename_in_place fs path tmp out ops :
  path <> tmp -> Forall (on_tmp tmp) ops -> run_ops fs ops !! tmp = Some out ->
  in_place fs path tmp out ((ops ++ [Sync tmp]) ++ [Rename tmp path]).
Proof.
  intros Hp Hops Ho. assert (Hr : run_ops fs ((ops ++ [Sync tmp]) ++ [Rename tmp path]) = <[path := out]> (delete tmp (run_ops fs ops))).
  { rewrite !run_ops_app. cbn. by rewrite Ho. }
  split_and!.
  - intros p Hne. rewrite !unsynced_snoc. pose proof (on_tmp_unsynced tmp ops p Hops Hne). cbn [unsynced_step].
    rewrite decide_False by (rewrite elem_of_difference, elem_of_singleton; tauto). rewrite !elem_of_difference. tauto.
  - intros p H1 H2. rewrite Hr, lookup_insert_ne, lookup_delete_ne by done. exact (on_tmp_run tmp fs ops Hops p H2).
  - rewrite Hr. apply lookup_insert_eq.
Qed.

Lemma in_place_sync fs path tmp out ops : in_place fs path tmp out ops -> in_place fs path tmp out (ops ++ [SyncDir]).
Proof. intros (H1 & H2 & H3). unfold in_place. rewrite unsynced_snoc, run_ops_app. by split_and!. Qed.

Lemma prefix_snoc {A} (k l : list A) x : k `prefix_of` l ++ [x] -> k `prefix_of` l \/ k = l ++ [x].
Proof.
  intros [r E]. destruct r as [|y r _] using rev_ind; [right; by rewrite app_nil_r in E|].
  left. rewrite app_assoc in E. apply app_inj_tail in E as [-> _]. by eexists.
Qed.

Lemma write_atomically_spec sys fs path out :
  let (o, ops) := write_atomically sys path out in atomic sys fs path (tmp_path sys path) out o ops.
Proof.
  unfold write_atomically. set (tmp := tmp_path sys path).
  assert (Hpt : path <> tmp) by (intros E; by apply (tmp_path_ne sys path)).
  destruct (open_ok sys); cbn [negb]; [|by apply atomic_on_tmp].
  pose proof (write_loop_spec sys (writes sys) tmp out 0 ltac:(pose proof (len_nonneg out); lia)) as H.
  destruct (write_loop sys (writes sys) tmp out 0) as [o ops]. destruct H as [Ht Ho].
  specialize (Ho (<[tmp := []]> fs) ltac:(rewrite lookup_insert_eq, take_0; done)).
  change (run_ops (<[tmp := []]> fs) ops) with (run_ops fs (Create tmp :: ops)) in Ho.
  assert (Hops : Forall (on_tmp tmp) (Create tmp :: ops)) by (by constructor).
  assert (Hs : Forall (on_tmp tmp) ((Create tmp :: ops) ++ [Sync tmp])) by (apply Forall_app; split; [done|by repeat constructor]).
  assert (Hfail : forall msg l, Forall (on_tmp tmp) l -> let (o, t) := fail_unlink sys msg tmp l in atomic sys fs path tmp out o t).
  { intros msg l Hl. unfold fail_unlink. apply atomic_on_tmp; [done| |done|].
    - apply Forall_app. split; [done|apply unlink_on_tmp].
    - intros _ Hu _. rewrite run_ops_app. by apply unlink_gone. }
  destruct o as [|e|]; [|by apply atomic_on_tmp; eauto|by apply atomic_on_tmp; [..|intros [? [=]]]].
  destruct (fsync_ok sys); cbn [negb]; [|by apply Hfail]. destruct (close_ok sys); cbn [negb]; [|by apply Hfail].
  destruct (rename_ok sys); cbn [negb]; [|by apply Hfail].
  pose proof (rename_in_place fs path tmp out _ Hpt Hops Ho) as Hin. set (l := (Create tmp :: ops) ++ [Sync tmp]) in *.
  assert (Hpre : forall kept, kept `prefix_of` l ++ [Rename tmp path] -> not_yet fs tmp kept \/ in_place fs path tmp out kept).
  { intros kept [[r Hk]| ->]%prefix_snoc; [left|by right]. rewrite Hk in Hs. apply Forall_app in Hs as [Hs _]. by apply on_tmp_not_yet. }
  destruct (dir_sync_ok sys) eqn:Ed; [|rewrite app_nil_r].
  - split; [|intros _|by intros [? [=]]].
    + intros kept [Hk| ->]%prefix_snoc; [by apply Hpre|right; by apply in_place_sync].
    + split; [by apply in_place_sync|]. intros _. by eexists.
  - split; [done|intros _; by rewrite Ed|by intros [? [=]]].
Qed.

(** After a crash at any point the vault file is the old one or the new one. *)
Lemma crash_atomic sys fs path tmp out o ops done_ fs' :
  path <> tmp -> atomic sys fs path tmp out o ops -> done_ `prefix_of` ops -> crash_after fs done_ fs' ->
  (fs' !! path = fs !! path \/ fs' !! path = Some out) /\
  (forall p, p <> path -> p <> tmp -> fs' !! p = fs !! p) /\
  (o = Saved -> done_ = ops -> dir_sync_ok sys = true -> fs' !! path = Some out).
Proof.
  intros Hp Hat Hd (kept & lost & -> & Hl & Hf).
  assert (Hk : kept `prefix_of` ops) by (etrans; [|exact Hd]; by eexists).
  split_and!.
  - destruct (at_crash _ _ _ _ _ _ _ Hat kept Hk) as [[H1 H2]|(H1 & H2 & H3)]; rewrite Hf by (by apply H1); [left; by apply H2|by right].
  - intros p H4 H5. destruct (at_crash _ _ _ _ _ _ _ Hat kept Hk) as [[H1 H2]|(H1 & H2 & H3)]; rewrite Hf by (by apply H1);
      [by apply H2|by apply H2].
  - intros -> Ho Hs. destruct (at_saved _ _ _ _ _ _ _ Hat eq_refl) as [(H1 & _ & H3) Hb].
    destruct (Hb Hs) as [before E]. destruct lost as [|x lost _] using rev_ind.
    + rewrite app_nil_r in Ho. subst kept. rewrite Hf by (by apply H1). done.
    + exfalso. rewrite E, app_assoc in Ho. apply app_inj_tail in Ho as [_ ->]. apply Hl, elem_of_app. right. by left.
Qed.

(** A system that always makes progress lets the loop finish. *)
Lemma write_loop_progress sys answers tmp out written :
  Forall (fun n => 1 <= n) answers -> 0 <= written -> len out <= written + Z.of_nat (length answers) ->
  fst (write_loop sys answers tmp out written) = Saved.
Proof.
  intros Ha. revert written. induction Ha as [|n answers Hn _ IH]; intros written Hw Hl;
    cbn [write_loop length] in *; destruct (Z.leb_spec (len out) written); try done; [lia|].
  rewrite (proj2 (Z.ltb_ge n 0)) by lia.
  set (w := written + Z.min n (len out - written)).
  specialize (IH w ltac:(unfold w; lia) ltac:(unfold w; lia)).
  by destruct (write_loop sys answers tmp out w) as [o ops].
Qed.

Definition cooperative (sys : SaveSys) (n : Z) : Prop :=
  open_ok sys = true /\ fsync_ok sys = true /\ close_ok sys = true /\ rename_ok sys = true /\
  Forall (fun k => 1 <= k) (writes sys) /\ n <= Z.of_nat (length (writes sys)).

Lemma write_atomically_saved sys path out :
  cooperative sys (len out) -> fst (write_atomically sys path out) = Saved.
Proof.
  intros (H1 & H2 & H3 & H4 & H5 & H6). unfold write_atomically. rewrite H1, H2, H3, H4. cbn [negb].
  pose proof (write_loop_progress sys (writes sys) (tmp_path sys path) out 0 H5 ltac:(lia) ltac:(lia)) as H.
  destruct (write_loop _ _ _ _ _) as [o ops]. cbn [fst] in H. by subst o.
Qed.

(** ** Encryption under the documented laws *)

Context `{L : !ScryptoLaws C}.

Lemma make_key_ok v salt it :
  0 < len (password_ v) -> length salt = K_VAULT_SALT_LEN -> 0 < it ->
  exists key, make_key v salt it = Ok key /\ len key = 32.
Proof.
  intros Hp Hs Hi. unfold make_key, derive_vault_key, check.
  rewrite (proj2 (Z.ltb_lt 0 (len (password_ v)))) by done. cbn [rbind].
  rewrite (proj2 (Z.ltb_lt 0 (len salt))) by (unfold len, K_VAULT_SALT_LEN in *; lia). cbn [rbind].
  rewrite (proj2 (Z.ltb_lt 0 it)) by done. cbn. eexists. split; [reflexivity|].
  apply pbkdf2_length. unfold K_VAULT_KEY_LEN. lia.
Qed.

(** Encryption then decryption through the wrappers, and the size of the result. *)
Lemma gcm_roundtrip key rnd payload :
  len key = 32 -> length rnd = 12%nat -> is_u64 (68 + len payload) ->
  exists enc, AESGCM_encrypt rnd key payload = Ok enc /\ wf_enc enc /\
    len (ciphertext enc) = len payload /\ AESGCM_decrypt key enc = Ok payload.
Proof.
  intros Hk Hn Hu. unfold AESGCM_encrypt, check_arg. rewrite Hk. cbn [rbind Z.eqb Pos.eqb].
  pose proof (gcm_tag_length key rnd payload) as Ht.
  pose proof (gcm_ciphertext_length key rnd payload) as Hc.
  pose proof (gcm_decrypt_encrypt key rnd payload) as Hd.
  destruct (aes256_gcm_encrypt key rnd payload) as [c t]. cbn [fst snd] in *.
  eexists. split; [reflexivity|]. split_and!.
  - unfold wf_enc. cbn [nonce tag ciphertext]. unfold len in *. by rewrite Hc.
  - cbn [ciphertext]. unfold len. by rewrite Hc.
  - unfold AESGCM_decrypt, check_arg. cbn [nonce tag ciphertext]. rewrite Hk.
    assert (len rnd = 12) as -> by (unfold len; lia). assert (len t = 16) as -> by (unfold len; lia).
    cbn [rbind Z.eqb Pos.eqb]. by rewrite Hd.
Qed.

(** A file that holds the image of an encryption opens and loads. *)
Lemma open_image fs path password salt enc key payload :
  fs !! path = Some (vault_image salt enc) -> length salt = K_VAULT_SALT_LEN -> wf_enc enc ->
  derive_vault_key password salt K_VAULT_PBKDF2_ITERATIONS K_VAULT_KEY_LEN = Ok key ->
  AESGCM_decrypt key enc = Ok payload ->
  open_vault fs path password = Ok (mkVault path password 1 true) /\
  forall ver, load fs (mkVault path password ver true) = Ok payload.
Proof.
  intros Hf Hs He Hk Hd. destruct (image_fields salt enc Hs He) as (H1 & H2 & H3 & H4 & H5 & H6 & H7 & H8 & H9).
  pose proof (len_nonneg (ciphertext enc)).
  assert (Hi : (K_VAULT_PBKDF2_ITERATIONS =? 0) = false) by done.
  assert (Hsz : (len (vault_image salt enc) <? Z.of_nat K_VAULT_HEADER_LEN) = false).
  { rewrite H1. apply Z.ltb_ge. unfold K_VAULT_HEADER_LEN, K_VAULT_SALT_LEN, K_VAULT_NONCE_LEN, K_VAULT_TAG_LEN. lia. }
  assert (Hg : mkGcm (ciphertext enc) (nonce enc) (tag enc) = enc) by (by destruct enc).
  split; [|intros ver]; unfold open_vault, load, read_file_bytes, make_key, check;
    cbn [path_ password_ valid_ rbind]; rewrite Hf; cbn [rbind];
    rewrite Hsz, H2, H3; cbn [negb orb rbind Z.eqb Pos.eqb K_VAULT_FORMAT_VERSION];
    rewrite H5, H9, H4, H6, H7, H8, Hg, ?Hi; cbn [negb rbind]; rewrite Hk; cbn [rbind]; by rewrite Hd.
Qed.

(** The preparation of a save, whatever the system then answers. *)
Lemma save_eq sys v salt rnd payload :
  0 < len (password_ v) -> length salt = K_VAULT_SALT_LEN -> length rnd = K_VAULT_NONCE_LEN ->
  is_u64 (68 + len payload) ->
  exists key enc,
    derive_vault_key (password_ v) salt K_VAULT_PBKDF2_ITERATIONS K_VAULT_KEY_LEN = Ok key /\
    wf_enc enc /\ len (vault_image salt enc) = 68 + len payload /\ AESGCM_decrypt key enc = Ok payload /\
    save sys v salt rnd payload =
      let (o, tr) := write_atomically sys (path_ v) (vault_image salt enc) in
      (o, match o with Saved => mkVault (path_ v) (password_ v) (version_ v) true | _ => v end, tr).
Proof.
  intros Hp Hs Hr Hu.
  destruct (make_key_ok v salt K_VAULT_PBKDF2_ITERATIONS Hp Hs ltac:(unfold K_VAULT_PBKDF2_ITERATIONS; lia))
    as (key & Hk & Hkl).
  destruct (gcm_roundtrip key rnd payload Hkl Hr Hu) as (enc & He & Hwe & Hcl & Hd).
  exists key, enc. split_and!; [done..| |done|].
  - destruct (image_fields salt enc Hs Hwe) as [-> _]. lia.
  - unfold save, check. rewrite (proj2 (Z.ltb_lt 0 (len (password_ v)))) by done. cbn [rbind].
    rewrite Hk. cbn [rbind]. rewrite He. by destruct (write_atomically _ _ _).
Qed.

(** A save that returns leaves the vault file there. *)
Lemma save_file sys fs v salt rnd payload :
  let '(o, _, tr) := save sys v salt rnd payload in o = Saved -> is_Some (run_ops fs tr !! path_ v).
Proof.
  unfold save. destruct (rbind _ _) as [enc|e]; [|done].
  pose proof (write_atomically_spec sys fs (path_ v) (vault_image salt enc)) as Hat.
  destruct (write_atomically sys (path_ v) (vault_image salt enc)) as [o tr].
  intros ->. destruct (at_saved _ _ _ _ _ _ _ Hat eq_refl) as [(_ & _ & Hf) _]. by exists (vault_image salt enc).
Qed.

(** The snapshot of a token, saved, is what a restore through any valid vault
    object on that file installs. *)
Lemma snapshot_restores sys fs t t2 v salt rnd :
  0 < len (password_ v) -> length salt = K_VAULT_SALT_LEN -> length rnd = K_VAULT_NONCE_LEN ->
  Snapshot.wf_snapshot (snapshot_from_token t) -> v_get_kek t <> [] -> len (v_get_kek t) < 2 ^ 63 ->
  wf_store (v_object_store_ t2) -> has_room (v_object_store_ t2) ->
  exists bytes, Snapshot.serialize_token_snapshot (snapshot_from_token t) = Ok bytes /\
    let '(o, v', tr) := save sys v salt rnd bytes in
    (cooperative sys (68 + len bytes) -> o = Saved) /\
    (o = Saved ->
     v' = mkVault (path_ v) (password_ v) (version_ v) true /\
     open_vault (run_ops fs tr) (path_ v) (password_ v) = Ok (mkVault (path_ v) (password_ v) 1 true) /\
     exists t2', snapshot_from_token t2' = installed t2 (snapshot_from_token t) /\
       forall ver, restore_token_from_vault (run_ops fs tr) t2 (mkVault (path_ v) (password_ v) ver true) = Ok t2').
Proof.
  intros Hp Hs Hr Hsnap Hkek Hfit Hwf Hroom.
  destruct (Snapshot.snapshot_bytes (snapshot_from_token t) Hsnap) as (bytes & Hser & Hlen & Hde). exists bytes. split; [done|].
  assert (Hu : is_u64 (68 + len bytes)).
  { rewrite Hlen. cbn [snapshot_from_token Snapshot.kek Snapshot.label Snapshot.id].
    destruct Hsnap as ((H1 & H2 & _) & _). cbn [snapshot_from_token Snapshot.label Snapshot.id] in H1, H2.
    pose proof (len_nonneg (v_label_ t)). pose proof (len_nonneg (v_id_ t)).
    pose proof (len_nonneg (v_get_kek t)). unfold is_u64. lia. }
  destruct (save_eq sys v salt rnd bytes Hp Hs Hr Hu) as (key & enc & Hk & He & Hl & Hd & ->).
  pose proof (write_atomically_spec sys fs (path_ v) (vault_image salt enc)) as Hat.
  pose proof (write_atomically_saved sys (path_ v) (vault_image salt enc)) as Hco.
  destruct (write_atomically sys (path_ v) (vault_image salt enc)) as [o tr]. cbn [fst] in Hco.
  split; [intros Hc; apply Hco; by rewrite Hl|].
  intros ->. destruct (at_saved _ _ _ _ _ _ _ Hat eq_refl) as [(_ & _ & Hf) _]. cbv zeta.
  destruct (open_image (run_ops fs tr) (path_ v) (password_ v) salt enc key bytes) as [Ho Hload]; [done..|]. split_and!; [done..|].
  assert (Hrestore : exists t2', restore_token_from_snapshot t2 (snapshot_from_token t) = Ok t2').
  { unfold restore_token_from_snapshot. destruct Hsnap as ((H1 & H2 & _) & _).
    rewrite (proj2 (Z.ltb_ge _ _)), (proj2 (Z.ltb_ge _ _)) by done. cbn [orb]. eauto. }
  destruct Hrestore as [t2' Ht2]. exists t2'. split; [by apply (snapshot_restored t2 t2' (snapshot_from_token t))|].
  intros ver. unfold restore_token_from_vault. rewrite Hload. cbn [rbind]. by rewrite Hde.
Qed.

(** *** Properties *)

(** C8: A payload saved under a password is what a later process gets back: if
    the save returns, the file opens with that password and loads the payload,
    through the saving vault as well; and the save does return when the system
    creates, writes (in any positive chunks), syncs and renames the file. *)
Theorem vault_save_load (sys : SaveSys) (fs : FS) (v : Vault) (salt rnd payload : list byte)
    (Hp : 0 < len (password_ v)) (Hs : length salt = K_VAULT_SALT_LEN)
    (Hr : length rnd = K_VAULT_NONCE_LEN) (Hu : is_u64 (68 + len payload)) :
  let '(o, v', tr) := save sys v salt rnd payload in
  let fs' := run_ops fs tr in
  (o = Saved ->
   open_vault fs' (path_ v) (password_ v) = Ok (mkVault (path_ v) (password_ v) 1 true) /\
   load fs' (mkVault (path_ v) (password_ v) 1 true) = Ok payload /\ load fs' v' = Ok payload) /\
  (cooperative sys (68 + len payload) -> o = Saved).
Proof.
  destruct (save_eq sys v salt rnd payload Hp Hs Hr Hu) as (key & enc & Hk & He & Hl & Hd & ->).
  pose proof (write_atomically_spec sys fs (path_ v) (vault_image salt enc)) as Hat.
  pose proof (write_atomically_saved sys (path_ v) (vault_image salt enc)) as Hco.
  destruct (write_atomically sys (path_ v) (vault_image salt enc)) as [o tr]. cbn [fst] in Hco.
  split; [|intros Hc; apply Hco; by rewrite Hl].
  intros ->. destruct (at_saved _ _ _ _ _ _ _ Hat eq_refl) as [(_ & _ & Hf) _]. cbv zeta.
  destruct (open_image (run_ops fs tr) (path_ v) (password_ v) salt enc key payload) as [Ho Hload]; [done..|].
  split_and!; [done|apply Hload..].
Qed.

(** C7: A save is atomic across crashes: after a crash at any of its system calls,
    on a disk that keeps the contents of a file only when it was synced, the vault
    file is what it was before or is complete and loads the new payload, and no
    other file but the temporary one has changed.  Once the save has returned,
    and the system synced the directory, every crash leaves the new payload.
    When the save throws, the vault file is what it was, the vault object is
    unchanged, and the temporary file is gone, unless removing it failed. *)
Theorem vault_save_atomic (sys : SaveSys) (fs : FS) (v : Vault) (salt rnd payload : list byte)
    (Hp : 0 < len (password_ v)) (Hs : length salt = K_VAULT_SALT_LEN)
    (Hr : length rnd = K_VAULT_NONCE_LEN) (Hu : is_u64 (68 + len payload)) :
  let '(o, v', ops) := save sys v salt rnd payload in
  (forall done_ fs', done_ `prefix_of` ops -> crash_after fs done_ fs' ->
    (fs' !! path_ v = fs !! path_ v \/
     load fs' (mkVault (path_ v) (password_ v) 1 true) = Ok payload) /\
    (forall p, p <> path_ v -> p <> tmp_path sys (path_ v) -> fs' !! p = fs !! p)) /\
  (o = Saved -> dir_sync_ok sys = true -> forall fs', crash_after fs ops fs' ->
     load fs' (mkVault (path_ v) (password_ v) 1 true) = Ok payload) /\
  (forall e, o = Thrown e ->
     v' = v /\ run_ops fs ops !! path_ v = fs !! path_ v /\
     (unlink_ok sys = true -> fs !! tmp_path sys (path_ v) = None -> run_ops fs ops !! tmp_path sys (path_ v) = None)).
Proof.
  destruct (save_eq sys v salt rnd payload Hp Hs Hr Hu) as (key & enc & Hk & He & Hl & Hd & ->).
  pose proof (write_atomically_spec sys fs (path_ v) (vault_image salt enc)) as Hat.
  destruct (write_atomically sys (path_ v) (vault_image salt enc)) as [o ops].
  assert (Hne : path_ v <> tmp_path sys (path_ v)) by (intros E; by apply (tmp_path_ne sys (path_ v))).
  assert (Hload : forall fs' : FS, fs' !! path_ v = Some (vault_image salt enc) -> load fs' (mkVault (path_ v) (password_ v) 1 true) = Ok payload).
  { intros fs' Hf. by destruct (open_image fs' (path_ v) (password_ v) salt enc key payload) as [_ ->]. }
  split_and!.
  - intros done_ fs' Hpre Hc. destruct (crash_atomic _ _ _ _ _ _ _ _ _ Hne Hat Hpre Hc) as ([H1|H1] & H2 & _); (split; [|done]); eauto.
  - intros -> Hd' fs' Hc. apply Hload. by apply (crash_atomic _ _ _ _ _ _ _ _ _ Hne Hat (reflexivity ops) Hc).
  - intros e ->. destruct (at_thrown _ _ _ _ _ _ _ Hat ltac:(eauto)) as [H1 H2]. done.
Qed.

(** Only an authentic file loads: whatever file is on disk, if the vault
    loads a payload from it then the file is the 68-byte header followed by a
    ciphertext of exactly that payload, and the ciphertext and the tag are those
    that encrypting this payload under the key of this password, for the salt
    and nonce in the header, gives. *)
Theorem vault_load_authentic (fs : FS) (v : Vault) (payload : list byte)
    (Hload : load fs v = Ok payload) :
  exists raw key, fs !! path_ v = Some raw /\
    derive_vault_key (password_ v) (hdr_salt raw) (hdr_iterations raw) K_VAULT_KEY_LEN = Ok key /\
    aes256_gcm_encrypt key (hdr_nonce raw) payload = (hdr_ciphertext raw, hdr_tag raw) /\
    len raw = 68 + len payload /\ take 8 raw = K_VAULT_MAGIC.
Proof.
  unfold load in Hload. inv_res. bool_to_prop.
  unfold read_file_bytes in *. destruct (fs !! path_ v) as [raw|]; [|discriminate].
  match goal with H : Ok raw = Ok _ |- _ => injection H as <- end.
  match goal with H : make_key _ _ _ = Ok ?k |- _ => rename k into key, H into Hkey end.
  exists raw, key. unfold make_key in Hkey.
  match goal with H : AESGCM_decrypt _ _ = Ok _ |- _ => rename H into Hdec end.
  unfold AESGCM_decrypt, check_arg in Hdec. cbn [nonce tag ciphertext] in Hdec.
  destruct (_ =? 32) in Hdec; [|discriminate]. cbn [rbind] in Hdec.
  destruct (_ =? 12) in Hdec; [|discriminate]. cbn [rbind] in Hdec.
  destruct (_ =? 16) in Hdec; [|discriminate]. cbn [rbind] in Hdec.
  destruct (aes256_gcm_decrypt _ _ _ _) as [p|] eqn:Ed; [|discriminate]. injection Hdec as ->.
  apply gcm_authentic in Ed.
  assert (Hcl : len (hdr_ciphertext raw) = len payload).
  { pose proof (gcm_ciphertext_length key (hdr_nonce raw) payload) as Hc. rewrite Ed in Hc. cbn [fst] in Hc.
    unfold len. by rewrite Hc. }
  assert (Hraw : 68 <= len raw).
  { unfold K_VAULT_HEADER_LEN, K_VAULT_SALT_LEN, K_VAULT_NONCE_LEN, K_VAULT_TAG_LEN in *. lia. }
  split_and!; [done..| |].
  - unfold hdr_ciphertext, K_VAULT_HEADER_LEN, K_VAULT_SALT_LEN, K_VAULT_NONCE_LEN, K_VAULT_TAG_LEN in Hcl.
    unfold len in *. rewrite length_drop in Hcl. lia.
  - unfold has_magic in *. by bool_to_prop.
Qed.

(** A token persisted to its vault and restored in another process is the
    same token but for its identity and session counts: every durable field and
    the KEK come back through encryption, the file and the snapshot format. *)
Theorem token_vault_roundtrip (sys : SaveSys) (fs : FS) (t t2 : v_TokenCore_M1) (v : Vault)
    (salt rnd : list byte)
    (Hp : 0 < len (password_ v)) (Hs : length salt = K_VAULT_SALT_LEN)
    (Hr : length rnd = K_VAULT_NONCE_LEN)
    (Hsnap : Snapshot.wf_snapshot (snapshot_from_token t)) (Hkek : v_get_kek t <> [])
    (Hfit : len (v_get_kek t) < 2 ^ 63)
    (Hwf : wf_store (v_object_store_ t2)) (Hroom : has_room (v_object_store_ t2)) :
  let '(o, v', tr) := persist_token_to_vault sys t v salt rnd in
  o = Saved ->
  exists t2', restore_token_from_vault (run_ops fs tr) t2 v' = Ok t2' /\
    snapshot_from_token t2' = installed t2 (snapshot_from_token t).
Proof.
  destruct (snapshot_restores sys fs t t2 v salt rnd Hp Hs Hr Hsnap Hkek Hfit Hwf Hroom) as (bytes & Hser & H).
  unfold persist_token_to_vault. rewrite Hser. destruct (save sys v salt rnd bytes) as [[o v'] tr].
  intros Ho. destruct H as [_ H]. destruct (H Ho) as (-> & _ & t2' & Hi & Ht). exists t2'. split; [apply Ht|done].
Qed.

End Crypto.

(** ** The laws can hold: a transparent cipher with a keyed tag *)

Definition toy_tag (key : list byte) : list byte := take 16 (key ++ replicate 16 x00).

#[local] Instance toy_crypto : Scrypto := {|
  pbkdf2_hmac_sha256 p s i n := take (Z.to_nat n) (p ++ s ++ replicate (Z.to_nat n) x00);
  aes256_gcm_encrypt key nonce p := (p, toy_tag key);
  aes256_gcm_decrypt key nonce c tag := if bool_decide (tag = toy_tag key) then Some c else None
|}.

#[local] Instance toy_laws : ScryptoLaws toy_crypto.
Proof.
  constructor.
  - intros p s i n Hn. cbn. unfold len. rewrite length_take, !length_app, length_replicate. lia.
  - intros key nonce p. cbn. unfold toy_tag. rewrite length_take, length_app, length_replicate. lia.
  - done.
  - intros key nonce p. cbn. by rewrite bool_decide_true.
  - intros key nonce c tag p H. cbn in *. by case_bool_decide; simplify_eq.
Qed.

Definition sample_sys : SaveSys := mkSys 42 7 true (replicate 100 3) true true true true true.
Definition sample_vault : Vault := mkVault (bytes_of "/v") (bytes_of "pw") 1 false.
Definition sample_salt : list byte := replicate 16 x01.
Definition sample_nonce : list byte := replicate 12 x02.

Lemma vault_save_load_witness :
  let '(o, v', tr) := save sample_sys sample_vault sample_salt sample_nonce (bytes_of "data") in
  let fs' := run_ops ∅ tr in
  (o = Saved ->
   open_vault fs' (bytes_of "/v") (bytes_of "pw") = Ok (mkVault (bytes_of "/v") (bytes_of "pw") 1 true) /\
   load fs' (mkVault (bytes_of "/v") (bytes_of "pw") 1 true) = Ok (bytes_of "data") /\
   load fs' v' = Ok (bytes_of "data")) /\
  (cooperative sample_sys (68 + 4) -> o = Saved).
Proof.
  apply (vault_save_load sample_sys ∅ sample_vault sample_salt sample_nonce (bytes_of "data"));
    vm_compute; intuition congruence.
Defined.

Lemma vault_save_atomic_witness :
  let '(o, v', ops) := save sample_sys sample_vault sample_salt sample_nonce (bytes_of "data") in
  o = Saved /\ length ops = 28%nat /\
  (forall done_ fs', done_ `prefix_of` ops -> crash_after ∅ done_ fs' ->
    (fs' !! bytes_of "/v" = (∅ : FS) !! bytes_of "/v" \/
     load fs' (mkVault (bytes_of "/v") (bytes_of "pw") 1 true) = Ok (bytes_of "data")) /\
    (forall p, p <> bytes_of "/v" -> p <> bytes_of "/v.tmp42-7" -> fs' !! p = (∅ : FS) !! p)) /\
  (o = Saved -> true = true -> forall fs', crash_after ∅ ops fs' ->
     load fs' (mkVault (bytes_of "/v") (bytes_of "pw") 1 true) = Ok (bytes_of "data")).
Proof.
  pose proof (vault_save_atomic sample_sys ∅ sample_vault sample_salt sample_nonce (bytes_of "data")
    ltac:(vm_compute; reflexivity) ltac:(reflexivity) ltac:(reflexivity) ltac:(vm_compute; intuition congruence)) as H.
  assert (E : fst (fst (save sample_sys sample_vault sample_salt sample_nonce (bytes_of "data"))) = Saved /\
    length (snd (save sample_sys sample_vault sample_salt sample_nonce (bytes_of "data"))) = 28%nat) by (vm_compute; by split).
  destruct (save sample_sys sample_vault sample_salt sample_nonce (bytes_of "data")) as [[o v'] ops]. cbn [fst snd] in E.
  destruct E as [E1 E2]. destruct H as (H1 & H2 & _). split; [exact E1|]. split; [exact E2|]. split; [exact H1|exact H2].
Defined.

Definition sample_fs : FS :=
  run_ops ∅ (snd (save sample_sys sample_vault sample_salt sample_nonce (bytes_of "data"))).

Lemma vault_load_authentic_witness :
  exists raw key, sample_fs !! bytes_of "/v" = Some raw /\
    derive_vault_key (bytes_of "pw") (hdr_salt raw) (hdr_iterations raw) K_VAULT_KEY_LEN = Ok key /\
    aes256_gcm_encrypt key (hdr_nonce raw) (bytes_of "data") = (hdr_ciphertext raw, hdr_tag raw) /\
    len raw = 68 + 4 /\ take 8 raw = K_VAULT_MAGIC.
Proof.
  apply (vault_load_authentic sample_fs (mkVault (bytes_of "/v") (bytes_of "pw") 1 true) (bytes_of "data")).
  vm_compute. reflexivity.
Defined.

Lemma token_vault_roundtrip_witness :
  let '(o, v', tr) := persist_token_to_vault sample_sys crowded_token sample_vault
                        sample_salt sample_nonce in
  o = Saved ->
  exists t2', restore_token_from_vault (run_ops ∅ tr) (new_core [] [] 0) v' = Ok t2' /\
    snapshot_from_token t2' = installed (new_core [] [] 0) (snapshot_from_token crowded_token).
Proof.
  apply (token_vault_roundtrip sample_sys ∅ crowded_token (new_core [] [] 0) sample_vault
    sample_salt sample_nonce).
  - vm_compute. reflexivity.
  - reflexivity.
  - reflexivity.
  - vm_compute. intuition congruence.
  - vm_compute. discriminate.
  - vm_compute. reflexivity.
  - apply new_store_wf.
  - right. vm_compute. reflexivity.
Defined.
