(* ===== verification/AuditLog.v ===== *)
(** * The hash-chained audit log

    [src/src/audit/audit_log.cpp]: one record per line,
    [SEQ|TS|EVENT_ID|EVENT_TYPE|PREV_HEX|HMAC_HEX], each record authenticated
    with an HMAC that covers the HMAC of the record before.

    HMAC-SHA256 comes from [scrypto], outside the repository: it is the
    parameter [hmac_sha256], of which only the length of the result is used.
    Timestamps and the answers of the file operations are arguments.  The file
    is its bytes, or [None] when it does not exist; [fgets] cuts it into the
    pieces a buffer of the given size holds. *)

From S2P Require Import Prelude Codec Types.

Definition PIPE : byte := to_u8 124.
Definition NL : byte := to_u8 10.
Definition kHexDigestLen : nat := 64.

(** [std::to_string] of a 64-bit number: at most 20 digits. *)
Definition digit (d : Z) : byte := to_u8 (48 + d).

Fixpoint dec (fuel : nat) (z : Z) (acc : list byte) : list byte :=
  match fuel with
  | O => acc
  | S fuel =>
    let acc := digit (z mod 10) :: acc in
    if z / 10 =? 0 then acc else dec fuel (z / 10) acc
  end.

Definition to_string (z : Z) : list byte := dec 20 z [].

(** [strtoull] in base 10: white space and a sign are skipped, the digits that
    follow are read, the value saturates at [ULLONG_MAX] and a minus sign
    negates modulo [2^64] what did not saturate. *)
Definition is_digit (c : byte) : bool := (48 <=? u8 c) && (u8 c <=? 57).

Definition is_space (c : byte) : bool := ((9 <=? u8 c) && (u8 c <=? 13)) || (u8 c =? 32).

Fixpoint strtoull_loop (s : list byte) (acc : Z) : Z :=
  match s with
  | [] => acc
  | c :: s => if is_digit c then strtoull_loop s (10 * acc + (u8 c - 48)) else acc
  end.

Fixpoint skip_spaces (s : list byte) : list byte :=
  match s with
  | c :: r => if is_space c then skip_spaces r else s
  | [] => []
  end.

Definition strtoull (s : list byte) : Z :=
  let s := skip_spaces s in
  let neg := match s with c :: _ => u8 c =? 45 | [] => false end in
  let s := match s with c :: r => if (u8 c =? 45) || (u8 c =? 43) then r else s | [] => [] end in
  let v := strtoull_loop s 0 in
  if 2 ^ 64 - 1 <? v then 2 ^ 64 - 1 else if neg then u64 (- v) else v.

(** [fgets] until the end of the file, with a buffer of [size] bytes: a piece
    ends after a newline or when [size - 1] bytes are in. *)
Fixpoint chunks (n left : nat) (cur s : list byte) : list (list byte) :=
  match s with
  | [] => match cur with [] => [] | _ => [cur] end
  | c :: s =>
    let cur := cur ++ [c] in
    if bool_decide (c = NL) || Nat.eqb left 1 then cur :: chunks n n [] s
    else chunks n (left - 1) cur s
  end.

Definition fgets_all (size : nat) (s : list byte) : list (list byte) :=
  chunks (size - 1) (size - 1) [] s.

(** [std::string s(line)] stops at a NUL byte; then the newline is dropped. *)
Fixpoint c_str (s : list byte) : list byte :=
  match s with
  | [] => []
  | c :: s => if bool_decide (c = x00) then [] else c :: c_str s
  end.

Definition chomp (s : list byte) : list byte :=
  if bool_decide (List.last s x00 = NL) then removelast s else s.

(** [s.find('|')]: what is before and after the first separator. *)
Fixpoint split_first (s : list byte) : option (list byte * list byte) :=
  match s with
  | [] => None
  | c :: s => if bool_decide (c = PIPE) then Some ([], s)
              else match split_first s with Some (a, b) => Some (c :: a, b) | None => None end
  end.

(** What follows the last separator: [s.substr(s.rfind('|') + 1)]. *)
Fixpoint after_last (s : list byte) : option (list byte) :=
  match s with
  | [] => None
  | c :: s => match after_last s with
              | Some r => Some r
              | None => if bool_decide (c = PIPE) then Some s else None
              end
  end.

(** The loop over the six fields: five cut at separators, then the rest; it
    breaks when a separator is missing. *)
Fixpoint split_fields (k : nat) (s : list byte) : list (list byte) :=
  match k with
  | O => [s]
  | S k => match split_first s with
           | None => []
           | Some (a, rest) => a :: split_fields k rest
           end
  end.

(** ** Text lemmas *)

(** A field that cannot be confused with the separators. *)
Definition clean_byte (c : byte) : bool :=
  negb (bool_decide (c = PIPE)) && negb (bool_decide (c = NL)) && negb (bool_decide (c = x00)).

Definition clean (s : list byte) : Prop := Forall (fun c => clean_byte c = true) s.

Lemma clean_app s t : clean (s ++ t) <-> clean s /\ clean t.
Proof. apply Forall_app. Qed.

Lemma clean_not s c : clean s -> clean_byte c = false -> c ∉ s.
Proof. intros H Hc Hin. unfold clean in H. rewrite list.Forall_forall in H. specialize (H _ Hin). congruence. Qed.

Lemma clean_pipe s : clean s -> PIPE ∉ s.
Proof. intros H. by apply clean_not. Qed.

Lemma split_first_app a rest : PIPE ∉ a -> split_first (a ++ PIPE :: rest) = Some (a, rest).
Proof.
  induction a as [|c a IH]; intros H; cbn [app split_first]; [by rewrite bool_decide_true|].
  apply not_elem_of_cons in H as [H1 H2]. rewrite bool_decide_false by congruence. by rewrite IH.
Qed.

Lemma split_first_inv s a b : split_first s = Some (a, b) -> s = a ++ PIPE :: b /\ PIPE ∉ a.
Proof.
  revert a. induction s as [|c s IH]; intros a H; [discriminate|]. cbn [split_first] in H.
  case_bool_decide as E; [injection H as <- <-; subst; split; [done|]; by intros ?%elem_of_nil|].
  destruct (split_first s) as [[a' b']|]; [|discriminate]. injection H as <- <-.
  destruct (IH a' eq_refl) as [-> Hn]. split; [done|]. apply not_elem_of_cons. split; [congruence|done].
Qed.

Lemma after_last_app a b : PIPE ∉ b -> after_last (a ++ PIPE :: b) = Some b.
Proof.
  intros Hb. assert (Hn : after_last b = None).
  { induction b as [|c b IH]; [done|]. apply not_elem_of_cons in Hb as [H1 H2]. cbn [after_last].
    rewrite IH by done. by rewrite bool_decide_false by congruence. }
  induction a as [|c a IH]; cbn [app after_last]; [by rewrite Hn, bool_decide_true|]. by rewrite IH.
Qed.

Lemma c_str_id s : x00 ∉ s -> c_str s = s.
Proof.
  induction s as [|c s IH]; intros H; [done|]. apply not_elem_of_cons in H as [H1 H2]. cbn [c_str].
  rewrite bool_decide_false by congruence. by rewrite IH.
Qed.

Lemma chomp_line s : chomp (s ++ [NL]) = s.
Proof. unfold chomp. rewrite last_last, removelast_last. by rewrite bool_decide_true. Qed.

(** A complete line that fits in the buffer is one piece. *)
Lemma chunks_line n b cur left rest :
  NL ∉ b -> (length b < left)%nat ->
  chunks n left cur (b ++ NL :: rest) = (cur ++ b ++ [NL]) :: chunks n n [] rest.
Proof.
  revert cur left. induction b as [|c b IH]; intros cur left Hn Hl; cbn [app chunks length] in *.
  - by rewrite bool_decide_true.
  - apply not_elem_of_cons in Hn as [H1 H2]. rewrite bool_decide_false by congruence. cbn [orb].
    destruct (Nat.eqb_spec left 1); [lia|]. rewrite IH by (done || lia). by rewrite <- app_assoc.
Qed.

Definition good_line (n : nat) (l : list byte) : Prop :=
  exists b, l = b ++ [NL] /\ (NL ∉ b) /\ (length l <= n)%nat.

Lemma fgets_lines size lines :
  Forall (good_line (size - 1)) lines -> fgets_all size (List.concat lines) = lines.
Proof.
  unfold fgets_all. induction 1 as [|l lines (b & -> & Hn & Hl) _ IH]; [done|].
  cbn [List.concat]. rewrite length_app in Hl. cbn [length] in Hl.
  rewrite <- app_assoc. cbn [app]. rewrite chunks_line by (done || lia). by rewrite IH.
Qed.

(** *** Decimal numbers *)

Lemma digit_clean d : 0 <= d < 10 -> clean_byte (digit d) = true /\ is_digit (digit d) = true /\ u8 (digit d) = 48 + d.
Proof.
  intros Hd. assert (Hu : u8 (digit d) = 48 + d) by (unfold digit; rewrite u8_to_u8, Z.mod_small; lia).
  split_and!; [| |done].
  - assert (H : forallb (fun k => clean_byte (digit (Z.of_nat k))) (seq 0 10) = true) by (vm_compute; reflexivity).
    rewrite forallb_forall in H. specialize (H (Z.to_nat d)). rewrite Z2Nat.id in H by lia.
    apply H, in_seq. lia.
  - unfold is_digit. rewrite Hu. apply andb_true_iff. split; apply Z.leb_le; lia.
Qed.

Definition digits (s : list byte) : Prop := Forall (fun c => is_digit c = true) s.

Lemma dec_spec fuel z acc :
  0 <= z < 10 ^ Z.of_nat fuel -> (0 < fuel)%nat ->
  exists ds, dec fuel z acc = ds ++ acc /\ clean ds /\ digits ds /\ (length ds <= fuel)%nat /\
    forall s, strtoull_loop (ds ++ s) 0 = strtoull_loop s z.
Proof.
  revert z acc. induction fuel as [|fuel IH]; intros z acc Hz Hf; [lia|]. cbn [dec].
  pose proof (Z.mod_pos_bound z 10 ltac:(lia)) as Hm. pose proof (Z.div_mod z 10 ltac:(lia)) as Hdm.
  destruct (digit_clean (z mod 10) Hm) as (Hc & Hd & Hu).
  destruct (Z.eqb_spec (z / 10) 0) as [E|E].
  - exists [digit (z mod 10)]. split_and!; [done|by repeat constructor|by repeat constructor|cbn; lia|].
    intros s. cbn [app strtoull_loop]. rewrite Hd, Hu. f_equal. lia.
  - rewrite Nat2Z.inj_succ, Z.pow_succ_r in Hz by lia.
    assert (Hz' : 0 <= z / 10 < 10 ^ Z.of_nat fuel)
      by (split; [apply Z.div_pos; lia|apply Z.div_lt_upper_bound; lia]).
    destruct fuel as [|fuel]; [cbn in Hz'; lia|].
    destruct (IH (z / 10) (digit (z mod 10) :: acc) Hz' ltac:(lia)) as (ds & -> & Hcl & Hdg & Hlen & Hval).
    exists (ds ++ [digit (z mod 10)]). split_and!.
    + by rewrite <- app_assoc.
    + apply clean_app. split; [done|by repeat constructor].
    + apply Forall_app. split; [done|by repeat constructor].
    + rewrite length_app. cbn [length]. lia.
    + intros s. rewrite <- app_assoc. rewrite Hval. cbn [app strtoull_loop]. rewrite Hd, Hu. f_equal. lia.
Qed.

(** Digits only: no white space, no sign. *)
Lemma dec_nonempty fuel z acc : acc <> [] -> dec fuel z acc <> [].
Proof.
  revert z acc. induction fuel as [|fuel IH]; intros z acc Ha; [done|]. cbn [dec]. destruct (_ =? 0); [done|by apply IH].
Qed.

Lemma dec_some fuel z acc : dec (S fuel) z acc <> [].
Proof. cbn [dec]. destruct (_ =? 0); [done|by apply dec_nonempty]. Qed.

Lemma strtoull_digits s : digits s -> strtoull s = Z.min (strtoull_loop s 0) (2 ^ 64 - 1).
Proof.
  intros H. unfold strtoull. assert (E : skip_spaces s = s).
  { destruct H as [|c s Hc _]; [done|]. cbn [skip_spaces]. unfold is_digit in Hc. unfold is_space.
    destruct (_ || _) eqn:E; [lia|done]. }
  rewrite E. destruct H as [|c s Hc _]; [vm_compute; reflexivity|]. unfold is_digit in Hc.
  destruct (Z.eqb_spec (u8 c) 45); [lia|]. destruct (Z.eqb_spec (u8 c) 43); [lia|]. cbn [orb].
  destruct (Z.ltb_spec (2 ^ 64 - 1) (strtoull_loop (c :: s) 0)); lia.
Qed.

Lemma to_string_spec z :
  is_u64 z -> clean (to_string z) /\ (length (to_string z) <= 20)%nat /\ strtoull (to_string z) = z.
Proof.
  intros Hz. unfold is_u64 in Hz.
  destruct (dec_spec 20 z [] ltac:(cbn; lia) ltac:(lia)) as (ds & E & Hc & Hd & Hl & Hv).
  unfold to_string. rewrite E, app_nil_r. split_and!; [done..|]. specialize (Hv []). rewrite app_nil_r in Hv.
  rewrite strtoull_digits by done. rewrite Hv. cbn [strtoull_loop]. lia.
Qed.

Lemma hex_clean d : clean (Utils.hex_encode d).
Proof.
  assert (H : forall b, (clean_byte (Utils.hex_char (Z.shiftr (u8 b) 4)) && clean_byte (Utils.hex_char (Z.land (u8 b) 15))) = true)
    by (apply forall_bytes; vm_compute; reflexivity).
  induction d as [|b d IH]; [constructor|]. cbn [Utils.hex_encode]. specialize (H b).
  apply andb_true_iff in H as [H1 H2]. by repeat constructor.
Qed.

Lemma hex_encode_length d : length (Utils.hex_encode d) = (2 * length d)%nat.
Proof. induction d as [|b d IH]; [done|]. cbn [Utils.hex_encode length]. rewrite IH. lia. Qed.

Lemma hex_inj a b : Utils.hex_encode a = Utils.hex_encode b -> a = b.
Proof.
  intros H. apply (f_equal Utils.hex_decode_loop) in H. rewrite !Utils.hex_decode_loop_encode in H. congruence.
Qed.

Section Chain.
Context (hmac_sha256 : list byte -> list byte -> list byte).

Definition chain_hmac (key record_bytes : list byte) : list byte := hmac_sha256 key record_bytes.

(** The lower-case hexadecimal of a digest. *)
Definition to_hex (d : list byte) : list byte := Utils.hex_encode d.

Record HashChainedAuditLog : Type := mkLog {
  chain_key_ : list byte;
  seq_ : Z;
  tail_hex_ : list byte;
  tail_publisher_ : bool
}.

Definition zero_hash : list byte := replicate kHexDigestLen (to_u8 48).

(** One line of [recover_tail]: the last well-formed line wins. *)
Definition recover_line (st : Z * list byte) (line : list byte) : Z * list byte :=
  let s := chomp (c_str line) in
  match after_last s with
  | None => st
  | Some t =>
    match split_first s with
    | Some (a, _) => (strtoull a, t)
    | None => (fst st, t)
    end
  end.

Definition recover_tail (file : option (list byte)) : Z * list byte :=
  match file with
  | None => (0, zero_hash)
  | Some content => fold_left recover_line (fgets_all 1024 content) (0, zero_hash)
  end.

(** The constructor. *)
Definition open_log (key : list byte) (file : option (list byte)) : HashChainedAuditLog :=
  let (s, t) := recover_tail file in mkLog key s t false.

Definition set_tail_publisher (log : HashChainedAuditLog) (cb : bool) : HashChainedAuditLog :=
  mkLog (chain_key_ log) (seq_ log) (tail_hex_ log) cb.

(** [SEQ|TS|ID|TYPE|PREV]. *)
Definition join5 (a b c d e : list byte) : list byte :=
  a ++ [PIPE] ++ b ++ [PIPE] ++ c ++ [PIPE] ++ d ++ [PIPE] ++ e.

(** What the operations on the file answer: whether it opens, the short count
    of [fwrite] if it is short, whether [fflush] and [fsync] succeed, and how
    many bytes of the line are in the file when one of the three fails. *)
Record AppendSys : Type := mkAppendSys {
  fopen_ok : bool;
  fwrite_short : option nat;
  sync_ok : bool;
  reached : nat
}.

(** The code, the log and the file afterwards, and what the tail publisher is
    called with, if one is registered. *)
Definition append (sys : AppendSys) (ts : list byte) (log : HashChainedAuditLog)
    (file : option (list byte)) (event_id event_type : list byte)
    : CK_RV * HashChainedAuditLog * option (list byte) * option (list byte * Z) :=
  let seq := u64 (seq_ log + 1) in
  let log := mkLog (chain_key_ log) seq (tail_hex_ log) (tail_publisher_ log) in
  let record_bytes := join5 (to_string seq) ts event_id event_type (tail_hex_ log) in
  let mac := chain_hmac (chain_key_ log) record_bytes in
  let hex := to_hex mac in
  let line := record_bytes ++ [PIPE] ++ hex ++ [NL] in
  if negb (fopen_ok sys) then (CKR_FUNCTION_FAILED, log, file, None)
  else
    let ok := match fwrite_short sys with Some _ => false | None => sync_ok sys end in
    if negb ok then
      (CKR_FUNCTION_FAILED, log, Some (default [] file ++ take (reached sys) line), None)
    else
      (CKR_OK, mkLog (chain_key_ log) seq hex (tail_publisher_ log), Some (default [] file ++ line),
       if tail_publisher_ log then Some (hex, seq) else None).

(** [P11AuditLog::append], the log without a chain that is used while there is no key:
    the code and the file afterwards. *)
Definition fallback_line (ts event_id event_type : list byte) : list byte :=
  ts ++ [PIPE] ++ event_id ++ [PIPE] ++ event_type ++ [NL].

Definition fallback_append (sys : AppendSys) (ts : list byte) (file : option (list byte)) (event_id event_type : list byte)
    : CK_RV * option (list byte) :=
  let line := fallback_line ts event_id event_type in
  if negb (fopen_ok sys) then (CKR_OK, file)
  else
    let ok := match fwrite_short sys with Some _ => false | None => sync_ok sys end in
    if negb ok then (CKR_DEVICE_ERROR, Some (default [] file ++ take (reached sys) line))
    else (CKR_OK, Some (default [] file ++ line)).

Definition fallback_path (path : list byte) : list byte :=
  if bool_decide (path = []) then bytes_of "/tmp/vhsm_audit_fallback.log" else path.

(** One line of [verify_chain]: the HMAC it ends with, when it is good. *)
Definition verify_line (key prev line : list byte) : option (list byte) :=
  match split_fields 5 (chomp (c_str line)) with
  | [p0; p1; p2; p3; p4; p5] =>
    if negb (Nat.eqb (length p5) kHexDigestLen) then None
    else if negb (bool_decide (p4 = prev)) then None
    else if negb (bool_decide (to_hex (chain_hmac key (join5 p0 p1 p2 p3 p4)) = p5)) then None
    else Some p5
  | _ => None
  end.

Fixpoint verify_lines (key prev : list byte) (lineno : nat) (lines : list (list byte)) : option nat :=
  match lines with
  | [] => None
  | l :: lines =>
    match verify_line key prev l with
    | None => Some (S lineno)
    | Some h => verify_lines key h (S lineno) lines
    end
  end.

(** [None] when the chain is intact, else the number of the first bad line. *)
Definition verify_chain (log : HashChainedAuditLog) (file : option (list byte)) : option nat :=
  match file with
  | None => None
  | Some content => verify_lines (chain_key_ log) zero_hash 0 (fgets_all 2048 content)
  end.

(** ** A log that was only appended to *)

(** The chain of [lines] from [prev] on: its last HMAC when every line is
    good. *)
Fixpoint chain_end (key prev : list byte) (lines : list (list byte)) : option (list byte) :=
  match lines with
  | [] => Some prev
  | l :: lines => match verify_line key prev l with None => None | Some h => chain_end key h lines end
  end.

Lemma verify_lines_end key prev n lines :
  verify_lines key prev n lines = None <-> exists t, chain_end key prev lines = Some t.
Proof.
  revert prev n. induction lines as [|l lines IH]; intros prev n; cbn [verify_lines chain_end].
  - split; [by exists prev|done].
  - destruct (verify_line key prev l) as [h|]; [apply IH|]. split; [done|by intros [? ?]].
Qed.

Lemma chain_end_snoc key prev lines l :
  chain_end key prev (lines ++ [l]) =
  match chain_end key prev lines with None => None | Some h => verify_line key h l end.
Proof.
  revert prev. induction lines as [|l' lines IH]; intros prev; cbn [app chain_end].
  - by destruct (verify_line key prev l).
  - destruct (verify_line key prev l') as [h|]; [apply IH|done].
Qed.

Lemma split_fields_join a b c d e h :
  clean a -> clean b -> clean c -> clean d -> clean e ->
  split_fields 5 (join5 a b c d e ++ [PIPE] ++ h) = [a; b; c; d; e; h].
Proof.
  intros ?%clean_pipe ?%clean_pipe ?%clean_pipe ?%clean_pipe ?%clean_pipe.
  unfold join5. rewrite <- !app_assoc. cbn [split_fields app].
  repeat (rewrite split_first_app by done; cbn [app]). done.
Qed.

(** The bytes of a record that [append] writes: no separator inside a field,
    no newline, no NUL. *)
Lemma join5_line_free a b c d e h :
  clean a -> clean b -> clean c -> clean d -> clean e -> clean h ->
  (NL ∉ join5 a b c d e ++ [PIPE] ++ h) /\ (x00 ∉ join5 a b c d e ++ [PIPE] ++ h).
Proof.
  intros Ha Hb Hc Hd He Hh. unfold join5.
  split; rewrite !not_elem_of_app; split_and!; try (by apply clean_not);
    intros E%list_elem_of_singleton; discriminate.
Qed.

Lemma zero_hash_clean : clean zero_hash.
Proof. by apply Forall_replicate. Qed.

(** [verify_line] and [recover_line] on a line as [append] writes it. *)
Lemma verify_line_ok key a b c d prev :
  (forall k m, length (hmac_sha256 k m) = 32%nat) ->
  clean a -> clean b -> clean c -> clean d -> clean prev ->
  let h := to_hex (chain_hmac key (join5 a b c d prev)) in
  verify_line key prev ((join5 a b c d prev ++ [PIPE] ++ h) ++ [NL]) = Some h.
Proof.
  intros Hlen Ha Hb Hc Hd Hp h. assert (Hh : clean h) by apply hex_clean.
  destruct (join5_line_free a b c d prev h) as [Hn Hz]; try done.
  unfold verify_line. rewrite c_str_id.
  2:{ rewrite not_elem_of_app. split; [done|]. by intros E%list_elem_of_singleton. }
  rewrite chomp_line, split_fields_join by done.
  assert (E : length h = kHexDigestLen).
  { unfold h, to_hex, chain_hmac. rewrite hex_encode_length, Hlen. done. }
  rewrite E, Nat.eqb_refl. cbn [negb]. rewrite !bool_decide_true by done. done.
Qed.

Lemma recover_line_ok st a b c d prev h :
  clean a -> clean b -> clean c -> clean d -> clean prev -> clean h ->
  recover_line st ((join5 a b c d prev ++ [PIPE] ++ h) ++ [NL]) = (strtoull a, h).
Proof.
  intros Ha Hb Hc Hd Hp Hh. destruct (join5_line_free a b c d prev h) as [Hn Hz]; try done.
  unfold recover_line. rewrite c_str_id.
  2:{ rewrite not_elem_of_app. split; [done|]. by intros E%list_elem_of_singleton. }
  rewrite chomp_line. cbn [app]. rewrite after_last_app by (by apply clean_pipe).
  unfold join5. rewrite <- !app_assoc. cbn [app]. by rewrite split_first_app by (by apply clean_pipe).
Qed.

(** An append: what the system answers, the time stamp, the event. *)
Record AppendOp : Type := mkOp {
  op_sys : AppendSys; op_ts : list byte; op_id : list byte; op_type : list byte
}.

(** A run of appends on one log and its file, and how many returned [CKR_OK]. *)
Fixpoint run (log : HashChainedAuditLog) (file : option (list byte)) (ops : list AppendOp)
    : HashChainedAuditLog * option (list byte) * nat :=
  match ops with
  | [] => (log, file, O)
  | op :: ops =>
    match append (op_sys op) (op_ts op) log file (op_id op) (op_type op) with
    | (rv, log, file, _) =>
      match run log file ops with
      | (log, file, n) => (log, file, if rv =? CKR_OK then S n else n)
      end
    end
  end.

(** Events whose fields have no separator, newline or NUL and whose line fits
    in the 1024-byte buffer of [recover_tail]. *)
Definition clean_op (op : AppendOp) : Prop :=
  clean (op_ts op) /\ clean (op_id op) /\ clean (op_type op) /\
  (length (op_ts op) + length (op_id op) + length (op_type op) <= 869)%nat.

(** The file does not open, or the line is written whole. *)
Definition untorn (op : AppendOp) : Prop :=
  fopen_ok (op_sys op) = false \/ (fwrite_short (op_sys op) = None /\ sync_ok (op_sys op) = true).

(** What the file and the running log have in common. *)
Definition log_inv (n k : nat) (log : HashChainedAuditLog) (file : option (list byte)) : Prop :=
  is_u64 (seq_ log) /\ (n <= k)%nat /\
  exists lines s, default [] file = List.concat lines /\ (file = None -> lines = []) /\ length lines = n /\
    Forall (good_line 1023) lines /\ clean (tail_hex_ log) /\ length (tail_hex_ log) = kHexDigestLen /\
    chain_end (chain_key_ log) zero_hash lines = Some (tail_hex_ log) /\
    fold_left recover_line lines (0, zero_hash) = (s, tail_hex_ log) /\
    (n = k -> s = seq_ log).

Lemma log_inv_fresh key : log_inv 0 0 (open_log key None) None.
Proof.
  split; [by vm_compute|]. split; [done|]. exists [], 0. split_and!; try done; try apply zero_hash_clean.
Qed.

Lemma append_inv n k log file op rv log' file' pub :
  (forall k m, length (hmac_sha256 k m) = 32%nat) ->
  clean_op op -> untorn op -> log_inv n k log file ->
  append (op_sys op) (op_ts op) log file (op_id op) (op_type op) = (rv, log', file', pub) ->
  chain_key_ log' = chain_key_ log /\ log_inv (if rv =? CKR_OK then S n else n) (S k) log' file'.
Proof.
  intros Hlen (Hts & Hid & Hty & Hsz) Hun (Hu & Hnk & lines & s & Hf & Hnone & Hcnt & Hgood & Hcl & Hl & Hend & Hrec & Hs) H.
  unfold append in H. set (q := u64 (seq_ log + 1)) in *.
  assert (Hq : is_u64 q) by apply u64_is_u64. destruct (to_string_spec q Hq) as (Hqc & Hql & Hqv).
  destruct (fopen_ok (op_sys op)) eqn:Eo; cbn [negb] in H.
  2:{ injection H as <- <- <- <-. split; [done|]. split; [done|]. split; [cbn; lia|]. exists lines, s.
    split_and!; try done; cbn; lia. }
  destruct Hun as [?|[E1 E2]]; [congruence|]. rewrite E1, E2 in H. cbn [negb] in H.
  injection H as <- <- <- <-. split; [done|]. split; [done|]. split; [cbn; lia|]. cbn [chain_key_ tail_hex_].
  set (h := to_hex _) in *. cbn [chain_key_ tail_hex_] in h.
  set (r := join5 _ _ _ _ _) in *. cbn [chain_key_ tail_hex_] in r.
  assert (Hhc : clean h) by apply hex_clean.
  assert (Hhl : length h = kHexDigestLen) by (unfold h, to_hex, chain_hmac; by rewrite hex_encode_length, Hlen).
  exists (lines ++ [(r ++ [PIPE] ++ h) ++ [NL]]), q. cbn [default].
  pose proof (join5_line_free (to_string q) (op_ts op) (op_id op) (op_type op) (tail_hex_ log) h
    Hqc Hts Hid Hty Hcl Hhc) as [Hn _].
  split_and!; try done.
  - rewrite concat_app, Hf. cbn [List.concat]. by rewrite app_nil_r, <- !app_assoc.
  - rewrite length_app, Hcnt. cbn. lia.
  - apply Forall_app. split; [done|]. apply Forall_singleton. exists (r ++ [PIPE] ++ h). split_and!; try done.
    unfold r, join5. rewrite !length_app. cbn [length]. unfold kHexDigestLen in *. lia.
  - rewrite chain_end_snoc, Hend. by apply verify_line_ok.
  - rewrite fold_left_app, Hrec. cbn [fold_left]. unfold r. rewrite recover_line_ok by done. by rewrite Hqv.
Qed.

Lemma run_inv key ops n k log file log' file' m :
  (forall k m, length (hmac_sha256 k m) = 32%nat) ->
  Forall clean_op ops -> Forall untorn ops -> chain_key_ log = key -> log_inv n k log file ->
  run log file ops = (log', file', m) ->
  chain_key_ log' = key /\ log_inv (n + m) (k + length ops) log' file'.
Proof.
  intros Hlen Hc Hu. revert n k log file log' file' m.
  induction ops as [|op ops IH]; intros n k log file log' file' m Hk Hi H; cbn [run length] in *.
  - injection H as <- <- <-. by rewrite !Nat.add_0_r.
  - inversion_clear Hc as [|? ? Hc1 Hc2]. inversion_clear Hu as [|? ? Hu1 Hu2].
    destruct (append _ _ _ _ _ _) as [[[rv log1] file1] pub] eqn:Ea.
    destruct (append_inv n k log file op _ _ _ _ Hlen Hc1 Hu1 Hi Ea) as [Hk1 Hi1].
    destruct (run log1 file1 ops) as [[log2 file2] m2] eqn:Er. injection H as <- <- <-.
    destruct (IH Hc2 Hu2 _ _ _ _ _ _ _ (eq_trans Hk1 Hk) Hi1 Er) as [Hk2 Hi2]. split; [done|].
    destruct (rv =? CKR_OK).
    + by replace (n + S m2)%nat with (S n + m2)%nat by lia; replace (k + S (length ops))%nat with (S k + length ops)%nat by lia.
    + by replace (k + S (length ops))%nat with (S k + length ops)%nat by lia.
Qed.

Lemma good_line_mono n m l : (n <= m)%nat -> good_line n l -> good_line m l.
Proof. intros Hnm (b & -> & Hb & Hl). exists b. split_and!; [done..|lia]. Qed.

(** C36: a log that starts on a fresh file and is only appended to verifies:
    whatever clean events are logged, and whichever appends find the file
    impossible to open, [verify_chain] reports no bad line, the file holds
    exactly one line per append that returned [CKR_OK], and a log opened on
    the file later continues the chain where the running log left it - with
    the same sequence number too, when no append failed. *)
Theorem audit_chain_intact key ops log file n :
  (forall k m, length (hmac_sha256 k m) = 32%nat) ->
  Forall clean_op ops -> Forall untorn ops ->
  run (open_log key None) None ops = (log, file, n) ->
  verify_chain log file = None /\
  length (fgets_all 2048 (default [] file)) = n /\
  tail_hex_ (open_log key file) = tail_hex_ log /\
  (n = length ops -> seq_ (open_log key file) = seq_ log).
Proof.
  intros Hlen Hc Hu Hr.
  destruct (run_inv key ops 0 0 (open_log key None) None _ _ _ Hlen Hc Hu eq_refl (log_inv_fresh key) Hr)
    as (Hk & Hq & Hnk & lines & s & Hf & Hnone & Hcnt & Hgood & Hcl & Hl & Hend & Hrec & Hs).
  cbn [Nat.add] in *.
  assert (E1 : fgets_all 1024 (List.concat lines) = lines) by (by apply fgets_lines).
  assert (E2 : fgets_all 2048 (List.concat lines) = lines).
  { apply fgets_lines. eapply list.Forall_impl; [exact Hgood|]. intros l. apply good_line_mono. lia. }
  assert (Hrt : recover_tail file = (s, tail_hex_ log)).
  { destruct file as [content|]; cbn in Hf |- *; [by rewrite Hf, E1|].
    rewrite (Hnone eq_refl) in Hrec. exact Hrec. }
  rewrite Hf, E2. unfold open_log. rewrite Hrt. cbn [tail_hex_ seq_]. split_and!; try done.
  destruct file as [content|]; [|done]. cbn in Hf |- *. rewrite Hf, E2, Hk.
  apply verify_lines_end. rewrite <- Hk. by eexists.
Qed.

(** ** What the last HMAC binds *)

Definition line_text (line : list byte) : list byte := chomp (c_str line).

(** The part of a line that its HMAC authenticates. *)
Definition record_of (line : list byte) : list byte :=
  match split_fields 5 (line_text line) with
  | [p0; p1; p2; p3; p4; _] => join5 p0 p1 p2 p3 p4
  | _ => []
  end.

Lemma split_fields_inv k s ps :
  split_fields k s = ps -> length ps = S k ->
  match k with O => ps = [s]
  | S k' => exists a rest, s = a ++ PIPE :: rest /\ (PIPE ∉ a) /\ ps = a :: split_fields k' rest end.
Proof.
  destruct k as [|k]; intros <-; [done|]. cbn [split_fields].
  destruct (split_first s) as [[a rest]|] eqn:E; [|done]. intros _.
  apply split_first_inv in E as [-> Hn]. by exists a, rest.
Qed.

Lemma split_fields_six s p0 p1 p2 p3 p4 p5 :
  split_fields 5 s = [p0; p1; p2; p3; p4; p5] ->
  s = join5 p0 p1 p2 p3 p4 ++ [PIPE] ++ p5 /\
  (PIPE ∉ p0) /\ (PIPE ∉ p1) /\ (PIPE ∉ p2) /\ (PIPE ∉ p3) /\ (PIPE ∉ p4).
Proof.
  intros H.
  destruct (split_fields_inv 5 s _ H eq_refl) as (a0 & r0 & -> & H0 & E0).
  injection E0 as -> E0. symmetry in E0.
  destruct (split_fields_inv 4 r0 _ E0 eq_refl) as (a1 & r1 & -> & H1 & E1).
  injection E1 as -> E1. symmetry in E1.
  destruct (split_fields_inv 3 r1 _ E1 eq_refl) as (a2 & r2 & -> & H2 & E2).
  injection E2 as -> E2. symmetry in E2.
  destruct (split_fields_inv 2 r2 _ E2 eq_refl) as (a3 & r3 & -> & H3 & E3).
  injection E3 as -> E3. symmetry in E3.
  destruct (split_fields_inv 1 r3 _ E3 eq_refl) as (a4 & r4 & -> & H4 & E4).
  injection E4 as -> ->. unfold join5. rewrite <- !app_assoc. by split_and!.
Qed.

Lemma pipe_inj a b r s : (PIPE ∉ a) -> (PIPE ∉ b) -> a ++ PIPE :: r = b ++ PIPE :: s -> a = b /\ r = s.
Proof.
  intros Ha Hb E. apply (f_equal split_first) in E. rewrite !split_first_app in E by done. by injection E.
Qed.

(** A good line is its record and the HMAC of it, and the record names the
    HMAC before. *)
Lemma verify_line_inv key prev line h :
  verify_line key prev line = Some h ->
  h = to_hex (chain_hmac key (record_of line)) /\ line_text line = record_of line ++ [PIPE] ++ h /\
  exists a b c d, record_of line = join5 a b c d prev /\
    (PIPE ∉ a) /\ (PIPE ∉ b) /\ (PIPE ∉ c) /\ (PIPE ∉ d).
Proof.
  unfold verify_line, record_of. fold (line_text line).
  destruct (split_fields 5 (line_text line)) as [|p0 [|p1 [|p2 [|p3 [|p4 [|p5 [|]]]]]]] eqn:E; try done.
  destruct (negb _); [done|]. case_bool_decide as Hp; [|done]. cbn [negb].
  case_bool_decide as Hh; [|done]. cbn [negb]. intros [= <-]. subst p4.
  destruct (split_fields_six _ _ _ _ _ _ _ E) as (Ht & ? & ? & ? & ? & ?).
  split_and!; try done. by exists p0, p1, p2, p3.
Qed.

Lemma join5_last a b c d e a' b' c' d' e' :
  (PIPE ∉ a) -> (PIPE ∉ b) -> (PIPE ∉ c) -> (PIPE ∉ d) ->
  (PIPE ∉ a') -> (PIPE ∉ b') -> (PIPE ∉ c') -> (PIPE ∉ d') ->
  join5 a b c d e = join5 a' b' c' d' e' -> e = e'.
Proof.
  intros. unfold join5 in *. cbn [app] in *.
  repeat match goal with H : _ ++ PIPE :: _ = _ ++ PIPE :: _ |- _ => apply pipe_inj in H as [_ H]; [|done..] end.
  done.
Qed.

(** The last HMAC of a file: the one that is anchored outside. *)
Definition last_hmac (log : HashChainedAuditLog) (file : option (list byte)) : list byte :=
  default zero_hash (chain_end (chain_key_ log) zero_hash (fgets_all 2048 (default [] file))).

Lemma chain_end_binds key ls gs t :
  chain_end key zero_hash ls = Some t -> chain_end key zero_hash gs = Some t ->
  map line_text ls = map line_text gs \/
  (exists l g, l ∈ ls /\ g ∈ gs /\ record_of l <> record_of g /\
     chain_hmac key (record_of l) = chain_hmac key (record_of g)) \/
  (exists l, (l ∈ ls \/ l ∈ gs) /\ to_hex (chain_hmac key (record_of l)) = zero_hash).
Proof.
  revert gs t. induction ls as [|l ls IH] using rev_ind; intros gs t Hl Hg;
    destruct gs as [|g gs _] using rev_ind; rewrite ?chain_end_snoc in *.
  - by left.
  - injection Hl as <-. destruct (chain_end key zero_hash gs) as [h|]; [|done].
    apply verify_line_inv in Hg as (E & _). right. right. exists g. split; [set_solver|by symmetry].
  - injection Hg as <-. destruct (chain_end key zero_hash ls) as [h|]; [|done].
    apply verify_line_inv in Hl as (E & _). right. right. exists l. split; [set_solver|by symmetry].
  - destruct (chain_end key zero_hash ls) as [h|] eqn:El; [|done].
    destruct (chain_end key zero_hash gs) as [h'|] eqn:Eg; [|done].
    apply verify_line_inv in Hl as (E1 & T1 & a & b & c & d & R1 & ? & ? & ? & ?).
    apply verify_line_inv in Hg as (E2 & T2 & a' & b' & c' & d' & R2 & ? & ? & ? & ?).
    destruct (decide (record_of l = record_of g)) as [Er|Er].
    2:{ right. left. exists l, g. split_and!; [set_solver..|done|]. apply hex_inj. unfold to_hex in *. congruence. }
    assert (h = h') as <- by (eapply (join5_last a b c d h a' b' c' d' h'); congruence || done).
    destruct (IH gs h eq_refl Eg) as [Em|[(l0 & g0 & ? & ? & ? & ?)|(l0 & Hin & ?)]].
    + left. rewrite !map_app, Em. cbn [map]. by rewrite T1, T2, Er.
    + right. left. exists l0, g0. split_and!; set_solver.
    + right. right. exists l0. split; [destruct Hin; set_solver|done].
Qed.

(** The pieces [fgets] makes of a file: each ends with its newline or fills the
    buffer, except the last one, which may end with the file. *)
Definition full_piece (n : nat) (l : list byte) : Prop := good_line n l \/ (NL ∉ l) /\ length l = n.

Inductive pieces (n : nat) : list (list byte) -> Prop :=
| pieces_nil : pieces n []
| pieces_end l : (NL ∉ l) -> pieces n [l]
| pieces_cons l ls : full_piece n l -> pieces n ls -> pieces n (l :: ls).

Lemma chunks_pieces n left cur s :
  (0 < left)%nat -> (length cur + left = n)%nat -> (NL ∉ cur) ->
  pieces n (chunks n left cur s) /\ List.concat (chunks n left cur s) = cur ++ s.
Proof.
  intros Hl Hn Hc. assert (Hn0 : (0 < n)%nat) by lia. revert left cur Hl Hn Hc.
  induction s as [|c s IH]; intros left cur Hl Hn Hc; cbn [chunks].
  { rewrite app_nil_r. destruct cur as [|d cur]; cbn [List.concat]; rewrite ?app_nil_r; split; done || constructor. done. }
  destruct (IH n [] Hn0 eq_refl (not_elem_of_nil _)) as [IH1 IH2].
  assert (Hlen : length (cur ++ [c]) = S (length cur)) by (rewrite length_app; cbn; lia).
  case_bool_decide as Ec; cbn [orb].
  - subst c. cbn [List.concat]. rewrite IH2, <- app_assoc. split; [|done]. constructor; [|done]. left. exists cur.
    split_and!; [done..|lia].
  - assert (Hc' : NL ∉ cur ++ [c]) by (rewrite elem_of_app, list_elem_of_singleton; intros [?|?]; congruence).
    destruct (Nat.eqb_spec left 1) as [->|Hl1].
    + cbn [List.concat]. rewrite IH2, <- app_assoc. split; [|done]. constructor; [|done]. right. split; [done|lia].
    + destruct (IH (left - 1)%nat (cur ++ [c])) as [H1 H2]; [lia|lia|done|]. by rewrite H2, <- app_assoc.
Qed.

Lemma fgets_pieces size s : (1 < size)%nat -> pieces (size - 1) (fgets_all size s) /\ List.concat (fgets_all size s) = s.
Proof. intros H. unfold fgets_all. apply (chunks_pieces (size - 1) (size - 1) [] s); [lia|done|apply not_elem_of_nil]. Qed.

Lemma chomp_other l : (NL ∉ l) -> chomp l = l.
Proof.
  intros H. unfold chomp. rewrite bool_decide_false; [done|]. destruct l as [|c l _] using rev_ind; [done|]. rewrite last_last.
  intros ->. apply H, elem_of_app. right. by left.
Qed.

(** The same bytes, but for a newline at the end. *)
Definition up_to_final_newline (f g : list byte) : Prop := f = g \/ f = g ++ [NL] \/ g = f ++ [NL].

Lemma full_piece_inj n l g : full_piece n l -> full_piece n g -> chomp l = chomp g -> l = g.
Proof.
  intros [(b & -> & Hb & Lb)|[Hl Ll]] [(d & -> & Hd & Ld)|[Hg Lg]]; rewrite ?chomp_line, ?chomp_other by done;
    rewrite ?length_app in *; cbn [length] in *; intros ->; done || lia.
Qed.

Lemma full_piece_end n l g : full_piece n l -> (NL ∉ g) -> chomp l = chomp g -> l = g \/ l = g ++ [NL].
Proof.
  intros [(b & -> & Hb & Lb)|[Hl Ll]] Hg; rewrite ?chomp_line, ?chomp_other by done; intros ->; [by right|by left].
Qed.

Lemma pieces_determine n ls gs :
  pieces n ls -> pieces n gs -> map chomp ls = map chomp gs -> up_to_final_newline (List.concat ls) (List.concat gs).
Proof.
  unfold up_to_final_newline. intros Hl. revert gs. induction Hl as [|l Hl|l ls Hl Hls IH]; intros gs Hg E.
  - destruct gs; [by left|done].
  - destruct Hg as [|g Hg|g gs Hg Hgs]; [done| |]; cbn [List.concat]; rewrite !app_nil_r.
    + injection E as E. left. by rewrite !chomp_other in E.
    + injection E as E E'. destruct gs; [|done]. cbn [List.concat]. rewrite app_nil_r. symmetry in E.
      destruct (full_piece_end n g l Hg Hl E) as [->| ->]; auto.
  - destruct Hg as [|g Hg|g gs Hg Hgs]; [done| |]; injection E as E E'; cbn [List.concat].
    + destruct ls; [|done]. cbn [List.concat]. rewrite !app_nil_r. destruct (full_piece_end n l g Hl Hg E) as [->| ->]; auto.
    + rewrite (full_piece_inj n l g Hl Hg E). rewrite <- !app_assoc.
      destruct (IH gs Hgs E') as [->|[->| ->]]; rewrite ?app_assoc; auto.
Qed.

(** Lines without a NUL byte are read whole. *)
Lemma texts_chomped ls f : List.concat ls = f -> (x00 ∉ f) -> map line_text ls = map chomp ls.
Proof.
  intros <- H. apply map_ext_in. intros l Hl. unfold line_text. rewrite c_str_id; [done|].
  intros Hx. apply H, list_elem_of_In, in_concat. exists l. split; [done|by apply list_elem_of_In].
Qed.

(** C37: the last HMAC binds the whole log.  Two files without a NUL byte that both
    verify under one key and end with the same HMAC are the same, byte for byte - nothing
    was changed, reordered, inserted or cut off between them - but for a missing
    newline at the very end, unless two different records found in them have the same
    HMAC, or a record has the all-zero HMAC the chain starts from.  (The verifier does not
    look at what follows a NUL byte in a line.) *)
Theorem audit_tail_binds log file file' :
  (x00 ∉ default [] file) -> (x00 ∉ default [] file') ->
  verify_chain log file = None -> verify_chain log file' = None ->
  last_hmac log file = last_hmac log file' ->
  let ls := fgets_all 2048 (default [] file) in
  let gs := fgets_all 2048 (default [] file') in
  up_to_final_newline (default [] file) (default [] file') \/
  (exists l g, l ∈ ls /\ g ∈ gs /\ record_of l <> record_of g /\
     chain_hmac (chain_key_ log) (record_of l) = chain_hmac (chain_key_ log) (record_of g)) \/
  (exists l, (l ∈ ls \/ l ∈ gs) /\ to_hex (chain_hmac (chain_key_ log) (record_of l)) = zero_hash).
Proof.
  intros Hz Hz' H H' Ht ls gs.
  assert (V : forall f, verify_chain log f = None ->
    exists t, chain_end (chain_key_ log) zero_hash (fgets_all 2048 (default [] f)) = Some t).
  { intros [c|] Hv; cbn in Hv |- *; [by apply verify_lines_end in Hv|]. by exists zero_hash. }
  destruct (V _ H) as [t E], (V _ H') as [t' E'].
  assert (Eq : t' = t) by (unfold last_hmac in Ht; rewrite E, E' in Ht; by cbn in Ht). subst t'.
  destruct (chain_end_binds (chain_key_ log) ls gs t E E') as [Em|Hc]; [left|by right].
  destruct (fgets_pieces 2048 (default [] file)) as [P1 C1]; [lia|]. destruct (fgets_pieces 2048 (default [] file')) as [P2 C2]; [lia|].
  rewrite (texts_chomped ls _ C1 Hz), (texts_chomped gs _ C2 Hz') in Em.
  rewrite <- C1, <- C2. exact (pieces_determine _ _ _ P1 P2 Em).
Qed.
End Chain.

(** ** Witnesses: a checksum in the place of HMAC-SHA256 *)

Definition toy_hmac (key m : list byte) : list byte :=
  LeBytes.le_digits 32 (fold_left (fun a c => a * 257 + u8 c + 1) (key ++ m) 1).

Definition sys_ok : AppendSys := mkAppendSys true None true 0.
Definition sys_noopen : AppendSys := mkAppendSys false None true 0.

Definition demo_ops : list AppendOp :=
  [ mkOp sys_ok (bytes_of "2024-01-01T00:00:00.000Z") (bytes_of "e1") (bytes_of "LOGIN");
    mkOp sys_noopen (bytes_of "2024-01-01T00:00:01.000Z") (bytes_of "e2") (bytes_of "LOGOUT");
    mkOp sys_ok (bytes_of "2024-01-01T00:00:02.000Z") (bytes_of "e3") (bytes_of "SIGN") ].

Lemma audit_chain_intact_witness :
  Forall clean_op demo_ops /\ Forall untorn demo_ops /\
  (let '(log, file, n) := run toy_hmac (open_log (bytes_of "key") None) None demo_ops in
   verify_chain toy_hmac log file = None /\
   length (fgets_all 2048 (default [] file)) = n /\
   tail_hex_ (open_log (bytes_of "key") file) = tail_hex_ log /\
   (n = length demo_ops -> seq_ (open_log (bytes_of "key") file) = seq_ log)).
Proof.
  assert (Hc : Forall clean_op demo_ops).
  { repeat constructor. }
  assert (Hu : Forall untorn demo_ops).
  { repeat constructor; (by left) || (by right). }
  split; [exact Hc|]. split; [exact Hu|].
  destruct (run toy_hmac (open_log (bytes_of "key") None) None demo_ops) as [[log file] n] eqn:E.
  apply (audit_chain_intact toy_hmac (bytes_of "key") demo_ops log file n); [|exact Hc|exact Hu|exact E].
  intros k m. apply LeBytes.length_le_digits.
Defined.

Definition demo_file : option (list byte) := snd (fst (run toy_hmac (open_log (bytes_of "key") None) None demo_ops)).

(** The same log without its last newline. *)
Definition cut_file : option (list byte) := option_map (@removelast byte) demo_file.

Lemma audit_tail_binds_witness :
  let log := open_log (bytes_of "key") demo_file in
  length (fgets_all 2048 (default [] demo_file)) = 2%nat /\ default [] demo_file <> default [] cut_file /\
  (let ls := fgets_all 2048 (default [] demo_file) in
   let gs := fgets_all 2048 (default [] cut_file) in
   up_to_final_newline (default [] demo_file) (default [] cut_file) \/
   (exists l g, l ∈ ls /\ g ∈ gs /\ record_of l <> record_of g /\
      chain_hmac toy_hmac (chain_key_ log) (record_of l) = chain_hmac toy_hmac (chain_key_ log) (record_of g)) \/
   (exists l, (l ∈ ls \/ l ∈ gs) /\ to_hex (chain_hmac toy_hmac (chain_key_ log) (record_of l)) = zero_hash)).
Proof.
  split; [vm_compute; reflexivity|]. split; [vm_compute; discriminate|].
  apply (audit_tail_binds toy_hmac (open_log (bytes_of "key") demo_file) demo_file cut_file);
    first [apply (bool_decide_unpack _); vm_compute; exact I|vm_compute; reflexivity].
Defined.

(** ** Where the code departs from its comments *)

(** Text after a NUL byte in a line is not seen by the verifier: the log verifies, with
    the same last HMAC, after text was inserted there. *)
Lemma text_after_nul_not_seen :
  let log := open_log (bytes_of "key") demo_file in
  match fgets_all 2048 (default [] demo_file) with
  | l :: ls =>
    let forged := Some (removelast l ++ x00 :: bytes_of "forged" ++ [NL] ++ List.concat ls) in
    forged <> demo_file /\ verify_chain toy_hmac log forged = None /\ last_hmac toy_hmac log forged = last_hmac toy_hmac log demo_file
  | [] => False
  end.
Proof. vm_compute. split_and!; (reflexivity || discriminate). Qed.

(** An event whose line is longer than the 1024-byte buffer of [recover_tail]
    but fits the 2048-byte buffer of [verify_chain]: the log verifies, and the
    log that is opened on it continues the wrong chain, so that the next
    append makes the file fail verification. *)
Lemma long_line_forks_chain :
  let key := bytes_of "key" in
  let long := replicate 900 (to_u8 65) in
  let '(rv, log, file, _) := append toy_hmac sys_ok (bytes_of "t") (open_log key None) None (bytes_of "e") long in
  let '(rv', log', file', _) := append toy_hmac sys_ok (bytes_of "t") (open_log key file) file (bytes_of "e") (bytes_of "x") in
  rv = CKR_OK /\ verify_chain toy_hmac log file = None /\ tail_hex_ (open_log key file) <> tail_hex_ log /\
  rv' = CKR_OK /\ verify_chain toy_hmac log' file' = Some 2%nat.
Proof. vm_compute. split_and!; (reflexivity || discriminate). Qed.

(** A separator inside an event id is written as it is: the record the log
    itself appended is then reported as bad. *)
Lemma separator_in_event_breaks_chain :
  let '(rv, log, file, _) :=
    append toy_hmac sys_ok (bytes_of "t") (open_log (bytes_of "key") None) None (bytes_of "a|b") (bytes_of "x") in
  rv = CKR_OK /\ verify_chain toy_hmac log file = Some 1%nat.
Proof. vm_compute. split; reflexivity. Qed.

(** A write that fails half way leaves its bytes in the file: the next record
    is glued to them and the chain stays broken. *)
Lemma torn_append_breaks_chain :
  let key := bytes_of "key" in
  let torn := mkAppendSys true (Some 3%nat) true 3 in
  let '(rv, log, file, _) := append toy_hmac torn (bytes_of "t") (open_log key None) None (bytes_of "e") (bytes_of "x") in
  let '(rv', log', file', _) := append toy_hmac sys_ok (bytes_of "t") log file (bytes_of "e") (bytes_of "x") in
  rv = CKR_FUNCTION_FAILED /\ rv' = CKR_OK /\ seq_ log' = 2 /\ verify_chain toy_hmac log' file' = Some 1%nat.
Proof. vm_compute. split_and!; reflexivity. Qed.

(** The log without a chain keeps what it had, and a code other than CKR_OK means that
    the line is not whole. *)
Lemma fallback_append_keeps sys ts file id type :
  exists more, snd (fallback_append sys ts (Some file) id type) = Some (file ++ more) /\
    (fopen_ok sys = true -> fst (fallback_append sys ts (Some file) id type) = CKR_OK -> more = fallback_line ts id type).
Proof.
  unfold fallback_append. destruct (fopen_ok sys); cbn [negb]; [|by exists []; rewrite app_nil_r].
  destruct (fwrite_short sys); [|destruct (sync_ok sys)]; cbn [negb fst snd]; eexists; split; done.
Qed.

(** A file that does not open loses the event with CKR_OK. *)
Lemma fallback_drops_silently :
  fallback_append (mkAppendSys false None true 0) (bytes_of "t") (Some []) (bytes_of "e") (bytes_of "x") = (CKR_OK, Some []).
Proof. reflexivity. Qed.
