(* ===== verification/KeyPolicy.v ===== *)
(** * Key usage policies

    [src/src/domain/signing/key_policy.cpp], the attestation counter
    [parse_attr_count] of [src/src/pkcs11/p11_crypto.cpp] and the lifecycle gate
    [p11_key_state_error] of [src/src/pkcs11/pkcs11_internal.h].

    The JSON documents are those of the nlohmann library, which is not in the
    repository: it is the class [NlohmannJson] of the operations the code calls,
    with the laws [NlohmannJsonLaws] that its documentation gives them. *)

From S2P Require Import Prelude Codec Types Objects AuditLog.
Import LeBytes HsmObj.

(** ** The JSON library *)

Class NlohmannJson : Type := {
  json : Type;
  parse : list byte -> res json;
  dump : json -> res (list byte);
  is_object : json -> bool;
  is_null : json -> bool;
  is_string : json -> bool;
  (** [contains(k)] and [operator[](k)] of an object. *)
  find_member : json -> list byte -> option json;
  (** What a range-for visits. *)
  elements : json -> list json;
  get_string : json -> list byte;
  get_int64 : json -> res Z;
  get_int : json -> res Z;
  (** [exception::what()] of a parse error, and the constructors behind
      [doc[key] = value]. *)
  of_strings : list (list byte) -> json;
  of_int : Z -> json;
  of_members : list (list byte * json) -> json
}.

Fixpoint assoc_last {A} (k : list byte) (l : list (list byte * A)) : option A :=
  match l with
  | [] => None
  | (k', v) :: l => match assoc_last k l with
                    | Some w => Some w
                    | None => if bool_decide (k = k') then Some v else None
                    end
  end.

Class NlohmannJsonLaws (J : NlohmannJson) : Prop := {
  parse_dump : forall j s, dump j = Ok s -> parse s = Ok j;
  dump_nonempty : forall j s, dump j = Ok s -> s <> [];
  is_object_members : forall l, is_object (of_members l) = true;
  find_member_spec : forall l k, find_member (of_members l) k = assoc_last k l;
  is_null_int : forall z, is_null (of_int z) = false;
  is_null_strings : forall l, is_null (of_strings l) = false;
  get_int64_int : forall z, - 2 ^ 63 <= z < 2 ^ 63 -> get_int64 (of_int z) = Ok z;
  get_int_int : forall z, - 2 ^ 31 <= z < 2 ^ 31 -> get_int (of_int z) = Ok z;
  elements_strings : forall l, map get_string (filter (fun j => is_string j = true) (elements (of_strings l))) = l
}.

(** ** The policy *)

Record PolicyEvaluation : Type := mkEval { ok : bool; reason : list byte }.

Record KeyPolicy : Type := mkKeyPolicy {
  allowed_mechanisms : list (list byte);
  not_before_ms : Z;
  not_after_ms : Z;
  allowed_signers : list (list byte);
  min_attestations : Z
}.

Definition no_policy : KeyPolicy := mkKeyPolicy [] 0 0 [] 0.

(** [static_cast<int>] of a [size_t]. *)
Definition to_int (z : Z) : Z :=
  let v := z mod 2 ^ 32 in if v <? 2 ^ 31 then v else v - 2 ^ 32.

(** [std::to_string] of an [int]. *)
Definition int_to_string (z : Z) : list byte :=
  if z <? 0 then bytes_of "-" ++ to_string (- z) else to_string z.

Definition found (l : list (list byte)) (x : list byte) : bool :=
  existsb (fun m => bool_decide (m = x)) l.

Definition evaluate (p : KeyPolicy) (actor mechanism : list byte) (now_ms attestation_count : Z)
    : PolicyEvaluation :=
  if negb (not_before_ms p =? 0) && (now_ms <? not_before_ms p) then
    mkEval false (bytes_of "key policy: signing not yet active (not_before in the future)")
  else if negb (not_after_ms p =? 0) && (not_after_ms p <? now_ms) then
    mkEval false (bytes_of "key policy: signing window has expired (not_after passed)")
  else if negb (bool_decide (allowed_mechanisms p = [])) && negb (found (allowed_mechanisms p) mechanism)
  then mkEval false (bytes_of "key policy: mechanism " ++ mechanism ++ bytes_of " not permitted")
  else if negb (bool_decide (allowed_signers p = [])) && negb (found (allowed_signers p) actor)
  then mkEval false (bytes_of "key policy: actor " ++ actor ++ bytes_of " not authorized to sign")
  else if to_int attestation_count <? min_attestations p then
    mkEval false (bytes_of "key policy: insufficient attestations (" ++ to_string attestation_count
      ++ bytes_of " < " ++ int_to_string (min_attestations p) ++ bytes_of " required)")
  else mkEval true (bytes_of "ok").

Section Documents.
Context `{J : NlohmannJson}.

(** [doc.contains(k) && !doc[k].is_null()]. *)
Definition present (doc : json) (k : string) : option json :=
  match find_member doc (bytes_of k) with
  | Some v => if is_null v then None else Some v
  | None => None
  end.

Definition string_elements (j : json) : list (list byte) :=
  map get_string (filter (fun m => is_string m = true) (elements j)).

Definition read_strings (doc : json) (k : string) : list (list byte) :=
  match present doc k with Some v => string_elements v | None => [] end.

Definition read_number (get : json -> res Z) (doc : json) (k : string) : res Z :=
  match present doc k with Some v => get v | None => Ok 0 end.

Definition from_json (text : list byte) : res KeyPolicy :=
  if bool_decide (text = []) then Ok no_policy
  else match parse text with
  | Throw _ => Throw (RuntimeError "invalid KeyPolicy JSON: ")
  | Ok doc =>
    check! is_object doc orelse "KeyPolicy JSON must be an object" in
    let mechs := read_strings doc "allowed_mechanisms" in
    let* nb := read_number get_int64 doc "not_before_ms" in
    let* na := read_number get_int64 doc "not_after_ms" in
    let signers := read_strings doc "allowed_signers" in
    let* k := read_number get_int doc "min_attestations" in
    Ok (mkKeyPolicy mechs nb na signers k)
  end.

Definition to_json (p : KeyPolicy) : res (list byte) :=
  dump (of_members
    [(bytes_of "allowed_mechanisms", of_strings (allowed_mechanisms p));
     (bytes_of "not_before_ms", of_int (not_before_ms p));
     (bytes_of "not_after_ms", of_int (not_after_ms p));
     (bytes_of "allowed_signers", of_strings (allowed_signers p));
     (bytes_of "min_attestations", of_int (min_attestations p))]).

End Documents.

(** ** Attestation counter and lifecycle gate *)

(** [std::stoull] of decimal digits: out of range is an exception, which the
    caller turns into 0. *)
Definition stoull_digits (v : list byte) : option Z :=
  let n := strtoull_loop v 0 in if n <? 2 ^ 64 then Some n else None.

Definition parse_attr_count (v : list byte) : Z :=
  if bool_decide (v = []) then 0
  else if forallb is_digit v then default 0 (stoull_digits v)
  else
    let fix raw (i : nat) (l : list byte) (val : Z) : Z :=
      match l with
      | [] => val
      | b :: l => if Nat.ltb i 8
                  then raw (S i) l (Z.lor val (Z.shiftl (u8 b) (8 * Z.of_nat i)))
                  else val
      end in
    raw 0%nat v 0.

Definition p11_key_state_error (st : KeyState) (forSigning : bool) : CK_RV :=
  if st =? Revoked then CKR_KEY_FUNCTION_NOT_PERMITTED
  else if forSigning && negb (st =? Active) then CKR_KEY_FUNCTION_NOT_PERMITTED
  else CKR_OK.

(** ** Lemmas *)

Lemma found_spec l x : found l x = true <-> x ∈ l.
Proof.
  unfold found. rewrite existsb_exists. setoid_rewrite bool_decide_eq_true. split.
  - intros (y & Hy & ->). by apply list_elem_of_In.
  - intros H. exists x. by rewrite <- list_elem_of_In.
Qed.

Lemma to_int_small z : 0 <= z < 2 ^ 31 -> to_int z = z.
Proof.
  intros H. unfold to_int. rewrite Z.mod_small by lia. cbv zeta. by rewrite (proj2 (Z.ltb_lt z _)) by lia.
Qed.

Lemma to_int_le z : 0 <= z -> to_int z <= z.
Proof.
  intros H. unfold to_int. pose proof (Z.mod_le z (2 ^ 32) H ltac:(lia)). cbv zeta.
  destruct (_ <? _); lia.
Qed.

Lemma key_state_gate st : p11_key_state_error st true = CKR_OK <-> key_can_sign st = true.
Proof.
  unfold p11_key_state_error, key_can_sign, Revoked, Active.
  destruct (Z.eqb_spec st 2), (Z.eqb_spec st 0); cbn; split; congruence || done.
Qed.

Lemma key_state_gate_use st : p11_key_state_error st false = CKR_OK <-> key_can_decrypt st = true.
Proof.
  unfold p11_key_state_error, key_can_decrypt. destruct (st =? Revoked); cbn; split; congruence || done.
Qed.

(** The raw loop assembles the little-endian value of the first eight bytes. *)
Lemma raw_count_value (v : list byte) :
  v <> [] -> forallb is_digit v = false -> parse_attr_count v = le_value (take 8 v).
Proof.
  intros Hv Hd. unfold parse_attr_count. rewrite bool_decide_false, Hd by done.
  match goal with |- ?f 0%nat v 0 = _ => set (raw := f) end.
  enough (H : forall l i val, (i <= 8)%nat -> 0 <= val < 2 ^ (8 * Z.of_nat i) ->
    raw i l val = val + 2 ^ (8 * Z.of_nat i) * le_value (take (8 - i) l)).
  { rewrite (H v 0%nat 0) by (cbn; lia). change (2 ^ (8 * Z.of_nat 0)) with 1.
    rewrite Z.add_0_l, Z.mul_1_l. reflexivity. }
  clear. induction l as [|b l IH]; intros i val Hi Hval; cbn [raw].
  - rewrite take_nil. cbn [le_value]. lia.
  - destruct (Nat.ltb_spec i 8) as [Hlt|Hge].
    + pose proof (u8_range b) as Hb.
      assert (E : Z.lor val (Z.shiftl (u8 b) (8 * Z.of_nat i)) = u8 b * 2 ^ (8 * Z.of_nat i) + val)
        by (rewrite Z.lor_comm; apply lor_shiftl_add; lia).
      assert (P : 2 ^ (8 * Z.of_nat (S i)) = 256 * 2 ^ (8 * Z.of_nat i))
        by (rewrite Nat2Z.inj_succ, Z.mul_succ_r, Z.pow_add_r by lia; lia).
      rewrite E, IH by (rewrite ?P; nia || lia). rewrite P.
      replace (8 - i)%nat with (S (8 - S i)) by lia. cbn [take le_value]. lia.
    + replace (8 - i)%nat with 0%nat by lia. rewrite take_0. cbn [le_value]. lia.
Qed.

Lemma digits_forallb s : digits s -> forallb is_digit s = true.
Proof. intros H. apply forallb_forall. intros x Hx. unfold digits in H. rewrite list.Forall_forall in H. by apply H, list_elem_of_In. Qed.

Lemma decimal_count z : is_u64 z -> parse_attr_count (to_string z) = z.
Proof.
  intros Hz. unfold is_u64 in Hz.
  destruct (dec_spec 20 z [] ltac:(cbn; lia) ltac:(lia)) as (ds & E & _ & Hd & _ & Hv).
  rewrite app_nil_r in E. specialize (Hv []). rewrite app_nil_r in Hv. cbn [strtoull_loop] in Hv.
  unfold to_string. rewrite E. unfold parse_attr_count.
  case_bool_decide as Hn; [rewrite Hn in Hv; exact Hv|].
  rewrite (digits_forallb _ Hd). unfold stoull_digits. rewrite Hv.
  by rewrite (proj2 (Z.ltb_lt z _)) by lia.
Qed.

Lemma le_digits_zero_last n v :
  0 <= v < 256 ^ Z.of_nat n -> le_digits (S n) v = le_digits n v ++ [x00].
Proof.
  revert v. induction n as [|n IH]; intros v Hv.
  - assert (v = 0) as -> by (cbn in Hv; lia). reflexivity.
  - cbn [le_digits]. cbn [le_digits] in IH. rewrite IH; [done|].
    rewrite Nat2Z.inj_succ, Z.pow_succ_r in Hv by lia.
    split; [apply Z.div_pos; lia|apply Z.div_lt_upper_bound; lia].
Qed.

Lemma raw_count z : 0 <= z < 2 ^ 56 -> parse_attr_count (le_digits 8 z) = z.
Proof.
  intros Hz. rewrite raw_count_value.
  - rewrite take_ge by (rewrite length_le_digits; lia). rewrite le_value_digits. apply Z.mod_small.
    change (256 ^ Z.of_nat 8) with (2 ^ 64). lia.
  - done.
  - rewrite (le_digits_zero_last 7 z) by (change (256 ^ Z.of_nat 7) with (2 ^ 56); lia).
    rewrite forallb_app. change (forallb is_digit [x00]) with false. apply andb_false_r.
Qed.

(** ** Properties *)

(** What the header says a policy demands. *)
Definition policy_permits (p : KeyPolicy) (actor mechanism : list byte) (now_ms count : Z) : Prop :=
  (not_before_ms p = 0 \/ not_before_ms p <= now_ms) /\
  (not_after_ms p = 0 \/ now_ms <= not_after_ms p) /\
  (allowed_mechanisms p = [] \/ mechanism ∈ allowed_mechanisms p) /\
  (allowed_signers p = [] \/ actor ∈ allowed_signers p) /\
  min_attestations p <= count.

Lemma guard_spec (l : list (list byte)) x :
  negb (bool_decide (l = [])) && negb (found l x) = false <-> l = [] \/ x ∈ l.
Proof.
  rewrite andb_false_iff, !negb_false_iff, bool_decide_eq_true, found_spec. done.
Qed.

Lemma window_spec (z : Z) (b : bool) (P : Prop) :
  (b = false <-> P) -> negb (z =? 0) && b = false <-> z = 0 \/ P.
Proof. intros H. rewrite andb_false_iff, negb_false_iff, Z.eqb_eq, H. done. Qed.

Lemma policy_evaluate_iff (p : KeyPolicy) (actor mechanism : list byte) (now_ms count : Z) :
  ok (evaluate p actor mechanism now_ms count) = true <->
  policy_permits p actor mechanism now_ms (to_int count).
Proof.
  unfold evaluate, policy_permits.
  rewrite <- !guard_spec, <- (window_spec _ _ _ (Z.ltb_ge now_ms (not_before_ms p))),
    <- (window_spec _ _ _ (Z.ltb_ge (not_after_ms p) now_ms)), <- (Z.ltb_ge (to_int count)).
  split_ifs; cbn [ok]; intuition congruence.
Qed.

(** A policy allows a signature exactly when the time is inside its window,
    the mechanism and the signer are listed (or the lists are empty) and there
    are enough attestations; the counter is compared as a 32-bit [int], so a
    count of [2^31] or more never gives more than it should. *)
Theorem policy_evaluate_exact (p : KeyPolicy) (actor mechanism : list byte) (now_ms count : Z) :
  (ok (evaluate p actor mechanism now_ms count) = true <->
     policy_permits p actor mechanism now_ms (to_int count)) /\
  (0 <= count -> ok (evaluate p actor mechanism now_ms count) = true ->
     policy_permits p actor mechanism now_ms count) /\
  (0 <= count < 2 ^ 31 -> policy_permits p actor mechanism now_ms count ->
     ok (evaluate p actor mechanism now_ms count) = true).
Proof.
  pose proof (policy_evaluate_iff p actor mechanism now_ms count) as H.
  split; [exact H|]. unfold policy_permits in *. split.
  - intros Hc Hok. apply H in Hok as (? & ? & ? & ? & ?). pose proof (to_int_le count Hc).
    split_and!; auto. lia.
  - intros Hc Hp. apply H. by rewrite to_int_small.
Qed.

(** The ranges of the C++ fields. *)
Definition wf_policy (p : KeyPolicy) : Prop :=
  - 2 ^ 63 <= not_before_ms p < 2 ^ 63 /\ - 2 ^ 63 <= not_after_ms p < 2 ^ 63 /\
  - 2 ^ 31 <= min_attestations p < 2 ^ 31.

(** A policy written as JSON is read back unchanged. *)
Theorem policy_json_roundtrip (J : NlohmannJson) (L : NlohmannJsonLaws J) (p : KeyPolicy) (text : list byte)
    (Hwf : wf_policy p) (Hdump : to_json p = Ok text) :
  from_json text = Ok p.
Proof.
  destruct Hwf as (H1 & H2 & H3). unfold to_json in Hdump. unfold from_json.
  rewrite bool_decide_false by (eapply dump_nonempty, Hdump).
  rewrite (parse_dump _ _ Hdump), is_object_members. cbn [check rbind].
  unfold read_strings, read_number, present. rewrite !find_member_spec.
  cbn [assoc_last]. repeat (case_bool_decide as E; [try discriminate E|try (by destruct E)]; clear E).
  rewrite !is_null_strings, !is_null_int, !get_int64_int, get_int_int by done. cbn [rbind].
  unfold string_elements. rewrite !elements_strings. by destruct p.
Qed.

(** A small JSON library that satisfies the laws: documents are trees with
    numbers and strings at the leaves; node 0 is an object, node 1 an array. *)
Definition toy_json : Type := gen_tree (Z + list byte).

Fixpoint bits (p : positive) : list byte :=
  match p with
  | xH => [x01]
  | xO p => x02 :: bits p
  | xI p => x03 :: bits p
  end.

Fixpoint unbits (l : list byte) : positive :=
  match l with
  | x02 :: l => xO (unbits l)
  | x03 :: l => xI (unbits l)
  | _ => xH
  end.

Lemma unbits_bits p : unbits (bits p) = p.
Proof. induction p as [p IH|p IH|]; cbn; by rewrite ?IH. Qed.

Definition member (kv : list byte * toy_json) : toy_json :=
  GenNode 2 [GenLeaf (inr (fst kv)); snd kv].
Definition member_of (j : toy_json) : list byte * toy_json :=
  match j with GenNode 2 [GenLeaf (inr k); v] => (k, v) | _ => ([], GenLeaf (inl 0)) end.

#[local] Instance toy_lib : NlohmannJson := {|
  json := toy_json;
  parse s := match decode (unbits s) with Some j => Ok j | None => Throw (OtherException "parse_error") end;
  dump j := Ok (bits (encode j));
  is_object j := match j with GenNode 0 _ => true | _ => false end;
  is_null j := match j with GenNode 3 _ => true | _ => false end;
  is_string j := match j with GenLeaf (inr _) => true | _ => false end;
  find_member j k := match j with GenNode 0 l => assoc_last k (map member_of l) | _ => None end;
  elements j := match j with GenNode 1 l => l | j => [j] end;
  get_string j := match j with GenLeaf (inr s) => s | _ => [] end;
  get_int64 j := match j with GenLeaf (inl z) => Ok z | _ => Throw (OtherException "type_error") end;
  get_int j := match j with GenLeaf (inl z) => Ok z | _ => Throw (OtherException "type_error") end;
  of_strings l := GenNode 1 (map (fun s => GenLeaf (inr s)) l);
  of_int z := GenLeaf (inl z);
  of_members l := GenNode 0 (map member l) |}.

#[local] Instance toy_json_laws : NlohmannJsonLaws toy_lib.
Proof.
  split; cbn; try done.
  - intros j s [= <-]. by rewrite unbits_bits, decode_encode.
  - intros j s [= <-]. by destruct (encode j).
  - intros l k. f_equal. rewrite map_map. rewrite <- (map_id l) at 2. apply map_ext. by intros [].
  - induction l as [|s l IH]; [done|]. cbn [map]. rewrite filter_cons_True by done. cbn [map]. by f_equal.
Qed.

Definition sample_policy : KeyPolicy :=
  mkKeyPolicy [bytes_of "CKM_ECDSA_SHA256"] 1000 2000 [bytes_of "user-1"; bytes_of "user-2"] 2.

Lemma policy_evaluate_exact_witness :
  let p := sample_policy in
  policy_permits p (bytes_of "user-2") (bytes_of "CKM_ECDSA_SHA256") 1500 2 /\
  ok (evaluate p (bytes_of "user-3") (bytes_of "CKM_ECDSA_SHA256") 1500 2) = false.
Proof.
  split; [|reflexivity]. apply (policy_evaluate_exact sample_policy); [lia|reflexivity].
Defined.

Lemma policy_json_roundtrip_witness :
  match to_json sample_policy with
  | Ok text => from_json text = Ok sample_policy
  | Throw _ => False
  end.
Proof.
  apply (policy_json_roundtrip toy_lib toy_json_laws sample_policy).
  - unfold wf_policy, sample_policy. cbn [not_before_ms not_after_ms min_attestations]. lia.
  - reflexivity.
Defined.

(** Both encodings of the attestation counter are understood: the decimal
    digits of any 64-bit count, and the eight little-endian bytes of any count
    below [2^56]. *)
Theorem attestation_count_roundtrip (n : Z) (Hn : is_u64 n) :
  parse_attr_count (to_string n) = n /\ (n < 2 ^ 56 -> parse_attr_count (le_digits 8 n) = n).
Proof.
  split; [by apply decimal_count|]. intros H. unfold is_u64 in Hn. apply raw_count. lia.
Qed.

Lemma attestation_count_roundtrip_witness :
  parse_attr_count (to_string 1234) = 1234 /\ (1234 < 2 ^ 56 -> parse_attr_count (le_digits 8 1234) = 1234).
Proof. apply (attestation_count_roundtrip 1234). unfold is_u64. lia. Defined.

(** A raw counter whose bytes happen to be digits is read as decimal: the byte
    53 counts 5 attestations, not 53, and eight digit bytes a smaller number. *)
Lemma digit_bytes_read_as_decimal :
  parse_attr_count [to_u8 53] = 5 /\
  parse_attr_count (le_digits 8 0x3030303030303031) = 10000000.
Proof. split; reflexivity. Qed.

(** More digits than 64 bits hold count as no attestation. *)
Lemma huge_decimal_counts_zero : parse_attr_count (bytes_of "99999999999999999999999") = 0.
Proof. reflexivity. Qed.
