(* ===== verification/SlotInfo.v ===== *)
(** * What the module reports of its slots, tokens and mechanisms

    The information calls of [src/src/pkcs11/p11_slot.cpp]: [C_GetSlotInfo],
    [C_GetTokenInfo], [C_GetMechanismList] and [C_GetMechanismInfo], with the
    structures of [pkcs11_types.h] they fill.  A null pointer to the structure is a
    flag; a text is the C string of what the object keeps. *)

From S2P Require Import Prelude Codec Types Notification SecureBuffer Objects ObjectStore Token Session Pkcs11 AuditLog KeyPolicy.
Local Open Scope Z_scope.

(** ** Structures and flags *)

Definition CKF_RNG := 0x1.
Definition CKF_LOGIN_REQUIRED := 0x4.
Definition CKF_USER_PIN_INITIALIZED := 0x8.
Definition CKF_TOKEN_INITIALIZED := 0x400.
Definition CKF_SO_PIN_INITIALIZED := 0x2000000.

Definition CKF_HW := 0x1.
Definition CKF_ENCRYPT := 0x100.
Definition CKF_DECRYPT := 0x200.
Definition CKF_DIGEST := 0x400.
Definition CKF_SIGN := 0x800.
Definition CKF_VERIFY := 0x2000.
Definition CKF_GENERATE := 0x8000.
Definition CKF_WRAP := 0x20000.
Definition CKF_UNWRAP := 0x40000.
Definition CKF_DERIVE := 0x80000.

Record CK_SLOT_INFO : Type := mkSlotInfo {
  slotDescription : list byte;
  s_manufacturerID : list byte;
  s_flags : Z;
  s_hardwareVersion : Z * Z;
  s_firmwareVersion : Z * Z
}.

Record CK_TOKEN_INFO : Type := mkTokenInfo {
  ti_label : list byte;
  ti_manufacturerID : list byte;
  ti_model : list byte;
  ti_serialNumber : list byte;
  ti_flags : Z;
  ulMaxSessionCount : Z;
  ulSessionCount : Z;
  ulMaxRwSessionCount : Z;
  ulRwSessionCount : Z;
  ulMaxPinLen : Z;
  ulMinPinLen : Z;
  ulTotalPublicMemory : Z;
  ulFreePublicMemory : Z;
  ulTotalPrivateMemory : Z;
  ulFreePrivateMemory : Z;
  ti_hardwareVersion : Z * Z;
  ti_firmwareVersion : Z * Z;
  utcTime : list byte
}.

Record CK_MECHANISM_INFO : Type := mkMechInfo { ulMinKeySize : Z; ulMaxKeySize : Z; m_flags : Z }.

(** ** The calls *)

Definition BLANK : byte := to_u8 32.

(** [copy_fixed] of the C string of [src]: [memset] and [memcpy]. *)
Definition copy_fixed (dstLen : nat) (src : list byte) : list byte :=
  let src := c_str src in
  let n := if Nat.ltb dstLen (length src) then dstLen else length src in
  take n src ++ drop n (replicate dstLen BLANK).

(** The texts [Slot::Slot] gives a slot. *)
Definition slot_description (s : Slots.Slot) : list byte := bytes_of "Virtual HSM Slot " ++ to_string (Slots.slot_id_ s).
Definition slot_manufacturer : list byte := bytes_of "vHSM Team Corp".

Definition C_GetSlotInfo (st : P11) (slotID : Z) (pInfo_null : bool) : CK_RV * option CK_SLOT_INFO :=
  if pInfo_null then (CKR_ARGUMENTS_BAD, None)
  else match p11_get_slot st slotID with
  | None => (CKR_SLOT_ID_INVALID, None)
  | Some slot =>
    (CKR_OK, Some (mkSlotInfo (copy_fixed 64 (slot_description slot)) (copy_fixed 32 slot_manufacturer) (Slots.get_flags slot) (1, 0) (1, 0)))
  end.

Definition token_flags (tok : v_TokenCore_M1) : Z :=
  let flags := CKF_RNG in
  let flags := if negb (v_token_initialized_ tok =? 0) then Z.lor flags CKF_TOKEN_INITIALIZED else flags in
  let flags := if negb (login_required_ (v_user_ tok) =? 0) then Z.lor flags CKF_LOGIN_REQUIRED else flags in
  let flags := if negb (pin_set_ (v_user_ tok) =? 0) then Z.lor flags CKF_USER_PIN_INITIALIZED else flags in
  if negb (pin_set_ (v_so_ tok) =? 0) then Z.lor flags CKF_SO_PIN_INITIALIZED else flags.

Definition C_GetTokenInfo (st : P11) (slotID : Z) (pInfo_null : bool) : CK_RV * option CK_TOKEN_INFO :=
  if pInfo_null then (CKR_ARGUMENTS_BAD, None)
  else match p11_get_token st slotID with
  | None => (CKR_SLOT_ID_INVALID, None)
  | Some tok =>
    (CKR_OK, Some (mkTokenInfo (copy_fixed 32 (v_label_ tok)) (copy_fixed 32 (bytes_of "vHSM")) (copy_fixed 16 (bytes_of "vHSM-SW"))
       (copy_fixed 16 (v_id_ tok)) (token_flags tok) v_get_max_session_count (v_session_count_ tok) v_get_max_rw_session_count
       (v_rw_session_count_ tok) 256 4 CK_UNAVAILABLE_INFORMATION CK_UNAVAILABLE_INFORMATION CK_UNAVAILABLE_INFORMATION
       CK_UNAVAILABLE_INFORMATION (1, 0) (1, 0) (replicate 16 x00)))
  end.

Definition supported_mechanisms : list Z :=
  [CKM_RSA_PKCS; CKM_RSA_X_509; CKM_RSA_PKCS_OAEP; CKM_RSA_PKCS_PSS; CKM_SHA256_RSA_PKCS; CKM_SHA384_RSA_PKCS; CKM_SHA512_RSA_PKCS;
   CKM_SHA256_RSA_PKCS_PSS; CKM_SHA384_RSA_PKCS_PSS; CKM_SHA512_RSA_PKCS_PSS; CKM_EC_KEY_PAIR_GEN; CKM_ECDSA; CKM_ECDSA_SHA256;
   CKM_ECDSA_SHA384; CKM_ECDSA_SHA512; CKM_SHA256; CKM_SHA384; CKM_SHA512; CKM_AES_ECB; CKM_AES_CBC; CKM_AES_GCM; CKM_AES_KEY_GEN;
   CKM_AES_KEY_WRAP; CKM_ECDH1_DERIVE].

Definition one_of_types (t : Z) (l : list Z) : bool := existsb (Z.eqb t) l.

Definition any_flags : Z := fold_left Z.lor [CKF_ENCRYPT; CKF_DECRYPT; CKF_SIGN; CKF_VERIFY; CKF_WRAP; CKF_UNWRAP; CKF_DERIVE] CKF_HW.
Definition digest_flags : Z := Z.lor (Z.lor CKF_HW CKF_DIGEST) CKF_GENERATE.

Definition fill_mech_info (t : Z) : CK_MECHANISM_INFO :=
  let flags := if one_of_types t [CKM_SHA256; CKM_SHA384; CKM_SHA512; CKM_AES_KEY_GEN] then digest_flags else any_flags in
  if one_of_types t [CKM_RSA_PKCS; CKM_RSA_X_509; CKM_RSA_PKCS_OAEP; CKM_RSA_PKCS_PSS; CKM_SHA256_RSA_PKCS; CKM_SHA384_RSA_PKCS;
                     CKM_SHA512_RSA_PKCS; CKM_SHA256_RSA_PKCS_PSS; CKM_SHA384_RSA_PKCS_PSS; CKM_SHA512_RSA_PKCS_PSS]
  then mkMechInfo 2048 4096 flags
  else if one_of_types t [CKM_EC_KEY_PAIR_GEN; CKM_ECDSA; CKM_ECDSA_SHA256; CKM_ECDSA_SHA384; CKM_ECDSA_SHA512; CKM_ECDH1_DERIVE]
  then mkMechInfo 256 521 flags
  else if one_of_types t [CKM_AES_ECB; CKM_AES_CBC; CKM_AES_GCM; CKM_AES_KEY_GEN; CKM_AES_KEY_WRAP]
  then mkMechInfo 128 256 flags
  else mkMechInfo 0 0 flags.

(** The code, the types written to the list and the new [*pulCount]; [room] as for
    [C_GetSlotList]. *)
Definition C_GetMechanismList (slotID : Z) (pulCount_null : bool) (room : option Z) : CK_RV * list Z * Z :=
  if pulCount_null then (CKR_ARGUMENTS_BAD, [], 0)
  else
    let m := supported_mechanisms in
    match room with
    | None => (CKR_OK, [], len m)
    | Some r => if r <? len m then (CKR_BUFFER_TOO_SMALL, [], len m) else (CKR_OK, m, len m)
    end.

Definition C_GetMechanismInfo (slotID type : Z) (pInfo_null : bool) : CK_RV * option CK_MECHANISM_INFO :=
  if pInfo_null then (CKR_ARGUMENTS_BAD, None)
  else if negb (one_of_types type supported_mechanisms) then (CKR_MECHANISM_INVALID, None)
  else (CKR_OK, Some (fill_mech_info type)).

(** ** Fixed-width texts *)

Lemma length_copy_fixed n s : length (copy_fixed n s) = n.
Proof.
  unfold copy_fixed. rewrite length_app, length_take, length_drop, length_replicate. destruct (Nat.ltb_spec n (length (c_str s))); lia.
Qed.

(** The text is the C string, cut at the width, then blanks. *)
Lemma copy_fixed_text n s :
  copy_fixed n s = take n (c_str s) ++ replicate (n - length (c_str s)) BLANK.
Proof.
  unfold copy_fixed. destruct (Nat.ltb_spec n (length (c_str s))).
  - rewrite drop_ge by (rewrite length_replicate; lia). by replace (n - length (c_str s))%nat with 0%nat by lia.
  - rewrite !take_ge by lia. by rewrite drop_replicate.
Qed.

Definition bit (flags f : Z) : bool := negb (Z.land flags f =? 0).

(** The structures of the header: the arrays have their width, the numbers fit. *)
Definition wf_slot_info (i : CK_SLOT_INFO) : Prop :=
  length (slotDescription i) = 64%nat /\ length (s_manufacturerID i) = 32%nat /\ is_u64 (s_flags i).

Definition wf_token_info (i : CK_TOKEN_INFO) : Prop :=
  length (ti_label i) = 32%nat /\ length (ti_manufacturerID i) = 32%nat /\ length (ti_model i) = 16%nat /\
  length (ti_serialNumber i) = 16%nat /\ length (utcTime i) = 16%nat /\
  Forall is_u64 [ti_flags i; ulMaxSessionCount i; ulSessionCount i; ulMaxRwSessionCount i; ulRwSessionCount i; ulMaxPinLen i; ulMinPinLen i; ulTotalPublicMemory i; ulFreePublicMemory i;
                 ulTotalPrivateMemory i; ulFreePrivateMemory i].

Lemma token_flags_exact tok :
  let f := token_flags tok in
  is_u64 f /\ bit f CKF_TOKEN_INITIALIZED = negb (v_token_initialized_ tok =? 0) /\
  bit f CKF_LOGIN_REQUIRED = negb (login_required_ (v_user_ tok) =? 0) /\
  bit f CKF_USER_PIN_INITIALIZED = negb (pin_set_ (v_user_ tok) =? 0) /\ bit f CKF_SO_PIN_INITIALIZED = negb (pin_set_ (v_so_ tok) =? 0).
Proof.
  unfold token_flags. destruct (negb (v_token_initialized_ tok =? 0)), (negb (login_required_ (v_user_ tok) =? 0)),
    (negb (pin_set_ (v_user_ tok) =? 0)), (negb (pin_set_ (v_so_ tok) =? 0)); by vm_compute.
Qed.

(** The session counters of a token, which [token.h] keeps as 64-bit integers. *)
Definition counts_fit (tok : v_TokenCore_M1) : Prop := is_u64 (v_session_count_ tok) /\ is_u64 (v_rw_session_count_ tok).

(** C29: What the information calls answer is well-typed.  On success every array of
    the structure has its declared width whatever the length of the label or the
    identifier, and every number is 64-bit when the token's two session counters are;
    the label and the serial number are the token's label and identifier, cut and
    padded with blanks, the session counts are the token's counters, each of the flags
    for an initialized token, a required login and the two PINs says what the token's
    state says, and the slot shows a token exactly when it has one.  C_GetSlotInfo
    fails exactly for a null pointer or an unknown slot, C_GetTokenInfo also for a slot
    without a token; a failing call fills no structure. *)
Theorem info_well_typed (st : P11) (slotID : Z) (null : bool)
    (Hcounts : forall tok, p11_get_token st slotID = Some tok -> counts_fit tok) :
  (let (rv, i) := C_GetSlotInfo st slotID null in
   (rv = CKR_OK <-> null = false /\ is_Some (p11_get_slot st slotID)) /\
   match i with
   | Some i => rv = CKR_OK /\ wf_slot_info i /\ bit (s_flags i) CKF_TOKEN_PRESENT = bool_decide (is_Some (p11_get_token st slotID))
   | None => rv <> CKR_OK
   end) /\
  (let (rv, i) := C_GetTokenInfo st slotID null in
   (rv = CKR_OK <-> null = false /\ is_Some (p11_get_token st slotID)) /\
   match i, p11_get_token st slotID with
   | Some i, Some tok =>
     rv = CKR_OK /\ wf_token_info i /\
     ti_label i = take 32 (c_str (v_label_ tok)) ++ replicate (32 - length (c_str (v_label_ tok))) BLANK /\
     ti_serialNumber i = take 16 (c_str (v_id_ tok)) ++ replicate (16 - length (c_str (v_id_ tok))) BLANK /\
     ulSessionCount i = v_session_count_ tok /\ ulRwSessionCount i = v_rw_session_count_ tok /\
     bit (ti_flags i) CKF_TOKEN_INITIALIZED = negb (v_token_initialized_ tok =? 0) /\
     bit (ti_flags i) CKF_LOGIN_REQUIRED = negb (login_required_ (v_user_ tok) =? 0) /\
     bit (ti_flags i) CKF_USER_PIN_INITIALIZED = negb (pin_set_ (v_user_ tok) =? 0) /\
     bit (ti_flags i) CKF_SO_PIN_INITIALIZED = negb (pin_set_ (v_so_ tok) =? 0)
   | Some _, None => False
   | None, _ => rv <> CKR_OK
   end).
Proof.
  unfold C_GetSlotInfo, C_GetTokenInfo, p11_get_token in *. destruct null.
  { split; (split; [split; [done|by intros [? _]]|]); [done|]. by destruct (match p11_get_slot st slotID with Some s => Slots.get_token s | None => None end). }
  split.
  - destruct (p11_get_slot st slotID) as [s|]; [|split; [split; [done|by intros [_ [? ?]]]|done]]. split; [split; [by split; [|eexists]|done]|].
    split_and!; [done|split_and!; [apply length_copy_fixed|apply length_copy_fixed|]|]; cbn [s_flags]; unfold Slots.get_flags, Slots.is_token_present, Slots.get_token;
      by destruct (Slots.token_ s).
  - destruct (p11_get_slot st slotID) as [s|]; [|split; [split; [done|by intros [_ [? ?]]]|done]].
    destruct (Slots.get_token s) as [tok|]; [|split; [split; [done|by intros [_ [? ?]]]|done]]. split; [split; [by split; [|eexists]|done]|].
    destruct (token_flags_exact tok) as (H0 & H1 & H2 & H3 & H4).
    destruct (Hcounts tok eq_refl) as [Hn Hr].
    split_and!; [done| |apply copy_fixed_text|apply copy_fixed_text|done..]. unfold wf_token_info. cbn [ti_label ti_manufacturerID ti_model ti_serialNumber utcTime ti_flags].
    rewrite !length_copy_fixed. split_and!; [done..|]. repeat (constructor; [first [done|by vm_compute]|]). constructor.
Qed.

Lemma info_well_typed_witness :
  exists i, C_GetTokenInfo sample_p11 0 false = (CKR_OK, Some i) /\ wf_token_info i /\
    bit (ti_flags i) CKF_USER_PIN_INITIALIZED = true.
Proof.
  eexists. split; [vm_compute; reflexivity|].
  assert (Hc : forall tok, p11_get_token sample_p11 0 = Some tok -> counts_fit tok).
  { intros tok E. vm_compute in E. injection E as <-. by split; vm_compute. }
  pose proof (proj2 (info_well_typed sample_p11 0 false Hc)) as H.
  vm_compute (C_GetTokenInfo _ _ _) in H. destruct H as [_ H]. vm_compute (p11_get_token _ _) in H.
  destruct H as (_ & H & _). split; [exact H|]. by vm_compute.
Defined.

(** ** Mechanisms *)

(** The list call answers the list to a caller with the room it first reported, and
    information on exactly the mechanisms of the list. *)
Lemma mechanism_list_protocol slotID room type :
  let '(rv, l, n) := C_GetMechanismList slotID false (Some room) in
  let n0 := snd (C_GetMechanismList slotID false None) in
  n = n0 /\ (rv = CKR_OK <-> n0 <= room) /\ (rv = CKR_OK -> l = supported_mechanisms) /\ (rv <> CKR_OK -> l = []) /\
  (fst (C_GetMechanismInfo slotID type false) = CKR_OK <-> type ∈ supported_mechanisms).
Proof.
  assert (Hinfo : fst (C_GetMechanismInfo slotID type false) = CKR_OK <-> type ∈ supported_mechanisms).
  { unfold C_GetMechanismInfo, one_of_types. rewrite list_elem_of_In. destruct (existsb _ _) eqn:E; cbn [negb fst]; split; try done.
    - intros _. by apply existsb_exists in E as (x & Hx & ->%Z.eqb_eq).
    - intros Hin. exfalso. apply not_true_iff_false in E. apply E, existsb_exists. exists type. by rewrite Z.eqb_refl. }
  unfold C_GetMechanismList. cbn [snd]. destruct (Z.ltb_spec room (len supported_mechanisms)) as [H|H]; (split; [done|]); (split; [split; try done; lia|]); by split_and!.
Qed.

(** ** Where the code departs from its comments *)

(** Every mechanism that is not a digest claims to encrypt, sign, wrap and derive. *)
Lemma mechanism_flags_overstate :
  forall t, t ∈ [CKM_ECDSA; CKM_AES_GCM; CKM_RSA_PKCS_PSS; CKM_EC_KEY_PAIR_GEN] ->
    bit (m_flags (fill_mech_info t)) CKF_ENCRYPT = true /\ bit (m_flags (fill_mech_info t)) CKF_SIGN = true /\
    bit (m_flags (fill_mech_info t)) CKF_DERIVE = true.
Proof. intros t Ht. set_unfold in Ht. destruct Ht as [->|[->|[->|[->|[]]]]]; by vm_compute. Qed.

(** The smallest PIN length that is reported is not asked for. *)
Lemma short_pin_accepted :
  option_map ulMinPinLen (snd (C_GetTokenInfo sample_p11 0 false)) = Some 4 /\
  fst (C_SetPIN 0 sample_p11 1 (Some (bytes_of "1234")) 4 (Some (bytes_of "9")) 1) = CKR_OK.
Proof. by vm_compute. Qed.

(** Two sessions are open and none is reported. *)
Lemma sessions_not_counted :
  is_Some (p11_get_session sample_p11 1) /\ is_Some (p11_get_session sample_p11 2) /\
  option_map ulSessionCount (snd (C_GetTokenInfo sample_p11 0 false)) = Some 0.
Proof. split; [by eexists|]. split; [by eexists|]. by vm_compute. Qed.

(** A locked PIN does not show. *)
Lemma lock_not_reported : token_flags locked_token = token_flags sample_token /\ pin_locked_ (v_user_ locked_token) = CK_TRUE.
Proof. by vm_compute. Qed.
