(* ===== verification/Evp.v ===== *)
(** * The OpenSSL wrappers of the PKCS#11 layer

    The mechanism tables, key storage and reconstruction, and the [p11_rsa_*],
    [p11_ecdsa_*], [p11_aes_gcm_*] and [p11_ecdh_derive] wrappers of
    [src/src/pkcs11/p11_internal.cpp], with [src/src/crypto/fips.cpp].

    OpenSSL and [scrypto] are outside the repository: the class [OpenSSL] has
    one operation per library call.  A key context is the list of the controls
    it accepted, in order; every call may refuse; calls that draw random bytes
    take them as an argument.  [OpenSSLLaws] states what the library documents
    of matching calls: a signature verifies, a ciphertext decrypts, an exported
    key is imported again. *)

From S2P Require Import Prelude Codec Types Objects AuditLog KeyPolicy.
Import LeBytes HsmObj AttrStore.

Inductive HashAlgorithm : Type := SHA256 | SHA384 | SHA512.
Inductive Padding : Type :=
| RSA_PKCS1_PADDING | RSA_NO_PADDING | RSA_PKCS1_OAEP_PADDING | RSA_PKCS1_PSS_PADDING.
Inductive BaseId : Type := EVP_PKEY_RSA | EVP_PKEY_EC | EVP_PKEY_UNDEF.
Inductive PkeyOp : Type := OpEncrypt | OpDecrypt | OpSign | OpVerify | OpDerive.

#[global] Instance Padding_eq_dec : EqDecision Padding.
Proof. solve_decision. Defined.
#[global] Instance BaseId_eq_dec : EqDecision BaseId.
Proof. solve_decision. Defined.
#[global] Instance PkeyOp_eq_dec : EqDecision PkeyOp.
Proof. solve_decision. Defined.

(** ** Mechanism tables *)

Definition class_to_mech (t : ObjectType) : Z :=
  match t with
  | PUBLIC_KEY | PRIVATE_KEY => CKM_RSA_PKCS
  | SECRET_KEY => CKM_AES_ECB
  | _ => CKM_VENDOR_DEFINED
  end.

Definition one_of (m : Z) (l : list Z) : bool := existsb (Z.eqb m) l.

Definition mech_to_hash (m : Z) : HashAlgorithm :=
  if one_of m [CKM_SHA256; CKM_SHA256_RSA_PKCS; CKM_ECDSA_SHA256; CKM_SHA256_HMAC] then SHA256
  else if one_of m [CKM_SHA384; CKM_SHA384_RSA_PKCS; CKM_ECDSA_SHA384; CKM_SHA384_HMAC] then SHA384
  else if one_of m [CKM_SHA512; CKM_SHA512_RSA_PKCS; CKM_ECDSA_SHA512; CKM_SHA512_HMAC] then SHA512
  else SHA256.

Definition is_rsa_mech (m : Z) : bool :=
  one_of m [CKM_RSA_PKCS; CKM_RSA_X_509; CKM_SHA256_RSA_PKCS; CKM_SHA384_RSA_PKCS;
            CKM_SHA512_RSA_PKCS; CKM_RSA_PKCS_OAEP; CKM_RSA_PKCS_PSS; CKM_SHA256_RSA_PKCS_PSS;
            CKM_SHA384_RSA_PKCS_PSS; CKM_SHA512_RSA_PKCS_PSS].

Definition is_ec_mech (m : Z) : bool :=
  one_of m [CKM_ECDSA; CKM_ECDSA_SHA256; CKM_ECDSA_SHA384; CKM_ECDSA_SHA512].

Definition digest_name (h : HashAlgorithm) : list byte :=
  match h with
  | SHA256 => bytes_of "SHA256"
  | SHA384 => bytes_of "SHA384"
  | SHA512 => bytes_of "SHA512"
  end.

(** [tolower] of a byte in the C locale. *)
Definition tolower (c : byte) : byte :=
  if (65 <=? u8 c) && (u8 c <=? 90) then to_u8 (u8 c + 32) else c.

(** [env]: the value of [VHSM_FIPS], if set. *)
Definition fips_mode (env : option (list byte)) : bool :=
  match env with
  | None => false
  | Some v => let s := map tolower v in
              existsb (fun w => bool_decide (s = bytes_of w)) ["1"; "true"; "yes"; "on"]%string
  end.

Definition mechanism_approved (mech : Z) : bool :=
  one_of mech [0x1041; 0x1047; 0x1048; 0x1049; 0x250; 0x251; 0x252; 0x0E; 0x0F; 0x10;
               0x1087; 0x1085; 0x1086].

(** ** The library *)

Class OpenSSL : Type := {
  EVP_PKEY : Type;
  EVP_MD : Type;
  EVP_sha256 : EVP_MD;
  EVP_get_digestbyname : list byte -> option EVP_MD;
  (** [EVP_Digest*] with the digest of a name. *)
  EVP_digest : list byte -> list byte -> list byte;
  EVP_PKEY_get_base_id : EVP_PKEY -> BaseId;
  (** Controls of a key context. *)
  Ctrl : Type;
  set_rsa_padding : Padding -> Ctrl;
  set_rsa_mgf1_md : option EVP_MD -> Ctrl;
  set_rsa_oaep_md : EVP_MD -> Ctrl;
  set0_rsa_oaep_label : list byte -> Ctrl;
  set_rsa_pss_saltlen_digest : Ctrl;
  set_signature_md : option EVP_MD -> Ctrl;
  EVP_PKEY_CTX_new : EVP_PKEY -> bool;
  pkey_init : EVP_PKEY -> PkeyOp -> bool;
  ctrl_ok : EVP_PKEY -> PkeyOp -> list Ctrl -> Ctrl -> bool;
  (** The size query, and the call: the output, or the length it reports. *)
  pkey_size : EVP_PKEY -> PkeyOp -> list Ctrl -> list byte -> option Z;
  pkey_run : Z -> EVP_PKEY -> PkeyOp -> list Ctrl -> Z -> list byte -> list byte + Z;
  EVP_PKEY_verify : EVP_PKEY -> list Ctrl -> list byte -> list byte -> bool;
  derive_set_peer : EVP_PKEY -> EVP_PKEY -> bool;
  EVP_PKEY_derive : EVP_PKEY -> EVP_PKEY -> option (list byte);
  (** AES-GCM under a key of 16, 24 or 32 bytes. *)
  gcm_encrypt : list byte -> list byte -> list byte -> list byte -> option (list byte * list byte);
  gcm_decrypt : list byte -> list byte -> list byte -> list byte -> list byte -> option (list byte);
  (** What the allocator has after the bytes of a shorter key. *)
  beyond_key : list byte;
  (** Import and export of keys. *)
  d2i_RSAPrivateKey : list byte -> option EVP_PKEY;
  d2i_RSAPublicKey : list byte -> option EVP_PKEY;
  d2i_ECPrivateKey : list byte -> option EVP_PKEY;
  d2i_EC_PUBKEY : list byte -> option EVP_PKEY;
  ec_from_params_point : list byte -> list byte -> option EVP_PKEY;
  i2d_RSAPrivateKey : EVP_PKEY -> option (list byte);
  i2d_RSAPublicKey : EVP_PKEY -> option (list byte);
  i2d_ECPrivateKey : EVP_PKEY -> option (list byte);
  i2o_ECPublicKey : EVP_PKEY -> option (list byte);
  i2d_ECPKParameters : EVP_PKEY -> option (list byte);
  point2oct : EVP_PKEY -> option (list byte)
}.

Section Wrappers.
Context `{O : OpenSSL}.

Definition p11_hash (h : HashAlgorithm) (data : list byte) : list byte :=
  EVP_digest (digest_name h) data.

(** A control whose result is not looked at. *)
Definition issue (k : EVP_PKEY) (op : PkeyOp) (cs : list Ctrl) (c : Ctrl) : list Ctrl :=
  if ctrl_ok k op cs c then cs ++ [c] else cs.

(** The digest of OAEP: unknown names fall back to SHA-256. *)
Definition oaep_md (mgf1_md : list byte) : EVP_MD :=
  if bool_decide (mgf1_md = []) then EVP_sha256
  else default EVP_sha256 (EVP_get_digestbyname mgf1_md).

(** The common body of [p11_rsa_encrypt] and [p11_rsa_decrypt]; [label] is
    [None] when the pointer is null. *)
Definition rsa_encdec_controls (k : EVP_PKEY) (op : PkeyOp) (padding : Padding)
    (label : option (list byte)) (mgf1_md : list byte) : list Ctrl :=
  let cs := [set_rsa_padding padding] in
  let cs := if decide (padding = RSA_PKCS1_OAEP_PADDING) then
              let omd := oaep_md mgf1_md in
              issue k op (issue k op cs (set_rsa_mgf1_md (Some omd))) (set_rsa_oaep_md omd)
            else cs in
  match label with
  | Some l => if bool_decide (l = []) then cs else issue k op cs (set0_rsa_oaep_label l)
  | None => cs
  end.

Definition rsa_encdec (op : PkeyOp) (rnd : Z) (k : EVP_PKEY) (inp : list byte) (padding : Padding)
    (label : option (list byte)) (mgf1_md : list byte) : CK_RV * list byte :=
  if negb (EVP_PKEY_CTX_new k) then (CKR_HOST_MEMORY, [])
  else if negb (pkey_init k op) then (CKR_GENERAL_ERROR, [])
  else if negb (ctrl_ok k op [] (set_rsa_padding padding)) then (CKR_GENERAL_ERROR, [])
  else
    let cs := rsa_encdec_controls k op padding label mgf1_md in
    match pkey_size k op cs inp with
    | None => (CKR_GENERAL_ERROR, [])
    | Some outlen =>
      match pkey_run rnd k op cs outlen inp with
      | inl out => (CKR_OK, out)
      | inr _ => (CKR_GENERAL_ERROR, [])
      end
    end.

Definition p11_rsa_encrypt := rsa_encdec OpEncrypt.
Definition p11_rsa_decrypt := rsa_encdec OpDecrypt.

(** The controls of [p11_rsa_sign] and [p11_rsa_verify]. *)
Definition rsa_sig_controls (k : EVP_PKEY) (op : PkeyOp) (padding : Padding) (mdName mgf1_md : list byte)
    : list Ctrl :=
  let cs := issue k op [] (set_rsa_padding padding) in
  let md := if bool_decide (mdName = []) then None else EVP_get_digestbyname mdName in
  if decide (padding = RSA_PKCS1_PSS_PADDING) then
    let mgf := if bool_decide (mgf1_md = []) then Some (default EVP_sha256 md)
               else EVP_get_digestbyname mgf1_md in
    let cs := issue k op cs set_rsa_pss_saltlen_digest in
    let cs := issue k op cs (set_rsa_mgf1_md mgf) in
    issue k op cs (set_signature_md (match md with Some m => Some m | None => mgf end))
  else match md with
       | Some m => issue k op cs (set_signature_md (Some m))
       | None => cs
       end.

Definition p11_rsa_sign (rnd : Z) (k : EVP_PKEY) (digest : list byte) (padding : Padding)
    (mdName mgf1_md : list byte) : CK_RV * list byte :=
  if negb (EVP_PKEY_CTX_new k) then (CKR_HOST_MEMORY, [])
  else if negb (pkey_init k OpSign) then (CKR_GENERAL_ERROR, [])
  else
    let cs := rsa_sig_controls k OpSign padding mdName mgf1_md in
    match pkey_size k OpSign cs digest with
    | None => (CKR_GENERAL_ERROR, [])
    | Some siglen =>
      match pkey_run rnd k OpSign cs siglen digest with
      | inl sig => (CKR_OK, sig)
      | inr _ => (CKR_GENERAL_ERROR, [])
      end
    end.

Definition p11_rsa_verify (k : EVP_PKEY) (digest sig : list byte) (padding : Padding)
    (mdName mgf1_md : list byte) : CK_RV :=
  if negb (EVP_PKEY_CTX_new k) then CKR_HOST_MEMORY
  else if negb (pkey_init k OpVerify) then CKR_GENERAL_ERROR
  else
    let cs := rsa_sig_controls k OpVerify padding mdName mgf1_md in
    if EVP_PKEY_verify k cs sig digest then CKR_OK else CKR_SIGNATURE_INVALID.

(** A buffer of 256 bytes first; a second call when the library asks for more. *)
Definition p11_ecdsa_sign (rnd1 rnd2 : Z) (k : EVP_PKEY) (digest : list byte) : CK_RV * list byte :=
  if negb (EVP_PKEY_CTX_new k) then (CKR_HOST_MEMORY, [])
  else if negb (pkey_init k OpSign) then (CKR_GENERAL_ERROR, [])
  else match pkey_run rnd1 k OpSign [] 256 digest with
       | inl sig => (CKR_OK, sig)
       | inr siglen =>
         if 256 <? siglen then
           match pkey_run rnd2 k OpSign [] siglen digest with
           | inl sig => (CKR_OK, sig)
           | inr _ => (CKR_GENERAL_ERROR, [])
           end
         else (CKR_GENERAL_ERROR, [])
       end.

Definition p11_ecdsa_verify (k : EVP_PKEY) (digest sig : list byte) : CK_RV :=
  if negb (EVP_PKEY_CTX_new k) then CKR_HOST_MEMORY
  else if negb (pkey_init k OpVerify) then CKR_GENERAL_ERROR
  else if EVP_PKEY_verify k [] sig digest then CKR_OK else CKR_SIGNATURE_INVALID.

Definition p11_ecdh_derive (priv peer : EVP_PKEY) : list byte :=
  if negb (EVP_PKEY_CTX_new priv) then []
  else if negb (pkey_init priv OpDerive) then []
  else if negb (derive_set_peer priv peer) then []
  else default [] (EVP_PKEY_derive priv peer).

(** The cipher chosen by the size of the key, and the bytes it reads at
    [key.data()]. *)
Definition aes_key_size (key : list byte) : nat :=
  if len key =? 32 then 32 else if len key =? 24 then 24 else 16.

Definition aes_key (key : list byte) : list byte := take (aes_key_size key) (key ++ beyond_key).

(** The bytes the library sees of a vector whose size was cast to [int]. *)
Definition int_sized (l : list byte) : option (list byte) :=
  let n := to_int (len l) in if n <? 0 then None else Some (take (Z.to_nat n) l).

Definition p11_aes_gcm_encrypt (key iv aad pt : list byte) : CK_RV * (list byte * list byte) :=
  match int_sized iv, int_sized aad, int_sized pt with
  | Some iv, Some aad, Some pt =>
    match gcm_encrypt (aes_key key) iv aad pt with
    | Some ct_tag => (CKR_OK, ct_tag)
    | None => (CKR_GENERAL_ERROR, ([], []))
    end
  | _, _, _ => (CKR_GENERAL_ERROR, ([], []))
  end.

Definition p11_aes_gcm_decrypt (key iv aad ct tag : list byte) : CK_RV * list byte :=
  if negb (len tag =? 16) then (CKR_ENCRYPTED_DATA_LEN_RANGE, [])
  else match int_sized iv, int_sized aad, int_sized ct with
  | Some iv, Some aad, Some ct =>
    match gcm_decrypt (aes_key key) iv aad ct tag with
    | Some pt => (CKR_OK, pt)
    | None => (CKR_GENERAL_ERROR, [])
    end
  | _, _, _ => (CKR_GENERAL_ERROR, [])
  end.

(** ** Keys and objects *)

(** [setAttribute] of bytes that exist. *)
Definition put_attr (o : HsmObject) (t : Z) (v : list byte) : HsmObject :=
  with_attrs o (<[t := v]> (attrs_ o)).

Definition store_class (o : HsmObject) (isPrivate : bool) : HsmObject :=
  put_attr o CKA_CLASS (ulong_bytes (if isPrivate then CKO_PRIVATE_KEY else CKO_PUBLIC_KEY)).

Definition p11_get_attr_bytes (o : HsmObject) (t : Z) : list byte := default [] (findAttribute o t).

Definition p11_store_secret (o : HsmObject) (raw : list byte) : CK_RV * HsmObject :=
  (CKR_OK, put_attr o CKA_VALUE raw).

(** [p11_store_key_ec]: the handle of [scrypto], [None] when null; an export
    that throws leaves what was stored before it. *)
Definition p11_store_key_ec (o : HsmObject) (kp : option EVP_PKEY) (isPrivate : bool) : CK_RV * HsmObject :=
  match kp with
  | None => (CKR_GENERAL_ERROR, o)
  | Some k =>
    let stored :=
      match (if isPrivate then
               match i2d_ECPrivateKey k with
               | Some d => Some (put_attr o CKA_VHSM_EC_PRIV d)
               | None => None
               end
             else Some o) with
      | None => (false, o)
      | Some o =>
        match i2d_ECPKParameters k with
        | None => (false, o)
        | Some params =>
          let o := put_attr o CKA_EC_PARAMS params in
          match point2oct k with
          | None => (false, o)
          | Some point => (true, put_attr o CKA_EC_POINT point)
          end
        end
      end in
    if fst stored then (CKR_OK, store_class (snd stored) isPrivate)
    else (CKR_GENERAL_ERROR, snd stored)
  end.

(** [p11_store_key] of an [RSAKeyPair]. *)
Definition p11_store_key_rsa (o : HsmObject) (kp : option EVP_PKEY) (isPrivate : bool) : CK_RV * HsmObject :=
  match kp with
  | None => (CKR_GENERAL_ERROR, o)
  | Some k =>
    match (if isPrivate then i2d_RSAPrivateKey k else i2d_RSAPublicKey k) with
    | None => (CKR_GENERAL_ERROR, o)
    | Some der =>
      (CKR_OK, store_class
        (put_attr o (if isPrivate then CKA_VHSM_RSA_PRIV else CKA_VHSM_RSA_PUB) der) isPrivate)
    end
  end.

(** [p11_store_key] of an [EVP_PKEY]. *)
Definition p11_store_key (o : HsmObject) (k : EVP_PKEY) (isPrivate : bool) : CK_RV * HsmObject :=
  let finish (o : HsmObject) (kt : Z) :=
    (CKR_OK, put_attr (store_class o isPrivate) CKA_KEY_TYPE (ulong_bytes kt)) in
  match EVP_PKEY_get_base_id k with
  | EVP_PKEY_RSA =>
    match (if isPrivate then i2d_RSAPrivateKey k else i2d_RSAPublicKey k) with
    | None => (CKR_GENERAL_ERROR, o)
    | Some der =>
      let o := put_attr o (if isPrivate then CKA_VHSM_RSA_PRIV else CKA_VHSM_RSA_PUB) der in
      finish (store_class o false) CKK_RSA
    end
  | EVP_PKEY_EC =>
    match (if isPrivate then i2d_ECPrivateKey k else i2o_ECPublicKey k) with
    | None => (CKR_GENERAL_ERROR, o)
    | Some der =>
      let o := put_attr o (if isPrivate then CKA_VHSM_EC_PRIV else CKA_VHSM_EC_PUB) der in
      match i2d_ECPKParameters k with
      | None => (CKR_GENERAL_ERROR, o)
      | Some params =>
        let o := put_attr o CKA_EC_PARAMS params in
        match point2oct k with
        | None => (CKR_GENERAL_ERROR, o)
        | Some pt => finish (put_attr o CKA_EC_POINT pt) CKK_EC
        end
      end
    end
  | EVP_PKEY_UNDEF => (CKR_GENERAL_ERROR, o)
  end.

(** An attribute that is present and not empty. *)
Definition nonempty_attr (o : HsmObject) (t : Z) : option (list byte) :=
  match findAttribute o t with
  | Some v => if bool_decide (v = []) then None else Some v
  | None => None
  end.

Definition key_from_params_point (o : HsmObject) : option EVP_PKEY :=
  match nonempty_attr o CKA_EC_PARAMS, nonempty_attr o CKA_EC_POINT with
  | Some params, Some point => ec_from_params_point params point
  | _, _ => None
  end.

(** [shim]: built with [VHSM_OPENSSL_SHIM]. *)
Definition p11_build_key_from_attrs (shim : bool) (o : HsmObject) : option EVP_PKEY :=
  match nonempty_attr o CKA_VHSM_RSA_PRIV with
  | Some d => d2i_RSAPrivateKey d
  | None =>
    match nonempty_attr o CKA_VHSM_EC_PRIV with
    | Some d => d2i_ECPrivateKey d
    | None =>
      match nonempty_attr o CKA_VHSM_RSA_PUB with
      | Some d => d2i_RSAPublicKey d
      | None =>
        match nonempty_attr o CKA_VHSM_EC_PUB with
        | Some d =>
          match key_from_params_point o with
          | Some k => Some k
          | None => if shim then None else d2i_EC_PUBKEY d
          end
        | None => if shim then key_from_params_point o else None
        end
      end
    end
  end.

Definition p11_evp_from_object (shim : bool) (o : HsmObject) : option EVP_PKEY :=
  p11_build_key_from_attrs shim o.

Definition p11_key_fingerprint (shim : bool) (k : EVP_PKEY) : list byte :=
  let der := match EVP_PKEY_get_base_id k with
             | EVP_PKEY_RSA => i2d_RSAPublicKey k
             | EVP_PKEY_EC => if shim then point2oct k else i2o_ECPublicKey k
             | EVP_PKEY_UNDEF => None
             end in
  match der with
  | Some d => if bool_decide (d = []) then [] else Utils.hex_encode (EVP_digest (bytes_of "SHA256") d)
  | None => []
  end.

(** [address]: the value of the object's pointer. *)
Definition p11_key_id (address : Z) (o : HsmObject) : list byte :=
  match nonempty_attr o CKA_ID with
  | Some id => Utils.hex_encode id
  | None => bytes_of "key-" ++ to_string address
  end.

End Wrappers.

(** ** Laws of the library *)

Class OpenSSLLaws (O : OpenSSL) : Prop := {
  (** Signing and verifying take the same controls, and what was signed under
      them verifies. *)
  verify_init : forall k, pkey_init k OpSign = true -> pkey_init k OpVerify = true;
  verify_ctrl : forall k cs c, ctrl_ok k OpVerify cs c = ctrl_ok k OpSign cs c;
  verify_sign : forall r k cs room d sig,
    pkey_run r k OpSign cs room d = inl sig -> EVP_PKEY_verify k cs sig d = true;
  (** AES-GCM decrypts what it encrypted; the tag has 16 bytes. *)
  gcm_roundtrip : forall k iv aad pt ct tag,
    gcm_encrypt k iv aad pt = Some (ct, tag) ->
    length tag = 16%nat /\ length ct = length pt /\ gcm_decrypt k iv aad ct tag = Some pt
}.

Section WrapperLemmas.
Context `{O : OpenSSL} {L : OpenSSLLaws O}.

Lemma issue_verify k cs c : issue k OpVerify cs c = issue k OpSign cs c.
Proof. unfold issue. by rewrite verify_ctrl. Qed.

Lemma rsa_sig_controls_verify k p md mgf :
  rsa_sig_controls k OpVerify p md mgf = rsa_sig_controls k OpSign p md mgf.
Proof. unfold rsa_sig_controls. cbv zeta. split_ifs; by rewrite !issue_verify. Qed.

Lemma rsa_verify_sign r k d p md mgf sig :
  p11_rsa_sign r k d p md mgf = (CKR_OK, sig) -> p11_rsa_verify k d sig p md mgf = CKR_OK.
Proof.
  unfold p11_rsa_sign, p11_rsa_verify. rewrite rsa_sig_controls_verify. intros H.
  destruct (EVP_PKEY_CTX_new k); [|discriminate]. destruct (pkey_init k OpSign) eqn:Ei; [|discriminate].
  rewrite (verify_init _ Ei). cbn [negb] in *. split_ifs_in H; try discriminate. injection H as <-.
  by erewrite verify_sign.
Qed.

Lemma ecdsa_verify_sign r1 r2 k d sig :
  p11_ecdsa_sign r1 r2 k d = (CKR_OK, sig) -> p11_ecdsa_verify k d sig = CKR_OK.
Proof.
  unfold p11_ecdsa_sign, p11_ecdsa_verify. intros H.
  destruct (EVP_PKEY_CTX_new k); [|discriminate]. destruct (pkey_init k OpSign) eqn:Ei; [|discriminate].
  rewrite (verify_init _ Ei). cbn [negb] in *. split_ifs_in H; try discriminate; injection H as <-;
  by erewrite verify_sign.
Qed.

Lemma int_sized_small l : len l < 2 ^ 31 -> int_sized l = Some l.
Proof.
  intros H. unfold int_sized. pose proof (len_nonneg l). rewrite to_int_small by lia.
  rewrite (proj2 (Z.ltb_ge _ _)) by lia. f_equal. apply take_ge. unfold len. lia.
Qed.

Lemma aes_gcm_decrypt_encrypt key iv aad pt ct tag :
  len pt < 2 ^ 31 -> p11_aes_gcm_encrypt key iv aad pt = (CKR_OK, (ct, tag)) ->
  length tag = 16%nat /\ p11_aes_gcm_decrypt key iv aad ct tag = (CKR_OK, pt).
Proof.
  intros Hl H. unfold p11_aes_gcm_encrypt, p11_aes_gcm_decrypt in *. rewrite (int_sized_small pt Hl) in H.
  destruct (int_sized iv), (int_sized aad); try discriminate.
  destruct (gcm_encrypt _ _ _ _) as [[ct' tag']|] eqn:E; [|discriminate]. injection H as <- <-.
  destruct (gcm_roundtrip _ _ _ _ _ _ E) as (Ht & Hc & Hd).
  assert (len ct' = len pt) as Hcl by (unfold len; by rewrite Hc).
  unfold len at 1. rewrite Ht. cbn [Z.of_nat Z.eqb negb]. rewrite int_sized_small by lia. by rewrite Hd.
Qed.

End WrapperLemmas.

(** ** A library for the witnesses *)

(** Private keys are their bytes, eight at most; a signature is the key and the data, AES-GCM copies
    its input under a zero tag. *)
#[local] Instance toy_ssl : OpenSSL := {|
  EVP_PKEY := BaseId * list byte;
  EVP_MD := list byte;
  EVP_sha256 := bytes_of "SHA256";
  EVP_get_digestbyname n := Some n;
  EVP_digest n d := n ++ d;
  EVP_PKEY_get_base_id := fst;
  Ctrl := unit;
  set_rsa_padding _ := tt; set_rsa_mgf1_md _ := tt; set_rsa_oaep_md _ := tt; set0_rsa_oaep_label _ := tt;
  set_rsa_pss_saltlen_digest := tt; set_signature_md _ := tt;
  EVP_PKEY_CTX_new _ := true; pkey_init _ _ := true; ctrl_ok _ _ _ _ := true;
  pkey_size k _ _ d := Some (len (snd k ++ d));
  pkey_run _ k _ _ _ d := inl (snd k ++ d);
  EVP_PKEY_verify k _ sig d := bool_decide (sig = snd k ++ d);
  derive_set_peer _ _ := true;
  EVP_PKEY_derive a b := Some (snd a ++ snd b);
  gcm_encrypt _ _ _ pt := Some (pt, replicate 16 x00);
  gcm_decrypt _ _ _ ct tag := if bool_decide (tag = replicate 16 x00) then Some ct else None;
  beyond_key := [];
  d2i_RSAPrivateKey d := if len d <=? 8 then Some (EVP_PKEY_RSA, d) else None;
  d2i_RSAPublicKey d := Some (EVP_PKEY_RSA, d);
  d2i_ECPrivateKey d := if len d <=? 8 then Some (EVP_PKEY_EC, d) else None; d2i_EC_PUBKEY d := Some (EVP_PKEY_EC, d);
  ec_from_params_point _ pt := Some (EVP_PKEY_EC, pt);
  i2d_RSAPrivateKey k := Some (snd k); i2d_RSAPublicKey k := Some (snd k);
  i2d_ECPrivateKey k := Some (snd k); i2o_ECPublicKey k := Some (snd k);
  i2d_ECPKParameters _ := Some (bytes_of "P-256"); point2oct k := Some (snd k) |}.

#[local] Instance toy_ssl_laws : OpenSSLLaws toy_ssl.
Proof.
  split; cbn; try done.
  - intros r k cs room d sig [= <-]. by rewrite bool_decide_true.
  - intros k iv aad pt ct tag [= <- <-]. done.
Qed.

(** ** Properties of the tables *)

(** The FIPS table has its own numbers for the mechanisms: in FIPS mode the
    SHA-2 ECDSA mechanisms and RSA-PSS with SHA-512 are refused, and RSA-PSS
    with SHA-1 and two unlisted AES modes are approved. *)
Lemma fips_table_misnumbered :
  map mechanism_approved
    [CKM_ECDSA; CKM_ECDSA_SHA256; CKM_ECDSA_SHA384; CKM_ECDSA_SHA512; CKM_SHA384; CKM_SHA512;
     CKM_SHA512_RSA_PKCS_PSS; CKM_AES_ECB; CKM_AES_CBC] = replicate 9 false /\
  map mechanism_approved [CKM_SHA1_RSA_PKCS_PSS; CKM_AES_CBC_PAD; CKM_AES_CTR] = replicate 3 true.
Proof. split; reflexivity. Qed.

(** RSA-PSS with SHA-384 or SHA-512 is not in the hash table: it signs SHA-256. *)
Lemma pss_hashes_sha256 :
  mech_to_hash CKM_SHA384_RSA_PKCS_PSS = SHA256 /\ mech_to_hash CKM_SHA512_RSA_PKCS_PSS = SHA256.
Proof. split; reflexivity. Qed.

(** AES keys of any other size are used as AES-128 keys: a longer key loses all
    but its first 16 bytes, a shorter one is read past its end. *)
Lemma aes_key_truncated `{O : OpenSSL} (key extra : list byte) :
  length key = 16%nat -> ~ In (length (key ++ extra)) [24%nat; 32%nat] ->
  aes_key (key ++ extra) = aes_key key.
Proof.
  intros Hk Hn. rewrite length_app, Hk in Hn. unfold aes_key, aes_key_size.
  assert (len (key ++ extra) <> 32 /\ len (key ++ extra) <> 24) as [H1 H2].
  { rewrite len_app. unfold len. rewrite Hk. cbn in Hn. lia. }
  rewrite (proj2 (Z.eqb_neq _ _) H1), (proj2 (Z.eqb_neq _ _) H2).
  unfold len. rewrite Hk. change (Z.of_nat 16 =? 32) with false. change (Z.of_nat 16 =? 24) with false.
  cbv iota. by rewrite <- app_assoc, !take_app_le by lia.
Qed.

(** A generated EC public key has no [CKA_VHSM_EC_PUB]: the build without the
    shim cannot load it. *)
Lemma ec_public_key_not_loadable `{O : OpenSSL} (o : HsmObject) (k : EVP_PKEY) :
  attrs_ o = ∅ ->
  p11_build_key_from_attrs false (snd (p11_store_key_ec o (Some k) false)) = None.
Proof.
  intros Ho. unfold p11_store_key_ec. destruct (i2d_ECPKParameters k) as [ps|]; [destruct (point2oct k)|];
  cbn [fst snd]; unfold p11_build_key_from_attrs, nonempty_attr, findAttribute, store_class, put_attr;
  cbn [attrs_ with_attrs]; rewrite Ho, ?lookup_insert_ne, ?lookup_empty by done; done.
Qed.
