(* ===== verification/Crypto.v ===== *)
(** * The cryptographic entry points

    [src/src/pkcs11/p11_crypto.cpp]: encryption, decryption, digests, signatures
    and their verification, in one call or in parts, on the operation state of a
    session.  OpenSSL is the class [OpenSSL], the JSON library the class
    [NlohmannJson].

    What a call reads from outside is the record [Env]: the [VHSM_FIPS] variable,
    the clock, whether a notification bus and an audit log are installed, the
    answer of the signature dispatcher, the policy answer of the ledger client
    (built with [VHSM_LEDGER]), the random numbers, object addresses and the
    build variant.  A call returns its code, what it wrote through its output
    pointers and the state. *)

From S2P Require Import Prelude Codec Types Notification SecureBuffer Objects ObjectStore Token Session Pkcs11 AuditLog KeyPolicy Evp.
Import LeBytes HsmObj AttrStore Sess.
Local Open Scope Z_scope.

Record Env : Type := mkEnv {
  VHSM_FIPS : option (list byte);
  now_ms : Z;
  bus_and_audit_log : bool;
  dispatcher : option (DispatchCall -> res bool);
  ledger_verify_policy : option (list byte -> list byte -> list byte -> Z -> bool);
  rnd1 : Z;
  rnd2 : Z;
  address : HsmObject -> Z;
  hsm_instance_id : list byte;
  shim : bool
}.

(** What was written at the output buffer and at its length. *)
Record Output : Type := mkOut { outlen : option Z; written : list byte }.

Definition no_output : Output := mkOut None [].

(** [CK_GCM_PARAMS] and [CK_RSA_PKCS_OAEP_PARAMS]; a buffer is [None] when its
    pointer is null, and holds its length otherwise. *)
Record CK_GCM_PARAMS : Type := mkGcmParams {
  pIv : option (list byte); ulIvLen : Z; pAAD : option (list byte); ulAADLen : Z }.
Record CK_RSA_PKCS_OAEP_PARAMS : Type := mkOaepParams {
  hashAlg : Z; mgf : Z; source : Z; pSourceData : option (list byte); ulSourceDataLen : Z }.

(** [pParameter] with [ulParameterLen]: null or too short for the struct the
    mechanism expects, or the struct. *)
Inductive MechParam : Type :=
| NoParam
| GcmParam (g : CK_GCM_PARAMS)
| OaepParam (o : CK_RSA_PKCS_OAEP_PARAMS).

Record CK_MECHANISM : Type := mkMech { mechanism : Z; param : MechParam }.

(** [std::vector<u8>(p, p + n)]. *)
Definition input (p : option (list byte)) (n : Z) : list byte := take (Z.to_nat n) (default [] p).

Definition CKZ_DATA_SPECIFIED := 1.

Definition oaep_md_name (m : Z) : list byte :=
  if m =? CKM_SHA_1 then bytes_of "SHA-1"
  else if m =? CKM_SHA_256 then bytes_of "SHA-256"
  else if m =? CKM_SHA_384 then bytes_of "SHA-384"
  else if m =? CKM_SHA_512 then bytes_of "SHA-512"
  else bytes_of "SHA-256".

Definition mgf_name (m : Z) : list byte :=
  if m =? 1 then bytes_of "SHA-1" else if m =? 2 then bytes_of "SHA-256"
  else if m =? 3 then bytes_of "SHA-384" else if m =? 4 then bytes_of "SHA-512"
  else bytes_of "SHA-256".

Definition is_digest_mech (m : Z) : bool :=
  (m =? CKM_SHA_256) || (m =? CKM_SHA_384) || (m =? CKM_SHA_512).

Definition mech_names : list (Z * string) :=
  [(CKM_RSA_PKCS, "CKM_RSA_PKCS"); (CKM_RSA_X_509, "CKM_RSA_X_509");
   (CKM_RSA_PKCS_PSS, "CKM_RSA_PKCS_PSS"); (CKM_RSA_PKCS_OAEP, "CKM_RSA_PKCS_OAEP");
   (CKM_SHA256_RSA_PKCS, "CKM_SHA256_RSA_PKCS"); (CKM_SHA384_RSA_PKCS, "CKM_SHA384_RSA_PKCS");
   (CKM_SHA512_RSA_PKCS, "CKM_SHA512_RSA_PKCS");
   (CKM_SHA256_RSA_PKCS_PSS, "CKM_SHA256_RSA_PKCS_PSS");
   (CKM_SHA384_RSA_PKCS_PSS, "CKM_SHA384_RSA_PKCS_PSS");
   (CKM_SHA512_RSA_PKCS_PSS, "CKM_SHA512_RSA_PKCS_PSS"); (CKM_ECDSA, "CKM_ECDSA");
   (CKM_ECDSA_SHA256, "CKM_ECDSA_SHA256"); (CKM_ECDSA_SHA384, "CKM_ECDSA_SHA384");
   (CKM_ECDSA_SHA512, "CKM_ECDSA_SHA512"); (CKM_AES_GCM, "CKM_AES_GCM");
   (CKM_AES_ECB, "CKM_AES_ECB")]%string.

Definition lookup_name (l : list (Z * string)) (m : Z) (d : string) : list byte :=
  bytes_of (match List.find (fun e => fst e =? m) l with Some e => snd e | None => d end).

Definition mech_to_str (mech : Z) : list byte := lookup_name mech_names mech "CKM_VENDOR_DEFINED".

Definition digest_names : list (Z * string) :=
  [(CKM_SHA384, "SHA-384"); (CKM_SHA384_RSA_PKCS, "SHA-384"); (CKM_ECDSA_SHA384, "SHA-384");
   (CKM_SHA384_HMAC, "SHA-384"); (CKM_SHA384_RSA_PKCS_PSS, "SHA-384"); (CKM_SHA512, "SHA-512");
   (CKM_SHA512_RSA_PKCS, "SHA-512"); (CKM_ECDSA_SHA512, "SHA-512");
   (CKM_SHA512_HMAC, "SHA-512"); (CKM_SHA512_RSA_PKCS_PSS, "SHA-512")]%string.

Definition digest_to_str (mech : Z) : list byte := lookup_name digest_names mech "SHA-256".

Definition finish_output (out : list byte) (pOut_null : bool) (pOutLen : option Z) : CK_RV * Output :=
  match pOutLen with
  | None => (CKR_ARGUMENTS_BAD, no_output)
  | Some room =>
    if pOut_null then (CKR_OK, mkOut (Some (len out)) [])
    else if room <? len out then (CKR_BUFFER_TOO_SMALL, mkOut (Some (len out)) [])
    else (CKR_OK, mkOut (Some (len out)) out)
  end.

(** ** The operation of a session *)

Definition op_begin (st : P11) (h : Z) (m : option CK_MECHANISM) (k : Z) (needKey : bool) : CK_RV * P11 :=
  if negb (g_initialized st) then (CKR_CRYPTOKI_NOT_INITIALIZED, st)
  else match m with
  | None => (CKR_ARGUMENTS_BAD, st)
  | Some m =>
    if needKey && (k =? CK_INVALID_HANDLE) then (CKR_KEY_HANDLE_INVALID, st)
    else match p11_get_session st h with
    | None => (CKR_SESSION_HANDLE_INVALID, st)
    | Some s => let (rv, s') := opBegin s (mechanism m) k in (rv, put_session st h s')
    end
  end.

Definition op_check (st : P11) (h : Z) : CK_RV :=
  match p11_get_session st h with
  | None => CKR_SESSION_HANDLE_INVALID
  | Some s => opCheck s
  end.

Definition op_end (st : P11) (h : Z) : P11 :=
  match p11_get_session st h with
  | None => st
  | Some s => put_session st h (opEnd s)
  end.

Definition op_update (st : P11) (h : Z) (p : option (list byte)) (n : Z) : P11 :=
  match p11_get_session st h with
  | None => st
  | Some s => put_session st h (opUpdate s p n)
  end.

(** [opTakeBuffer] followed by the [opUpdate] that puts the bytes back. *)
Definition take_and_keep (st : P11) (h : Z) (s : Session) : list byte * P11 :=
  let (data, s) := opTakeBuffer s in (data, put_session st h (opUpdate s (Some data) (len data))).

(** ["user-" + std::to_string(static_cast<int>(ut))], if logged in. *)
Definition user_label (s : Session) : option (list byte) :=
  if userType_ s =? CKU_INVALID then None
  else Some (bytes_of "user-" ++ int_to_string (to_int (userType_ s))).

Section Crypto.
Context `{O : OpenSSL} `{J : NlohmannJson}.

Definition load_secret_key (st : P11) (h k : Z) : list byte :=
  match p11_get_object st h k with
  | None => []
  | Some o => default [] (findAttribute o CKA_VALUE)
  end.

Definition load_asym_key (env : Env) (st : P11) (h k : Z) : option EVP_PKEY :=
  match p11_get_object st h k with
  | None => None
  | Some o => p11_evp_from_object (shim env) o
  end.

(** ** Encryption and decryption *)

(** Padding, digest name, and the label unless empty. *)
Definition resolve_rsa_encdec (mech : Z) (oaep_mgf1 oaep_label : list byte)
    : Padding * list byte * option (list byte) :=
  if mech =? CKM_RSA_X_509 then (RSA_NO_PADDING, [], None)
  else if mech =? CKM_RSA_PKCS_OAEP then
    (RSA_PKCS1_OAEP_PADDING, oaep_mgf1, if bool_decide (oaep_label = []) then None else Some oaep_label)
  else (RSA_PKCS1_PADDING, [], None).

Definition do_encrypt (env : Env) (st : P11) (h : Z) (inp : list byte) : CK_RV * list byte :=
  match p11_get_session st h with
  | None => (CKR_SESSION_HANDLE_INVALID, [])
  | Some s =>
    let prm := op_ s in
    if fips_mode (VHSM_FIPS env) && negb (mechanism_approved (activeMech_ prm))
    then (CKR_MECHANISM_INVALID, [])
    else match p11_get_object st h (signKey_ prm) with
    | None => (CKR_KEY_HANDLE_INVALID, [])
    | Some o =>
      let st_rv := p11_key_state_error (getKeyState o) false in
      if negb (st_rv =? CKR_OK) then (st_rv, [])
      else if activeMech_ prm =? CKM_AES_GCM then
        let key := load_secret_key st h (signKey_ prm) in
        if bool_decide (key = []) then (CKR_KEY_HANDLE_INVALID, [])
        else let '(rv, (ct, tag)) := p11_aes_gcm_encrypt key (gcmIv_ prm) (gcmAad_ prm) inp in
             (rv, if rv =? CKR_OK then ct ++ tag else [])
      else match load_asym_key env st h (signKey_ prm) with
      | None => (CKR_KEY_HANDLE_INVALID, [])
      | Some pk =>
        let '(padding, md, label) := resolve_rsa_encdec (activeMech_ prm) (oaepMgf1_ prm) (oaepLabel_ prm) in
        p11_rsa_encrypt (rnd1 env) pk inp padding label md
      end
    end
  end.

Definition do_decrypt (env : Env) (st : P11) (h : Z) (inp : list byte) : CK_RV * list byte :=
  match p11_get_session st h with
  | None => (CKR_SESSION_HANDLE_INVALID, [])
  | Some s =>
    let prm := op_ s in
    if activeMech_ prm =? CKM_AES_GCM then
      let key := load_secret_key st h (signKey_ prm) in
      if bool_decide (key = []) then (CKR_KEY_HANDLE_INVALID, [])
      else if len inp <? 16 then (CKR_ENCRYPTED_DATA_LEN_RANGE, [])
      else
        let n := (length inp - 16)%nat in
        p11_aes_gcm_decrypt key (gcmIv_ prm) (gcmAad_ prm) (take n inp) (drop n inp)
    else match load_asym_key env st h (signKey_ prm) with
    | None => (CKR_KEY_HANDLE_INVALID, [])
    | Some pk =>
      match p11_get_object st h (signKey_ prm) with
      | None => (CKR_KEY_HANDLE_INVALID, [])
      | Some o =>
        let st_rv := p11_key_state_error (getKeyState o) false in
        if negb (st_rv =? CKR_OK) then (st_rv, [])
        else
          let '(padding, md, label) := resolve_rsa_encdec (activeMech_ prm) (oaepMgf1_ prm) (oaepLabel_ prm) in
          p11_rsa_decrypt (rnd1 env) pk inp padding label md
      end
    end
  end.

(** ** Signatures *)

(** [None] is the [false] result; else padding, digest and MGF names and the
    bytes to sign. *)
Definition resolve_rsa_mech (mech : Z) (data : list byte)
    : option (Padding * list byte * list byte * list byte) :=
  if mech =? CKM_RSA_PKCS then Some (RSA_PKCS1_PADDING, [], [], data)
  else if mech =? CKM_RSA_X_509 then Some (RSA_NO_PADDING, [], [], data)
  else if mech =? CKM_RSA_PKCS_PSS then
    Some (RSA_PKCS1_PSS_PADDING, bytes_of "SHA256", bytes_of "SHA256", p11_hash SHA256 data)
  else if mech =? CKM_RSA_PKCS_OAEP then None
  else
    let ha := mech_to_hash mech in
    let pss := (mech =? CKM_SHA256_RSA_PKCS_PSS) || (mech =? CKM_SHA384_RSA_PKCS_PSS)
               || (mech =? CKM_SHA512_RSA_PKCS_PSS) in
    let mdName := digest_name ha in
    Some (if pss then RSA_PKCS1_PSS_PADDING else RSA_PKCS1_PADDING, mdName,
          if pss then mdName else [], p11_hash ha data).

Definition resolve_ec_mech (mech : Z) (data : list byte) : list byte :=
  if mech =? CKM_ECDSA then data else p11_hash (mech_to_hash mech) data.

(** The policy gate of [do_sign]: [true] when signing may go on. *)
Definition policy_gate (env : Env) (s : Session) (o : HsmObject) (mech : Z) : bool :=
  match findAttribute o CKA_VHSM_POLICY with
  | None => true
  | Some policy_json =>
    if bool_decide (policy_json = []) then true
    else match from_json policy_json with
    | Throw _ => false
    | Ok policy =>
      let actor := default (bytes_of "UNKNOWN") (user_label s) in
      let mech_str := mech_to_str mech in
      let attestation_count := match findAttribute o CKA_VHSM_ATTESTATION_COUNT with
                               | Some att => parse_attr_count att
                               | None => 0
                               end in
      match ledger_verify_policy env with
      | Some verify_policy =>
        if 0 <? min_attestations policy
        then verify_policy (p11_key_id (address env o) o) actor mech_str (now_ms env)
        else ok (evaluate policy actor mech_str (now_ms env) attestation_count)
      | None => ok (evaluate policy actor mech_str (now_ms env) attestation_count)
      end
    end
  end.

Definition key_type_inconsistent (mech : Z) (pk : EVP_PKEY) : bool :=
  (is_rsa_mech mech && negb (bool_decide (EVP_PKEY_get_base_id pk = EVP_PKEY_RSA))) ||
  (is_ec_mech mech && negb (bool_decide (EVP_PKEY_get_base_id pk = EVP_PKEY_EC))).

Definition do_sign (env : Env) (st : P11) (h : Z) (data : list byte) : CK_RV * list byte :=
  match p11_get_session st h with
  | None => (CKR_SESSION_HANDLE_INVALID, [])
  | Some s =>
    let mech := activeMech_ (op_ s) in
    if fips_mode (VHSM_FIPS env) && negb (mechanism_approved mech) then (CKR_MECHANISM_INVALID, [])
    else
      let k := signKey_ (op_ s) in
      match p11_get_object st h k with
      | None => (CKR_KEY_HANDLE_INVALID, [])
      | Some o =>
        let st_rv := p11_key_state_error (getKeyState o) true in
        if negb (st_rv =? CKR_OK) then (st_rv, [])
        else if negb (policy_gate env s o mech) then (CKR_ACTION_PROHIBITED, [])
        else match load_asym_key env st h k with
        | None => (CKR_KEY_HANDLE_INVALID, [])
        | Some pk =>
          if key_type_inconsistent mech pk then (CKR_KEY_TYPE_INCONSISTENT, [])
          else if is_rsa_mech mech then
            match resolve_rsa_mech mech data with
            | None => (CKR_MECHANISM_INVALID, [])
            | Some (padding, mdName, mgf1, tosign) =>
              p11_rsa_sign (rnd1 env) pk tosign padding mdName mgf1
            end
          else if is_ec_mech mech then
            p11_ecdsa_sign (rnd1 env) (rnd2 env) pk (resolve_ec_mech mech data)
          else (CKR_MECHANISM_INVALID, [])
        end
      end
  end.

Definition do_verify (env : Env) (st : P11) (h : Z) (data sig : list byte) : CK_RV :=
  match p11_get_session st h with
  | None => CKR_SESSION_HANDLE_INVALID
  | Some s =>
    let mech := activeMech_ (op_ s) in
    let k := signKey_ (op_ s) in
    match p11_get_object st h k with
    | None => CKR_KEY_HANDLE_INVALID
    | Some o =>
      let st_rv := p11_key_state_error (getKeyState o) false in
      if negb (st_rv =? CKR_OK) then st_rv
      else match load_asym_key env st h k with
      | None => CKR_KEY_HANDLE_INVALID
      | Some pk =>
        if key_type_inconsistent mech pk then CKR_KEY_TYPE_INCONSISTENT
        else if is_rsa_mech mech then
          match resolve_rsa_mech mech data with
          | None => CKR_MECHANISM_INVALID
          | Some (padding, mdName, mgf1, tosign) => p11_rsa_verify pk tosign sig padding mdName mgf1
          end
        else if is_ec_mech mech then p11_ecdsa_verify pk (resolve_ec_mech mech data) sig
        else CKR_MECHANISM_INVALID
      end
    end
  end.

(** ** Events *)

Definition QUOTE : list byte := [to_u8 34].
Definition quoted (s : list byte) : list byte := QUOTE ++ s ++ QUOTE.
Definition json_field (name : string) (value : list byte) : list byte :=
  quoted (bytes_of name) ++ bytes_of ":" ++ quoted value.
Definition json_object (fields : list (list byte)) : list byte :=
  bytes_of "{" ++ List.concat (match fields with
    | [] => []
    | f :: l => f :: map (fun g => bytes_of "," ++ g) l end) ++ bytes_of "}".

(** What both publishing functions look up: slot, token label, key, actor. *)
Definition event_source (st : P11) (h : Z) : list byte :=
  let slot_id := match p11_get_session st h with Some s => to_int (slotID_ s) | None => 0 end in
  let token_label := match p11_get_token_for_session st h with
                     | Some t => v_label_ t
                     | None => bytes_of "unknown"
                     end in
  bytes_of "slot:" ++ int_to_string slot_id ++ bytes_of "/token:" ++ token_label.

Definition op_key (st : P11) (h : Z) : Z :=
  match p11_get_session st h with Some s => signKey_ (op_ s) | None => CK_INVALID_HANDLE end.
Definition op_mech (st : P11) (h : Z) : Z :=
  match p11_get_session st h with Some s => activeMech_ (op_ s) | None => 0 end.

Definition event_actor (st : P11) (h : Z) : list byte :=
  match p11_get_session st h with
  | Some s => default (bytes_of "UNKNOWN") (user_label s)
  | None => bytes_of "UNKNOWN"
  end.

Definition event_key_id (env : Env) (st : P11) (h : Z) : list byte :=
  match p11_get_object st h (op_key st h) with
  | Some o => p11_key_id (address env o) o
  | None => bytes_of "unknown"
  end.

Definition event_key_fp (env : Env) (st : P11) (h : Z) : list byte :=
  match load_asym_key env st h (op_key st h) with
  | Some pk => p11_key_fingerprint (shim env) pk
  | None => bytes_of "unknown"
  end.

Definition hash_hex (data : list byte) : list byte := Utils.hex_encode (p11_hash SHA256 data).

Definition publish_verify_event (env : Env) (st : P11) (h : Z) (rv : CK_RV) (data : list byte) : P11 :=
  if negb (bus_and_audit_log env) then st
  else
    let valid := rv =? CKR_OK in
    let mechanism_str := mech_to_str (op_mech st h) in
    let e := {|
      ev_type := if valid then EventType.VERIFY_COMPLETED else EventType.VERIFY_FAILED;
      ev_severity := if valid then Severity.INFO else Severity.WARNING;
      ev_timestamp := now_ms env;
      ev_source := event_source st h;
      ev_actor := event_actor st h;
      ev_summary := bytes_of "Signature verification "
        ++ bytes_of (if valid then "succeeded" else "failed") ++ bytes_of " for key "
        ++ event_key_id env st h ++ bytes_of " using " ++ mechanism_str;
      ev_detail_json := json_object
        [json_field "mechanism" mechanism_str;
         json_field "digest_algorithm" (digest_to_str (op_mech st h));
         json_field "key_fingerprint" (event_key_fp env st h);
         json_field "payload_digest" (hash_hex data);
         json_field "result" (bytes_of (if valid then "valid" else "invalid"))];
      ev_hsm_instance := hsm_instance_id env |} in
    publish st (NOTIFIED e (bytes_of "verify-" ++ int_to_string (now_ms env))
      (bytes_of (if valid then "C_VERIFY_OK" else "C_VERIFY_FAILED"))).

(** The event of a completed call [op_name], and its audit record. *)
Definition crypto_op_event (env : Env) (st : P11) (h : Z) (op_name : string)
    (type : EventType.EventType) (data : list byte) : Event :=
  let mechanism_str := mech_to_str (op_mech st h) in
  let e := {|
    ev_type := type;
    ev_severity := Severity.INFO;
    ev_timestamp := now_ms env;
    ev_source := event_source st h;
    ev_actor := event_actor st h;
    ev_summary := bytes_of op_name ++ bytes_of " completed for key " ++ event_key_id env st h
      ++ bytes_of " using " ++ mechanism_str;
    ev_detail_json := json_object
      [json_field "operation" (bytes_of op_name);
       json_field "mechanism" mechanism_str;
       json_field "key_fingerprint" (event_key_fp env st h);
       json_field "payload_digest" (hash_hex data)];
    ev_hsm_instance := hsm_instance_id env |} in
  NOTIFIED e (bytes_of op_name ++ bytes_of "-" ++ int_to_string (now_ms env)) (bytes_of op_name).

Definition publish_crypto_op_event (env : Env) (st : P11) (h : Z) (op_name : string)
    (type : EventType.EventType) (data : list byte) : P11 :=
  if negb (bus_and_audit_log env) then st
  else publish st (crypto_op_event env st h op_name type data).

Definition dispatch_sign_result (env : Env) (st : P11) (h mech : Z) (data sig : list byte) : CK_RV * P11 :=
  match dispatcher env with
  | None => (CKR_OK, st)
  | Some dispatch =>
    match load_asym_key env st h (op_key st h) with
    | None => (CKR_OK, st)
    | Some pk =>
      let sign_result := mkSignResult sig (mech_to_str mech) (digest_to_str mech) (hash_hex data)
                           (to_int (len data)) in
      let token_label := match p11_get_token_for_session st h with
                         | Some t => v_label_ t
                         | None => bytes_of "unknown"
                         end in
      let call := mkDispatch sign_result (now_ms env)
        (match p11_get_session st h with Some s => to_int (slotID_ s) | None => 0 end)
        token_label (event_key_id env st h) (p11_key_fingerprint (shim env) pk) (to_string h)
        (match p11_get_session st h with Some s => user_label s | None => None end) in
      let dispatch_ok := match dispatch call with Ok b => b | Throw _ => false end in
      (if dispatch_ok then CKR_OK else CKR_DEVICE_ERROR, publish st (DISPATCHED call))
    end
  end.

(** ** Encrypt and decrypt calls *)

(** The parameters of an encryption, once the operation has begun. *)
Definition set_params (st : P11) (h : Z) (m : CK_MECHANISM) : CK_RV * P11 :=
  match p11_get_session st h with
  | None => (CKR_OK, st)
  | Some s =>
    if mechanism m =? CKM_AES_GCM then
      match param m with
      | GcmParam g =>
        if bool_decide (pIv g = None) || (ulIvLen g =? 0) then (CKR_MECHANISM_PARAM_INVALID, st)
        else
          let aad := if bool_decide (pAAD g = None) || (ulAADLen g =? 0) then []
                     else input (pAAD g) (ulAADLen g) in
          (CKR_OK, put_session st h (setGcmParams s (input (pIv g) (ulIvLen g)) aad))
      | _ => (CKR_MECHANISM_PARAM_INVALID, st)
      end
    else if mechanism m =? CKM_RSA_PKCS_OAEP then
      match param m with
      | OaepParam o =>
        let lbl := if (source o =? CKZ_DATA_SPECIFIED) && negb (bool_decide (pSourceData o = None))
                      && negb (ulSourceDataLen o =? 0)
                   then input (pSourceData o) (ulSourceDataLen o) else [] in
        (CKR_OK, put_session st h (setOaepParams s (oaep_md_name (hashAlg o)) lbl))
      | _ => (CKR_OK, put_session st h (setOaepParams s (bytes_of "SHA-256") []))
      end
    else (CKR_OK, st)
  end.

Definition encdec_mech (m : Z) : bool :=
  one_of m [CKM_RSA_PKCS; CKM_RSA_X_509; CKM_RSA_PKCS_OAEP; CKM_AES_GCM].

Definition encdec_init (st : P11) (h : Z) (m : option CK_MECHANISM) (hKey : Z) : CK_RV * P11 :=
  match m with
  | None => (CKR_ARGUMENTS_BAD, st)
  | Some m =>
    if negb (encdec_mech (mechanism m)) then (CKR_MECHANISM_INVALID, st)
    else let (rv, st) := op_begin st h (Some m) hKey true in
         if negb (rv =? CKR_OK) then (rv, st) else set_params st h m
  end.

Definition C_EncryptInit := encdec_init.
Definition C_DecryptInit := encdec_init.

(** Output, event and end of an operation whose result is [r]. *)
Definition conclude (env : Env) (st : P11) (h : Z) (op_name : string) (type : EventType.EventType)
    (inp : list byte) (r : CK_RV * list byte) (pOut_null : bool) (pOutLen : option Z)
    : CK_RV * Output * P11 :=
  let (rv, out) := r in
  if rv =? CKR_OK then
    let (rv, w) := finish_output out pOut_null pOutLen in
    let st := if rv =? CKR_OK then publish_crypto_op_event env st h op_name type inp else st in
    (rv, w, op_end st h)
  else (rv, no_output, op_end st h).

Definition C_Encrypt (env : Env) (st : P11) (h : Z) (pData : option (list byte)) (ulDataLen : Z)
    (pOut_null : bool) (pOutLen : option Z) : CK_RV * Output * P11 :=
  if negb (op_check st h =? CKR_OK) then (CKR_OPERATION_NOT_INITIALIZED, no_output, st)
  else if bool_decide (pData = None) && (0 <? ulDataLen) then (CKR_ARGUMENTS_BAD, no_output, st)
  else
    let inp := input pData ulDataLen in
    conclude env st h "C_Encrypt" EventType.ENCRYPT_COMPLETED inp (do_encrypt env st h inp) pOut_null pOutLen.

(** The body of every [*Update] call; the encrypting ones then set the length of
    their output part to 0. *)
Definition update_call (st : P11) (h : Z) (pPart : option (list byte)) (ulPartLen : Z) : CK_RV * P11 :=
  if negb (op_check st h =? CKR_OK) then (CKR_OPERATION_NOT_INITIALIZED, st)
  else if bool_decide (pPart = None) && (0 <? ulPartLen) then (CKR_ARGUMENTS_BAD, st)
  else (CKR_OK, op_update st h pPart ulPartLen).

Definition C_EncryptUpdate (st : P11) (h : Z) (pPart : option (list byte)) (ulPartLen : Z)
    (pulEncryptedPartLen : option Z) : CK_RV * Output * P11 :=
  let (rv, st) := update_call st h pPart ulPartLen in
  (rv, mkOut (if rv =? CKR_OK then (fun _ => 0) <$> pulEncryptedPartLen else None) [], st).

Definition C_EncryptFinal (env : Env) (st : P11) (h : Z) (pOut_null : bool) (pOutLen : option Z)
    : CK_RV * Output * P11 :=
  if negb (op_check st h =? CKR_OK) then (CKR_OPERATION_NOT_INITIALIZED, no_output, st)
  else match p11_get_session st h with
  | None => (CKR_SESSION_HANDLE_INVALID, no_output, st)
  | Some s =>
    let (inp, st) := take_and_keep st h s in
    conclude env st h "C_EncryptFinal" EventType.ENCRYPT_COMPLETED inp (do_encrypt env st h inp) pOut_null pOutLen
  end.

Definition C_Decrypt (env : Env) (st : P11) (h : Z) (pEncryptedData : option (list byte))
    (ulEncryptedDataLen : Z) (pOut_null : bool) (pOutLen : option Z) : CK_RV * Output * P11 :=
  if negb (op_check st h =? CKR_OK) then (CKR_OPERATION_NOT_INITIALIZED, no_output, st)
  else if bool_decide (pEncryptedData = None) && (0 <? ulEncryptedDataLen)
  then (CKR_ARGUMENTS_BAD, no_output, st)
  else
    let inp := input pEncryptedData ulEncryptedDataLen in
    conclude env st h "C_Decrypt" EventType.DECRYPT_COMPLETED inp (do_decrypt env st h inp) pOut_null pOutLen.

Definition C_DecryptUpdate := C_EncryptUpdate.

Definition C_DecryptFinal (env : Env) (st : P11) (h : Z) (pOut_null : bool) (pOutLen : option Z)
    : CK_RV * Output * P11 :=
  if negb (op_check st h =? CKR_OK) then (CKR_OPERATION_NOT_INITIALIZED, no_output, st)
  else match p11_get_session st h with
  | None => (CKR_SESSION_HANDLE_INVALID, no_output, st)
  | Some s =>
    let (inp, st) := take_and_keep st h s in
    conclude env st h "C_DecryptFinal" EventType.DECRYPT_COMPLETED inp (do_decrypt env st h inp) pOut_null pOutLen
  end.

(** ** Digests *)

Definition C_DigestInit (st : P11) (h : Z) (m : option CK_MECHANISM) : CK_RV * P11 :=
  match m with
  | None => (CKR_ARGUMENTS_BAD, st)
  | Some m' => if negb (is_digest_mech (mechanism m')) then (CKR_MECHANISM_INVALID, st)
               else op_begin st h m CK_INVALID_HANDLE false
  end.

Definition C_Digest (st : P11) (h : Z) (pData : option (list byte)) (ulDataLen : Z)
    (pOut_null : bool) (pOutLen : option Z) : CK_RV * Output * P11 :=
  if negb (op_check st h =? CKR_OK) then (CKR_OPERATION_NOT_INITIALIZED, no_output, st)
  else if bool_decide (pData = None) && (0 <? ulDataLen) then (CKR_ARGUMENTS_BAD, no_output, st)
  else match p11_get_session st h with
  | None => (CKR_SESSION_HANDLE_INVALID, no_output, st)
  | Some s =>
    let out := p11_hash (mech_to_hash (activeMech_ (op_ s))) (input pData ulDataLen) in
    let (rv, w) := finish_output out pOut_null pOutLen in
    (rv, w, op_end st h)
  end.

Definition C_DigestUpdate := update_call.

Definition C_DigestKey (st : P11) (h hKey : Z) : CK_RV * P11 :=
  if negb (op_check st h =? CKR_OK) then (CKR_OPERATION_NOT_INITIALIZED, st)
  else
    let key := load_secret_key st h hKey in
    if bool_decide (key = []) then (CKR_KEY_INDIGESTIBLE, st)
    else (CKR_OK, op_update st h (Some key) (len key)).

Definition C_DigestFinal (st : P11) (h : Z) (pOut_null : bool) (pOutLen : option Z)
    : CK_RV * Output * P11 :=
  if negb (op_check st h =? CKR_OK) then (CKR_OPERATION_NOT_INITIALIZED, no_output, st)
  else match p11_get_session st h with
  | None => (CKR_SESSION_HANDLE_INVALID, no_output, st)
  | Some s =>
    let (buf, s) := opTakeBuffer s in
    let st := put_session st h s in
    let out := p11_hash (mech_to_hash (activeMech_ (op_ s))) buf in
    let (rv, w) := finish_output out pOut_null pOutLen in
    (rv, w, op_end st h)
  end.

(** ** Sign and verify calls *)

Definition sig_init (st : P11) (h : Z) (m : option CK_MECHANISM) (hKey : Z) : CK_RV * P11 :=
  match m with
  | None => (CKR_ARGUMENTS_BAD, st)
  | Some m' =>
    if negb (is_rsa_mech (mechanism m')) && negb (is_ec_mech (mechanism m')) then (CKR_MECHANISM_INVALID, st)
    else op_begin st h m hKey true
  end.

Definition C_SignInit := sig_init.
Definition C_VerifyInit := sig_init.

(** What follows [do_sign] in [C_Sign] and [C_SignFinal]. *)
Definition conclude_sign (env : Env) (st : P11) (h : Z) (data : list byte) (pOut_null : bool)
    (pOutLen : option Z) : CK_RV * Output * P11 :=
  let (rv, sig) := do_sign env st h data in
  if rv =? CKR_OK then
    let (rv, w) := finish_output sig pOut_null pOutLen in
    let (rv, st) := if rv =? CKR_OK then dispatch_sign_result env st h (op_mech st h) data sig
                    else (rv, st) in
    (rv, w, op_end st h)
  else (rv, no_output, op_end st h).

Definition C_Sign (env : Env) (st : P11) (h : Z) (pData : option (list byte)) (ulDataLen : Z)
    (pOut_null : bool) (pOutLen : option Z) : CK_RV * Output * P11 :=
  if negb (op_check st h =? CKR_OK) then (CKR_OPERATION_NOT_INITIALIZED, no_output, st)
  else if bool_decide (pData = None) && (0 <? ulDataLen) then (CKR_ARGUMENTS_BAD, no_output, st)
  else conclude_sign env st h (input pData ulDataLen) pOut_null pOutLen.

Definition C_SignUpdate := update_call.

Definition C_SignFinal (env : Env) (st : P11) (h : Z) (pOut_null : bool) (pOutLen : option Z)
    : CK_RV * Output * P11 :=
  if negb (op_check st h =? CKR_OK) then (CKR_OPERATION_NOT_INITIALIZED, no_output, st)
  else match p11_get_session st h with
  | None => (CKR_SESSION_HANDLE_INVALID, no_output, st)
  | Some s =>
    let (data, st) := take_and_keep st h s in
    conclude_sign env st h data pOut_null pOutLen
  end.

Definition conclude_verify (env : Env) (st : P11) (h : Z) (data sig : list byte) : CK_RV * P11 :=
  let rv := do_verify env st h data sig in
  let st := if (rv =? CKR_OK) || (rv =? CKR_SIGNATURE_INVALID)
            then publish_verify_event env st h rv data else st in
  (rv, op_end st h).

Definition C_Verify (env : Env) (st : P11) (h : Z) (pData : option (list byte)) (ulDataLen : Z)
    (pSignature : option (list byte)) (ulSignatureLen : Z) : CK_RV * P11 :=
  if negb (op_check st h =? CKR_OK) then (CKR_OPERATION_NOT_INITIALIZED, st)
  else if bool_decide (pData = None) && (0 <? ulDataLen) then (CKR_ARGUMENTS_BAD, st)
  else if bool_decide (pSignature = None) && (0 <? ulSignatureLen) then (CKR_ARGUMENTS_BAD, st)
  else conclude_verify env st h (input pData ulDataLen) (input pSignature ulSignatureLen).

Definition C_VerifyUpdate := update_call.

Definition C_VerifyFinal (env : Env) (st : P11) (h : Z) (pSignature : option (list byte))
    (ulSignatureLen : Z) : CK_RV * P11 :=
  if negb (op_check st h =? CKR_OK) then (CKR_OPERATION_NOT_INITIALIZED, st)
  else if bool_decide (pSignature = None) && (0 <? ulSignatureLen) then (CKR_ARGUMENTS_BAD, st)
  else match p11_get_session st h with
  | None => (CKR_SESSION_HANDLE_INVALID, st)
  | Some s =>
    let (data, st) := take_and_keep st h s in
    conclude_verify env st h data (input pSignature ulSignatureLen)
  end.

(** The combined and recovering calls. *)
Definition C_DigestEncryptUpdate : CK_RV := CKR_FUNCTION_NOT_SUPPORTED.
Definition C_DecryptDigestUpdate : CK_RV := CKR_FUNCTION_NOT_SUPPORTED.
Definition C_SignEncryptUpdate : CK_RV := CKR_FUNCTION_NOT_SUPPORTED.
Definition C_DecryptVerifyUpdate : CK_RV := CKR_FUNCTION_NOT_SUPPORTED.
Definition C_SignRecoverInit : CK_RV := CKR_FUNCTION_NOT_SUPPORTED.
Definition C_SignRecover : CK_RV := CKR_FUNCTION_NOT_SUPPORTED.
Definition C_VerifyRecoverInit : CK_RV := CKR_FUNCTION_NOT_SUPPORTED.
Definition C_VerifyRecover : CK_RV := CKR_FUNCTION_NOT_SUPPORTED.

(** ** Frame lemmas

    The cryptographic core looks at a session through [same_view]: everything
    but the bytes collected so far. *)

Definition same_view (s s' : Session) : Prop :=
  exists b, s' = with_buf s b.

(** [st'] is [st] but for the buffer of session [h]. *)
Record buffered (st st' : P11) (h : Z) (s s' : Session) : Prop := {
  bf_before : p11_get_session st h = Some s;
  bf_after : p11_get_session st' h = Some s';
  bf_view : same_view s s';
  bf_slots : g_slotManager st' = g_slotManager st
}.

Section Buffered.
Context {st st' : P11} {h : Z} {s s' : Session} (B : buffered st st' h s s').

Lemma bf_object k : p11_get_object st' h k = p11_get_object st h k.
Proof.
  destruct B as [H1 H2 [b ->] _]. unfold p11_get_object. by rewrite H1, H2.
Qed.

Lemma bf_secret k : load_secret_key st' h k = load_secret_key st h k.
Proof. unfold load_secret_key. by rewrite bf_object. Qed.

Lemma bf_asym env k : load_asym_key env st' h k = load_asym_key env st h k.
Proof. unfold load_asym_key. by rewrite bf_object. Qed.

Lemma bf_fields :
  activeMech_ (op_ s') = activeMech_ (op_ s) /\ signKey_ (op_ s') = signKey_ (op_ s) /\
  gcmIv_ (op_ s') = gcmIv_ (op_ s) /\ gcmAad_ (op_ s') = gcmAad_ (op_ s) /\
  oaepMgf1_ (op_ s') = oaepMgf1_ (op_ s) /\ oaepLabel_ (op_ s') = oaepLabel_ (op_ s) /\
  userType_ s' = userType_ s /\ slotID_ s' = slotID_ s.
Proof. destruct B as [_ _ [b ->] _]. repeat split. Qed.

Ltac bf_rewrite :=
  destruct bf_fields as (E1 & E2 & E3 & E4 & E5 & E6 & E7 & E8);
  pose proof (bf_before _ _ _ _ _ B) as G1; pose proof (bf_after _ _ _ _ _ B) as G2.

Lemma bf_encrypt env d : do_encrypt env st' h d = do_encrypt env st h d.
Proof.
  bf_rewrite. unfold do_encrypt. rewrite G1, G2. cbv zeta.
  by rewrite E1, E2, E3, E4, E5, E6, bf_object, bf_secret, bf_asym.
Qed.

Lemma bf_decrypt env d : do_decrypt env st' h d = do_decrypt env st h d.
Proof.
  bf_rewrite. unfold do_decrypt. rewrite G1, G2. cbv zeta.
  by rewrite E1, E2, E3, E4, E5, E6, bf_object, bf_secret, bf_asym.
Qed.

Lemma bf_policy env o m : policy_gate env s' o m = policy_gate env s o m.
Proof. bf_rewrite. unfold policy_gate, user_label. by rewrite E7. Qed.

Lemma bf_sign env d : do_sign env st' h d = do_sign env st h d.
Proof.
  bf_rewrite. unfold do_sign. rewrite G1, G2. cbv zeta.
  rewrite E1, E2, bf_object, bf_asym. destruct (p11_get_object st h _); [by rewrite bf_policy|done].
Qed.

Lemma bf_verify env d sg : do_verify env st' h d sg = do_verify env st h d sg.
Proof.
  bf_rewrite. unfold do_verify. rewrite G1, G2. cbv zeta. by rewrite E1, E2, bf_object, bf_asym.
Qed.

Lemma bf_event_parts env :
  event_source st' h = event_source st h /\ op_key st' h = op_key st h /\ op_mech st' h = op_mech st h /\
  event_actor st' h = event_actor st h /\ event_key_id env st' h = event_key_id env st h /\
  event_key_fp env st' h = event_key_fp env st h /\
  p11_get_token_for_session st' h = p11_get_token_for_session st h.
Proof.
  bf_rewrite. assert (Hk : op_key st' h = op_key st h) by (unfold op_key; by rewrite G1, G2).
  assert (Ht : p11_get_token_for_session st' h = p11_get_token_for_session st h).
  { unfold p11_get_token_for_session, p11_get_token, p11_get_slot.
    rewrite G1, G2, E8. by rewrite (bf_slots _ _ _ _ _ B). }
  split_and!; [|done| | | | |done].
  - unfold event_source. by rewrite Ht, G1, G2, E8.
  - unfold op_mech. by rewrite G1, G2.
  - unfold event_actor, user_label. by rewrite G1, G2, E7.
  - unfold event_key_id. by rewrite Hk, bf_object.
  - unfold event_key_fp. by rewrite Hk, bf_asym.
Qed.

End Buffered.

(** What a call appends to the events, independently of the state it is
    appended to. *)
Definition add_events (st : P11) (l : list Event) : P11 :=
  mkP11 (g_initialized st) (g_slotManager st) (g_sessionManager st) (login_throttle st) (events_ st ++ l).

Lemma add_events_nil st : add_events st [] = st.
Proof. destruct st. unfold add_events. cbn. by rewrite app_nil_r. Qed.

Lemma publish_add st e : publish st e = add_events st [e].
Proof. done. Qed.

Lemma get_session_add st l h : p11_get_session (add_events st l) h = p11_get_session st h.
Proof. done. Qed.

Lemma put_session_add st l h s : put_session (add_events st l) h s = add_events (put_session st h s) l.
Proof. done. Qed.

(** Writing the session twice. *)
Lemma put_put st h s1 s2 : handle_ s1 = h -> put_session (put_session st h s1) h s2 = put_session st h s2.
Proof.
  intros H. unfold put_session, with_sessions, SessMgr.update_session.
  cbn [g_sessionManager g_initialized g_slotManager login_throttle events_ SessMgr.v_sessions_
    SessMgr.v_next_session_id_ SessMgr.v_last_op_at_].
  do 2 f_equal. rewrite map_map. apply map_ext. intros x.
  destruct (handle_ x =? h) eqn:E; [by rewrite H, Z.eqb_refl|by rewrite E].
Qed.

Lemma put_same st h s : wf_p11 st -> p11_get_session st h = Some s -> put_session st h s = st.
Proof.
  intros (Hnd & _) Hg. destruct st as [i sl m th ev]. destruct m as [l nx la].
  unfold p11_get_session, SessMgr.v_get_session, SessMgr.handles in *.
  unfold put_session, with_sessions, SessMgr.update_session.
  cbn [g_sessionManager g_initialized g_slotManager login_throttle events_ SessMgr.v_sessions_
    SessMgr.v_next_session_id_ SessMgr.v_last_op_at_] in *.
  do 2 f_equal. induction l as [|x l IH]; [done|]. cbn [map List.find] in *.
  apply list.NoDup_cons in Hnd as [Hx Hnd]. destruct (handle_ x =? h) eqn:E.
  - injection Hg as ->. f_equal. rewrite <- (map_id l) at 2. apply map_ext_in. intros y Hy.
    destruct (handle_ y =? h) eqn:E'; [|done]. exfalso. apply Hx. bool_to_prop. rewrite E, <- E'.
    apply list_elem_of_In, in_map, Hy.
  - f_equal. by apply IH.
Qed.

Lemma buffered_put st h s b :
  wf_p11 st -> p11_get_session st h = Some s ->
  buffered st (put_session st h (with_buf s b)) h s (with_buf s b).
Proof.
  intros Hwf Hg. destruct (put_back st h s (with_buf s b) h Hwf Hg eq_refl) as [_ H].
  rewrite Z.eqb_refl in H. split; [done|done|by exists b|done].
Qed.

Lemma bf_dispatch {st st' h s s'} (B : buffered st st' h s s') env m d sg :
  exists rv evs, dispatch_sign_result env st h m d sg = (rv, add_events st evs) /\
                 dispatch_sign_result env st' h m d sg = (rv, add_events st' evs).
Proof.
  unfold dispatch_sign_result. destruct (bf_event_parts B env) as (_ & -> & _ & _ & -> & _ & ->).
  rewrite (bf_asym B). destruct (bf_fields B) as (_ & _ & _ & _ & _ & _ & E7 & E8).
  rewrite (bf_before _ _ _ _ _ B), (bf_after _ _ _ _ _ B). cbv beta iota.
  destruct (dispatcher env) as [dsp|]; [|exists CKR_OK, []; by rewrite !add_events_nil].
  destruct (load_asym_key env st h _) as [pk|]; [|exists CKR_OK, []; by rewrite !add_events_nil].
  unfold user_label. rewrite E7, E8. eexists _, _. split; apply (f_equal2 pair); reflexivity.
Qed.

(** The events a call leaves that ended with [rv]. *)
Definition op_events (env : Env) (st : P11) (h : Z) (t : EventType.EventType) (d : list byte) (rv : CK_RV) (name : string) : list Event :=
  if (rv =? CKR_OK) && bus_and_audit_log env then [crypto_op_event env st h name t d] else [].

Lemma bf_publish_op {st st' h s s'} (B : buffered st st' h s s') env n t d :
  publish_crypto_op_event env st h n t d = add_events st (op_events env st h t d CKR_OK n) /\
  publish_crypto_op_event env st' h n t d = add_events st' (op_events env st h t d CKR_OK n).
Proof.
  unfold publish_crypto_op_event, op_events. destruct (bus_and_audit_log env); cbn [negb andb Z.eqb CKR_OK].
  - assert (E : crypto_op_event env st' h n t d = crypto_op_event env st h n t d).
    { unfold crypto_op_event. by destruct (bf_event_parts B env) as (-> & _ & -> & -> & -> & -> & _). }
    rewrite E. split; apply publish_add.
  - by rewrite !add_events_nil.
Qed.

Lemma bf_publish_verify {st st' h s s'} (B : buffered st st' h s s') env rv d :
  exists evs, publish_verify_event env st h rv d = add_events st evs /\
              publish_verify_event env st' h rv d = add_events st' evs.
Proof.
  unfold publish_verify_event. destruct (bf_event_parts B env) as (-> & _ & -> & -> & -> & -> & _).
  destruct (bus_and_audit_log env); cbn [negb].
  - eexists. split; reflexivity.
  - exists []. by rewrite !add_events_nil.
Qed.

(** Ending the operation forgets the buffer. *)
Lemma op_end_buffered st h s b evs :
  wf_p11 st -> p11_get_session st h = Some s ->
  op_end (add_events (put_session st h (with_buf s b)) evs) h = op_end (add_events st evs) h.
Proof.
  intros Hwf Hg. unfold op_end. rewrite !get_session_add, Hg.
  rewrite (bf_after _ _ _ _ _ (buffered_put st h s b Hwf Hg)).
  rewrite !put_session_add, put_put by exact (get_session_handle _ _ _ Hg). done.
Qed.

Lemma take_and_keep_id st h s b :
  wf_p11 st -> p11_get_session st h = Some s ->
  take_and_keep (put_session st h (with_buf s b)) h (with_buf s b) = (b, put_session st h (with_buf s b)).
Proof.
  intros Hwf Hg. unfold take_and_keep, opTakeBuffer. cbn [opBuf_ op_ with_buf with_op].
  rewrite put_put by exact (get_session_handle _ _ _ Hg). do 2 f_equal. unfold opUpdate, len.
  destruct b as [|x b]; [done|]. cbn [length Z.of_nat Z.eqb].
  rewrite take_ge by (cbn; lia). reflexivity.
Qed.

(** ** Updates in parts *)

Fixpoint updates (st : P11) (h : Z) (parts : list (list byte)) : list CK_RV * P11 :=
  match parts with
  | [] => ([], st)
  | p :: parts =>
    let (rv, st) := update_call st h (Some p) (len p) in
    let (rvs, st) := updates st h parts in (rv :: rvs, st)
  end.

Lemma opUpdate_with_buf s b p : opUpdate (with_buf s b) (Some p) (len p) = with_buf s (b ++ p).
Proof.
  unfold opUpdate, len. destruct p as [|x p]; [by rewrite (app_nil_r b)|]. cbn [length Z.of_nat Z.eqb].
  rewrite take_ge by (cbn; lia). reflexivity.
Qed.

Lemma updates_buffer st h s parts b :
  wf_p11 st -> p11_get_session st h = Some s -> opCheck s = CKR_OK ->
  updates (put_session st h (with_buf s b)) h parts
  = (map (fun _ => CKR_OK) parts, put_session st h (with_buf s (b ++ List.concat parts))).
Proof.
  intros Hwf Hg Hop. revert b. induction parts as [|p parts IH]; intros b; cbn [updates List.concat map].
  - by rewrite app_nil_r.
  - unfold update_call, op_check, op_update. rewrite (bf_after _ _ _ _ _ (buffered_put st h s b Hwf Hg)).
    change (opCheck (with_buf s b)) with (opCheck s). rewrite Hop. cbn [Z.eqb negb CKR_OK].
    rewrite bool_decide_false by done. cbn [andb]. rewrite opUpdate_with_buf.
    rewrite put_put by exact (get_session_handle _ _ _ Hg). rewrite IH. by rewrite app_assoc.
Qed.

Lemma input_all d : input (Some d) (len d) = d.
Proof. unfold input. cbn. apply take_ge. unfold len. lia. Qed.

Lemma with_own_buf s : with_buf s (opBuf_ (op_ s)) = s.
Proof. destruct s as [? ? ? ? ? ? ? ? [] ?]. reflexivity. Qed.

Section Parts.
Context (env : Env) (st : P11) (h : Z) (s : Session) (data : list byte).
Context (Hwf : wf_p11 st) (Hg : p11_get_session st h = Some s) (Hop : opCheck s = CKR_OK).

Let st1 := put_session st h (with_buf s data).
Let B : buffered st st1 h s (with_buf s data) := buffered_put st h s data Hwf Hg.

Lemma parts_check : op_check st1 h = CKR_OK /\ op_check st h = CKR_OK /\
  p11_get_session st1 h = Some (with_buf s data).
Proof. unfold op_check. rewrite (bf_after _ _ _ _ _ B), Hg. by split_and!. Qed.

Lemma parts_end evs : op_end (add_events st1 evs) h = op_end (add_events st evs) h.
Proof. by apply op_end_buffered. Qed.

Lemma parts_end_nil : op_end st1 h = op_end st h.
Proof. rewrite <- (add_events_nil st1), <- (add_events_nil st) at 1. apply parts_end. Qed.

Lemma parts_take : take_and_keep st1 h (with_buf s data) = (data, st1).
Proof. by apply take_and_keep_id. Qed.

Lemma parts_sign n l : C_SignFinal env st1 h n l = C_Sign env st h (Some data) (len data) n l.
Proof.
  destruct parts_check as (C1 & C2 & C3). unfold C_SignFinal, C_Sign. rewrite C1, C2, C3, input_all.
  rewrite bool_decide_false by done. cbn [negb Z.eqb CKR_OK andb]. rewrite parts_take.
  unfold conclude_sign. rewrite (bf_sign B). destruct (bf_event_parts B env) as (_ & _ & -> & _).
  destruct (do_sign env st h data) as [rv sig].
  destruct (bf_dispatch B env (op_mech st h) data sig) as (rv' & evs & -> & ->).
  destruct (rv =? CKR_OK); [|by rewrite parts_end_nil].
  destruct (finish_output sig n l) as [rv'' w].
  destruct (rv'' =? CKR_OK); [by rewrite parts_end|by rewrite parts_end_nil].
Qed.

Lemma parts_verify sg :
  C_VerifyFinal env st1 h (Some sg) (len sg) = C_Verify env st h (Some data) (len data) (Some sg) (len sg).
Proof.
  destruct parts_check as (C1 & C2 & C3). unfold C_VerifyFinal, C_Verify. rewrite C1, C2, C3, !input_all.
  rewrite !bool_decide_false by done. cbn [negb Z.eqb CKR_OK andb]. rewrite parts_take.
  unfold conclude_verify. rewrite (bf_verify B).
  destruct (bf_publish_verify B env (do_verify env st h data sg) data) as (evs & -> & ->).
  destruct (_ || _); [by rewrite parts_end|by rewrite parts_end_nil].
Qed.

Lemma parts_digest n l : C_DigestFinal st1 h n l = C_Digest st h (Some data) (len data) n l.
Proof.
  destruct parts_check as (C1 & C2 & C3). unfold C_DigestFinal, C_Digest. rewrite C1, C2, C3, Hg, input_all.
  rewrite bool_decide_false by done. cbn [negb Z.eqb CKR_OK andb opTakeBuffer op_ with_buf with_op opBuf_ activeMech_].
  destruct (finish_output _ n l) as [rv w]. f_equal.
  unfold st1. rewrite put_put by exact (get_session_handle _ _ _ Hg).
  change (with_buf (with_buf s data) []) with (with_buf s []).
  rewrite <- (add_events_nil (put_session _ _ _)), op_end_buffered by done. by rewrite add_events_nil.
Qed.

(** Encryption and decryption: the calls [n1] and [n2] return the same and leave the same
    state, with one more event when they succeeded, which names the call. *)
Definition same_but_name (n1 n2 : string) (t : EventType.EventType) (a b : CK_RV * Output * P11) : Prop :=
  fst a = fst b /\
  snd a = add_events (op_end st h) (op_events env st h t data (fst (fst a)) n1) /\
  snd b = add_events (op_end st h) (op_events env st h t data (fst (fst b)) n2).

Lemma op_end_add evs : op_end (add_events st evs) h = add_events (op_end st h) evs.
Proof. unfold op_end. by rewrite get_session_add, Hg, put_session_add. Qed.

Lemma parts_conclude n1 n2 t r n l :
  same_but_name n1 n2 t (conclude env st1 h n1 t data r n l) (conclude env st h n2 t data r n l).
Proof.
  assert (Hno : forall rv name, rv <> CKR_OK -> op_events env st h t data rv name = []).
  { intros rv name Hrv. unfold op_events. by rewrite (proj2 (Z.eqb_neq _ _) Hrv). }
  unfold conclude, same_but_name. destruct r as [rv out].
  destruct (bf_publish_op B env n1 t data) as [_ ->]. destruct (bf_publish_op B env n2 t data) as [-> _].
  destruct (Z.eqb_spec rv CKR_OK) as [->|Hrv]; cbn [fst snd].
  2:{ rewrite parts_end_nil, !Hno, !add_events_nil by done. done. }
  destruct (finish_output out n l) as [rv' w]. cbn [fst snd].
  destruct (Z.eqb_spec rv' CKR_OK) as [->|Hrv']; [by rewrite parts_end, !op_end_add|].
  rewrite parts_end_nil, !Hno, !add_events_nil by done. done.
Qed.

Lemma parts_encrypt n l :
  same_but_name "C_EncryptFinal" "C_Encrypt" EventType.ENCRYPT_COMPLETED
    (C_EncryptFinal env st1 h n l) (C_Encrypt env st h (Some data) (len data) n l).
Proof.
  destruct parts_check as (C1 & C2 & C3). unfold C_EncryptFinal, C_Encrypt. rewrite C1, C2, C3, input_all.
  rewrite bool_decide_false by done. cbn [negb Z.eqb CKR_OK andb]. rewrite parts_take, (bf_encrypt B).
  apply parts_conclude.
Qed.

Lemma parts_decrypt n l :
  same_but_name "C_DecryptFinal" "C_Decrypt" EventType.DECRYPT_COMPLETED
    (C_DecryptFinal env st1 h n l) (C_Decrypt env st h (Some data) (len data) n l).
Proof.
  destruct parts_check as (C1 & C2 & C3). unfold C_DecryptFinal, C_Decrypt. rewrite C1, C2, C3, input_all.
  rewrite bool_decide_false by done. cbn [negb Z.eqb CKR_OK andb]. rewrite parts_take, (bf_decrypt B).
  apply parts_conclude.
Qed.

End Parts.


(** ** Who may sign *)

Definition attestations (o : HsmObject) : Z :=
  match findAttribute o CKA_VHSM_ATTESTATION_COUNT with Some att => parse_attr_count att | None => 0 end.

Definition actor_of (s : Session) : list byte := default (bytes_of "UNKNOWN") (user_label s).

(** The conditions under which the key [o] may sign for the session [s]: it is
    active, FIPS mode allows the mechanism, and a policy document on it parses
    and permits the signature, or the ledger does where a quorum is demanded
    and a ledger client is there to ask. *)
Definition may_sign (env : Env) (s : Session) (o : HsmObject) (mech : Z) : Prop :=
  key_can_sign (getKeyState o) = true /\
  (fips_mode (VHSM_FIPS env) = true -> mechanism_approved mech = true) /\
  (forall doc, findAttribute o CKA_VHSM_POLICY = Some doc -> doc <> [] ->
     exists policy, from_json doc = Ok policy /\
       match ledger_verify_policy env with
       | Some verify_policy =>
         if 0 <? min_attestations policy
         then verify_policy (p11_key_id (address env o) o) (actor_of s) (mech_to_str mech) (now_ms env) = true
         else policy_permits policy (actor_of s) (mech_to_str mech) (now_ms env) (to_int (attestations o))
       | None => policy_permits policy (actor_of s) (mech_to_str mech) (now_ms env) (to_int (attestations o))
       end).

Lemma policy_gate_spec env s o mech :
  policy_gate env s o mech = true <->
  forall doc, findAttribute o CKA_VHSM_POLICY = Some doc -> doc <> [] ->
     exists policy, from_json doc = Ok policy /\
       match ledger_verify_policy env with
       | Some verify_policy =>
         if 0 <? min_attestations policy
         then verify_policy (p11_key_id (address env o) o) (actor_of s) (mech_to_str mech) (now_ms env) = true
         else policy_permits policy (actor_of s) (mech_to_str mech) (now_ms env) (to_int (attestations o))
       | None => policy_permits policy (actor_of s) (mech_to_str mech) (now_ms env) (to_int (attestations o))
       end.
Proof.
  unfold policy_gate. destruct (findAttribute o CKA_VHSM_POLICY) as [doc|]; [|split; [congruence|done]].
  case_bool_decide as Hd; [split; [congruence|done]|].
  fold (attestations o) (actor_of s). destruct (from_json doc) as [p|e] eqn:Ej.
  - split.
    + intros H doc' [= <-] _. exists p. split; [exact Ej|]. revert H.
      destruct (ledger_verify_policy env); [destruct (_ <? _); [exact id|]|]; apply policy_evaluate_iff.
    + intros H. destruct (H doc eq_refl Hd) as (p' & Hp' & H').
      rewrite Ej in Hp'. injection Hp' as <-. revert H'.
      destruct (ledger_verify_policy env); [destruct (_ <? _); [exact id|]|]; apply policy_evaluate_iff.
  - split; [discriminate|]. intros H. destruct (H doc eq_refl Hd) as (? & ? & _). congruence.
Qed.

(** A signature comes out of [do_sign] only when all gates are open. *)
Lemma do_sign_gates env st h data sig :
  do_sign env st h data = (CKR_OK, sig) ->
  exists s o, p11_get_session st h = Some s /\ p11_get_object st h (signKey_ (op_ s)) = Some o /\
    may_sign env s o (activeMech_ (op_ s)).
Proof.
  unfold do_sign. intros H. destruct (p11_get_session st h) as [s|] eqn:Hg; [|discriminate].
  cbv zeta in H. destruct (_ && _) eqn:Ef; [discriminate|].
  destruct (p11_get_object st h _) as [o|] eqn:Ho; [|discriminate].
  destruct (negb (_ =? _)) eqn:Es; [bool_to_prop; split_ifs_in H; congruence|].
  destruct (negb (policy_gate _ _ _ _)) eqn:Ep; [discriminate|].
  exists s, o. split_and!; [done|done|]. apply negb_false_iff in Es, Ep. split_and!.
  - by apply key_state_gate, Z.eqb_eq.
  - intros Hf. rewrite Hf in Ef. apply andb_false_iff in Ef as [|?%negb_false_iff]; done.
  - by apply policy_gate_spec.
Qed.

(** What a signing call gave away: output bytes, success, or a record of a new
    signature. *)
Definition signed (st : P11) (r : CK_RV * Output * P11) : Prop :=
  let '(rv, w, st') := r in rv = CKR_OK \/ written w <> [] \/ events_ st' <> events_ st.

Lemma conclude_sign_gates env st h data n l :
  signed st (conclude_sign env st h data n l) -> exists sig, do_sign env st h data = (CKR_OK, sig).
Proof.
  unfold conclude_sign. destruct (do_sign env st h data) as [rv sig].
  destruct (Z.eqb_spec rv CKR_OK) as [->|Hn]; [eauto|]. intros [H|[H|H]]; [done|done|].
  exfalso. apply H. unfold op_end. by destruct (p11_get_session st h).
Qed.

Definition authorized (env : Env) (st : P11) (h : Z) : Prop :=
  exists s o, p11_get_session st h = Some s /\ p11_get_object st h (signKey_ (op_ s)) = Some o /\
    may_sign env s o (activeMech_ (op_ s)).

(** A final call finds the buffer and leaves it in place. *)
Lemma take_and_keep_own st h s :
  wf_p11 st -> p11_get_session st h = Some s -> take_and_keep st h s = (opBuf_ (op_ s), st).
Proof.
  intros Hwf Hg. pose proof (take_and_keep_id st h s (opBuf_ (op_ s)) Hwf Hg) as H.
  by rewrite with_own_buf, put_same in H.
Qed.

(** C10: No signature leaves the module without authority: if [C_Sign] or
    [C_SignFinal] succeeds, writes a signature or records one, then the key is
    in the session's store and active, FIPS mode allows the mechanism, and the
    policy on the key (or the ledger, for a quorum) permits the user of the
    session to sign now with it. *)
Theorem sign_requires_authority (env : Env) (st : P11) (h : Z) (Hwf : wf_p11 st) :
  (forall pData n pOut_null pOutLen,
     signed st (C_Sign env st h pData n pOut_null pOutLen) -> authorized env st h) /\
  (forall pOut_null pOutLen,
     signed st (C_SignFinal env st h pOut_null pOutLen) -> authorized env st h).
Proof.
  assert (Hnone : forall rv, rv <> CKR_OK -> ~ signed st (rv, no_output, st)).
  { intros rv Hrv [H|[H|H]]; done. }
  split.
  - intros pData n pn pl H. unfold C_Sign in H. split_ifs_in H; try (by apply Hnone in H).
    apply conclude_sign_gates in H as [sig H]. by eapply do_sign_gates.
  - intros pn pl H. unfold C_SignFinal in H. destruct (negb _); [by apply Hnone in H|].
    destruct (p11_get_session st h) as [s|] eqn:Hg; [|by apply Hnone in H].
    rewrite take_and_keep_own in H by done.
    apply conclude_sign_gates in H as [sig H]. by eapply do_sign_gates.
Qed.

(** ** Every final call ends the operation *)

Inductive FinalCall : Type :=
| FEncrypt (data : list byte) | FEncryptFinal | FDecrypt (data : list byte) | FDecryptFinal
| FDigest (data : list byte) | FDigestFinal | FSign (data : list byte) | FSignFinal
| FVerify (data sig : list byte) | FVerifyFinal (sig : list byte).

(** [n], [l]: whether the output pointer is null, and the room given. *)
Definition final_call (env : Env) (st : P11) (h : Z) (c : FinalCall) (n : bool) (l : option Z) : P11 :=
  match c with
  | FEncrypt d => snd (C_Encrypt env st h (Some d) (len d) n l)
  | FEncryptFinal => snd (C_EncryptFinal env st h n l)
  | FDecrypt d => snd (C_Decrypt env st h (Some d) (len d) n l)
  | FDecryptFinal => snd (C_DecryptFinal env st h n l)
  | FDigest d => snd (C_Digest st h (Some d) (len d) n l)
  | FDigestFinal => snd (C_DigestFinal st h n l)
  | FSign d => snd (C_Sign env st h (Some d) (len d) n l)
  | FSignFinal => snd (C_SignFinal env st h n l)
  | FVerify d sg => snd (C_Verify env st h (Some d) (len d) (Some sg) (len sg))
  | FVerifyFinal sg => snd (C_VerifyFinal env st h (Some sg) (len sg))
  end.

Lemma publish_op_events env st h n t d :
  exists evs, publish_crypto_op_event env st h n t d = add_events st evs.
Proof.
  unfold publish_crypto_op_event. destruct (bus_and_audit_log env); cbn [negb]; [by eexists|].
  exists []. by rewrite add_events_nil.
Qed.

Lemma publish_verify_events env st h rv d :
  exists evs, publish_verify_event env st h rv d = add_events st evs.
Proof.
  unfold publish_verify_event. destruct (bus_and_audit_log env); cbn [negb]; [by eexists|].
  exists []. by rewrite add_events_nil.
Qed.

Lemma dispatch_events env st h m d sg :
  exists evs, snd (dispatch_sign_result env st h m d sg) = add_events st evs.
Proof.
  unfold dispatch_sign_result. split_ifs; cbn [snd]; try (exists []; by rewrite add_events_nil); by eexists.
Qed.

Definition ends (st : P11) (h : Z) (st' : P11) : Prop := exists evs, st' = op_end (add_events st evs) h.

Lemma ends_nil st h : ends st h (op_end st h).
Proof. exists []. by rewrite add_events_nil. Qed.

Lemma conclude_ends env st h nm t d r n l : ends st h (snd (conclude env st h nm t d r n l)).
Proof.
  unfold conclude. destruct r as [rv out], (rv =? CKR_OK); [|apply ends_nil].
  destruct (finish_output out n l) as [rv' w], (rv' =? CKR_OK); [|apply ends_nil].
  destruct (publish_op_events env st h nm t d) as [evs ->]. by exists evs.
Qed.

Lemma conclude_sign_ends env st h d n l : ends st h (snd (conclude_sign env st h d n l)).
Proof.
  unfold conclude_sign. destruct (do_sign env st h d) as [rv sig], (rv =? CKR_OK); [|apply ends_nil].
  destruct (finish_output sig n l) as [rv' w], (rv' =? CKR_OK); [|apply ends_nil].
  destruct (dispatch_events env st h (op_mech st h) d sig) as [evs E].
  destruct (dispatch_sign_result _ _ _ _ _ _) as [rv'' st']. cbn [snd] in *. subst. by exists evs.
Qed.

Lemma conclude_verify_ends env st h d sg : ends st h (snd (conclude_verify env st h d sg)).
Proof.
  unfold conclude_verify. cbn [snd]. destruct (_ || _); [|apply ends_nil].
  destruct (publish_verify_events env st h (do_verify env st h d sg) d) as [evs ->]. by exists evs.
Qed.

Lemma final_call_ends env st h s c n l :
  wf_p11 st -> p11_get_session st h = Some s -> opCheck s = CKR_OK ->
  ends st h (final_call env st h c n l).
Proof.
  intros Hwf Hg Hop. assert (Hc : op_check st h = CKR_OK) by (unfold op_check; by rewrite Hg).
  pose proof (take_and_keep_own st h s Hwf Hg) as Ht.
  destruct c; cbn [final_call];
    unfold C_Encrypt, C_EncryptFinal, C_Decrypt, C_DecryptFinal, C_Digest, C_DigestFinal, C_Sign, C_SignFinal,
      C_Verify, C_VerifyFinal;
    rewrite Hc, ?Hg; cbn [negb Z.eqb CKR_OK]; rewrite ?bool_decide_false, ?Ht by done; cbn [andb];
    try apply conclude_ends; try apply conclude_sign_ends; try apply conclude_verify_ends.
  - destruct (finish_output _ n l) as [rv w]. apply ends_nil.
  - unfold opTakeBuffer. destruct (finish_output _ n l) as [rv w]. cbn [snd].
    exists []. rewrite <- (op_end_buffered st h s [] [] Hwf Hg), add_events_nil. done.
Qed.

(** Whatever its outcome, an accepted one-part or final call (encrypt,
    decrypt, digest, sign, verify) ends the operation: mechanism, key, buffer
    and parameters of the session are cleared, the rest of it and every other
    session stay as they were.  This includes the calls that only ask for the
    output size and those that fail for want of room. *)
Theorem final_call_ends_operation (env : Env) (st : P11) (h : Z) (s : Session) (c : FinalCall)
    (n : bool) (l : option Z)
    (Hwf : wf_p11 st) (Hg : p11_get_session st h = Some s) (Hop : opCheck s = CKR_OK) :
  let st' := final_call env st h c n l in
  wf_p11 st' /\ p11_get_session st' h = Some (with_op s no_op) /\
  op_check st' h = CKR_OPERATION_NOT_INITIALIZED /\
  (forall h', h' <> h -> p11_get_session st' h' = p11_get_session st h').
Proof.
  cbv zeta. destruct (final_call_ends env st h s c n l Hwf Hg Hop) as [evs ->].
  unfold op_end. rewrite get_session_add, Hg.
  assert (H : forall h', wf_p11 (put_session (add_events st evs) h (opEnd s)) /\
    p11_get_session (put_session (add_events st evs) h (opEnd s)) h'
    = if h' =? h then Some (opEnd s) else p11_get_session st h') 
    by (intros h'; exact (put_back (add_events st evs) h s (opEnd s) h' Hwf Hg eq_refl)).
  unfold op_check. destruct (H h) as [H1 H2]. rewrite Z.eqb_refl in H2. rewrite H2.
  split_and!; [done|done|done|]. intros h' Hne. destruct (H h') as [_ ->].
  by rewrite (proj2 (Z.eqb_neq _ _) Hne).
Qed.

(** ** Round trips *)

Section RoundTrips.
Context {L : OpenSSLLaws O}.

Lemma key_state_weaken st : p11_key_state_error st true = CKR_OK -> p11_key_state_error st false = CKR_OK.
Proof. unfold p11_key_state_error. by destruct (st =? Revoked). Qed.

(** The two sessions see the same objects and run the same operation. *)
Definition same_op (st st' : P11) (h : Z) : Prop :=
  exists s s', p11_get_session st h = Some s /\ p11_get_session st' h = Some s' /\
    objectStore_ s' = objectStore_ s /\ activeMech_ (op_ s') = activeMech_ (op_ s) /\
    signKey_ (op_ s') = signKey_ (op_ s).

Lemma same_op_object st st' h k : same_op st st' h -> p11_get_object st' h k = p11_get_object st h k.
Proof. intros (s & s' & H1 & H2 & H3 & _). unfold p11_get_object. by rewrite H1, H2, H3. Qed.

Lemma verify_after_sign env env' st st' h data sig :
  same_op st st' h -> shim env' = shim env ->
  do_sign env st h data = (CKR_OK, sig) -> do_verify env' st' h data sig = CKR_OK.
Proof.
  intros Hs He H. pose proof (same_op_object _ _ h (op_key st h) Hs) as Ho.
  destruct Hs as (s & s' & H1 & H2 & H3 & H4 & H5). unfold op_key in Ho. rewrite H1 in Ho.
  unfold do_sign in H. unfold do_verify, load_asym_key in *. rewrite H1 in H. rewrite H2. cbv zeta in *. rewrite H4, H5, He, Ho.
  destruct (_ && _); [discriminate|]. destruct (p11_get_object st h _) as [o|]; [|discriminate].
  destruct (negb (p11_key_state_error (getKeyState o) true =? CKR_OK)) eqn:Es.
  { injection H as E _. rewrite E in Es. discriminate. }
  apply negb_false_iff, Z.eqb_eq, key_state_weaken in Es. rewrite Es. cbn [Z.eqb negb CKR_OK].
  destruct (negb (policy_gate _ _ _ _)); [discriminate|].
  destruct (p11_evp_from_object _ _) as [pk|]; [|discriminate].
  destruct (key_type_inconsistent _ pk); [discriminate|].
  destruct (is_rsa_mech _); [|destruct (is_ec_mech _); [|discriminate]].
  - destruct (resolve_rsa_mech _ _) as [[[[p md] mgf] ts]|]; [|discriminate]. by eapply rsa_verify_sign.
  - by eapply ecdsa_verify_sign.
Qed.

(** The state after an operation has begun. *)
Lemma op_begin_ok st h m k need st' s :
  p11_get_session st h = Some s -> op_begin st h (Some m) k need = (CKR_OK, st') ->
  st' = put_session st h (with_op s (mkOp (mechanism m) k [] (gcmIv_ (op_ s)) (gcmAad_ (op_ s))
          (oaepMgf1_ (op_ s)) (oaepLabel_ (op_ s)))).
Proof.
  unfold op_begin. intros Hg H. rewrite Hg in H. unfold opBegin in H. split_ifs_in H; try discriminate;
  by injection H as <-.
Qed.

(** A session without operation can begin one. *)
Lemma op_begin_free st h m k s :
  g_initialized st = true -> k <> CK_INVALID_HANDLE -> p11_get_session st h = Some s ->
  activeMech_ (op_ s) = 0 -> fst (op_begin st h (Some m) k true) = CKR_OK.
Proof.
  intros Hi Hk Hg Ha. unfold op_begin. rewrite Hi, Hg, (proj2 (Z.eqb_neq _ _) Hk).
  unfold opBegin. rewrite Ha. cbn. rewrite andb_false_r. done.
Qed.

Lemma op_begin_key st h m k st' : op_begin st h (Some m) k true = (CKR_OK, st') ->
  g_initialized st = true /\ k <> CK_INVALID_HANDLE /\ exists s, p11_get_session st h = Some s.
Proof.
  unfold op_begin. intros H. destruct (g_initialized st); [|discriminate]. cbn [negb andb] in H.
  destruct (Z.eqb_spec k CK_INVALID_HANDLE); [discriminate|].
  destruct (p11_get_session st h); [eauto|discriminate].
Qed.

(** After an operation ended, beginning it again restores it. *)
Lemma begin_again st h m k st1 st2 :
  wf_p11 st -> op_begin st h (Some m) k true = (CKR_OK, st1) -> ends st1 h st2 ->
  exists st3, op_begin st2 h (Some m) k true = (CKR_OK, st3) /\ wf_p11 st3 /\
    exists s1 s3, p11_get_session st1 h = Some s1 /\ p11_get_session st3 h = Some s3 /\
      objectStore_ s3 = objectStore_ s1 /\ activeMech_ (op_ s3) = activeMech_ (op_ s1) /\
      signKey_ (op_ s3) = signKey_ (op_ s1) /\ op_ s3 = mkOp (mechanism m) k [] [] [] [] [].
Proof.
  intros Hwf H1 [evs H2]. destruct (op_begin_key _ _ _ _ _ H1) as (Hi & Hk & s & Hg).
  pose proof (op_begin_ok _ _ _ _ _ _ _ Hg H1) as E1.
  set (s1 := with_op s _) in E1. destruct (put_back st h s s1 h Hwf Hg eq_refl) as [Hwf1 Hg1].
  rewrite Z.eqb_refl in Hg1. rewrite <- E1 in Hg1, Hwf1.
  assert (E2 : st2 = put_session (add_events st1 evs) h (opEnd s1))
    by (rewrite H2; unfold op_end; by rewrite get_session_add, Hg1).
  destruct (put_back (add_events st1 evs) h s1 (opEnd s1) h Hwf1 Hg1 eq_refl) as [Hwf2 Hg2].
  rewrite Z.eqb_refl in Hg2. rewrite <- E2 in Hg2, Hwf2.
  assert (Hi2 : g_initialized st2 = true) by (by rewrite E2, E1).
  pose proof (op_begin_free st2 h m k _ Hi2 Hk Hg2 eq_refl) as H3.
  destruct (op_begin st2 h (Some m) k true) as [rv st3] eqn:E3. cbn [fst] in H3. subst rv.
  exists st3. pose proof (op_begin_ok _ _ _ _ _ _ _ Hg2 E3) as E4. set (s3 := with_op (opEnd s1) _) in E4.
  destruct (put_back st2 h (opEnd s1) s3 h Hwf2 Hg2 eq_refl) as [Hwf3 Hg3]. rewrite Z.eqb_refl in Hg3.
  rewrite <- E4 in Hg3, Hwf3. split_and!; [done|done|]. exists s1, s3. by split_and!.
Qed.

(** What a successful call wrote is the output of the operation. *)
Lemma finish_written out room w : finish_output out false (Some room) = (CKR_OK, w) -> written w = out.
Proof. unfold finish_output. destruct (_ <? _); [discriminate|]. by intros [= <-]. Qed.

Lemma conclude_sign_ok env st h data room w st' :
  conclude_sign env st h data false (Some room) = (CKR_OK, w, st') ->
  do_sign env st h data = (CKR_OK, written w) /\ ends st h st'.
Proof.
  intros H. pose proof (conclude_sign_ends env st h data false (Some room)) as He. rewrite H in He.
  split; [|exact He]. unfold conclude_sign in H. destruct (do_sign env st h data) as [rv sig].
  destruct (Z.eqb_spec rv CKR_OK) as [->|Hn]; [|congruence].
  destruct (finish_output sig false (Some room)) as [rv' w'] eqn:Ef.
  destruct (Z.eqb_spec rv' CKR_OK) as [->|Hn]; [|congruence].
  destruct (dispatch_sign_result _ _ _ _ _ _) as [rv'' st'']. injection H as -> -> _.
  by rewrite (finish_written _ _ _ Ef).
Qed.

(** A signature verifies: what [C_SignInit] and [C_Sign] return for some data
    is accepted by [C_VerifyInit] and [C_Verify] with the same mechanism and
    key, right after. *)
Theorem sign_verify_roundtrip (env env' : Env) (st st1 st2 : P11) (h hKey : Z) (m : CK_MECHANISM)
    (data : list byte) (room : Z) (w : Output)
    (Hwf : wf_p11 st) (Hshim : shim env' = shim env)
    (Hinit : C_SignInit st h (Some m) hKey = (CKR_OK, st1))
    (Hsign : C_Sign env st1 h (Some data) (len data) false (Some room) = (CKR_OK, w, st2)) :
  exists st3, C_VerifyInit st2 h (Some m) hKey = (CKR_OK, st3) /\
    fst (C_Verify env' st3 h (Some data) (len data) (Some (written w)) (len (written w))) = CKR_OK.
Proof.
  unfold C_SignInit, C_VerifyInit, sig_init in *. destruct (_ && _) eqn:Em; [discriminate|].
  unfold C_Sign in Hsign. rewrite input_all, bool_decide_false in Hsign by done. cbn [andb] in Hsign.
  destruct (negb (op_check st1 h =? CKR_OK)) eqn:Ec; [discriminate|].
  apply conclude_sign_ok in Hsign as [Hd He].
  destruct (begin_again _ _ _ _ _ _ Hwf Hinit He) as (st3 & E3 & Hwf3 & s1 & s3 & G1 & G3 & Eo & Ea & Ek & _).
  exists st3. split; [done|]. unfold C_Verify, op_check. rewrite G3, !input_all, !bool_decide_false by done.
  unfold opCheck. rewrite Ea. unfold op_check, opCheck in Ec. rewrite G1 in Ec.
  destruct (activeMech_ (op_ s1) =? 0); [discriminate|]. cbn [Z.eqb negb CKR_OK andb].
  unfold conclude_verify. cbn [fst]. apply (verify_after_sign env env' st1); [|done|done].
  by exists s1, s3.
Qed.

Lemma conclude_ok env st h nm t d r room w st' :
  conclude env st h nm t d r false (Some room) = (CKR_OK, w, st') ->
  r = (CKR_OK, written w) /\ ends st h st'.
Proof.
  intros H. pose proof (conclude_ends env st h nm t d r false (Some room)) as He. rewrite H in He.
  split; [|exact He]. unfold conclude in H. destruct r as [rv out].
  destruct (Z.eqb_spec rv CKR_OK) as [->|Hn]; [|congruence].
  destruct (finish_output out false (Some room)) as [rv' w'] eqn:Ef. injection H as -> -> _.
  by rewrite (finish_written _ _ _ Ef).
Qed.

(** The state of a session that began to encrypt or decrypt with AES-GCM. *)
Definition gcm_session (st : P11) (h hKey : Z) (g : CK_GCM_PARAMS) (objs : v_ObjectStore_M1) : Prop :=
  exists s, p11_get_session st h = Some s /\ objectStore_ s = objs /\
    activeMech_ (op_ s) = CKM_AES_GCM /\ signKey_ (op_ s) = hKey /\
    gcmIv_ (op_ s) = input (pIv g) (ulIvLen g) /\
    gcmAad_ (op_ s) = if bool_decide (pAAD g = None) || (ulAADLen g =? 0) then []
                      else input (pAAD g) (ulAADLen g).

Lemma gcm_params_ok st h s g :
  wf_p11 st -> p11_get_session st h = Some s ->
  bool_decide (pIv g = None) || (ulIvLen g =? 0) = false ->
  activeMech_ (op_ s) = CKM_AES_GCM ->
  let (rv, st') := set_params st h (mkMech CKM_AES_GCM (GcmParam g)) in
  rv = CKR_OK /\ wf_p11 st' /\ gcm_session st' h (signKey_ (op_ s)) g (objectStore_ s) /\
  (forall st2, ends st' h st2 -> ends st h st2).
Proof.
  intros Hwf Hg Hiv Hm. unfold set_params. rewrite Hg. cbn [mechanism param]. rewrite Z.eqb_refl, Hiv.
  set (s' := setGcmParams s _ _). destruct (put_back st h s s' h Hwf Hg eq_refl) as [Hwf' Hg'].
  rewrite Z.eqb_refl in Hg'. split_and!; [done|done|by exists s'|].
  intros st2 [evs ->]. exists evs. unfold op_end. rewrite !get_session_add, Hg, Hg'.
  rewrite !put_session_add, put_put by exact (get_session_handle _ _ _ Hg). done.
Qed.

Lemma encdec_init_gcm st h hKey g st1 :
  wf_p11 st -> encdec_init st h (Some (mkMech CKM_AES_GCM (GcmParam g))) hKey = (CKR_OK, st1) ->
  exists st0 s0, op_begin st h (Some (mkMech CKM_AES_GCM (GcmParam g))) hKey true = (CKR_OK, st0) /\
    p11_get_session st0 h = Some s0 /\ bool_decide (pIv g = None) || (ulIvLen g =? 0) = false /\
    gcm_session st1 h hKey g (objectStore_ s0) /\ (forall st2, ends st1 h st2 -> ends st0 h st2).
Proof.
  intros Hwf H. cbn [encdec_init mechanism] in H. change (encdec_mech CKM_AES_GCM) with true in H. cbn [negb] in H.
  destruct (op_begin st h _ hKey true) as [rv st0] eqn:E0. destruct (Z.eqb_spec rv CKR_OK) as [->|]; [|cbn in H; congruence].
  cbn [negb] in H. destruct (op_begin_key _ _ _ _ _ E0) as (_ & _ & s & Hg).
  pose proof (op_begin_ok _ _ _ _ _ _ _ Hg E0) as E1. set (s0 := with_op s _) in E1.
  destruct (put_back st h s s0 h Hwf Hg eq_refl) as [Hwf0 Hg0]. rewrite Z.eqb_refl in Hg0. rewrite <- E1 in Hwf0, Hg0.
  assert (Hiv : bool_decide (pIv g = None) || (ulIvLen g =? 0) = false).
  { unfold set_params in H. rewrite Hg0 in H. cbn [mechanism param] in H. rewrite Z.eqb_refl in H.
    destruct (_ || _); [discriminate|done]. }
  pose proof (gcm_params_ok st0 h s0 g Hwf0 Hg0 Hiv eq_refl) as Hp. rewrite H in Hp.
  destruct Hp as (_ & _ & Hs & He). by exists st0, s0.
Qed.

Lemma gcm_decrypt_after env' st1 st3 h hKey g objs env pt ct :
  gcm_session st1 h hKey g objs -> gcm_session st3 h hKey g objs -> len pt < 2 ^ 31 ->
  do_encrypt env st1 h pt = (CKR_OK, ct) -> do_decrypt env' st3 h ct = (CKR_OK, pt).
Proof.
  intros (s1 & G1 & O1 & M1 & K1 & I1 & A1) (s3 & G3 & O3 & M3 & K3 & I3 & A3) Hl H.
  assert (Hk : load_secret_key st3 h hKey = load_secret_key st1 h hKey)
    by (unfold load_secret_key, p11_get_object; by rewrite G1, G3, O1, O3).
  unfold do_encrypt, do_decrypt in *. rewrite G1 in H. rewrite G3. cbv zeta in *.
  rewrite M1, K1, I1, A1 in H. rewrite M3, K3, I3, A3, Hk. rewrite Z.eqb_refl in *.
  destruct (_ && _); [discriminate|]. destruct (p11_get_object st1 h hKey) as [o|]; [|discriminate].
  destruct (negb (p11_key_state_error _ _ =? CKR_OK)) eqn:Es.
  { injection H as E _. rewrite E in Es. discriminate. }
  destruct (bool_decide (load_secret_key st1 h hKey = [])); [discriminate|].
  destruct (p11_aes_gcm_encrypt _ _ _ _) as [rv [c t]] eqn:Ee. injection H as -> <-.
  cbn [Z.eqb CKR_OK] in *. destruct (aes_gcm_decrypt_encrypt _ _ _ _ _ _ Hl Ee) as [Ht Hd].
  unfold len. rewrite length_app, Ht. rewrite (proj2 (Z.ltb_ge _ _)) by lia.
  replace (length c + 16 - 16)%nat with (length c) by lia. by rewrite take_app_length, drop_app_length.
Qed.

(** AES-GCM through the API round-trips: what [C_EncryptInit] and [C_Encrypt]
    return decrypts, with the same key and parameters, to the plaintext (of
    less than 2^31 bytes) in any buffer large enough. *)
Theorem gcm_encrypt_decrypt_roundtrip (env env' : Env) (st st1 st2 : P11) (h hKey : Z) (g : CK_GCM_PARAMS)
    (pt : list byte) (room : Z) (w : Output)
    (Hwf : wf_p11 st) (Hlen : len pt < 2 ^ 31)
    (Hinit : C_EncryptInit st h (Some (mkMech CKM_AES_GCM (GcmParam g))) hKey = (CKR_OK, st1))
    (Henc : C_Encrypt env st1 h (Some pt) (len pt) false (Some room) = (CKR_OK, w, st2)) :
  exists st3, C_DecryptInit st2 h (Some (mkMech CKM_AES_GCM (GcmParam g))) hKey = (CKR_OK, st3) /\
    forall room', len pt <= room' ->
      fst (C_Decrypt env' st3 h (Some (written w)) (len (written w)) false (Some room'))
      = (CKR_OK, mkOut (Some (len pt)) pt).
Proof.
  unfold C_EncryptInit, C_DecryptInit in *.
  destruct (encdec_init_gcm _ _ _ _ _ Hwf Hinit) as (st0 & s0 & E0 & G0 & Hiv & S1 & Hends).
  unfold C_Encrypt in Henc. rewrite input_all, bool_decide_false in Henc by done. cbn [andb] in Henc.
  destruct (negb (op_check st1 h =? CKR_OK)); [discriminate|]. apply conclude_ok in Henc as [Hd He].
  destruct (begin_again _ _ _ _ _ _ Hwf E0 (Hends _ He)) as (st3 & E3 & Hwf3 & s1 & s3 & G1 & G3 & Eo & Ea & Ek & Eop).
  assert (s1 = s0) as -> by congruence.
  pose proof (gcm_params_ok st3 h s3 g Hwf3 G3 Hiv ltac:(by rewrite Eop)) as Hp.
  destruct (set_params st3 h _) as [rv st4] eqn:E4. destruct Hp as (-> & Hwf4 & S4 & _).
  rewrite Eop, Eo in S4. cbn [signKey_] in S4.
  exists st4. split.
  { cbn [encdec_init mechanism]. change (encdec_mech CKM_AES_GCM) with true. cbn [negb]. rewrite E3. by cbn. }
  intros room' Hr. pose proof (gcm_decrypt_after env' _ _ _ _ _ _ env pt _ S1 S4 Hlen Hd) as Hdec.
  destruct S4 as (s4 & G4 & _ & M4 & _). unfold C_Decrypt, op_check, opCheck.
  rewrite G4, M4, input_all, bool_decide_false by done. cbn [Z.eqb negb CKR_OK andb CKM_AES_GCM].
  rewrite Hdec. unfold conclude, finish_output. cbn [Z.eqb CKR_OK].
  by rewrite (proj2 (Z.ltb_ge _ _)) by lia.
Qed.

End RoundTrips.

End Crypto.

(** ** Witnesses *)

#[local] Existing Instance toy_ssl.
#[local] Existing Instance toy_ssl_laws.
#[local] Existing Instance toy_lib.

Definition sample_env : Env :=
  mkEnv None 1500 true (Some (fun _ => Ok true)) None 0 0 (fun _ => 7) (bytes_of "hsm-1") true.

Lemma handles_wf st hs next :
  SessMgr.handles (g_sessionManager st) = hs -> SessMgr.v_next_session_id_ (g_sessionManager st) = next ->
  NoDup hs -> Forall (fun h => 0 < h < next) hs -> 0 < next < 2 ^ 64 -> wf_p11 st.
Proof. intros <- <- H1 H2 H3. exact (conj H1 (conj H2 H3)). Qed.

Ltac wf_by_computation :=
  apply (handles_wf _ [1; 2] 3); [reflexivity|reflexivity| | |lia];
  apply (bool_decide_unpack _); vm_compute; exact I.

Lemma secret_p11_wf : wf_p11 secret_p11.
Proof. wf_by_computation. Qed.

Definition ecdsa : CK_MECHANISM := mkMech CKM_ECDSA_SHA256 NoParam.
Definition gcm_params : CK_GCM_PARAMS := mkGcmParams (Some (bytes_of "iv")) 2 (Some (bytes_of "aad")) 3.
Definition gcm : CK_MECHANISM := mkMech CKM_AES_GCM (GcmParam gcm_params).

(** The state in which a signature with the sample key has begun, and the one
    after it. *)
Definition signing_p11 : P11 := snd (C_SignInit secret_p11 1 (Some ecdsa) secret_handle).
Definition sample_data : list byte := bytes_of "data".
Definition sample_signing : CK_RV * Output * P11 :=
  C_Sign sample_env signing_p11 1 (Some sample_data) 4 false (Some 100).

Definition sample_session : Session := default (new_session 0 0 0) (p11_get_session signing_p11 1).

Lemma signing_p11_wf : wf_p11 signing_p11.
Proof. wf_by_computation. Qed.


Lemma sign_requires_authority_witness :
  fst (fst sample_signing) = CKR_OK /\ authorized sample_env signing_p11 1.
Proof.
  split; [reflexivity|].
  apply (proj1 (sign_requires_authority sample_env signing_p11 1 signing_p11_wf)
    (Some sample_data) 4 false (Some 100)). left. reflexivity.
Defined.

Lemma final_call_ends_operation_witness :
  let st' := final_call sample_env signing_p11 1 (FSign sample_data) true (Some 0) in
  wf_p11 st' /\ p11_get_session st' 1 = Some (with_op sample_session no_op) /\
  op_check st' 1 = CKR_OPERATION_NOT_INITIALIZED /\
  (forall h', h' <> 1 -> p11_get_session st' h' = p11_get_session signing_p11 h').
Proof.
  apply (final_call_ends_operation sample_env signing_p11 1 sample_session (FSign sample_data) true (Some 0)).
  - apply signing_p11_wf.
  - reflexivity.
  - reflexivity.
Defined.

Lemma sign_verify_roundtrip_witness :
  exists st3, C_VerifyInit (snd sample_signing) 1 (Some ecdsa) secret_handle = (CKR_OK, st3) /\
    fst (C_Verify sample_env st3 1 (Some sample_data) 4 (Some (written (snd (fst sample_signing))))
           (len (written (snd (fst sample_signing))))) = CKR_OK.
Proof.
  apply (sign_verify_roundtrip sample_env sample_env secret_p11 signing_p11 (snd sample_signing) 1
    secret_handle ecdsa sample_data 100).
  - apply secret_p11_wf.
  - reflexivity.
  - vm_compute. reflexivity.
  - vm_compute. reflexivity.
Defined.

Definition encrypting_p11 : P11 := snd (C_EncryptInit secret_p11 1 (Some gcm) secret_handle).
Definition sample_encryption : CK_RV * Output * P11 :=
  C_Encrypt sample_env encrypting_p11 1 (Some sample_data) 4 false (Some 100).

Lemma gcm_encrypt_decrypt_roundtrip_witness :
  exists st3, C_DecryptInit (snd sample_encryption) 1 (Some gcm) secret_handle = (CKR_OK, st3) /\
    forall room', 4 <= room' ->
      fst (C_Decrypt sample_env st3 1 (Some (written (snd (fst sample_encryption))))
             (len (written (snd (fst sample_encryption)))) false (Some room'))
      = (CKR_OK, mkOut (Some 4) sample_data).
Proof.
  apply (gcm_encrypt_decrypt_roundtrip sample_env sample_env secret_p11 encrypting_p11 (snd sample_encryption) 1
    secret_handle gcm_params sample_data 100).
  - apply secret_p11_wf.
  - vm_compute. reflexivity.
  - vm_compute. reflexivity.
  - vm_compute. reflexivity.
Defined.

(** ** Where the code departs from its comments *)

Definition revoked_p11 : P11 :=
  snd (C_SetAttributeValue secret_p11 1 secret_handle [attr CKA_VHSM_KEY_STATE [x02]]).

(** A revoked AES key refuses to encrypt and still decrypts. *)
Lemma revoked_aes_key_decrypts :
  fst (do_encrypt sample_env (snd (C_EncryptInit revoked_p11 1 (Some gcm) secret_handle)) 1 sample_data)
    = CKR_KEY_FUNCTION_NOT_PERMITTED /\
  do_decrypt sample_env (snd (C_DecryptInit revoked_p11 1 (Some gcm) secret_handle)) 1
    (written (snd (fst sample_encryption))) = (CKR_OK, sample_data).
Proof. split; vm_compute; reflexivity. Qed.

(** Asking for the length of a signature makes one: it is recorded by the
    dispatcher, and the operation is over before the caller has a buffer. *)
Lemma size_query_consumes_operation :
  let '(rv, w, st) := C_Sign sample_env signing_p11 1 (Some sample_data) 4 true (Some 0) in
  rv = CKR_OK /\ written w = [] /\ length (events_ st) = S (length (events_ signing_p11)) /\
  fst (fst (C_Sign sample_env st 1 (Some sample_data) 4 false (Some 100))) = CKR_OPERATION_NOT_INITIALIZED.
Proof. vm_compute. by split_and!. Qed.

(** Rejected parameters leave the operation begun, with the parameters of an
    earlier one. *)
Lemma rejected_params_leave_operation :
  let (rv, st) := C_EncryptInit secret_p11 1 (Some (mkMech CKM_AES_GCM NoParam)) secret_handle in
  rv = CKR_MECHANISM_PARAM_INVALID /\ op_check st 1 = CKR_OK.
Proof. vm_compute. by split. Qed.

Definition rsa_template : list CK_ATTRIBUTE :=
  [attr CKA_CLASS (ulong_bytes CKO_PRIVATE_KEY); attr CKA_VHSM_RSA_PRIV (bytes_of "rsa")].
Definition rsa_handle : Z := default 0 (snd (fst (C_CreateObject sample_p11 1 rsa_template false))).
Definition rsa_p11 : P11 := snd (C_CreateObject sample_p11 1 rsa_template false).

(** An operation does not remember its kind: [C_Sign] runs what
    [C_DecryptInit] began. *)
Lemma decrypt_init_lets_sign :
  let st := snd (C_DecryptInit rsa_p11 1 (Some (mkMech CKM_RSA_PKCS NoParam)) rsa_handle) in
  fst (fst (C_Sign sample_env st 1 (Some sample_data) 4 false (Some 100))) = CKR_OK.
Proof. vm_compute. reflexivity. Qed.

(** RSA-PSS with SHA-384 signs a SHA-256 digest and is recorded as SHA-384. *)
Lemma pss_recorded_digest_differs :
  digest_to_str CKM_SHA384_RSA_PKCS_PSS = bytes_of "SHA-384" /\
  (forall data, resolve_rsa_mech CKM_SHA384_RSA_PKCS_PSS data
     = Some (RSA_PKCS1_PSS_PADDING, bytes_of "SHA256", bytes_of "SHA256", p11_hash SHA256 data)).
Proof. split; reflexivity. Qed.

(** In FIPS mode ECDSA with SHA-256 cannot sign. *)
Lemma fips_mode_refuses_ecdsa :
  let env := mkEnv (Some (bytes_of "On")) 1500 true None None 0 0 (fun _ => 7) [] true in
  fst (do_sign env signing_p11 1 sample_data) = CKR_MECHANISM_INVALID.
Proof. vm_compute. reflexivity. Qed.
