(* ===== verification/KeyWrap.v ===== *)
(** * RFC 3394 key wrapping and KEK rotation

    [src/src/keystore/key_wrap.cpp] and [src/src/keystore/key_rotation.cpp].  The
    AES-256 block cipher comes from [scrypto], outside the repository: it is the
    class [Aes256], whose laws say that it is a permutation of the 16-byte
    blocks.  The register [A] is a 64-bit integer in little-endian memory, as on
    the supported targets; page locking and wiping have no effect on values. *)

From S2P Require Import Prelude Codec Types Objects.
Import LeBytes HsmObj.

Class Aes256 : Type := {
  aes256_encrypt_block : list byte -> list byte -> list byte;
  aes256_decrypt_block : list byte -> list byte -> list byte
}.

Class Aes256Laws (C : Aes256) : Prop := {
  encrypt_length : forall k b, length b = 16%nat -> length (aes256_encrypt_block k b) = 16%nat;
  decrypt_length : forall k b, length b = 16%nat -> length (aes256_decrypt_block k b) = 16%nat;
  decrypt_encrypt : forall k b, length b = 16%nat ->
    aes256_decrypt_block k (aes256_encrypt_block k b) = b;
  encrypt_decrypt : forall k b, length b = 16%nat ->
    aes256_encrypt_block k (aes256_decrypt_block k b) = b
}.

Definition AIV : Z := 0xA6A6A6A6A6A6A6A6.

(** [__builtin_bswap64]. *)
Definition bswap64 (t : Z) : Z := le_value (rev (le_digits 8 t)).

(** [memcpy(buf + off, src, 8)]. *)
Definition put8 (buf : list byte) (off : nat) (src : list byte) : list byte :=
  take off buf ++ src ++ drop (off + 8) buf.

Record KeyWrap : Type := mkKeyWrap { internal_kek : list byte }.

Definition new_KeyWrap (master_kek : list byte) : res KeyWrap :=
  check! len master_kek =? 32
    orelse "KeyWrap Initialization Error: KEK must be exactly 32 bytes for AES-256" in
  Ok (mkKeyWrap master_kek).

Section Wrap.
Context `{C : Aes256}.

(** One iteration of the inner loop of [wrap], on [A] and the result buffer. *)
Definition wrap_step (kw : KeyWrap) (n j : nat) (st : Z * list byte) (i : nat) : Z * list byte :=
  let (A, result) := st in
  let block := le_digits 8 A ++ slice (i * 8) 8 result in
  let block := aes256_encrypt_block (internal_kek kw) block in
  let t := u64 (Z.of_nat n * Z.of_nat j + Z.of_nat i) in
  let A := Z.lxor (le_value (take 8 block)) (bswap64 t) in
  (A, put8 result (i * 8) (drop 8 block)).

Definition wrap_round (kw : KeyWrap) (n : nat) (st : Z * list byte) (j : nat) : Z * list byte :=
  fold_left (wrap_step kw n j) (seq 1 n) st.

Definition wrap (kw : KeyWrap) (plaintext_key : list byte) : res (list byte) :=
  check! (16 <=? len plaintext_key) && (len plaintext_key mod 8 =? 0)
    orelse "Plaintext key size must be a multiple of 8 bytes and >= 16 bytes" in
  let n := (length plaintext_key / 8)%nat in
  let result := replicate 8 x00 ++ plaintext_key in
  let (A, result) := fold_left (wrap_round kw n) (seq 0 6) (AIV, result) in
  Ok (put8 result 0 (le_digits 8 A)).

(** One iteration of the inner loop of [unwrap]; the loops run backwards. *)
Definition unwrap_step (kw : KeyWrap) (n j : nat) (st : Z * list byte) (i : nat) : Z * list byte :=
  let (A, result) := st in
  let t := u64 (Z.of_nat n * Z.of_nat j + Z.of_nat i) in
  let A := Z.lxor A (bswap64 t) in
  let block := le_digits 8 A ++ slice ((i - 1) * 8) 8 result in
  let block := aes256_decrypt_block (internal_kek kw) block in
  (le_value (take 8 block), put8 result ((i - 1) * 8) (drop 8 block)).

Definition unwrap_round (kw : KeyWrap) (n : nat) (st : Z * list byte) (j : nat) : Z * list byte :=
  fold_left (unwrap_step kw n j) (rev (seq 1 n)) st.

Definition unwrap (kw : KeyWrap) (ciphertext_key : list byte) : res (list byte) :=
  check! (24 <=? len ciphertext_key) && (len ciphertext_key mod 8 =? 0)
    orelse "Ciphertext key size must be a multiple of 8 bytes and >= 24 bytes" in
  let n := (length ciphertext_key / 8 - 1)%nat in
  let A := le_value (take 8 ciphertext_key) in
  let result := take (n * 8) (drop 8 ciphertext_key) in
  let (A, result) := fold_left (unwrap_round kw n) (rev (seq 0 6)) (A, result) in
  if negb (A =? AIV)
  then Throw (RuntimeError "CRITICAL SECURITY ERROR: Integrity verification failed.")
  else Ok result.

(** [key_rewrap_wrapped]. *)
Definition key_rewrap_wrapped (oldKw newKw : KeyWrap) (wrapped : list byte) : res (list byte) :=
  let* raw := unwrap oldKw wrapped in wrap newKw raw.

End Wrap.

(** Lifecycle transitions. *)
Definition key_revoke (o : HsmObject) : HsmObject := setKeyState o Revoked.
Definition key_mark_rotating (o : HsmObject) : HsmObject := setKeyState o Rotating.
Definition key_activate (o : HsmObject) : HsmObject := setKeyState o Active.

(** ** Lemmas *)

(** Undoing a loop: the inverse steps in the reverse order. *)
Lemma fold_left_rev_inv {S X} (P : S -> Prop) (f g : S -> X -> S) (Q : X -> Prop) (l : list X) (s : S) :
  (forall s x, P s -> Q x -> P (f s x) /\ g (f s x) x = s) ->
  P s -> Forall Q l -> P (fold_left f l s) /\ fold_left g (rev l) (fold_left f l s) = s.
Proof.
  intros Hfg. revert s. induction l as [|x l IH]; intros s Hs Hl; [done|].
  apply list.Forall_cons in Hl as [Hx Hl]. destruct (Hfg s x Hs Hx) as [Hp Hg].
  destruct (IH (f s x) Hp Hl) as [Hp' Hi]. cbn [fold_left rev]. split; [done|].
  rewrite fold_left_app. rewrite Hi. exact Hg.
Qed.

(** Two loops that keep a relation. *)
Lemma fold_left_rel {S T X} (R : S -> T -> Prop) (f : S -> X -> S) (g : T -> X -> T) (Q : X -> Prop)
    (l : list X) (s : S) (t : T) :
  (forall s t x, R s t -> Q x -> R (f s x) (g t x)) -> Forall Q l -> R s t ->
  R (fold_left f l s) (fold_left g l t).
Proof.
  intros H Hl. revert s t. induction Hl as [|x l Hx _ IH]; intros s t Hr; [done|]. cbn [fold_left]. auto.
Qed.

Lemma put8_slice buf off : (off + 8 <= length buf)%nat -> put8 buf off (slice off 8 buf) = buf.
Proof.
  intros H. unfold put8, slice. by rewrite <- drop_drop, take_drop, take_drop.
Qed.

Lemma put8_put8 buf off a b :
  length a = 8%nat -> (off + 8 <= length buf)%nat -> put8 (put8 buf off a) off b = put8 buf off b.
Proof.
  intros Ha Hl. unfold put8. rewrite take_app_length' by (rewrite length_take; lia).
  do 2 f_equal. rewrite app_assoc, drop_app_length' by (rewrite length_app, length_take; lia). done.
Qed.

Lemma slice_put8 buf off a :
  length a = 8%nat -> (off + 8 <= length buf)%nat -> slice off 8 (put8 buf off a) = a.
Proof.
  intros Ha Hl. unfold slice, put8. rewrite drop_app_length' by (rewrite length_take; lia).
  by rewrite take_app_length'.
Qed.

Lemma length_put8 buf off a :
  length a = 8%nat -> (off + 8 <= length buf)%nat -> length (put8 buf off a) = length buf.
Proof. intros Ha Hl. unfold put8. rewrite !length_app, length_take, length_drop. lia. Qed.

Lemma length_slice8 (buf : list byte) off : (off + 8 <= length buf)%nat -> length (slice off 8 buf) = 8%nat.
Proof. intros H. unfold slice. rewrite length_take, length_drop. lia. Qed.

(** A header of eight bytes shifts the positions. *)
Lemma slice_header (hd buf : list byte) i :
  length hd = 8%nat -> (1 <= i)%nat -> slice (i * 8) 8 (hd ++ buf) = slice ((i - 1) * 8) 8 buf.
Proof.
  intros Hh Hi. unfold slice. rewrite drop_app_ge by lia. do 2 f_equal. lia.
Qed.

Lemma put8_header (hd buf a : list byte) i :
  length hd = 8%nat -> (1 <= i)%nat -> put8 (hd ++ buf) (i * 8) a = hd ++ put8 buf ((i - 1) * 8) a.
Proof.
  intros Hh Hi. unfold put8. rewrite take_app_ge, drop_app_ge, <- app_assoc by lia.
  do 4 f_equal; lia.
Qed.

Lemma bswap64_range t : is_u64 (bswap64 t).
Proof.
  unfold bswap64, is_u64. pose proof (le_value_range (rev (le_digits 8 t))) as H.
  rewrite length_rev, length_le_digits in H. exact H.
Qed.

Lemma lxor_u64 a b : is_u64 a -> is_u64 b -> is_u64 (Z.lxor a b).
Proof.
  unfold is_u64. intros Ha Hb. split; [apply Z.lxor_nonneg; lia|].
  destruct (Z.eq_dec (Z.lxor a b) 0) as [->|Hn]; [lia|]. apply Z.log2_lt_pow2; [|].
  - pose proof (proj2 (Z.lxor_nonneg a b)). lia.
  - assert (Hl : forall c, 0 <= c < 2 ^ 64 -> Z.log2 c < 64).
    { intros c Hc. destruct (Z.eq_dec c 0) as [->|]; [cbn; lia|]. apply Z.log2_lt_pow2; lia. }
    pose proof (Z.log2_lxor a b ltac:(lia) ltac:(lia)). specialize (Hl a Ha) as H1. specialize (Hl b Hb) as H2. lia.
Qed.

Lemma lxor_twice a b : Z.lxor (Z.lxor a b) b = a.
Proof. by rewrite Z.lxor_assoc, Z.lxor_nilpotent, Z.lxor_0_r. Qed.

Section Correct.
Context `{C : Aes256} {L : Aes256Laws C}.
Context (kw : KeyWrap) (n : nat).

(** [wrap_step] without the header of the buffer. *)
Definition core_step (j : nat) (st : Z * list byte) (i : nat) : Z * list byte :=
  let (A, R) := st in
  let block := aes256_encrypt_block (internal_kek kw) (le_digits 8 A ++ slice ((i - 1) * 8) 8 R) in
  (Z.lxor (le_value (take 8 block)) (bswap64 (u64 (Z.of_nat n * Z.of_nat j + Z.of_nat i))),
   put8 R ((i - 1) * 8) (drop 8 block)).

Definition core_round (st : Z * list byte) (j : nat) : Z * list byte := fold_left (core_step j) (seq 1 n) st.

Definition wf_state (st : Z * list byte) : Prop := is_u64 (fst st) /\ length (snd st) = (n * 8)%nat.
Definition in_loop (i : nat) : Prop := (1 <= i <= n)%nat.

Lemma le8_value z : is_u64 z -> le_value (le_digits 8 z) = z.
Proof. intros Hz. rewrite le_value_digits. by apply Z.mod_small. Qed.

(** The eight bytes of the value of eight bytes. *)
Lemma le8_bytes (l : list byte) : length l = 8%nat -> le_digits 8 (le_value l) = l.
Proof. intros H. by apply le_digits_value. Qed.

Lemma value8_u64 (l : list byte) : length l = 8%nat -> is_u64 (le_value l).
Proof. intros H. pose proof (le_value_range l) as Hr. rewrite H in Hr. exact Hr. Qed.

Lemma block_length A R i : length R = (n * 8)%nat -> in_loop i ->
  length (le_digits 8 A ++ slice ((i - 1) * 8) 8 R) = 16%nat.
Proof.
  intros HR [H1 H2]. rewrite length_app, length_le_digits, length_slice8 by lia. done.
Qed.

Lemma halves (b : list byte) : length b = 16%nat -> length (take 8 b) = 8%nat /\ length (drop 8 b) = 8%nat.
Proof. intros H. rewrite length_take, length_drop. lia. Qed.

Lemma core_then_unwrap j st i :
  wf_state st -> in_loop i -> wf_state (core_step j st i) /\ unwrap_step kw n j (core_step j st i) i = st.
Proof.
  destruct st as [A R]. intros [HA HR] Hi. cbn [fst snd] in *. unfold core_step, unwrap_step.
  pose proof (block_length A R i HR Hi) as Hb. destruct Hi as [H1 H2].
  set (b := le_digits 8 A ++ slice _ 8 R) in *. set (e := aes256_encrypt_block _ b).
  assert (He : length e = 16%nat) by (by apply encrypt_length). destruct (halves e He) as [Hl Hr].
  set (t := bswap64 _). assert (Ht : is_u64 t) by apply bswap64_range.
  split; [split; cbn [fst snd]|].
  - apply lxor_u64; [by apply value8_u64|done].
  - rewrite length_put8; lia.
  - rewrite lxor_twice, le8_bytes by done. rewrite slice_put8 by (done || lia).
    rewrite take_drop. unfold e. rewrite decrypt_encrypt by done. unfold b.
    rewrite take_app_length', drop_app_length' by (by rewrite length_le_digits).
    rewrite le8_value by done. rewrite put8_put8 by (done || lia). by rewrite put8_slice by lia.
Qed.

Lemma unwrap_then_core j st i :
  wf_state st -> in_loop i -> wf_state (unwrap_step kw n j st i) /\ core_step j (unwrap_step kw n j st i) i = st.
Proof.
  destruct st as [A R]. intros [HA HR] Hi. cbn [fst snd] in *. unfold core_step, unwrap_step.
  set (t := bswap64 _). assert (Ht : is_u64 t) by apply bswap64_range.
  pose proof (block_length (Z.lxor A t) R i HR Hi) as Hb. destruct Hi as [H1 H2].
  set (b := le_digits 8 (Z.lxor A t) ++ slice _ 8 R) in *. set (d := aes256_decrypt_block _ b).
  assert (Hd : length d = 16%nat) by (by apply decrypt_length). destruct (halves d Hd) as [Hl Hr].
  split; [split; cbn [fst snd]|].
  - by apply value8_u64.
  - rewrite length_put8; lia.
  - rewrite le8_bytes, slice_put8 by (done || lia). rewrite take_drop. unfold d.
    rewrite encrypt_decrypt by done. unfold b.
    rewrite take_app_length', drop_app_length' by (by rewrite length_le_digits).
    rewrite le8_value by (by apply lxor_u64). rewrite lxor_twice.
    rewrite put8_put8 by (done || lia). by rewrite put8_slice by lia.
Qed.

Lemma in_loop_seq : Forall in_loop (seq 1 n).
Proof. apply list.Forall_forall. intros i Hi%list_elem_of_In%in_seq. unfold in_loop. lia. Qed.

Lemma in_loop_rev : Forall in_loop (rev (seq 1 n)).
Proof. apply Forall_rev, in_loop_seq. Qed.

Lemma round_inverse st j :
  wf_state st -> wf_state (core_round st j) /\ unwrap_round kw n (core_round st j) j = st.
Proof.
  intros Hst. apply (fold_left_rev_inv wf_state (core_step j) (unwrap_step kw n j) in_loop); [|done|apply in_loop_seq].
  intros s i. apply core_then_unwrap.
Qed.

Lemma round_inverse' st j :
  wf_state st -> wf_state (unwrap_round kw n st j) /\ core_round (unwrap_round kw n st j) j = st.
Proof.
  intros Hst.
  destruct (fold_left_rev_inv wf_state (unwrap_step kw n j) (core_step j) in_loop (rev (seq 1 n)) st) as [H1 H2];
    [intros s i; apply unwrap_then_core|done|apply in_loop_rev|].
  rewrite rev_involutive in H2. done.
Qed.

Lemma rounds_inverse st :
  wf_state st -> let st' := fold_left core_round (seq 0 6) st in
  wf_state st' /\ fold_left (unwrap_round kw n) (rev (seq 0 6)) st' = st.
Proof.
  intros Hst. apply (fold_left_rev_inv wf_state core_round (unwrap_round kw n) (fun _ => True)); [|done|by apply Forall_true].
  intros s j Hs _. by apply round_inverse.
Qed.

Lemma rounds_inverse' st :
  wf_state st -> let st' := fold_left (unwrap_round kw n) (rev (seq 0 6)) st in
  wf_state st' /\ fold_left core_round (seq 0 6) st' = st.
Proof.
  intros Hst.
  destruct (fold_left_rev_inv wf_state (unwrap_round kw n) core_round (fun _ => True) (rev (seq 0 6)) st) as [H1 H2];
    [intros s j Hs _; by apply round_inverse'|done|by apply Forall_true|].
  rewrite rev_involutive in H2. done.
Qed.

(** The loops of [wrap] never touch the header. *)
Lemma wrap_loop_core (R : list byte) (A : Z) :
  fold_left (wrap_round kw n) (seq 0 6) (A, replicate 8 x00 ++ R)
  = let st := fold_left core_round (seq 0 6) (A, R) in (fst st, replicate 8 x00 ++ snd st).
Proof.
  set (rel := fun (s t : Z * list byte) => s = (fst t, replicate 8 x00 ++ snd t)).
  assert (Hstep : forall j s t i, rel s t -> in_loop i -> rel (wrap_step kw n j s i) (core_step j t i)).
  { intros j s [A' R'] i -> [Hi _]. unfold rel, wrap_step, core_step. cbn [fst snd].
    rewrite slice_header, put8_header by (done || lia). done. }
  apply (fold_left_rel rel (wrap_round kw n) core_round (fun _ => True)); [|by apply Forall_true|done].
  intros s t j Hr _. apply (fold_left_rel rel _ _ in_loop); [apply Hstep|apply in_loop_seq|done].
Qed.

End Correct.

Section Theorems.
Context `{C : Aes256} {L : Aes256Laws C}.

Definition wrappable (p : list byte) : bool := (16 <=? len p) && (len p mod 8 =? 0).
Definition unwrappable (c : list byte) : bool := (24 <=? len c) && (len c mod 8 =? 0).

Lemma mult8 (l : list byte) : len l mod 8 = 0 -> length l = (length l / 8 * 8)%nat.
Proof.
  intros H. unfold len in H. pose proof (Nat.div_mod (length l) 8 ltac:(lia)) as E.
  assert ((length l mod 8)%nat = 0%nat); [|lia].
  apply Nat2Z.inj. rewrite Nat2Z.inj_mod. exact H.
Qed.

Lemma wrap_eq kw p :
  wrappable p = true ->
  let st := fold_left (core_round kw (length p / 8)) (seq 0 6) (AIV, p) in
  wf_state (length p / 8) st /\ wrap kw p = Ok (le_digits 8 (fst st) ++ snd st).
Proof.
  intros Hp. unfold wrap. unfold wrappable in Hp. rewrite Hp. cbn [check rbind]. apply andb_true_iff in Hp as [_ Hm].
  apply Z.eqb_eq, mult8 in Hm.
  assert (Hwf : wf_state (length p / 8) (AIV, p)) by (split; [unfold is_u64, AIV; cbn [fst]; lia|exact Hm]).
  destruct (rounds_inverse kw (length p / 8) _ Hwf) as [Hwf' _]. split; [done|].
  rewrite wrap_loop_core. cbv zeta. destruct (fold_left _ _ (AIV, p)) as [A R]. cbn [fst snd].
  unfold put8. rewrite take_0. cbn [app]. by rewrite drop_app_length'.
Qed.

Lemma unwrap_eq kw c :
  unwrappable c = true ->
  let n := (length c / 8 - 1)%nat in
  let st := fold_left (unwrap_round kw n) (rev (seq 0 6)) (le_value (take 8 c), drop 8 c) in
  wf_state n (le_value (take 8 c), drop 8 c) /\ wf_state n st /\ (2 <= n)%nat /\
  c = le_digits 8 (le_value (take 8 c)) ++ drop 8 c /\
  unwrap kw c = if negb (fst st =? AIV)
    then Throw (RuntimeError "CRITICAL SECURITY ERROR: Integrity verification failed.") else Ok (snd st).
Proof.
  intros Hc. unfold unwrap. unfold unwrappable in Hc. rewrite Hc. cbn [check rbind].
  apply andb_true_iff in Hc as [Hl Hm]. apply Z.eqb_eq, mult8 in Hm. apply Z.leb_le in Hl. unfold len in Hl.
  assert (H3 : (3 <= length c / 8)%nat) by lia.
  assert (Ht : length (take 8 c) = 8%nat) by (rewrite length_take; lia).
  assert (Hd : length (drop 8 c) = ((length c / 8 - 1) * 8)%nat) by (rewrite length_drop; lia).
  assert (Hwf : wf_state (length c / 8 - 1) (le_value (take 8 c), drop 8 c)) by (split; [by apply value8_u64|done]).
  destruct (rounds_inverse' kw _ _ Hwf) as [Hwf' _].
  split_and!; [done|done|lia|by rewrite le8_bytes, take_drop|].
  rewrite (take_ge (drop 8 c)) by lia. by destruct (fold_left _ _ _) as [A R].
Qed.

Lemma wrap_ok kw p c : wrap kw p = Ok c -> wrappable p = true.
Proof. unfold wrap, wrappable. intros H. by inv_res. Qed.

Lemma unwrap_ok kw c p : unwrap kw c = Ok p -> unwrappable c = true.
Proof. unfold unwrap, unwrappable. intros H. by inv_res. Qed.

Lemma unwrap_wrap kw p c : wrap kw p = Ok c -> unwrap kw c = Ok p.
Proof.
  intros H. pose proof (wrap_ok _ _ _ H) as Hp. destruct (wrap_eq kw p Hp) as [[Hu Hl] E].
  rewrite E in H. apply Ok_inj in H. set (st := fold_left (core_round kw _) _ _) in *. clear E.
  assert (Hlen : length c = (length p / 8 * 8 + 8)%nat)
    by (rewrite <- H, length_app, length_le_digits; lia).
  unfold wrappable in Hp. apply andb_true_iff in Hp as [Hp1 Hp2]. apply Z.leb_le in Hp1. unfold len in Hp1.
  apply Z.eqb_eq, mult8 in Hp2.
  assert (Hc : unwrappable c = true).
  { unfold unwrappable, len. rewrite Hlen. apply andb_true_iff. split; [apply Z.leb_le; lia|apply Z.eqb_eq].
    rewrite Nat2Z.inj_add, Nat2Z.inj_mul. change (Z.of_nat 8) with 8. rewrite Z.add_mod, Z.mod_mul by lia. done. }
  destruct (unwrap_eq kw c Hc) as (_ & _ & _ & _ & ->).
  assert (Hn : (length c / 8 - 1 = length p / 8)%nat).
  { rewrite Hlen. replace (length p / 8 * 8 + 8)%nat with ((length p / 8 + 1) * 8)%nat by lia.
    rewrite Nat.div_mul by lia. lia. }
  rewrite Hn.
  assert (Hst : (le_value (take 8 c), drop 8 c) = st).
  { rewrite <- H. rewrite take_app_length', drop_app_length' by (by rewrite length_le_digits).
    rewrite le8_value by done. by destruct st. }
  rewrite Hst. destruct (rounds_inverse kw (length p / 8) (AIV, p)) as [_ Hi].
  { split; [unfold is_u64, AIV; cbn [fst]; lia|exact Hp2]. }
  unfold st. rewrite Hi. cbn [fst snd]. by rewrite Z.eqb_refl.
Qed.

Lemma wrap_unwrap kw p c : unwrap kw c = Ok p -> wrap kw p = Ok c.
Proof.
  intros H. pose proof (unwrap_ok _ _ _ H) as Hc. destruct (unwrap_eq kw c Hc) as (Hwf & [Hu Hl] & Hn & Ec & E).
  rewrite E in H. set (n := (length c / 8 - 1)%nat) in *. clear E.
  destruct (rounds_inverse' kw n _ Hwf) as [_ Hi].
  set (st := fold_left (unwrap_round kw n) _ _) in *. destruct (Z.eqb_spec (fst st) AIV) as [Ea|]; [|discriminate].
  cbn [negb] in H. apply Ok_inj in H. rewrite H in Hl.
  assert (Hp : wrappable p = true).
  { unfold wrappable, len. rewrite Hl. apply andb_true_iff. split; [apply Z.leb_le; lia|apply Z.eqb_eq].
    rewrite Nat2Z.inj_mul. by apply Z.mod_mul. }
  destruct (wrap_eq kw p Hp) as [_ ->]. rewrite Hl, Nat.div_mul by lia.
  assert (Hst : (AIV, p) = st) by (rewrite <- Ea, <- H; by destruct st).
  rewrite Hst, Hi. cbn [fst snd]. by rewrite <- Ec.
Qed.

(** Unwrapping is exactly the inverse of wrapping: a blob is accepted, and
    gives a key, if and only if it is what wrapping that key under the same KEK
    produces; every other blob is refused by the integrity check. *)
Theorem key_wrap_exact (kw : KeyWrap) (p c : list byte) : unwrap kw c = Ok p <-> wrap kw p = Ok c.
Proof. split; [apply wrap_unwrap|apply unwrap_wrap]. Qed.

(** Rotating the KEK keeps the key: the re-wrapped blob unwraps under the new
    KEK to what the old blob held, and a blob that fails the check under the
    old KEK is never re-wrapped. *)
Theorem kek_rotation_preserves_key (oldKw newKw : KeyWrap) (wrapped : list byte) :
  match key_rewrap_wrapped oldKw newKw wrapped with
  | Ok c => exists key, unwrap oldKw wrapped = Ok key /\ unwrap newKw c = Ok key
  | Throw e => unwrap oldKw wrapped = Throw e
  end.
Proof.
  unfold key_rewrap_wrapped. destruct (unwrap oldKw wrapped) as [key|e] eqn:E; [|done]. cbn [rbind].
  pose proof (wrap_ok _ _ _ (wrap_unwrap _ _ _ E)) as Hp. destruct (wrap_eq newKw key Hp) as [_ Ew].
  rewrite Ew. exists key. split; [done|]. by apply unwrap_wrap.
Qed.

End Theorems.

(** ** Witnesses *)

(** A permutation of blocks that depends on the key. *)
Definition toy_mask (k b : list byte) : list byte :=
  zip_with (fun x y => to_u8 (Z.lxor (u8 x) (u8 y))) b (take 16 (k ++ replicate 16 x00)).

Definition toy_perm (k b : list byte) : list byte := if decide (length b = 16%nat) then rev (toy_mask k b) else b.
Definition toy_unperm (k b : list byte) : list byte := if decide (length b = 16%nat) then toy_mask k (rev b) else b.

Lemma toy_mask_length k b : length b = 16%nat -> length (toy_mask k b) = 16%nat.
Proof. intros H. unfold toy_mask. rewrite length_zip_with, length_take, length_app, length_replicate. lia. Qed.

Lemma toy_mask_twice k b : length b = 16%nat -> toy_mask k (toy_mask k b) = b.
Proof.
  intros H. unfold toy_mask. set (m := take 16 _). assert (Hm : length m = 16%nat).
  { unfold m. rewrite length_take, length_app, length_replicate. lia. }
  clearbody m. rewrite <- Hm in H. clear Hm. revert m H. induction b as [|x b IH]; intros [|y m] H; try done.
  cbn [zip_with]. rewrite IH by (cbn in H; lia). f_equal. rewrite u8_to_u8.
  apply u8_inj. rewrite u8_to_u8. pose proof (u8_range x). pose proof (u8_range y).
  rewrite <- (Z.land_ones _ 8), <- (Z.land_ones _ 8) by lia.
  apply Z.bits_inj'. intros i Hi. rewrite !Z.land_spec, !Z.lxor_spec, !Z.land_spec, !Z.lxor_spec.
  destruct (Z.lt_ge_cases i 8).
  - rewrite Z.ones_spec_low by lia. rewrite !andb_true_r.
    by destruct (Z.testbit (u8 x) i), (Z.testbit (u8 y) i).
  - rewrite Z.ones_spec_high by lia. rewrite !andb_false_r.
    rewrite <- (Z.mod_small (u8 x) (2 ^ 8)) by lia. by rewrite Z.mod_pow2_bits_high by lia.
Qed.

#[local] Instance toy_aes : Aes256 := {| aes256_encrypt_block := toy_perm; aes256_decrypt_block := toy_unperm |}.

#[local] Instance toy_aes_laws : Aes256Laws toy_aes.
Proof.
  split; intros k b H; cbn.
  - unfold toy_perm. rewrite decide_True by done. by rewrite length_rev, toy_mask_length.
  - unfold toy_unperm. rewrite decide_True by done. by rewrite toy_mask_length; rewrite ?length_rev.
  - unfold toy_perm. rewrite (decide_True _ _ H). unfold toy_unperm.
    rewrite decide_True by (by rewrite length_rev, toy_mask_length). rewrite rev_involutive. by apply toy_mask_twice.
  - unfold toy_unperm. rewrite (decide_True _ _ H). unfold toy_perm.
    rewrite decide_True by (by rewrite toy_mask_length; rewrite ?length_rev).
    rewrite toy_mask_twice by (by rewrite length_rev). apply rev_involutive.
Qed.

Definition sample_kek : KeyWrap := mkKeyWrap (bytes_of "0123456789abcdef0123456789abcdef").
Definition other_kek : KeyWrap := mkKeyWrap (bytes_of "another key-encryption key, 32 b").
Definition sample_key : list byte := bytes_of "sixteen byte key".

(** A wrapped key, its corruption, and a KEK rotation. *)
Lemma key_wrap_example :
  match wrap sample_kek sample_key with
  | Ok c => unwrap sample_kek c = Ok sample_key /\
            is_ok (unwrap sample_kek (x00 :: tail c)) = false /\
            is_ok (key_rewrap_wrapped sample_kek other_kek c) = true
  | Throw _ => False
  end.
Proof. vm_compute. by split_and!. Qed.

Definition sample_blob : list byte := match wrap sample_kek sample_key with Ok c => c | Throw _ => [] end.

Lemma key_wrap_exact_witness : unwrap sample_kek sample_blob = Ok sample_key.
Proof.
  refine (proj2 (key_wrap_exact sample_kek sample_key sample_blob) _). vm_compute. reflexivity.
Defined.

Lemma kek_rotation_preserves_key_witness :
  exists c key, key_rewrap_wrapped sample_kek other_kek sample_blob = Ok c /\
    unwrap sample_kek sample_blob = Ok key /\ unwrap other_kek c = Ok key.
Proof.
  pose proof (kek_rotation_preserves_key sample_kek other_kek sample_blob) as H.
  destruct (key_rewrap_wrapped sample_kek other_kek sample_blob) as [c|e] eqn:E.
  - destruct H as [key H]. exists c, key. split; [reflexivity|exact H].
  - vm_compute in E. discriminate E.
Defined.
