(* ===== verification/Rng.v ===== *)
(** * Entropy and the random generator

    [src/src/crypto/ctr_drbg_aes256.cpp] (the entropy source; the DRBG itself is
    [vhsm::scrypto::CtrDrbgAes256], outside the repository and here the class
    [CtrDrbg]), [src/src/crypto/secure_rng.cpp] and
    [src/src/pkcs11/p11_random.cpp].

    The RDRAND instruction, [getrandom] and the file are given by their answers,
    in order; running out of answers is a call that has not returned yet
    ([None]). *)

From S2P Require Import Prelude Codec Types Evp.
Import LeBytes Utils.

Class CtrDrbg : Type := {
  drbg : Type;
  instantiate : list byte -> res drbg;
  reseed : drbg -> list byte -> res drbg;
  (** The result, and the state also when it throws. *)
  generate : drbg -> Z -> res (list byte) * drbg;
  (** The largest request. *)
  max_request : Z
}.

(** What SP 800-90A's generate promises: as many bytes as requested; and after a
    reseed, a request within the limits succeeds. *)
Class CtrDrbgLaws (D : CtrDrbg) : Prop := {
  generate_length : forall d n l, 0 <= n -> fst (generate d n) = Ok l -> len l = n;
  generate_throws_runtime : forall d n e, fst (generate d n) = Throw e -> exists m, e = RuntimeError m;
  reseed_succeeds : forall d s, len s = 48 -> exists d', reseed d s = Ok d' /\
    forall n, 0 <= n <= max_request -> is_ok (fst (generate d' n)) = true
}.

(** ** Entropy *)

Record EntropySys : Type := mkEntropySys {
  env_VHSM_ENTROPY : option (list byte);
  env_VHSM_FIPS : option (list byte);
  (** Answers of RDRAND; [None] when the carry flag is clear. *)
  rdrand : list (option Z);
  getrandom : list getrandom_result;
  (** The first bytes of [source_path], or [None] if it cannot be opened. *)
  source_file : option (list byte)
}.

(** Ten attempts for one word: the word and the answers left. *)
Fixpoint rdrand_word (attempts : nat) (ans : list (option Z)) : option Z * list (option Z) :=
  match attempts, ans with
  | S a, Some v :: ans => (Some v, ans)
  | S a, None :: ans => rdrand_word a ans
  | _, _ => (None, ans)
  end.

(** [for (i = 0; i < size; i += 8)]. *)
Fixpoint hardware_rand_bytes (words : nat) (ans : list (option Z)) : option (list byte) :=
  match words with
  | O => Some []
  | S w =>
    match rdrand_word 10 ans with
    | (Some v, ans) =>
      match hardware_rand_bytes w ans with
      | Some rest => Some (le_digits 8 v ++ rest)
      | None => None
      end
    | (None, _) => None
    end
  end.

(** The [getrandom] loop: the filled buffer, [inr tt] for the fallback. *)
Fixpoint getrandom_loop (sys : list getrandom_result) (remaining : nat) : option (list byte + unit) :=
  match remaining with
  | O => Some (inl [])
  | _ =>
    match sys with
    | [] => None
    | GrEINTR :: sys => getrandom_loop sys remaining
    | GrError :: _ => Some (inr tt)
    | GrBytes l :: sys =>
      let n := take remaining l in
      match getrandom_loop sys (remaining - length n) with
      | Some (inl rest) => Some (inl (n ++ rest))
      | r => r
      end
    end
  end.

Definition get_system_entropy (sys : EntropySys) : option (res (list byte)) :=
  let want_rdrand := match env_VHSM_ENTROPY sys with
                     | Some ent => contains (bytes_of "rdrand") ent
                     | None => false
                     end in
  let posix :=
    match getrandom_loop (getrandom sys) 48 with
    | None => None
    | Some (inl entropy) => Some (Ok entropy)
    | Some (inr _) =>
      match source_file sys with
      | Some bytes => if (48 <=? length bytes)%nat then Some (Ok (take 48 bytes))
                      else Some (Throw (RuntimeError "RNG Failure: Enclave cannot reach system entropy source: "))
      | None => Some (Throw (RuntimeError "RNG Failure: Enclave cannot reach system entropy source: "))
      end
    end in
  if want_rdrand || fips_mode (env_VHSM_FIPS sys) then
    match hardware_rand_bytes 6 (rdrand sys) with
    | Some entropy => Some (Ok entropy)
    | None => if want_rdrand
              then Some (Throw (RuntimeError "RNG Failure: VHSM_ENTROPY=rdrand requested but RDRAND unavailable"))
              else posix
    end
  else posix.

(** ** The generator *)

Section Generator.
Context `{D : CtrDrbg}.

Record SecureRNG : Type := mkRng { engine : drbg }.

Definition new_SecureRNG (sys : EntropySys) : option (res SecureRNG) :=
  match get_system_entropy sys with
  | None => None
  | Some r => Some (let* seed := r in let* e := instantiate seed in Ok (mkRng e))
  end.

Definition force_reseed (r : SecureRNG) (sys : EntropySys) : option (res unit * SecureRNG) :=
  match get_system_entropy sys with
  | None => None
  | Some (Throw e) => Some (Throw e, r)
  | Some (Ok seed) =>
    match reseed (engine r) seed with
    | Ok e => Some (Ok tt, mkRng e)
    | Throw e => Some (Throw e, r)
    end
  end.

(** The bytes written at [out_buffer] ([null]: a null pointer). *)
Definition bytes (r : SecureRNG) (sys : EntropySys) (null : bool) (size : Z)
    : option (res (list byte) * SecureRNG) :=
  if null || (size =? 0) then Some (Ok [], r)
  else
    match generate (engine r) size with
    | (Ok data, e) => Some (Ok data, mkRng e)
    | (Throw (RuntimeError _), e) =>
      match force_reseed (mkRng e) sys with
      | None => None
      | Some (Throw x, r) => Some (Throw x, r)
      | Some (Ok _, r) => let (out, e) := generate (engine r) size in Some (out, mkRng e)
      end
    | (Throw x, e) => Some (Throw x, mkRng e)
    end.

Definition p11_random_bytes (r : SecureRNG) (sys : EntropySys) (n : Z) : option (CK_RV * list byte * SecureRNG) :=
  match bytes r sys false n with
  | None => None
  | Some (Ok out, r) => Some (CKR_OK, out, r)
  | Some (Throw _, r) => Some (CKR_GENERAL_ERROR, [], r)
  end.

Definition C_SeedRandom (pSeed_null : bool) (ulSeedLen : Z) : CK_RV :=
  if pSeed_null && (0 <? ulSeedLen) then CKR_ARGUMENTS_BAD else CKR_OK.

Definition C_GenerateRandom (r : SecureRNG) (sys : EntropySys) (null : bool) (ulRandomLen : Z)
    : option (CK_RV * list byte * SecureRNG) :=
  if null then Some (CKR_ARGUMENTS_BAD, [], r)
  else if ulRandomLen =? 0 then Some (CKR_OK, [], r)
  else match bytes r sys false ulRandomLen with
  | None => None
  | Some (Ok out, r) => Some (CKR_OK, out, r)
  | Some (Throw _, r) => Some (CKR_GENERAL_ERROR, [], r)
  end.

(** ** Properties *)

Lemma hardware_rand_bytes_length words ans l :
  hardware_rand_bytes words ans = Some l -> length l = (8 * words)%nat.
Proof.
  revert ans l. induction words as [|w IH]; intros ans l; cbn [hardware_rand_bytes]; [by intros [= <-]|].
  destruct (rdrand_word 10 ans) as [[v|] ans']; [|discriminate].
  destruct (hardware_rand_bytes w ans') as [r|] eqn:E; [|discriminate]. intros Hl.
  assert (l = le_digits 8 v ++ r) as -> by congruence. rewrite length_app, length_le_digits, (IH _ _ E). lia.
Qed.

Lemma getrandom_loop_length sys n l : getrandom_loop sys n = Some (inl l) -> length l = n.
Proof.
  revert n l. induction sys as [|g sys IH]; intros [|n] l; cbn [getrandom_loop]; try discriminate; try (by intros [= <-]).
  destruct g as [b| |]; try discriminate; [|by apply IH].
  destruct (getrandom_loop sys _) as [[r|]|] eqn:E; try discriminate. intros [= <-].
  rewrite length_app, (IH _ _ E), length_take. lia.
Qed.

Lemma entropy_length sys l : get_system_entropy sys = Some (Ok l) -> len l = 48.
Proof.
  unfold get_system_entropy. intros H.
  assert (Hhw : forall w, hardware_rand_bytes 6 (rdrand sys) = Some w -> len w = 48)
    by (intros w Hw; unfold len; by rewrite (hardware_rand_bytes_length _ _ _ Hw)).
  assert (Hgr : forall w, getrandom_loop (getrandom sys) 48 = Some (inl w) -> len w = 48)
    by (intros w Hw; unfold len; by rewrite (getrandom_loop_length _ _ _ Hw)).
  assert (Hf : forall b : list byte, (48 <=? length b)%nat = true -> len (take 48 b) = 48).
  { intros b Hb%Nat.leb_le. unfold len. rewrite length_take. lia. }
  cbv zeta in H. split_ifs_in H; try discriminate; injection H as <-; auto.
Qed.

(** The system gives entropy: RDRAND or [getrandom] or the file deliver. *)
Definition entropy_available (sys : EntropySys) : Prop := exists l, get_system_entropy sys = Some (Ok l).

Context {L : CtrDrbgLaws D}.

(** [C_GenerateRandom] writes exactly the bytes asked for, or fails and
    writes none; and when entropy is available a request within the
    generator's limit always succeeds: a generator that refuses is reseeded
    and asked again. *)
Theorem random_bytes_exact (r : SecureRNG) (sys : EntropySys) (n : Z) (Hn : 0 <= n) :
  match C_GenerateRandom r sys false n with
  | Some (rv, out, _) => (rv = CKR_OK /\ len out = n) \/ (rv = CKR_GENERAL_ERROR /\ out = [])
  | None => ~ entropy_available sys
  end /\
  (entropy_available sys -> n <= max_request ->
     exists out r', C_GenerateRandom r sys false n = Some (CKR_OK, out, r')).
Proof.
  unfold C_GenerateRandom, bytes. destruct (Z.eqb_spec n 0) as [->|Hz]; cbn [orb].
  { split; [by left|eauto]. }
  pose proof (fun l => generate_length (engine r) n l Hn) as Hg. pose proof (generate_throws_runtime (engine r) n) as Ht.
  destruct (generate (engine r) n) as [[out|e] e1]; cbn [fst] in *; [split; [left; auto|eauto]|].
  destruct (Ht e eq_refl) as [m ->]. unfold force_reseed, entropy_available.
  destruct (get_system_entropy sys) as [[seed|e]|] eqn:Es.
  - destruct (reseed_succeeds e1 seed (entropy_length _ _ Es)) as (d' & Hr & Hd). cbn [engine]. rewrite Hr. cbn [engine].
    specialize (Hd n). pose proof (fun l => generate_length d' n l Hn) as Hg'. destruct (generate d' n) as [[out|x] e2]; cbn [fst] in *.
    + split; [left; auto|eauto].
    + split; [by right|]. intros _ Hm. discriminate (Hd (conj Hn Hm)).
  - split; [by right|]. intros [l H]. discriminate.
  - split; [intros [l H]; discriminate|]. intros [l H]. discriminate.
Qed.

End Generator.

(** A generator that must be reseeded after every request. *)
#[local] Instance toy_drbg : CtrDrbg := {|
  drbg := bool;
  instantiate _ := Ok true;
  reseed _ _ := Ok true;
  generate fresh n := if fresh then (Ok (replicate (Z.to_nat n) x2a), false)
                      else (Throw (RuntimeError "reseed required"), false);
  max_request := 65536 |}.

#[local] Instance toy_drbg_laws : CtrDrbgLaws toy_drbg.
Proof.
  split; cbn.
  - intros [] n l Hn; cbn; [|discriminate]. intros [= <-]. unfold len. rewrite length_replicate. lia.
  - intros [] n e; cbn; [discriminate|]. intros [= <-]. eauto.
  - intros d s _. by exists true.
Qed.

Definition sample_sys : EntropySys :=
  mkEntropySys None None [] [GrEINTR; GrBytes (replicate 20 x01); GrError] (Some (replicate 64 x02)).

Definition stale_rng : SecureRNG := @mkRng toy_drbg false.

Lemma random_bytes_exact_witness :
  exists out r', C_GenerateRandom stale_rng sample_sys false 32 = Some (CKR_OK, out, r').
Proof.
  apply (random_bytes_exact stale_rng sample_sys 32); [lia| |vm_compute; discriminate].
  exists (replicate 48 x02). reflexivity.
Defined.
