(* ===== verification/KeyMgmt.v ===== *)
(** * Key generation, rotation, wrapping and derivation

    [src/src/pkcs11/p11_keygen.cpp], [src/src/pkcs11/p11_wrap.cpp] and
    [p11_publish_event] of [src/src/pkcs11/p11_internal.cpp], on the session's
    object store.

    The key generators of [src/src/crypto/rsa.cpp] and [ecc.cpp] end in [scrypto],
    outside the repository: the class [KeyGen].  [rand n] is the answer of
    [p11_random_bytes] for [n] bytes.  A template is its list of attributes. *)

From S2P Require Import Prelude Codec Types Notification SecureBuffer Objects ObjectStore Token Session Pkcs11 AuditLog KeyPolicy Evp Crypto KeyWrap.
Import LeBytes HsmObj AttrStore Sess.
Local Open Scope Z_scope.

Inductive Curve : Type := EccCurveType_P256 | EccCurveType_P384 | EccCurveType_P521.

Class KeyGen `{O : OpenSSL} : Type := {
  (** [scrypto::rsa_generate] and [ec_generate]: an exception, or the handle of
      the key, null when there is none. *)
  scrypto_rsa_generate : Z -> Z -> res (option EVP_PKEY);
  scrypto_ec_generate : Z -> Curve -> res (option EVP_PKEY);
  d2i_PUBKEY : list byte -> option EVP_PKEY
}.

(** [RSAUtil::generate_key] and [ECC::generate_key]. *)
Definition rsa_generate_key `{G : KeyGen} (rnd bits : Z) : res (option EVP_PKEY) :=
  if bits <? 2048
  then Throw (InvalidArgument "RSAUtil::generate_key: key size must be >= 2048 bits")
  else scrypto_rsa_generate rnd bits.

Definition ecc_generate_key `{G : KeyGen} (rnd : Z) (c : Curve) : res (option EVP_PKEY) :=
  scrypto_ec_generate rnd c.

(** ** Events *)

Definition p11_publish_event (env : Env) (st : P11) (type : EventType.EventType)
    (severity : Severity.Severity) (slot_id : Z) (token_label key_id summary detail_json : list byte)
    (user_label : option (list byte)) (audit_event_type : string) : P11 :=
  if negb (bus_and_audit_log env) then st
  else
    let e := mkEvent type severity (now_ms env)
      (bytes_of "slot:" ++ int_to_string slot_id ++ bytes_of "/token:" ++ token_label
         ++ bytes_of "/key:" ++ key_id)
      (default (bytes_of "UNKNOWN") user_label) summary detail_json (hsm_instance_id env) in
    publish st (NOTIFIED e (bytes_of audit_event_type ++ bytes_of "-" ++ int_to_string (now_ms env))
                  (bytes_of audit_event_type)).

(** A field with a number. *)
Definition json_number (name : string) (v : Z) : list byte :=
  quoted (bytes_of name) ++ bytes_of ":" ++ to_string v.

Definition token_label_of (st : P11) (h : Z) : list byte :=
  match p11_get_token_for_session st h with Some t => v_label_ t | None => bytes_of "unknown" end.

(** ** Key generation *)

Fixpoint label_from_template (t : list CK_ATTRIBUTE) : list byte :=
  match t with
  | [] => []
  | a :: t =>
    match pValue a with
    | Some v => if (a_type a =? CKA_LABEL) && (0 <? ulValueLen a)
                then take (Z.to_nat (ulValueLen a)) v else label_from_template t
    | None => label_from_template t
    end
  end.

Definition labelled (label : list byte) (o : HsmObject) : bool :=
  if decide (type_ o = DATA) then false
  else match findAttribute o CKA_LABEL with
       | Some v => negb (bool_decide (v = [])) && bool_decide (v = label)
       | None => false
       end.

Definition publish_rotation_event (env : Env) (st : P11) (s : Session) (label : list byte)
    (newHandles : list Z) : P11 :=
  if bool_decide (label = []) then st
  else match v_find_object_if (objectStore_ s) (labelled label) with
  | (_, None) => st
  | (oldHandle, Some _) =>
    if existsb (Z.eqb oldHandle) newHandles then st
    else
      let detail := json_object
        [json_number "old_handle" oldHandle; json_number "new_handle" (List.last newHandles 0);
         json_field "label" label] in
      p11_publish_event env st EventType.KEY_ROTATED Severity.WARNING (to_int (slotID_ s))
        (token_label_of st (handle_ s)) label
        (bytes_of "Key rotation: label '" ++ label ++ bytes_of "' replaced handle " ++ to_string oldHandle)
        detail None "C_GenerateKeyPair/C_GenerateKey"
  end.

Definition curve_from_params (pub : HsmObject) : Curve :=
  match findAttribute pub CKA_EC_PARAMS with
  | None => EccCurveType_P256
  | Some name =>
    if bool_decide (name = []) then EccCurveType_P256
    else if contains (bytes_of "P-384") name || contains (bytes_of "secp384r1") name then EccCurveType_P384
    else if contains (bytes_of "P-521") name || contains (bytes_of "secp521r1") name then EccCurveType_P521
    else EccCurveType_P256
  end.

Definition rsa_bits_from_template (priv : HsmObject) : Z :=
  match findAttribute priv CKA_MODULUS_BITS with
  | Some v => if len v =? 8 then
                let bits := le_value v in if 2048 <=? bits then to_int bits else 2048
              else 2048
  | None => 2048
  end.

(** The last [CKA_VALUE_LEN] of the template. *)
Definition template_key_len (t : list CK_ATTRIBUTE) : Z :=
  fold_left (fun n a => if (a_type a =? CKA_VALUE_LEN) && (ulValueLen a =? 8)
                        then deref_ulong (pValue a) else n) t 32.

Definition C_GenerateKey (rand : Z -> CK_RV * list byte) (env : Env) (st : P11) (hSession : Z)
    (pMechanism : option Z) (t : list CK_ATTRIBUTE) (phKey_null : bool) : CK_RV * option Z * P11 :=
  if negb (g_initialized st) then (CKR_CRYPTOKI_NOT_INITIALIZED, None, st)
  else match pMechanism with
  | None => (CKR_ARGUMENTS_BAD, None, st)
  | Some mech =>
    if phKey_null then (CKR_ARGUMENTS_BAD, None, st)
    else if negb (mech =? CKM_AES_KEY_GEN) then (CKR_MECHANISM_INVALID, None, st)
    else match p11_get_session st hSession with
    | None => (CKR_SESSION_HANDLE_INVALID, None, st)
    | Some s =>
      let keyLen := template_key_len t in
      if negb (one_of keyLen [16; 24; 32]) then (CKR_KEY_SIZE_RANGE, None, st)
      else
        let (rv, raw) := rand keyLen in
        if negb (rv =? CKR_OK) then (rv, None, st)
        else match create_with s (new_object SECRET_KEY true true false false) id t with
        | (rv, Some h, s) =>
          let s := with_objects s (update_object (objectStore_ s) h (fun o => put_attr o CKA_VALUE raw)) in
          let st := put_session st hSession s in
          (CKR_OK, Some h, publish_rotation_event env st s (label_from_template t) [h])
        | (rv, None, s) => (rv, None, put_session st hSession s)
        end
    end
  end.

Section KeyPairs.
Context `{O : OpenSSL} {G : KeyGen}.

(** The generated key of a mechanism: RSA or EC with its handle. *)
Definition generate_keypair (env : Env) (mech : Z) (pubT privT : list CK_ATTRIBUTE)
    : CK_RV + (bool * res (option EVP_PKEY)) :=
  if (mech =? CKM_RSA_PKCS_KEY_PAIR_GEN) || (mech =? CKM_RSA_X_509) then
    let tmpPriv := snd (p11_apply_template (new_object PRIVATE_KEY true true false true) privT) in
    inr (true, rsa_generate_key (rnd1 env) (rsa_bits_from_template tmpPriv))
  else if (mech =? CKM_EC_KEY_PAIR_GEN) || (mech =? CKM_ECDSA_KEY_PAIR_GEN) then
    let tmpPub := snd (p11_apply_template (new_object PUBLIC_KEY false true false false) pubT) in
    inr (false, ecc_generate_key (rnd1 env) (curve_from_params tmpPub))
  else inl CKR_MECHANISM_INVALID.

(** The template, then the key material, of one half. *)
Definition fill_key (isRsa isPrivate : bool) (k : EVP_PKEY) (t : list CK_ATTRIBUTE) (o : HsmObject)
    : CK_RV * HsmObject :=
  let (rv, o) := p11_apply_template o t in
  if rv =? CKR_OK then
    if isRsa then p11_store_key_rsa o (Some k) isPrivate else p11_store_key_ec o (Some k) isPrivate
  else (rv, o).

(** Both objects are created; a failure destroys both. *)
Definition store_keypair (store : v_ObjectStore_M1) (isRsa : bool) (k : EVP_PKEY)
    (pubT privT : list CK_ATTRIBUTE) : CK_RV * Z * Z * v_ObjectStore_M1 :=
  let freshPub := new_object PUBLIC_KEY false true false false in
  let freshPriv := new_object PRIVATE_KEY true true false true in
  let (hPub, store) := v_create_object store freshPub in
  let (rv, pub) := fill_key isRsa false k pubT freshPub in
  let store := update_object store hPub (fun _ => pub) in
  let (hPriv, store) := v_create_object store freshPriv in
  let (rv, priv) := if rv =? CKR_OK then fill_key isRsa true k privT freshPriv else (rv, freshPriv) in
  let store := update_object store hPriv (fun _ => priv) in
  if negb (rv =? CKR_OK)
  then (rv, hPub, hPriv, snd (v_destroy_object (snd (v_destroy_object store hPub)) hPriv))
  else (CKR_OK, hPub, hPriv, store).

Definition p11_generate_and_store_keypair (env : Env) (st : P11) (hSession : Z) (mech : Z)
    (pubT privT : list CK_ATTRIBUTE) (hOldPrivate : Z) : CK_RV * option (Z * Z) * P11 :=
  match p11_get_session st hSession with
  | None => (CKR_SESSION_HANDLE_INVALID, None, st)
  | Some s =>
    match generate_keypair env mech pubT privT with
    | inl rv => (rv, None, st)
    | inr (_, Throw e) => (c_catch (Throw e), None, st)
    | inr (_, Ok None) => (CKR_GENERAL_ERROR, None, st)
    | inr (isRsa, Ok (Some k)) =>
      let '(rv, hPub, hPriv, store) := store_keypair (objectStore_ s) isRsa k pubT privT in
      if negb (rv =? CKR_OK) then (rv, None, put_session st hSession (with_objects s store))
      else
        let store := if negb (hOldPrivate =? CK_INVALID_HANDLE)
                     then update_object store hOldPrivate (fun o => setKeyState o Rotating)
                     else store in
        let s := with_objects s store in
        let st := put_session st hSession s in
        let label := label_from_template privT in
        let label := if bool_decide (label = []) then label_from_template pubT else label in
        (CKR_OK, Some (hPub, hPriv), publish_rotation_event env st s label [hPub; hPriv])
    end
  end.

Definition C_GenerateKeyPair (env : Env) (st : P11) (hSession : Z) (pMechanism : option Z)
    (pubT privT : list CK_ATTRIBUTE) (out_null : bool) : CK_RV * option (Z * Z) * P11 :=
  if negb (g_initialized st) then (CKR_CRYPTOKI_NOT_INITIALIZED, None, st)
  else match pMechanism with
  | None => (CKR_ARGUMENTS_BAD, None, st)
  | Some mech =>
    if out_null then (CKR_ARGUMENTS_BAD, None, st)
    else p11_generate_and_store_keypair env st hSession mech pubT privT CK_INVALID_HANDLE
  end.

(** [ensure_attr]: inherit an attribute of the old key. *)
Definition ensure_attr (old : HsmObject) (dst : list CK_ATTRIBUTE) (t : Z) : list CK_ATTRIBUTE :=
  if existsb (fun a => a_type a =? t) dst then dst
  else match nonempty_attr old t with
       | Some v => dst ++ [mkAttr t (Some v) (len v)]
       | None => dst
       end.

Definition rotation_mechanism (old : HsmObject) : Z :=
  match findAttribute old CKA_KEY_TYPE with
  | Some kt => if (len kt =? 8) && (le_value kt =? CKK_RSA) then CKM_RSA_PKCS_KEY_PAIR_GEN
               else CKM_EC_KEY_PAIR_GEN
  | None => CKM_EC_KEY_PAIR_GEN
  end.

Definition p11_rotate_keypair (env : Env) (st : P11) (hSession hOldPrivate : Z)
    (pubT privT : list CK_ATTRIBUTE) (out_null : bool) : CK_RV * option (Z * Z) * P11 :=
  if negb (g_initialized st) then (CKR_CRYPTOKI_NOT_INITIALIZED, None, st)
  else if out_null then (CKR_ARGUMENTS_BAD, None, st)
  else match p11_get_session st hSession with
  | None => (CKR_SESSION_HANDLE_INVALID, None, st)
  | Some s =>
    match p11_get_object st hSession hOldPrivate with
    | None => (CKR_OBJECT_HANDLE_INVALID, None, st)
    | Some old =>
      if negb (bool_decide (type_ old = PRIVATE_KEY)) then (CKR_KEY_HANDLE_INVALID, None, st)
      else
        let pubT := ensure_attr old (ensure_attr old (ensure_attr old pubT CKA_LABEL) CKA_ID) CKA_EC_PARAMS in
        let privT := ensure_attr old (ensure_attr old (ensure_attr old privT CKA_LABEL) CKA_ID) CKA_MODULUS_BITS in
        p11_generate_and_store_keypair env st hSession (rotation_mechanism old) pubT privT hOldPrivate
    end
  end.

End KeyPairs.

(** ** Wrapping, unwrapping and derivation *)

Definition mech_label (m : Z) : list byte :=
  if m =? CKM_AES_KEY_WRAP then bytes_of "CKM_AES_KEY_WRAP"
  else if m =? CKM_RSA_PKCS then bytes_of "CKM_RSA_PKCS"
  else if m =? CKM_RSA_PKCS_OAEP then bytes_of "CKM_RSA_PKCS_OAEP"
  else if m =? CKM_ECDH1_DERIVE then bytes_of "CKM_ECDH1_DERIVE"
  else bytes_of "CKM_VENDOR_DEFINED".

(** The first attribute with key material that is not empty. *)
Definition raw_key_bytes (o : HsmObject) : option (list byte) :=
  match nonempty_attr o CKA_VALUE with
  | Some v => Some v
  | None =>
    match nonempty_attr o CKA_VHSM_RSA_PRIV with
    | Some v => Some v
    | None =>
      match nonempty_attr o CKA_VHSM_EC_PRIV with
      | Some v => Some v
      | None =>
        match nonempty_attr o CKA_VHSM_RSA_PUB with
        | Some v => Some v
        | None => nonempty_attr o CKA_VHSM_EC_PUB
        end
      end
    end
  end.

(** [CK_ECDH1_DERIVE_PARAMS]; the fields the code reads. *)
Record CK_ECDH1_DERIVE_PARAMS : Type := mkEcdhParams {
  pPublicData : option (list byte); ulPublicDataLen : Z }.

Section Wrapping.
Context `{O : OpenSSL} {G : KeyGen} `{C : Aes256}.

(** The key a blob decodes to: RSA first, then EC. *)
Definition probe_key (env : Env) (raw : list byte) : option EVP_PKEY :=
  let blank := new_object PRIVATE_KEY true true false true in
  match p11_build_key_from_attrs (shim env) (put_attr blank CKA_VHSM_RSA_PRIV raw) with
  | Some pk => Some pk
  | None => p11_build_key_from_attrs (shim env) (put_attr blank CKA_VHSM_EC_PRIV raw)
  end.

(** An object made from a template, and [store] on it once the template is in. *)
Definition create_and_store (s : Session) (fresh : HsmObject) (t : list CK_ATTRIBUTE)
    (store : HsmObject -> HsmObject) : CK_RV * option Z * Session :=
  match create_with s fresh id t with
  | (_, Some h, s) => (CKR_OK, Some h, with_objects s (update_object (objectStore_ s) h store))
  | r => r
  end.

Definition create_from_raw (env : Env) (s : Session) (raw : list byte) (t : list CK_ATTRIBUTE)
    : CK_RV * option Z * Session :=
  match probe_key env raw with
  | Some pk => create_and_store s (new_object PRIVATE_KEY true true false true) t
                 (fun o => snd (p11_store_key o pk true))
  | None =>
    if one_of (len raw) [16; 24; 32]
    then create_and_store s (new_object SECRET_KEY true true false false) t
           (fun o => snd (p11_store_secret o raw))
    else (CKR_WRAPPED_KEY_INVALID, None, s)
  end.

(** The padding and the digest of the two RSA wrapping mechanisms. *)
Definition rsa_wrap_params (mech : Z) : Padding * list byte :=
  if mech =? CKM_RSA_PKCS_OAEP then (RSA_PKCS1_OAEP_PADDING, bytes_of "SHA-256")
  else (RSA_PKCS1_PADDING, []).

(** The [CKA_VALUE] of the AES wrapping key, 32 bytes. *)
Definition kek_of (o : HsmObject) : option (list byte) :=
  match findAttribute o CKA_VALUE with
  | Some kek => if len kek =? 32 then Some kek else None
  | None => None
  end.

Definition wrap_bytes (env : Env) (mech : Z) (wkey : HsmObject) (raw : list byte) : CK_RV * list byte :=
  if mech =? CKM_AES_KEY_WRAP then
    match kek_of wkey with
    | None => (CKR_KEY_SIZE_RANGE, [])
    | Some kek =>
      match (let* kw := new_KeyWrap kek in wrap kw raw) with
      | Ok out => (CKR_OK, out)
      | Throw _ => (CKR_WRAPPED_KEY_INVALID, [])
      end
    end
  else if (mech =? CKM_RSA_PKCS) || (mech =? CKM_RSA_PKCS_OAEP) then
    match p11_evp_from_object (shim env) wkey with
    | None => (CKR_WRAPPING_KEY_HANDLE_INVALID, [])
    | Some wk => let (padding, md) := rsa_wrap_params mech in
                 p11_rsa_encrypt (rnd1 env) wk raw padding None md
    end
  else (CKR_MECHANISM_INVALID, []).

Definition unwrap_bytes (env : Env) (mech : Z) (ukey : HsmObject) (wrapped : list byte) : CK_RV * list byte :=
  if mech =? CKM_AES_KEY_WRAP then
    match kek_of ukey with
    | None => (CKR_KEY_SIZE_RANGE, [])
    | Some kek =>
      match (let* kw := new_KeyWrap kek in unwrap kw wrapped) with
      | Ok raw => (CKR_OK, raw)
      | Throw _ => (CKR_WRAPPED_KEY_INVALID, [])
      end
    end
  else if (mech =? CKM_RSA_PKCS) || (mech =? CKM_RSA_PKCS_OAEP) then
    match p11_evp_from_object (shim env) ukey with
    | None => (CKR_UNWRAPPING_KEY_HANDLE_INVALID, [])
    | Some uk => let (padding, md) := rsa_wrap_params mech in
                 p11_rsa_decrypt (rnd1 env) uk wrapped padding None md
    end
  else (CKR_MECHANISM_INVALID, []).

(** The event of a completed wrap or unwrap. *)
Definition publish_wrap_event (env : Env) (st : P11) (h : Z) (type : EventType.EventType)
    (name : string) (mech hKey : Z) (key : HsmObject) (field : list byte) : P11 :=
  let slot_id := match p11_get_session st h with Some s => to_int (slotID_ s) | None => 0 end in
  let label := p11_get_attr_bytes key CKA_LABEL in
  let key_info := if bool_decide (label = []) then to_string hKey else label in
  p11_publish_event env st type Severity.INFO slot_id (token_label_of st h) key_info
    (bytes_of name ++ bytes_of " completed using key " ++ key_info)
    (json_object [json_field "mechanism" (mech_label mech); field]) None name.

Definition C_WrapKey (env : Env) (st : P11) (hSession : Z) (pMechanism : option Z)
    (hWrappingKey hKey : Z) (out_null : bool) (pulWrappedKeyLen : option Z) : CK_RV * Output * P11 :=
  if negb (g_initialized st) then (CKR_CRYPTOKI_NOT_INITIALIZED, no_output, st)
  else match pMechanism, pulWrappedKeyLen with
  | Some mech, Some room =>
    match p11_get_session st hSession with
    | None => (CKR_SESSION_HANDLE_INVALID, no_output, st)
    | Some _ =>
      match p11_get_object st hSession hWrappingKey, p11_get_object st hSession hKey with
      | Some wkey, Some tkey =>
        let wst := p11_key_state_error (getKeyState wkey) false in
        if negb (wst =? CKR_OK) then (wst, no_output, st)
        else if negb (extractable_ tkey) then (CKR_KEY_UNEXTRACTABLE, no_output, st)
        else match raw_key_bytes tkey with
        | None => (CKR_KEY_HANDLE_INVALID, no_output, st)
        | Some raw =>
          let (rv, out) := wrap_bytes env mech wkey raw in
          if negb (rv =? CKR_OK) then (rv, no_output, st)
          else if out_null then (CKR_OK, mkOut (Some (len out)) [], st)
          else if room <? len out then (CKR_BUFFER_TOO_SMALL, mkOut (Some (len out)) [], st)
          else (CKR_OK, mkOut (Some (len out)) out,
                publish_wrap_event env st hSession EventType.WRAP_KEY_COMPLETED "C_WrapKey" mech
                  hWrappingKey wkey (json_number "wrapped_key_len" (len out)))
        end
      | _, _ => (CKR_KEY_HANDLE_INVALID, no_output, st)
      end
    end
  | _, _ => (CKR_ARGUMENTS_BAD, no_output, st)
  end.

Definition C_UnwrapKey (env : Env) (st : P11) (hSession : Z) (pMechanism : option Z)
    (hUnwrappingKey : Z) (pWrappedKey : option (list byte)) (ulWrappedKeyLen : Z)
    (t : list CK_ATTRIBUTE) (phKey_null : bool) : CK_RV * option Z * P11 :=
  if negb (g_initialized st) then (CKR_CRYPTOKI_NOT_INITIALIZED, None, st)
  else match pMechanism, pWrappedKey with
  | Some mech, Some wrapped =>
    if phKey_null then (CKR_ARGUMENTS_BAD, None, st)
    else match p11_get_session st hSession with
    | None => (CKR_SESSION_HANDLE_INVALID, None, st)
    | Some s =>
      match p11_get_object st hSession hUnwrappingKey with
      | None => (CKR_UNWRAPPING_KEY_HANDLE_INVALID, None, st)
      | Some ukey =>
        let ust := p11_key_state_error (getKeyState ukey) false in
        if negb (ust =? CKR_OK) then (ust, None, st)
        else
          let (rv, raw) := unwrap_bytes env mech ukey (input (Some wrapped) ulWrappedKeyLen) in
          if negb (rv =? CKR_OK) then (rv, None, st)
          else match create_from_raw env s raw t with
          | (crv, Some h, s) =>
            (crv, Some h, publish_wrap_event env (put_session st hSession s) hSession
               EventType.UNWRAP_KEY_COMPLETED "C_UnwrapKey" mech hUnwrappingKey ukey
               (json_number "new_key_handle" h))
          | (crv, None, s) => (crv, None, put_session st hSession s)
          end
      end
    end
  | _, _ => (CKR_ARGUMENTS_BAD, None, st)
  end.

(** The mechanism with its parameter, [None] when null or too short. *)
Definition C_DeriveKey (env : Env) (st : P11) (hSession : Z)
    (pMechanism : option (Z * option CK_ECDH1_DERIVE_PARAMS)) (hBaseKey : Z)
    (t : list CK_ATTRIBUTE) (phKey_null : bool) : CK_RV * option Z * P11 :=
  if negb (g_initialized st) then (CKR_CRYPTOKI_NOT_INITIALIZED, None, st)
  else match pMechanism with
  | None => (CKR_ARGUMENTS_BAD, None, st)
  | Some (mech, params) =>
    if phKey_null then (CKR_ARGUMENTS_BAD, None, st)
    else if negb (mech =? CKM_ECDH1_DERIVE) then (CKR_MECHANISM_INVALID, None, st)
    else match p11_get_session st hSession with
    | None => (CKR_SESSION_HANDLE_INVALID, None, st)
    | Some s =>
      match p11_get_object st hSession hBaseKey with
      | None => (CKR_KEY_HANDLE_INVALID, None, st)
      | Some bkey =>
        match p11_evp_from_object (shim env) bkey with
        | None => (CKR_KEY_HANDLE_INVALID, None, st)
        | Some priv =>
          match params with
          | None => (CKR_MECHANISM_PARAM_INVALID, None, st)
          | Some p =>
            match pPublicData p with
            | None => (CKR_MECHANISM_PARAM_INVALID, None, st)
            | Some pub =>
              if ulPublicDataLen p =? 0 then (CKR_MECHANISM_PARAM_INVALID, None, st)
              else match d2i_PUBKEY (input (Some pub) (ulPublicDataLen p)) with
              | None => (CKR_MECHANISM_PARAM_INVALID, None, st)
              | Some peer =>
                let secret := p11_ecdh_derive priv peer in
                if bool_decide (secret = []) then (CKR_GENERAL_ERROR, None, st)
                else match create_and_store s (new_object SECRET_KEY true true false false) t
                             (fun o => snd (p11_store_secret o secret)) with
                | (rv, Some h, s') =>
                  (CKR_OK, Some h, p11_publish_event env (put_session st hSession s')
                     EventType.KEY_ROTATED Severity.INFO (to_int (slotID_ s))
                     (token_label_of st hSession) (to_string hBaseKey)
                     (bytes_of "C_DeriveKey (ECDH1) completed from base key " ++ to_string hBaseKey)
                     (json_object [json_field "mechanism" (bytes_of "CKM_ECDH1_DERIVE");
                                   json_number "new_key_handle" h]) None "C_DeriveKey")
                | (rv, None, s') => (rv, None, put_session st hSession s')
                end
              end
            end
          end
        end
      end
    end
  end.

End Wrapping.

(** ** Lemmas *)

(** Events do not touch the sessions. *)
Lemma get_session_event env st ty sev id tl k su de u au h :
  p11_get_session (p11_publish_event env st ty sev id tl k su de u au) h = p11_get_session st h.
Proof. unfold p11_publish_event. by destruct (negb _). Qed.

Lemma get_session_rotation env st s l hs h :
  p11_get_session (publish_rotation_event env st s l hs) h = p11_get_session st h.
Proof.
  unfold publish_rotation_event. destruct (bool_decide _); [done|].
  destruct (v_find_object_if _ _) as [o [x|]]; [|done]. destruct (existsb _ _); [done|]. apply get_session_event.
Qed.

Lemma get_object_session st st' h o :
  p11_get_session st' h = p11_get_session st h -> p11_get_object st' h o = p11_get_object st h o.
Proof. unfold p11_get_object. by intros ->. Qed.

Lemma put_attr_lookup o t v t' :
  findAttribute (put_attr o t v) t' = if t' =? t then Some v else findAttribute o t'.
Proof.
  unfold findAttribute, put_attr. cbn [attrs_ with_attrs].
  destruct (Z.eqb_spec t' t) as [->|]; [by rewrite lookup_insert_eq|by rewrite lookup_insert_ne].
Qed.

Lemma create_fails_lookups s fresh f t rv s' :
  wf_store (objectStore_ s) -> has_room (objectStore_ s) -> create_with s fresh f t = (rv, None, s') ->
  forall h', is_u64 h' -> v_get_object (objectStore_ s') h' = v_get_object (objectStore_ s) h'.
Proof.
  intros Hwf Hroom H. unfold create_with in H.
  pose proof (create_get (objectStore_ s) fresh Hwf Hroom) as Hc.
  destruct (v_create_object (objectStore_ s) fresh) as [h1 st1]. destruct Hc as (Hwf1 & Hh & Hn & Hget).
  destruct (update_get st1 h1 f Hwf1 Hh) as [Hwf2 Hget2].
  set (g := fun o => snd (p11_apply_template o t)) in *.
  destruct (update_get _ h1 g Hwf2 Hh) as [Hwf3 Hget3].
  destruct (negb _); [|discriminate]. injection H as _ <-. cbn [with_objects objectStore_].
  pose proof (destroy_get _ h1 Hwf3 Hh) as Hd. destruct (v_destroy_object _ h1) as [b st4].
  destruct Hd as (_ & _ & Hd). intros h' Hh'. cbn [snd]. rewrite Hd, Hget3, !Hget2, !Hget by done.
  by destruct (Z.eqb_spec h' h1) as [->|].
Qed.

Lemma create_and_store_ok s fresh t f :
  wf_store (objectStore_ s) -> has_room (objectStore_ s) ->
  fst (p11_apply_template fresh t) = CKR_OK ->
  exists h s', create_and_store s fresh t f = (CKR_OK, Some h, s') /\ handle_ s' = handle_ s /\
    is_u64 h /\ v_get_object (objectStore_ s) h = None /\ wf_store (objectStore_ s') /\
    (forall h', is_u64 h' -> v_get_object (objectStore_ s') h' =
       if h' =? h then Some (f (snd (p11_apply_template fresh t))) else v_get_object (objectStore_ s) h').
Proof.
  intros Hwf Hroom Ht. unfold create_and_store. pose proof (create_with_handle s fresh id t) as Hh.
  destruct (create_with s fresh id t) as [[rv [h|]] s'] eqn:E.
  - destruct (create_with_ok _ _ _ _ _ _ _ Hwf Hroom E) as (_ & _ & Hu & Hn & Hwf' & Hget).
    destruct (update_get (objectStore_ s') h f Hwf' Hu) as [Hwf2 Hget2].
    eexists h, _. split; [done|]. split; [done|]. split; [done|]. split; [done|].
    cbn [with_objects objectStore_]. split; [done|].
    intros h' Hh'. rewrite Hget2, !Hget, Z.eqb_refl by done. by destruct (h' =? h).
  - unfold create_with in E. destruct (v_create_object _ _) as [h1 st1].
    change (id fresh) with fresh in E. rewrite Ht in E. discriminate.
Qed.

Section KeyPairLemmas.
Context `{O : OpenSSL} {G : KeyGen}.

Definition fresh_pub : HsmObject := new_object PUBLIC_KEY false true false false.
Definition fresh_priv : HsmObject := new_object PRIVATE_KEY true true false true.

(** Creation of a second object, the table having grown by one at most. *)
Lemma create_room (s : v_ObjectStore_M1) o h s' f :
  v_create_object s o = (h, s') -> len (v_table_ s) + 1 < UINT32_MAX -> has_room (update_object s' h f).
Proof.
  intros E Hr. apply room_from_len. pose proof (table_length_step s (OpCreate o)) as H1.
  pose proof (table_length_step s' (OpUpdate h f)) as H2. cbn [step op_creates] in *. rewrite E in H1. cbn [snd] in H1. lia.
Qed.

Lemma store_keypair_spec store isRsa k pubT privT :
  wf_store store -> len (v_table_ store) + 1 < UINT32_MAX ->
  let '(rv, hPub, hPriv, store') := store_keypair store isRsa k pubT privT in
  wf_store store' /\
  (rv <> CKR_OK -> forall h, is_u64 h -> v_get_object store' h = v_get_object store h) /\
  (rv = CKR_OK -> exists pub priv,
     fill_key isRsa false k pubT fresh_pub = (CKR_OK, pub) /\
     fill_key isRsa true k privT fresh_priv = (CKR_OK, priv) /\
     is_u64 hPub /\ is_u64 hPriv /\ hPub <> hPriv /\
     v_get_object store hPub = None /\ v_get_object store hPriv = None /\
     forall h, is_u64 h -> v_get_object store' h =
       if h =? hPub then Some pub else if h =? hPriv then Some priv else v_get_object store h).
Proof.
  intros Hwf Hr. unfold store_keypair. fold fresh_pub fresh_priv.
  pose proof (create_get store fresh_pub Hwf (room_from_len store ltac:(lia))) as H1.
  destruct (v_create_object store fresh_pub) as [hPub st1] eqn:E1. destruct H1 as (Hwf1 & Hu1 & Hn1 & Hg1).
  destruct (fill_key isRsa false k pubT fresh_pub) as [rv1 pub] eqn:F1.
  destruct (update_get st1 hPub (fun _ => pub) Hwf1 Hu1) as [Hwf2 Hg2].
  pose proof (create_get _ fresh_priv Hwf2 (create_room _ _ _ _ _ E1 Hr)) as H3.
  destruct (v_create_object (update_object st1 hPub _) fresh_priv) as [hPriv st3].
  destruct H3 as (Hwf3 & Hu3 & Hn3 & Hg3).
  set (filled := if rv1 =? CKR_OK then _ else _). destruct filled as [rv priv] eqn:F2. unfold filled in F2.
  destruct (update_get st3 hPriv (fun _ => priv) Hwf3 Hu3) as [Hwf4 Hg4].
  rewrite Hg2, !Hg1, Z.eqb_refl in Hn3 by done.
  destruct (Z.eqb_spec hPriv hPub) as [|Hne]; [discriminate|].
  assert (Hget : forall h, is_u64 h -> v_get_object (update_object st3 hPriv (fun _ => priv)) h =
    if h =? hPub then Some pub else if h =? hPriv then Some priv else v_get_object store h).
  { intros h Hh. rewrite Hg4, !Hg3, Z.eqb_refl, !Hg2, !Hg1, Z.eqb_refl by done. cbn [option_map].
    destruct (Z.eqb_spec h hPriv) as [->|]; [by rewrite (proj2 (Z.eqb_neq _ _) Hne)|by destruct (h =? hPub)]. }
  destruct (Z.eqb_spec rv CKR_OK) as [->|Erv]; cbn [negb].
  - split; [done|]. split; [done|]. intros _. exists pub, priv.
    destruct (Z.eqb_spec rv1 CKR_OK) as [->|]; [|by injection F2]. by split_and!; [..|auto|].
  - pose proof (destroy_get _ hPub Hwf4 Hu1) as Hd. destruct (v_destroy_object _ hPub) as [b st5].
    destruct Hd as (Hwf5 & _ & Hg5). cbn [snd].
    pose proof (destroy_get _ hPriv Hwf5 Hu3) as Hd. destruct (v_destroy_object _ hPriv) as [b' st6].
    destruct Hd as (Hwf6 & _ & Hg6). cbn [snd]. split; [done|]. split; [|done]. intros _ h Hh.
    rewrite Hg6, Hg5, Hget by done.
    destruct (Z.eqb_spec h hPriv) as [->|]; [done|]. by destruct (Z.eqb_spec h hPub) as [->|].
Qed.

(** The attributes key material is stored in. *)
Definition material_types : list Z :=
  [CKA_VHSM_EC_PRIV; CKA_EC_PARAMS; CKA_EC_POINT; CKA_CLASS; CKA_VHSM_RSA_PRIV; CKA_VHSM_RSA_PUB].

Lemma put_attr_other o t v ty :
  t ∈ material_types -> ty ∉ material_types -> findAttribute (put_attr o t v) ty = findAttribute o ty.
Proof.
  intros Ht Hty. rewrite put_attr_lookup. destruct (Z.eqb_spec ty t) as [->|]; [done|done].
Qed.

Lemma fill_key_frame isRsa priv k t o o' :
  fill_key isRsa priv k t o = (CKR_OK, o') ->
  fst (p11_apply_template o t) = CKR_OK /\ type_ o' = type_ o /\ extractable_ o' = extractable_ o /\
  forall ty, ty ∉ material_types -> findAttribute o' ty = findAttribute (snd (p11_apply_template o t)) ty.
Proof.
  unfold fill_key. pose proof (apply_template_frame t o) as (<- & _ & <- & _).
  destruct (p11_apply_template o t) as [rv x]. cbn [fst snd].
  destruct (Z.eqb_spec rv CKR_OK) as [->|]; [|congruence]. intros H. split; [done|].
  unfold p11_store_key_rsa, p11_store_key_ec, store_class in H.
  destruct isRsa, priv;
  repeat match type of H with
         | context [i2d_RSAPrivateKey k] => destruct (i2d_RSAPrivateKey k)
         | context [i2d_RSAPublicKey k] => destruct (i2d_RSAPublicKey k)
         | context [i2d_ECPrivateKey k] => destruct (i2d_ECPrivateKey k)
         | context [i2d_ECPKParameters k] => destruct (i2d_ECPKParameters k)
         | context [point2oct k] => destruct (point2oct k)
         end; cbn [fst snd] in H; try (injection H; discriminate); injection H as <-;
  (split; [reflexivity|]; split; [reflexivity|]); intros ty Hty;
  rewrite !put_attr_other by (done || (apply (bool_decide_unpack _); vm_compute; exact I)); done.
Qed.

Lemma ensure_attr_spec old dst t ty :
  (ty <> t -> ty ∉ map a_type dst -> ty ∉ map a_type (ensure_attr old dst t)) /\
  (NoDup (map a_type dst) -> NoDup (map a_type (ensure_attr old dst t))) /\
  (forall a, a ∈ dst -> a ∈ ensure_attr old dst t) /\
  (forall v, t ∉ map a_type dst -> nonempty_attr old t = Some v -> mkAttr t (Some v) (len v) ∈ ensure_attr old dst t).
Proof.
  unfold ensure_attr. destruct (existsb _ dst) eqn:E.
  - split_and!; [done..|]. intros v Hn _. apply existsb_exists in E as (a & Ha & Et).
    apply Z.eqb_eq in Et. subst t. exfalso. apply Hn. apply list_elem_of_In, in_map, Ha.
  - assert (Hn : t ∉ map a_type dst).
    { intros Hin. apply list_elem_of_In, in_map_iff in Hin as (a & <- & Ha).
      assert (existsb (fun b => a_type b =? a_type a) dst = true); [|congruence].
      apply existsb_exists. exists a. by rewrite Z.eqb_refl. }
    destruct (nonempty_attr old t) as [w|]; [|by split_and!]. rewrite map_app. cbn [map a_type]. split_and!.
    + intros Hne Hd. rewrite elem_of_app, list_elem_of_singleton. by intros [?|?].
    + intros Hd. apply list.NoDup_app. split_and!; [done| |apply NoDup_singleton].
      intros x Hx ->%list_elem_of_singleton. done.
    + intros a Ha. apply elem_of_app. by left.
    + intros v _ [= <-]. apply elem_of_app. right. by apply list_elem_of_singleton.
Qed.

End KeyPairLemmas.

Section Rotation.
Context `{O : OpenSSL} {G : KeyGen}.
Context (env : Env) (st : P11) (h : Z) (s : Session).
Hypotheses (Hwf : wf_p11 st) (Hs : p11_get_session st h = Some s) (Hst : wf_store (objectStore_ s))
  (Hroom : len (v_table_ (objectStore_ s)) + 1 < UINT32_MAX).

(** What the session [h] sees of [st'] when it changed to [s']. *)
Lemma put_session_object st' s' o :
  handle_ s' = handle_ s -> (forall k, p11_get_session st' k = p11_get_session (put_session st h s') k) ->
  p11_get_object st' h o = v_get_object (objectStore_ s') o /\
  (forall k, k <> h -> p11_get_session st' k = p11_get_session st k).
Proof using Hwf Hs.
  intros Hh He. split; [|intros k Hk]; unfold p11_get_object; rewrite He;
  rewrite (proj2 (put_back st h s s' _ Hwf Hs Hh)); [by rewrite Z.eqb_refl|by rewrite (proj2 (Z.eqb_neq _ _) Hk)].
Qed.

Lemma catch_not_ok (e : exn) : c_catch (Throw e) <> CKR_OK.
Proof. by destruct e. Qed.

(** The lookups after [p11_generate_and_store_keypair]. *)
Definition after_generation (st' : P11) (pubT privT : list CK_ATTRIBUTE) (hOld hPub hPriv : Z) : Prop :=
  exists isRsa k pub priv,
    fill_key isRsa false k pubT fresh_pub = (CKR_OK, pub) /\
    fill_key isRsa true k privT fresh_priv = (CKR_OK, priv) /\
    is_u64 hPub /\ is_u64 hPriv /\ hPub <> hPriv /\
    p11_get_object st h hPub = None /\ p11_get_object st h hPriv = None /\
    forall o, is_u64 o -> p11_get_object st' h o =
      if o =? hPub then Some pub else if o =? hPriv then Some priv
      else if (o =? hOld) && negb (hOld =? CK_INVALID_HANDLE)
      then option_map (fun x => setKeyState x Rotating) (p11_get_object st h o)
      else p11_get_object st h o.

Lemma generate_spec mech pubT privT hOld rv r st' :
  hOld = CK_INVALID_HANDLE \/ (is_u64 hOld /\ p11_get_object st h hOld <> None) ->
  p11_generate_and_store_keypair env st h mech pubT privT hOld = (rv, r, st') ->
  (forall k, k <> h -> p11_get_session st' k = p11_get_session st k) /\
  match r with
  | None => rv <> CKR_OK /\ forall o, is_u64 o -> p11_get_object st' h o = p11_get_object st h o
  | Some (hPub, hPriv) => rv = CKR_OK /\ after_generation st' pubT privT hOld hPub hPriv
  end.
Proof using Hwf Hs Hst Hroom.
  intros Hold. unfold p11_generate_and_store_keypair. rewrite Hs.
  destruct (generate_keypair env mech pubT privT) as [rv0|[isRsa [[k|]|e]]] eqn:Eg;
    [| |by intros [= <- <- <-]|intros [= <- <- <-]; split; [done|]; split; [apply catch_not_ok|done]].
  { intros [= <- <- <-]. split; [done|]. split; [|done]. intros ->. unfold generate_keypair in Eg. by split_ifs_in Eg. }
  pose proof (store_keypair_spec (objectStore_ s) isRsa k pubT privT Hst Hroom) as Hk.
  destruct (store_keypair _ isRsa k pubT privT) as [[[rv1 hPub] hPriv] store]. destruct Hk as (Hwfs & Hf & Hok).
  assert (Hobj : forall o, p11_get_object st h o = v_get_object (objectStore_ s) o)
    by (intros o; unfold p11_get_object; by rewrite Hs).
  destruct (Z.eqb_spec rv1 CKR_OK) as [->|Hrv]; cbn [negb].
  2:{ intros [= <- <- <-]. split; [by apply (put_session_object _ (with_objects s store) 0)|]. split; [done|]. intros o Ho.
      rewrite Hobj, <- (Hf Hrv o Ho). by apply (put_session_object _ (with_objects s store) o). }
  destruct (Hok eq_refl) as (pub & priv & F1 & F2 & Hu1 & Hu2 & Hne & Hn1 & Hn2 & Hget). clear Hf Hok.
  set (store2 := if negb (hOld =? CK_INVALID_HANDLE) then _ else store). intros [= <- <- <-].
  match goal with |- context [publish_rotation_event env ?x ?y ?l ?hs] => set (st' := publish_rotation_event env x y l hs) end.
  assert (Hst' : forall k, p11_get_session st' k = p11_get_session (put_session st h (with_objects s store2)) k)
    by (intros; apply get_session_rotation).
  split; [by apply (put_session_object st' (with_objects s store2) 0)|]. split; [done|].
  exists isRsa, k, pub, priv. rewrite !Hobj. split_and!; [done..|]. intros o Ho.
  rewrite (proj1 (put_session_object st' (with_objects s store2) o eq_refl Hst')). cbn [with_objects objectStore_].
  unfold store2. rewrite Hobj. destruct (Z.eqb_spec hOld CK_INVALID_HANDLE) as [E|E]; cbn [negb].
  - rewrite Hget by done. by rewrite andb_false_r.
  - destruct Hold as [?|[Hu Hn]]; [done|]. rewrite Hobj in Hn.
    destruct (update_get store hOld (fun x => setKeyState x Rotating) Hwfs Hu) as [_ Hup].
    rewrite Hup, !Hget, andb_true_r by done. destruct (Z.eqb_spec o hOld) as [->|]; [|done].
    assert (hOld <> hPub /\ hOld <> hPriv) as [H1 H2] by (split; congruence).
    by rewrite (proj2 (Z.eqb_neq _ _) H1), (proj2 (Z.eqb_neq _ _) H2).
Qed.

End Rotation.

Lemma key_state_attr o o' :
  findAttribute o' CKA_VHSM_KEY_STATE = findAttribute o CKA_VHSM_KEY_STATE -> getKeyState o' = getKeyState o.
Proof. unfold getKeyState. by intros ->. Qed.

Lemma rotating_state o : getKeyState (setKeyState o Rotating) = Rotating.
Proof.
  change (setKeyState o Rotating) with (put_attr o CKA_VHSM_KEY_STATE [x01]).
  unfold getKeyState. by rewrite put_attr_lookup, Z.eqb_refl.
Qed.

Section RotationTheorem.
Context `{O : OpenSSL} {G : KeyGen}.

(** Rotating a private key either fails and leaves every object of the
    session as it was, or it marks exactly that key as rotating, which may
    still verify and decrypt but no longer sign, and adds two objects at fresh
    handles: the new private key is active and carries the label of the old
    one, unless the caller's template says otherwise.  No other object and no
    other session changes. *)
Theorem rotation_supersedes (env : Env) (st st' : P11) (h hOld : Z) (s : Session) (old : HsmObject)
    (pubT privT : list CK_ATTRIBUTE) (rv : CK_RV) (r : option (Z * Z))
    (Hwf : wf_p11 st) (Hs : p11_get_session st h = Some s) (Hst : wf_store (objectStore_ s))
    (Hroom : len (v_table_ (objectStore_ s)) + 1 < UINT32_MAX)
    (Hu : is_u64 hOld) (Hnz : hOld <> CK_INVALID_HANDLE) (Hold : p11_get_object st h hOld = Some old)
    (Hr : p11_rotate_keypair env st h hOld pubT privT false = (rv, r, st')) :
  (forall k, k <> h -> p11_get_session st' k = p11_get_session st k) /\
  match r with
  | None => rv <> CKR_OK /\ forall o, is_u64 o -> p11_get_object st' h o = p11_get_object st h o
  | Some (hPub, hPriv) =>
    rv = CKR_OK /\ type_ old = PRIVATE_KEY /\
    p11_get_object st h hPub = None /\ p11_get_object st h hPriv = None /\
    (exists old', p11_get_object st' h hOld = Some old' /\ key_can_sign (getKeyState old') = false /\
       key_can_verify (getKeyState old') = true /\ key_can_decrypt (getKeyState old') = true) /\
    (exists priv, p11_get_object st' h hPriv = Some priv /\ type_ priv = PRIVATE_KEY /\
       (CKA_VHSM_KEY_STATE ∉ map a_type privT -> key_can_sign (getKeyState priv) = true) /\
       (forall l, NoDup (map a_type privT) -> CKA_LABEL ∉ map a_type privT ->
          nonempty_attr old CKA_LABEL = Some l -> findAttribute priv CKA_LABEL = Some l)) /\
    (forall o, is_u64 o -> o <> hOld -> o <> hPub -> o <> hPriv -> p11_get_object st' h o = p11_get_object st h o)
  end.
Proof.
  unfold p11_rotate_keypair in Hr. destruct (g_initialized st); [|by injection Hr as <- <- <-].
  cbn [negb] in Hr. rewrite Hs, Hold in Hr.
  case_bool_decide as Ht; [|by injection Hr as <- <- <-]. cbn [negb] in Hr.
  set (privT' := ensure_attr old (ensure_attr old (ensure_attr old privT CKA_LABEL) CKA_ID) CKA_MODULUS_BITS) in Hr.
  assert (Hex : p11_get_object st h hOld <> None) by (by rewrite Hold).
  destruct (generate_spec env st h s Hwf Hs Hst Hroom _ _ _ _ _ _ _ (or_intror (conj Hu Hex)) Hr) as [Hk H].
  split; [done|].
  destruct r as [[hPub hPriv]|]; [|done]. destruct H as (-> & isRsa & k & pub & priv & F1 & F2 & Hu1 & Hu2 & Hne & Hn1 & Hn2 & Hget).
  destruct (fill_key_frame _ _ _ _ _ _ F2) as (Fok & Fty & _ & Fat).
  assert (hOld <> hPub /\ hOld <> hPriv) as [H1 H2] by (split; congruence).
  split_and!; [done..| | |].
  - eexists. rewrite Hget, (proj2 (Z.eqb_neq _ _) H1), (proj2 (Z.eqb_neq _ _) H2), Z.eqb_refl,
      (proj2 (Z.eqb_neq _ _) Hnz), Hold by done. split; [done|]. rewrite rotating_state. by vm_compute.
  - exists priv. rewrite Hget, (proj2 (Z.eqb_neq hPriv hPub)), Z.eqb_refl by done. split_and!; [done|by rewrite Fty| |].
    + intros Hns. rewrite (key_state_attr fresh_priv); [by vm_compute|]. rewrite Fat by (apply (bool_decide_unpack _); vm_compute; exact I).
      apply apply_template_other. repeat (apply (ensure_attr_spec old); [done|]). done.
    + intros l Hnd Hnl Hl. rewrite Fat by (apply (bool_decide_unpack _); vm_compute; exact I).
      refine (apply_template_lookup privT' fresh_priv (mkAttr CKA_LABEL (Some l) (len l)) l _ _ eq_refl eq_refl eq_refl Fok).
      * by repeat apply (ensure_attr_spec old _ _ 0).
      * do 2 apply (ensure_attr_spec old _ _ 0). by apply (ensure_attr_spec old _ _ 0).
  - intros o Ho Ho1 Ho2 Ho3. by rewrite Hget, (proj2 (Z.eqb_neq o hPub)), (proj2 (Z.eqb_neq o hPriv)),
      (proj2 (Z.eqb_neq o hOld)).
Qed.

End RotationTheorem.

Section WrapTheorems.
Context `{O : OpenSSL} {G : KeyGen} `{C : Aes256} {L : Aes256Laws C}.

Lemma get_session_wrap_event env st h ty name mech hK key field k :
  p11_get_session (publish_wrap_event env st h ty name mech hK key field) k = p11_get_session st k.
Proof. apply get_session_event. Qed.

(** Nothing about a key leaves [C_WrapKey], its length included, unless it is
    extractable and the wrapping key is not revoked; no object changes. *)
Lemma wrap_only_extractable env st h mech hW hK null room rv out st' :
  C_WrapKey env st h mech hW hK null room = (rv, out, st') ->
  (forall k, p11_get_session st' k = p11_get_session st k) /\
  (out <> no_output -> exists wkey tkey,
     p11_get_object st h hW = Some wkey /\ p11_get_object st h hK = Some tkey /\
     key_can_wrap (getKeyState wkey) = true /\ extractable_ tkey = true).
Proof.
  unfold C_WrapKey. intros H.
  destruct (g_initialized st); [|by injection H as <- <- <-]. cbn [negb] in H.
  destruct mech as [mech|]; [|by injection H as <- <- <-]. destruct room as [room|]; [|by injection H as <- <- <-].
  destruct (p11_get_session st h); [|by injection H as <- <- <-].
  destruct (p11_get_object st h hW) as [wkey|]; [|by injection H as <- <- <-].
  destruct (p11_get_object st h hK) as [tkey|]; [|by injection H as <- <- <-].
  destruct (Z.eqb_spec (p11_key_state_error (getKeyState wkey) false) CKR_OK) as [E|]; cbn [negb] in H;
    [|by injection H as <- <- <-]. apply key_state_gate_use in E.
  destruct (extractable_ tkey) eqn:Ex; cbn [negb] in H; [|by injection H as <- <- <-].
  split; [|by exists wkey, tkey].
  destruct (raw_key_bytes tkey); [|by injection H as <- <- <-]. destruct (wrap_bytes _ _ _ _) as [rv0 o].
  destruct (negb _); [by injection H as <- <- <-|]. destruct null; [by injection H as <- <- <-|].
  destruct (room <? len o); injection H as <- <- <-; [done|]. intros k. apply get_session_wrap_event.
Qed.

(** Wrapping under an AES key and its result. *)
Lemma aes_wrap_bytes env wkey kek raw :
  kek_of wkey = Some kek -> one_of (len raw) [16; 24; 32] = true ->
  exists c, wrap_bytes env CKM_AES_KEY_WRAP wkey raw = (CKR_OK, c) /\ len c = len raw + 8 /\
    unwrap_bytes env CKM_AES_KEY_WRAP wkey c = (CKR_OK, raw).
Proof.
  intros Hk Hl. unfold wrap_bytes, unwrap_bytes. rewrite Z.eqb_refl, Hk. unfold new_KeyWrap.
  assert ((len kek =? 32) = true) as ->
    by (unfold kek_of in Hk; destruct (findAttribute _ _) as [v|]; [|done]; destruct (len v =? 32) eqn:E; by inversion Hk; subst).
  cbn [check rbind].
  assert (Hw : wrappable raw = true).
  { unfold wrappable, one_of in *. cbn [existsb] in Hl. rewrite !orb_true_iff, !Z.eqb_eq in Hl.
    by destruct Hl as [-> | [-> | [-> |]]]. }
  destruct (wrap_eq (mkKeyWrap kek) raw Hw) as [[_ Hlen] E]. rewrite E.
  eexists. split; [done|]. split.
  - rewrite len_app. unfold len at 1 2. rewrite length_le_digits, Hlen.
    unfold wrappable in Hw. apply andb_true_iff in Hw as [_ Hm]. apply Z.eqb_eq, mult8 in Hm. unfold len. lia.
  - by rewrite (unwrap_wrap _ _ _ E).
Qed.

(** C32: An AES key that leaves under AES key wrap comes back: wrapping an extractable
    secret of 16, 24 or 32 bytes under a 32-byte key that is not revoked succeeds with
    eight bytes more than the secret, and unwrapping the result gives, at a fresh
    handle, a secret key with the same value and the attributes of the template; every
    other object is unchanged.  (A secret of another length is not covered: one of 48
    bytes wraps and is refused by the unwrapping, one of 20 bytes does not wrap.  A
    blob that decodes as an RSA or EC private key is stored as that key instead.) *)
Theorem wrapped_key_unwraps (env : Env) (st : P11) (h hW hK room : Z) (s : Session) (wkey tkey : HsmObject)
    (kek raw : list byte) (t : list CK_ATTRIBUTE)
    (Hi : g_initialized st = true) (Hwf : wf_p11 st) (Hs : p11_get_session st h = Some s)
    (Hst : wf_store (objectStore_ s)) (Hroom : has_room (objectStore_ s))
    (Hw : p11_get_object st h hW = Some wkey) (Hkek : kek_of wkey = Some kek)
    (Hstate : key_can_wrap (getKeyState wkey) = true)
    (Hk : p11_get_object st h hK = Some tkey) (Hex : extractable_ tkey = true)
    (Hraw : raw_key_bytes tkey = Some raw) (Hlen : one_of (len raw) [16; 24; 32] = true)
    (Hder : probe_key env raw = None) (Hbuf : len raw + 8 <= room)
    (Ht : fst (p11_apply_template (new_object SECRET_KEY true true false false) t) = CKR_OK) :
  exists c st1 o st2 x,
    C_WrapKey env st h (Some CKM_AES_KEY_WRAP) hW hK false (Some room)
      = (CKR_OK, mkOut (Some (len raw + 8)) c, st1) /\
    C_UnwrapKey env st1 h (Some CKM_AES_KEY_WRAP) hW (Some c) (len c) t false = (CKR_OK, Some o, st2) /\
    p11_get_object st h o = None /\ p11_get_object st2 h o = Some x /\
    type_ x = SECRET_KEY /\ raw_key_bytes x = Some raw /\
    (forall ty, ty <> CKA_VALUE -> findAttribute x ty =
       findAttribute (snd (p11_apply_template (new_object SECRET_KEY true true false false) t)) ty) /\
    (forall o', is_u64 o' -> o' <> o -> p11_get_object st2 h o' = p11_get_object st h o').
Proof.
  destruct (aes_wrap_bytes env wkey kek raw Hkek Hlen) as (c & Ew & Hc & Eu).
  apply key_state_gate_use in Hstate.
  set (fresh := new_object SECRET_KEY true true false false) in *.
  destruct (create_and_store_ok s fresh t (fun o => snd (p11_store_secret o raw)) Hst Hroom Ht)
    as (o & s' & Ec & Hh & Hu & Hn & _ & Hget).
  set (st1 := publish_wrap_event env st h EventType.WRAP_KEY_COMPLETED "C_WrapKey" CKM_AES_KEY_WRAP
                hW wkey (json_number "wrapped_key_len" (len c))).
  assert (Hs1 : forall k, p11_get_session st1 k = p11_get_session st k) by (intros; apply get_session_wrap_event).
  assert (Hi1 : g_initialized st1 = true)
    by (unfold st1, publish_wrap_event, p11_publish_event; by destruct (negb _)).
  assert (Hwf1 : wf_p11 st1)
    by (unfold st1, publish_wrap_event, p11_publish_event; by destruct (negb _)).
  eexists c, st1, o, _, (snd (p11_store_secret (snd (p11_apply_template fresh t)) raw)).
  assert (Hobj : forall s2, p11_get_session s2 h = Some s' -> forall o', is_u64 o' -> p11_get_object s2 h o' =
    if o' =? o then Some (snd (p11_store_secret (snd (p11_apply_template fresh t)) raw)) else p11_get_object st h o').
  { intros s2 E o' Ho'. unfold p11_get_object. rewrite E, Hs. by apply Hget. }
  split_and!.
  - unfold C_WrapKey. rewrite Hi, Hs, Hw, Hk, Hstate, Hex, Hraw, Ew. cbn [negb Z.eqb CKR_OK].
    rewrite (proj2 (Z.ltb_ge room (len c))) by lia. by rewrite <- Hc.
  - unfold C_UnwrapKey. rewrite Hi1, Hs1, Hs, (get_object_session st st1) by apply Hs1.
    rewrite Hw, Hstate. unfold input. change (default [] (Some c)) with c. rewrite take_ge by (unfold len; lia). rewrite Eu.
    unfold create_from_raw. rewrite Hder, Hlen. fold fresh. rewrite Ec. reflexivity.
  - unfold p11_get_object. by rewrite Hs.
  - rewrite Hobj; [by rewrite Z.eqb_refl| |done]. rewrite get_session_wrap_event.
    rewrite (proj2 (put_back st1 h s s' h Hwf1 ltac:(by rewrite Hs1) Hh)). by rewrite Z.eqb_refl.
  - apply (apply_template_frame t fresh).
  - unfold raw_key_bytes, nonempty_attr, p11_store_secret. cbn [snd]. rewrite put_attr_lookup, Z.eqb_refl.
    rewrite bool_decide_false; [done|]. by intros ->.
  - intros ty Hty. unfold p11_store_secret. cbn [snd]. by rewrite put_attr_lookup, (proj2 (Z.eqb_neq _ _) Hty).
  - intros o' Ho' Hne. rewrite Hobj; [by rewrite (proj2 (Z.eqb_neq _ _) Hne)| |done]. rewrite get_session_wrap_event.
    rewrite (proj2 (put_back st1 h s s' h Hwf1 ltac:(by rewrite Hs1) Hh)). by rewrite Z.eqb_refl.
Qed.

End WrapTheorems.

(** ** Witnesses *)

#[local] Existing Instance toy_ssl.
#[local] Existing Instance toy_aes.
#[local] Existing Instance toy_aes_laws.

#[local] Instance toy_keygen : KeyGen := {|
  scrypto_rsa_generate _ _ := Ok (Some (EVP_PKEY_RSA, bytes_of "rsa"));
  scrypto_ec_generate _ _ := Ok (Some (EVP_PKEY_EC, bytes_of "ec"));
  d2i_PUBKEY d := Some (EVP_PKEY_EC, d) |}.

(** A wrapping key, a secret and an EC key pair in the first session. *)
Definition created (st : P11) (t : list CK_ATTRIBUTE) : Z * P11 :=
  let '(_, o, st) := C_CreateObject st 1 t false in (default 0 o, st).

Definition kek_template : list CK_ATTRIBUTE :=
  [attr CKA_CLASS (ulong_bytes CKO_SECRET_KEY); attr CKA_VALUE (bytes_of "0123456789abcdef0123456789abcdef")].
Definition aes_template : list CK_ATTRIBUTE :=
  [attr CKA_CLASS (ulong_bytes CKO_SECRET_KEY); attr CKA_VALUE sample_key].

Definition kek_handle : Z := fst (created sample_p11 kek_template).
Definition target_handle : Z := fst (created (snd (created sample_p11 kek_template)) aes_template).
Definition wrapping_p11 : P11 := snd (created (snd (created sample_p11 kek_template)) aes_template).
Definition object_at (st : P11) (o : Z) : HsmObject :=
  default (new_object DATA false false false false) (p11_get_object st 1 o).
Definition session1 (st : P11) : Session := default (new_session 0 0 0) (p11_get_session st 1).

Lemma wrapping_p11_wf : wf_p11 wrapping_p11.
Proof. wf_by_computation. Qed.

Ltac wf_store_by_computation := apply full_store_wf; vm_compute; reflexivity.

Lemma wrapped_key_unwraps_witness :
  exists c st1 o st2 x,
    C_WrapKey sample_env wrapping_p11 1 (Some CKM_AES_KEY_WRAP) kek_handle target_handle false (Some 24)
      = (CKR_OK, mkOut (Some (len sample_key + 8)) c, st1) /\
    C_UnwrapKey sample_env st1 1 (Some CKM_AES_KEY_WRAP) kek_handle (Some c) (len c)
      [attr CKA_LABEL (bytes_of "back")] false = (CKR_OK, Some o, st2) /\
    p11_get_object wrapping_p11 1 o = None /\ p11_get_object st2 1 o = Some x /\
    type_ x = SECRET_KEY /\ raw_key_bytes x = Some sample_key /\
    (forall ty, ty <> CKA_VALUE -> findAttribute x ty =
       findAttribute (snd (p11_apply_template (new_object SECRET_KEY true true false false)
                             [attr CKA_LABEL (bytes_of "back")])) ty) /\
    (forall o', is_u64 o' -> o' <> o -> p11_get_object st2 1 o' = p11_get_object wrapping_p11 1 o').
Proof.
  apply (wrapped_key_unwraps sample_env wrapping_p11 1 kek_handle target_handle 24 (session1 wrapping_p11)
    (object_at wrapping_p11 kek_handle) (object_at wrapping_p11 target_handle)
    (bytes_of "0123456789abcdef0123456789abcdef") sample_key [attr CKA_LABEL (bytes_of "back")]).
  - vm_compute. reflexivity.
  - exact wrapping_p11_wf.
  - vm_compute. reflexivity.
  - wf_store_by_computation.
  - right. vm_compute. reflexivity.
  - vm_compute. reflexivity.
  - vm_compute. reflexivity.
  - vm_compute. reflexivity.
  - vm_compute. reflexivity.
  - vm_compute. reflexivity.
  - vm_compute. reflexivity.
  - vm_compute. reflexivity.
  - vm_compute. reflexivity.
  - vm_compute. discriminate.
  - vm_compute. reflexivity.
Defined.

(** A secret of 48 bytes, as a derivation on P-384 makes it, wraps and does not unwrap. *)
Lemma long_secret_not_unwrapped :
  let long := concat [sample_key; sample_key; sample_key] in
  let (o, st) := created (snd (created sample_p11 kek_template)) [attr CKA_CLASS (ulong_bytes CKO_SECRET_KEY); attr CKA_VALUE long] in
  len long = 48 /\
  match C_WrapKey sample_env st 1 (Some CKM_AES_KEY_WRAP) kek_handle o false (Some 56) with
  | (rv, mkOut _ c, st) => rv = CKR_OK /\
    fst (fst (C_UnwrapKey sample_env st 1 (Some CKM_AES_KEY_WRAP) kek_handle (Some c) (len c) [] false)) = CKR_WRAPPED_KEY_INVALID
  end.
Proof. vm_compute. by split_and!. Qed.

(** An EC key pair with a label, and its rotation. *)
Definition pair_template : list CK_ATTRIBUTE := [attr CKA_LABEL (bytes_of "sig")].
Definition pair_generation (mech : Z) : CK_RV * option (Z * Z) * P11 :=
  C_GenerateKeyPair sample_env sample_p11 1 (Some mech) pair_template pair_template false.
Definition pair_p11 (mech : Z) : P11 := snd (pair_generation mech).
Definition priv_handle (mech : Z) : Z := default 0 (option_map snd (snd (fst (pair_generation mech)))).
Definition sample_rotation : CK_RV * option (Z * Z) * P11 :=
  p11_rotate_keypair sample_env (pair_p11 CKM_EC_KEY_PAIR_GEN) 1 (priv_handle CKM_EC_KEY_PAIR_GEN) [] [] false.

Lemma rotation_supersedes_witness :
  let st := pair_p11 CKM_EC_KEY_PAIR_GEN in
  let st' := snd sample_rotation in
  exists hPub hPriv, snd (fst sample_rotation) = Some (hPub, hPriv) /\
    p11_get_object st 1 hPub = None /\ p11_get_object st 1 hPriv = None /\
    (exists old', p11_get_object st' 1 (priv_handle CKM_EC_KEY_PAIR_GEN) = Some old' /\
       key_can_sign (getKeyState old') = false) /\
    (exists priv, p11_get_object st' 1 hPriv = Some priv /\ type_ priv = PRIVATE_KEY /\
       findAttribute priv CKA_LABEL = Some (bytes_of "sig")).
Proof.
  pose proof (rotation_supersedes sample_env (pair_p11 CKM_EC_KEY_PAIR_GEN) (snd sample_rotation) 1
    (priv_handle CKM_EC_KEY_PAIR_GEN) (session1 (pair_p11 CKM_EC_KEY_PAIR_GEN))
    (object_at (pair_p11 CKM_EC_KEY_PAIR_GEN) (priv_handle CKM_EC_KEY_PAIR_GEN)) [] []
    CKR_OK (Some (default (0, 0) (snd (fst sample_rotation))))) as H.
  destruct H as [_ H]; [wf_by_computation|vm_compute; reflexivity|wf_store_by_computation|
    vm_compute; reflexivity|vm_compute; by split|vm_compute; discriminate|
    vm_compute; reflexivity|vm_compute; reflexivity|].
  destruct (default (0, 0) (snd (fst sample_rotation))) as [hPub hPriv] eqn:E.
  destruct H as (_ & _ & H1 & H2 & (old' & H3 & H4 & _) & (priv & H5 & H6 & _ & H7) & _).
  exists hPub, hPriv. split; [rewrite <- E; vm_compute; reflexivity|]. split; [exact H1|]. split; [exact H2|].
  split; [exists old'; split; [exact H3|exact H4]|]. exists priv. split; [exact H5|]. split; [exact H6|].
  apply H7; [constructor|by apply not_elem_of_nil|vm_compute; reflexivity].
Defined.

(** ** Where the code departs from its comments *)

(** A key generated with [CKA_EXTRACTABLE] false can be wrapped: the template is
    stored among the attributes and the flag of the object stays true. *)
Definition unextractable_request : CK_RV * option Z * P11 :=
  C_GenerateKey (fun n => (CKR_OK, replicate (Z.to_nat n) x2a)) sample_env (snd (created sample_p11 kek_template)) 1
    (Some CKM_AES_KEY_GEN) [attr CKA_EXTRACTABLE [x00]] false.

Lemma unextractable_request_ignored :
  fst (fst (C_WrapKey sample_env (snd unextractable_request) 1 (Some CKM_AES_KEY_WRAP) kek_handle
    (default 0 (snd (fst unextractable_request))) false (Some 100))) = CKR_OK.
Proof. vm_compute. reflexivity. Qed.

(** The private half of a generated RSA pair has no [CKA_KEY_TYPE]: rotating it
    makes an EC key. *)
Lemma rotated_rsa_becomes_ec :
  match p11_rotate_keypair sample_env (pair_p11 CKM_RSA_PKCS_KEY_PAIR_GEN) 1
          (priv_handle CKM_RSA_PKCS_KEY_PAIR_GEN) [] [] false with
  | (rv, Some (_, hPriv), st) =>
    rv = CKR_OK /\
    nonempty_attr (object_at st (priv_handle CKM_RSA_PKCS_KEY_PAIR_GEN)) CKA_VHSM_RSA_PRIV = Some (bytes_of "rsa") /\
    nonempty_attr (object_at st hPriv) CKA_VHSM_RSA_PRIV = None /\
    nonempty_attr (object_at st hPriv) CKA_VHSM_EC_PRIV = Some (bytes_of "ec")
  | _ => False
  end.
Proof. vm_compute. by split_and!. Qed.

(** The stored [CKA_EC_PARAMS] of a P-384 key is the encoding of the object
    identifier 1.3.132.0.34, in which the name of the curve is not found: the
    replacement is a P-256 key. *)
Lemma rotated_p384_becomes_p256 :
  curve_from_params (put_attr (new_object PUBLIC_KEY false true false false) CKA_EC_PARAMS
    [x06; x05; x2b; x81; x04; x00; x22]) = EccCurveType_P256.
Proof. vm_compute. reflexivity. Qed.

(** The search for the replaced key meets the new one first when it took a
    lower slot that had been freed: no event is published. *)
Definition labelled_key (st : P11) : CK_RV * option Z * P11 :=
  C_GenerateKey (fun n => (CKR_OK, replicate (Z.to_nat n) x2a)) sample_env st 1 (Some CKM_AES_KEY_GEN)
    [attr CKA_LABEL (bytes_of "k")] false.
Definition two_objects : P11 := snd (labelled_key (snd (created sample_p11 kek_template))).
Definition slot_freed : P11 := snd (C_DestroyObject two_objects 1 kek_handle).

Lemma rotation_event_missed :
  length (events_ (snd (labelled_key two_objects))) = S (length (events_ two_objects)) /\
  length (events_ (snd (labelled_key slot_freed))) = length (events_ slot_freed).
Proof. vm_compute. by split. Qed.

(** A revoked key still derives. *)
Lemma revoked_key_derives :
  let mech := (CKM_ECDH1_DERIVE, Some (mkEcdhParams (Some (bytes_of "peer")) 4)) in
  fst (fst (C_DeriveKey sample_env revoked_p11 1 (Some mech) secret_handle [] false)) = CKR_OK.
Proof. vm_compute. reflexivity. Qed.
