(* ===== verification/SignatureStore.v ===== *)
(** * The signature store

    [src/src/signature_store]: the connection and its transactions
    ([sqlite_connection.cpp], [db_row.cpp]), the integrity HMAC of a row
    ([row_integrity.cpp], [db_hmac_key.cpp]), the repository of signature
    records, the dispatcher that writes them with their outbox event, the
    verification service and the queue of records to anchor again.

    SQLite is outside the repository.  A table is the list of its rows, a row the
    list of its columns as text, and each statement of the code is a function on
    the tables; [fault s] says that the engine fails statement [s] (disk full,
    busy), which then has no effect.  A failed [COMMIT] leaves the transaction
    open.  The columns of type [INTEGER] only receive canonical decimals, which
    the engine returns unchanged.  The HMAC and the comparison of [scrypto] are
    the class [Scrypto], the post-quantum provider the class [Pqc]. *)

From S2P Require Import Prelude Codec Types Notification SecureBuffer Objects ObjectStore Token Session Pkcs11 AuditLog KeyPolicy.
Local Open Scope Z_scope.

(** [domain/signing/signature_record.h] and [ledger/ledger_entry.h]. *)
Record SignatureRecord : Type := mkRecord {
  record_id : list byte;
  created_at : Z;
  slot_id : Z;
  token_label : list byte;
  key_id : list byte;
  key_fingerprint : list byte;
  r_mechanism : list byte;
  digest_algorithm : list byte;
  r_payload_digest : list byte;
  signature_b64 : list byte;
  r_payload_size : Z;
  session_handle : list byte;
  r_user_label : option (list byte);
  app_context : option (list byte);
  ledger_tx_id : option (list byte);
  ledger_block_num : option Z;
  ledger_status : list byte;
  pqc_algo : list byte;
  signature_pqc_b64 : option (list byte);
  key_fingerprint_pqc : option (list byte)
}.

Definition record_is_pending (r : SignatureRecord) : bool := bool_decide (ledger_status r = bytes_of "PENDING").

Definition with_anchor (r : SignatureRecord) (tx : option (list byte)) (block : option Z) (status : list byte) : SignatureRecord :=
  mkRecord (record_id r) (created_at r) (slot_id r) (token_label r) (key_id r) (key_fingerprint r) (r_mechanism r)
    (digest_algorithm r) (r_payload_digest r) (signature_b64 r) (r_payload_size r) (session_handle r) (r_user_label r)
    (app_context r) tx block status (pqc_algo r) (signature_pqc_b64 r) (key_fingerprint_pqc r).

Definition mark_committed (r : SignatureRecord) (tx_id : list byte) (block_num : Z) : SignatureRecord :=
  with_anchor r (Some tx_id) (Some block_num) (bytes_of "COMMITTED").

Definition mark_failed (r : SignatureRecord) : SignatureRecord :=
  with_anchor r (ledger_tx_id r) (ledger_block_num r) (bytes_of "FAILED").

Record LedgerEntry : Type := mkEntry {
  e_record_id : list byte;
  e_key_fingerprint : list byte;
  e_payload_digest : list byte;
  e_signature_b64 : list byte;
  e_created_at : Z;
  e_tx_id : list byte;
  e_block_number : Z
}.

(** What the dispatcher asks of the ledger worker. *)
Class RecordSink (W : Type) : Type := submit_record : W -> SignatureRecord -> W.

Class Scrypto : Type := {
  hmac_sha256 : list byte -> list byte -> list byte;
  scrypto_derive_db_hmac_key : list byte -> list byte;
  constant_time_eq : list byte -> list byte -> bool
}.

Class ScryptoLaws (S : Scrypto) : Prop := {
  hmac_length : forall k m, length (hmac_sha256 k m) = 32%nat;
  constant_time_eq_spec : forall a b, length a = length b -> constant_time_eq a b = bool_decide (a = b)
}.

Class Pqc : Type := {
  pqc_available : bool;
  pqc_secret_key : list byte -> option (list byte);
  pqc_public_key : list byte -> option (list byte);
  pqc_sign : list byte -> list byte -> option (list byte)
}.

(** ** The database *)

(** The text of the columns of [signature_records], in the order of the table:
    0 id, 1 created_at, 2 slot_id, 3 token_label, 4 key_id, 5 key_fingerprint,
    6 mechanism, 7 payload_digest, 8 signature_b64, 9 session_handle,
    10 user_label, 11 app_context, 12 ledger_tx_id, 13 ledger_block_num,
    14 ledger_tx_time, 15 ledger_tx_proof, 16 ledger_tx_set_b64,
    17 ledger_status, 18 integrity_hmac, 19 pqc_algo, 20 signature_pqc_b64,
    21 key_fingerprint_pqc. *)
Abbreviation Row := (list (list byte)).

Record OutboxRow : Type := mkOutbox {
  ob_id : list byte;
  ob_created_at : Z;
  ob_event_type : list byte;
  ob_aggregate_id : list byte;
  ob_payload : list byte;
  ob_status : list byte
}.

Record Tables : Type := mkTables {
  signature_records : list Row;
  event_outbox : list OutboxRow
}.

(** The tables as the connection sees them, and as they were when the open
    transaction began. *)
Record Conn : Type := mkConn { tables_ : Tables; saved_ : option Tables }.

(** What survives: the last committed tables. *)
Definition durable (c : Conn) : Tables := default (tables_ c) (saved_ c).

Inductive Stmt : Type :=
| BEGIN | COMMIT | ROLLBACK
| INSERT_SIGNATURE | INSERT_OUTBOX | SELECT_ROW | UPDATE_LEDGER | UPDATE_HMAC | UPDATE_PROCESSING
| SELECT_PENDING | SELECT_OUTBOX | UPDATE_OUTBOX.

#[global] Instance Stmt_eq_dec : EqDecision Stmt.
Proof. solve_decision. Defined.

Definition DbError : exn := RuntimeError "DbError".

Definition col (r : Row) (i : nat) : list byte := nth i r [].

(** [DbRow::get_string]; a column is read as a C string. *)
Definition get_string (r : Row) (i : nat) : option (list byte) := option_map c_str (r !! i).

Definition PENDING : list byte := bytes_of "PENDING".
Definition COMMITTED : list byte := bytes_of "COMMITTED".

(** [CHECK(ledger_status IN (...))]. *)
Definition status_allowed (s : list byte) : bool :=
  bool_decide (s = PENDING) || bool_decide (s = COMMITTED) || bool_decide (s = bytes_of "FAILED").

(** A statement outside a transaction. *)
Definition exec (fault : bool) (c : Conn) (f : Tables -> option (Z * Tables)) : res Z * Conn :=
  if fault then (Throw DbError, c)
  else match f (tables_ c) with
       | None => (Throw DbError, c)
       | Some (n, t) => (Ok n, mkConn t (saved_ c))
       end.

(** A statement of a transaction. *)
Definition tx_exec (fault : bool) (t : Tables) (f : Tables -> option (Z * Tables)) : res unit * Tables :=
  if fault then (Throw DbError, t)
  else match f t with
       | None => (Throw DbError, t)
       | Some (_, t') => (Ok tt, t')
       end.

(** [SqliteConnection::with_transaction]. *)
Definition with_transaction (fault : Stmt -> bool) (c : Conn) (func : Tables -> res unit * Tables)
    : res unit * Conn :=
  if fault BEGIN || bool_decide (is_Some (saved_ c)) then (Throw DbError, c)
  else
    let before := tables_ c in
    let (r, t) := func before in
    let undo (e : exn) := (Throw e, if fault ROLLBACK then mkConn t (Some before) else mkConn before None) in
    match r with
    | Throw e => undo e
    | Ok _ => if fault COMMIT then undo DbError else (Ok tt, mkConn t None)
    end.

(** [INSERT INTO signature_records]: the primary key and the check of the status. *)
Definition insert_signature (cols : Row) (t : Tables) : option (Z * Tables) :=
  if existsb (fun r => bool_decide (col r 0 = col cols 0)) (signature_records t) then None
  else if negb (status_allowed (col cols 17)) then None
  else Some (1, mkTables (signature_records t ++ [cols]) (event_outbox t)).

Definition insert_outbox (r : OutboxRow) (t : Tables) : option (Z * Tables) :=
  if existsb (fun x => bool_decide (ob_id x = ob_id r)) (event_outbox t) then None
  else Some (1, mkTables (signature_records t) (event_outbox t ++ [r])).

(** [UPDATE signature_records SET ... WHERE ...]: a violated check undoes the
    whole statement. *)
Definition update_rows (sel : Row -> bool) (f : Row -> Row) (t : Tables) : option (Z * Tables) :=
  let rows := signature_records t in
  if existsb (fun r => sel r && negb (status_allowed (col (f r) 17))) rows then None
  else Some (len (List.filter sel rows),
             mkTables (map (fun r => if sel r then f r else r) rows) (event_outbox t)).

Definition with_id (id : list byte) (r : Row) : bool := bool_decide (col r 0 = id).

(** [conn_.query("SELECT ... WHERE id = ?")]. *)
Definition select_by_id (fault : Stmt -> bool) (c : Conn) (id : list byte) : res (option Row) :=
  if fault SELECT_ROW then Throw DbError
  else Ok (List.find (with_id id) (signature_records (tables_ c))).

(** ** Row integrity *)

(** The four bytes of a length, most significant first. *)
Definition be32 (n : Z) : list byte :=
  [to_u8 (Z.land (Z.shiftr n 24) 255); to_u8 (Z.land (Z.shiftr n 16) 255);
   to_u8 (Z.land (Z.shiftr n 8) 255); to_u8 (Z.land n 255)].

Definition encode_column (v : option (list byte)) : list byte :=
  let len_ := match v with Some s => u32 (len s) | None => 0 end in
  be32 len_ ++ default [] v.

Definition encode_columns (vs : list (option (list byte))) : list byte := List.concat (map encode_column vs).

Section Store.
Context `{S : Scrypto}.

(** [DbHmacKey::get_key]: derived from the KEK of the token. *)
Definition get_key (token : v_TokenCore_M1) : list byte :=
  let kek := v_get_kek token in
  if bool_decide (kek = []) then [] else scrypto_derive_db_hmac_key kek.

Definition compute_hmac (token : v_TokenCore_M1) (column_values : list (option (list byte))) : res (list byte) :=
  let key := get_key token in
  if bool_decide (key = [])
  then Throw (RuntimeError "RowIntegrity::compute_hmac: HMAC key unavailable")
  else Ok (to_hex (hmac_sha256 key (encode_columns column_values))).

Definition verify_hmac (token : v_TokenCore_M1) (column_values : list (option (list byte)))
    (stored : option (list byte)) : bool :=
  match stored with
  | None => false
  | Some stored =>
    if bool_decide (stored = []) then false
    else match compute_hmac token column_values with
    | Throw _ => false
    | Ok computed =>
      if bool_decide (computed = []) then false
      else if negb (len computed =? len stored) then false
      else constant_time_eq computed stored
    end
  end.

(** ** The repository *)

(** The first [n] columns as they are read. *)
Definition read_columns (n : nat) (r : Row) : list (option (list byte)) := map (get_string r) (seq 0 n).

Definition set_col (i : nat) (v : list byte) (r : Row) : Row := <[i := v]> r.

Definition recompute_integrity_hmac (fault : Stmt -> bool) (token : v_TokenCore_M1) (c : Conn)
    (signature_id : list byte) : bool * Conn :=
  match select_by_id fault c signature_id with
  | Throw _ | Ok None => (false, c)
  | Ok (Some row) =>
    match compute_hmac token (read_columns 18 row) with
    | Throw _ => (false, c)
    | Ok hmac =>
      match exec (fault UPDATE_HMAC) c (update_rows (with_id signature_id) (set_col 18 hmac)) with
      | (Ok _, c) => (true, c)
      | (Throw _, c) => (false, c)
      end
    end
  end.

(** The three columns that change when the record is anchored. *)
Definition set_ledger (entry : LedgerEntry) (r : Row) : Row :=
  set_col 17 COMMITTED (set_col 13 (int_to_string (e_block_number entry)) (set_col 12 (e_tx_id entry) r)).

Definition update_ledger_fields (fault : Stmt -> bool) (token : v_TokenCore_M1) (c : Conn)
    (signature_id : list byte) (entry : LedgerEntry) : bool * Conn :=
  match exec (fault UPDATE_LEDGER) c (update_rows (with_id signature_id) (set_ledger entry)) with
  | (Throw _, c) => (false, c)
  | (Ok n, c) => if n =? 0 then (false, c)
                 else (true, snd (recompute_integrity_hmac fault token c signature_id))
  end.

Definition mark_processing (fault : Stmt -> bool) (c : Conn) (signature_id : list byte) : bool * Conn :=
  match exec (fault UPDATE_PROCESSING) c
          (update_rows (fun r => with_id signature_id r && bool_decide (col r 17 = PENDING))
             (set_col 17 (bytes_of "PROCESSING"))) with
  | (Ok _, c) => (true, c)
  | (Throw _, c) => (false, c)
  end.

Definition verify_integrity (fault : Stmt -> bool) (token : v_TokenCore_M1) (c : Conn) (signature_id : list byte) : bool :=
  match select_by_id fault c signature_id with
  | Ok (Some row) => verify_hmac token (read_columns 18 row) (get_string row 18)
  | _ => false
  end.

(** Empty text, and a zero block number, stand for [NULL]. *)
Definition read_nullable (r : Row) (i : nat) : option (list byte) :=
  match get_string r i with
  | None => None
  | Some v => if Nat.eqb i 13 && bool_decide (v = bytes_of "0") then None
              else if bool_decide (v = []) then None else Some v
  end.

(** The positions of the columns [get_by_id] selects. *)
Definition selected : list nat := seq 0 18 ++ [19; 20; 21]%nat.

Definition get_by_id (fault : Stmt -> bool) (c : Conn) (signature_id : list byte)
    : option (list (option (list byte))) :=
  match select_by_id fault c signature_id with
  | Ok (Some row) => Some (map (read_nullable row) selected)
  | _ => None
  end.

(** [SignatureRepository::insert]: the columns of the statement, the other four
    left [NULL], which reads as empty text. *)
Definition insert (fault : Stmt -> bool) (c : Conn) (id : list byte) (at_ slot : Z)
    (label key fingerprint mech digest sig_b64 handle : list byte) (user app : option (list byte))
    : option (list byte) * Conn :=
  let cols := [id; int_to_string at_; int_to_string slot; label; key; fingerprint; mech; digest; sig_b64; handle;
               default [] user; default [] app; []; bytes_of "0"; []; []; []; PENDING; []; []; []; []] in
  match exec (fault INSERT_SIGNATURE) c (insert_signature cols) with
  | (Ok _, c) => (Some id, c)
  | (Throw _, c) => (None, c)
  end.

(** [SELECT id ... WHERE ...]: the identifiers of the rows selected. *)
Definition select_ids (fault : bool) (c : Conn) (sel : Row -> bool) : list (list byte) :=
  if fault then [] else map (fun r => c_str (col r 0)) (List.filter sel (signature_records (tables_ c))).

(** [SignatureQuery::get_signature_ids_by_key_fingerprint]. *)
Definition get_signature_ids_by_key_fingerprint (fault : bool) (c : Conn) (fingerprint : list byte) : list (list byte) :=
  if bool_decide (fingerprint = []) then []
  else select_ids fault c (fun r => bool_decide (col r 5 = fingerprint)).

(** ** The dispatcher *)

Context `{Q : Pqc} {B : Type} `{NB : NotificationBus B} {W : Type} `{RS : RecordSink W}.

Record Dispatcher : Type := mkDispatcher {
  conn_ : Conn;
  bus_ : B;
  ledger_worker_ : option W
}.

(** What a call reads from outside: the token, the two identifiers it draws, the
    clock, the name of the instance, the failures of the engine. *)
Record DispatchEnv : Type := mkDispatchEnv {
  de_token : v_TokenCore_M1;
  de_signature_id : list byte;
  de_outbox_id : list byte;
  de_now : Z;
  de_instance : list byte;
  de_fault : Stmt -> bool
}.

(** The companion signature: algorithm, signature and public key, empty without one. *)
Definition pqc_companion (fingerprint payload_digest : list byte) : list byte * list byte * list byte :=
  if negb pqc_available then ([], [], [])
  else match pqc_secret_key fingerprint with
  | None => ([], [], [])
  | Some sk =>
    match Utils.hex_decode payload_digest with
    | None => ([], [], [])
    | Some digest =>
      if bool_decide (digest = []) then ([], [], [])
      else match pqc_sign digest sk with
      | None => ([], [], [])
      | Some pq => (bytes_of "DILITHIUM3", Utils.base64_encode pq,
                    match pqc_public_key fingerprint with Some pk => Utils.base64_encode pk | None => [] end)
      end
    end
  end.

(** The 18 columns the HMAC is computed over. *)
Definition signed_columns (env : DispatchEnv) (call : DispatchCall) : list (option (list byte)) :=
  [Some (de_signature_id env); Some (int_to_string (d_created_at call)); Some (int_to_string (d_slot_id call));
   Some (d_token_label call); Some (d_key_id call); Some (d_key_fingerprint call);
   Some (mechanism_str (d_result call)); Some (payload_digest (d_result call));
   Some (Utils.base64_encode (signature (d_result call))); Some (d_session call); d_user_label call; None;
   Some []; Some (bytes_of "0"); Some []; Some []; Some []; Some PENDING].

Definition record_row (env : DispatchEnv) (call : DispatchCall) : Row :=
  let '(algo, sig_pqc, fp_pqc) := pqc_companion (d_key_fingerprint call) (payload_digest (d_result call)) in
  let integrity_hmac := match compute_hmac (de_token env) (signed_columns env call) with
                        | Ok h => h
                        | Throw _ => []
                        end in
  map (default []) (signed_columns env call) ++ [integrity_hmac; algo; sig_pqc; fp_pqc].

Definition outbox_row (env : DispatchEnv) (call : DispatchCall) : OutboxRow :=
  mkOutbox (de_outbox_id env) (de_now env) (bytes_of "SIGN_CREATED") (de_signature_id env)
    (bytes_of "{" ++ [to_u8 34] ++ bytes_of "signature_id" ++ [to_u8 34] ++ bytes_of ":" ++ [to_u8 34]
       ++ de_signature_id env ++ [to_u8 34] ++ bytes_of "," ++ [to_u8 34] ++ bytes_of "key_id" ++ [to_u8 34]
       ++ bytes_of ":" ++ [to_u8 34] ++ d_key_id call ++ [to_u8 34] ++ bytes_of "}") PENDING.

Definition write_failed (env : DispatchEnv) (call : DispatchCall) : NotificationEvent :=
  mkEvent EventType.DB_WRITE_FAILED Severity.CRITICAL (de_now env)
    (bytes_of "slot:" ++ int_to_string (d_slot_id call) ++ bytes_of "/token:" ++ d_token_label call)
    (default (bytes_of "UNKNOWN") (d_user_label call)) (bytes_of "Failed to write signature record to DB")
    (bytes_of "{}") (de_instance env).

(** The record given to the ledger worker. *)
Definition anchored_record (env : DispatchEnv) (call : DispatchCall) : SignatureRecord :=
  let '(algo, sig_pqc, fp_pqc) := pqc_companion (d_key_fingerprint call) (payload_digest (d_result call)) in
  {| record_id := de_signature_id env; created_at := d_created_at call; slot_id := d_slot_id call;
     token_label := d_token_label call; key_id := d_key_id call;
     key_fingerprint := d_key_fingerprint call; r_mechanism := mechanism_str (d_result call);
     digest_algorithm := digest_alg (d_result call); r_payload_digest := payload_digest (d_result call);
     signature_b64 := Utils.base64_encode (signature (d_result call));
     r_payload_size := to_int (len (signature (d_result call))); session_handle := d_session call;
     r_user_label := d_user_label call; app_context := None; ledger_tx_id := None; ledger_block_num := None;
     ledger_status := PENDING; pqc_algo := algo;
     signature_pqc_b64 := if bool_decide (sig_pqc = []) then None else Some sig_pqc;
     key_fingerprint_pqc := if bool_decide (fp_pqc = []) then None else Some fp_pqc |}.

Definition v_dispatch (env : DispatchEnv) (d : Dispatcher) (call : DispatchCall) : bool * Dispatcher :=
  let body (t : Tables) :=
    match tx_exec (de_fault env INSERT_SIGNATURE) t (insert_signature (record_row env call)) with
    | (Throw e, t) => (Throw e, t)
    | (Ok _, t) => tx_exec (de_fault env INSERT_OUTBOX) t (insert_outbox (outbox_row env call))
    end in
  match with_transaction (de_fault env) (conn_ d) body with
  | (Throw _, c) => (false, mkDispatcher c (publish_event (bus_ d) (write_failed env call)) (ledger_worker_ d))
  | (Ok _, c) => (true, mkDispatcher c (bus_ d)
                          (option_map (fun w => submit_record w (anchored_record env call)) (ledger_worker_ d)))
  end.

(** [SignatureDispatcher::dispatch]. *)
Definition dispatch (env : DispatchEnv) (d : Dispatcher) (call : DispatchCall) : bool * Dispatcher :=
  if bool_decide (signature (d_result call) = []) || bool_decide (d_key_fingerprint call = [])
     || bool_decide (mechanism_str (d_result call) = [])
  then (false, d) else v_dispatch env d call.

End Store.

(** ** Verification *)

(** The optional sign and the digits of a number, after white space. *)
Definition signed_value (s : list byte) : bool * list byte :=
  match skip_spaces s with
  | c :: r => if u8 c =? 45 then (true, r) else if u8 c =? 43 then (false, r) else (false, c :: r)
  | [] => (false, [])
  end.

Definition starts_with_digit (s : list byte) : bool := match s with c :: _ => is_digit c | [] => false end.

(** [std::stoll]: [None] when it throws. *)
Definition stoll (s : list byte) : option Z :=
  let (neg, ds) := signed_value s in
  if negb (starts_with_digit ds) then None
  else let v := if neg then - strtoull_loop ds 0 else strtoull_loop ds 0 in
       if (- 2 ^ 63 <=? v) && (v <? 2 ^ 63) then Some v else None.

(** [strtoll]: saturates, zero without digits. *)
Definition strtoll (s : list byte) : Z :=
  let (neg, ds) := signed_value s in
  let v := if neg then - strtoull_loop ds 0 else strtoull_loop ds 0 in
  Z.max (- 2 ^ 63) (Z.min v (2 ^ 63 - 1)).

(** [SignatureQuery::get_signature_by_id]. *)
Definition get_signature_by_id (fault : Stmt -> bool) (c : Conn) (signature_id : list byte) : option (list (option (list byte))) :=
  if bool_decide (signature_id = []) then None else get_by_id fault c signature_id.

(** [SignatureQuery::get_signature_ids_by_time_range], on the integers of the column. *)
Definition created_within (start_time end_time : Z) (r : Row) : bool :=
  (start_time <=? strtoll (col r 1)) && (strtoll (col r 1) <=? end_time).

Definition get_signature_ids_by_time_range (fault : bool) (c : Conn) (start_time end_time : Z) : list (list byte) :=
  if end_time <? start_time then [] else select_ids fault c (created_within start_time end_time).

(** [SignatureRepository::get_all_ids]; [order] is [ORDER BY created_at ASC]. *)
Definition get_all_ids (order : list Row -> list Row) (fault : bool) (c : Conn) : list (list byte) :=
  if fault then [] else map (fun r => c_str (col r 0)) (order (signature_records (tables_ c))).

Record VerificationResult : Type := mkVerification {
  local_record_exists : bool;
  ledger_record_exists : bool;
  payload_digest_match : bool;
  signature_b64_match : bool;
  key_fingerprint_match : bool;
  integrity_hmac_ok : bool;
  error_detail : option (list byte);
  v_ledger_tx_id : option (list byte);
  v_ledger_block_num : option Z
}.

Definition failed_verification (exists_ hmac : bool) (detail : string) : VerificationResult :=
  mkVerification exists_ false false false false hmac (Some (bytes_of detail)) None None.

Definition get_int_safe (v : option (list byte)) : option Z :=
  match v with
  | None => None
  | Some s => if bool_decide (s = []) then None else stoll s
  end.

Section Verification.
Context `{S : Scrypto}.

(** [ledger] is [LedgerClient::get_record], [None] without a client. *)
Definition v_verify (fault : Stmt -> bool) (token : v_TokenCore_M1) (c : Conn)
    (ledger : option (list byte -> option LedgerEntry)) (signature_id : list byte) (check_ledger : bool)
    : VerificationResult :=
  match get_by_id fault c signature_id with
  | None => failed_verification false false "Signature record not found in local DB"
  | Some row =>
    let hmac_ok := verify_integrity fault token c signature_id in
    let detail := if hmac_ok then None
                  else Some (bytes_of "Local record integrity HMAC verification failed") in
    let text i := default [] (nth i row None) in
    if negb check_ledger
    then mkVerification true false false false false hmac_ok detail None None
    else match ledger with
    | None => failed_verification true hmac_ok "ledger client not configured — ledger cross-check skipped"
    | Some get_record =>
      match nth 12 row None with
      | None => failed_verification true hmac_ok "No ledger transaction ID in local record"
      | Some tx_id =>
        match get_record tx_id with
        | None => failed_verification true hmac_ok "Ledger record not found for transaction ID"
        | Some entry =>
          mkVerification true true (bool_decide (e_payload_digest entry = text 7%nat))
            (bool_decide (e_signature_b64 entry = text 8%nat))
            (bool_decide (e_key_fingerprint entry = text 5%nat)) hmac_ok detail
            (Some tx_id) (get_int_safe (nth 13 row None))
        end
      end
    end
  end.

(** [VerificationService::verify_signature]. *)
Definition verify_signature (fault : Stmt -> bool) (token : v_TokenCore_M1) (c : Conn)
    (ledger : option (list byte -> option LedgerEntry)) (signature_id : list byte) (check_ledger : bool)
    : VerificationResult :=
  if bool_decide (signature_id = []) then failed_verification false false "signature_id must not be empty"
  else v_verify fault token c ledger signature_id check_ledger.

(** ** Queries *)

Record QueryResult : Type := mkQuery {
  record_found : bool;
  ledger_cross_check_ok : bool;
  q_error_detail : option (list byte);
  q_ledger_tx_id : option (list byte);
  q_ledger_block_num : option Z;
  q_ledger_status : list byte;
  q_payload_digest : option (list byte)
}.

(** The status and the digest of the local row, once more read from the table. *)
Definition local_status (fault : Stmt -> bool) (c : Conn) (id : list byte) : option (list byte * list byte) :=
  option_map (fun row => (default [] (nth 17 row None), default [] (nth 7 row None))) (get_by_id fault c id).

Definition integrity_failure (fault : Stmt -> bool) (c : Conn) (id : list byte) (v : VerificationResult) : QueryResult :=
  let detail := default (bytes_of "Local record integrity HMAC verification failed") (error_detail v) in
  match local_status fault c id with
  | Some (status, digest) => mkQuery true false (Some detail) (v_ledger_tx_id v) (v_ledger_block_num v) status (Some digest)
  | None => mkQuery true false (Some detail) (v_ledger_tx_id v) (v_ledger_block_num v) [] None
  end.

(** [v_verify_signature] without and with a ledger. *)
Definition query_local (fault : Stmt -> bool) (token : v_TokenCore_M1) (c : Conn) (id : list byte) : QueryResult :=
  let v := v_verify fault token c None id false in
  if negb (integrity_hmac_ok v) && local_record_exists v then integrity_failure fault c id v
  else match local_status fault c id with
  | Some (status, digest) =>
    mkQuery true (bool_decide (status = COMMITTED)) (error_detail v) (v_ledger_tx_id v) (v_ledger_block_num v)
      status (Some digest)
  | None =>
    mkQuery (local_record_exists v) false (error_detail v) (v_ledger_tx_id v) (v_ledger_block_num v)
      (if local_record_exists v then PENDING else []) None
  end.

Definition query_ledger (fault : Stmt -> bool) (token : v_TokenCore_M1) (c : Conn)
    (get_record : list byte -> option LedgerEntry) (id : list byte) : QueryResult :=
  let v := v_verify fault token c (Some get_record) id true in
  if negb (integrity_hmac_ok v) && local_record_exists v then integrity_failure fault c id v
  else
    let ok := ledger_record_exists v && payload_digest_match v && signature_b64_match v && key_fingerprint_match v in
    match local_status fault c id with
    | Some (status, digest) =>
      mkQuery (local_record_exists v) ok (error_detail v) (v_ledger_tx_id v) (v_ledger_block_num v) status (Some digest)
    | None => mkQuery (local_record_exists v) ok (error_detail v) (v_ledger_tx_id v) (v_ledger_block_num v) [] None
    end.

End Verification.

(** ** Records to anchor again *)

Definition to_str (v : option (list byte)) : list byte := default [] v.

Definition nullable (s : list byte) : option (list byte) := if bool_decide (s = []) then None else Some s.

(** The record of a row, of the columns the two loaders select. *)
Definition record_of_row (r : Row) : SignatureRecord :=
  let text i := to_str (get_string r i) in
  {| record_id := text 0%nat; created_at := strtoll (text 1%nat); slot_id := to_int (strtoll (text 2%nat));
     token_label := text 3%nat; key_id := text 4%nat; key_fingerprint := text 5%nat; r_mechanism := text 6%nat;
     digest_algorithm := []; r_payload_digest := text 7%nat; signature_b64 := text 8%nat;
     r_payload_size := to_int (len (text 8%nat)); session_handle := text 9%nat;
     r_user_label := nullable (text 10%nat); app_context := nullable (text 11%nat);
     ledger_tx_id := None; ledger_block_num := None;
     ledger_status := if bool_decide (text 17%nat = []) then PENDING else text 17%nat;
     pqc_algo := []; signature_pqc_b64 := None; key_fingerprint_pqc := None |}.

Definition is_pending (r : Row) : bool := bool_decide (col r 17 = PENDING).

Definition scan_pending_ids (fault : Stmt -> bool) (c : Conn) : list (list byte) :=
  if fault SELECT_PENDING then []
  else omap (fun r => get_string r 0) (List.filter is_pending (signature_records (tables_ c))).

Definition load_pending_record (fault : Stmt -> bool) (c : Conn) (signature_id : list byte) : option SignatureRecord :=
  match select_by_id fault c signature_id with
  | Ok (Some r) => Some (record_of_row r)
  | _ => None
  end.

Definition load_pending_records (fault : Stmt -> bool) (c : Conn) : list SignatureRecord :=
  if fault SELECT_PENDING then []
  else map record_of_row (List.filter is_pending (signature_records (tables_ c))).

(** ** Lemmas on the encoding *)

Lemma length_be32 n : length (be32 n) = 4%nat.
Proof. done. Qed.

Lemma be32_digits n : be32 n = rev (LeBytes.le_digits 4 n).
Proof.
  unfold be32. cbn [LeBytes.le_digits rev app]. rewrite !LeBytes.to_u8_land.
  rewrite !Z.shiftr_div_pow2 by lia. rewrite !Z.div_div by lia. done.
Qed.

Lemma be32_inj m n : is_u32 m -> is_u32 n -> be32 m = be32 n -> m = n.
Proof.
  intros Hm Hn H. rewrite !be32_digits in H. apply (f_equal (@rev byte)) in H. rewrite !rev_involutive in H.
  apply (f_equal LeBytes.le_value) in H. rewrite !LeBytes.le_value_digits in H.
  unfold is_u32 in *. rewrite !Z.mod_small in H by (cbn; lia). done.
Qed.

Definition fits (v : option (list byte)) : Prop := len (default [] v) < 2 ^ 32.

Lemma encode_column_fits v : fits v -> encode_column v = be32 (len (default [] v)) ++ default [] v.
Proof.
  unfold encode_column, fits. destruct v as [s|]; [|done]. change (default [] (Some s)) with s.
  intros H. unfold u32. pose proof (len_nonneg s). by rewrite Z.mod_small by lia.
Qed.

(** The encoding determines the text of the columns. *)
Lemma encode_columns_inj vs ws :
  Forall fits vs -> Forall fits ws -> encode_columns vs = encode_columns ws ->
  map (default []) vs = map (default []) ws.
Proof.
  unfold encode_columns. intros Hv. revert ws. induction Hv as [|v vs Hf Hv IH]; intros [|w ws] Hw; cbn [map List.concat]; [done| | |].
  - intros H%(f_equal length). apply list.Forall_cons in Hw as [Hw _]. rewrite (encode_column_fits w Hw), !length_app in H.
    cbn in H. lia.
  - intros H%(f_equal length). rewrite (encode_column_fits v Hf), !length_app in H. cbn in H. lia.
  - apply list.Forall_cons in Hw as [Hfw Hw]. rewrite (encode_column_fits v Hf), (encode_column_fits w Hfw), <- !app_assoc.
    intros H. apply app_inj_1 in H as [Hl H]; [|done].
    assert (E : len (default [] v) = len (default [] w)).
    { apply be32_inj in Hl; [done|split; [apply len_nonneg|done]..]. }
    apply app_inj_1 in H as [-> H]; [|unfold len in E; lia]. f_equal. by apply IH.
Qed.

Section Integrity.
Context `{S : Scrypto} {L : ScryptoLaws S}.

Lemma verify_hmac_spec token cols stored :
  verify_hmac token cols stored = true <->
  exists h, stored = Some h /\ compute_hmac token cols = Ok h.
Proof.
  unfold verify_hmac, compute_hmac. split.
  - destruct stored as [s|]; [|done]. case_bool_decide; [done|]. case_bool_decide; [done|].
    case_bool_decide; [done|]. destruct (Z.eqb_spec (len (to_hex (hmac_sha256 (get_key token) (encode_columns cols)))) (len s)) as [E|]; [|done].
    cbn [negb]. rewrite constant_time_eq_spec by (by apply Nat2Z.inj). intros ->%bool_decide_eq_true. by exists s.
  - intros (h & -> & H). destruct (decide (get_key token = [])) as [Hk|Hk].
    { by rewrite bool_decide_true in H. }
    rewrite bool_decide_false in H by done. injection H as <-.
    assert (Hne : to_hex (hmac_sha256 (get_key token) (encode_columns cols)) <> []).
    { intros E%(f_equal length). unfold to_hex in E. rewrite hex_encode_length, hmac_length in E. done. }
    rewrite !bool_decide_false by done. rewrite Z.eqb_refl. cbn [negb].
    rewrite constant_time_eq_spec by done. by rewrite bool_decide_true.
Qed.

(** C33: The stored HMAC binds the columns it is computed over (the 18 of a row before the
    HMAC; the three columns of the post-quantum signature are not among them): two lists
    of columns that verify against the same HMAC have the same text in every column,
    or their encodings are two different messages with the same HMAC-SHA256 under the
    key.  Without a stored HMAC, or without the key, nothing verifies. *)
Theorem integrity_binds_columns (token : v_TokenCore_M1) (cols cols' : list (option (list byte)))
    (stored : option (list byte)) (Hc : Forall fits cols) (Hc' : Forall fits cols')
    (Hv : verify_hmac token cols stored = true) (Hv' : verify_hmac token cols' stored = true) :
  get_key token <> [] /\ stored <> None /\ stored <> Some [] /\
  (map (default []) cols = map (default []) cols' \/
   encode_columns cols <> encode_columns cols' /\
   hmac_sha256 (get_key token) (encode_columns cols) = hmac_sha256 (get_key token) (encode_columns cols')).
Proof.
  assert (Hs : stored <> Some []) by (intros ->; discriminate Hv).
  apply verify_hmac_spec in Hv as (h & -> & E), Hv' as (h' & [= <-] & E').
  unfold compute_hmac in E, E'. case_bool_decide as Hk; [done|]. injection E as E. injection E' as E'.
  split_and!; [done..|]. rewrite <- E' in E. apply hex_inj in E.
  destruct (decide (encode_columns cols = encode_columns cols')) as [Ee|Ee]; [left; by apply encode_columns_inj|].
  right. by split.
Qed.

End Integrity.

(** ** Atomic dispatch *)

Section DispatchTheorems.
Context `{S : Scrypto} `{Q : Pqc} {B : Type} `{NB : NotificationBus B} {W : Type} `{RS : RecordSink W}.

Lemma record_row_columns env call :
  exists tail, record_row env call = map (default []) (signed_columns env call) ++ tail /\ length tail = 4%nat.
Proof.
  unfold record_row. destruct (pqc_companion _ _) as [[algo sg] fp]. eexists. split; [reflexivity|done].
Qed.

Lemma record_row_col env call i :
  (i < 18)%nat -> col (record_row env call) i = default [] (nth i (signed_columns env call) None).
Proof.
  intros Hi. destruct (record_row_columns env call) as (tail & -> & _). unfold col.
  rewrite app_nth1 by (by rewrite length_map). change (@nil byte) with (default [] (@None (list byte))).
  apply map_nth.
Qed.

(** No row and no outbox event has the identifiers drawn. *)
Definition fresh_ids (env : DispatchEnv) (t : Tables) : bool :=
  negb (existsb (with_id (de_signature_id env)) (signature_records t)) &&
  negb (existsb (fun x => bool_decide (ob_id x = de_outbox_id env)) (event_outbox t)).

Definition dispatch_faults (env : DispatchEnv) : bool :=
  de_fault env BEGIN || de_fault env INSERT_SIGNATURE || de_fault env INSERT_OUTBOX || de_fault env COMMIT.

Definition with_records (env : DispatchEnv) (call : DispatchCall) (t : Tables) : Tables :=
  mkTables (signature_records t ++ [record_row env call]) (event_outbox t ++ [outbox_row env call]).

Lemma insert_record env call t :
  insert_signature (record_row env call) t =
  if existsb (with_id (de_signature_id env)) (signature_records t) then None
  else Some (1, mkTables (signature_records t ++ [record_row env call]) (event_outbox t)).
Proof.
  unfold insert_signature. rewrite !record_row_col by lia.
  change (status_allowed _) with true. cbn [negb]. done.
Qed.

Lemma record_row_hmac env call :
  get_key (de_token env) <> [] ->
  exists h, compute_hmac (de_token env) (signed_columns env call) = Ok h /\ col (record_row env call) 18 = h.
Proof.
  intros Hk. unfold record_row. destruct (pqc_companion _ _) as [[algo sg] fp].
  unfold compute_hmac. rewrite bool_decide_false by done. eexists. split; [reflexivity|].
  unfold col. rewrite app_nth2 by (rewrite length_map; cbn; lia). by rewrite length_map.
Qed.

(** What the dispatcher does, with or without a key for the HMAC. *)
Lemma dispatch_outcome (env : DispatchEnv) (d : Dispatcher) (call : DispatchCall)
    (Hclosed : saved_ (conn_ d) = None) :
  let t := tables_ (conn_ d) in
  let (b, d') := v_dispatch env d call in
  b = negb (dispatch_faults env) && fresh_ids env t /\
  if b then durable (conn_ d') = with_records env call t /\ saved_ (conn_ d') = None /\ bus_ d' = bus_ d /\
            ledger_worker_ d' = option_map (fun w => submit_record w (anchored_record env call)) (ledger_worker_ d)
  else durable (conn_ d') = t /\ (de_fault env ROLLBACK = false -> conn_ d' = conn_ d) /\
       bus_ d' = publish_event (bus_ d) (write_failed env call) /\ ledger_worker_ d' = ledger_worker_ d.
Proof.
  destruct d as [[t s] b0 w]. cbn [conn_ saved_ tables_ bus_ ledger_worker_] in *. subst s.
  unfold v_dispatch, with_transaction, dispatch_faults, fresh_ids. cbn [conn_ saved_ tables_ bus_ ledger_worker_].
  rewrite bool_decide_false by (by intros [? ?]). rewrite orb_false_r.
  destruct (de_fault env BEGIN); [done|]. unfold tx_exec. cbn [orb].
  destruct (de_fault env INSERT_SIGNATURE); [by destruct (de_fault env ROLLBACK)|].
  rewrite insert_record. destruct (existsb (with_id _) _).
  { cbn [negb andb]. rewrite andb_false_r. by destruct (de_fault env ROLLBACK). }
  cbn [negb andb orb]. destruct (de_fault env INSERT_OUTBOX); [by destruct (de_fault env ROLLBACK)|].
  unfold insert_outbox. cbn [event_outbox signature_records outbox_row ob_id].
  destruct (existsb _ (event_outbox t)).
  { rewrite andb_false_r. by destruct (de_fault env ROLLBACK). }
  cbn [negb orb]. rewrite andb_true_r. destruct (de_fault env COMMIT); [by destruct (de_fault env ROLLBACK)|done].
Qed.

(** C12: Recording a signature is atomic, whatever statements the SQLite engine
    fails, when the token has the key for the HMAC of a row.  The dispatcher answers true
    exactly when no statement of the transaction fails and the identifiers are new; then
    exactly the record, with its HMAC, and its outbox event have become durable and the
    record has gone to the ledger worker.  Otherwise nothing has become durable, nothing
    goes to the ledger, and one critical event reports the failure. *)
Theorem dispatch_atomic (env : DispatchEnv) (d : Dispatcher) (call : DispatchCall)
    (Hclosed : saved_ (conn_ d) = None) (Hkey : get_key (de_token env) <> []) :
  let t := tables_ (conn_ d) in
  let (b, d') := v_dispatch env d call in
  b = negb (dispatch_faults env) && fresh_ids env t /\
  if b then (exists h, compute_hmac (de_token env) (signed_columns env call) = Ok h /\ col (record_row env call) 18 = h) /\
            durable (conn_ d') = with_records env call t /\ saved_ (conn_ d') = None /\ bus_ d' = bus_ d /\
            ledger_worker_ d' = option_map (fun w => submit_record w (anchored_record env call)) (ledger_worker_ d)
  else durable (conn_ d') = t /\ (de_fault env ROLLBACK = false -> conn_ d' = conn_ d) /\
       bus_ d' = publish_event (bus_ d) (write_failed env call) /\ ledger_worker_ d' = ledger_worker_ d.
Proof.
  pose proof (dispatch_outcome env d call Hclosed) as H. cbv zeta in *. destruct (v_dispatch env d call) as [b d'].
  destruct H as [Hb H]. split; [exact Hb|]. destruct b; [|exact H].
  split; [exact (record_row_hmac env call Hkey)|exact H].
Qed.

End DispatchTheorems.

Section RowTheorems.
Context `{S : Scrypto} {L : ScryptoLaws S} `{Q : Pqc} {B : Type} `{NB : NotificationBus B} {W : Type} `{RS : RecordSink W}.
Context (token : v_TokenCore_M1).

Lemma encode_columns_text vs : encode_columns vs = encode_columns (map (fun v => Some (default [] v)) vs).
Proof.
  unfold encode_columns. induction vs as [|v vs IH]; [done|]. cbn [map List.concat]. rewrite <- IH. f_equal.
  by destruct v.
Qed.

Lemma compute_hmac_text vs : compute_hmac token vs = compute_hmac token (map (fun v => Some (default [] v)) vs).
Proof. unfold compute_hmac. by rewrite <- encode_columns_text. Qed.

Lemma computed_text vs h : compute_hmac token vs = Ok h -> c_str h = h.
Proof.
  unfold compute_hmac. case_bool_decide; [done|]. intros [= <-]. apply c_str_id.
  apply clean_not; [apply hex_clean|done].
Qed.

Lemma lookup_read n r : (n <= length r)%nat -> read_columns n r = map (fun v => Some (c_str v)) (take n r).
Proof.
  intros H. unfold read_columns. apply list_eq. intros i. rewrite !list_lookup_fmap.
  destruct (decide (i < n)%nat) as [Hi|Hi].
  - rewrite lookup_seq_lt, lookup_take_lt by lia. destruct (lookup_lt_is_Some_2 r i) as [v E]; [lia|].
    rewrite E. exact (f_equal (fun x => Some (option_map c_str x)) E).
  - rewrite lookup_seq_ge, lookup_take_ge by lia. done.
Qed.

(** A row of the table whose HMAC is right. *)
Definition row_ok (r : Row) : Prop :=
  length r = 22%nat /\ status_allowed (col r 17) = true /\
  verify_hmac token (read_columns 18 r) (get_string r 18) = true.

Definition nul_free (v : option (list byte)) : Prop := x00 ∉ default [] v.

Lemma record_row_ok env call :
  de_token env = token -> get_key token <> [] -> Forall nul_free (signed_columns env call) -> row_ok (record_row env call).
Proof.
  intros Ht Hk Hn. unfold record_row. destruct (pqc_companion _ _) as [[algo sg] fp]. rewrite Ht.
  assert (Hl : length (signed_columns env call) = 18%nat) by done.
  set (row := map (default []) (signed_columns env call) ++ _).
  assert (Hlen : length row = 22%nat) by done. split; [done|]. split; [done|]. apply verify_hmac_spec.
  rewrite lookup_read by lia. unfold row at 2. rewrite take_app_length' by (by rewrite length_map).
  rewrite map_map. unfold get_string, row. rewrite lookup_app_r by (rewrite length_map; lia).
  rewrite length_map, Hl. cbn [lookup list_lookup Nat.sub option_map].
  destruct (compute_hmac token (signed_columns env call)) as [h|e] eqn:E.
  2:{ unfold compute_hmac in E. by rewrite bool_decide_false in E. }
  exists h. rewrite (computed_text _ _ E). split; [done|]. rewrite <- E, (compute_hmac_text (signed_columns env call)). f_equal.
  apply map_ext_in. intros v Hv%list_elem_of_In. f_equal. apply c_str_id. by apply (proj1 (list.Forall_forall _ _) Hn).
Qed.

(** The rows after an update that hits the rows with an identifier. *)
Lemma updated_row rows id f r :
  NoDup (map (fun x => col x 0) rows) -> List.find (with_id id) rows = Some r ->
  map (fun x => if with_id id x then f x else x) rows = map (fun x => if decide (x = r) then f r else x) rows.
Proof.
  intros Hnd Hf. apply find_some in Hf as [Hin Hid]. apply map_ext_in. intros x Hx. unfold with_id in *.
  apply bool_decide_eq_true in Hid. case_bool_decide as Hc.
  - assert (x = r) as ->; [|by rewrite decide_True].
    apply list_elem_of_In, list_elem_of_lookup in Hin as [i Hi], Hx as [j Hj].
    assert (i = j) as ->; [|congruence].
    apply (NoDup_lookup (map (fun x => col x 0) rows) i j id Hnd); rewrite list_lookup_fmap.
    + rewrite Hi. cbn. by rewrite Hid.
    + rewrite Hj. cbn. by rewrite Hc.
  - rewrite decide_False; [done|]. intros ->. done.
Qed.

Lemma set_col_other i j v r : i <> j -> col (set_col j v r) i = col r i.
Proof.
  intros H. unfold col, set_col. rewrite !nth_lookup. by rewrite list_lookup_insert_ne.
Qed.

Lemma set_col_same i v r : (i < length r)%nat -> col (set_col i v r) i = v.
Proof. intros H. unfold col, set_col. rewrite nth_lookup, list_lookup_insert_eq by done. done. Qed.

(** Writing the HMAC of a row makes it right. *)
Lemma set_hmac_ok r h :
  length r = 22%nat -> status_allowed (col r 17) = true -> compute_hmac token (read_columns 18 r) = Ok h ->
  row_ok (set_col 18 h r).
Proof.
  intros Hl Hst E. split; [unfold set_col; by rewrite length_insert|]. split; [by rewrite set_col_other|]. apply verify_hmac_spec. exists h.
  unfold get_string, set_col. rewrite list_lookup_insert_eq by lia. cbn [option_map].
  rewrite (computed_text _ _ E). split; [done|]. rewrite <- E. f_equal.
  rewrite !lookup_read by (rewrite ?length_insert; lia). f_equal. by rewrite take_insert_ge by lia.
Qed.

Definition rows_ok (t : Tables) : Prop :=
  Forall row_ok (signature_records t) /\ NoDup (map (fun r => col r 0) (signature_records t)).

Lemma unique_row rows id x y :
  NoDup (map (fun r => col r 0) rows) -> In x rows -> In y rows ->
  with_id id x = true -> with_id id y = true -> x = y.
Proof.
  unfold with_id. intros Hnd [i Hi]%list_elem_of_In%list_elem_of_lookup [j Hj]%list_elem_of_In%list_elem_of_lookup
    Hx%bool_decide_eq_true Hy%bool_decide_eq_true.
  assert (i = j) as ->; [|congruence].
  apply (NoDup_lookup (map (fun r => col r 0) rows) i j id Hnd); rewrite list_lookup_fmap.
  - rewrite Hi. cbn. by rewrite Hx.
  - rewrite Hj. cbn. by rewrite Hy.
Qed.

(** An update that keeps the identifiers. *)
Lemma update_keeps_ids (sel : Row -> bool) (f : Row -> Row) (rows : list Row) :
  (forall r, col (f r) 0 = col r 0) ->
  map (fun r => col r 0) (map (fun r => if sel r then f r else r) rows) = map (fun r : Row => col r 0) rows.
Proof. intros H. rewrite map_map. apply map_ext. intros r. by destruct (sel r). Qed.

Lemma update_allowed sel f t :
  (forall r, In r (signature_records t) -> sel r = true -> status_allowed (col (f r) 17) = true) ->
  update_rows sel f t = Some (len (List.filter sel (signature_records t)),
    mkTables (map (fun r => if sel r then f r else r) (signature_records t)) (event_outbox t)).
Proof.
  intros H. unfold update_rows. destruct (existsb _ _) eqn:E; [|done].
  apply existsb_exists in E as (r & Hin & Hr). apply andb_true_iff in Hr as [Hs Hr]. by rewrite H in Hr.
Qed.

Lemma set_ledger_id entry r : col (set_ledger entry r) 0 = col r 0.
Proof. unfold set_ledger. by rewrite !set_col_other. Qed.

Lemma set_ledger_shape entry r :
  length r = 22%nat -> length (set_ledger entry r) = 22%nat /\ col (set_ledger entry r) 17 = COMMITTED.
Proof.
  intros H. unfold set_ledger. split; [unfold set_col; by rewrite !length_insert|].
  apply set_col_same. unfold set_col. rewrite !length_insert. lia.
Qed.

Lemma map_unselected (sel : Row -> bool) (f : Row -> Row) rows :
  (forall r, In r rows -> sel r = false) -> map (fun r => if sel r then f r else r) rows = rows.
Proof. intros H. rewrite <- (map_id rows) at 2. apply map_ext_in. intros r Hr. by rewrite H. Qed.

Lemma filter_none (sel : Row -> bool) rows : len (List.filter sel rows) = 0 -> forall r, In r rows -> sel r = false.
Proof.
  intros H r Hr. destruct (sel r) eqn:E; [|done]. assert (Hin : In r (List.filter sel rows)) by (by apply filter_In).
  destruct (List.filter sel rows) as [|x xs]; [done|]. unfold len in H. cbn [length] in H. lia.
Qed.

(** Recomputing the HMAC of the one row that may be wrong. *)
Lemma recompute_rows fault c id :
  get_key token <> [] -> fault SELECT_ROW = false -> fault UPDATE_HMAC = false ->
  NoDup (map (fun r => col r 0) (signature_records (tables_ c))) ->
  (forall r, In r (signature_records (tables_ c)) ->
     length r = 22%nat /\ status_allowed (col r 17) = true /\ (with_id id r = false -> row_ok r)) ->
  rows_ok (tables_ (snd (recompute_integrity_hmac fault token c id))).
Proof.
  intros Hk H1 H2 Hnd Hrows. unfold recompute_integrity_hmac, select_by_id, exec. rewrite H1, H2.
  set (rows := signature_records (tables_ c)) in *.
  destruct (List.find (with_id id) rows) as [r|] eqn:Ef.
  2:{ cbn [snd]. split; [|done]. apply list.Forall_forall. intros r Hr%list_elem_of_In. apply (Hrows r Hr).
      destruct (with_id id r) eqn:E; [|done]. by rewrite (find_none _ _ Ef r Hr) in E. }
  pose proof (find_some _ _ Ef) as [Hin Hid]. destruct (Hrows r Hin) as (Hl & Hst & _).
  destruct (compute_hmac token (read_columns 18 r)) as [h|e] eqn:Eh;
    [|by unfold compute_hmac in Eh; rewrite bool_decide_false in Eh].
  rewrite update_allowed.
  2:{ intros x Hx Hs. rewrite set_col_other by lia. exact (proj1 (proj2 (Hrows x Hx))). }
  cbn [snd tables_]. split; cbn [signature_records].
  - fold rows. rewrite (updated_row rows id (set_col 18 h) r Hnd Ef). apply list.Forall_forall.
    intros x (y & -> & Hy%list_elem_of_In)%list_elem_of_fmap. case_decide as Hd; [exact (set_hmac_ok r h Hl Hst Eh)|].
    apply (Hrows y Hy). destruct (with_id id y) eqn:E; [|done]. destruct Hd. by eapply unique_row.
  - rewrite update_keeps_ids; [done|]. intros x. by apply set_col_other.
Qed.

(** Every row of the store verifies at any time: recording a signature under
    an available key and anchoring it, which rewrites the ledger columns, both
    leave every row with an HMAC that verifies, as long as the engine does not
    fail the two statements of the recomputation.  (Text with a NUL byte, which
    is cut when it is read back, is excluded.)  Marking a record as being
    processed never changes a row. *)
Theorem stored_rows_verify (Hk : get_key token <> []) :
  (forall env (d : Dispatcher (B := B) (W := W)) call, saved_ (conn_ d) = None -> de_token env = token ->
     Forall nul_free (signed_columns env call) -> rows_ok (durable (conn_ d)) ->
     rows_ok (durable (conn_ (snd (v_dispatch env d call))))) /\
  (forall fault c id entry, fault SELECT_ROW = false -> fault UPDATE_HMAC = false ->
     rows_ok (tables_ c) -> rows_ok (tables_ (snd (update_ledger_fields fault token c id entry)))) /\
  (forall fault c id, snd (mark_processing fault c id) = c).
Proof.
  split_and!.
  - intros env d call Hc Ht Hn [Hr Hnd]. pose proof (dispatch_outcome env d call Hc) as H.
    destruct (v_dispatch env d call) as [b d']. destruct H as [Hb H]. cbn [snd].
    assert (Ed : durable (conn_ d) = tables_ (conn_ d)) by (unfold durable; by rewrite Hc).
    rewrite Ed in *. destruct b; destruct H as [-> _]; [|done].
    symmetry in Hb. apply andb_true_iff in Hb as [_ Hb]. unfold fresh_ids in Hb. apply andb_true_iff in Hb as [Hb _].
    apply negb_true_iff in Hb. unfold with_records. split; cbn [signature_records].
    + apply Forall_app. split; [done|]. constructor; [|constructor]. by apply record_row_ok.
    + rewrite map_app. cbn [map]. apply list.NoDup_app. split_and!; [done| |apply NoDup_singleton].
      intros x (r & -> & Hin)%list_elem_of_fmap Hx%list_elem_of_singleton. rewrite record_row_col in Hx by lia.
      assert (existsb (with_id (de_signature_id env)) (signature_records (tables_ (conn_ d))) = true); [|congruence].
      apply existsb_exists. exists r. split; [by apply list_elem_of_In|]. by apply bool_decide_eq_true.
  - intros fault c id entry H1 H2 [Hr Hnd]. rewrite list.Forall_forall in Hr. unfold update_ledger_fields, exec.
    destruct (fault UPDATE_LEDGER); [by split; [apply list.Forall_forall|]|].
    rewrite update_allowed.
    2:{ intros r Hin%list_elem_of_In _. by rewrite (proj2 (set_ledger_shape entry r (proj1 (Hr r Hin)))). }
    set (t1 := mkTables _ _).
    assert (Hnd1 : NoDup (map (fun r => col r 0) (signature_records t1))).
    { cbn [t1 signature_records]. rewrite update_keeps_ids; [done|]. apply set_ledger_id. }
    destruct (Z.eqb_spec (len (List.filter (with_id id) (signature_records (tables_ c)))) 0) as [E|_]; cbn [snd tables_].
    + split; [|done]. unfold t1. cbn [signature_records]. rewrite map_unselected by (by apply filter_none).
      by apply list.Forall_forall.
    + apply recompute_rows; [done..|]. cbn [tables_ t1 signature_records].
      intros x (y & <- & Hy%list_elem_of_In)%in_map_iff. destruct (Hr y Hy) as (Hl & Hs & Hv).
      destruct (with_id id y) eqn:Ey.
      * destruct (set_ledger_shape entry y Hl) as [-> ->]. split_and!; [done..|]. unfold with_id. rewrite set_ledger_id.
        unfold with_id in Ey. by rewrite Ey.
      * done.
  - intros fault c id. unfold mark_processing, exec. destruct (fault UPDATE_PROCESSING); [done|].
    unfold update_rows. destruct (existsb _ _) eqn:E; [done|]. cbn [snd].
    rewrite map_unselected; [by destruct c as [[? ?] ?]|]. intros r Hr. set (sel := _ && _). destruct sel eqn:Es; [|done].
    apply not_true_iff_false in E. destruct E. apply existsb_exists. exists r. split; [done|]. fold sel. rewrite Es. cbn [andb].
    assert (col r 17 = PENDING) by (unfold sel in Es; by apply andb_true_iff in Es as [_ ?%bool_decide_eq_true]).
    rewrite set_col_same; [done|]. unfold col in *. destruct (Nat.lt_ge_cases 17 (length r)); [done|].
    by rewrite nth_overflow in *.
Qed.

End RowTheorems.

(** ** Recovery *)

Lemma to_string_digits z :
  is_u64 z -> exists ds, to_string z = ds /\ clean ds /\ digits ds /\ strtoull_loop ds 0 = z.
Proof.
  intros Hz. unfold is_u64 in Hz. destruct (dec_spec 20 z [] ltac:(cbn; lia) ltac:(lia)) as (ds & E & Hc & Hd & _ & Hv).
  exists ds. rewrite app_nil_r in E. specialize (Hv []). rewrite app_nil_r in Hv. split_and!; [exact E|done|done|exact Hv].
Qed.

Lemma digits_unsigned ds : digits ds -> signed_value ds = (false, ds).
Proof.
  intros H. destruct H as [|c s Hc _]; [done|]. unfold signed_value. cbn [skip_spaces].
  unfold is_digit in Hc. unfold is_space. destruct (_ || _) eqn:E; [lia|].
  destruct (Z.eqb_spec (u8 c) 45); [lia|]. by destruct (Z.eqb_spec (u8 c) 43); [lia|].
Qed.

Lemma strtoll_int z : - 2 ^ 63 <= z < 2 ^ 63 -> strtoll (int_to_string z) = z /\ clean (int_to_string z).
Proof.
  intros Hz. unfold int_to_string, strtoll. destruct (Z.ltb_spec z 0).
  - destruct (to_string_digits (- z)) as (ds & -> & Hc & _ & Hv); [unfold is_u64; lia|].
    change (signed_value (bytes_of "-" ++ ds)) with (true, ds). cbv iota beta. rewrite Hv. split; [lia|].
    constructor; [done|exact Hc].
  - destruct (to_string_digits z) as (ds & -> & Hc & Hd & Hv); [unfold is_u64; lia|].
    rewrite digits_unsigned, Hv by done. split; [lia|done].
Qed.

Lemma to_int_signed z : - 2 ^ 31 <= z < 2 ^ 31 -> to_int z = z.
Proof.
  intros H. unfold to_int. destruct (Z.lt_ge_cases z 0).
  - replace (z mod 2 ^ 32) with (z + 2 ^ 32) by (rewrite <- (Z.mod_add z 1), Z.mod_small by lia; lia).
    destruct (Z.ltb_spec (z + 2 ^ 32) (2 ^ 31)); lia.
  - rewrite Z.mod_small by lia. destruct (Z.ltb_spec z (2 ^ 31)); lia.
Qed.

Lemma find_in_app {A} (f : A -> bool) l k :
  List.find f (l ++ k) = match List.find f l with Some x => Some x | None => List.find f k end.
Proof. induction l as [|x l IH]; [done|]. cbn. by destruct (f x). Qed.

Section Recovery.
Context `{S : Scrypto} `{Q : Pqc} {B : Type} `{NB : NotificationBus B} {W : Type} `{RS : RecordSink W}.

(** The text of the columns of a recorded signature, as read back. *)
Lemma record_row_text env call i :
  Forall nul_free (signed_columns env call) -> (i < 18)%nat ->
  get_string (record_row env call) i = Some (default [] (nth i (signed_columns env call) None)).
Proof.
  intros Hn Hi. unfold get_string. destruct (record_row_columns env call) as (tail & E & _).
  destruct (lookup_lt_is_Some_2 (record_row env call) i) as [v Hv].
  { rewrite E, length_app, length_map. change (length (signed_columns env call)) with 18%nat. lia. }
  rewrite Hv. cbn [option_map]. rewrite <- record_row_col by done. unfold col.
  rewrite (nth_lookup_Some _ _ _ _ Hv). f_equal. apply c_str_id.
  rewrite <- (nth_lookup_Some _ _ [] _ Hv). fold (col (record_row env call) i). rewrite record_row_col by done.
  destruct (nth_in_or_default i (signed_columns env call) None) as [Hin| ->]; [|by apply not_elem_of_nil].
  by apply (proj1 (list.Forall_forall _ _) Hn), list_elem_of_In.
Qed.

(** The anchored record without what is not stored. *)
Definition without_pqc (r : SignatureRecord) : SignatureRecord :=
  mkRecord (record_id r) (created_at r) (slot_id r) (token_label r) (key_id r) (key_fingerprint r) (r_mechanism r)
    [] (r_payload_digest r) (signature_b64 r) (to_int (len (signature_b64 r))) (session_handle r)
    (r_user_label r) (app_context r) None None PENDING [] None None.

(** A crash after a signature was recorded and before it was anchored loses
    nothing the ledger needs: until its status changes, the retry queue lists
    the record and loads it again with every field it was submitted with, but
    for the digest name, the payload size and the post-quantum companion. *)
Theorem pending_record_recovered (env : DispatchEnv) (d : Dispatcher (B := B) (W := W)) (call : DispatchCall)
    (fault : Stmt -> bool)
    (Hclosed : saved_ (conn_ d) = None) (Hok : fst (v_dispatch env d call) = true)
    (Hnul : Forall nul_free (signed_columns env call))
    (Hat : - 2 ^ 63 <= d_created_at call < 2 ^ 63) (Hslot : - 2 ^ 31 <= d_slot_id call < 2 ^ 31)
    (Hul : d_user_label call <> Some [])
    (Hf : fault SELECT_ROW = false) (Hf' : fault SELECT_PENDING = false) :
  let c := conn_ (snd (v_dispatch env d call)) in
  de_signature_id env ∈ scan_pending_ids fault c /\
  load_pending_record fault c (de_signature_id env) = Some (without_pqc (anchored_record env call)) /\
  without_pqc (anchored_record env call) ∈ load_pending_records fault c.
Proof.
  pose proof (dispatch_outcome env d call Hclosed) as H. destruct (v_dispatch env d call) as [b d'].
  cbn [fst snd] in *. subst b. destruct H as (Hb & Hd & Hs & _ & _). symmetry in Hb. apply andb_true_iff in Hb as [_ Hb].
  unfold fresh_ids in Hb. apply andb_true_iff in Hb as [Hb _]. apply negb_true_iff in Hb.
  assert (Ht : tables_ (conn_ d') = with_records env call (tables_ (conn_ d))) by (unfold durable in Hd; by rewrite Hs in Hd).
  assert (Hp : is_pending (record_row env call) = true).
  { unfold is_pending. rewrite record_row_col by lia. done. }
  assert (Hrec : record_of_row (record_row env call) = without_pqc (anchored_record env call)).
  { unfold record_of_row, to_str. rewrite !record_row_text by (done || lia). unfold anchored_record, without_pqc.
    destruct (pqc_companion _ _) as [[algo sg] fp]. cbn [signed_columns nth default from_option].
    unfold id. rewrite (proj1 (strtoll_int _ Hat)), (proj1 (strtoll_int (d_slot_id call) ltac:(lia))). f_equal.
    - rewrite to_int_signed by lia. done.
    - unfold nullable. destruct (d_user_label call) as [l|]; cbn; [|done]. case_bool_decide; [congruence|done]. }
  cbv zeta. unfold scan_pending_ids, load_pending_record, load_pending_records, select_by_id. rewrite Hf, Hf', Ht.
  unfold with_records. cbn [signature_records]. rewrite List.filter_app. cbn [List.filter]. rewrite Hp. split_and!.
  - rewrite omap_app. apply elem_of_app. right. cbn [omap list_omap]. rewrite record_row_text by (done || lia).
    by apply list_elem_of_singleton.
  - rewrite find_in_app. destruct (List.find (with_id (de_signature_id env)) (signature_records (tables_ (conn_ d)))) as [r|] eqn:E.
    + apply find_some in E as [Hin Hid]. apply not_true_iff_false in Hb. destruct Hb. apply existsb_exists. eauto.
    + cbn [List.find]. unfold with_id. rewrite record_row_col by lia. cbn [signed_columns nth].
      by rewrite bool_decide_true, Hrec.
  - rewrite map_app. apply elem_of_app. right. cbn [map]. rewrite Hrec. by apply list_elem_of_singleton.
Qed.

End Recovery.

(** ** Witnesses *)

(** A MAC of the length and the end of the message, and a worker that keeps what it is given. *)
#[local] Instance toy_scrypto : Scrypto := {|
  hmac_sha256 k m := take 32 ([to_u8 (len m)] ++ rev (k ++ m) ++ replicate 32 x00);
  scrypto_derive_db_hmac_key kek := kek;
  constant_time_eq a b := bool_decide (a = b) |}.

#[local] Instance toy_scrypto_laws : ScryptoLaws toy_scrypto.
Proof.
  split; [|done]. intros k m. change (length (take 32 ([to_u8 (len m)] ++ rev (k ++ m) ++ replicate 32 x00)) = 32%nat).
  rewrite length_take, !length_app, length_replicate. lia.
Qed.

#[local] Instance no_pqc : Pqc := {|
  pqc_available := false; pqc_secret_key _ := None; pqc_public_key _ := None; pqc_sign _ _ := None |}.

#[local] Instance list_sink : RecordSink (list SignatureRecord) := fun w r => w ++ [r].

Definition kek_token : v_TokenCore_M1 := snd (token_create_object (new_core [] [] 0) (kek_object (bytes_of "kek"))).
Definition bare_token : v_TokenCore_M1 := new_core [] [] 0.

Definition sample_call : DispatchCall :=
  mkDispatch (mkSignResult (bytes_of "sig") (bytes_of "CKM_ECDSA_SHA256") (bytes_of "SHA-256") (bytes_of "0a0b") 4)
    1700000000000 0 (bytes_of "tok") (bytes_of "07") (bytes_of "fp") (bytes_of "1") (Some (bytes_of "user-1")).

Definition no_fault (s : Stmt) : bool := false.
Definition one_fault (s s' : Stmt) : bool := bool_decide (s = s').

Definition store_env (fault : Stmt -> bool) (token : v_TokenCore_M1) : DispatchEnv :=
  mkDispatchEnv token (bytes_of "id-1") (bytes_of "ob-1") 1700000000001 (bytes_of "hsm-1") fault.

Definition empty_db : Conn := mkConn (mkTables [] []) None.
Definition sample_dispatcher : Dispatcher := mkDispatcher empty_db (Bus.new_bus 4) (Some (@nil SignatureRecord)).

Definition sample_dispatch : bool * Dispatcher := v_dispatch (store_env no_fault kek_token) sample_dispatcher sample_call.
Definition sample_conn : Conn := conn_ (snd sample_dispatch).

Lemma dispatch_atomic_witness :
  (let (b, d') := v_dispatch (store_env (one_fault COMMIT) kek_token) sample_dispatcher sample_call in
   b = false /\ durable (conn_ d') = mkTables [] [] /\
   bus_ d' = publish_event (Bus.new_bus 4) (write_failed (store_env (one_fault COMMIT) kek_token) sample_call)) /\
  fst sample_dispatch = true /\
  durable sample_conn = with_records (store_env no_fault kek_token) sample_call (mkTables [] []).
Proof.
  assert (Hk : get_key kek_token <> []) by (vm_compute; discriminate).
  split.
  - pose proof (dispatch_atomic (store_env (one_fault COMMIT) kek_token) sample_dispatcher sample_call eq_refl Hk) as H.
    destruct (v_dispatch _ _ _) as [b d']. destruct H as [-> (H1 & _ & H2 & _)]. split; [reflexivity|]. split; [exact H1|exact H2].
  - pose proof (dispatch_atomic (store_env no_fault kek_token) sample_dispatcher sample_call eq_refl Hk) as H.
    unfold sample_conn, sample_dispatch. destruct (v_dispatch _ _ _) as [b d']. destruct H as [-> (_ & H1 & _)].
    split; [reflexivity|exact H1].
Defined.

Definition sample_columns : list (option (list byte)) := signed_columns (store_env no_fault kek_token) sample_call.
Definition sample_hmac : list byte := match compute_hmac kek_token sample_columns with Ok h => h | Throw _ => [] end.

Lemma integrity_binds_columns_witness :
  get_key kek_token <> [] /\ Some sample_hmac <> None /\ Some sample_hmac <> Some [] /\
  (map (default []) sample_columns = map (default []) (map (fun v => Some (default [] v)) sample_columns) \/
   encode_columns sample_columns <> encode_columns (map (fun v => Some (default [] v)) sample_columns) /\
   hmac_sha256 (get_key kek_token) (encode_columns sample_columns) =
   hmac_sha256 (get_key kek_token) (encode_columns (map (fun v => Some (default [] v)) sample_columns))).
Proof.
  apply (integrity_binds_columns kek_token sample_columns (map (fun v => Some (default [] v)) sample_columns)
    (Some sample_hmac)).
  - repeat constructor.
  - repeat constructor.
  - vm_compute. reflexivity.
  - vm_compute. reflexivity.
Defined.

Lemma sample_nul_free : Forall nul_free sample_columns.
Proof. unfold nul_free. repeat constructor; apply (bool_decide_unpack _); vm_compute; exact I. Qed.

Definition sample_entry : LedgerEntry :=
  mkEntry (bytes_of "id-1") (bytes_of "fp") (bytes_of "0a0b") (Utils.base64_encode (bytes_of "sig")) 1700000000000
    (bytes_of "tx-9") 12.

Lemma stored_rows_verify_witness :
  rows_ok kek_token (durable sample_conn) /\
  rows_ok kek_token (tables_ (snd (update_ledger_fields no_fault kek_token sample_conn (bytes_of "id-1") sample_entry))).
Proof.
  assert (Hk : get_key kek_token <> []) by (vm_compute; discriminate).
  destruct (stored_rows_verify (B := Bus.BoundedNotificationBus) (W := list SignatureRecord) kek_token Hk) as (H1 & H2 & _).
  assert (R : rows_ok kek_token (durable sample_conn)).
  { apply H1; [reflexivity|reflexivity|exact sample_nul_free|]. split; constructor. }
  split; [exact R|]. apply H2; [reflexivity|reflexivity|exact R].
Defined.

Lemma pending_record_recovered_witness :
  bytes_of "id-1" ∈ scan_pending_ids no_fault sample_conn /\
  load_pending_record no_fault sample_conn (bytes_of "id-1")
    = Some (without_pqc (anchored_record (store_env no_fault kek_token) sample_call)) /\
  without_pqc (anchored_record (store_env no_fault kek_token) sample_call) ∈ load_pending_records no_fault sample_conn.
Proof.
  apply (pending_record_recovered (store_env no_fault kek_token) sample_dispatcher sample_call no_fault).
  - reflexivity.
  - reflexivity.
  - exact sample_nul_free.
  - cbn; lia.
  - cbn; lia.
  - discriminate.
  - reflexivity.
  - reflexivity.
Defined.

(** ** Where the code departs from its comments *)

(** Without a KEK the row is written with an empty HMAC; it does not verify. *)
Lemma missing_key_writes_row :
  let (b, d) := v_dispatch (store_env no_fault bare_token) sample_dispatcher sample_call in
  b = true /\ length (signature_records (durable (conn_ d))) = 1%nat /\
  verify_integrity no_fault bare_token (conn_ d) (bytes_of "id-1") = false.
Proof. vm_compute. by split_and!. Qed.

(** The status the worker asks for violates the check of the table. *)
Lemma processing_status_refused : fst (mark_processing no_fault sample_conn (bytes_of "id-1")) = false.
Proof. vm_compute. reflexivity. Qed.

(** A ledger that holds the anchored record under its identifier is asked for
    the transaction identifier: the cross-check does not find the record. *)
Lemma cross_check_misses_anchored_record :
  let c := snd (update_ledger_fields no_fault kek_token sample_conn (bytes_of "id-1") sample_entry) in
  let get_record id := if bool_decide (id = e_record_id sample_entry) then Some sample_entry else None in
  let v := v_verify no_fault kek_token c (Some get_record) (bytes_of "id-1") true in
  local_record_exists v = true /\ integrity_hmac_ok v = true /\ ledger_record_exists v = false.
Proof. vm_compute. by split_and!. Qed.

(** When the engine fails the recomputation, the anchored row no longer
    verifies, as if it had been altered. *)
Lemma unrefreshed_hmac_fails :
  let (b, c) := update_ledger_fields (one_fault UPDATE_HMAC) kek_token sample_conn (bytes_of "id-1") sample_entry in
  b = true /\ verify_integrity no_fault kek_token c (bytes_of "id-1") = false.
Proof. vm_compute. by split. Qed.

(** A label with a NUL byte is cut when it is read back: the row the dispatcher
    has just written does not verify. *)
Lemma nul_in_label_fails :
  let call := mkDispatch (d_result sample_call) 1 0 [x41; x00; x42] (bytes_of "07") (bytes_of "fp") (bytes_of "1") None in
  let (b, d) := v_dispatch (store_env no_fault kek_token) sample_dispatcher call in
  b = true /\ verify_integrity no_fault kek_token (conn_ d) (bytes_of "id-1") = false.
Proof. vm_compute. by split. Qed.
