(* ===== verification/Delivery.v ===== *)
(** * Delivery of notifications

    [src/src/signature_store/outbox_poller.cpp], which publishes the outbox events
    the dispatcher wrote, and [notification_dispatcher.cpp], which takes events
    from the bounded bus and delivers them to the subscribers of
    [notification_repository.cpp] with retries.

    The order in which the database returns rows with the same [created_at] is its
    own: the class [SqlOrder].  What an adapter answers at each attempt is a
    function of the attempt; time spent sleeping is returned as the list of the
    delays. *)

From Stdlib Require Import Sorted.
From S2P Require Import Prelude Codec Types Notification SecureBuffer Objects ObjectStore Token Session Pkcs11 AuditLog KeyPolicy SignatureStore.
Local Open Scope Z_scope.

(** ** The outbox poller *)

Class SqlOrder : Type := order_by_created_at : list OutboxRow -> list OutboxRow.

Class SqlOrderLaws (O : SqlOrder) : Prop := {
  order_permutation : forall l, Permutation (order_by_created_at l) l;
  order_sorted : forall l, StronglySorted (fun a b => ob_created_at a <= ob_created_at b) (order_by_created_at l)
}.

Module Outbox.

Definition DISPATCHED_ : list byte := bytes_of "DISPATCHED".

Definition outbox_pending (r : OutboxRow) : bool := bool_decide (ob_status r = PENDING).

Definition pending_rows (t : Tables) : list OutboxRow := List.filter outbox_pending (event_outbox t).

Definition set_status (s : list byte) (r : OutboxRow) : OutboxRow :=
  mkOutbox (ob_id r) (ob_created_at r) (ob_event_type r) (ob_aggregate_id r) (ob_payload r) s.

(** [UPDATE event_outbox SET status='DISPATCHED' WHERE id IN (...)]. *)
Definition mark_dispatched (ids : list (list byte)) (t : Tables) : option (Z * Tables) :=
  let hit r := existsb (fun i => bool_decide (ob_id r = i)) ids in
  Some (len (List.filter hit (event_outbox t)),
        mkTables (signature_records t)
          (map (fun r => if hit r then set_status DISPATCHED_ r else r) (event_outbox t))).

(** The event of a row, as its columns are read. *)
Definition replay_event (now : Z) (instance : list byte) (r : OutboxRow) : NotificationEvent :=
  let id := c_str (ob_id r) in
  let type := c_str (ob_event_type r) in
  mkEvent (if bool_decide (type = bytes_of "DB_WRITE_FAILED") then EventType.DB_WRITE_FAILED else EventType.SIGN_CREATED)
    Severity.INFO now (bytes_of "outbox:" ++ id) (bytes_of "system")
    (bytes_of "Outbox replay: " ++ type ++ bytes_of " " ++ id) (c_str (ob_payload r)) instance.

Section Poller.
Context `{O : SqlOrder} {B : Type} `{NB : NotificationBus B}.

(** [poll_once]; the count for the metrics has no effect here. *)
Definition poll_once (fault : Stmt -> bool) (now : Z) (instance : list byte) (c : Conn) (bus : B) : res unit * Conn * B :=
  if fault SELECT_OUTBOX then (Throw DbError, c, bus)
  else
    let rows := take 32 (order_by_created_at (pending_rows (tables_ c))) in
    match rows with
    | [] => (Ok tt, c, bus)
    | _ =>
      let ids := map (fun r => c_str (ob_id r)) rows in
      match exec (fault UPDATE_OUTBOX) c (mark_dispatched ids) with
      | (Throw _, c) => (Ok tt, c, bus)
      | (Ok _, c) => (Ok tt, c, fold_left publish_event (map (replay_event now instance) rows) bus)
      end
    end.

(** One turn of [loop]: an error is logged, the next turn comes after a pause. *)
Record Poll : Type := mkPoll { p_fault : Stmt -> bool; p_now : Z }.

Definition loop_turn (instance : list byte) (st : Conn * B) (p : Poll) : Conn * B :=
  let '(_, c, b) := poll_once (p_fault p) (p_now p) instance (fst st) (snd st) in (c, b).

Definition loop (instance : list byte) (st : Conn * B) (polls : list Poll) : Conn * B :=
  fold_left (loop_turn instance) polls st.

End Poller.

Section Once.
Context `{O : SqlOrder} {L : SqlOrderLaws O} {B : Type} `{NB : NotificationBus B}.

Definition wf_outbox (t : Tables) : Prop :=
  NoDup (map ob_id (event_outbox t)) /\ Forall (fun r => x00 ∉ ob_id r) (event_outbox t).

(** The rows a poll takes. *)
Definition batch (t : Tables) : list OutboxRow := take 32 (order_by_created_at (pending_rows t)).

Lemma batch_incl t r : r ∈ batch t -> r ∈ event_outbox t /\ outbox_pending r = true.
Proof using L.
  intros [i Hi]%list_elem_of_lookup. apply lookup_take_Some in Hi as [Hi _]. apply list_elem_of_lookup_2 in Hi.
  rewrite (order_permutation (pending_rows t)) in Hi. apply list_elem_of_In, filter_In in Hi as [H1 H2].
  split; [by apply list_elem_of_In|done].
Qed.

Lemma same_id t r x : wf_outbox t -> r ∈ event_outbox t -> x ∈ event_outbox t -> ob_id r = ob_id x -> r = x.
Proof.
  intros [Hnd _] [i Hi]%list_elem_of_lookup [j Hj]%list_elem_of_lookup E.
  assert (i = j) as ->; [|congruence].
  apply (NoDup_lookup (map ob_id (event_outbox t)) i j (ob_id r) Hnd); rewrite list_lookup_fmap;
    [by rewrite Hi|rewrite Hj; cbn; by rewrite E].
Qed.

(** The update marks exactly the batch. *)
Definition hit (t : Tables) (r : OutboxRow) : bool :=
  existsb (fun i => bool_decide (ob_id r = i)) (map (fun r => c_str (ob_id r)) (batch t)).

Lemma hit_batch t r : wf_outbox t -> r ∈ event_outbox t -> hit t r = true <-> r ∈ batch t.
Proof using L.
  intros Hwf Hr. pose proof Hwf as [_ Hn]. rewrite list.Forall_forall in Hn. unfold hit. rewrite existsb_exists. split.
  - intros (i & Hi & E%bool_decide_eq_true). apply in_map_iff in Hi as (x & <- & Hx%list_elem_of_In).
    destruct (batch_incl t x Hx) as [Hx' _]. rewrite c_str_id in E by (by apply Hn).
    by rewrite (same_id t r x Hwf Hr Hx' E).
  - intros Hin. exists (c_str (ob_id r)). split; [apply in_map_iff; exists r; split; [done|by apply list_elem_of_In]|].
    rewrite c_str_id by (by apply Hn). by apply bool_decide_eq_true.
Qed.

Definition marked (t : Tables) : Tables :=
  mkTables (signature_records t) (map (fun r => if hit t r then set_status DISPATCHED_ r else r) (event_outbox t)).

Lemma filter_perm {A} (f : A -> bool) (l k : list A) : Permutation l k -> Permutation (List.filter f l) (List.filter f k).
Proof.
  induction 1 as [|x l k _ IH|x y l|l k m _ IH1 _ IH2]; cbn; [done| | |by etrans].
  - destruct (f x); [by constructor|done].
  - destruct (f x), (f y); done || constructor.
Qed.

Lemma filter_all {A} (f : A -> bool) (l : list A) b :
  (forall x, x ∈ l -> f x = b) -> List.filter f l = if b then l else [].
Proof.
  intros H. induction l as [|x l IH]; [by destruct b|]. cbn. rewrite (H x) by (by constructor).
  destruct b; rewrite IH; done || (intros y Hy; apply H; by constructor).
Qed.

Lemma pending_marked t : pending_rows (marked t) = List.filter (fun r => negb (hit t r)) (pending_rows t).
Proof.
  unfold pending_rows, marked. cbn [event_outbox]. generalize (hit t) as h. intros h.
  induction (event_outbox t) as [|r l IH]; [done|]. cbn [map List.filter]. rewrite IH. destruct (h r) eqn:E.
  - change (outbox_pending (set_status DISPATCHED_ r)) with false. cbv iota.
    destruct (outbox_pending r); [|done]. cbn [List.filter]. by rewrite E.
  - destruct (outbox_pending r); [|done]. cbn [List.filter]. by rewrite E.
Qed.

Lemma pending_nodup t : wf_outbox t -> NoDup (map ob_id (pending_rows t)).
Proof.
  intros [Hnd _]. unfold pending_rows. induction (event_outbox t) as [|r l IH]; [constructor|].
  cbn [map] in Hnd. apply list.NoDup_cons in Hnd as [Hn Hnd]. cbn [List.filter].
  destruct (outbox_pending r); [|by apply IH]. cbn [map]. apply list.NoDup_cons. split; [|by apply IH].
  intros (x & E & Hx%list_elem_of_In)%list_elem_of_fmap. apply Hn. rewrite E. apply list_elem_of_fmap.
  exists x. split; [done|]. apply filter_In in Hx as [Hx _]. by apply list_elem_of_In.
Qed.

(** A poll that goes through publishes its batch, and the rest stays pending. *)
Lemma pending_split t :
  wf_outbox t -> Permutation (pending_rows t) (batch t ++ pending_rows (marked t)) /\
  length (pending_rows (marked t)) = (length (pending_rows t) - 32)%nat.
Proof using L.
  intros Hwf. pose proof (order_permutation (pending_rows t)) as Hp.
  set (rest := drop 32 (order_by_created_at (pending_rows t))).
  assert (Hs : Permutation (pending_rows t) (batch t ++ rest)) by (unfold batch, rest; by rewrite take_drop).
  assert (Hnd : NoDup (map ob_id (batch t ++ rest))) by (rewrite <- Hs; by apply pending_nodup).
  assert (Hr : Permutation (pending_rows (marked t)) rest).
  { rewrite pending_marked. rewrite (filter_perm _ _ _ Hs), List.filter_app.
    rewrite (filter_all _ (batch t) false), (filter_all _ rest true); [done| |].
    - intros x Hx. apply negb_true_iff, not_true_iff_false. intros Hh.
      assert (Hxo : x ∈ event_outbox t).
      { assert (x ∈ pending_rows t) as H by (rewrite Hs; set_solver). apply list_elem_of_In, filter_In in H as [H _]. by apply list_elem_of_In. }
      apply (hit_batch t x Hwf Hxo) in Hh. rewrite map_app in Hnd. apply list.NoDup_app in Hnd as (_ & Hd & _).
      apply (Hd (ob_id x)); apply list_elem_of_fmap; eauto.
    - intros x Hx. apply negb_false_iff. apply hit_batch; [done|by apply batch_incl|done]. }
  split; [by rewrite Hr|]. rewrite Hr. unfold rest. rewrite length_drop. by rewrite Hp.
Qed.

Lemma marked_wf t : wf_outbox t -> wf_outbox (marked t).
Proof.
  intros [H1 H2]. unfold wf_outbox, marked. cbn [event_outbox]. split.
  - rewrite map_map. erewrite map_ext; [exact H1|]. intros r. by destruct (hit t r).
  - apply list.Forall_forall. intros x (r & -> & Hr)%list_elem_of_fmap. rewrite list.Forall_forall in H2.
    specialize (H2 r Hr). by destruct (hit t r).
Qed.

Definition goes_through (p : Poll) : bool := negb (p_fault p SELECT_OUTBOX) && negb (p_fault p UPDATE_OUTBOX).

(** The event a poll at a time publishes for a row. *)
Definition replayed_event (instance : list byte) (x : Z * OutboxRow) : NotificationEvent := replay_event (fst x) instance (snd x).

(** A turn either changes nothing or publishes its batch and marks it. *)
Lemma turn_spec instance c (b : B) p :
  let (c', b') := loop_turn instance (c, b) p in
  if goes_through p
  then tables_ c' = marked (tables_ c) /\
       b' = fold_left publish_event (map (replayed_event instance) (map (pair (p_now p)) (batch (tables_ c)))) b
  else c' = c /\ b' = b.
Proof using L.
  unfold loop_turn, poll_once, goes_through. cbn [fst snd]. destruct (p_fault p SELECT_OUTBOX); [done|].
  fold (batch (tables_ c)). rewrite map_map. destruct (batch (tables_ c)) as [|r l] eqn:E.
  - cbn [negb andb map fold_left]. destruct (p_fault p UPDATE_OUTBOX); [done|]. split; [|done].
    unfold marked, hit. rewrite E. cbn [map existsb]. rewrite map_id. by destruct (tables_ c).
  - unfold exec. destruct (p_fault p UPDATE_OUTBOX); [done|]. cbn [negb andb mark_dispatched]. split; [|done].
    cbn [tables_]. unfold marked, hit. by rewrite E.
Qed.

(** What the polls may do to a row. *)
Definition row_moves (r r' : OutboxRow) : Prop := r' = r \/ outbox_pending r = true /\ r' = set_status DISPATCHED_ r.

#[local] Instance row_moves_trans : Transitive row_moves.
Proof.
  intros r1 r2 r3 [->|[H1 ->]] [->|[H2 ->]]; [by left|by right|by right|]. by change (outbox_pending _) with false in H2.
Qed.

Lemma marked_moves t : wf_outbox t -> Forall2 row_moves (event_outbox t) (event_outbox (marked t)).
Proof using L.
  intros Hwf. unfold marked. cbn [event_outbox]. apply Forall2_fmap_r, Forall_Forall2_diag, list.Forall_forall. intros r Hr. unfold row_moves, compose. destruct (hit t r) eqn:E; [right|by left].
  split; [|done]. apply (batch_incl t r). by apply (hit_batch t r Hwf Hr).
Qed.

(** Whatever polls fail, the events published and the rows still pending are together
    the rows that were pending, each once. *)
Lemma loop_once instance polls c (b : B) :
  wf_outbox (tables_ c) ->
  let (c', b') := loop instance (c, b) polls in
  exists replayed, wf_outbox (tables_ c') /\
    Permutation (pending_rows (tables_ c)) (map snd replayed ++ pending_rows (tables_ c')) /\
    b' = fold_left publish_event (map (replayed_event instance) replayed) b /\
    signature_records (tables_ c') = signature_records (tables_ c) /\
    Forall2 row_moves (event_outbox (tables_ c)) (event_outbox (tables_ c')).
Proof using L.
  revert c b. induction polls as [|p polls IH]; intros c b Hwf; unfold loop; cbn [fold_left].
  { exists []. split_and!; [done..|]. apply Forall_Forall2_diag, list.Forall_forall. by left. }
  pose proof (turn_spec instance c b p) as Ht. destruct (loop_turn instance (c, b) p) as [c1 b1].
  fold (loop instance (c1, b1) polls). destruct (goes_through p).
  - destruct Ht as [E1 E2]. specialize (IH c1 b1). rewrite E1 in IH. specialize (IH (marked_wf _ Hwf)).
    destruct (loop instance (c1, b1) polls) as [c' b']. destruct IH as (rp & H1 & H2 & H3 & H4 & H5).
    exists (map (pair (p_now p)) (batch (tables_ c)) ++ rp). split_and!; [done| | |done|].
    + rewrite map_app, map_map, map_id, <- app_assoc, <- H2. by apply pending_split.
    + by rewrite H3, E2, map_app, fold_left_app.
    + etrans; [by apply marked_moves|exact H5].
  - destruct Ht as [-> ->]. by apply IH.
Qed.

Lemma enough_polls instance polls c (b : B) :
  wf_outbox (tables_ c) -> (length (pending_rows (tables_ c)) <= 32 * length (List.filter goes_through polls))%nat ->
  pending_rows (tables_ (fst (loop instance (c, b) polls))) = [].
Proof using L.
  revert c b. induction polls as [|p polls IH]; intros c b Hwf Hn; unfold loop; cbn [fold_left].
  { cbn in Hn. cbn [fst]. by apply length_zero_iff_nil; lia. }
  pose proof (turn_spec instance c b p) as Ht. destruct (loop_turn instance (c, b) p) as [c1 b1].
  fold (loop instance (c1, b1) polls). cbn [List.filter] in Hn. destruct (goes_through p).
  - destruct Ht as [E _]. apply IH; rewrite E; [by apply marked_wf|].
    rewrite (proj2 (pending_split _ Hwf)). cbn [length] in Hn. lia.
  - destruct Ht as [-> _]. by apply IH.
Qed.

(** All pending rows are dispatched and no other row has changed. *)
Lemma moved_all rows rows' :
  Forall2 row_moves rows rows' -> List.filter outbox_pending rows' = [] ->
  rows' = map (fun r => if outbox_pending r then set_status DISPATCHED_ r else r) rows.
Proof.
  induction 1 as [|r r' l l' Hr _ IH]; [done|]. cbn [List.filter map]. intros H.
  destruct (outbox_pending r') eqn:E; [done|]. rewrite (IH H). f_equal. destruct Hr as [->|[-> ->]]; [by rewrite E|done].
Qed.

End Once.

(** A bus with room keeps what is published, in order. *)
Lemma publish_room es (b : Bus.BoundedNotificationBus) :
  Bus.size b + len es <= Bus.capacity_ b ->
  fold_left publish_event es b = Bus.mkBus (Bus.capacity_ b) (Bus.queue_ b ++ es) (Bus.dropped_ b).
Proof.
  revert b. induction es as [|e es IH]; intros b H; cbn [fold_left]; [rewrite app_nil_r; by destruct b|].
  unfold Bus.size in *. rewrite len_cons in H. pose proof (len_nonneg es).
  assert (E : publish_event b e = Bus.mkBus (Bus.capacity_ b) (Bus.queue_ b ++ [e]) (Bus.dropped_ b)).
  { unfold publish_event, Bus.bounded_bus, Bus.publish. by rewrite (proj2 (Z.leb_gt _ _)) by lia. }
  rewrite E, IH; cbn [Bus.capacity_ Bus.queue_ Bus.dropped_]; [by rewrite <- app_assoc|].
  unfold Bus.size. cbn [Bus.queue_]. rewrite len_app, len_cons, len_nil. lia.
Qed.

Section Drains.
Context `{O : SqlOrder} {L : SqlOrderLaws O}.


End Drains.

(** *** Witnesses *)

(** Insertion by time: one order the engine may return. *)
Fixpoint insert_by_time (r : OutboxRow) (l : list OutboxRow) : list OutboxRow :=
  match l with
  | [] => [r]
  | x :: l => if ob_created_at r <=? ob_created_at x then r :: x :: l else x :: insert_by_time r l
  end.

#[local] Instance stable_order : SqlOrder := fun l => fold_right insert_by_time [] l.

Lemma insert_perm r l : Permutation (insert_by_time r l) (r :: l).
Proof.
  induction l as [|x l IH]; [done|]. cbn. destruct (_ <=? _); [done|]. rewrite IH. constructor.
Qed.

Lemma insert_sorted_by_time r l :
  StronglySorted (fun a b => ob_created_at a <= ob_created_at b) l ->
  StronglySorted (fun a b => ob_created_at a <= ob_created_at b) (insert_by_time r l).
Proof.
  induction 1 as [|x l Hl IH Hx]; [by repeat constructor|]. cbn. destruct (Z.leb_spec (ob_created_at r) (ob_created_at x)).
  - constructor; [by constructor|]. constructor; [done|]. eapply list.Forall_impl; [exact Hx|]. cbn. intros y Hy. lia.
  - constructor; [done|]. eapply Permutation_Forall; [symmetry; apply insert_perm|]. constructor; [lia|done].
Qed.

#[local] Instance stable_order_laws : SqlOrderLaws stable_order.
Proof.
  split; intros l; unfold order_by_created_at, stable_order.
  - induction l as [|r l IH]; [done|]. cbn [fold_right]. by rewrite insert_perm, IH.
  - induction l as [|r l IH]; [constructor|]. cbn [fold_right]. by apply insert_sorted_by_time.
Qed.

Definition sample_outbox_row (i : Z) : OutboxRow :=
  mkOutbox (to_string i) (100 - i) (bytes_of "SIGN_CREATED") (bytes_of "id") (bytes_of "{}") PENDING.
Definition outbox_conn : Conn := mkConn (mkTables [] (map sample_outbox_row [1; 2; 3])) None.

Lemma outbox_conn_wf : wf_outbox (tables_ outbox_conn).
Proof. split; apply (bool_decide_unpack _); vm_compute; exact I. Qed.

(** A poll whose update fails, and one that goes through. *)
Definition sample_polls : list Poll := [mkPoll (one_fault UPDATE_OUTBOX) 7; mkPoll no_fault 8].


(** The bus drops what it has no room for, after the rows were marked: the
    event is never delivered. *)
Lemma full_bus_loses_event :
  let '(_, c, bus) := poll_once no_fault 8 [] outbox_conn (Bus.new_bus 1) in
  pending_rows (tables_ c) = [] /\ Bus.size bus = 1 /\ Bus.dropped_count bus = 2.
Proof. vm_compute. by split_and!. Qed.

End Outbox.

(** ** The notification dispatcher *)

Module Notify.

Record NotificationSubscriber : Type := mkSubscriber {
  s_id : list byte;
  s_name : list byte;
  s_channel : list byte;
  s_address : list byte;
  s_min_severity : list byte;
  s_event_filter : option (list byte);
  s_enabled : bool
}.

Definition severity_rank (severity : list byte) : Z :=
  if bool_decide (severity = bytes_of "CRITICAL") then 3
  else if bool_decide (severity = bytes_of "WARN") then 2
  else if bool_decide (severity = bytes_of "INFO") then 1 else -1.

Definition event_rank (s : Severity.Severity) : Z :=
  match s with Severity.CRITICAL => 3 | Severity.WARNING => 2 | Severity.INFO => 1 end.

Definition event_type_name (t : EventType.EventType) : list byte :=
  bytes_of (match t with
  | EventType.SIGN_CREATED => "SIGN_CREATED"
  | EventType.DB_WRITE_FAILED => "DB_WRITE_FAILED"
  | EventType.LEDGER_COMMIT_FAILED => "LEDGER_COMMIT_FAILED"
  | EventType.LEDGER_COMMITTED => "LEDGER_COMMITTED"
  | EventType.LEDGER_VERIFY_FAILED => "LEDGER_VERIFY_FAILED"
  | EventType.VERIFY_COMPLETED => "VERIFY_COMPLETED"
  | EventType.VERIFY_FAILED => "VERIFY_FAILED"
  | EventType.ENCRYPT_COMPLETED => "ENCRYPT_COMPLETED"
  | EventType.DECRYPT_COMPLETED => "DECRYPT_COMPLETED"
  | EventType.WRAP_KEY_COMPLETED => "WRAP_KEY_COMPLETED"
  | EventType.UNWRAP_KEY_COMPLETED => "UNWRAP_KEY_COMPLETED"
  | EventType.KEY_ROTATED => "KEY_ROTATED"
  | EventType.KEY_DESTROYED => "KEY_DESTROYED"
  | EventType.INTEGRITY_ALERT => "INTEGRITY_ALERT"
  | EventType.ADMIN_LOGIN => "ADMIN_LOGIN"
  | EventType.PIN_LOCKOUT => "PIN_LOCKOUT"
  end).

(** The parts of the filter between its commas. *)
Fixpoint split_commas (cur s : list byte) : list (list byte) :=
  match s with
  | [] => [cur]
  | c :: s => if u8 c =? 44 then cur :: split_commas [] s else split_commas (cur ++ [c]) s
  end.

Definition is_blank (c : byte) : bool := (u8 c =? 32) || (u8 c =? 9).

Fixpoint skip_blanks (s : list byte) : list byte :=
  match s with
  | c :: r => if is_blank c then skip_blanks r else s
  | [] => []
  end.

(** A part of blanks only is left as it is. *)
Definition trim (s : list byte) : list byte :=
  if forallb is_blank s then s else rev (skip_blanks (rev (skip_blanks s))).

Definition filter_accepts (filter name : list byte) : bool :=
  existsb (fun part => let token := trim part in
             negb (bool_decide (token = [])) && contains token name) (split_commas [] filter).

Definition matches (sub : NotificationSubscriber) (event : NotificationEvent) : bool :=
  if negb (s_enabled sub) then false
  else
    let sub_rank := severity_rank (s_min_severity sub) in
    if (0 <? sub_rank) && (event_rank (ev_severity event) <? sub_rank) then false
    else match s_event_filter sub with
         | Some f => if bool_decide (f = []) then true else filter_accepts f (event_type_name (ev_type event))
         | None => true
         end.

Record RetryPolicy : Type := mkRetry { max_retries : Z; base_delay_ms : Z; max_delay_ms : Z; multiplier : Z }.

Definition default_retry : RetryPolicy := mkRetry 3 500 30000 2.

(** The delay before the next attempt: [n] multiplications, stopped by the cap. *)
Fixpoint grow (p : RetryPolicy) (n : nat) (delay : Z) : Z :=
  match n with
  | O => delay
  | S n => let delay := delay * multiplier p in
           if max_delay_ms p <? delay then max_delay_ms p else grow p n delay
  end.

Definition backoff (p : RetryPolicy) (attempt : nat) : Z := grow p attempt (base_delay_ms p).

Inductive Outcome : Type := DELIVERED | RETRYING | FAILED | SKIPPED.

Record LogEntry : Type := mkLogEntry {
  l_sent_at : Z;
  l_event : list byte;
  l_subscriber : list byte;
  l_outcome : Outcome;
  l_attempt_count : Z;
  l_error : list byte
}.

(** What a delivery did: its answer, the calls of the adapter, the delays slept
    and the entries written to the log. *)
Record Delivery : Type := mkDelivery { delivered : bool; calls : nat; slept : list Z; logged : list LogEntry }.

Definition log_entry (sub : NotificationSubscriber) (e : NotificationEvent) (o : Outcome) (n : Z) (err : list byte) : LogEntry :=
  mkLogEntry (ev_timestamp e) (event_type_name (ev_type e)) (s_id sub) o n err.

(** The loop of attempts, [more] of them after this one. *)
Fixpoint attempts (p : RetryPolicy) (sub : NotificationSubscriber) (e : NotificationEvent)
    (deliver : nat -> bool) (attempt more : nat) : Delivery :=
  if deliver attempt then mkDelivery true 1 [] []
  else
    let n := Z.of_nat attempt + 1 in
    let last_error := bytes_of "attempt " ++ int_to_string n ++ bytes_of " failed" in
    match more with
    | O => mkDelivery false 1 [] [log_entry sub e FAILED n last_error]
    | S more =>
      let r := attempts p sub e deliver (S attempt) more in
      mkDelivery (delivered r) (S (calls r)) (backoff p attempt :: slept r)
        (log_entry sub e RETRYING n last_error :: logged r)
    end.

(** The number of attempts after the first. *)
Definition retries (p : RetryPolicy) (e : NotificationEvent) : Z :=
  match ev_severity e with Severity.INFO => 0 | _ => max_retries p end.

(** [adapter] is the one registered for the channel of the subscriber; a
    negative number of retries makes no attempt and reports a failure. *)
Definition deliver_with_retry (p : RetryPolicy) (adapter : option (nat -> bool)) (sub : NotificationSubscriber)
    (e : NotificationEvent) : Delivery :=
  match adapter with
  | None => mkDelivery false 0 [] [log_entry sub e SKIPPED 1 (bytes_of "no adapter for channel: " ++ s_channel sub)]
  | Some deliver =>
    if retries p e <? 0 then mkDelivery false 0 [] []
    else
      let r := attempts p sub e deliver 0 (Z.to_nat (retries p e)) in
      if delivered r then mkDelivery true (calls r) (slept r) (logged r ++ [log_entry sub e DELIVERED 1 []]) else r
  end.

(** *** Dispatching *)

(** What the adapter of a channel answers: a function of the subscriber, the
    event and the attempt. *)
Definition Adapters : Type := list byte -> option (NotificationSubscriber -> NotificationEvent -> nat -> bool).

Record Dispatching : Type := mkDispatching {
  n_bus : Bus.BoundedNotificationBus;
  n_delivered : Z;
  n_failed : Z;
  n_log : list LogEntry
}.

Section Dispatch.
Context (p : RetryPolicy) (adapters : Adapters).

Definition deliver_one (e : NotificationEvent) (st : Dispatching) (sub : NotificationSubscriber) : Dispatching :=
  if negb (matches sub e) then st
  else
    let adapter := option_map (fun f => f sub e) (adapters (s_channel sub)) in
    let r := deliver_with_retry p adapter sub e in
    let skipped := bool_decide (adapter = None) in
    mkDispatching (n_bus st) (if delivered r then n_delivered st + 1 else n_delivered st)
      (if delivered r || skipped then n_failed st else n_failed st + 1) (n_log st ++ logged r).

Definition deliver_to_all (subs : list NotificationSubscriber) (st : Dispatching) (e : NotificationEvent) : Dispatching :=
  fold_left (deliver_one e) subs st.

(** One turn of [dispatch_loop]: [subs] is what the repository answers. *)
Definition dispatch_turn (subs : res (list NotificationSubscriber)) (st : Dispatching) : Dispatching :=
  match Bus.try_pop (n_bus st) with
  | (None, _) => st
  | (Some e, b) =>
    let st := mkDispatching b (n_delivered st) (n_failed st) (n_log st) in
    match subs with
    | Ok subs => deliver_to_all subs st e
    | Throw _ => mkDispatching b (n_delivered st) (n_failed st + 1) (n_log st)
    end
  end.

(** The last sweep of [drain_and_stop]: the repository is asked for its enabled
    subscribers once per event, and [answers] is what it answers; an exception
    of the query loses the event. *)
Fixpoint final_sweep (answers : list (res (list NotificationSubscriber))) (st : Dispatching) : Dispatching :=
  match answers with
  | [] => st
  | subs :: answers =>
    match Bus.try_pop (n_bus st) with
    | (None, _) => st
    | (Some e, b) =>
      let st := mkDispatching b (n_delivered st) (n_failed st) (n_log st) in
      final_sweep answers (match subs with Ok subs => deliver_to_all subs st e | Throw _ => st end)
    end
  end.

End Dispatch.

(** *** Properties *)

(** The values the loop of [backoff] computes. *)
Fixpoint products (p : RetryPolicy) (n : nat) (delay : Z) : list Z :=
  match n with
  | O => []
  | S n => let delay := delay * multiplier p in
           delay :: if max_delay_ms p <? delay then [] else products p n delay
  end.

Definition wf_retry (p : RetryPolicy) : Prop :=
  0 <= max_retries p /\ 0 <= base_delay_ms p <= max_delay_ms p /\ 0 <= multiplier p /\
  max_delay_ms p * multiplier p < 2 ^ 31.

Lemma grow_bounds p n delay :
  wf_retry p -> 0 <= delay <= max_delay_ms p ->
  0 <= grow p n delay <= max_delay_ms p /\ Forall (fun z => 0 <= z < 2 ^ 31) (products p n delay).
Proof.
  intros (_ & Hb & Hm & Ho). revert delay. induction n as [|n IH]; intros delay Hd; cbn [grow products]; [done|].
  assert (Hp : 0 <= delay * multiplier p < 2 ^ 31) by nia.
  destruct (Z.ltb_spec (max_delay_ms p) (delay * multiplier p)).
  - split; [lia|]. constructor; [done|constructor].
  - destruct (IH (delay * multiplier p)) as [H1 H2]; [lia|]. split; [done|]. by constructor.
Qed.

(** The attempts: up to the first that succeeds, all of them otherwise. *)
Lemma attempts_spec p sub e f a more :
  let r := attempts p sub e f a more in
  (1 <= calls r <= S more)%nat /\
  (forall i, (i < calls r - 1)%nat -> f (a + i)%nat = false) /\
  delivered r = f (a + (calls r - 1))%nat /\
  (delivered r = false -> calls r = S more) /\
  slept r = map (backoff p) (seq a (calls r - 1)) /\
  map l_outcome (logged r) = replicate (calls r - 1) RETRYING ++ (if delivered r then [] else [FAILED]).
Proof.
  revert a. induction more as [|more IH]; intros a; cbn [attempts].
  - destruct (f a) eqn:E; cbn [calls delivered slept logged]; rewrite Nat.add_0_r, E; split_and!; try done; intros; lia.
  - destruct (f a) eqn:E; cbn [calls delivered slept logged].
    { rewrite Nat.add_0_r, E. split_and!; try done; intros; lia. }
    specialize (IH (S a)). set (r := attempts p sub e f (S a) more) in *. cbv zeta in IH.
    destruct IH as (H1 & H2 & H3 & H4 & H5 & H6). cbv zeta. split_and!.
    + lia.
    + lia.
    + intros i Hi. destruct i as [|i]; [by rewrite Nat.add_0_r|]. rewrite <- Nat.add_succ_comm. apply H2. lia.
    + rewrite H3. f_equal. lia.
    + intros Hd. by rewrite (H4 Hd).
    + rewrite H5. replace (S (calls r) - 1)%nat with (S (calls r - 1))%nat by lia. done.
    + cbn [map]. rewrite H6. replace (S (calls r) - 1)%nat with (S (calls r - 1))%nat by lia. done.
Qed.

(** A delivery ends after a bounded number of attempts.  It stops at the first
    attempt that succeeds and makes at most the configured retries, none for an
    informational event; it sleeps the capped exponential backoff between
    attempts, whose computation never exceeds an [int]; and the log ends with
    exactly one entry that says how it went, after one entry per failed attempt
    that was retried. *)
Theorem delivery_terminates (p : RetryPolicy) (f : nat -> bool) (sub : NotificationSubscriber) (e : NotificationEvent)
    (Hp : wf_retry p) :
  let r := deliver_with_retry p (Some f) sub e in
  (1 <= calls r <= S (Z.to_nat (retries p e)))%nat /\
  (ev_severity e = Severity.INFO -> calls r = 1%nat) /\
  (forall i, (i < calls r - 1)%nat -> f i = false) /\
  delivered r = f (calls r - 1)%nat /\
  (delivered r = false -> calls r = S (Z.to_nat (retries p e))) /\
  slept r = map (backoff p) (seq 0 (calls r - 1)) /\
  Forall (fun d => 0 <= d <= max_delay_ms p) (slept r) /\
  (forall i, Forall (fun z => 0 <= z < 2 ^ 31) (products p i (base_delay_ms p))) /\
  map l_outcome (logged r) = replicate (calls r - 1) RETRYING ++ [if delivered r then DELIVERED else FAILED].
Proof.
  pose proof (attempts_spec p sub e f 0 (Z.to_nat (retries p e))) as H. unfold deliver_with_retry.
  assert (Hr : 0 <= retries p e) by (unfold retries; destruct (ev_severity e); [lia|apply Hp..]).
  rewrite (proj2 (Z.ltb_ge _ _) Hr). set (r := attempts p sub e f 0 (Z.to_nat (retries p e))) in *.
  destruct H as (H1 & H2 & H3 & H4 & H5 & H6). cbn [Nat.add] in *.
  assert (Hi : ev_severity e = Severity.INFO -> calls r = 1%nat) by (unfold retries in H1; intros E; rewrite E in H1; cbn in H1; lia).
  assert (Hs : Forall (fun d => 0 <= d <= max_delay_ms p) (slept r)).
  { rewrite H5. apply list.Forall_forall. intros d (i & -> & _)%list_elem_of_fmap. apply grow_bounds; [done|apply Hp]. }
  assert (Ho : forall i, Forall (fun z => 0 <= z < 2 ^ 31) (products p i (base_delay_ms p)))
    by (intros i; apply grow_bounds; [done|apply Hp]).
  destruct (delivered r) eqn:Ed; cbn [calls delivered slept logged]; split_and!; try done; try apply H1.
  - by rewrite map_app, H6, app_nil_r.
  - by rewrite Ed.
  - intros _. by apply H4.
  - by rewrite H6, Ed.
Qed.

(** A subscriber, a critical event and an adapter that succeeds at its third call. *)
Definition pager : NotificationSubscriber :=
  mkSubscriber (bytes_of "sub-1") (bytes_of "ops") (bytes_of "webhook") (bytes_of "http://ops") (bytes_of "WARN") (Some (bytes_of "VERIFY, PIN")) true.

Definition lockout : NotificationEvent :=
  mkEvent EventType.PIN_LOCKOUT Severity.CRITICAL 0 [] [] [] [] [].

Lemma delivery_terminates_witness :
  wf_retry default_retry /\
  let r := deliver_with_retry default_retry (Some (fun n => (2 <=? n)%nat)) pager lockout in
  calls r = 3%nat /\ delivered r = true /\ slept r = [500; 1000] /\
  map l_outcome (logged r) = [RETRYING; RETRYING; DELIVERED].
Proof.
  assert (H : wf_retry default_retry) by (cbv; repeat split; discriminate || reflexivity).
  destruct (delivery_terminates default_retry (fun n => (2 <=? n)%nat) pager lockout H) as (_ & _ & _ & H3 & _ & H5 & _).
  split; [exact H|]. cbv zeta. split; [vm_compute; reflexivity|]. split; [exact H3|]. split; [exact H5|]. vm_compute; reflexivity.
Defined.

(** *** The last sweep *)

(** The deliveries that ended, as pairs of an event name and a subscriber. *)
Definition ended (log : list LogEntry) : list (list byte * list byte) :=
  map (fun l => (l_event l, l_subscriber l))
    (List.filter (fun l => match l_outcome l with RETRYING => false | _ => true end) log).

(** The deliveries an event asks for. *)
Definition wanted (subs : list NotificationSubscriber) (e : NotificationEvent) : list (list byte * list byte) :=
  map (fun sub => (event_type_name (ev_type e), s_id sub)) (List.filter (fun sub => matches sub e) subs).

Lemma ended_app l1 l2 : ended (l1 ++ l2) = ended l1 ++ ended l2.
Proof. unfold ended. by rewrite List.filter_app, map_app. Qed.

Lemma attempts_ended p sub e f a more :
  let r := attempts p sub e f a more in
  ended (logged r) = if delivered r then [] else [(event_type_name (ev_type e), s_id sub)].
Proof.
  revert a. induction more as [|more IH]; intros a; cbn [attempts]; destruct (f a); try done.
  cbn [delivered logged]. exact (IH (S a)).
Qed.

Lemma delivery_ended p adapter sub e :
  0 <= max_retries p ->
  ended (logged (deliver_with_retry p adapter sub e)) = [(event_type_name (ev_type e), s_id sub)].
Proof.
  intros Hp. unfold deliver_with_retry. destruct adapter as [f|]; [|done].
  assert (Hr : 0 <= retries p e) by (unfold retries; destruct (ev_severity e); lia).
  rewrite (proj2 (Z.ltb_ge _ _) Hr). pose proof (attempts_ended p sub e f 0 (Z.to_nat (retries p e))) as H.
  cbv zeta in H. destruct (delivered (attempts _ _ _ _ _ _)); [|done]. cbn [logged]. by rewrite ended_app, H.
Qed.

Lemma deliver_to_all_spec p adapters subs e st :
  0 <= max_retries p ->
  let st' := deliver_to_all p adapters subs st e in
  n_bus st' = n_bus st /\ ended (n_log st') = ended (n_log st) ++ wanted subs e.
Proof.
  intros Hp. unfold deliver_to_all. revert st. induction subs as [|sub subs IH]; intros st; cbn [fold_left].
  { split; [done|]. by rewrite app_nil_r. }
  destruct (IH (deliver_one p adapters e st sub)) as [H1 H2]. cbv zeta. rewrite H1, H2.
  unfold deliver_one, wanted. cbn [List.filter]. destruct (matches sub e); [|done].
  cbn [negb n_bus n_log map]. rewrite ended_app, (delivery_ended _ _ _ _ Hp), <- app_assoc. done.
Qed.

(** The deliveries asked for by an event whose subscribers the repository answered. *)
Definition wanted_of (e : NotificationEvent) (subs : res (list NotificationSubscriber)) : list (list byte * list byte) :=
  match subs with Ok subs => wanted subs e | Throw _ => [] end.

(** The sweep that follows the stop of the dispatcher leaves nothing behind:
    with one answer of the repository per queued event it empties the bus, and
    the log gains, in the order of the queue, exactly one closing entry
    (delivered, failed or skipped) for every event and every subscriber that
    wants it, and none for the others. *)
Theorem sweep_accounts_for_every_event (p : RetryPolicy) (adapters : Adapters)
    (answers : list (res (list NotificationSubscriber))) (st : Dispatching)
    (Hp : 0 <= max_retries p) (Hf : (length (Bus.queue_ (n_bus st)) <= length answers)%nat) :
  let st' := final_sweep p adapters answers st in
  Bus.queue_ (n_bus st') = [] /\
  ended (n_log st') = ended (n_log st) ++ concat (zip_with wanted_of (Bus.queue_ (n_bus st)) answers).
Proof.
  revert st Hf. induction answers as [|subs answers IH]; intros st Hf; cbn [final_sweep].
  { destruct (Bus.queue_ (n_bus st)); [|cbn in Hf; lia]. split; [done|]. by rewrite app_nil_r. }
  unfold Bus.try_pop. destruct (Bus.queue_ (n_bus st)) as [|e q] eqn:Eq.
  { cbv zeta. rewrite Eq. split; [done|]. by rewrite app_nil_r. }
  set (st0 := mkDispatching _ (n_delivered st) (n_failed st) (n_log st)).
  set (st1 := match subs with Ok subs => deliver_to_all p adapters subs st0 e | Throw _ => st0 end).
  assert (H : Bus.queue_ (n_bus st1) = q /\ ended (n_log st1) = ended (n_log st) ++ wanted_of e subs).
  { destruct subs as [subs|x]; subst st1; [|split; [done|]; cbn; by rewrite app_nil_r].
    destruct (deliver_to_all_spec p adapters subs e st0 Hp) as [H1 H2]. cbv zeta in H1, H2. by rewrite H1, H2. }
  destruct H as [H1 H2]. destruct (IH st1) as [H3 H4]; [rewrite H1; cbn in Hf; lia|].
  split; [exact H3|]. rewrite H4, H2, H1. cbn [zip_with concat]. by rewrite <- app_assoc.
Qed.

(** Two events, two subscribers; the second event interests one of them. *)
Definition sweep_start : Dispatching :=
  mkDispatching (Bus.publish (Bus.publish (Bus.new_bus 8) lockout)
                   (mkEvent EventType.SIGN_CREATED Severity.INFO 0 [] [] [] [] [])) 0 0 [].

Definition archive : NotificationSubscriber :=
  mkSubscriber (bytes_of "sub-2") (bytes_of "archive") (bytes_of "email") (bytes_of "a@b") (bytes_of "INFO") None true.

Lemma sweep_accounts_for_every_event_witness :
  let st' := final_sweep default_retry (fun ch => if bool_decide (ch = bytes_of "webhook") then Some (fun _ _ _ => false) else None)
               [Ok [pager; archive]; Ok [pager; archive]] sweep_start in
  Bus.queue_ (n_bus st') = [] /\
  ended (n_log st') = [(bytes_of "PIN_LOCKOUT", bytes_of "sub-1"); (bytes_of "PIN_LOCKOUT", bytes_of "sub-2");
                       (bytes_of "SIGN_CREATED", bytes_of "sub-2")].
Proof.
  refine (sweep_accounts_for_every_event default_retry _ [Ok [pager; archive]; Ok [pager; archive]] sweep_start _ _);
    vm_compute; [discriminate|apply le_n].
Defined.

End Notify.
