(* ===== verification/Adapters.v ===== *)
(** * The notification adapters

    [src/src/notification/email_adapter.cpp], [webhook_adapter.cpp],
    [grpc_push_adapter.cpp] and [mobile_push_adapter.cpp]: how an event becomes the
    text that is sent to a subscriber, and when it counts as delivered.

    A JSON document is [jval]; the nlohmann library's reader and writer are the
    class [JsonText].  Its writer throws when a text of the document is not UTF-8
    (the strict handler, the library's default); its reader accepts no such text.
    libcurl is a function from a request to its outcome, environment variables and
    the transport of a subclass are arguments. *)

From S2P Require Import Prelude Codec Types AuditLog KeyPolicy Notification Delivery.
Import Notify.

(** ** JSON documents *)

#[warnings="-register-all"]
Inductive jval : Type :=
| JNull
| JBool (b : bool)
| JInt (z : Z)
| JReal (text : list byte)
| JStr (s : list byte)
| JArr (l : list jval)
| JObj (members : list (list byte * jval)).

(** UTF-8 (RFC 3629): [more] continuation bytes are due, the next one between [lo]
    and [hi]. *)
Fixpoint utf8_from (more : nat) (lo hi : Z) (s : list byte) : bool :=
  match more, s with
  | O, [] => true
  | S _, [] => false
  | O, c :: s =>
    let z := u8 c in
    if z <? 128 then utf8_from 0 128 191 s
    else if (194 <=? z) && (z <=? 223) then utf8_from 1 128 191 s
    else if z =? 224 then utf8_from 2 160 191 s
    else if z =? 237 then utf8_from 2 128 159 s
    else if (225 <=? z) && (z <=? 239) then utf8_from 2 128 191 s
    else if z =? 240 then utf8_from 3 144 191 s
    else if (241 <=? z) && (z <=? 243) then utf8_from 3 128 191 s
    else if z =? 244 then utf8_from 3 128 143 s
    else false
  | S more, c :: s => (lo <=? u8 c) && (u8 c <=? hi) && utf8_from more 128 191 s
  end.

Definition utf8 (s : list byte) : bool := utf8_from 0 128 191 s.

Fixpoint utf8_ok (j : jval) : bool :=
  match j with
  | JStr s => utf8 s
  | JArr l => forallb utf8_ok l
  | JObj ms => forallb (fun m => utf8 m.1 && utf8_ok m.2) ms
  | _ => true
  end.

Class JsonText : Type := {
  (** [nlohmann::json::parse]; [None] when it throws. *)
  json_parse : list byte -> option jval;
  json_text : jval -> list byte }.

Class JsonTextLaws (J : JsonText) : Prop := {
  parse_text : forall j, utf8_ok j = true -> json_parse (json_text j) = Some j;
  parsed_utf8 : forall s j, json_parse s = Some j -> utf8_ok j = true }.

Definition type_error : exn := OtherException "[json.exception.type_error]".

Section Adapters.
Context `{J : JsonText}.

(** [dump()]. *)
Definition dump (j : jval) : res (list byte) := if utf8_ok j then Ok (json_text j) else Throw type_error.

(** [static_cast<int>] of the enumerations. *)
Definition event_type_int (t : EventType.EventType) : Z :=
  match t with
  | EventType.SIGN_CREATED => 0 | EventType.DB_WRITE_FAILED => 1 | EventType.LEDGER_COMMIT_FAILED => 2
  | EventType.LEDGER_COMMITTED => 3 | EventType.LEDGER_VERIFY_FAILED => 4 | EventType.VERIFY_COMPLETED => 5
  | EventType.VERIFY_FAILED => 6 | EventType.ENCRYPT_COMPLETED => 7 | EventType.DECRYPT_COMPLETED => 8
  | EventType.WRAP_KEY_COMPLETED => 9 | EventType.UNWRAP_KEY_COMPLETED => 10 | EventType.KEY_ROTATED => 11
  | EventType.KEY_DESTROYED => 12 | EventType.INTEGRITY_ALERT => 13 | EventType.ADMIN_LOGIN => 14
  | EventType.PIN_LOCKOUT => 15
  end.

Definition severity_int (s : Severity.Severity) : Z :=
  match s with Severity.INFO => 0 | Severity.WARNING => 1 | Severity.CRITICAL => 2 end.

(** ** Email *)

Definition CRLF : list byte := [to_u8 13; to_u8 10].

Definition render_message (e : NotificationEvent) (from : list byte) : list byte :=
  let t := int_to_string (event_type_int (ev_type e)) in
  bytes_of "From: <" ++ from ++ bytes_of ">" ++ CRLF ++
  bytes_of "To: <subscriber>" ++ CRLF ++
  bytes_of "Subject: [vHSM] " ++ ev_summary e ++ CRLF ++
  bytes_of "Date: " ++ int_to_string (ev_timestamp e) ++ CRLF ++
  bytes_of "X-vHSM-Event-Type: " ++ t ++ CRLF ++
  CRLF ++
  bytes_of "type=" ++ t ++ bytes_of " severity=" ++ int_to_string (severity_int (ev_severity e)) ++
  bytes_of " timestamp=" ++ int_to_string (ev_timestamp e) ++ CRLF ++
  bytes_of "source=" ++ ev_source e ++ CRLF ++
  bytes_of "actor=" ++ ev_actor e ++ CRLF ++
  bytes_of "summary=" ++ ev_summary e ++ CRLF ++
  bytes_of "detail=" ++ ev_detail_json e ++ CRLF ++
  bytes_of "hsm_instance=" ++ ev_hsm_instance e ++ CRLF.

(** [env]: the fallback for a variable that is not set or empty. *)
Definition env_or (v : option (list byte)) (fallback : list byte) : list byte :=
  match v with Some s => if bool_decide (s = []) then fallback else s | None => fallback end.

Definition email_deliver (sender : list byte -> list byte -> bool) (smtp_from : option (list byte))
    (sub : NotificationSubscriber) (e : NotificationEvent) : bool :=
  sender (s_address sub) (render_message e (env_or smtp_from (bytes_of "vhsm@localhost"))).

(** [EmailAdapter::default_sender]. *)
Definition email_default_sender (smtp_server : option (list byte)) (to message : list byte) : bool :=
  if bool_decide (default [] smtp_server = []) then false else false.

(** ** JSON payloads *)

(** The parsed detail, or its text when it does not parse. *)
Definition detail_value (e : NotificationEvent) : jval :=
  match json_parse (if bool_decide (ev_detail_json e = []) then bytes_of "{}" else ev_detail_json e) with
  | Some j => j
  | None => JStr (ev_detail_json e)
  end.

(** The members that all three payloads have. *)
Definition common (e : NotificationEvent) : list (list byte * jval) :=
  [(bytes_of "event_type", JInt (event_type_int (ev_type e))); (bytes_of "severity", JInt (severity_int (ev_severity e)));
   (bytes_of "timestamp", JInt (ev_timestamp e)); (bytes_of "source", JStr (ev_source e));
   (bytes_of "actor", JStr (ev_actor e)); (bytes_of "summary", JStr (ev_summary e));
   (bytes_of "detail", detail_value e); (bytes_of "hsm_instance", JStr (ev_hsm_instance e))].

Definition webhook_payload (e : NotificationEvent) : jval :=
  let event_id := if bool_decide (ev_hsm_instance e = []) then bytes_of "local" else ev_hsm_instance e in
  JObj ((bytes_of "event_id", JStr event_id) :: common e).

(** [GrpcPushAdapter::render_payload]. *)
Definition render_payload (e : NotificationEvent) : res (list byte) := dump (JObj (common e)).

Definition BULLET : list byte := bytes_of " • ".

Definition mobile_payload (e : NotificationEvent) : jval :=
  let notif := JObj [(bytes_of "title", JStr (take 60 (ev_summary e)));
                     (bytes_of "body", JStr (ev_actor e ++ BULLET ++ ev_source e))] in
  JObj (common e ++ [(bytes_of "_notification", notif)]).

Definition build_payload (e : NotificationEvent) : res (list byte) := dump (mobile_payload e).

(** A transport of the adapters: the answer and the HTTP status. *)
Definition Sender : Type := list byte -> list byte -> res (bool * Z).

Definition webhook_deliver (sender : Sender) (sub : NotificationSubscriber) (e : NotificationEvent) : res bool :=
  let* body := dump (webhook_payload e) in let* r := sender (s_address sub) body in Ok r.1.

Definition grpc_deliver (sender : list byte -> list byte -> bool) (sub : NotificationSubscriber) (e : NotificationEvent) : res bool :=
  let* payload := render_payload e in Ok (sender (s_address sub) payload).

(** [GrpcPushAdapter::default_sender]. *)
Definition grpc_default_sender (address payload : list byte) : bool := false.

Definition mobile_deliver (sender : Sender) (sub : NotificationSubscriber) (e : NotificationEvent) : res bool :=
  if bool_decide (s_address sub = []) then Ok false
  else let* body := build_payload e in let* r := sender (s_address sub) body in Ok r.1.

(** ** HTTP *)

Record Request : Type := mkRequest { url : list byte; headers : list (list byte); body : list byte }.

(** What libcurl does: whether a handle and a header list were allocated, whether
    the transfer succeeded, and the response code. *)
Record Curl : Type := mkCurl { handle_ok : bool; headers_ok : bool; perform : Request -> bool * Z }.

(** [static_cast<int>] of a [long]. *)
Definition http_status_of (code : Z) : Z := to_int code.

Definition transfer_ok (r : bool * Z) : bool := r.1 && ((200 <=? r.2) && (r.2 <? 300)).

Definition JSON_TYPE : list byte := bytes_of "Content-Type: application/json".

Definition default_libcurl_sender (curl : Curl) : Sender := fun url body =>
  if negb (handle_ok curl) then Ok (false, 0)
  else if negb (headers_ok curl) then Ok (false, 0)
  else let r := perform curl (mkRequest (c_str url) [JSON_TYPE] body) in
       Ok (transfer_ok r, http_status_of r.2).

(** [raw.value(key, fallback)]: throws unless the document is an object. *)
Definition json_value (raw : jval) (key : list byte) (fallback : jval) : res jval :=
  match raw with
  | JObj ms => Ok (default fallback (assoc_last key ms))
  | _ => Throw type_error
  end.

(** The same at type [std::string]. *)
Definition json_string (raw : jval) (key fallback : list byte) : res (list byte) :=
  let* v := json_value raw key (JStr fallback) in
  match v with JStr s => Ok s | _ => Throw type_error end.

Definition reparse (body : list byte) : res jval :=
  match json_parse body with Some j => Ok j | None => Throw (OtherException "[json.exception.parse_error]") end.

(** The server key, from either variable. *)
Definition fcm_key (fcm firebase : option (list byte)) : option (list byte) :=
  let set v := match v with Some s => if bool_decide (s = []) then None else Some s | None => None end in
  match set fcm with Some k => Some k | None => set firebase end.

Definition default_fcm_sender (curl : Curl) (fcm firebase : option (list byte)) : Sender := fun token body =>
  match fcm_key fcm firebase with
  | None => Ok (false, 0)
  | Some key =>
    if negb (handle_ok curl) then Ok (false, 0)
    else
      let* raw := reparse body in
      let* notification := json_value raw (bytes_of "_notification") (JObj []) in
      let* fcm_body := dump (JObj [(bytes_of "to", JStr token); (bytes_of "notification", notification);
                                   (bytes_of "data", raw); (bytes_of "priority", JStr (bytes_of "high"))]) in
      let r := perform curl (mkRequest (bytes_of "https://fcm.googleapis.com/fcm/send")
                               [JSON_TYPE; bytes_of "Authorization: key=" ++ key] fcm_body) in
      Ok (transfer_ok r, http_status_of r.2)
  end.

Definition EXPO_PREFIX : list byte := bytes_of "ExponentPushToken".

Definition default_expo_sender (curl : Curl) (fcm firebase : option (list byte)) : Sender := fun token body =>
  if negb (bool_decide (take (length EXPO_PREFIX) token = EXPO_PREFIX)) then default_fcm_sender curl fcm firebase token body
  else if negb (handle_ok curl) then Ok (false, 0)
  else
    let* raw := reparse body in
    let* title := json_string raw (bytes_of "summary") (bytes_of "vHSM") in
    let* source := json_string raw (bytes_of "source") [] in
    let* actor := json_string raw (bytes_of "actor") [] in
    let* expo_body := dump (JObj [(bytes_of "to", JStr token); (bytes_of "title", JStr title);
                                  (bytes_of "body", JStr (source ++ BULLET ++ actor)); (bytes_of "data", raw);
                                  (bytes_of "priority", JStr (bytes_of "high")); (bytes_of "channelId", JStr (bytes_of "vhsm-default"))]) in
    let r := perform curl (mkRequest (bytes_of "https://exp.host/--/api/v2/push/send")
                             [JSON_TYPE; bytes_of "Accept: application/json"] expo_body) in
    Ok (transfer_ok r, http_status_of r.2).

End Adapters.

(** ** The mail that is sent *)

(** The lines of a message, and its header block: the lines before the first empty
    one. *)
Fixpoint crlf_lines (s cur : list byte) : list (list byte) :=
  match s with
  | [] => [rev cur]
  | c :: r =>
    if u8 c =? 13 then
      match r with
      | d :: r' => if u8 d =? 10 then rev cur :: crlf_lines r' [] else crlf_lines r (c :: cur)
      | [] => crlf_lines r (c :: cur)
      end
    else crlf_lines r (c :: cur)
  end.

Fixpoint until_empty (ls : list (list byte)) : list (list byte) :=
  match ls with [] => [] | l :: ls => if bool_decide (l = []) then [] else l :: until_empty ls end.

Definition header_block (message : list byte) : list (list byte) := until_empty (crlf_lines message []).

Lemma until_empty_cons l ls : l <> [] -> until_empty (l :: ls) = l :: until_empty ls.
Proof. intros H. cbn [until_empty]. by rewrite bool_decide_eq_false_2. Qed.

Definition no_cr (s : list byte) : bool := forallb (fun c => negb (u8 c =? 13)) s.

Lemma crlf_line l r cur : no_cr l = true -> crlf_lines (l ++ CRLF ++ r) cur = (rev cur ++ l) :: crlf_lines r [].
Proof.
  revert cur. induction l as [|c l IH]; intros cur; cbn [no_cr forallb app crlf_lines].
  - intros _. by rewrite app_nil_r.
  - rewrite andb_true_iff. intros [Hc Hl]. apply negb_true_iff in Hc. rewrite Hc, IH by done. cbn [rev].
    by rewrite <- app_assoc.
Qed.

Lemma crlf_blank r : crlf_lines (CRLF ++ r) [] = [] :: crlf_lines r [].
Proof. exact (crlf_line [] r [] eq_refl). Qed.

Lemma no_cr_app a b : no_cr (a ++ b) = no_cr a && no_cr b.
Proof. apply forallb_app. Qed.

Lemma no_cr_dec n z acc : no_cr acc = true -> no_cr (dec n z acc) = true.
Proof.
  revert z acc. induction n as [|n IH]; intros z acc Ha; [done|]. cbn [dec].
  assert (no_cr (digit (z mod 10) :: acc) = true) as Hd.
  { cbn [no_cr forallb]. apply andb_true_iff. split; [|done]. unfold digit. rewrite u8_to_u8.
    pose proof (Z.mod_pos_bound z 10 ltac:(lia)). rewrite Z.mod_small by lia. lia. }
  destruct (z / 10 =? 0); [done|by apply IH].
Qed.

Lemma no_cr_int z : no_cr (int_to_string z) = true.
Proof.
  unfold int_to_string, to_string. destruct (z <? 0); [rewrite no_cr_app|]; by rewrite no_cr_dec.
Qed.

(** The header block of a message is the five headers, whatever the texts of the
    body hold, when the summary and the sender have no carriage return. *)
Lemma email_header_block e from :
  no_cr from = true -> no_cr (ev_summary e) = true ->
  header_block (render_message e from) =
    [bytes_of "From: <" ++ from ++ bytes_of ">"; bytes_of "To: <subscriber>";
     bytes_of "Subject: [vHSM] " ++ ev_summary e; bytes_of "Date: " ++ int_to_string (ev_timestamp e);
     bytes_of "X-vHSM-Event-Type: " ++ int_to_string (event_type_int (ev_type e))].
Proof.
  intros Hf Hs. unfold header_block, render_message.
  set (t := int_to_string (event_type_int (ev_type e))). assert (no_cr t = true) as Ht by apply no_cr_int. clearbody t.
  set (d := int_to_string (ev_timestamp e)). assert (no_cr d = true) as Hd by apply no_cr_int. clearbody d.
  rewrite (app_assoc (bytes_of "From: <")), (app_assoc (_ ++ from)), crlf_line
    by (rewrite !no_cr_app, Hf; done).
  rewrite (crlf_line (bytes_of "To: <subscriber>")) by done.
  rewrite (app_assoc (bytes_of "Subject: [vHSM] ")), crlf_line by (rewrite no_cr_app, Hs; done).
  rewrite (app_assoc (bytes_of "Date: ")), crlf_line by (rewrite no_cr_app, Hd; done).
  rewrite (app_assoc (bytes_of "X-vHSM-Event-Type: ")), crlf_line by (rewrite no_cr_app, Ht; done).
  rewrite crlf_blank. change (rev [] ++ ?l) with l. rewrite !until_empty_cons by done.
  change (until_empty ([] :: _)) with (@nil (list byte)). by rewrite <- app_assoc.
Qed.

(** ** The payloads that are sent *)

(** The texts of an event are UTF-8. *)
Definition event_utf8 (e : NotificationEvent) : bool :=
  utf8 (ev_source e) && utf8 (ev_actor e) && utf8 (ev_summary e) && utf8 (ev_detail_json e) && utf8 (ev_hsm_instance e).

Lemma utf8_app a b : utf8 a = true -> utf8 (a ++ b) = utf8 b.
Proof.
  unfold utf8. assert (forall n lo hi, utf8_from n lo hi a = true -> utf8_from n lo hi (a ++ b) = utf8_from 0 128 191 b) as H.
  { induction a as [|c a IH]; intros n lo hi; [destruct n; [by destruct b|done]|]. destruct n as [|n]; cbn [app utf8_from].
    - repeat match goal with |- context [if ?x then _ else _] => destruct x end; try done; apply IH.
    - rewrite andb_true_iff. intros [-> H]. cbn [andb]. by apply IH. }
  apply H.
Qed.

Section Payloads.
Context `{J : JsonText} {L : JsonTextLaws J}.

Lemma dump_ok j : utf8_ok j = true -> dump j = Ok (json_text j) /\ json_parse (json_text j) = Some j.
Proof. intros H. unfold dump. rewrite H. split; [done|by apply parse_text]. Qed.

Lemma detail_utf8 e : utf8 (ev_detail_json e) = true -> utf8_ok (detail_value e) = true.
Proof.
  intros H. unfold detail_value. destruct (json_parse _) as [j|] eqn:E; [by eapply parsed_utf8|done].
Qed.

Lemma common_utf8 e : event_utf8 e = true -> forallb (fun m => utf8 m.1 && utf8_ok m.2) (common e) = true.
Proof.
  unfold event_utf8. rewrite !andb_true_iff. intros ((((H1 & H2) & H3) & H4) & H5).
  unfold common. cbn -[utf8 bytes_of detail_value]. rewrite H1, H2, H3, H5, (detail_utf8 _ H4). reflexivity.
Qed.

Lemma webhook_utf8 e : event_utf8 e = true -> utf8_ok (webhook_payload e) = true.
Proof.
  intros H. pose proof (common_utf8 _ H) as Hc. unfold webhook_payload. cbn [utf8_ok forallb fst snd]. rewrite Hc, andb_true_r.
  case_bool_decide; [reflexivity|]. unfold event_utf8 in H. rewrite !andb_true_iff in H. destruct H as [_ H].
  cbn [utf8_ok]. rewrite H. reflexivity.
Qed.

Lemma mobile_utf8 e : event_utf8 e = true -> utf8 (take 60 (ev_summary e)) = true -> utf8_ok (mobile_payload e) = true.
Proof.
  intros H Ht. pose proof (common_utf8 _ H) as Hc. unfold mobile_payload. cbn [utf8_ok]. rewrite forallb_app, Hc.
  unfold event_utf8 in H. rewrite !andb_true_iff in H. destruct H as ((((H1 & H2) & _) & _) & _).
  assert (utf8 (ev_actor e ++ BULLET ++ ev_source e) = true) as Hb by (rewrite !utf8_app; done).
  cbn [forallb utf8_ok fst snd]. rewrite Ht, Hb. reflexivity.
Qed.

(** A push token of Expo. *)
Definition is_expo (token : list byte) : bool := bool_decide (take (length EXPO_PREFIX) token = EXPO_PREFIX).

(** The document that carries the payload to a phone. *)
Definition carries (req : Request) (token : list byte) (e : NotificationEvent) : Prop :=
  exists ms, json_parse (body req) = Some (JObj ms) /\
    assoc_last (bytes_of "to") ms = Some (JStr token) /\ assoc_last (bytes_of "data") ms = Some (mobile_payload e).

Lemma fcm_sends curl fcm firebase token e :
  utf8_ok (mobile_payload e) = true -> utf8 token = true ->
  exists req, carries req token e /\
    (let* r := default_fcm_sender curl fcm firebase token (json_text (mobile_payload e)) in Ok r.1) =
      Ok (bool_decide (is_Some (fcm_key fcm firebase)) && handle_ok curl && transfer_ok (perform curl req)).
Proof.
  intros Hp Ht.
  set (raw := mobile_payload e) in *.
  assert (exists n, json_value raw (bytes_of "_notification") (JObj []) = Ok n /\ utf8_ok n = true) as (n & Hn & Hnu).
  { eexists. split; [reflexivity|]. unfold raw, mobile_payload in Hp. cbn [utf8_ok] in Hp. rewrite forallb_app in Hp.
    apply andb_true_iff in Hp as [_ Hp]. cbn [forallb snd fst] in Hp. rewrite !andb_true_iff in Hp. apply Hp. }
  set (doc := JObj [(bytes_of "to", JStr token); (bytes_of "notification", n);
                    (bytes_of "data", raw); (bytes_of "priority", JStr (bytes_of "high"))]).
  assert (utf8_ok doc = true) as Hd by (cbn [doc utf8_ok forallb fst snd]; rewrite Ht, Hnu, Hp; reflexivity).
  destruct (dump_ok doc Hd) as [Ed Ep].
  exists (mkRequest (bytes_of "https://fcm.googleapis.com/fcm/send")
            [JSON_TYPE; bytes_of "Authorization: key=" ++ default [] (fcm_key fcm firebase)] (json_text doc)).
  split; [by exists [(bytes_of "to", JStr token); (bytes_of "notification", n);
                     (bytes_of "data", raw); (bytes_of "priority", JStr (bytes_of "high"))]|].
  unfold default_fcm_sender, reparse. destruct (fcm_key fcm firebase) as [key|].
  2:{ by rewrite bool_decide_eq_false_2 by (by intros [? [=]]). }
  rewrite bool_decide_eq_true_2 by eauto. destruct (handle_ok curl); [|done]. cbn [negb andb].
  rewrite parse_text by done. cbn [rbind]. rewrite Hn. cbn [rbind]. fold doc. rewrite Ed. done.
Qed.

Lemma expo_sends curl fcm firebase token e :
  utf8_ok (mobile_payload e) = true -> utf8 token = true -> is_expo token = true ->
  exists req, carries req token e /\
    (let* r := default_expo_sender curl fcm firebase token (json_text (mobile_payload e)) in Ok r.1) =
      Ok (handle_ok curl && transfer_ok (perform curl req)).
Proof.
  intros Hp Ht Hx. set (raw := mobile_payload e) in *.
  set (doc := JObj [(bytes_of "to", JStr token); (bytes_of "title", JStr (ev_summary e));
                    (bytes_of "body", JStr (ev_source e ++ BULLET ++ ev_actor e)); (bytes_of "data", raw);
                    (bytes_of "priority", JStr (bytes_of "high")); (bytes_of "channelId", JStr (bytes_of "vhsm-default"))]).
  assert (utf8_ok doc = true) as Hd.
  { assert (utf8 (ev_source e) = true /\ utf8 (ev_actor e) = true /\ utf8 (ev_summary e) = true) as (H1 & H2 & H3).
    { unfold raw, mobile_payload, common in Hp. cbn [utf8_ok app forallb fst snd] in Hp. rewrite !andb_true_iff in Hp.
      split_and!; apply Hp. }
    cbn [doc utf8_ok forallb fst snd]. rewrite Ht, H3, !utf8_app, H2, Hp by done. reflexivity. }
  destruct (dump_ok doc Hd) as [Ed Ep].
  exists (mkRequest (bytes_of "https://exp.host/--/api/v2/push/send") [JSON_TYPE; bytes_of "Accept: application/json"] (json_text doc)).
  split; [by eexists|].
  unfold default_expo_sender, reparse. unfold is_expo in Hx. rewrite Hx. cbn [negb].
  destruct (handle_ok curl); [|done]. cbn [negb andb]. rewrite parse_text by done. cbn [rbind].
  change (json_string raw (bytes_of "summary") (bytes_of "vHSM")) with (Ok (ev_summary e)).
  change (json_string raw (bytes_of "source") []) with (Ok (ev_source e)).
  change (json_string raw (bytes_of "actor") []) with (Ok (ev_actor e)). cbn [rbind]. fold doc. rewrite Ed. done.
Qed.

(** an event whose texts are UTF-8 (for a phone also the first 60 bytes of its
    summary) is sent whole and counted as delivered exactly when the server took
    it.  The webhook adapter posts a document that reads back as the event's
    members, its detail parsed when it is JSON and quoted when it is not, and
    answers true exactly when the transfer succeeds with a 2xx code; the phone
    adapter does the same through Expo for a token of Expo and through Firebase,
    with a server key, for the others, and never without an address.  Neither
    throws. *)
Theorem notifications_sent_whole (curl : Curl) (fcm firebase : option (list byte)) (sub : NotificationSubscriber)
    (e : NotificationEvent) :
  event_utf8 e = true -> utf8 (take 60 (ev_summary e)) = true -> utf8 (s_address sub) = true ->
  (json_parse (json_text (webhook_payload e)) = Some (webhook_payload e) /\
   webhook_deliver (default_libcurl_sender curl) sub e =
     Ok (handle_ok curl && headers_ok curl &&
         transfer_ok (perform curl (mkRequest (c_str (s_address sub)) [JSON_TYPE] (json_text (webhook_payload e)))))) /\
  (exists req, carries req (s_address sub) e /\
   mobile_deliver (default_expo_sender curl fcm firebase) sub e =
     Ok (negb (bool_decide (s_address sub = [])) && (is_expo (s_address sub) || bool_decide (is_Some (fcm_key fcm firebase))) &&
         handle_ok curl && transfer_ok (perform curl req))).
Proof.
  intros He Ht Ha. split.
  - destruct (dump_ok _ (webhook_utf8 e He)) as [Ed Ep]. split; [done|].
    unfold webhook_deliver, default_libcurl_sender. rewrite Ed. cbn [rbind].
    by destruct (handle_ok curl), (headers_ok curl).
  - pose proof (mobile_utf8 e He Ht) as Hm. destruct (dump_ok _ Hm) as [Ed _]. unfold mobile_deliver, build_payload. rewrite Ed.
    destruct (is_expo (s_address sub)) eqn:Ex.
    + destruct (expo_sends curl fcm firebase (s_address sub) e Hm Ha Ex) as (req & Hc & E). exists req. split; [done|].
      case_bool_decide as Hn; [by rewrite Hn in Ex|]. cbn [negb orb andb rbind]. exact E.
    + destruct (fcm_sends curl fcm firebase (s_address sub) e Hm Ha) as (req & Hc & E). exists req. split; [done|].
      destruct (bool_decide (s_address sub = [])); [done|]. cbn [negb orb andb rbind]. unfold default_expo_sender.
      unfold is_expo in Ex. rewrite Ex. exact E.
Qed.

End Payloads.

(** ** A reader and writer of documents

    An instance of [JsonText]: documents are trees with texts and numbers at the
    leaves, which are countable; the text of a document is its number in binary. *)

Module ToyJson.

Fixpoint to_tree (j : jval) : gen_tree (list byte + Z) :=
  match j with
  | JNull => GenNode 0 []
  | JBool b => GenNode 1 [GenLeaf (inr (if b then 1 else 0))]
  | JInt z => GenNode 2 [GenLeaf (inr z)]
  | JReal t => GenNode 3 [GenLeaf (inl t)]
  | JStr t => GenNode 4 [GenLeaf (inl t)]
  | JArr l => GenNode 5 (map to_tree l)
  | JObj ms => GenNode 6 (map (fun m => GenNode 7 [GenLeaf (inl m.1); to_tree m.2]) ms)
  end.

Fixpoint of_tree (t : gen_tree (list byte + Z)) : jval :=
  match t with
  | GenNode 1 [GenLeaf (inr z)] => JBool (z =? 1)
  | GenNode 2 [GenLeaf (inr z)] => JInt z
  | GenNode 3 [GenLeaf (inl s)] => JReal s
  | GenNode 4 [GenLeaf (inl s)] => JStr s
  | GenNode 5 l => JArr (map of_tree l)
  | GenNode 6 l =>
    JObj (map (fun t => match t with GenNode 7 [GenLeaf (inl k); v] => (k, of_tree v) | _ => ([], JNull) end) l)
  | _ => JNull
  end.

Lemma of_to_tree : forall j, of_tree (to_tree j) = j.
Proof.
  fix IH 1. intros [|b|z|t|t|l|ms]; cbn [to_tree of_tree]; [done|by destruct b|done|done|done| |]; f_equal.
  - induction l as [|v l IHl]; [done|]. cbn [map]. by rewrite IH, IHl.
  - induction ms as [|[k v] ms IHl]; [done|]. cbn [map fst snd]. by rewrite IH, IHl.
Qed.

(** The digits of a positive number, and back. *)
Fixpoint pos_text (p : positive) : list byte :=
  match p with xH => [] | xO p => x30 :: pos_text p | xI p => x31 :: pos_text p end.

Fixpoint text_pos (s : list byte) : option positive :=
  match s with
  | [] => Some xH
  | x30 :: s => xO <$> text_pos s
  | x31 :: s => xI <$> text_pos s
  | _ => None
  end.

Lemma text_pos_text p : text_pos (pos_text p) = Some p.
Proof. induction p as [p IH|p IH|]; cbn; by rewrite ?IH. Qed.

#[global] Instance toy_json : JsonText := {
  json_text j := pos_text (encode (to_tree j));
  json_parse s :=
    match text_pos s ≫= decode with
    | Some t => if utf8_ok (of_tree t) then Some (of_tree t) else None
    | None => None
    end }.

#[global] Instance toy_json_laws : JsonTextLaws toy_json.
Proof.
  split.
  - intros j Hj. cbn [json_text json_parse toy_json]. rewrite text_pos_text. cbn [mbind option_bind].
    rewrite decode_encode, of_to_tree, Hj. done.
  - intros s j. cbn [json_parse toy_json]. destruct (text_pos s ≫= decode) as [t|]; [|done].
    destruct (utf8_ok (of_tree t)) eqn:E; [|done]. by intros [= <-].
Qed.

(** An event, a phone of Expo and a server that takes everything. *)
Definition event (summary : list byte) : NotificationEvent :=
  mkEvent EventType.KEY_ROTATED Severity.WARNING 1700000000000 (bytes_of "slot:0") (bytes_of "alice") summary
    (bytes_of "not json") (bytes_of "hsm-1").

Definition phone : NotificationSubscriber :=
  mkSubscriber (bytes_of "1") (bytes_of "phone") (bytes_of "mobile") (bytes_of "ExponentPushToken[x]") (bytes_of "INFO") None true.

Definition taking : Curl := mkCurl true true (fun _ => (true, 200)).

End ToyJson.

Lemma notifications_sent_whole_witness :
  webhook_deliver (default_libcurl_sender ToyJson.taking) ToyJson.phone (ToyJson.event (bytes_of "key rotated")) = Ok true /\
  mobile_deliver (default_expo_sender ToyJson.taking None None) ToyJson.phone (ToyJson.event (bytes_of "key rotated")) = Ok true.
Proof.
  destruct (notifications_sent_whole ToyJson.taking None None ToyJson.phone (ToyJson.event (bytes_of "key rotated")))
    as [[_ Ew] (req & _ & Em)]; [vm_compute; reflexivity..|].
  split; [exact Ew|exact Em].
Defined.

(** ** Where the code departs from its comments *)

(** A summary of 59 letters and an accented one, valid UTF-8, is cut in the middle
    of the accent: the adapter throws, and the dispatcher's thread has no handler. *)
Lemma long_summary_throws :
  let summary := replicate 59 (to_u8 97) ++ [to_u8 195; to_u8 169] in
  utf8 summary = true /\
  mobile_deliver (default_expo_sender ToyJson.taking None None) ToyJson.phone (ToyJson.event summary) = Throw type_error.
Proof. split; vm_compute; reflexivity. Qed.

(** "Malformed detail must not kill the dispatcher thread": a detail that is not
    UTF-8 is kept as a text, and writing the payload throws. *)
Lemma malformed_detail_throws :
  let e := mkEvent EventType.KEY_ROTATED Severity.INFO 0 [] [] [] [to_u8 255] [] in
  webhook_deliver (default_libcurl_sender ToyJson.taking) ToyJson.phone e = Throw type_error.
Proof. vm_compute. reflexivity. Qed.

(** A summary with a line break adds a header to the mail. *)
Lemma summary_adds_header :
  header_block (render_message (ToyJson.event (bytes_of "x" ++ CRLF ++ bytes_of "Bcc: <eve@example.org>")) (bytes_of "vhsm@localhost")) !! 3%nat
    = Some (bytes_of "Bcc: <eve@example.org>").
Proof. vm_compute. reflexivity. Qed.

(** Mail is refused also when a server is configured. *)
Lemma configured_mail_refused :
  email_deliver (email_default_sender (Some (bytes_of "smtp.example.org"))) None ToyJson.phone (ToyJson.event []) = false.
Proof. reflexivity. Qed.
