(* ===== verification/NotificationStore.v ===== *)
(** * The notification repository

    [src/src/signature_store/notification_repository.cpp] over the tables
    [notification_subscribers] and [notification_log] of [db_schema.cpp].

    The engine is a parameter as in [SignatureStore]: a table is the list of its
    rows, [fault] says that the engine fails the statement, a statement that
    violates a key, a check or the foreign key of the log ([PRAGMA foreign_keys =
    ON]) fails without effect.  A row is read back as the text of its columns, each
    a C string.  The order of log rows sent at the same time is the engine's: the
    class [LogOrder]. *)

From Stdlib Require Import Sorted.
From stdpp Require Import sorting.
From S2P Require Import Prelude Codec Types Notification SecureBuffer Objects ObjectStore Token Session Pkcs11 AuditLog KeyPolicy SignatureStore Delivery.
Local Open Scope Z_scope.

(** ** Tables *)

Record SubscriberRow : Type := mkSubRow {
  sb_id : list byte;
  sb_name : list byte;
  sb_channel : list byte;
  sb_address : list byte;
  sb_min_severity : list byte;
  sb_event_filter : list byte;
  sb_enabled : Z
}.

Record LogRow : Type := mkLogRow {
  lg_id : list byte;
  lg_sent_at : Z;
  lg_event_id : list byte;
  lg_subscriber_id : list byte;
  lg_outcome : list byte;
  lg_attempt_count : Z;
  lg_error_detail : list byte
}.

#[global] Instance SubscriberRow_eq_dec : EqDecision SubscriberRow.
Proof. solve_decision. Defined.
#[global] Instance LogRow_eq_dec : EqDecision LogRow.
Proof. solve_decision. Defined.

Record NotifyTables : Type := mkNotify {
  notification_subscribers : list SubscriberRow;
  notification_log : list LogRow
}.

(** The [CHECK] clauses. *)
Definition one_of (s : list byte) (l : list string) : bool := existsb (fun x => bool_decide (s = bytes_of x)) l.

Definition subscriber_allowed (r : SubscriberRow) : bool :=
  one_of (sb_channel r) ["email"; "webhook"; "grpc_push"]%string
  && one_of (sb_min_severity r) ["INFO"; "WARN"; "CRITICAL"]%string
  && ((sb_enabled r =? 0) || (sb_enabled r =? 1)).

Definition outcome_allowed (o : list byte) : bool := one_of o ["DELIVERED"; "RETRYING"; "FAILED"; "SKIPPED"]%string.

Definition log_allowed (r : LogRow) : bool := outcome_allowed (lg_outcome r).

Definition is_sub (id : list byte) (r : SubscriberRow) : bool := bool_decide (sb_id r = id).
Definition is_log (id : list byte) (r : LogRow) : bool := bool_decide (lg_id r = id).

(** The log refers to the subscriber. *)
Definition referenced (id : list byte) (t : NotifyTables) : bool :=
  existsb (fun r => bool_decide (lg_subscriber_id r = id)) (notification_log t).

Definition insert_subscriber (r : SubscriberRow) (t : NotifyTables) : option NotifyTables :=
  if existsb (is_sub (sb_id r)) (notification_subscribers t) || negb (subscriber_allowed r) then None
  else Some (mkNotify (notification_subscribers t ++ [r]) (notification_log t)).

(** [UPDATE ... WHERE id = ?] with the values of [r]. *)
Definition update_subscribers (r : SubscriberRow) (t : NotifyTables) : option NotifyTables :=
  if existsb (is_sub (sb_id r)) (notification_subscribers t) && negb (subscriber_allowed r) then None
  else Some (mkNotify (map (fun x => if is_sub (sb_id r) x then r else x) (notification_subscribers t)) (notification_log t)).

Definition delete_subscriber (id : list byte) (t : NotifyTables) : option NotifyTables :=
  if existsb (is_sub id) (notification_subscribers t) && referenced id t then None
  else Some (mkNotify (List.filter (fun r => negb (is_sub id r)) (notification_subscribers t)) (notification_log t)).

Definition insert_log (r : LogRow) (t : NotifyTables) : option NotifyTables :=
  if existsb (is_log (lg_id r)) (notification_log t) || negb (log_allowed r)
     || negb (existsb (is_sub (lg_subscriber_id r)) (notification_subscribers t)) then None
  else Some (mkNotify (notification_subscribers t) (notification_log t ++ [r])).

Definition update_logs (id : list byte) (f : LogRow -> LogRow) (t : NotifyTables) : option NotifyTables :=
  if existsb (fun r => is_log id r && negb (log_allowed (f r))) (notification_log t) then None
  else Some (mkNotify (notification_subscribers t) (map (fun r => if is_log id r then f r else r) (notification_log t))).

(** [conn_.exec] in a [try] that answers [false] on [DbError]. *)
Definition try_exec (fault : bool) (t : NotifyTables) (f : NotifyTables -> option NotifyTables) : bool * NotifyTables :=
  if fault then (false, t) else match f t with Some t => (true, t) | None => (false, t) end.

(** ** Subscribers *)

Definition bool_int (b : bool) : Z := if b then 1 else 0.

Definition add_subscriber (fault : bool) (t : NotifyTables) (id name channel address min_severity : list byte)
    (event_filter : option (list byte)) (enabled : bool) : bool * NotifyTables :=
  try_exec fault t (insert_subscriber (mkSubRow id name channel address min_severity (default [] event_filter) (bool_int enabled))).

Definition update_subscriber (fault : bool) (t : NotifyTables) (id name channel address min_severity : list byte)
    (event_filter : option (list byte)) (enabled : bool) : bool * NotifyTables :=
  try_exec fault t (update_subscribers (mkSubRow id name channel address min_severity (default [] event_filter) (bool_int enabled))).

Definition remove_subscriber (fault : bool) (t : NotifyTables) (id : list byte) : bool * NotifyTables :=
  try_exec fault t (delete_subscriber id).

(** The columns of a row as text. *)
Definition sub_columns (r : SubscriberRow) : Row :=
  [sb_id r; sb_name r; sb_channel r; sb_address r; sb_min_severity r; sb_event_filter r; int_to_string (sb_enabled r)].

Definition log_columns (r : LogRow) : Row :=
  [lg_id r; int_to_string (lg_sent_at r); lg_event_id r; lg_subscriber_id r; lg_outcome r;
   int_to_string (lg_attempt_count r); lg_error_detail r].

(** [std::stoi]: [None] when it throws. *)
Definition stoi (s : list byte) : option Z :=
  match stoll s with
  | Some v => if (- 2 ^ 31 <=? v) && (v <? 2 ^ 31) then Some v else None
  | None => None
  end.

(** The loop over the columns of [get_subscriber]; the exception of [stoi] is not
    a [DbError] and leaves the function. *)
Definition read_sub_column (r : Row) (i : nat) : res (option (list byte)) :=
  match get_string r i with
  | None => Ok None
  | Some s =>
    if Nat.eqb i 6 then
      match stoi s with
      | Some v => Ok (Some (bytes_of (if v =? 0 then "false" else "true")))
      | None => Throw (InvalidArgument "stoi")
      end
    else Ok (if bool_decide (s = []) then None else Some s)
  end.

Fixpoint read_sub_columns (r : Row) (idx : list nat) : res (list (option (list byte))) :=
  match idx with
  | [] => Ok []
  | i :: idx => let* v := read_sub_column r i in let* vs := read_sub_columns r idx in Ok (v :: vs)
  end.

Definition get_subscriber (fault : bool) (t : NotifyTables) (id : list byte) : res (option (list (option (list byte)))) :=
  if fault then Ok None
  else match List.find (is_sub id) (notification_subscribers t) with
  | None => Ok None
  | Some r => let* vs := read_sub_columns (sub_columns r) (seq 0 (length (sub_columns r))) in Ok (Some vs)
  end.

(** [SELECT id ...]. *)
Definition sub_ids (rows : list SubscriberRow) : list (list byte) := omap (fun r => get_string (sub_columns r) 0) rows.

Definition get_all_subscriber_ids (fault : bool) (t : NotifyTables) : list (list byte) :=
  if fault then [] else sub_ids (notification_subscribers t).

Definition is_enabled (r : SubscriberRow) : bool := sb_enabled r =? 1.

Definition get_enabled_subscriber_ids (fault : bool) (t : NotifyTables) : list (list byte) :=
  if fault then [] else sub_ids (List.filter is_enabled (notification_subscribers t)).

Definition subscriber_of_row (r : SubscriberRow) : Notify.NotificationSubscriber :=
  let text i := to_str (get_string (sub_columns r) i) in
  Notify.mkSubscriber (text 0%nat) (text 1%nat) (text 2%nat) (text 3%nat) (text 4%nat) (nullable (text 5%nat)) true.

Definition get_enabled_subscribers (fault : bool) (t : NotifyTables) : list Notify.NotificationSubscriber :=
  if fault then [] else map subscriber_of_row (List.filter is_enabled (notification_subscribers t)).

(** ** The delivery log *)

Definition log_notification (fault : bool) (t : NotifyTables) (id : list byte) (sent_at : Z)
    (event_id subscriber_id outcome : list byte) (attempt_count : Z) (error_detail : option (list byte)) : bool * NotifyTables :=
  try_exec fault t (insert_log (mkLogRow id sent_at event_id subscriber_id outcome attempt_count (default [] error_detail))).

Definition get_failed_notifications (fault : bool) (t : NotifyTables) (max_attempts : Z) : list (list byte) :=
  if fault then []
  else omap (fun r => get_string (log_columns r) 0)
         (List.filter (fun r => bool_decide (lg_outcome r = bytes_of "FAILED") && (max_attempts <=? lg_attempt_count r)) (notification_log t)).

Definition update_notification_outcome (fault : bool) (t : NotifyTables) (id outcome : list byte) (attempt_count : Z)
    (error_detail : option (list byte)) : bool * NotifyTables :=
  try_exec fault t (update_logs id (fun r =>
    mkLogRow (lg_id r) (lg_sent_at r) (lg_event_id r) (lg_subscriber_id r) outcome attempt_count (default [] error_detail))).

Class LogOrder : Type := order_by_sent_at_desc : list LogRow -> list LogRow.

Class LogOrderLaws (O : LogOrder) : Prop := {
  log_order_permutation : forall l, Permutation (order_by_sent_at_desc l) l;
  log_order_sorted : forall l, StronglySorted (fun a b => lg_sent_at b <= lg_sent_at a) (order_by_sent_at_desc l)
}.

(** [NotificationLogRecord]; a number that does not parse stays 0. *)
Definition log_record_of_row (r : LogRow) : LogRow :=
  let text i := to_str (get_string (log_columns r) i) in
  mkLogRow (text 0%nat) (default 0 (stoll (text 1%nat))) (text 2%nat) (text 3%nat) (text 4%nat) (default 0 (stoi (text 5%nat))) (text 6%nat).

Definition log_selected (subscriber_id : option (list byte)) (since : Z) (r : LogRow) : bool :=
  match subscriber_id with
  | Some s => bool_decide (s = []) || bool_decide (lg_subscriber_id r = s)
  | None => true
  end && ((since <=? 0) || (since <=? lg_sent_at r)).

Definition query_log `{O : LogOrder} (fault : bool) (t : NotifyTables) (subscriber_id : option (list byte)) (since limit : Z) : list LogRow :=
  if fault then []
  else let rows := order_by_sent_at_desc (List.filter (log_selected subscriber_id since) (notification_log t)) in
       map log_record_of_row (if 0 <? limit then take (Z.to_nat limit) rows else rows).

(** ** Well-formed tables *)

Record wf_notify (t : NotifyTables) : Prop := {
  nt_sub_keys : NoDup (map sb_id (notification_subscribers t));
  nt_log_keys : NoDup (map lg_id (notification_log t));
  nt_sub_checks : Forall (fun r => subscriber_allowed r = true) (notification_subscribers t);
  nt_log_checks : Forall (fun r => log_allowed r = true) (notification_log t);
  nt_foreign : Forall (fun r => lg_subscriber_id r ∈ map sb_id (notification_subscribers t)) (notification_log t)
}.

(** The statements that change the tables. *)
Inductive NotifyOp : Type :=
| OAdd (r : SubscriberRow)
| OUpdate (r : SubscriberRow)
| ORemove (id : list byte)
| OLog (r : LogRow)
| OOutcome (id outcome : list byte) (n : Z) (err : list byte).

Definition notify_step (fault : bool) (t : NotifyTables) (op : NotifyOp) : bool * NotifyTables :=
  match op with
  | OAdd r => add_subscriber fault t (sb_id r) (sb_name r) (sb_channel r) (sb_address r) (sb_min_severity r)
                (Some (sb_event_filter r)) (negb (sb_enabled r =? 0))
  | OUpdate r => update_subscriber fault t (sb_id r) (sb_name r) (sb_channel r) (sb_address r) (sb_min_severity r)
                   (Some (sb_event_filter r)) (negb (sb_enabled r =? 0))
  | ORemove id => remove_subscriber fault t id
  | OLog r => log_notification fault t (lg_id r) (lg_sent_at r) (lg_event_id r) (lg_subscriber_id r) (lg_outcome r)
                (lg_attempt_count r) (Some (lg_error_detail r))
  | OOutcome id o n err => update_notification_outcome fault t id o n (Some err)
  end.

(** ** Tables with a unique key as finite maps *)

Section Keyed.
Context {R : Type} (key : R -> list byte).

Definition keyed (rows : list R) : gmap (list byte) R := list_to_map (map (fun r => (key r, r)) rows).

Lemma keyed_lookup rows k : keyed rows !! k = List.find (fun r => bool_decide (key r = k)) rows.
Proof.
  induction rows as [|r rows IH]; [done|]. cbn. destruct (decide (key r = k)) as [<-|Hk].
  - by rewrite lookup_insert_eq, bool_decide_eq_true_2.
  - by rewrite lookup_insert_ne, bool_decide_eq_false_2.
Qed.

Lemma keyed_key rows k r : keyed rows !! k = Some r -> key r = k.
Proof. rewrite keyed_lookup. intros H%List.find_some. by destruct H as [_ H%bool_decide_eq_true]. Qed.

Lemma keyed_elem rows k : is_Some (keyed rows !! k) <-> k ∈ map key rows.
Proof.
  rewrite keyed_lookup, list_elem_of_fmap. split.
  - intros [r H]. apply List.find_some in H as [H1 H2%bool_decide_eq_true]. exists r. by rewrite list_elem_of_In.
  - intros (r & -> & Hr). destruct (List.find _ rows) eqn:E; [by eexists|].
    apply list_elem_of_In, (List.find_none _ _ E), bool_decide_eq_false in Hr. done.
Qed.

Lemma keyed_exists rows k : existsb (fun r => bool_decide (key r = k)) rows = bool_decide (is_Some (keyed rows !! k)).
Proof.
  apply eq_true_iff_eq. rewrite bool_decide_eq_true, keyed_elem, existsb_exists, list_elem_of_fmap. split.
  - intros (r & Hr & E%bool_decide_eq_true). exists r. by rewrite list_elem_of_In.
  - intros (r & -> & Hr). exists r. split; [by apply list_elem_of_In|by apply bool_decide_eq_true].
Qed.

Lemma keyed_app rows r : keyed rows !! key r = None -> keyed (rows ++ [r]) = <[key r := r]> (keyed rows).
Proof.
  intros H. apply map_eq. intros k. rewrite keyed_lookup, find_in_app. cbn. rewrite <- keyed_lookup.
  destruct (decide (key r = k)) as [<-|Hk].
  - by rewrite lookup_insert_eq, H, bool_decide_eq_true_2.
  - rewrite lookup_insert_ne by done. rewrite bool_decide_eq_false_2 by done. by destruct (keyed rows !! k).
Qed.

Lemma keyed_delete rows k : keyed (List.filter (fun r => negb (bool_decide (key r = k))) rows) = delete k (keyed rows).
Proof.
  induction rows as [|r rows IH]; [by cbn; rewrite delete_empty|]. cbn [List.filter]. case_bool_decide as E; cbn.
  - rewrite E, delete_insert_eq. exact IH.
  - rewrite delete_insert_ne by done. unfold keyed in IH. by rewrite <- IH.
Qed.

Lemma keyed_update rows k f :
  (forall r, key r = k -> key (f r) = k) ->
  keyed (map (fun r => if bool_decide (key r = k) then f r else r) rows) = alter f k (keyed rows).
Proof.
  intros Hf. induction rows as [|r rows IH]; [by cbn; rewrite alter_empty|]. cbn. unfold keyed in IH. rewrite IH.
  case_bool_decide as E; [rewrite (Hf r E), E, alter_insert_eq|by rewrite alter_insert_ne].
  apply map_eq. intros j. destruct (decide (j = k)) as [->|Hj]; [by rewrite !lookup_insert_eq|].
  by rewrite !lookup_insert_ne, lookup_alter_ne by done.
Qed.

Lemma keys_update rows k f :
  (forall r, key r = k -> key (f r) = k) ->
  map key (map (fun r => if bool_decide (key r = k) then f r else r) rows) = map key rows.
Proof.
  intros Hf. rewrite map_map. apply map_ext. intros r. case_bool_decide as E; [by rewrite Hf, E|done].
Qed.

End Keyed.

(** ** The abstract repository *)

Record NotifySpec : Type := mkSpec { a_subs : gmap (list byte) SubscriberRow; a_log : gmap (list byte) LogRow }.

Definition notify_abs (t : NotifyTables) : NotifySpec :=
  mkSpec (keyed sb_id (notification_subscribers t)) (keyed lg_id (notification_log t)).

(** A row with its flag as it is stored. *)
Definition stored_row (r : SubscriberRow) : SubscriberRow :=
  mkSubRow (sb_id r) (sb_name r) (sb_channel r) (sb_address r) (sb_min_severity r) (sb_event_filter r)
    (bool_int (negb (sb_enabled r =? 0))).

Definition new_outcome (outcome : list byte) (n : Z) (err : list byte) (r : LogRow) : LogRow :=
  mkLogRow (lg_id r) (lg_sent_at r) (lg_event_id r) (lg_subscriber_id r) outcome n err.

(** What a statement does to the two maps; [None] when it is refused. *)
Definition notify_spec (s : NotifySpec) (op : NotifyOp) : option NotifySpec :=
  match op with
  | OAdd r =>
    if bool_decide (is_Some (a_subs s !! sb_id r)) || negb (subscriber_allowed (stored_row r)) then None
    else Some (mkSpec (<[sb_id r := stored_row r]> (a_subs s)) (a_log s))
  | OUpdate r =>
    if bool_decide (is_Some (a_subs s !! sb_id r)) && negb (subscriber_allowed (stored_row r)) then None
    else Some (mkSpec (alter (fun _ => stored_row r) (sb_id r) (a_subs s)) (a_log s))
  | ORemove id =>
    if bool_decide (map_Exists (fun _ r => lg_subscriber_id r = id) (a_log s)) then None
    else Some (mkSpec (delete id (a_subs s)) (a_log s))
  | OLog r =>
    if bool_decide (is_Some (a_log s !! lg_id r)) || negb (log_allowed r)
       || negb (bool_decide (is_Some (a_subs s !! lg_subscriber_id r))) then None
    else Some (mkSpec (a_subs s) (<[lg_id r := r]> (a_log s)))
  | OOutcome id o n err =>
    if bool_decide (is_Some (a_log s !! id)) && negb (outcome_allowed o) then None
    else Some (mkSpec (a_subs s) (alter (new_outcome o n err) id (a_log s)))
  end.

Lemma referenced_abs t id : NoDup (map lg_id (notification_log t)) ->
  referenced id t = bool_decide (map_Exists (fun _ r => lg_subscriber_id r = id) (a_log (notify_abs t))).
Proof.
  intros Hn. apply eq_true_iff_eq. rewrite bool_decide_eq_true. unfold referenced. rewrite existsb_exists. cbn. split.
  - intros (r & Hr & E%bool_decide_eq_true). exists (lg_id r), r. split; [|done].
    apply elem_of_list_to_map_1; [by rewrite <- list_fmap_compose|]. apply list_elem_of_fmap. exists r. by rewrite list_elem_of_In.
  - intros (k & r & H & E). exists r. split; [|by apply bool_decide_eq_true]. rewrite keyed_lookup in H.
    by apply List.find_some in H as [H _].
Qed.

Lemma referenced_present t id : wf_notify t -> referenced id t = true -> is_Some (a_subs (notify_abs t) !! id).
Proof.
  intros H Hr. cbn. apply keyed_elem. unfold referenced in Hr. apply existsb_exists in Hr as (r & Hr & <-%bool_decide_eq_true).
  apply (proj1 (list.Forall_forall _ _) (nt_foreign t H)). by apply list_elem_of_In.
Qed.

Lemma add_wf t r : wf_notify t -> keyed sb_id (notification_subscribers t) !! sb_id r = None -> subscriber_allowed r = true ->
  wf_notify (mkNotify (notification_subscribers t ++ [r]) (notification_log t)).
Proof.
  intros [H1 H2 H3 H4 H5] Hn Hc. split; cbn; try done.
  - rewrite map_app. cbn. apply list.NoDup_app. split_and!; [done| |apply list.NoDup_singleton].
    intros k Hk Hk'%list_elem_of_singleton. subst k. apply keyed_elem in Hk as [x Hx]. congruence.
  - apply list.Forall_app. split; [done|]. by apply list.Forall_singleton.
  - eapply list.Forall_impl; [exact H5|]. cbn. intros x Hx. rewrite map_app. apply elem_of_app. by left.
Qed.

Lemma update_wf t r : wf_notify t ->
  negb (bool_decide (is_Some (keyed sb_id (notification_subscribers t) !! sb_id r)) && negb (subscriber_allowed r)) = true ->
  wf_notify (mkNotify (map (fun x => if is_sub (sb_id r) x then r else x) (notification_subscribers t)) (notification_log t)).
Proof.
  intros [H1 H2 H3 H4 H5] Hc. unfold is_sub.
  assert (E : map sb_id (map (fun x => if bool_decide (sb_id x = sb_id r) then r else x) (notification_subscribers t)) = map sb_id (notification_subscribers t))
    by (by apply (keys_update sb_id _ _ (fun _ => r))).
  split; cbn; try done; rewrite ?E; try done.
  apply list.Forall_forall. intros x (y & -> & Hy)%list_elem_of_fmap. destruct (decide (sb_id y = sb_id r)) as [Ey|Ey].
  - rewrite (bool_decide_eq_true_2 (sb_id y = sb_id r)) by done.
    rewrite bool_decide_eq_true_2 in Hc; [by destruct (subscriber_allowed r)|].
    apply keyed_elem, list_elem_of_fmap. by exists y.
  - rewrite bool_decide_eq_false_2 by done. by apply (proj1 (list.Forall_forall _ _) H3).
Qed.

Lemma remove_wf t id : wf_notify t -> referenced id t = false ->
  wf_notify (mkNotify (List.filter (fun r => negb (is_sub id r)) (notification_subscribers t)) (notification_log t)).
Proof.
  intros [H1 H2 H3 H4 H5] Hr. split; cbn; try done.
  - clear -H1. induction (notification_subscribers t) as [|x l IH]; [done|]. cbn in H1 |- *.
    apply list.NoDup_cons in H1 as [Hx Hl]. destruct (negb (is_sub id x)); [|by apply IH]. cbn. apply list.NoDup_cons. split; [|by apply IH].
    contradict Hx. apply list_elem_of_fmap in Hx as (y & E & Hy). rewrite E. apply list_elem_of_fmap. exists y. split; [done|].
    apply list_elem_of_In, filter_In in Hy as [Hy _]. by apply list_elem_of_In.
  - apply list.Forall_forall. intros x Hx. apply list_elem_of_In, filter_In in Hx as [Hx _].
    apply (proj1 (list.Forall_forall _ _) H3). by apply list_elem_of_In.
  - apply list.Forall_forall. intros x Hx. pose proof (proj1 (list.Forall_forall _ _) H5 _ Hx) as (y & E & Hy)%list_elem_of_fmap.
    apply list_elem_of_fmap. exists y. split; [done|]. apply list_elem_of_In, filter_In. split; [by apply list_elem_of_In|].
    unfold is_sub. rewrite bool_decide_eq_false_2; [done|]. intros Ei. apply not_true_iff_false in Hr. apply Hr.
    unfold referenced. apply existsb_exists. exists x. split; [by apply list_elem_of_In|]. apply bool_decide_eq_true. congruence.
Qed.

Lemma log_wf t r : wf_notify t -> keyed lg_id (notification_log t) !! lg_id r = None -> log_allowed r = true ->
  is_Some (keyed sb_id (notification_subscribers t) !! lg_subscriber_id r) ->
  wf_notify (mkNotify (notification_subscribers t) (notification_log t ++ [r])).
Proof.
  intros [H1 H2 H3 H4 H5] Hn Hc Hs. split; cbn; try done.
  - rewrite map_app. cbn. apply list.NoDup_app. split_and!; [done| |apply list.NoDup_singleton].
    intros k Hk Hk'%list_elem_of_singleton. subst k. apply keyed_elem in Hk as [x Hx]. congruence.
  - apply list.Forall_app. split; [done|]. by apply list.Forall_singleton.
  - apply list.Forall_app. split; [done|]. apply list.Forall_singleton. by apply keyed_elem.
Qed.

Lemma outcome_wf t id o n err : wf_notify t ->
  (is_Some (keyed lg_id (notification_log t) !! id) -> outcome_allowed o = true) ->
  wf_notify (mkNotify (notification_subscribers t) (map (fun r => if is_log id r then new_outcome o n err r else r) (notification_log t))).
Proof.
  intros [H1 H2 H3 H4 H5] Hc. unfold is_log. split; cbn [notification_subscribers notification_log]; try done.
  - by rewrite (keys_update lg_id _ _ (new_outcome o n err)).
  - apply list.Forall_forall. intros x (y & -> & Hy)%list_elem_of_fmap. destruct (decide (lg_id y = id)) as [Ey|Ey].
    + rewrite bool_decide_eq_true_2 by done. apply Hc, keyed_elem, list_elem_of_fmap. by exists y.
    + rewrite bool_decide_eq_false_2 by done. by apply (proj1 (list.Forall_forall _ _) H4).
  - apply list.Forall_forall. intros x (y & -> & Hy)%list_elem_of_fmap.
    pose proof (proj1 (list.Forall_forall _ _) H5 _ Hy). by destruct (bool_decide (lg_id y = id)).
Qed.

Lemma existsb_outcome id o n err rows :
  existsb (fun r => is_log id r && negb (log_allowed (new_outcome o n err r))) rows =
  existsb (fun r => bool_decide (lg_id r = id)) rows && negb (outcome_allowed o).
Proof.
  unfold log_allowed, new_outcome, is_log. cbn [lg_outcome]. induction rows as [|r rows IH]; [done|]. cbn [existsb]. rewrite IH.
  by rewrite andb_orb_distrib_l.
Qed.

(** The repository is a pair of finite maps with a foreign key: a statement is
    refused exactly when the engine fails it or it would break a key, a check or
    the reference of the log to a subscriber, and then nothing changes; otherwise
    it is the insertion, update or removal of one entry.  In every case the keys
    stay unique, the checks hold and no log entry loses its subscriber. *)
Theorem notify_refines_maps (fault : bool) (t : NotifyTables) (op : NotifyOp) (Hwf : wf_notify t) :
  let (ok, t') := notify_step fault t op in
  wf_notify t' /\
  (ok, notify_abs t') = match (if fault then None else notify_spec (notify_abs t) op) with
                        | Some s => (true, s)
                        | None => (false, notify_abs t)
                        end.
Proof.
  destruct fault; [by destruct op|]. unfold notify_abs. destruct op as [r|r|id|r|id o n err].
  - change (notify_step false t (OAdd r)) with (try_exec false t (insert_subscriber (stored_row r))).
    unfold try_exec, insert_subscriber, is_sub. rewrite keyed_exists. cbn [notify_spec a_subs a_log]. change (sb_id (stored_row r)) with (sb_id r).
    case_bool_decide as E1; [done|]. apply eq_None_not_Some in E1. cbn [orb]. destruct (subscriber_allowed (stored_row r)) eqn:E2; [|done].
    split; [by apply (add_wf t (stored_row r))|]. cbn [notification_subscribers notification_log]. by rewrite (keyed_app sb_id _ (stored_row r)).
  - change (notify_step false t (OUpdate r)) with (try_exec false t (update_subscribers (stored_row r))).
    unfold try_exec, update_subscribers. unfold is_sub at 1. rewrite keyed_exists. cbn [notify_spec a_subs a_log]. change (sb_id (stored_row r)) with (sb_id r).
    destruct (bool_decide (is_Some _) && _) eqn:E; [done|]. split; [apply (update_wf t (stored_row r)); [done|by apply negb_true_iff]|].
    cbn [notification_subscribers notification_log]. do 2 f_equal. by apply (keyed_update sb_id _ _ (fun _ => stored_row r)).
  - change (notify_step false t (ORemove id)) with (try_exec false t (delete_subscriber id)).
    unfold try_exec, delete_subscriber. unfold is_sub at 1. rewrite keyed_exists. cbn [notify_spec a_subs a_log].
    change (keyed lg_id (notification_log t)) with (a_log (notify_abs t)). rewrite <- (referenced_abs t id) by apply Hwf.
    pose proof (referenced_present t id Hwf) as Hp. destruct (referenced id t) eqn:Er.
    { by rewrite bool_decide_eq_true_2 by (by apply Hp). }
    rewrite andb_false_r. split; [by apply remove_wf|]. cbn [notification_subscribers notification_log]. by rewrite <- keyed_delete.
  - change (notify_step false t (OLog r)) with (try_exec false t (insert_log (mkLogRow (lg_id r) (lg_sent_at r) (lg_event_id r)
      (lg_subscriber_id r) (lg_outcome r) (lg_attempt_count r) (lg_error_detail r)))).
    replace (mkLogRow (lg_id r) _ _ _ _ _ _) with r by (by destruct r).
    unfold try_exec, insert_log, is_log, is_sub. rewrite !keyed_exists. cbn [notify_spec a_subs a_log].
    case_bool_decide as E1; [done|]. apply eq_None_not_Some in E1. cbn [orb]. destruct (log_allowed r) eqn:E2; [|done]. cbn [negb orb].
    case_bool_decide as E3; [|done]. cbn [negb]. split; [by apply log_wf|]. cbn [notification_subscribers notification_log]. by rewrite (keyed_app lg_id _ r).
  - change (notify_step false t (OOutcome id o n err)) with (try_exec false t (update_logs id (new_outcome o n err))).
    unfold try_exec, update_logs. cbn [notify_spec a_subs a_log]. rewrite existsb_outcome, <- keyed_exists.
    destruct (existsb _ _ && _) eqn:E; [done|]. split.
    + apply outcome_wf; [done|]. intros Hs. rewrite keyed_exists, bool_decide_eq_true_2 in E by done. by destruct (outcome_allowed o).
    + cbn [notification_subscribers notification_log]. do 2 f_equal. by apply (keyed_update lg_id _ _ (new_outcome o n err)).
Qed.

(** ** Reading rows back *)

Lemma starts_with_to_string z : is_u64 z -> starts_with_digit (to_string z) = true.
Proof.
  intros Hz. destruct (to_string_digits z Hz) as (ds & E & _ & Hd & _). rewrite E. destruct Hd as [|c ds Hc _]; [|done].
  exfalso. revert E. apply dec_some.
Qed.

Lemma stoll_int z : - 2 ^ 63 <= z < 2 ^ 63 -> stoll (int_to_string z) = Some z.
Proof.
  intros Hz. unfold int_to_string, stoll. destruct (Z.ltb_spec z 0).
  - pose proof (starts_with_to_string (- z) ltac:(unfold is_u64; lia)) as Hs.
    destruct (to_string_digits (- z)) as (ds & E & _ & _ & Hv); [unfold is_u64; lia|]. rewrite E in *.
    change (signed_value (bytes_of "-" ++ ds)) with (true, ds). cbv iota beta. rewrite Hs, Hv. cbn [negb].
    destruct (Z.leb_spec (- 2 ^ 63) (- - z)), (Z.ltb_spec (- - z) (2 ^ 63)); try lia. cbn [andb]. f_equal. lia.
  - pose proof (starts_with_to_string z ltac:(unfold is_u64; lia)) as Hs.
    destruct (to_string_digits z) as (ds & E & _ & Hd & Hv); [unfold is_u64; lia|]. rewrite E in *.
    rewrite digits_unsigned by done. rewrite Hs, Hv. cbn [negb].
    by destruct (Z.leb_spec (- 2 ^ 63) z), (Z.ltb_spec z (2 ^ 63)); try lia.
Qed.

Lemma stoi_int z : - 2 ^ 31 <= z < 2 ^ 31 -> stoi (int_to_string z) = Some z.
Proof.
  intros Hz. unfold stoi. rewrite stoll_int by lia. by destruct (Z.leb_spec (- 2 ^ 31) z), (Z.ltb_spec z (2 ^ 31)); try lia.
Qed.

Lemma c_str_int z : - 2 ^ 63 <= z < 2 ^ 63 -> c_str (int_to_string z) = int_to_string z.
Proof.
  intros Hz. apply c_str_id. destruct (strtoll_int z Hz) as [_ Hc]. intros H.
  apply (proj1 (list.Forall_forall _ _) Hc) in H. by vm_compute in H.
Qed.

Definition sub_nul_free (r : SubscriberRow) : Prop := Forall (fun s => x00 ∉ s) (take 6 (sub_columns r)).

(** What [get_subscriber] shows of a row. *)
Definition shown (r : SubscriberRow) : list (option (list byte)) :=
  map nullable (take 6 (sub_columns r)) ++ [Some (bytes_of (if sb_enabled r =? 0 then "false" else "true"))].

(** A stored subscriber reads back as it was stored, an empty text as absent and
    the flag as a word, an unknown identifier as absent; reading never throws. *)
Theorem subscriber_reads_back (t : NotifyTables) (id : list byte) (Hwf : wf_notify t)
    (Hn : Forall sub_nul_free (notification_subscribers t)) :
  get_subscriber false t id = Ok (option_map shown (a_subs (notify_abs t) !! id)).
Proof.
  unfold get_subscriber. cbn [notify_abs a_subs]. rewrite keyed_lookup. unfold is_sub. destruct (List.find _ _) as [r|] eqn:E; [|done].
  apply List.find_some in E as [Hr _]. apply list_elem_of_In in Hr.
  pose proof (proj1 (list.Forall_forall _ _) Hn _ Hr) as Hf. pose proof (proj1 (list.Forall_forall _ _) (nt_sub_checks t Hwf) _ Hr) as Hc.
  unfold subscriber_allowed in Hc. apply andb_true_iff in Hc as [_ Hc].
  unfold sub_nul_free, sub_columns in Hf. cbn [take] in Hf. repeat (apply list.Forall_cons in Hf as [? Hf]).
  change (length (sub_columns r)) with 7%nat. cbn [seq read_sub_columns]. unfold read_sub_column, get_string, sub_columns. cbn [lookup list_lookup option_map Nat.eqb].
  rewrite !c_str_id by done. rewrite c_str_int by lia. rewrite stoi_int by lia. reflexivity.
Qed.

(** The dispatcher sees exactly the enabled subscribers, as they were stored. *)
Lemma enabled_subscribers_exact (t : NotifyTables) (s : Notify.NotificationSubscriber) :
  wf_notify t -> Forall sub_nul_free (notification_subscribers t) ->
  s ∈ get_enabled_subscribers false t <->
  exists r, a_subs (notify_abs t) !! sb_id r = Some r /\ sb_enabled r = 1 /\
    s = Notify.mkSubscriber (sb_id r) (sb_name r) (sb_channel r) (sb_address r) (sb_min_severity r) (nullable (sb_event_filter r)) true.
Proof.
  intros Hwf Hn. unfold get_enabled_subscribers. rewrite list_elem_of_fmap.
  assert (Hrow : forall r, r ∈ notification_subscribers t -> subscriber_of_row r =
    Notify.mkSubscriber (sb_id r) (sb_name r) (sb_channel r) (sb_address r) (sb_min_severity r) (nullable (sb_event_filter r)) true).
  { intros r Hr. pose proof (proj1 (list.Forall_forall _ _) Hn _ Hr) as Hf. unfold sub_nul_free, sub_columns in Hf. cbn [take] in Hf.
    repeat (apply list.Forall_cons in Hf as [? Hf]). unfold subscriber_of_row, get_string, sub_columns. cbn [lookup list_lookup option_map to_str default].
    unfold id. by rewrite !c_str_id by done. }
  split.
  - intros (r & -> & Hr). apply list_elem_of_In, filter_In in Hr as [Hr He]. apply list_elem_of_In in Hr. exists r. rewrite Hrow by done.
    split_and!; [|unfold is_enabled in He; lia|done]. apply elem_of_list_to_map_1; [by rewrite <- list_fmap_compose; apply Hwf|].
    apply list_elem_of_fmap. by exists r.
  - intros (r & Hr & He & ->). cbn in Hr. rewrite keyed_lookup in Hr. apply List.find_some in Hr as [Hr _]. apply list_elem_of_In in Hr.
    exists r. rewrite Hrow by done. split; [done|]. apply list_elem_of_In, filter_In. split; [by apply list_elem_of_In|]. unfold is_enabled. lia.
Qed.

(** ** The log query *)

Definition log_representable (r : LogRow) : Prop :=
  Forall (fun s => x00 ∉ s) [lg_id r; lg_event_id r; lg_subscriber_id r; lg_outcome r; lg_error_detail r] /\
  - 2 ^ 63 <= lg_sent_at r < 2 ^ 63 /\ - 2 ^ 31 <= lg_attempt_count r < 2 ^ 31.

Lemma log_record_exact r : log_representable r -> log_record_of_row r = r.
Proof.
  intros (Hf & Hs & Ha). repeat (apply list.Forall_cons in Hf as [? Hf]).
  unfold log_record_of_row, get_string, log_columns. cbn [lookup list_lookup option_map to_str default]. unfold id.
  rewrite !c_str_int by lia. rewrite !c_str_id by done. rewrite stoll_int, stoi_int by done. by destruct r.
Qed.

Section LogQuery.
Context `{O : LogOrder} {L : LogOrderLaws O}.

(** A query of the delivery log returns the newest entries that match: the
    answer and the matching entries it leaves out are together all of them, the
    answer is ordered from the newest, nothing left out is newer than anything in
    it, and it has as many entries as the limit allows. *)
Theorem query_log_newest (t : NotifyTables) (subscriber_id : option (list byte)) (since limit : Z)
    (Hr : Forall log_representable (notification_log t)) :
  let matching := List.filter (log_selected subscriber_id since) (notification_log t) in
  let answer := query_log false t subscriber_id since limit in
  exists rest, Permutation (answer ++ rest) matching /\
    StronglySorted (fun a b => lg_sent_at b <= lg_sent_at a) answer /\
    (forall a b, a ∈ answer -> b ∈ rest -> lg_sent_at b <= lg_sent_at a) /\
    len answer = if 0 <? limit then Z.min limit (len matching) else len matching.
Proof.
  intros matching answer. set (rows := order_by_sent_at_desc matching).
  assert (Hp : Permutation rows matching) by apply log_order_permutation.
  assert (Hs : StronglySorted (fun a b => lg_sent_at b <= lg_sent_at a) rows) by apply log_order_sorted.
  set (n := if 0 <? limit then Z.to_nat limit else length rows).
  assert (Ea : answer = take n rows).
  { unfold answer, query_log. fold matching. fold rows. assert (E : (if 0 <? limit then take (Z.to_nat limit) rows else rows) = take n rows).
    { unfold n. destruct (0 <? limit); [done|]. by rewrite take_ge. }
    rewrite E. rewrite <- (map_id (take n rows)) at 2. apply map_ext_in. intros r Hin. apply log_record_exact.
    apply (proj1 (list.Forall_forall _ _) Hr). apply list_elem_of_In in Hin.
    assert (Hi : r ∈ rows) by (rewrite <- (take_drop n rows); apply elem_of_app; by left). rewrite Hp in Hi. apply list_elem_of_In, filter_In in Hi as [Hi _]. by apply list_elem_of_In. }
  rewrite Ea. exists (drop n rows). rewrite take_drop. rewrite <- (take_drop n rows) in Hs.
  split; [done|]. pose proof (StronglySorted_app_1_l _ _ _ Hs). split; [done|]. split.
  - intros a b Ha Hb. by apply (StronglySorted_app_1_elem_of _ _ _ _ _ Hs).
  - unfold len. rewrite length_take. pose proof (Permutation_length Hp). unfold n. destruct (Z.ltb_spec 0 limit); lia.
Qed.

End LogQuery.

(** ** Witnesses and departures *)

(** An order by insertion. *)
Fixpoint insert_newest (r : LogRow) (l : list LogRow) : list LogRow :=
  match l with
  | [] => [r]
  | x :: l' => if lg_sent_at x <=? lg_sent_at r then r :: l else x :: insert_newest r l'
  end.

#[export] Instance newest_first : LogOrder := fold_right insert_newest [].

Lemma insert_newest_perm r l : Permutation (insert_newest r l) (r :: l).
Proof.
  induction l as [|x l IH]; [done|]. cbn. destruct (_ <=? _); [done|]. rewrite IH. constructor.
Qed.

Lemma insert_newest_sorted r l : StronglySorted (fun a b => lg_sent_at b <= lg_sent_at a) l ->
  StronglySorted (fun a b => lg_sent_at b <= lg_sent_at a) (insert_newest r l).
Proof.
  induction 1 as [|x l Hs IH Hx]; cbn; [by repeat constructor|]. destruct (Z.leb_spec (lg_sent_at x) (lg_sent_at r)).
  - constructor; [by constructor|]. constructor; [done|]. eapply list.Forall_impl; [exact Hx|]. cbn. lia.
  - constructor; [done|]. rewrite insert_newest_perm. constructor; [lia|done].
Qed.

#[export] Instance newest_first_laws : LogOrderLaws newest_first.
Proof.
  split; intros l; unfold order_by_sent_at_desc, newest_first; induction l as [|x l IH]; cbn; try done.
  - rewrite insert_newest_perm. by constructor.
  - constructor.
  - by apply insert_newest_sorted.
Qed.

Definition ops_team : SubscriberRow :=
  mkSubRow (bytes_of "s1") (bytes_of "ops") (bytes_of "email") (bytes_of "ops@x") (bytes_of "WARN") [] 1.
Definition log_at (id : string) (t : Z) : LogRow := mkLogRow (bytes_of id) t (bytes_of "ev") (bytes_of "s1") (bytes_of "DELIVERED") 1 [].
Definition sample_notify : NotifyTables := mkNotify [ops_team] [log_at "a" 5; log_at "b" 9; log_at "c" 7].

Lemma sample_notify_wf : wf_notify sample_notify.
Proof. split; repeat constructor; try (apply (bool_decide_unpack _); by vm_compute). Qed.

Lemma notify_refines_maps_witness :
  let (ok, t') := notify_step false sample_notify (ORemove (bytes_of "s1")) in
  wf_notify t' /\
  (ok, notify_abs t') = match notify_spec (notify_abs sample_notify) (ORemove (bytes_of "s1")) with
                        | Some s => (true, s)
                        | None => (false, notify_abs sample_notify)
                        end.
Proof. apply (notify_refines_maps false sample_notify (ORemove (bytes_of "s1")) sample_notify_wf). Defined.

Lemma subscriber_reads_back_witness :
  get_subscriber false sample_notify (bytes_of "s1") = Ok (option_map shown (a_subs (notify_abs sample_notify) !! bytes_of "s1")).
Proof.
  apply (subscriber_reads_back sample_notify (bytes_of "s1") sample_notify_wf). repeat constructor; apply (bool_decide_unpack _); by vm_compute.
Defined.

Lemma query_log_newest_witness :
  let matching := List.filter (log_selected None 6) (notification_log sample_notify) in
  let answer := query_log false sample_notify None 6 1 in
  exists rest, Permutation (answer ++ rest) matching /\
    StronglySorted (fun a b => lg_sent_at b <= lg_sent_at a) answer /\
    (forall a b, a ∈ answer -> b ∈ rest -> lg_sent_at b <= lg_sent_at a) /\
    len answer = if 0 <? 1 then Z.min 1 (len matching) else len matching.
Proof.
  apply (query_log_newest sample_notify None 6 1). repeat constructor; try (apply (bool_decide_unpack _); by vm_compute); cbn; lia.
Defined.

(** A subscriber to whom something was ever delivered cannot be removed. *)
Lemma delivered_subscriber_stays : remove_subscriber false sample_notify (bytes_of "s1") = (false, sample_notify).
Proof. by vm_compute. Qed.

(** The channel of the mobile application is refused by the check of the table. *)
Lemma mobile_channel_refused :
  fst (add_subscriber false (mkNotify [] []) (bytes_of "m") (bytes_of "m") (bytes_of "mobile_push") (bytes_of "t") (bytes_of "INFO") None true) = false.
Proof. by vm_compute. Qed.
