(* ===== verification/Schema.v ===== *)
(** * The schema of the database

    [src/src/signature_store/db_schema.cpp]: the tables, their indexes, the first
    start, the migrations of older databases and the check of the schema.

    A database is a map of tables, a table its columns with their constraints and its
    rows.  [exec_sql] is what SQLite does with the statements of the file, with foreign
    keys enforced ([sqlite_connection.cpp], line 37); [fault] is a statement that the
    system fails.  [with_transaction] holds the lock of the connection, which [query]
    takes as well: [relock] says whether a holder may take it again ([std::mutex] may
    not). *)

From S2P Require Import Prelude Codec Types Notification SecureBuffer Objects ObjectStore Token Session Pkcs11 AuditLog KeyPolicy SignatureStore Delivery NotificationStore.
From stdpp Require Import strings.
Local Open Scope string_scope.
Local Open Scope Z_scope.

(** ** Tables *)

Definition Cell : Type := option (list byte).

(** A column: [NOT NULL], the values of its [CHECK], the table it refers to. *)
Record Column : Type := mkCol {
  c_name : string;
  c_not_null : bool;
  c_allowed : option (list string);
  c_refs : option string
}.

Record Table : Type := mkTable { t_cols : list Column; t_rows : list (list Cell) }.

(** The indexes by name and table. *)
Record Store : Type := mkStore { s_tables : gmap string Table; s_indexes : list (string * string) }.

#[global] Instance Column_eq_dec : EqDecision Column.
Proof. solve_decision. Defined.

#[global] Instance Table_eq_dec : EqDecision Table.
Proof. solve_decision. Defined.

Definition text (name : string) : Column := mkCol name false None None.
Definition required (name : string) : Column := mkCol name true None None.
Definition checked (name : string) (values : list string) : Column := mkCol name true (Some values) None.

Definition STATUS : list string := ["PENDING"; "COMMITTED"; "FAILED"].

Definition ledger_columns : list Column :=
  [required "id"; required "created_at"; required "slot_id"; required "token_label"; required "key_id"; required "key_fingerprint";
   required "mechanism"; required "payload_digest"; required "signature_b64"; required "session_handle"; text "user_label"; text "app_context";
   text "ledger_tx_id"; text "ledger_block_num"; text "ledger_tx_time"; text "ledger_tx_proof"; text "ledger_tx_set_b64"; checked "ledger_status" STATUS].

Definition record_columns : list Column :=
  (ledger_columns ++ [text "integrity_hmac"; text "pqc_algo"; text "signature_pqc_b64"; text "key_fingerprint_pqc"])%list.

Definition verification_columns : list Column :=
  [required "id"; required "verified_at"; mkCol "signature_id" false None (Some "signature_records"); required "verifier_session";
   checked "outcome" ["VALID"; "INVALID"; "KEY_NOT_FOUND"; "ERROR"];
   mkCol "ledger_outcome" false (Some ["MATCH"; "MISMATCH"; "NOT_FOUND"; "NOT_CHECKED"]) None; text "error_detail"].

Definition subscriber_columns : list Column :=
  [required "id"; required "name"; checked "channel" ["email"; "webhook"; "grpc_push"]; required "address";
   checked "min_severity" ["INFO"; "WARN"; "CRITICAL"]; text "event_filter"; checked "enabled" ["0"; "1"]].

Definition log_table_columns : list Column :=
  [required "id"; required "sent_at"; required "event_id"; mkCol "subscriber_id" false None (Some "notification_subscribers");
   checked "outcome" ["DELIVERED"; "RETRYING"; "FAILED"; "SKIPPED"]; required "attempt_count"; text "error_detail"].

Definition outbox_columns : list Column :=
  [required "id"; required "created_at"; required "event_type"; required "aggregate_id"; required "payload";
   checked "status" ["PENDING"; "DISPATCHED"; "FAILED"]; required "retry_count"].

Definition meta_columns : list Column := [required "key"; required "value"].

(** ** Statements *)

(** The expressions of a [SELECT] list. *)
Inductive Expr : Type :=
| ECol (name : string)
| ENull
| EText (v : string)
| ECoalesce (name v : string)
| ECase (name : string) (cases : list (string * string)).

Inductive Sql : Type :=
| CreateTable (if_not_exists : bool) (name : string) (cols : list Column)
| CreateIndex (name table column : string)
| InsertMeta (key : string) (value : list byte)
| InsertSelect (dst : string) (exprs : list Expr) (src : string)
| DropTable (name : string)
| RenameTable (old new : string)
| AddColumn (table column : string)
| UpdateMeta (key : string) (value : string).

Definition sql_error (m : string) : exn := RuntimeError m.

Definition col_index (cols : list Column) (name : string) : option nat :=
  option_map fst (list_find (fun c => c_name c = name) cols).

Definition cell_allowed (tables : gmap string Table) (c : Column) (v : Cell) : bool :=
  match v with
  | None => negb (c_not_null c)
  | Some b =>
    match c_allowed c with Some vs => existsb (fun s => bool_decide (b = bytes_of s)) vs | None => true end
    && match c_refs c with
       | None => true
       | Some t => match tables !! t with
                   | Some tab => existsb (fun r => bool_decide (r !! 0%nat = Some (Some b))) (t_rows tab)
                   | None => false
                   end
       end
  end.

(** A row satisfies the constraints of its columns, and its key is new. *)
Definition row_allowed (tables : gmap string Table) (t : Table) (row : list Cell) : bool :=
  Nat.eqb (length row) (length (t_cols t)) && forallb (fun p => cell_allowed tables (fst p) (snd p)) (combine (t_cols t) row)
  && negb (existsb (fun r => bool_decide (r !! 0%nat = row !! 0%nat)) (t_rows t)).

Definition with_tables (s : Store) (tables : gmap string Table) : Store := mkStore tables (s_indexes s).

Definition insert_row (s : Store) (name : string) (row : list Cell) : res Store :=
  match s_tables s !! name with
  | None => Throw (sql_error "no such table")
  | Some t =>
    if row_allowed (s_tables s) t row then Ok (with_tables s (<[name := mkTable (t_cols t) (t_rows t ++ [row])]> (s_tables s)))
    else Throw (sql_error "constraint failed")
  end.

Definition eval_expr (cols : list Column) (row : list Cell) (e : Expr) : res Cell :=
  let cell name := match col_index cols name with
                   | Some i => Ok (default None (row !! i))
                   | None => Throw (sql_error "no such column")
                   end in
  match e with
  | ECol name => cell name
  | ENull => Ok None
  | EText v => Ok (Some (bytes_of v))
  | ECoalesce name v => let* c := cell name in Ok (Some (default (bytes_of v) c))
  | ECase name cases =>
    let* c := cell name in
    Ok (match c with
        | Some b => option_map (fun p => bytes_of (snd p)) (List.find (fun p => bool_decide (b = bytes_of (fst p))) cases)
        | None => None
        end)
  end.

Fixpoint eval_exprs (cols : list Column) (row : list Cell) (es : list Expr) : res (list Cell) :=
  match es with
  | [] => Ok []
  | e :: es => let* c := eval_expr cols row e in let* cs := eval_exprs cols row es in Ok (c :: cs)
  end.

Fixpoint insert_rows (s : Store) (dst : string) (cols : list Column) (es : list Expr) (rows : list (list Cell)) : res Store :=
  match rows with
  | [] => Ok s
  | row :: rows =>
    let* new := eval_exprs cols row es in
    let* s := insert_row s dst new in
    insert_rows s dst cols es rows
  end.

(** Some row of another table refers to a row of this one. *)
Definition is_referenced (s : Store) (name : string) (t : Table) : bool :=
  existsb (fun p : string * Table =>
    negb (bool_decide (fst p = name)) &&
    existsb (fun row => existsb (fun cv : Column * Cell =>
      bool_decide (c_refs (fst cv) = Some name)
      && match snd cv with Some b => existsb (fun r => bool_decide (r !! 0%nat = Some (Some b))) (t_rows t) | None => false end)
      (combine (t_cols (snd p)) row)) (t_rows (snd p)))
  (map_to_list (s_tables s)).

Definition exec_sql (s : Store) (q : Sql) : res Store :=
  let tables := s_tables s in
  match q with
  | CreateTable ine name cols =>
    match tables !! name with
    | Some _ => if ine then Ok s else Throw (sql_error "table already exists")
    | None => Ok (with_tables s (<[name := mkTable cols []]> tables))
    end
  | CreateIndex name table column =>
    if existsb (fun p => bool_decide (fst p = name)) (s_indexes s) then Ok s
    else match tables !! table with
    | None => Throw (sql_error "no such table")
    | Some t => match col_index (t_cols t) column with
                | None => Throw (sql_error "no such column")
                | Some _ => Ok (mkStore tables (s_indexes s ++ [(name, table)]))
                end
    end
  | InsertMeta key value => insert_row s "db_meta" [Some (bytes_of key); Some value]
  | InsertSelect dst es src =>
    match tables !! src with
    | None => Throw (sql_error "no such table")
    | Some t => insert_rows s dst (t_cols t) es (t_rows t)
    end
  | DropTable name =>
    match tables !! name with
    | None => Throw (sql_error "no such table")
    | Some t => if is_referenced s name t then Throw (sql_error "FOREIGN KEY constraint failed")
                else Ok (mkStore (delete name tables) (List.filter (fun p => negb (bool_decide (snd p = name))) (s_indexes s)))
    end
  | RenameTable old new =>
    match tables !! old, tables !! new with
    | Some t, None => Ok (mkStore (<[new := t]> (delete old tables))
                            (map (fun p => (fst p, if bool_decide (snd p = old) then new else snd p)) (s_indexes s)))
    | _, _ => Throw (sql_error "cannot rename")
    end
  | AddColumn table column =>
    match tables !! table with
    | None => Throw (sql_error "no such table")
    | Some t => match col_index (t_cols t) column with
                | Some _ => Throw (sql_error "duplicate column name")
                | None => Ok (with_tables s (<[table := mkTable (t_cols t ++ [text column]) (map (fun r => (r ++ [None])%list) (t_rows t))]> tables))
                end
    end
  | UpdateMeta key value =>
    match tables !! "db_meta" with
    | None => Throw (sql_error "no such table")
    | Some t => Ok (with_tables s (<["db_meta" := mkTable (t_cols t)
                      (map (fun r => if bool_decide (r !! 0%nat = Some (Some (bytes_of key))) then [Some (bytes_of key); Some (bytes_of value)] else r) (t_rows t))]> tables))
    end
  end.

Fixpoint exec_all (fault : Sql -> bool) (s : Store) (qs : list Sql) : res Store :=
  match qs with
  | [] => Ok s
  | q :: qs => if fault q then Throw (sql_error "I/O error") else let* s := exec_sql s q in exec_all fault s qs
  end.

(** How a call of the class ends, and the database it leaves: it returns, throws, or
    waits for the lock its own caller holds. *)
Inductive Ran : Type := Done (s : Store) | Raised (s : Store) (e : exn) | Locked (s : Store).

Definition left_by (r : Ran) : Store := match r with Done s | Raised s _ | Locked s => s end.

(** [with_transaction] of a list of statements. *)
Definition with_transaction (fault : Sql -> bool) (commit_ok : bool) (s : Store) (qs : list Sql) : Ran :=
  match exec_all fault s qs with
  | Ok s' => if commit_ok then Done s' else Raised s (sql_error "COMMIT")
  | Throw e => Raised s e
  end.

(** ** The class *)

Definition K_CURRENT_SCHEMA_VERSION : Z := 6.

Definition K_SCHEMA_VERSION : string := "schema_version".
Definition K_INSTANCE_ID : string := "instance_id".
Definition K_CREATED_AT : string := "created_at".
Definition K_HMAC_KEY_WRAPPED : string := "hmac_key_wrapped".

Definition sql_create_db_meta : Sql := CreateTable true "db_meta" meta_columns.
Definition sql_create_signature_records : Sql := CreateTable true "signature_records" record_columns.
Definition sql_create_signature_verifications : Sql := CreateTable true "signature_verifications" verification_columns.
Definition sql_create_notification_subscribers : Sql := CreateTable true "notification_subscribers" subscriber_columns.
Definition sql_create_notification_log : Sql := CreateTable true "notification_log" log_table_columns.
Definition sql_create_event_outbox : Sql := CreateTable true "event_outbox" outbox_columns.

(** The statements of the text, one by one. *)
Definition sql_create_indexes : list Sql :=
  [CreateIndex "idx_sig_key_id" "signature_records" "key_id";
   CreateIndex "idx_sig_created_at" "signature_records" "created_at";
   CreateIndex "idx_sig_token_label" "signature_records" "token_label";
   CreateIndex "idx_sig_payload" "signature_records" "payload_digest";
   CreateIndex "idx_sig_ledger_tx_id" "signature_records" "ledger_tx_id";
   CreateIndex "idx_sig_ledger_status" "signature_records" "ledger_status";
   CreateIndex "idx_nlog_event_id" "notification_log" "event_id";
   CreateIndex "idx_nlog_subscriber" "notification_log" "subscriber_id";
   CreateIndex "idx_outbox_status" "event_outbox" "status";
   CreateIndex "idx_outbox_aggregate" "event_outbox" "aggregate_id"].

(** The whole text given to one [exec]: SQLite prepares the first statement only. *)
Definition exec_text (qs : list Sql) : list Sql := take 1 qs.

Definition table_exists (s : Store) (name : string) : bool := bool_decide (is_Some (s_tables s !! name)).

Definition column_exists (s : Store) (table column : string) : bool :=
  match s_tables s !! table with Some t => bool_decide (is_Some (col_index (t_cols t) column)) | None => false end.

(** [SELECT value FROM db_meta WHERE key=?], absent and [NULL] as the empty text. *)
Definition get_meta (s : Store) (key : string) : list byte :=
  match s_tables s !! "db_meta" with
  | Some t => match List.find (fun r => bool_decide (r !! 0%nat = Some (Some (bytes_of key)))) (t_rows t) with
              | Some r => c_str (default [] (default None (r !! 1%nat)))
              | None => []
              end
  | None => []
  end.

Definition set_meta (s : Store) (key : string) (value : list byte) : res Store :=
  match s_tables s !! "db_meta" with
  | None => Throw (sql_error "no such table")
  | Some t =>
    if existsb (fun r => bool_decide (r !! 0%nat = Some (Some (bytes_of key)))) (t_rows t)
    then Ok (with_tables s (<["db_meta" := mkTable (t_cols t)
           (map (fun r => if bool_decide (r !! 0%nat = Some (Some (bytes_of key))) then [Some (bytes_of key); Some value] else r) (t_rows t))]> (s_tables s)))
    else insert_row s "db_meta" [Some (bytes_of key); Some value]
  end.

Definition current_version (s : Store) : Z :=
  if negb (table_exists s "db_meta") then -1
  else let v := get_meta s K_SCHEMA_VERSION in
       if bool_decide (v = []) then -1 else default (-1) (stoi v).

Definition get_instance_id (s : Store) : list byte := get_meta s K_INSTANCE_ID.

(** A brand-new database. *)
Definition create_script (uuid : list byte) (now_ms : Z) : list Sql :=
  ([sql_create_db_meta; sql_create_signature_records; sql_create_signature_verifications; sql_create_notification_subscribers;
    sql_create_notification_log; sql_create_event_outbox] ++ sql_create_indexes ++
   [InsertMeta K_SCHEMA_VERSION (int_to_string K_CURRENT_SCHEMA_VERSION); InsertMeta K_INSTANCE_ID uuid;
    InsertMeta K_CREATED_AT (int_to_string now_ms); InsertMeta K_HMAC_KEY_WRAPPED (bytes_of "UNSET")])%list.

Definition kept_columns : list string :=
  ["id"; "created_at"; "slot_id"; "token_label"; "key_id"; "key_fingerprint"; "mechanism"; "payload_digest"; "signature_b64"; "session_handle";
   "user_label"; "app_context"].

(** [src_cols]. *)
Definition record_exprs (has_rekor_cols : bool) : list Expr :=
  (map ECol kept_columns ++
   if has_rekor_cols
   then [ECol "rekor_entry_uuid"; ECol "rekor_log_index"; ECol "rekor_integrated_time"; ECol "rekor_inclusion_proof"; ECol "rekor_set_b64";
         ECoalesce "rekor_status" "PENDING"]
   else [ENull; ENull; ENull; ENull; ENull; EText "PENDING"])%list.

Definition verification_exprs (has_rekor_outcome : bool) : list Expr :=
  [ECol "id"; ECol "verified_at"; ECol "signature_id"; ECol "verifier_session"; ECol "outcome";
   if has_rekor_outcome then ECase "rekor_outcome" [("PROOF_OK", "MATCH"); ("PROOF_FAILED", "MISMATCH"); ("NOT_CHECKED", "NOT_CHECKED")] else ENull;
   ECol "error_detail"].

Definition legacy_script (has_rekor_cols has_rekor_outcome has_registry : bool) : list Sql :=
  ([CreateTable false "signature_records_new" ledger_columns;
    InsertSelect "signature_records_new" (record_exprs has_rekor_cols) "signature_records";
    DropTable "signature_records"; RenameTable "signature_records_new" "signature_records";
    CreateTable false "signature_verifications_new" verification_columns;
    InsertSelect "signature_verifications_new" (verification_exprs has_rekor_outcome) "signature_verifications";
    DropTable "signature_verifications"; RenameTable "signature_verifications_new" "signature_verifications"]
   ++ (if has_registry then [DropTable "key_rekor_registry"] else []) ++ sql_create_indexes ++ [UpdateMeta K_SCHEMA_VERSION "4"])%list.

(** Rebuild of a notification table without [integrity_hmac]. *)
Definition rebuild_script (name : string) (cols : list Column) : list Sql :=
  ([CreateTable false (name +:+ "_new") cols; InsertSelect (name +:+ "_new") (map (fun c => ECol (c_name c)) cols) name;
    DropTable name; RenameTable (name +:+ "_new") name] ++ exec_text sql_create_indexes)%list.

Section Schema.
Context (relock : bool) (fault : Sql -> bool) (commit_ok : bool).

(** The lambda asks the connection before its first statement. *)
Definition migrate_legacy_to_v4 (s : Store) : Ran :=
  if negb relock then Locked s
  else with_transaction fault commit_ok s
         (legacy_script (column_exists s "signature_records" "rekor_entry_uuid") (column_exists s "signature_verifications" "rekor_outcome")
            (table_exists s "key_rekor_registry")).

Definition migrate_v4_to_v5 (s : Store) : Ran :=
  let subs_has_hmac := column_exists s "notification_subscribers" "integrity_hmac" in
  let log_has_hmac := column_exists s "notification_log" "integrity_hmac" in
  with_transaction fault commit_ok s
    ((if subs_has_hmac then rebuild_script "notification_subscribers" subscriber_columns else [])
     ++ (if log_has_hmac then rebuild_script "notification_log" log_table_columns else []) ++ [UpdateMeta K_SCHEMA_VERSION "5"])%list.

Definition on_outbox (q : Sql) : bool := match q with CreateIndex _ t _ => bool_decide (t = "event_outbox") | _ => false end.

Definition migrate_v5_to_v6 (s : Store) : Ran :=
  with_transaction fault commit_ok s
    ([sql_create_event_outbox] ++ List.filter on_outbox sql_create_indexes ++ [UpdateMeta K_SCHEMA_VERSION "6"])%list.

(** The next step on what the last one left, when it returned. *)
Definition and_then (r : Ran) (f : Store -> Ran) : Ran := match r with Done s => f s | _ => r end.

Definition migrate (s : Store) : Ran :=
  let from_version := current_version s in
  if from_version <? 0 then Raised s (sql_error "Cannot migrate: db_meta does not exist. Call bootstrap() first.")
  else if from_version =? K_CURRENT_SCHEMA_VERSION then Done s
  else if K_CURRENT_SCHEMA_VERSION <? from_version then Raised s (sql_error "Cannot migrate backwards")
  else and_then (migrate_legacy_to_v4 s) (fun s => and_then (migrate_v4_to_v5 s) migrate_v5_to_v6).

Definition add_missing_columns (s : Store) : Ran :=
  and_then (if column_exists s "signature_records" "integrity_hmac" then Done s
            else with_transaction fault commit_ok s [AddColumn "signature_records" "integrity_hmac"])
    (fun s => if column_exists s "signature_records" "pqc_algo" then Done s
              else with_transaction fault commit_ok s
                     [AddColumn "signature_records" "pqc_algo"; AddColumn "signature_records" "signature_pqc_b64";
                      AddColumn "signature_records" "key_fingerprint_pqc"]).

Definition bootstrap (uuid : list byte) (now_ms : Z) (s : Store) : Ran :=
  let version := current_version s in
  if version =? K_CURRENT_SCHEMA_VERSION then Done s
  else if K_CURRENT_SCHEMA_VERSION <? version then Raised s (sql_error "DB schema version is newer than compiled version")
  else if version =? -1 then with_transaction fault commit_ok s (create_script uuid now_ms)
  else and_then (migrate s) add_missing_columns.

End Schema.

(** [None] when the schema is intact, else the error. *)
Definition expected_tables : list string :=
  ["db_meta"; "signature_records"; "signature_verifications"; "notification_subscribers"; "notification_log"; "event_outbox"].

Definition verify_schema (s : Store) : option (list byte) :=
  match List.find (fun t => negb (table_exists s t)) expected_tables with
  | Some t => Some (bytes_of "Missing table: " ++ bytes_of t)%list
  | None =>
    if current_version s =? K_CURRENT_SCHEMA_VERSION then None
    else Some (bytes_of "Schema version mismatch: DB has v" ++ int_to_string (current_version s) ++ bytes_of ", expected v" ++ int_to_string K_CURRENT_SCHEMA_VERSION)%list
  end.

(** ** All or nothing *)

Lemma with_transaction_outcome fault ok s qs :
  match with_transaction fault ok s qs with
  | Done s' => ok = true /\ exec_all fault s qs = Ok s'
  | Raised s' _ => s' = s
  | Locked _ => False
  end.
Proof. unfold with_transaction. destruct (exec_all fault s qs); [by destruct ok|done]. Qed.

Definition empty_store : Store := mkStore ∅ [].

(** The database after the first start. *)
Definition fresh_store (uuid created : list byte) : Store :=
  mkStore (list_to_map
    [("db_meta", mkTable meta_columns [[Some (bytes_of K_SCHEMA_VERSION); Some (bytes_of "6")]; [Some (bytes_of K_INSTANCE_ID); Some uuid];
                                       [Some (bytes_of K_CREATED_AT); Some created]; [Some (bytes_of K_HMAC_KEY_WRAPPED); Some (bytes_of "UNSET")]]);
     ("signature_records", mkTable record_columns []); ("signature_verifications", mkTable verification_columns []);
     ("notification_subscribers", mkTable subscriber_columns []); ("notification_log", mkTable log_table_columns []);
     ("event_outbox", mkTable outbox_columns [])])
    (omap (fun q => match q with CreateIndex n t _ => Some (n, t) | _ => None end) sql_create_indexes).

Lemma create_fresh uuid now : exec_all (fun _ => false) empty_store (create_script uuid now) = Ok (fresh_store uuid (int_to_string now)).
Proof. unfold create_script. generalize (int_to_string now). intros created. vm_compute. reflexivity. Qed.

Lemma fresh_version uuid created : current_version (fresh_store uuid created) = 6.
Proof. reflexivity. Qed.

(** The schema step is all or nothing: on a connection whose lock is not
    reentrant, whatever statement or commit fails, it returns with the database as it
    was when that was at the current version, or with every statement of the first
    start executed when there was no version, and in every other case leaves the
    database unchanged.  The first start on an empty database without failures gives
    every table, the current version and the instance identifier, passes the check of
    the schema, and every later start returns and changes nothing. *)
Theorem bootstrap_all_or_nothing (fault : Sql -> bool) (commit_ok : bool) (uuid : list byte) (now : Z) (s : Store) :
  match bootstrap false fault commit_ok uuid now s with
  | Done s' => (current_version s = K_CURRENT_SCHEMA_VERSION /\ s' = s) \/
               (current_version s = -1 /\ commit_ok = true /\ exec_all fault s (create_script uuid now) = Ok s')
  | Raised s' _ => s' = s
  | Locked s' => s' = s /\ 0 <= current_version s < K_CURRENT_SCHEMA_VERSION
  end /\
  (exists s1, bootstrap false (fun _ => false) true uuid now empty_store = Done s1 /\ verify_schema s1 = None /\ get_instance_id s1 = c_str uuid /\
     forall fault' ok' uuid' now', bootstrap false fault' ok' uuid' now' s1 = Done s1).
Proof.
  split.
  - unfold bootstrap. destruct (Z.eqb_spec (current_version s) K_CURRENT_SCHEMA_VERSION); [by left|].
    destruct (Z.ltb_spec K_CURRENT_SCHEMA_VERSION (current_version s)); [done|]. destruct (Z.eqb_spec (current_version s) (-1)) as [Hv|Hv].
    + pose proof (with_transaction_outcome fault commit_ok s (create_script uuid now)) as Hx. destruct (with_transaction _ _ _ _); [by right|done|done].
    + unfold migrate. destruct (Z.ltb_spec (current_version s) 0); [done|]. destruct (Z.eqb_spec (current_version s) K_CURRENT_SCHEMA_VERSION); [done|].
      destruct (Z.ltb_spec K_CURRENT_SCHEMA_VERSION (current_version s)); [done|]. cbn. split; [done|]. unfold K_CURRENT_SCHEMA_VERSION in *. lia.
  - exists (fresh_store uuid (int_to_string now)). split_and!.
    + unfold bootstrap, with_transaction. rewrite create_fresh. reflexivity.
    + generalize (int_to_string now). reflexivity.
    + reflexivity.
    + intros. unfold bootstrap. by rewrite fresh_version.
Qed.

(** ** Older databases *)

Definition OUTBOX : string := "event_outbox".
Definition OUTBOX_INDEX : string := "idx_outbox_status".

(** Neither the outbox nor its index exist. *)
Definition no_outbox (s : Store) : Prop :=
  s_tables s !! OUTBOX = None /\ existsb (fun p : string * string => bool_decide (fst p = OUTBOX_INDEX)) (s_indexes s) = false.

Definition makes_outbox (q : Sql) : bool :=
  match q with
  | CreateTable _ n _ => bool_decide (n = OUTBOX)
  | CreateIndex n _ _ => bool_decide (n = OUTBOX_INDEX)
  | RenameTable _ n => bool_decide (n = OUTBOX)
  | _ => false
  end.

Lemma insert_no_outbox s name t t' :
  no_outbox s -> s_tables s !! name = Some t -> no_outbox (with_tables s (<[name := t']> (s_tables s))).
Proof.
  intros [H1 H2] Ht. split; [|done]. cbn [with_tables s_tables]. rewrite lookup_insert_ne; [done|]. intros ->. congruence.
Qed.

Lemma insert_row_no_outbox s name row s' : no_outbox s -> insert_row s name row = Ok s' -> no_outbox s'.
Proof.
  intros Hs. unfold insert_row. destruct (s_tables s !! name) as [t|] eqn:Et; [|done]. destruct (row_allowed _ _ _); [|done].
  intros [= <-]. by apply (insert_no_outbox s name t).
Qed.

Lemma insert_rows_no_outbox rows s dst cols es s' : no_outbox s -> insert_rows s dst cols es rows = Ok s' -> no_outbox s'.
Proof.
  revert s. induction rows as [|row rows IH]; intros s Hs; [by intros [= <-]|]. cbn [insert_rows].
  destruct (eval_exprs cols row es); [|done]. cbn [rbind]. destruct (insert_row s dst _) as [s1|] eqn:E; [|done]. cbn [rbind].
  apply IH. by apply (insert_row_no_outbox s dst _ s1 Hs E).
Qed.

Lemma exec_no_outbox s q s' : no_outbox s -> makes_outbox q = false -> exec_sql s q = Ok s' -> no_outbox s'.
Proof.
  intros Hs Hq. pose proof Hs as [H1 H2]. destruct q as [ine n cols|n t c|k v|dst es src|n|o n|t c|k v]; cbn [exec_sql makes_outbox] in *.
  - destruct (s_tables s !! n) as [t|] eqn:E; [destruct ine; [by intros [= <-]|done]|]. intros [= <-]. split; [|done].
    cbn [with_tables s_tables]. rewrite lookup_insert_ne; [done|]. by apply bool_decide_eq_false in Hq.
  - destruct (existsb (fun p : string * string => bool_decide (fst p = n)) (s_indexes s)); [by intros [= <-]|]. destruct (s_tables s !! t); [|done]. destruct (col_index _ _); [|done]. intros [= <-].
    split; [done|]. cbn [s_indexes]. by rewrite existsb_app, H2; cbn; rewrite Hq.
  - by apply insert_row_no_outbox.
  - destruct (s_tables s !! src); [|done]. by apply insert_rows_no_outbox.
  - destruct (s_tables s !! n); [|done]. destruct (is_referenced _ _ _); [done|]. intros [= <-]. split; cbn [s_tables s_indexes].
    + rewrite lookup_delete_None. by right.
    + apply not_true_iff_false. intros H. apply existsb_exists in H as (p & Hp & Hn). apply filter_In in Hp as [Hp _].
      apply not_true_iff_false in H2. apply H2, existsb_exists. by exists p.
  - destruct (s_tables s !! o) as [t|] eqn:Eo; [|done]. destruct (s_tables s !! n); [done|]. intros [= <-]. apply bool_decide_eq_false in Hq. split; cbn [s_tables s_indexes].
    + rewrite lookup_insert_ne by done. rewrite lookup_delete_None. by right.
    + apply not_true_iff_false. intros H. apply existsb_exists in H as (p & Hp & Hn). apply in_map_iff in Hp as (p' & <- & Hp). cbn [fst] in Hn.
      apply not_true_iff_false in H2. apply H2, existsb_exists. by exists p'.
  - destruct (s_tables s !! t) as [tab|] eqn:Et; [|done]. destruct (col_index _ _); [done|]. intros [= <-]. by apply (insert_no_outbox s t tab).
  - destruct (s_tables s !! "db_meta") as [tab|] eqn:Et; [|done]. intros [= <-]. by apply (insert_no_outbox s _ tab).
Qed.

(** A script that indexes the outbox before anything makes it fails. *)
Lemma outbox_index_fails fault pre post s :
  no_outbox s -> forallb (fun q => negb (makes_outbox q)) pre = true ->
  exists e, exec_all fault s (pre ++ CreateIndex OUTBOX_INDEX OUTBOX "status" :: post)%list = Throw e.
Proof.
  revert s. induction pre as [|q pre IH]; intros s Hs Hp; cbn [app exec_all].
  - destruct (fault _); [by eexists|]. cbn [exec_sql]. destruct Hs as [H1 H2]. rewrite H2, H1. by eexists.
  - cbn [forallb] in Hp. apply andb_true_iff in Hp as [Hq Hp]. destruct (fault q); [by eexists|].
    destruct (exec_sql s q) as [s1|e] eqn:E; [|by eexists]. cbn [rbind]. apply IH; [|done]. apply (exec_no_outbox s q s1); [done|by apply negb_true_iff|done].
Qed.

(** No database of an older version is ever upgraded: the step waits for its own lock,
    and where the lock is reentrant it fails on the index of the outbox, a table that
    only its last part makes; the database stays as it was. *)
Lemma older_database_never_upgraded relock fault ok uuid now s :
  0 <= current_version s < K_CURRENT_SCHEMA_VERSION -> no_outbox s ->
  left_by (bootstrap relock fault ok uuid now s) = s /\ (forall s', bootstrap relock fault ok uuid now s <> Done s').
Proof.
  intros Hv Hs. unfold bootstrap, migrate, K_CURRENT_SCHEMA_VERSION in *.
  rewrite (proj2 (Z.eqb_neq (current_version s) 6)), (proj2 (Z.ltb_ge 6 (current_version s))), (proj2 (Z.eqb_neq (current_version s) (-1))),
    (proj2 (Z.ltb_ge (current_version s) 0)) by lia.
  unfold migrate_legacy_to_v4. destruct relock; [|done]. cbn [negb]. unfold with_transaction.
  set (a := column_exists _ _ _). set (b := column_exists _ _ _). set (c := table_exists _ _).
  assert (E : exists pre post, legacy_script a b c = (pre ++ CreateIndex OUTBOX_INDEX OUTBOX "status" :: post)%list /\
    forallb (fun q => negb (makes_outbox q)) pre = true).
  { exists (take (if c then 17 else 16)%nat (legacy_script a b c)), (drop (if c then 18 else 17)%nat (legacy_script a b c)). destruct a, b, c; by vm_compute. }
  destruct E as (pre & post & -> & Hp). destruct (outbox_index_fails fault pre post s Hs Hp) as [e ->]. done.
Qed.

(** ** Witnesses and departures *)

Definition old_store : Store :=
  mkStore (<["db_meta" := mkTable meta_columns [[Some (bytes_of K_SCHEMA_VERSION); Some (bytes_of "5")]]]>
            (<["signature_records" := mkTable ledger_columns []]> (s_tables (mkStore ∅ [])))) [].

Lemma old_store_stays : forall relock, left_by (bootstrap relock (fun _ => false) true [] 0 old_store) = old_store.
Proof. intros relock. by apply (older_database_never_upgraded relock (fun _ => false) true [] 0 old_store). Qed.

(** A database at the current version without the later columns is taken as it is, and passes the check. *)
Definition bare_store : Store :=
  with_tables (fresh_store [] []) (<["signature_records" := mkTable ledger_columns []]> (s_tables (fresh_store [] []))).

Lemma missing_columns_accepted :
  bootstrap false (fun _ => false) true [] 0 bare_store = Done bare_store /\ verify_schema bare_store = None /\
  column_exists bare_store "signature_records" "integrity_hmac" = false.
Proof. split; [reflexivity|]. by vm_compute. Qed.

(** Records that were verified cannot be rebuilt: the copy done, dropping the old table violates the reference. *)
Definition verified_store : Store :=
  mkStore (<["signature_records" := mkTable ledger_columns [map (fun _ => Some (bytes_of "PENDING")) ledger_columns]]>
            (<["signature_verifications" := mkTable verification_columns
                 [[Some (bytes_of "v"); Some (bytes_of "1"); Some (bytes_of "PENDING"); Some (bytes_of "s"); Some (bytes_of "VALID"); None; None]]]> ∅)) [].

Lemma verified_records_not_rebuilt : exec_sql verified_store (DropTable "signature_records") = Throw (sql_error "FOREIGN KEY constraint failed").
Proof. by vm_compute. Qed.
