(* ===== verification/TaskWorker.v ===== *)
(** * The type-erased task holder

    [src/src/threadpool/task_worker.h].  A [TaskWorker] holds a callable either
    in its own buffer or in a heap block, and moves it with function pointers
    that have forgotten its type.  The model has the memory the class works on:
    the callable objects that are alive, by the address they live at, and the
    heap blocks.  A step that the language leaves undefined (a null function
    pointer, an operation on an address where no object of the type is alive, a
    construction over a live object, the release of a block that is not
    allocated) is [None].

    The program is any sequence of the operations of the class on variables:
    construction from a callable, the default and the move constructor, move
    assignment, the call and the end of the variable.  Allocation may fail, and a
    callable's move constructor may throw when its type does not promise
    otherwise. *)

From S2P Require Import Prelude.

Definition K_TASK_WORKER_CAPACITY : Z := 256.

(** What the template needs of a callable's type. *)
Record ctype : Type := mkCtype { ct_size : Z; ct_nothrow_move : bool }.

#[global] Instance ctype_eq_dec : EqDecision ctype.
Proof. solve_decision. Defined.

(** A callable object: its type, and which closure it is. *)
Record object : Type := mkObject { o_type : ctype; o_id : nat }.

(** An address: the buffer of a variable, or a heap block. *)
Definition loc : Type := (nat + nat)%type.
Definition buffer_ (w : nat) : loc := inl w.
Definition block (b : nat) : loc := inr b.

(** The members; a function pointer is the type it was made for. *)
Record TaskWorker : Type := mkWorker {
  data_ : option loc;
  heap_allocated_ : bool;
  uid_ : Z;
  invoke_ : option ctype;
  move_ : option ctype;
  cleanup_ : option ctype }.

(** The variables, the live objects, the allocated blocks, the counter of
    identities, and what happened: the closures stored, called and destroyed. *)
Record World : Type := mkWorld {
  workers : gmap nat TaskWorker;
  objects : gmap loc object;
  blocks : gset nat;
  next_block : nat;
  next_uid_ : Z;
  stored : list nat;
  called : list nat;
  destroyed : list nat }.

Definition set_worker (w : nat) (t : TaskWorker) (W : World) : World :=
  mkWorld (<[w := t]> (workers W)) (objects W) (blocks W) (next_block W) (next_uid_ W) (stored W) (called W) (destroyed W).

(** [make_empty], also the values of the members by default. *)
Definition make_empty : TaskWorker := mkWorker None false 0 None None None.

(** [fits_inline]. *)
Definition fits_inline (t : ctype) : bool := (ct_size t <=? K_TASK_WORKER_CAPACITY) && ct_nothrow_move t.

(** The object of type [t] that is alive at an address. *)
Definition object_at (t : option ctype) (l : option loc) (W : World) : option (loc * object) :=
  match t, l with
  | Some t, Some l =>
    match objects W !! l with
    | Some o => if bool_decide (o_type o = t) then Some (l, o) else None
    | None => None
    end
  | _, _ => None
  end.

(** [cleanup_(data)]. *)
Definition run_cleanup (p : option ctype) (l : option loc) (W : World) : option World :=
  match object_at p l W with
  | Some (l, o) =>
    Some (mkWorld (workers W) (delete l (objects W)) (blocks W) (next_block W) (next_uid_ W)
            (stored W) (called W) (destroyed W ++ [o_id o]))
  | None => None
  end.

(** [move_(dst, src)]: the callable is constructed at [dst] from the one at [src],
    which is then destroyed empty. *)
Definition run_move (p : option ctype) (dst : loc) (src : option loc) (W : World) : option World :=
  match object_at p src W with
  | Some (l, o) =>
    if bool_decide (objects W !! dst = None) then
      Some (mkWorld (workers W) (<[dst := o]> (delete l (objects W))) (blocks W) (next_block W) (next_uid_ W)
              (stored W) (called W) (destroyed W))
    else None
  | None => None
  end.

(** [invoke_(data)]. *)
Definition run_invoke (p : option ctype) (l : option loc) (W : World) : option World :=
  match object_at p l W with
  | Some (_, o) =>
    Some (mkWorld (workers W) (objects W) (blocks W) (next_block W) (next_uid_ W) (stored W) (called W ++ [o_id o]) (destroyed W))
  | None => None
  end.

(** [::operator delete(data)]. *)
Definition operator_delete (l : option loc) (W : World) : option World :=
  match l with
  | Some (inr b) =>
    if bool_decide (b ∈ blocks W) then
      Some (mkWorld (workers W) (objects W) (blocks W ∖ {[b]}) (next_block W) (next_uid_ W) (stored W) (called W) (destroyed W))
    else None
  | _ => None
  end.

Definition reset (w : nat) (W : World) : option World :=
  match workers W !! w with
  | None => None
  | Some t =>
    match data_ t with
    | None => Some (set_worker w make_empty W)
    | Some _ =>
      match run_cleanup (cleanup_ t) (data_ t) W with
      | None => None
      | Some W =>
        match (if heap_allocated_ t then operator_delete (data_ t) W else Some W) with
        | Some W => Some (set_worker w make_empty W)
        | None => None
        end
      end
    end
  end.

Definition transfer (w other : nat) (W : World) : option World :=
  match workers W !! other with
  | None => None
  | Some o =>
    if heap_allocated_ o then
      let t := mkWorker (data_ o) true (uid_ o) (invoke_ o) (move_ o) (cleanup_ o) in
      Some (set_worker other make_empty (set_worker w t W))
    else
      let heap := match workers W !! w with Some t => heap_allocated_ t | None => false end in
      let t := mkWorker (Some (buffer_ w)) heap (uid_ o) (invoke_ o) (move_ o) (cleanup_ o) in
      match run_move (move_ o) (buffer_ w) (data_ o) W with
      | Some W => Some (set_worker other make_empty (set_worker w t W))
      | None => None
      end
  end.

(** [if (other) transfer(std::move(other));]. *)
Definition transfer_if (w other : nat) (W : World) : option World :=
  match workers W !! other with
  | Some o => match data_ o with Some _ => transfer w other W | None => Some W end
  | None => None
  end.

Definition move_construct (w other : nat) (W : World) : option World :=
  transfer_if w other (set_worker w make_empty W).

Definition move_assign (w other : nat) (W : World) : option World :=
  if bool_decide (w = other) then Some W
  else match reset w W with Some W => transfer_if w other W | None => None end.

(** The constructor from a callable; [false] when it throws, and the variable
    then does not come to exist: its destructor does not run. *)
Definition construct (w : nat) (t : ctype) (id : nat) (alloc_ok throws : bool) (W : World) : option (bool * World) :=
  let inline := fits_inline t in
  if negb inline && negb alloc_ok then Some (false, W)
  else
    let l := if inline then buffer_ w else block (next_block W) in
    let W :=
      if inline then W
      else mkWorld (workers W) (objects W) (blocks W ∪ {[next_block W]}) (S (next_block W)) (next_uid_ W)
             (stored W) (called W) (destroyed W) in
    if negb (ct_nothrow_move t) && throws then Some (false, W)
    else if bool_decide (objects W !! l = None) then
      let tw := mkWorker (Some l) (negb inline) (next_uid_ W) (Some t) (if inline then Some t else None) (Some t) in
      Some (true, mkWorld (<[w := tw]> (workers W)) (<[l := mkObject t id]> (objects W)) (blocks W) (next_block W)
                    (u64 (next_uid_ W + 1)) (stored W ++ [id]) (called W) (destroyed W))
    else None.

(** [operator()]. *)
Definition invoke (w : nat) (W : World) : option World :=
  match workers W !! w with
  | None => None
  | Some t => match data_ t with Some _ => run_invoke (invoke_ t) (data_ t) W | None => Some W end
  end.

(** The end of the variable: [~TaskWorker]. *)
Definition destroy (w : nat) (W : World) : option World :=
  match reset w W with
  | Some W =>
    Some (mkWorld (delete w (workers W)) (objects W) (blocks W) (next_block W) (next_uid_ W) (stored W) (called W) (destroyed W))
  | None => None
  end.

(** [operator bool]. *)
Definition non_empty (t : TaskWorker) : bool := match data_ t with Some _ => true | None => false end.

(** ** Programs *)

Inductive op : Type :=
| Default (w : nat)
| Construct (w : nat) (t : ctype) (id : nat) (alloc_ok throws : bool)
| MoveConstruct (w other : nat)
| MoveAssign (w other : nat)
| Invoke (w : nat)
| End_of (w : nat).

(** A program names a variable only while it exists, and declares it once. *)
Definition scoped (W : World) (o : op) : bool :=
  let live w := bool_decide (is_Some (workers W !! w)) in
  match o with
  | Default w | Construct w _ _ _ _ => negb (live w)
  | MoveConstruct w other => negb (live w) && live other
  | MoveAssign w other => live w && live other
  | Invoke w | End_of w => live w
  end.

Definition step (W : World) (o : op) : option World :=
  match o with
  | Default w => Some (set_worker w make_empty W)
  | Construct w t id a th => option_map snd (construct w t id a th W)
  | MoveConstruct w other => move_construct w other W
  | MoveAssign w other => move_assign w other W
  | Invoke w => invoke w W
  | End_of w => destroy w W
  end.

Fixpoint run (ops : list op) (W : World) : option World :=
  match ops with
  | [] => Some W
  | o :: ops => match step W o with Some W => run ops W | None => None end
  end.

Fixpoint scoped_run (ops : list op) (W : World) : bool :=
  match ops with
  | [] => true
  | o :: ops => scoped W o && match step W o with Some W => scoped_run ops W | None => true end
  end.

Definition start : World := mkWorld ∅ ∅ ∅ 0 0 [] [] [].

(** ** Ownership *)

(** What a variable holds: nothing, an object in its own buffer with all three
    function pointers, or an object in a block it has to release. *)
Definition owns (objs : gmap loc object) (blks : gset nat) (w : nat) (t : TaskWorker) : Prop :=
  match data_ t with
  | None => t = make_empty
  | Some l =>
    exists o, objs !! l = Some o /\ invoke_ t = Some (o_type o) /\ cleanup_ t = Some (o_type o) /\
    ((l = buffer_ w /\ heap_allocated_ t = false /\ move_ t = Some (o_type o)) \/
     (exists b, l = block b /\ heap_allocated_ t = true /\ b ∈ blks))
  end.

(** Every live object is held by one variable, and only by that one. *)
Record Owned (ws : gmap nat TaskWorker) (objs : gmap loc object) (blks : gset nat) : Prop := {
  owned_owns : forall w t, ws !! w = Some t -> owns objs blks w t;
  owned_by : forall l o, objs !! l = Some o -> exists w t, ws !! w = Some t /\ data_ t = Some l;
  owned_excl : forall w1 w2 t1 t2 l, ws !! w1 = Some t1 -> ws !! w2 = Some t2 ->
    data_ t1 = Some l -> data_ t2 = Some l -> w1 = w2 }.

Definition ids (objs : gmap loc object) : list nat := (fun p => o_id p.2) <$> map_to_list objs.

(** The invariant: ownership, blocks numbered below the counter, each closure
    stored is alive or destroyed, once; and, [quiet] meaning that no callable
    threw while it was being stored, no block without an object. *)
Record Inv (quiet : bool) (W : World) : Prop := {
  inv_owned : Owned (workers W) (objects W) (blocks W);
  inv_fresh : forall b, b ∈ blocks W -> (b < next_block W)%nat;
  inv_count : stored W ≡ₚ destroyed W ++ ids (objects W);
  inv_blocks : quiet = true -> forall b, b ∈ blocks W -> is_Some (objects W !! block b) }.

Lemma ids_insert objs l o : objs !! l = None -> ids (<[l := o]> objs) ≡ₚ o_id o :: ids objs.
Proof. intros H. unfold ids. by rewrite map_to_list_insert. Qed.

Lemma ids_delete objs l o : objs !! l = Some o -> ids objs ≡ₚ o_id o :: ids (delete l objs).
Proof. intros H. unfold ids. by rewrite <- (map_to_list_delete objs l o). Qed.

Lemma owns_frame objs blks objs' blks' w t :
  owns objs blks w t -> (forall l, data_ t = Some l -> objs' !! l = objs !! l) ->
  (forall b, data_ t = Some (block b) -> b ∈ blks -> b ∈ blks') -> owns objs' blks' w t.
Proof.
  unfold owns. destruct (data_ t) as [l|]; [|done]. intros (o & Ho & Hi & Hc & Hcase) H1 H2.
  exists o. rewrite H1 by done. split_and!; [done..|]. destruct Hcase as [?|(b & -> & Hh & Hb)]; [by left|].
  right. exists b. split_and!; [done..|by apply H2].
Qed.

(** An empty buffer: no object lives in the buffer of a variable that holds none. *)
Lemma empty_buffer ws objs blks w :
  Owned ws objs blks -> (forall t, ws !! w = Some t -> data_ t = None) -> objs !! buffer_ w = None.
Proof.
  intros HO H. destruct (objs !! buffer_ w) as [o|] eqn:E; [|done].
  destruct (owned_by _ _ _ HO _ _ E) as (v & t & Hv & Hd). pose proof (owned_owns _ _ _ HO _ _ Hv) as Hw.
  unfold owns in Hw. rewrite Hd in Hw. destruct Hw as (o' & _ & _ & _ & [([= ->] & _)|(b & [=] & _)]).
  rewrite (H _ Hv) in Hd. discriminate.
Qed.

(** A variable that holds nothing may be declared, or emptied again. *)
Lemma owned_declare ws objs blks w :
  Owned ws objs blks -> (forall t, ws !! w = Some t -> data_ t = None) -> Owned (<[w := make_empty]> ws) objs blks.
Proof.
  intros HO Hw. split.
  - intros v t [[<- <-]|[Hne H]]%lookup_insert_Some; [done|]. by apply (owned_owns _ _ _ HO).
  - intros l o Ho. destruct (owned_by _ _ _ HO _ _ Ho) as (v & t & Hv & Hd). exists v, t. split; [|done].
    rewrite lookup_insert_ne; [done|]. intros <-. rewrite (Hw _ Hv) in Hd. discriminate.
  - intros w1 w2 t1 t2 l [[<- <-]|[Hn1 H1]]%lookup_insert_Some; [discriminate|].
    intros [[<- <-]|[Hn2 H2]]%lookup_insert_Some; [discriminate|]. by apply (owned_excl _ _ _ HO _ _ t1 t2).
Qed.

(** The object of a variable is destroyed and the variable emptied. *)
Lemma owned_release ws objs blks blks' w t l :
  Owned ws objs blks -> ws !! w = Some t -> data_ t = Some l ->
  (forall b, b ∈ blks -> l <> block b -> b ∈ blks') ->
  Owned (<[w := make_empty]> ws) (delete l objs) blks'.
Proof.
  intros HO Hw Hl Hb. split.
  - intros v u [[<- <-]|[Hne H]]%lookup_insert_Some; [done|].
    assert (data_ u <> Some l) as Hd.
    { intros E. apply Hne. by apply (owned_excl _ _ _ HO w v t u l). }
    apply (owns_frame objs blks); [by apply (owned_owns _ _ _ HO)| |].
    + intros l' El. apply lookup_delete_ne. congruence.
    + intros b El Hin. apply Hb; [done|congruence].
  - intros l' o [Hne Ho]%lookup_delete_Some. destruct (owned_by _ _ _ HO _ _ Ho) as (v & u & Hv & Hd).
    exists v, u. split; [|done]. rewrite lookup_insert_ne; [done|]. congruence.
  - intros w1 w2 t1 t2 l' [[<- <-]|[Hn1 H1]]%lookup_insert_Some; [discriminate|].
    intros [[<- <-]|[Hn2 H2]]%lookup_insert_Some; [discriminate|]. by apply (owned_excl _ _ _ HO _ _ t1 t2).
Qed.

(** A variable without an object receives one at an address that is free. *)
Lemma owned_acquire ws objs blks blks' w t l o :
  Owned ws objs blks -> (forall u, ws !! w = Some u -> data_ u = None) -> objs !! l = None ->
  data_ t = Some l -> owns (<[l := o]> objs) blks' w t -> blks ⊆ blks' ->
  Owned (<[w := t]> ws) (<[l := o]> objs) blks'.
Proof.
  intros HO Hw Hfree Hl Ht Hsub.
  assert (forall v u, ws !! v = Some u -> data_ u <> Some l) as Hd.
  { intros v u Hv E. pose proof (owned_owns _ _ _ HO _ _ Hv) as H. unfold owns in H. rewrite E in H.
    destruct H as (x & H & _). congruence. }
  split.
  - intros v u [[<- <-]|[Hne H]]%lookup_insert_Some; [done|].
    apply (owns_frame objs blks); [by apply (owned_owns _ _ _ HO)| |set_solver].
    intros l' El. apply lookup_insert_ne. intros <-. by apply (Hd v u).
  - intros l' x [[<- <-]|[Hne Hx]]%lookup_insert_Some; [exists w, t; by rewrite lookup_insert_eq|].
    destruct (owned_by _ _ _ HO _ _ Hx) as (v & u & Hv & Hu). exists v, u. split; [|done].
    rewrite lookup_insert_ne; [done|]. intros <-. rewrite (Hw _ Hv) in Hu. discriminate.
  - intros w1 w2 t1 t2 l' [[<- <-]|[Hn1 H1]]%lookup_insert_Some [[<- <-]|[Hn2 H2]]%lookup_insert_Some E1 E2.
    + done.
    + exfalso. apply (Hd w2 t2 H2). congruence.
    + exfalso. apply (Hd w1 t1 H1). congruence.
    + by apply (owned_excl _ _ _ HO _ _ t1 t2 l').
Qed.

(** ** Every operation keeps it *)

Lemma reset_inv q W w t :
  Inv q W -> workers W !! w = Some t ->
  exists W', reset w W = Some W' /\ Inv q W' /\ workers W' = <[w := make_empty]> (workers W).
Proof.
  intros [HO Hf Hc Hb] Hw. unfold reset. rewrite Hw. destruct (data_ t) as [l|] eqn:El.
  2:{ eexists. split; [done|]. split; [|done]. split; [|done..]. apply owned_declare; [done|]. congruence. }
  pose proof (owned_owns _ _ _ HO _ _ Hw) as Ho. unfold owns in Ho. rewrite El in Ho.
  destruct Ho as (o & Ho & _ & Hcl & Hcase). unfold run_cleanup, object_at.
  rewrite Hcl, Ho, bool_decide_eq_true_2 by done.
  assert (stored W ≡ₚ (destroyed W ++ [o_id o]) ++ ids (delete l (objects W))) as Hc'
    by (rewrite Hc, (ids_delete _ _ _ Ho), <- app_assoc; done).
  destruct Hcase as [(-> & -> & _)|(b & -> & -> & Hin)].
  - eexists. split; [done|]. split; [|done]. split; cbn; [|done|done|].
    + apply (owned_release _ _ (blocks W) _ _ t); done.
    + intros Hq b Hin. rewrite lookup_delete_ne by done. by apply Hb.
  - cbn. rewrite bool_decide_eq_true_2 by done. eexists. split; [done|]. split; [|done]. split; cbn; [| |done|].
    + apply (owned_release _ _ (blocks W) _ _ t); [done..|]. intros c Hc'' Hne.
      apply elem_of_difference. split; [done|]. intros ->%elem_of_singleton. by apply Hne.
    + intros c [H _]%elem_of_difference. by apply Hf.
    + intros Hq c [H Hne]%elem_of_difference. rewrite lookup_delete_ne; [by apply Hb|].
      intros [= ->]. by apply Hne, elem_of_singleton.
Qed.

Lemma transfer_inv q W w other t l :
  Inv q W -> w <> other -> workers W !! w = Some make_empty -> workers W !! other = Some t -> data_ t = Some l ->
  exists W', transfer w other W = Some W' /\ Inv q W'.
Proof.
  intros [HO Hf Hc Hb] Hne Hw Ht El. unfold transfer. rewrite Ht, Hw.
  pose proof (owned_owns _ _ _ HO _ _ Ht) as Ho. unfold owns in Ho. rewrite El in Ho.
  destruct Ho as (o & Ho & Hi & Hcl & Hcase).
  pose proof (owned_release _ _ _ (blocks W) other t l HO Ht El ltac:(done)) as HR.
  assert (forall u, <[other := make_empty]> (workers W) !! w = Some u -> data_ u = None) as Hempty.
  { intros u. rewrite lookup_insert_ne by done. rewrite Hw. intros [= <-]. done. }
  destruct Hcase as [(-> & Hh & Hm)|(b & -> & Hh & Hin)]; rewrite Hh.
  - unfold run_move, object_at. rewrite Hm, El, Ho, (bool_decide_eq_true_2 (o_type o = _)) by done.
    assert (objects W !! buffer_ w = None) as Hfree by (apply (empty_buffer _ _ _ _ HO); rewrite Hw; by intros ? [= <-]).
    rewrite bool_decide_eq_true_2 by done. eexists. split; [done|]. split; cbn; [|done| |].
    + rewrite insert_insert_ne by done. apply (owned_acquire _ _ (blocks W)); [done..| |done| |done].
      * by rewrite lookup_delete_ne by (intros [=]; done).
      * unfold owns. cbn. exists o. rewrite lookup_insert_eq. split_and!; [done..|]. by left.
    + rewrite Hc, (ids_delete _ _ _ Ho), ids_insert; [done|]. by rewrite lookup_delete_ne by (intros [=]; done).
    + intros Hq b Hin. rewrite lookup_insert_ne, lookup_delete_ne by done. by apply Hb.
  - eexists. split; [done|]. split; cbn; [|done..]. rewrite insert_insert_ne by done.
    replace (objects W) with (<[block b := o]> (delete (block b) (objects W)))
      by (by rewrite insert_delete_eq, insert_id).
    apply (owned_acquire _ _ (blocks W)); [done|done|by rewrite lookup_delete_eq|done| |done].
    unfold owns. cbn. rewrite El. exists o. rewrite lookup_insert_eq. split_and!; [done..|]. right. eauto.
Qed.

Lemma transfer_if_inv q W w other t :
  Inv q W -> w <> other -> workers W !! w = Some make_empty -> workers W !! other = Some t ->
  exists W', transfer_if w other W = Some W' /\ Inv q W'.
Proof.
  intros HI Hne Hw Ht. unfold transfer_if. rewrite Ht. destruct (data_ t) as [l|] eqn:El; [|eauto].
  by apply (transfer_inv q W w other t l).
Qed.

Lemma declare_inv q W w : Inv q W -> workers W !! w = None -> Inv q (set_worker w make_empty W).
Proof.
  intros [HO Hf Hc Hb] Hw. split; [|done..]. apply owned_declare; [done|]. cbn in *. congruence.
Qed.

Lemma construct_inv q W w t id a th :
  Inv q W -> workers W !! w = None -> (q = true -> negb (ct_nothrow_move t) && th = false) ->
  exists r, construct w t id a th W = Some r /\ Inv q r.2.
Proof.
  intros [HO Hf Hc Hb] Hw Hq. unfold construct.
  assert (forall u, workers W !! w = Some u -> data_ u = None) as Hempty by congruence.
  destruct (fits_inline t) eqn:Ef; cbn [negb andb].
  - assert (ct_nothrow_move t = true) as -> by (unfold fits_inline in Ef; by apply andb_true_iff in Ef as [_ ?]).
    cbn [negb andb]. pose proof (empty_buffer _ _ _ _ HO Hempty) as Hfree. rewrite bool_decide_eq_true_2 by done.
    eexists. split; [done|]. split; cbn; [|done| |].
    + apply (owned_acquire _ _ (blocks W)); [done..| |done]. unfold owns. cbn. eexists. rewrite lookup_insert_eq.
      split_and!; [done..|]. by left.
    + rewrite Hc, ids_insert by done. cbn. by rewrite <- app_assoc, (Permutation_app_comm _ [id]).
    + intros Hq' b Hin. rewrite lookup_insert_ne by done. by apply Hb.
  - destruct a; cbn [negb]; [|eexists; split; [done|]; by split].
    assert (objects W !! block (next_block W) = None) as Hfree.
    { destruct (objects W !! block (next_block W)) as [o|] eqn:E; [|done].
      destruct (owned_by _ _ _ HO _ _ E) as (v & u & Hv & Hd). pose proof (owned_owns _ _ _ HO _ _ Hv) as Ho.
      unfold owns in Ho. rewrite Hd in Ho. destruct Ho as (? & _ & _ & _ & [([=] & _)|(b & [= <-] & _ & Hin)]).
      apply Hf in Hin. lia. }
    destruct (negb (ct_nothrow_move t) && th) eqn:Eth.
    + eexists. split; [done|]. split; cbn; [| |done|intros ->; by specialize (Hq eq_refl)].
      * destruct HO as [H1 H2 H3]. split; [|done..]. intros v u Hv. apply (owns_frame (objects W) (blocks W)); [auto|done|set_solver].
      * intros b [Hin| ->%elem_of_singleton]%elem_of_union; [apply Hf in Hin; lia|lia].
    + cbn. rewrite bool_decide_eq_true_2 by done. eexists. split; [done|]. split; cbn.
      * apply (owned_acquire _ _ (blocks W)); [done..| |set_solver]. unfold owns. cbn. eexists. rewrite lookup_insert_eq.
        split_and!; [done..|]. right. exists (next_block W). split_and!; [done..|set_solver].
      * intros b [Hin| ->%elem_of_singleton]%elem_of_union; [apply Hf in Hin; lia|lia].
      * rewrite Hc, ids_insert by done. cbn. by rewrite <- app_assoc, (Permutation_app_comm _ [id]).
      * intros Hq' b [Hin| ->%elem_of_singleton]%elem_of_union; [|by rewrite lookup_insert_eq].
        rewrite lookup_insert_ne; [by apply Hb|]. intros [= <-]. apply Hf in Hin. lia.
Qed.

(** The callable throws while it is being stored. *)
Definition throwing (o : op) : bool :=
  match o with Construct _ t _ _ th => negb (ct_nothrow_move t) && th | _ => false end.

Lemma invoke_inv q W w t : Inv q W -> workers W !! w = Some t -> exists W', invoke w W = Some W' /\ Inv q W'.
Proof.
  intros HI Hw. unfold invoke. rewrite Hw. destruct (data_ t) as [l|] eqn:El; [|eauto].
  pose proof (owned_owns _ _ _ (inv_owned _ _ HI) _ _ Hw) as Ho. unfold owns in Ho. rewrite El in Ho.
  destruct Ho as (o & Ho & Hi & _). unfold run_invoke, object_at. rewrite Hi, Ho, bool_decide_eq_true_2 by done.
  eexists. split; [done|]. destruct HI. by split.
Qed.

Lemma destroy_inv q W w t :
  Inv q W -> workers W !! w = Some t -> exists W', destroy w W = Some W' /\ Inv q W'.
Proof.
  intros HI Hw. destruct (reset_inv q W w t HI Hw) as (W' & E & [HO Hf Hc Hb] & Ews). unfold destroy. rewrite E.
  eexists. split; [done|]. split; cbn; [|done..]. rewrite Ews in HO |- *. destruct HO as [H1 H2 H3]. split.
  - intros v u [Hne Hv]%lookup_delete_Some. by apply H1.
  - intros l o Ho. destruct (H2 l o Ho) as (v & u & Hv & Hd). exists v, u. split; [|done].
    apply lookup_delete_Some. split; [|done]. intros <-. rewrite lookup_insert_eq in Hv. by injection Hv as <-.
  - intros w1 w2 t1 t2 l [_ Hv1]%lookup_delete_Some [_ Hv2]%lookup_delete_Some. by apply (H3 w1 w2 t1 t2 l).
Qed.

(** No operation of a scoped program is undefined, and each keeps the invariant. *)
Lemma command_inv q W o :
  Inv q W -> scoped W o = true -> (q = true -> throwing o = false) -> exists W', step W o = Some W' /\ Inv q W'.
Proof.
  intros HI Hs Ht. destruct o as [w|w t id a th|w other|w other|w|w]; cbn in *;
    repeat match goal with
    | H : _ && _ = true |- _ => apply andb_true_iff in H as [? H]
    | H : negb _ = true |- _ => apply negb_true_iff, bool_decide_eq_false in H
    | H : bool_decide _ = true |- _ => apply bool_decide_eq_true in H as [? ?]
    | H : ~ is_Some _ |- _ => apply eq_None_not_Some in H
    end.
  - eexists. split; [done|]. by apply declare_inv.
  - destruct (construct_inv q W w t id a th) as (r & -> & Hr); [done..|]. cbn. eauto.
  - unfold move_construct. assert (w <> other) as Hne by congruence.
    eapply transfer_if_inv; [by apply declare_inv|done|cbn; by rewrite lookup_insert_eq|].
    cbn. by rewrite lookup_insert_ne.
  - unfold move_assign. destruct (decide (w = other)) as [->|Hne]; [rewrite bool_decide_eq_true_2 by done; eauto|].
    rewrite bool_decide_eq_false_2 by done.
    destruct (reset_inv q W w _ HI ltac:(eassumption)) as (W' & -> & HI' & Ews).
    eapply transfer_if_inv; [done|done|by rewrite Ews, lookup_insert_eq|]. by rewrite Ews, lookup_insert_ne.
  - by eapply invoke_inv.
  - by eapply destroy_inv.
Qed.

Lemma program_inv q ops W :
  Inv q W -> scoped_run ops W = true -> (q = true -> Forall (fun o => throwing o = false) ops) ->
  exists W', run ops W = Some W' /\ Inv q W'.
Proof.
  revert W. induction ops as [|o ops IH]; cbn; intros W HI Hs Ht; [eauto|].
  apply andb_true_iff in Hs as [Hs Hr]. destruct (command_inv q W o HI Hs) as (W' & E & HI').
  { intros Hq. by apply Ht in Hq as [? _]%list.Forall_cons. }
  rewrite E in *. apply IH; [done..|]. intros Hq. by apply Ht in Hq as [_ ?]%list.Forall_cons.
Qed.

Lemma start_inv q : Inv q start.
Proof.
  split; cbn; [split|..]; try (intros *; rewrite ?lookup_empty; set_solver).
Qed.

(** C38: under every program of constructions, moves, assignments (to itself
    included), calls and ends of variables, no operation of the task holder is
    undefined: no null function pointer, no use of a callable that moved away or
    was destroyed, no block released twice.  Each stored closure is held by
    exactly one variable or has been destroyed exactly once; when all variables
    have ended every closure was destroyed once, and no heap block is left unless
    a callable threw while it was being stored. *)
Theorem tasks_owned_once ops :
  scoped_run ops start = true ->
  exists W, run ops start = Some W /\ Owned (workers W) (objects W) (blocks W) /\
    stored W ≡ₚ destroyed W ++ ids (objects W) /\
    (workers W = ∅ -> stored W ≡ₚ destroyed W /\ (Forall (fun o => throwing o = false) ops -> blocks W = ∅)).
Proof.
  intros Hs. destruct (program_inv false ops start (start_inv _) Hs ltac:(discriminate)) as (W & E & HI).
  exists W. destruct HI as [HO Hf Hc _]. split_and!; [done..|]. intros Hw.
  assert (objects W = ∅) as Ho.
  { apply map_empty. intros l. destruct (objects W !! l) as [o|] eqn:El; [|done].
    destruct (owned_by _ _ _ HO _ _ El) as (w & t & H & _). rewrite Hw, lookup_empty in H. discriminate. }
  split; [rewrite Hc, Ho; unfold ids; by rewrite map_to_list_empty, app_nil_r|].
  intros HF. destruct (program_inv true ops start (start_inv _) Hs (fun _ => HF)) as (W' & E' & HI').
  assert (W' = W) as -> by congruence. apply set_eq. intros b. split; [|set_solver].
  intros Hb. destruct (inv_blocks _ _ HI' eq_refl b Hb) as [o H]. by rewrite Ho, lookup_empty in H.
Qed.

(** A callable that fits the buffer, one too large for it, and one whose move may
    throw. *)
Definition small : ctype := mkCtype 32 true.
Definition large : ctype := mkCtype 4096 true.
Definition throws_on_move : ctype := mkCtype 32 false.

Definition sample_ops : list op :=
  [Construct 0 small 7 true false; Construct 1 large 8 true false; MoveConstruct 2 1; MoveAssign 0 2; MoveAssign 0 0;
   Invoke 0; Default 3; MoveAssign 3 0; End_of 3; End_of 2; End_of 1; End_of 0].

Lemma tasks_owned_once_witness :
  exists W, run sample_ops start = Some W /\ blocks W = ∅ /\ destroyed W = [7; 8]%nat /\ called W = [8]%nat /\
    stored W ≡ₚ destroyed W.
Proof.
  destruct (tasks_owned_once sample_ops) as (W & E & _ & _ & Hend); [vm_compute; reflexivity|].
  assert (workers W = ∅) as Hw by (vm_compute in E; injection E as <-; vm_compute; reflexivity).
  destruct (Hend Hw) as [Hp Hb]. exists W. split; [exact E|]. split.
  - apply Hb. repeat constructor.
  - split; [|split; [|exact Hp]]; vm_compute in E; injection E as <-; reflexivity.
Defined.

(** After a move the source is empty and calls nothing, and the destination calls
    what the source held, in either storage. *)
Lemma moved_from_is_empty :
  (run [Construct 0 small 7 true false; MoveConstruct 1 0; Invoke 0; Invoke 1] start ≫= fun W => Some (called W)) = Some [7%nat] /\
  (run [Construct 0 large 7 true false; MoveConstruct 1 0; Invoke 0; Invoke 1] start ≫= fun W => Some (called W)) = Some [7%nat].
Proof. split; vm_compute; reflexivity. Qed.

(** ** Where the code departs from its comments *)

(** "A task is invocable at most once": the call leaves the callable in place, and
    calling again runs it again. *)
Lemma invoked_twice :
  (run [Construct 0 small 7 true false; Invoke 0; Invoke 0] start ≫= fun W => Some (called W)) = Some [7; 7]%nat.
Proof. vm_compute. reflexivity. Qed.

(** A callable whose move constructor throws while it is stored on the heap: the
    destructor of the holder does not run, and the block is never released. *)
Lemma throwing_callable_leaks :
  exists W, run [Construct 0 throws_on_move 7 true true] start = Some W /\
    workers W = ∅ /\ stored W = [] /\ blocks W = {[0%nat]}.
Proof. eexists. split; [vm_compute; reflexivity|]. split_and!; vm_compute; reflexivity. Qed.
