(* ===== verification/ThreadPool.v ===== *)
(** * The worker pool

    [src/src/threadpool/thread_pool.h] and [thread_pool.cpp]: two bounded queues of
    tasks, the worker threads that empty them, and the counters between them.

    The pool is a machine whose steps are the atomic actions of its threads: a
    critical section of a queue mutex, one read-modify-write of a counter, the
    evaluation of the predicate of the condition variable, going to sleep on it.
    A schedule is a list of actions, each naming the thread that moves, so a
    theorem about every schedule is a theorem about every interleaving.  The
    atomics are sequentially consistent here, which is stronger than the acquire
    and release orders of the code; a task runs in one step, appended to [ran].
    The lists [accepted] and [ran] record what was put in a queue and what ran;
    the code has no such lists, and no step reads them.

    The mutex [state_mutex_] is held by the worker that evaluates the predicate
    until it tests, or sleeps: another worker, or the store of [stopping], waits
    for it.  Producers never take it. *)

From S2P Require Import Prelude.
From stdpp Require Import list.
Local Open Scope Z_scope.

Inductive PrivilegeTier : Type := Low | High.

Record CapabilityToken : Type := mkToken { tier_ : PrivilegeTier; valid_ : bool }.

Definition grant (tier : PrivilegeTier) : CapabilityToken := mkToken tier true.
Definition default_token : CapabilityToken := mkToken Low false.

(** [is_valid], as [validate_token] tests it. *)
Definition validate_token (t : CapabilityToken) : bool := valid_ t.

Record PoolConfig : Type := mkConfig { worker_count : Z; queue_capacity : Z }.

Definition K_DEFAULT_QUEUE_CAPACITY : Z := 1024.

Definition resolve_worker_count (hardware_concurrency requested : Z) : Z :=
  if negb (requested =? 0) then requested
  else if hardware_concurrency =? 0 then 1 else hardware_concurrency.

(** The three ways in: [enqueue], [submit] and [enqueue_batch]. *)
Inductive Entry : Type := Enqueue | Submit | Batch.

Inductive PoolError : Type := InvalidToken | Stopping | CapacityExceeded.

Inductive Answer : Type := Accepted (ok : bool) | Future | Count (n : Z) | Raised (e : PoolError).

Section Pool.
Context {T : Type}.

(** Where a thread that puts tasks in is: before the call; about to take the
    queue mutex for the next task; about to add to [queued], then to [enqueued];
    about to notify; returned. *)
Inductive Producer : Type :=
| PCall (k : Entry) (token : CapabilityToken) (tasks : list T)
| PPush (k : Entry) (tier : PrivilegeTier) (todo : list T) (acc : Z)
| PQueued (k : Entry) (tier : PrivilegeTier) (todo : list T) (acc : Z)
| PEnqueued (k : Entry) (tier : PrivilegeTier) (todo : list T) (acc : Z)
| PNotify (k : Entry) (acc : Z)
| PDone (a : Answer).

(** Where a worker is: about to lock and evaluate the predicate; the predicate
    was false and it is about to sleep; asleep; the predicate was true and it is
    about to test for the end; about to look at the high queue, at the low one;
    with a task not yet subtracted from [queued]; about to count itself as
    running; running; done running; not counted as executed yet; returned. *)
Inductive Worker : Type :=
| WIdle | WSleepy | WWaiting | WTest | WPop | WPopLow
| WGot (t : T) | WReady (t : T) | WRun (t : T) | WRan | WFinished | WExited.

Inductive Stage : Type := Open | Stored | Notified | Joined.

Record ThreadPool : Type := mkPool {
  high_queue_ : list T;
  low_queue_ : list T;
  high_capacity_ : Z;
  low_capacity_ : Z;
  stage : Stage;
  queued : Z;
  running : Z;
  enqueued : Z;
  executed : Z;
  dropped : Z;
  threads_ : list Worker;
  producers : list Producer;
  accepted : list T;
  ran : list T
}.

Definition new_pool (hardware_concurrency : Z) (config : PoolConfig) : ThreadPool :=
  mkPool [] [] (queue_capacity config) (queue_capacity config) Open 0 0 0 0 0
    (replicate (Z.to_nat (resolve_worker_count hardware_concurrency (worker_count config))) WIdle) [] [] [].

Definition stopping (p : ThreadPool) : bool := match stage p with Open => false | _ => true end.

Definition set_threads (p : ThreadPool) (ws : list Worker) : ThreadPool :=
  mkPool (high_queue_ p) (low_queue_ p) (high_capacity_ p) (low_capacity_ p) (stage p) (queued p) (running p)
    (enqueued p) (executed p) (dropped p) ws (producers p) (accepted p) (ran p).

Definition set_producers (p : ThreadPool) (ps : list Producer) : ThreadPool :=
  mkPool (high_queue_ p) (low_queue_ p) (high_capacity_ p) (low_capacity_ p) (stage p) (queued p) (running p)
    (enqueued p) (executed p) (dropped p) (threads_ p) ps (accepted p) (ran p).

Definition set_stage (p : ThreadPool) (s : Stage) : ThreadPool :=
  mkPool (high_queue_ p) (low_queue_ p) (high_capacity_ p) (low_capacity_ p) s (queued p) (running p)
    (enqueued p) (executed p) (dropped p) (threads_ p) (producers p) (accepted p) (ran p).

Definition set_counters (p : ThreadPool) (q r e x d : Z) : ThreadPool :=
  mkPool (high_queue_ p) (low_queue_ p) (high_capacity_ p) (low_capacity_ p) (stage p) q r e x d
    (threads_ p) (producers p) (accepted p) (ran p).

Definition set_queues (p : ThreadPool) (h l : list T) : ThreadPool :=
  mkPool h l (high_capacity_ p) (low_capacity_ p) (stage p) (queued p) (running p)
    (enqueued p) (executed p) (dropped p) (threads_ p) (producers p) (accepted p) (ran p).

Definition set_logs (p : ThreadPool) (a r : list T) : ThreadPool :=
  mkPool (high_queue_ p) (low_queue_ p) (high_capacity_ p) (low_capacity_ p) (stage p) (queued p) (running p)
    (enqueued p) (executed p) (dropped p) (threads_ p) (producers p) a r.

Definition set_worker (p : ThreadPool) (j : nat) (w : Worker) : ThreadPool := set_threads p (<[j := w]> (threads_ p)).
Definition set_producer (p : ThreadPool) (i : nat) (x : Producer) : ThreadPool := set_producers p (<[i := x]> (producers p)).

Definition add_queued (p : ThreadPool) (d : Z) : ThreadPool :=
  set_counters p (u64 (queued p + d)) (running p) (enqueued p) (executed p) (dropped p).
Definition add_running (p : ThreadPool) (d : Z) : ThreadPool :=
  set_counters p (queued p) (u64 (running p + d)) (enqueued p) (executed p) (dropped p).
Definition add_enqueued (p : ThreadPool) : ThreadPool :=
  set_counters p (queued p) (running p) (u64 (enqueued p + 1)) (executed p) (dropped p).
Definition add_executed (p : ThreadPool) : ThreadPool :=
  set_counters p (queued p) (running p) (enqueued p) (u64 (executed p + 1)) (dropped p).
Definition add_dropped (p : ThreadPool) : ThreadPool :=
  set_counters p (queued p) (running p) (enqueued p) (executed p) (u64 (dropped p + 1)).

(** The critical section of [enqueue_locked]: [None] when the tier is full. *)
Definition push (p : ThreadPool) (tier : PrivilegeTier) (t : T) : option ThreadPool :=
  match tier with
  | High => if (0 <? high_capacity_ p) && (high_capacity_ p <=? len (high_queue_ p)) then None
            else Some (set_logs (set_queues p (high_queue_ p ++ [t]) (low_queue_ p)) (accepted p ++ [t]) (ran p))
  | Low => if (0 <? low_capacity_ p) && (low_capacity_ p <=? len (low_queue_ p)) then None
           else Some (set_logs (set_queues p (high_queue_ p) (low_queue_ p ++ [t])) (accepted p ++ [t]) (ran p))
  end.

Definition is_waiting (w : Worker) : bool := match w with WWaiting => true | _ => false end.

(** [notify_one] wakes a sleeping worker, [pick], if there is one. *)
Definition notify_one (p : ThreadPool) (pick : nat) : option ThreadPool :=
  match threads_ p !! pick with
  | Some WWaiting => Some (set_worker p pick WIdle)
  | _ => if existsb is_waiting (threads_ p) then None else Some p
  end.

Definition notify_all (p : ThreadPool) : ThreadPool :=
  set_threads p (map (fun w => match w with WWaiting => WIdle | _ => w end) (threads_ p)).

Definition answer_of (k : Entry) (acc : Z) : Answer :=
  match k with
  | Enqueue => Accepted (negb (acc =? 0))
  | Submit => if acc =? 0 then Raised CapacityExceeded else Future
  | Batch => Count acc
  end.

Definition producer_step (p : ThreadPool) (i pick : nat) : option ThreadPool :=
  match producers p !! i with
  | None => None
  | Some x =>
    match x with
    | PCall k token tasks =>
      Some (set_producer p i
        (if negb (validate_token token) then PDone (Raised InvalidToken)
         else if stopping p then PDone (Raised Stopping)
         else PPush k (tier_ token) tasks 0))
    | PPush k tier [] acc => Some (set_producer p i (PNotify k acc))
    | PPush k tier (t :: todo) acc =>
      match push p tier t with
      | Some p => Some (set_producer p i (PQueued k tier todo acc))
      | None => Some (set_producer (add_dropped p) i (PPush k tier todo acc))
      end
    | PQueued k tier todo acc => Some (set_producer (add_queued p 1) i (PEnqueued k tier todo acc))
    | PEnqueued k tier todo acc => Some (set_producer (add_enqueued p) i (PPush k tier todo (u64 (acc + 1))))
    | PNotify k acc =>
      let p' := set_producer p i (PDone (answer_of k acc)) in
      if acc =? 0 then Some p' else if acc =? 1 then notify_one p' pick else Some (notify_all p')
    | PDone _ => None
    end
  end.

Definition holds_mutex (w : Worker) : bool := match w with WSleepy | WTest => true | _ => false end.

Definition mutex_free (p : ThreadPool) : bool := negb (existsb holds_mutex (threads_ p)).

(** One step of [worker_thread]. *)
Definition worker_step (p : ThreadPool) (j : nat) : option ThreadPool :=
  match threads_ p !! j with
  | None => None
  | Some w =>
    match w with
    | WIdle => if mutex_free p then Some (set_worker p j (if stopping p || (0 <? queued p) then WTest else WSleepy)) else None
    | WSleepy => Some (set_worker p j WWaiting)
    | WWaiting => None
    | WTest => Some (set_worker p j (if stopping p && (queued p =? 0) then WExited else WPop))
    | WPop =>
      match high_queue_ p with
      | t :: q => Some (set_worker (set_queues p q (low_queue_ p)) j (WGot t))
      | [] => Some (set_worker p j WPopLow)
      end
    | WPopLow =>
      match low_queue_ p with
      | t :: q => Some (set_worker (set_queues p (high_queue_ p) q) j (WGot t))
      | [] => Some (set_worker p j WIdle)
      end
    | WGot t => Some (set_worker (add_queued p (-1)) j (WReady t))
    | WReady t => Some (set_worker (add_running p 1) j (WRun t))
    | WRun t => Some (set_worker (set_logs p (accepted p) (ran p ++ [t])) j WRan)
    | WRan => Some (set_worker (add_running p (-1)) j WFinished)
    | WFinished => Some (set_worker (add_executed p) j WIdle)
    | WExited => None
    end
  end.

Definition is_exited (w : Worker) : bool := match w with WExited => true | _ => false end.

Inductive Action : Type :=
| Arrive (k : Entry) (token : CapabilityToken) (tasks : list T)
| Produce (i pick : nat)
| Work (j : nat)
| Spurious (j : nat)
| Stop
| WakeAll
| Join.

(** [shutdown] is [Stop], [WakeAll], a bounded wait that only delays, and [Join]. *)
Definition step (p : ThreadPool) (a : Action) : option ThreadPool :=
  match a with
  | Arrive k token tasks =>
    if match k with Batch => true | _ => Nat.eqb (length tasks) 1 end
    then Some (set_producers p (producers p ++ [PCall k token tasks])) else None
  | Produce i pick => producer_step p i pick
  | Work j => worker_step p j
  | Spurious j => match threads_ p !! j with Some WWaiting => Some (set_worker p j WIdle) | _ => None end
  | Stop => match stage p with Open => if mutex_free p then Some (set_stage p Stored) else None | _ => None end
  | WakeAll => match stage p with Stored => Some (set_stage (notify_all p) Notified) | _ => None end
  | Join => match stage p with Notified => if forallb is_exited (threads_ p) then Some (set_stage p Joined) else None | _ => None end
  end.

Fixpoint run (p : ThreadPool) (schedule : list Action) : option ThreadPool :=
  match schedule with
  | [] => Some p
  | a :: schedule => match step p a with Some p => run p schedule | None => None end
  end.

(** ** Counting threads *)

Definition total {A} (f : A -> Z) (l : list A) : Z := foldr (fun x n => f x + n) 0 l.

Definition held (w : Worker) : list T := match w with WGot t | WReady t | WRun t => [t] | _ => [] end.

Definition got (w : Worker) : Z := match w with WGot _ => 1 | _ => 0 end.
Definition active (w : Worker) : Z := match w with WRun _ | WRan => 1 | _ => 0 end.
Definition uncounted (w : Worker) : Z := match w with WRan | WFinished => 1 | _ => 0 end.
Definition unqueued (x : Producer) : Z := match x with PQueued _ _ _ _ => 1 | _ => 0 end.
Definition unenqueued (x : Producer) : Z := match x with PQueued _ _ _ _ | PEnqueued _ _ _ _ => 1 | _ => 0 end.

Lemma total_cons {A} (f : A -> Z) x l : total f (x :: l) = f x + total f l.
Proof. done. Qed.

Lemma total_nil {A} (f : A -> Z) : total f [] = 0.
Proof. done. Qed.

Lemma total_app {A} (f : A -> Z) l1 l2 : total f (l1 ++ l2) = total f l1 + total f l2.
Proof. induction l1 as [|x l1 IH]; [done|]. cbn [app]. rewrite !total_cons. lia. Qed.

(** A list at an index, before and after it is changed. *)
Lemma lookup_split {A} (l : list A) j x :
  l !! j = Some x -> exists l1 l2, l = l1 ++ x :: l2 /\ forall y, <[j := y]> l = l1 ++ y :: l2.
Proof.
  intros H. exists (take j l), (drop (S j) l). split; [by rewrite list.take_drop_middle|].
  intros y. apply list.insert_take_drop. by eapply list.lookup_lt_Some.
Qed.

Lemma total_insert {A} (f : A -> Z) (l : list A) j x y :
  l !! j = Some x -> total f (<[j := y]> l) = total f l - f x + f y.
Proof.
  intros H. destruct (lookup_split _ _ _ H) as (l1 & l2 & E & Ei). rewrite Ei, E, !total_app, !total_cons. lia.
Qed.

Lemma u64_shift a b : u64 (u64 a + b) = u64 (a + b).
Proof. unfold u64. apply Zplus_mod_idemp_l. Qed.

(** ** The invariant *)

Record pool_inv (p : ThreadPool) : Prop := {
  i_tasks : accepted p ≡ₚ ran p ++ high_queue_ p ++ low_queue_ p ++ concat (map held (threads_ p));
  i_queued : queued p = u64 (len (high_queue_ p) + len (low_queue_ p) + total got (threads_ p) - total unqueued (producers p));
  i_running : running p = u64 (total active (threads_ p));
  i_enqueued : enqueued p = u64 (len (accepted p) - total unenqueued (producers p));
  i_executed : executed p = u64 (len (ran p) - total uncounted (threads_ p));
  i_high : 0 < high_capacity_ p -> len (high_queue_ p) <= high_capacity_ p;
  i_low : 0 < low_capacity_ p -> len (low_queue_ p) <= low_capacity_ p
}.

Ltac open_counts := rewrite ?len_app, ?len_cons, ?len_nil, ?total_app, ?total_cons, ?total_nil, ?map_app, ?concat_app in *; cbn [map concat] in *.

Lemma total_replicate {A} (f : A -> Z) n x : f x = 0 -> total f (replicate n x) = 0.
Proof. intros H. induction n as [|n IH]; [done|]. change (f x + total f (replicate n x) = 0). lia. Qed.

Lemma new_pool_inv hc config : pool_inv (new_pool hc config).
Proof.
  unfold new_pool. constructor; cbn -[u64 replicate Z.to_nat total]; rewrite ?total_replicate by done; try done; [|unfold len; cbn; lia..].
  induction (Z.to_nat _) as [|n IH]; [done|exact IH].
Qed.

Ltac inv_solve :=
  open_counts; cbn [got active uncounted unqueued unenqueued held] in *;
  try first [ assumption
            | match goal with H : ?a ≡ₚ _ |- context [?a] => rewrite H; solve_Permutation end
            | match goal with H : ?c = u64 _ |- context [?c] => rewrite H, ?u64_shift; f_equal; lia end
            | lia ].

Lemma worker_step_inv p j p' : pool_inv p -> worker_step p j = Some p' -> pool_inv p'.
Proof.
  unfold worker_step. destruct p as [h l ? ? ? ? ? ? ? ? ws ? ? ?]. intros [Ht Hq Hr He Hx Hh Hl] Hs.
  cbn -[u64 len total mutex_free] in *. destruct (ws !! j) as [w|] eqn:Ew; [|done]. destruct (lookup_split _ _ _ Ew) as (l1 & l2 & E & Ei).
  rewrite E in Ht, Hq, Hr, Hx. clear E Ew.
  destruct w; try discriminate;
    repeat match type of Hs with
           | context [match h with _ => _ end] => destruct h
           | context [match l with _ => _ end] => destruct l
           | context [if ?b then _ else _] => destruct b
           end; try discriminate Hs; injection Hs as <-; constructor; cbn -[u64 len total]; rewrite ?Ei; inv_solve.
Qed.

(** Waking workers moves no task. *)
Lemma wake_measure (f : Worker -> Z) ws :
  f WIdle = f WWaiting -> total f (map (fun w => match w with WWaiting => WIdle | _ => w end) ws) = total f ws.
Proof. intros H. induction ws as [|w ws IH]; [done|]. cbn [map]. rewrite !total_cons, IH. by destruct w; rewrite ?H. Qed.

Lemma notify_all_inv p : pool_inv p -> pool_inv (notify_all p).
Proof.
  intros [Ht Hq Hr He Hx Hh Hl]. constructor; cbn -[u64 len total]; rewrite ?wake_measure by done; try done.
  rewrite map_map, (map_ext _ held); [done|by intros []].
Qed.

Lemma wake_inv p j : pool_inv p -> threads_ p !! j = Some WWaiting -> pool_inv (set_worker p j WIdle).
Proof.
  intros [Ht Hq Hr He Hx Hh Hl] Ew. destruct (lookup_split _ _ _ Ew) as (l1 & l2 & E & Ei).
  rewrite E in Ht, Hq, Hr, Hx. constructor; cbn -[u64 len total]; rewrite ?Ei; inv_solve.
Qed.

Lemma notify_one_inv p pick p' : pool_inv p -> notify_one p pick = Some p' -> pool_inv p'.
Proof.
  intros Hp Hs. unfold notify_one in Hs. destruct (threads_ p !! pick) as [[]|] eqn:E;
    try (destruct (existsb _ _); by simplify_eq). simplify_eq. by apply wake_inv.
Qed.

Lemma push_inv p tier t p' :
  push p tier t = Some p' ->
  exists h l, p' = set_logs (set_queues p h l) (accepted p ++ [t]) (ran p) /\ h ++ l ≡ₚ t :: high_queue_ p ++ low_queue_ p /\
    len h + len l = len (high_queue_ p) + len (low_queue_ p) + 1 /\
    (0 < high_capacity_ p -> len (high_queue_ p) <= high_capacity_ p -> len h <= high_capacity_ p) /\
    (0 < low_capacity_ p -> len (low_queue_ p) <= low_capacity_ p -> len l <= low_capacity_ p).
Proof.
  unfold push. destruct tier;
    match goal with |- context [if ?a && ?b then _ else _] => destruct a eqn:E1; destruct b eqn:E2; cbn [andb] end;
    intros Hs; simplify_eq; do 2 eexists; (split; [reflexivity|]); rewrite !len_app, len_cons, len_nil;
    (split; [solve_Permutation|lia]).
Qed.

(** A move of a producer that owes the counters the same. *)
Lemma set_producer_inv p i x y :
  pool_inv p -> producers p !! i = Some x -> unqueued y = unqueued x -> unenqueued y = unenqueued x ->
  pool_inv (set_producer p i y).
Proof.
  intros [Ht Hq Hr He Hx Hh Hl] Ex E1 E2. destruct (lookup_split _ _ _ Ex) as (l1 & l2 & E & Ei). rewrite E in Hq, He.
  constructor; cbn -[u64 len total]; rewrite ?Ei; open_counts; rewrite ?E1, ?E2; done.
Qed.

Lemma producer_step_inv p i pick p' : pool_inv p -> producer_step p i pick = Some p' -> pool_inv p'.
Proof.
  unfold producer_step. intros Hp Hs. destruct (producers p !! i) as [x|] eqn:Ex; [|done].
  destruct (lookup_split _ _ _ Ex) as (l1 & l2 & E & Ei).
  destruct x as [k token tasks|k tier [|t todo] acc|k tier todo acc|k tier todo acc|k acc|]; simplify_eq.
  - eapply set_producer_inv; [done..| |]; by destruct (negb (validate_token token)), (stopping p).
  - by eapply set_producer_inv.
  - destruct (push p tier t) as [p1|] eqn:Ep; simplify_eq;
      destruct Hp as [Ht Hq Hr He Hx Hh Hl]; rewrite E in Hq, He.
    + destruct (push_inv _ _ _ _ Ep) as (h & l & -> & Hperm & Hlen & Hc1 & Hc2).
      constructor; cbn -[u64 len total]; rewrite ?Ei; inv_solve; [|auto..].
      rewrite Ht, (assoc_L (++) h), Hperm. solve_Permutation.
    + constructor; cbn -[u64 len total]; rewrite ?Ei; inv_solve.
  - destruct Hp as [Ht Hq Hr He Hx Hh Hl]. rewrite E in Hq, He. constructor; cbn -[u64 len total]; rewrite ?Ei; inv_solve.
  - destruct Hp as [Ht Hq Hr He Hx Hh Hl]. rewrite E in Hq, He. constructor; cbn -[u64 len total]; rewrite ?Ei; inv_solve.
  - assert (Hp' : pool_inv (set_producer p i (PDone (answer_of k acc)))) by (by eapply set_producer_inv).
    destruct (acc =? 0); [by simplify_eq|]. destruct (acc =? 1); [by eapply notify_one_inv|]. simplify_eq. by apply notify_all_inv.
Qed.

Lemma step_inv p a p' : pool_inv p -> step p a = Some p' -> pool_inv p'.
Proof.
  intros Hp Hs. destruct a as [k token tasks|i pick|j|j| | |]; cbn [step] in Hs.
  - destruct (match k with Batch => true | _ => _ end); simplify_eq.
    destruct Hp as [Ht Hq Hr He Hx Hh Hl]. constructor; cbn -[u64 len total]; inv_solve.
  - by eapply producer_step_inv.
  - by eapply worker_step_inv.
  - destruct (threads_ p !! j) as [[]|] eqn:E; simplify_eq. by apply wake_inv.
  - destruct (stage p), (mutex_free p); simplify_eq. by destruct Hp.
  - destruct (stage p); simplify_eq. apply notify_all_inv in Hp. by destruct Hp.
  - destruct (stage p), (forallb is_exited (threads_ p)); simplify_eq. by destruct Hp.
Qed.

(** What every step keeps, every schedule keeps. *)
Lemma run_invariant (I : ThreadPool -> Prop) :
  (forall p a p', I p -> step p a = Some p' -> I p') ->
  forall schedule p p', I p -> run p schedule = Some p' -> I p'.
Proof.
  intros H schedule. induction schedule as [|a schedule IH]; intros p p' Hp Hr; cbn [run] in Hr; [by simplify_eq|].
  destruct (step p a) as [p1|] eqn:E; [|done]. eauto.
Qed.

(** ** Who can be where *)

(** No worker has returned while the pool is open; none is about to sleep once
    [stopping] is stored; none sleeps once all were notified. *)
Definition allowed (s : Stage) (w : Worker) : bool :=
  match s, w with
  | Open, WExited => false
  | Open, _ => true
  | _, WSleepy => false
  | Stored, _ => true
  | _, WWaiting => false
  | _, _ => true
  end.

Definition placed (p : ThreadPool) : Prop :=
  threads_ p <> [] /\ Forall (fun w => allowed (stage p) w = true) (threads_ p).

Lemma insert_not_nil {A} (l : list A) i x : l <> [] -> <[i := x]> l <> [].
Proof. intros H E. apply H. apply nil_length_inv. by rewrite <- (list.length_insert l i x), E. Qed.

Lemma set_worker_placed p j w : placed p -> allowed (stage p) w = true -> placed (set_worker p j w).
Proof. intros [H1 H2] Hw. split; [by apply insert_not_nil|]. by apply list.Forall_insert. Qed.

Lemma idle_allowed s : allowed s WIdle = true.
Proof. by destruct s. Qed.

Lemma notify_all_placed p : placed p -> placed (notify_all p).
Proof.
  intros [H1 H2]. split; cbn; [by destruct (threads_ p)|]. apply List.Forall_map.
  eapply list.Forall_impl; [exact H2|]. intros w. by destruct (stage p), w.
Qed.

Lemma notify_one_placed p pick p' : placed p -> notify_one p pick = Some p' -> placed p'.
Proof.
  intros Hp Hs. unfold notify_one in Hs. destruct (threads_ p !! pick) as [[]|] eqn:E;
    try (destruct (existsb _ _); by simplify_eq). simplify_eq. apply set_worker_placed; [done|apply idle_allowed].
Qed.

Lemma push_threads p tier t p' : push p tier t = Some p' -> threads_ p' = threads_ p /\ stage p' = stage p.
Proof. unfold push. destruct tier; destruct (_ && _); intros ?; by simplify_eq. Qed.

Lemma producer_step_placed p i pick p' : placed p -> producer_step p i pick = Some p' -> placed p'.
Proof.
  unfold producer_step. intros Hp Hs. destruct (producers p !! i) as [x|]; [|done].
  destruct x as [k token tasks|k tier [|t todo] acc|k tier todo acc|k tier todo acc|k acc|]; simplify_eq; try exact Hp.
  - destruct (push p tier t) as [p1|] eqn:E; simplify_eq; [|exact Hp].
    destruct (push_threads _ _ _ _ E) as [E1 E2]. unfold placed. cbn. rewrite E1, E2. exact Hp.
  - destruct (acc =? 0); [by simplify_eq|]. destruct (acc =? 1); [by eapply notify_one_placed; [|exact Hs]|].
    simplify_eq. by apply (notify_all_placed (set_producer p i (PDone (answer_of k acc)))).
Qed.

Lemma worker_step_placed p j p' : placed p -> worker_step p j = Some p' -> placed p'.
Proof.
  unfold worker_step. intros Hp Hs. destruct (threads_ p !! j) as [w|] eqn:Ew; [|done].
  pose proof (proj1 (list.Forall_lookup _ _) (proj2 Hp) _ _ Ew) as Hw. cbv beta in Hw.
  assert (Hm : forall q w', threads_ q = threads_ p -> stage q = stage p -> allowed (stage p) w' = true -> placed (set_worker q j w')).
  { intros q w' E1 E2 Ha. apply set_worker_placed; [|by rewrite E2]. unfold placed. by rewrite E1, E2. }
  destruct w; try discriminate Hs;
    repeat match type of Hs with
           | context [if mutex_free p then _ else _] => destruct (mutex_free p); [|done]
           | context [match high_queue_ p with _ => _ end] => destruct (high_queue_ p)
           | context [match low_queue_ p with _ => _ end] => destruct (low_queue_ p)
           end; injection Hs as <-; apply Hm; try done; unfold stopping in *; destruct (stage p); try done;
    repeat case_match; done.
Qed.

Lemma step_placed p a p' : placed p -> step p a = Some p' -> placed p'.
Proof.
  intros Hp Hs. destruct a as [k token tasks|i pick|j|j| | |]; cbn [step] in Hs.
  - destruct (match k with Batch => true | _ => _ end); simplify_eq. exact Hp.
  - by eapply producer_step_placed.
  - by eapply worker_step_placed.
  - destruct (threads_ p !! j) as [[]|] eqn:E; simplify_eq. apply set_worker_placed; [done|apply idle_allowed].
  - destruct (stage p) eqn:Es; try done. destruct (mutex_free p) eqn:Em; simplify_eq. destruct Hp as [H1 H2]. split; [done|].
    cbn. unfold mutex_free in Em. apply negb_true_iff in Em. apply list.Forall_forall. intros w Hin.
    destruct w; try done. exfalso. apply not_true_iff_false in Em. apply Em. apply existsb_exists. exists WSleepy.
    split; [by apply list_elem_of_In|done].
  - destruct (stage p) eqn:Es; simplify_eq. destruct Hp as [H1 H2]. split; cbn; [by destruct (threads_ p)|].
    apply List.Forall_map. rewrite Es in H2. eapply list.Forall_impl; [exact H2|]. by intros [].
  - destruct (stage p) eqn:Es; try done. destruct (forallb is_exited (threads_ p)); simplify_eq. unfold placed in *. by rewrite Es in Hp.
Qed.

(** ** Draining *)

(** A producer with no task between its test of [stopping] and the counter. *)
Definition settled (x : Producer) : bool :=
  match x with PPush _ _ _ _ | PQueued _ _ _ _ | PEnqueued _ _ _ _ => false | _ => true end.

Record quiet (p : ThreadPool) : Prop := {
  q_inv : pool_inv p;
  q_stop : stopping p = true;
  q_settled : Forall (fun x => settled x = true) (producers p);
  q_high : 0 < high_capacity_ p < 2 ^ 63;
  q_low : 0 < low_capacity_ p < 2 ^ 63;
  q_empty : Forall (fun w => w = WExited) (threads_ p) -> high_queue_ p = [] /\ low_queue_ p = []
}.

Lemma settled_total ps : Forall (fun x => settled x = true) ps -> total unqueued ps = 0 /\ total unenqueued ps = 0.
Proof.
  induction 1 as [|x ps Hx _ [IH1 IH2]]; [done|]. rewrite !total_cons, IH1, IH2. by destruct x.
Qed.

Lemma exited_total ws : Forall (fun w => w = WExited) ws ->
  total got ws = 0 /\ total active ws = 0 /\ total uncounted ws = 0 /\ concat (map held ws) = [].
Proof. induction 1 as [|w ws -> _ (IH1 & IH2 & IH3 & IH4)]; [done|]. by rewrite !total_cons. Qed.

(** A pool whose queues and counter of queued tasks agree has none when the counter is zero. *)
Lemma zero_queued_empty p :
  quiet p -> total got (threads_ p) = 0 -> queued p = 0 -> high_queue_ p = [] /\ low_queue_ p = [].
Proof.
  intros [Hp _ Hs Hh Hl _] Hg Hq. destruct Hp as [_ Eq _ _ _ Ch Cl]. rewrite Hq, Hg, (proj1 (settled_total _ Hs)) in Eq.
  pose proof (len_nonneg (high_queue_ p)). pose proof (len_nonneg (low_queue_ p)).
  rewrite u64_id in Eq by (unfold is_u64; lia). unfold len in *.
  split; apply nil_length_inv; lia.
Qed.

Lemma insert_exited (ws : list Worker) j w :
  ws !! j = Some w -> Forall (fun x => x = WExited) (<[j := WExited]> ws) -> got w = 0 -> total got ws = 0.
Proof.
  intros Hw Ha Hg. destruct (lookup_split _ _ _ Hw) as (l1 & l2 & E & Ei). rewrite Ei in Ha. rewrite E.
  apply List.Forall_app in Ha as [H1 H2]. apply list.Forall_cons in H2 as [_ H2].
  rewrite total_app, total_cons, Hg, (proj1 (exited_total _ H1)), (proj1 (exited_total _ H2)). done.
Qed.

Lemma insert_busy (ws : list Worker) j w w' :
  ws !! j = Some w -> Forall (fun x => x = WExited) (<[j := w']> ws) -> w' = WExited.
Proof.
  intros Hw Ha. apply (proj1 (list.Forall_lookup _ _) Ha j). apply list.list_lookup_insert_eq. by eapply list.lookup_lt_Some.
Qed.

Lemma quiet_worker p j p' : quiet p -> worker_step p j = Some p' -> quiet p'.
Proof.
  intros Hq Hs. pose proof (worker_step_inv _ _ _ (q_inv _ Hq) Hs) as Hi. pose proof Hq as [_ Hst Hse Hh Hl He].
  unfold worker_step in Hs. destruct (threads_ p !! j) as [w|] eqn:Ew; [|done].
  destruct w; try discriminate Hs;
    repeat match type of Hs with
           | context [if mutex_free p then _ else _] => destruct (mutex_free p); [|done]
           | context [match high_queue_ p with _ => _ end] => destruct (high_queue_ p) eqn:?
           | context [match low_queue_ p with _ => _ end] => destruct (low_queue_ p) eqn:?
           end; injection Hs as <-; constructor; try done; cbn [threads_ set_worker set_threads]; intros Ha;
    pose proof (insert_busy _ _ _ _ Ew Ha) as Hb; try discriminate Hb.
  - rewrite Hst in Hb. discriminate Hb.
  - destruct (stopping p && (queued p =? 0)) eqn:Ez; [|done].
    apply andb_true_iff in Ez as [_ Ez%Z.eqb_eq]. apply (zero_queued_empty p); [done| |done].
    by apply (insert_exited _ j WTest).
Qed.

(** Waking workers makes none of them return. *)
Lemma wake_exited ws :
  Forall (fun w => w = WExited) (map (fun w : Worker => match w with WWaiting => WIdle | _ => w end) ws) ->
  Forall (fun w => w = WExited) ws.
Proof. intros H. apply List.Forall_map in H. eapply list.Forall_impl; [exact H|]. by intros []. Qed.

Lemma notify_quiet p q pick :
  quiet p -> (q = notify_all p \/ notify_one p pick = Some q) -> quiet q.
Proof.
  intros Hq H. pose proof Hq as [Hi Hst Hse Hh Hl He]. destruct H as [->|Hn].
  - constructor; try done; [by apply notify_all_inv|]. cbn. intros Ha. by apply He, wake_exited.
  - pose proof (notify_one_inv _ _ _ Hi Hn) as Hi'. unfold notify_one in Hn.
    destruct (threads_ p !! pick) as [[]|] eqn:E; try (destruct (existsb _ _); by simplify_eq).
    simplify_eq. constructor; try done. cbn. intros Ha. by pose proof (insert_busy _ _ _ _ E Ha).
Qed.

Lemma set_producer_quiet p i x y :
  quiet p -> producers p !! i = Some x -> settled y = true -> quiet (set_producer p i y).
Proof.
  intros Hq Hx Hy. pose proof Hq as [Hi Hst Hse Hh Hl He].
  pose proof (proj1 (list.Forall_lookup _ _) Hse _ _ Hx) as Hs. cbv beta in Hs.
  constructor; try done; cbn; [|by apply list.Forall_insert].
  eapply set_producer_inv; [done..| |]; by destruct x, y.
Qed.

Lemma quiet_producer p i pick p' : quiet p -> producer_step p i pick = Some p' -> quiet p'.
Proof.
  intros Hq Hs. unfold producer_step in Hs. destruct (producers p !! i) as [x|] eqn:Ex; [|done].
  pose proof (proj1 (list.Forall_lookup _ _) (q_settled _ Hq) _ _ Ex) as Hx. cbv beta in Hx.
  destruct x as [k token tasks| | | |k acc|]; try done.
  - simplify_eq. eapply set_producer_quiet; [done..|]. rewrite (q_stop _ Hq). by destruct (negb _).
  - assert (H' : quiet (set_producer p i (PDone (answer_of k acc)))) by (by eapply set_producer_quiet).
    destruct (acc =? 0); [by simplify_eq|].
    destruct (acc =? 1); [eapply notify_quiet; eauto|]. simplify_eq. eapply (notify_quiet _ _ 0); eauto.
Qed.

Lemma quiet_step p a p' : quiet p -> step p a = Some p' -> quiet p'.
Proof.
  intros Hq Hs. pose proof (step_inv _ _ _ (q_inv _ Hq) Hs) as Hi. pose proof Hq as [_ Hst Hse Hh Hl He].
  destruct a as [k token tasks|i pick|j|j| | |]; cbn [step] in Hs.
  - destruct (match k with Batch => true | _ => _ end); simplify_eq. constructor; try done. cbn.
    apply List.Forall_app. split; [done|]. by constructor.
  - by eapply quiet_producer.
  - by eapply quiet_worker.
  - destruct (threads_ p !! j) as [[]|] eqn:E; simplify_eq. constructor; try done. cbn. intros Ha.
    by pose proof (insert_busy _ _ _ _ E Ha).
  - unfold stopping in Hst. destruct (stage p); done.
  - destruct (stage p); simplify_eq. constructor; try done. cbn. intros Ha. by apply He, wake_exited.
  - destruct (stage p), (forallb is_exited (threads_ p)); simplify_eq. constructor; done.
Qed.

(** ** Properties *)

(** Under every interleaving of producers, workers and a shutdown, no task is
    lost, duplicated or invented inside the pool: the accepted tasks are exactly
    those that ran, those in the two queues and those in the hands of a worker.
    The queues stay within their capacity, and each counter is the number it
    stands for, up to the threads that have not updated it yet. *)
Theorem pool_conserves_tasks (hc : Z) (config : PoolConfig) (schedule : list Action) (p : ThreadPool)
    (Hr : run (new_pool hc config) schedule = Some p) :
  accepted p ≡ₚ ran p ++ high_queue_ p ++ low_queue_ p ++ concat (map held (threads_ p)) /\
  (NoDup (accepted p) -> NoDup (ran p)) /\
  (0 < high_capacity_ p -> len (high_queue_ p) <= high_capacity_ p) /\
  (0 < low_capacity_ p -> len (low_queue_ p) <= low_capacity_ p) /\
  queued p = u64 (len (high_queue_ p) + len (low_queue_ p) + total got (threads_ p) - total unqueued (producers p)) /\
  running p = u64 (total active (threads_ p)) /\
  enqueued p = u64 (len (accepted p) - total unenqueued (producers p)) /\
  executed p = u64 (len (ran p) - total uncounted (threads_ p)).
Proof.
  destruct (run_invariant pool_inv step_inv schedule _ _ (new_pool_inv hc config) Hr) as [Ht Hq Hrn He Hx Hh Hl].
  split_and!; try done. intros Hn. rewrite Ht in Hn. by apply list.NoDup_app in Hn as [? _].
Qed.

Lemma new_pool_placed hc config :
  0 <= worker_count config -> 0 <= hc -> placed (new_pool hc config).
Proof.
  intros H1 H2. split; cbn.
  - assert (0 < resolve_worker_count hc (worker_count config)).
    { unfold resolve_worker_count. destruct (Z.eqb_spec (worker_count config) 0); cbn; [|lia]. destruct (Z.eqb_spec hc 0); lia. }
    destruct (Z.to_nat _) eqn:E; [lia|done].
  - apply list.Forall_replicate. done.
Qed.

Lemma run_capacity schedule p p' :
  run p schedule = Some p' -> high_capacity_ p' = high_capacity_ p /\ low_capacity_ p' = low_capacity_ p.
Proof.
  intros Hr. apply (run_invariant (fun q => high_capacity_ q = high_capacity_ p /\ low_capacity_ q = low_capacity_ p))
    with (schedule := schedule) (p := p); [|done|done].
  clear. intros q a q' [H1 H2] Hs. rewrite <- H1, <- H2. clear H1 H2.
  destruct a as [k token tasks|i pick|j|j| | |]; cbn [step] in Hs;
    unfold producer_step, worker_step, push, notify_one in Hs; repeat (case_match; try done); simplify_eq; done.
Qed.

(** C13: When no producer is inside a call at the moment [shutdown] stores
    [stopping], a pool with a bounded queue of at least one place loses nothing: whatever happens next, once every worker
    has returned the queues are empty, every accepted task has run, and the
    counters say so.  Once all were notified, no worker sleeps. *)
Theorem shutdown_drains (hc : Z) (config : PoolConfig) (before after : list Action) (p0 p1 p : ThreadPool)
    (Hc : 0 <= worker_count config /\ 0 <= hc /\ 0 < queue_capacity config < 2 ^ 63)
    (H0 : run (new_pool hc config) before = Some p0)
    (Hs : Forall (fun x => settled x = true) (producers p0))
    (H1 : step p0 Stop = Some p1) (H2 : run p1 after = Some p) :
  (match stage p with Notified | Joined => Forall (fun w => is_waiting w = false) (threads_ p) | _ => True end) /\
  (Forall (fun w => w = WExited) (threads_ p) ->
   high_queue_ p = [] /\ low_queue_ p = [] /\ accepted p ≡ₚ ran p /\
   queued p = 0 /\ running p = 0 /\ executed p = enqueued p).
Proof.
  destruct Hc as (Hc1 & Hc2 & Hc3).
  pose proof (run_invariant placed step_placed _ _ _ (new_pool_placed hc config Hc1 Hc2) H0) as Hp0.
  pose proof (run_invariant pool_inv step_inv _ _ _ (new_pool_inv hc config) H0) as Hi0.
  pose proof (step_placed _ _ _ Hp0 H1) as Hp1. pose proof (step_inv _ _ _ Hi0 H1) as Hi1.
  destruct (run_capacity _ _ _ H0) as [C1 C2]. cbn in C1, C2.
  assert (Hq1 : quiet p1).
  { cbn [step] in H1. destruct (stage p0) eqn:Es; try done. destruct (mutex_free p0); simplify_eq.
    constructor; try done; cbn; rewrite ?C1, ?C2; try lia. intros Ha. exfalso. destruct Hp0 as [Hn Hf].
    destruct (threads_ p0) as [|w ws]; [done|]. apply list.Forall_cons in Ha as [-> _], Hf as [Hf _]. by rewrite Es in Hf. }
  pose proof (run_invariant quiet quiet_step _ _ _ Hq1 H2) as [Hi _ Hse _ _ He].
  pose proof (run_invariant placed step_placed _ _ _ Hp1 H2) as [_ Hf].
  split.
  - destruct (stage p); try done; (eapply list.Forall_impl; [exact Hf|]); by intros [].
  - intros Ha. destruct (He Ha) as [E1 E2]. destruct (exited_total _ Ha) as (G1 & G2 & G3 & G4).
    destruct (settled_total _ Hse) as [S1 S2]. destruct Hi as [Ht Hq Hrn Hen Hx _ _].
    rewrite E1, E2, ?G1, ?G2, ?G3, ?G4, ?S1, ?S2 in *. rewrite app_nil_r in Ht. cbn [app] in Ht.
    split_and!; try done. rewrite Hx, Hen. unfold len. by rewrite Ht.
Qed.

End Pool.

(** *** Schedules *)

Definition one_worker : PoolConfig := mkConfig 1 4.

(** A worker that sleeps, is notified of one task, runs it, and a shutdown. *)
Definition sleep_first : list (@Action nat) := [Work 0; Work 0].
Definition put (t : nat) (i : nat) : list (@Action nat) :=
  [Arrive Enqueue (grant High) [t]; Produce i 0; Produce i 0; Produce i 0; Produce i 0; Produce i 0; Produce i 0].
Definition turn : list (@Action nat) := replicate 8 (Work 0).

Lemma pool_conserves_tasks_witness :
  exists p, run (new_pool 0 one_worker) (sleep_first ++ put 7 0 ++ put 8 1 ++ replicate 4 (Work 0)) = Some p /\
  accepted p ≡ₚ ran p ++ high_queue_ p ++ low_queue_ p ++ concat (map held (threads_ p)).
Proof.
  eexists. split; [vm_compute; reflexivity|].
  refine (proj1 (pool_conserves_tasks 0 one_worker (sleep_first ++ put 7 0 ++ put 8 1 ++ replicate 4 (Work 0)) _ _)).
  vm_compute. reflexivity.
Defined.

Definition until_stop : list (@Action nat) := sleep_first ++ put 7 0 ++ put 8 1.
Definition drain : list (@Action nat) := [WakeAll] ++ turn ++ turn ++ [Work 0; Work 0] ++ [Join].

Lemma shutdown_drains_witness :
  exists p0 p1 p, run (new_pool 0 one_worker) until_stop = Some p0 /\ step p0 Stop = Some p1 /\ run p1 drain = Some p /\
  Forall (fun w => w = WExited) (threads_ p) /\ accepted p ≡ₚ ran p /\ ran p = [7%nat; 8%nat].
Proof.
  eexists _, _, _. split; [vm_compute; reflexivity|]. split; [vm_compute; reflexivity|]. split; [vm_compute; reflexivity|].
  match goal with |- ?A /\ _ => assert (Hx : A) by (repeat constructor) end. split; [exact Hx|].
  split; [|reflexivity].
  refine (proj1 (proj2 (proj2 (proj2 (shutdown_drains 0 one_worker until_stop drain _ _ _ _ _ _ _ _) Hx)))); cycle 1.
  - vm_compute; reflexivity.
  - repeat constructor.
  - vm_compute; reflexivity.
  - vm_compute; reflexivity.
  - cbn. lia.
Defined.

(** A wake-up is lost: the worker has found the predicate false and is about to
    sleep, still holding [state_mutex_]; the producer, which takes no lock to add
    to [queued] and to notify, does both before it sleeps.  The task stays in the
    queue of a pool whose only worker sleeps, with no producer left to wake it. *)
Lemma wakeup_lost :
  exists p, run (new_pool 0 one_worker) ([Work 0] ++ put 7 0 ++ [Work 0]) = Some p /\
  high_queue_ p = [7%nat] /\ queued p = 1 /\ threads_ p = [WWaiting] /\
  producers p = [PDone (Accepted true)].
Proof. eexists. split; [vm_compute; reflexivity|]. by split_and!. Qed.

(** A producer that tested [stopping] before the shutdown puts its task in the
    queue after the last worker has returned: the task is accepted and never
    runs, and the pool is joined. *)
Lemma accepted_task_abandoned :
  exists p, run (new_pool 0 one_worker)
    ([Arrive Enqueue (grant High) [7%nat]; Produce 0 0; Stop; WakeAll; Work 0; Work 0; Join] ++ replicate 5 (Produce 0 0)) = Some p /\
  stage p = Joined /\ high_queue_ p = [7%nat] /\ ran p = [] /\ producers p = [PDone (Accepted true)].
Proof. eexists. split; [vm_compute; reflexivity|]. by split_and!. Qed.

(** A worker may subtract a task from [queued] before its producer adds it: the
    unsigned counter wraps, and the pool reports 2^64 - 1 queued tasks. *)
Lemma queued_wraps :
  exists p, run (new_pool 0 (mkConfig 2 4)) (put 1 0 ++ [Work 0; Work 0; Work 1; Work 1] ++
    [Arrive Enqueue (grant High) [7%nat]; Produce 1 0; Produce 1 0] ++ [Work 0; Work 1; Work 0; Work 1]) = Some p /\
  queued p = 2 ^ 64 - 1.
Proof. eexists. split; [vm_compute; reflexivity|]. done. Qed.
