(* ===== verification/Ledger.v ===== *)
(** * The ledger client and the ledger worker

    [src/src/ledger/ledger_client.cpp], which calls the chaincode of the Fabric
    network, and [ledger_worker.cpp], which anchors signature records through it
    in the background.

    The Fabric gateway is not in the repository: the class [Contract] is the two
    calls the client makes of it.  The worker is a machine whose steps are those of
    the threads that submit records and of the pool tasks that anchor them; a
    schedule is a list of actions.  What the pool answers to an enqueue
    ([ThreadPool.Answer]) and what the ledger answers to a submission are part of
    the action.  The counters are [long]s that count records; they are unbounded
    here. *)

From S2P Require Import Prelude Codec Types Notification SecureBuffer Objects ObjectStore Token Session Pkcs11 AuditLog KeyPolicy SignatureStore ThreadPool.
Local Open Scope Z_scope.

(** ** The client *)

Module Client.

Record TransactionResult : Type := mkResult {
  committed : bool;
  responseStatus : Z;
  payload : list byte;
  txId : list byte;
  blockNumber : Z
}.

Class Contract : Type := {
  submitTransaction : list byte -> list (list byte) -> res TransactionResult;
  evaluateTransaction : list byte -> list (list byte) -> res TransactionResult
}.

(** [get<bool>], which [NlohmannJson] does not have. *)
Class JsonBool (J : NlohmannJson) : Type := get_bool : json -> res bool.

(** [exception::what]. *)
Definition what (e : exn) : list byte :=
  match e with RuntimeError m | InvalidArgument m | OutOfRange m | OtherException m => bytes_of m end.

(** [static_cast<int64_t>] of a [uint64_t]. *)
Definition as_int64 (z : Z) : Z := if z <? 2 ^ 63 then z else z - 2 ^ 64.

Definition type_error : exn := OtherException "type_error".

Definition record_args (r : SignatureRecord) : list (list byte) :=
  [record_id r; key_fingerprint r; r_payload_digest r; signature_b64 r; int_to_string (created_at r);
   pqc_algo r; default [] (signature_pqc_b64 r); default [] (key_fingerprint_pqc r)].

Definition entry_of (r : SignatureRecord) (t : TransactionResult) : LedgerEntry :=
  mkEntry (record_id r) (key_fingerprint r) (r_payload_digest r) (signature_b64 r) (created_at r)
    (txId t) (as_int64 (blockNumber t)).

Section Client.
Context `{C : Contract}.

Definition submit_record (r : SignatureRecord) : option LedgerEntry :=
  match submitTransaction (bytes_of "RecordSignature") (record_args r) with
  | Throw _ => None
  | Ok result => if negb (committed result) || negb (responseStatus result =? 200) then None else Some (entry_of r result)
  end.

Context {J : NlohmannJson} {JB : JsonBool J}.

(** [json_result[k].get<std::string>()] and [get<int64_t>()]: an absent member
    reads as null, and a document that is no object throws. *)
Definition member_string (j : json) (k : string) : res (list byte) :=
  if negb (is_object j) then Throw type_error
  else match find_member j (bytes_of k) with
       | Some v => if is_string v then Ok (KeyPolicy.get_string v) else Throw type_error
       | None => Throw type_error
       end.

Definition member_int64 (j : json) (k : string) : res Z :=
  if negb (is_object j) then Throw type_error
  else match find_member j (bytes_of k) with
       | Some v => get_int64 v
       | None => Throw type_error
       end.

Definition parse_entry (j : json) : res LedgerEntry :=
  rbind (member_string j "record_id") (fun i =>
  rbind (member_string j "key_fingerprint") (fun f =>
  rbind (member_string j "payload_digest") (fun d =>
  rbind (member_string j "signature_b64") (fun s =>
  rbind (member_int64 j "created_at") (fun c =>
  rbind (member_string j "tx_id") (fun t =>
  rbind (member_int64 j "block_number") (fun b => Ok (mkEntry i f d s c t b)))))))).

(** The reads of the members are outside the [try]: they may throw. *)
Definition get_record (id : list byte) : res (option LedgerEntry) :=
  match evaluateTransaction (bytes_of "GetRecord") [id] with
  | Throw _ => Ok None
  | Ok result =>
    if negb (responseStatus result =? 200) then Ok None
    else match parse (payload result) with
         | Throw _ => Ok None
         | Ok j => rbind (parse_entry j) (fun e => Ok (Some e))
         end
  end.

(** [j.value(k, default)]. *)
Definition value_bool (j : json) (k : string) (d : bool) : res bool :=
  if negb (is_object j) then Throw type_error
  else match find_member j (bytes_of k) with Some v => get_bool v | None => Ok d end.

Definition value_string (j : json) (k : string) (d : list byte) : res (list byte) :=
  if negb (is_object j) then Throw type_error
  else match find_member j (bytes_of k) with
       | Some v => if is_string v then Ok (KeyPolicy.get_string v) else Throw type_error
       | None => Ok d
       end.

Definition parse_failed (e : exn) : list byte := bytes_of "failed to parse VerifyPolicy response: " ++ what e.

(** The assignments of the last [try]: [result.ok] keeps its value when the
    reading of the reason throws. *)
Definition read_verdict (text : list byte) : PolicyEvaluation :=
  match parse text with
  | Throw e => mkEval false (parse_failed e)
  | Ok j =>
    match value_bool j "ok" false with
    | Throw e => mkEval false (parse_failed e)
    | Ok ok =>
      match value_string j "reason" (bytes_of (if ok then "ok" else "denied")) with
      | Throw e => mkEval ok (parse_failed e)
      | Ok r => mkEval ok r
      end
    end
  end.

(** [connected]: the client has a contract. *)
Definition verify_policy (connected : bool) (key_id actor mechanism : list byte) (now_ms : Z) : PolicyEvaluation :=
  if negb connected then mkEval false (bytes_of "ledger policy check unavailable")
  else
    match evaluateTransaction (bytes_of "VerifyPolicy") [key_id; actor; mechanism; int_to_string now_ms] with
    | Throw e => mkEval false (bytes_of "ledger policy evaluation failed: " ++ what e)
    | Ok tx =>
      if negb (responseStatus tx =? 200)
      then mkEval false (bytes_of "ledger returned status " ++ int_to_string (responseStatus tx))
      else read_verdict (payload tx)
    end.

Definition publish_audit_tail (connected : bool) (tail_hash : list byte) (seq : Z) (timestamp : list byte) : bool :=
  if negb connected then false
  else match submitTransaction (bytes_of "RecordAuditTail") [tail_hash; int_to_string seq; timestamp] with
       | Throw _ => false
       | Ok tx => committed tx && (responseStatus tx =? 200)
       end.

Definition get_latest_audit_tail_hash (connected : bool) : option (list byte) :=
  if negb connected then None
  else match evaluateTransaction (bytes_of "GetLatestAuditTail") [] with
       | Throw _ => None
       | Ok tx =>
         if negb (responseStatus tx =? 200) || bool_decide (payload tx = []) then None
         else match rbind (parse (payload tx)) (fun j => value_string j "tail_hash" []) with
              | Throw _ => None
              | Ok h => if bool_decide (h = []) then None else Some h
              end
       end.

(** The ledger answered, and its answer says yes. *)
Definition ledger_says_ok (key_id actor mechanism : list byte) (now_ms : Z) : Prop :=
  exists tx j v,
    evaluateTransaction (bytes_of "VerifyPolicy") [key_id; actor; mechanism; int_to_string now_ms] = Ok tx /\
    responseStatus tx = 200 /\ parse (payload tx) = Ok j /\ is_object j = true /\
    find_member j (bytes_of "ok") = Some v /\ get_bool v = Ok true.

(** The ledger check of a policy fails closed: it permits exactly when the
    client is connected, the transaction was evaluated with status 200 and its
    answer is a JSON object whose member [ok] is true. *)
Theorem ledger_policy_fails_closed (connected : bool) (key_id actor mechanism : list byte) (now_ms : Z) :
  ok (verify_policy connected key_id actor mechanism now_ms) = true <->
  connected = true /\ ledger_says_ok key_id actor mechanism now_ms.
Proof.
  unfold verify_policy, ledger_says_ok, read_verdict, value_bool. destruct connected; cbn [negb]; [|split; [done|intros [? _]; done]].
  split.
  - intros H. split; [done|]. destruct (evaluateTransaction _ _) as [tx|] eqn:Et; [|done].
    destruct (Z.eqb_spec (responseStatus tx) 200) as [Es|]; [|done]. cbn [negb] in H.
    destruct (parse (payload tx)) as [j|] eqn:Ej; [|done]. destruct (is_object j) eqn:Eo; [|done]. cbn [negb] in H.
    destruct (find_member j (bytes_of "ok")) as [v|] eqn:Ef; [|by destruct (value_string _ _ _)].
    destruct (get_bool v) as [b|] eqn:Eb; [|done]. exists tx, j, v. split_and!; try done.
    destruct (value_string _ _ _); cbn in H; by subst b.
  - intros (_ & tx & j & v & -> & -> & -> & -> & -> & ->). rewrite Z.eqb_refl. cbn [negb]. by destruct (value_string j _ _).
Qed.

End Client.

(** *** A small ledger *)

(** It answers every query with the document [doc]. *)
#[local] Instance answering (doc : toy_json) : Contract := {|
  submitTransaction _ _ := Ok (mkResult true 200 [] (bytes_of "tx-1") 7);
  evaluateTransaction _ _ := Ok (mkResult true 200 (bits (encode doc)) [] 0) |}.

#[local] Instance toy_bool : JsonBool toy_lib :=
  fun j => match j with GenLeaf (inl 1) => Ok true | GenLeaf (inl 0) => Ok false | _ => Throw type_error end.

Definition verdict (reason : toy_json) : toy_json :=
  @of_members toy_lib [(bytes_of "ok", @of_int toy_lib 1); (bytes_of "reason", reason)].

(** A permission whose reason is not a string is an error the client reports
    with [ok] left true. *)
Lemma malformed_reason_permits :
  let v := @verify_policy (answering (verdict (@of_int toy_lib 3))) toy_lib toy_bool true [] [] [] 0 in
  ok v = true /\ reason v = bytes_of "failed to parse VerifyPolicy response: type_error".
Proof. vm_compute. by split. Qed.

(** An answer without the members of a record is an exception, not [nullopt]. *)
Lemma incomplete_record_throws :
  @get_record (answering (verdict (@of_int toy_lib 3))) toy_lib (bytes_of "id-1") = Throw type_error.
Proof. vm_compute. done. Qed.

End Client.

(** ** The worker *)

Module Worker.

Record RetryPolicy : Type := mkRetry { max_retries : Z; base_delay_ms : Z; max_delay_ms : Z; delay_multiplier : Z }.

Definition default_retry : RetryPolicy := mkRetry 5 1000 60000 2.

(** The delays before the cap, in the order they are computed. *)
Fixpoint products (p : RetryPolicy) (n : nat) (delay : Z) : list Z :=
  match n with
  | O => []
  | S n => let delay := delay * delay_multiplier p in delay :: products p n delay
  end.

(** The delay before retry [retry_count]: [retry_count - 1] multiplications, then
    the cap. *)
Definition delay_before (p : RetryPolicy) (retry_count : Z) : Z :=
  let delay := List.last (products p (Z.to_nat (retry_count - 1)) (base_delay_ms p)) (base_delay_ms p) in
  if max_delay_ms p <? delay then max_delay_ms p else delay.

(** A thread inside [submit_record]: at the test of [running_]; at the insertion
    in [in_flight_]; at the enqueue; at the count of an accepted record; at the
    report of a refused one; returned. *)
Inductive Submitter : Type :=
| SubCall (r : SignatureRecord)
| SubInsert (r : SignatureRecord)
| SubEnqueue (r : SignatureRecord)
| SubCount (r : SignatureRecord)
| SubFail (r : SignatureRecord)
| SubDone.

(** A task of the pool that runs [process_record], waiting for a worker or at its
    next submission, with its [retry_count]; at the removal from [in_flight_];
    returned. *)
Inductive Task : Type :=
| TAttempt (r : SignatureRecord) (retry_count : Z)
| TErase (r : SignatureRecord)
| TDone.

(** What [publish_committed] and [publish_failed] put on the bus. *)
Inductive Event : Type :=
| LEDGER_COMMITTED (id tx_id : list byte) (block : Z)
| LEDGER_COMMIT_FAILED (id : list byte).

Record LedgerWorker : Type := mkWorker {
  running_ : bool;
  pool_ : bool;
  in_flight_ : list (list byte);
  submitters : list Submitter;
  tasks : list Task;
  committed_count_ : Z;
  failed_count_ : Z;
  pending_count_ : Z;
  events : list Event;
  marked : list (list byte);
  commits : list (SignatureRecord * LedgerEntry);
  slept : list Z;
  submissions : list (list byte);
  freed_pool_used : bool
}.

Definition new_worker : LedgerWorker := mkWorker false false [] [] [] 0 0 0 [] [] [] [] [] false.

Definition set_submitters (w : LedgerWorker) (l : list Submitter) : LedgerWorker :=
  mkWorker (running_ w) (pool_ w) (in_flight_ w) l (tasks w) (committed_count_ w) (failed_count_ w) (pending_count_ w)
    (events w) (marked w) (commits w) (slept w) (submissions w) (freed_pool_used w).
Definition set_tasks (w : LedgerWorker) (l : list Task) : LedgerWorker :=
  mkWorker (running_ w) (pool_ w) (in_flight_ w) (submitters w) l (committed_count_ w) (failed_count_ w) (pending_count_ w)
    (events w) (marked w) (commits w) (slept w) (submissions w) (freed_pool_used w).
Definition set_in_flight (w : LedgerWorker) (l : list (list byte)) : LedgerWorker :=
  mkWorker (running_ w) (pool_ w) l (submitters w) (tasks w) (committed_count_ w) (failed_count_ w) (pending_count_ w)
    (events w) (marked w) (commits w) (slept w) (submissions w) (freed_pool_used w).
Definition set_switch (w : LedgerWorker) (r p : bool) : LedgerWorker :=
  mkWorker r p (in_flight_ w) (submitters w) (tasks w) (committed_count_ w) (failed_count_ w) (pending_count_ w)
    (events w) (marked w) (commits w) (slept w) (submissions w) (freed_pool_used w).
Definition set_counts (w : LedgerWorker) (c f p : Z) (e : list Event) : LedgerWorker :=
  mkWorker (running_ w) (pool_ w) (in_flight_ w) (submitters w) (tasks w) c f p
    e (marked w) (commits w) (slept w) (submissions w) (freed_pool_used w).
Definition set_marked (w : LedgerWorker) (l : list (list byte)) : LedgerWorker :=
  mkWorker (running_ w) (pool_ w) (in_flight_ w) (submitters w) (tasks w) (committed_count_ w) (failed_count_ w) (pending_count_ w)
    (events w) l (commits w) (slept w) (submissions w) (freed_pool_used w).
Definition set_logs (w : LedgerWorker) (c : list (SignatureRecord * LedgerEntry)) (s : list Z) (n : list (list byte)) : LedgerWorker :=
  mkWorker (running_ w) (pool_ w) (in_flight_ w) (submitters w) (tasks w) (committed_count_ w) (failed_count_ w) (pending_count_ w)
    (events w) (marked w) c s n (freed_pool_used w).
Definition set_freed (w : LedgerWorker) : LedgerWorker :=
  mkWorker (running_ w) (pool_ w) (in_flight_ w) (submitters w) (tasks w) (committed_count_ w) (failed_count_ w) (pending_count_ w)
    (events w) (marked w) (commits w) (slept w) (submissions w) true.

Definition publish_failed (w : LedgerWorker) (dpending : Z) (r : SignatureRecord) : LedgerWorker :=
  set_counts w (committed_count_ w) (failed_count_ w + 1) (pending_count_ w + dpending)
    (events w ++ [LEDGER_COMMIT_FAILED (record_id r)]).

Definition publish_committed (w : LedgerWorker) (r : SignatureRecord) (e : LedgerEntry) : LedgerWorker :=
  set_counts w (committed_count_ w + 1) (failed_count_ w) (pending_count_ w - 1)
    (events w ++ [LEDGER_COMMITTED (record_id r) (e_tx_id e) (e_block_number e)]).

(** One step of [submit_record]; [answer] is that of the pool.  The processing
    callback runs before the enqueue, its failures ignored. *)
Definition submit_step (w : LedgerWorker) (i : nat) (answer : Answer) : option LedgerWorker :=
  match submitters w !! i with
  | None => None
  | Some s =>
    let move (w : LedgerWorker) x := set_submitters w (<[i := x]> (submitters w)) in
    match s with
    | SubCall r => Some (move w (if running_ w && pool_ w then SubInsert r else SubDone))
    | SubInsert r =>
      if bool_decide (record_id r ∈ in_flight_ w) then Some (move w SubDone)
      else Some (move (set_marked (set_in_flight w (record_id r :: in_flight_ w)) (marked w ++ [record_id r])) (SubEnqueue r))
    | SubEnqueue r =>
      if negb (pool_ w) then Some (move (set_freed w) SubDone)
      else match answer with
           | Accepted true => Some (move (set_tasks w (tasks w ++ [TAttempt r 0])) (SubCount r))
           | Accepted false | Raised _ => Some (move w (SubFail r))
           | _ => None
           end
    | SubCount r => Some (move (set_counts w (committed_count_ w) (failed_count_ w) (pending_count_ w + 1) (events w)) SubDone)
    | SubFail r => Some (move (publish_failed w 0 r) SubDone)
    | SubDone => None
    end
  end.

Section Process.
Context (policy : RetryPolicy).

(** One turn of the loop of [process_record]; [answer] is that of the client. *)
Definition task_step (w : LedgerWorker) (k : nat) (answer : option LedgerEntry) : option LedgerWorker :=
  match tasks w !! k with
  | None => None
  | Some t =>
    let move (w : LedgerWorker) x := set_tasks w (<[k := x]> (tasks w)) in
    match t with
    | TAttempt r n =>
      let w := set_logs w (commits w) (slept w) (submissions w ++ [record_id r]) in
      match answer with
      | Some entry =>
        let w := publish_committed w r entry in
        Some (move (set_logs w (commits w ++ [(r, entry)]) (slept w) (submissions w)) (TErase r))
      | None =>
        if negb (running_ w) || (max_retries policy <=? n) then Some (move (publish_failed w (-1) r) (TErase r))
        else
          let delay := delay_before policy (n + 1) in
          Some (move (set_logs w (commits w) (if 0 <? delay then slept w ++ [delay] else slept w) (submissions w))
                  (TAttempt r (n + 1)))
      end
    | TErase r => Some (move (set_in_flight w (List.filter (fun i => negb (bool_decide (i = record_id r))) (in_flight_ w))) TDone)
    | TDone => None
    end
  end.

Inductive Action : Type :=
| Start
| Submit (r : SignatureRecord)
| Submitting (i : nat) (answer : Answer)
| Processing (k : nat) (answer : option LedgerEntry)
| Draining
| Drained.

(** A task the shutdown of the pool does not wait for: it has returned, or it may
    never have been taken. *)
Definition not_waited (t : Task) : bool := match t with TDone | TAttempt _ 0 => true | _ => false end.

(** [drain_and_stop] is [Draining], the shutdown of the pool, which returns when
    the tasks its workers took have, and [Drained]. *)
Definition step (w : LedgerWorker) (a : Action) : option LedgerWorker :=
  match a with
  | Start => if running_ w then None else Some (set_switch w true true)
  | Submit r => Some (set_submitters w (submitters w ++ [SubCall r]))
  | Submitting i answer => submit_step w i answer
  | Processing k answer => task_step w k answer
  | Draining => if running_ w then Some (set_switch w false (pool_ w)) else None
  | Drained => if negb (running_ w) && pool_ w && forallb not_waited (tasks w) then Some (set_switch w false false) else None
  end.

Fixpoint run (w : LedgerWorker) (schedule : list Action) : option LedgerWorker :=
  match schedule with
  | [] => Some w
  | a :: schedule => match step w a with Some w => run w schedule | None => None end
  end.

(** *** The invariant *)

Definition sub_ids (s : Submitter) : list (list byte) := match s with SubEnqueue r => [record_id r] | _ => [] end.
Definition task_ids (t : Task) : list (list byte) := match t with TAttempt r _ | TErase r => [record_id r] | TDone => [] end.

(** The records that a thread holds between its insertion and its removal. *)
Definition live (w : LedgerWorker) : list (list byte) :=
  concat (map sub_ids (submitters w)) ++ concat (map task_ids (tasks w)).

Definition attempting (t : Task) : Z := match t with TAttempt _ _ => 1 | _ => 0 end.
Definition uncounted (s : Submitter) : Z := match s with SubCount _ => 1 | _ => 0 end.

(** The submissions a task may still make. *)
Definition remaining (t : Task) : Z := match t with TAttempt _ n => max_retries policy + 1 - n | _ => 0 end.

Definition in_budget (t : Task) : Prop := match t with TAttempt _ n => 0 <= n <= max_retries policy | _ => True end.

Record guarded (w : LedgerWorker) : Prop := {
  g_live : NoDup (live w);
  g_flight : Forall (fun i => i ∈ in_flight_ w) (live w)
}.

Record counted (w : LedgerWorker) : Prop := {
  c_pending : pending_count_ w = total attempting (tasks w) - total uncounted (submitters w);
  c_events : len (events w) = committed_count_ w + failed_count_ w;
  c_commits : committed_count_ w = len (commits w);
  c_retries : Forall in_budget (tasks w);
  c_budget : len (submissions w) + total remaining (tasks w) <= (max_retries policy + 1) * len (tasks w)
}.

(** A step keeps the guard when it leaves out some of the records held and keeps
    the in-flight set, up to the one it leaves out. *)
Lemma guarded_shrink w w' l :
  guarded w -> live w ≡ₚ l ++ live w' ->
  (forall i, i ∈ live w' -> i ∉ l -> i ∈ in_flight_ w -> i ∈ in_flight_ w') -> guarded w'.
Proof.
  intros [H1 H2] Hp Hf. rewrite Hp in H1, H2. apply list.NoDup_app in H1 as (_ & Hd & H1). apply List.Forall_app in H2 as [_ H2].
  constructor; [done|]. rewrite list.Forall_forall in H2 |- *. intros i Hi. apply Hf; [done| |by apply H2].
  intros Hl. by apply (Hd i).
Qed.

Lemma guarded_add w w' i :
  guarded w -> i ∉ in_flight_ w -> live w' ≡ₚ i :: live w -> in_flight_ w' = i :: in_flight_ w -> guarded w'.
Proof.
  intros [H1 H2] Hi Hp Hf. constructor; rewrite Hp.
  - apply list.NoDup_cons. split; [|done]. intros Hin. rewrite list.Forall_forall in H2. by apply Hi, H2.
  - rewrite Hf. constructor; [by left|]. eapply list.Forall_impl; [exact H2|]. intros x Hx. by right.
Qed.

Lemma live_submitter w w' i s s' :
  submitters w !! i = Some s -> submitters w' = <[i := s']> (submitters w) -> tasks w' = tasks w ->
  live w' ++ sub_ids s ≡ₚ sub_ids s' ++ live w.
Proof.
  intros Ei E1 E2. destruct (lookup_split _ _ _ Ei) as (l1 & l2 & E & Em). unfold live.
  rewrite E1, E2, Em, E, !map_app, !concat_app. cbn [map concat]. solve_Permutation.
Qed.

Lemma live_task w w' k t t' :
  tasks w !! k = Some t -> tasks w' = <[k := t']> (tasks w) -> submitters w' = submitters w ->
  live w' ++ task_ids t ≡ₚ task_ids t' ++ live w.
Proof.
  intros Ei E1 E2. destruct (lookup_split _ _ _ Ei) as (l1 & l2 & E & Em). unfold live.
  rewrite E1, E2, Em, E, !map_app, !concat_app. cbn [map concat]. solve_Permutation.
Qed.

(** A submitter that moves and holds no more than before. *)
Lemma submitter_move w w' i s s' :
  guarded w -> submitters w !! i = Some s -> submitters w' = <[i := s']> (submitters w) -> tasks w' = tasks w ->
  in_flight_ w' = in_flight_ w -> sub_ids s' = [] -> guarded w'.
Proof.
  intros Hg Hi E1 E2 E3 Hs. apply (guarded_shrink w w' (sub_ids s)); [done| |by rewrite E3].
  pose proof (live_submitter _ _ _ _ _ Hi E1 E2) as H. rewrite Hs in H. cbn [app] in H. rewrite <- H. solve_Permutation.
Qed.

Lemma submit_step_guarded w i answer w' : guarded w -> submit_step w i answer = Some w' -> guarded w'.
Proof.
  intros Hg Hs. unfold submit_step in Hs. destruct (submitters w !! i) as [s|] eqn:Ei; [|done].
  pose proof (fun w' s' => submitter_move w w' i s s' Hg Ei) as Hm.
  destruct s as [r|r|r|r|r|]; try discriminate Hs.
  - injection Hs as <-. eapply Hm; [done..|]. by destruct (running_ w && pool_ w).
  - destruct (decide (record_id r ∈ in_flight_ w)) as [Hin|Hin].
    + rewrite bool_decide_eq_true_2 in Hs by done. injection Hs as <-. by eapply Hm.
    + rewrite bool_decide_eq_false_2 in Hs by done. injection Hs as <-. apply (guarded_add w _ (record_id r)); try done.
      match goal with |- live ?w1 ≡ₚ _ => pose proof (live_submitter w w1 i _ (SubEnqueue r) Ei eq_refl eq_refl) as Hl end.
      by rewrite app_nil_r in Hl.
  - destruct (pool_ w); cbn [negb] in Hs; [|injection Hs as <-; by eapply Hm].
    destruct answer as [[]| |n|e]; try discriminate Hs; injection Hs as <-; try (by eapply Hm).
    apply (guarded_shrink w _ []); [done| |done].
    pose proof (live_submitter w (set_submitters w (<[i := SubCount r]> (submitters w))) _ _ (SubCount r) Ei eq_refl eq_refl) as Hl.
    cbn [sub_ids app] in Hl. rewrite <- Hl. unfold live. cbn. rewrite map_app, concat_app. cbn. solve_Permutation.
  - injection Hs as <-. by eapply Hm.
  - injection Hs as <-. by eapply Hm.
Qed.

Lemma task_step_guarded w k answer w' : guarded w -> task_step w k answer = Some w' -> guarded w'.
Proof.
  intros Hg Hs. unfold task_step in Hs. destruct (tasks w !! k) as [t|] eqn:Ek; [|done].
  assert (Hm : forall w' t', tasks w' = <[k := t']> (tasks w) -> submitters w' = submitters w -> in_flight_ w' = in_flight_ w ->
            task_ids t' = task_ids t -> guarded w').
  { intros w1 t' E1 E2 E3 E4. apply (guarded_shrink w w1 []); [done| |by rewrite E3].
    pose proof (live_task _ _ _ _ _ Ek E1 E2) as H. rewrite E4 in H. cbn [app].
    apply (Permutation_app_inv_l (task_ids t)). rewrite <- H. solve_Permutation. }
  destruct t as [r n|r|]; try discriminate Hs.
  - destruct answer as [entry|]; [|destruct (negb _ || _)]; injection Hs as <-; by eapply Hm.
  - injection Hs as <-. apply (guarded_shrink w _ [record_id r]); [done| |].
    + match goal with |- _ ≡ₚ _ ++ live ?w1 => pose proof (live_task w w1 k _ TDone Ek eq_refl eq_refl) as Hl end.
      cbn [task_ids app] in Hl. rewrite <- Hl. solve_Permutation.
    + intros i _ Hi Hin. cbn. apply list_elem_of_In, List.filter_In. split; [by apply list_elem_of_In|].
      apply negb_true_iff, bool_decide_eq_false. intros ->. apply Hi. by left.
Qed.

Lemma step_guarded w a w' : guarded w -> step w a = Some w' -> guarded w'.
Proof.
  intros Hg Hs. destruct a as [|r|i answer|k answer| |]; cbn [step] in Hs.
  - destruct (running_ w); simplify_eq. by destruct Hg.
  - injection Hs as <-. apply (guarded_shrink w _ []); [done| |done]. unfold live. cbn. rewrite map_app, concat_app.
    cbn. by rewrite app_nil_r.
  - by eapply submit_step_guarded.
  - by eapply task_step_guarded.
  - destruct (running_ w); simplify_eq. by destruct Hg.
  - destruct (_ && _ && _); simplify_eq. by destruct Hg.
Qed.

Context (Hmax : 0 <= max_retries policy).

Ltac count_solve :=
  rewrite ?len_app, ?len_cons, ?len_nil, ?total_app, ?total_cons, ?total_nil in *;
  cbn [attempting uncounted remaining] in *; lia.

Lemma submit_step_counted w i answer w' : counted w -> submit_step w i answer = Some w' -> counted w'.
Proof.
  intros [H1 H2 H3 H4 H5] Hs. unfold submit_step in Hs. destruct (submitters w !! i) as [s|] eqn:Ei; [|done].
  destruct (lookup_split _ _ _ Ei) as (l1 & l2 & E & Em). rewrite E in H1.
  destruct s as [r|r|r|r|r|]; try discriminate Hs;
    repeat match type of Hs with
           | context [if bool_decide ?P then _ else _] => destruct (bool_decide P)
           | context [if negb (pool_ w) then _ else _] => destruct (negb (pool_ w))
           | context [match answer with _ => _ end] => destruct answer as [[]| |n|e]
           end; try discriminate Hs; injection Hs as <-; constructor; cbn -[len total]; rewrite ?Em; try done; try count_solve.
  - destruct (running_ w && pool_ w); count_solve.
  - apply List.Forall_app. split; [done|]. constructor; [cbn; lia|constructor].
  - rewrite total_app, len_app. change (total remaining [TAttempt r 0]) with (max_retries policy + 1 - 0 + 0). change (len [TAttempt r 0]) with 1. nia.
Qed.

Lemma task_step_counted w k answer w' : counted w -> task_step w k answer = Some w' -> counted w'.
Proof.
  intros [H1 H2 H3 H4 H5] Hs. unfold task_step in Hs. destruct (tasks w !! k) as [t|] eqn:Ek; [|done].
  pose proof (proj1 (list.Forall_lookup _ _) H4 _ _ Ek) as Hb. cbv beta in Hb.
  assert (Hr : forall t', in_budget t' -> Forall in_budget (<[k := t']> (tasks w))) by (intros; by apply list.Forall_insert).
  assert (El : forall t', len (<[k := t']> (tasks w)) = len (tasks w)) by (intros; unfold len; by rewrite list.length_insert).
  destruct t as [r n|r|]; try discriminate Hs.
  - destruct answer as [entry|]; [|destruct (negb _ || _) eqn:En]; injection Hs as <-;
      constructor; cbn -[len total]; rewrite ?El, ?(total_insert _ _ _ _ _ Ek); try done; try count_solve;
      try (apply Hr; done); cbn in Hb.
    + rewrite len_app, len_cons, len_nil. cbn [remaining]. lia.
    + rewrite len_app, len_cons, len_nil. cbn [remaining]. lia.
    + apply Hr. cbn. apply orb_false_iff in En as [_ En%Z.leb_gt]. lia.
  - injection Hs as <-. constructor; cbn -[len total]; rewrite ?El, ?(total_insert _ _ _ _ _ Ek); try done; try count_solve.
    by apply Hr.
Qed.

Lemma step_counted w a w' : counted w -> step w a = Some w' -> counted w'.
Proof.
  intros Hc Hs. destruct a as [|r|i answer|k answer| |]; cbn [step] in Hs.
  - destruct (running_ w); simplify_eq. by destruct Hc.
  - injection Hs as <-. destruct Hc as [H1 H2 H3 H4 H5]. constructor; cbn -[len total]; try done. count_solve.
  - by eapply submit_step_counted.
  - by eapply task_step_counted.
  - destruct (running_ w); simplify_eq. by destruct Hc.
  - destruct (_ && _ && _); simplify_eq. by destruct Hc.
Qed.

Lemma run_kept (I : LedgerWorker -> Prop) :
  (forall w a w', I w -> step w a = Some w' -> I w') ->
  forall schedule w w', I w -> run w schedule = Some w' -> I w'.
Proof.
  intros H schedule. induction schedule as [|a schedule IH]; intros w w' Hw Hr; cbn [run] in Hr; [by simplify_eq|].
  destruct (step w a) as [w1|] eqn:E; [|done]. eauto.
Qed.

Lemma distinct_tasks (l : list Task) k1 k2 r1 r2 n1 n2 :
  NoDup (concat (map task_ids l)) -> k1 <> k2 ->
  l !! k1 = Some (TAttempt r1 n1) -> l !! k2 = Some (TAttempt r2 n2) -> record_id r1 <> record_id r2.
Proof.
  revert k1 k2. induction l as [|t l IH]; intros k1 k2 Hn Hk H1 H2; [done|]. cbn [map concat] in Hn.
  apply list.NoDup_app in Hn as (_ & Hd & Hn).
  assert (Hin : forall k r n, l !! k = Some (TAttempt r n) -> record_id r ∈ concat (map task_ids l)).
  { intros k r n Hl. apply list_elem_of_In, in_concat. exists (task_ids (TAttempt r n)). split; [|by left].
    apply in_map, list_elem_of_In. by eapply list.list_elem_of_lookup_2. }
  destruct k1 as [|k1], k2 as [|k2]; [done|cbn in H1, H2; simplify_eq..|].
  - intros E. apply (Hd (record_id r1)); [by left|]. rewrite E. by eapply Hin.
  - intros E. apply (Hd (record_id r2)); [by left|]. rewrite <- E. by eapply Hin.
  - cbn in H1, H2. apply (IH k1 k2); [done|congruence|done..].
Qed.

(** C14: A record is never anchored by two threads at once: whatever the
    interleaving of submissions, tasks and a drain, two tasks that are still
    submitting to the ledger have different record identifiers, and each of them
    is in the in-flight set, which is what makes a further submission of the same
    record a no-op. *)
Theorem anchoring_exclusive (schedule : list Action) (w : LedgerWorker)
    (Hr : run new_worker schedule = Some w) :
  (forall k1 k2 r1 r2 n1 n2, k1 <> k2 -> tasks w !! k1 = Some (TAttempt r1 n1) -> tasks w !! k2 = Some (TAttempt r2 n2) ->
     record_id r1 <> record_id r2) /\
  (forall k r n, tasks w !! k = Some (TAttempt r n) -> record_id r ∈ in_flight_ w) /\
  (forall k r n i r' answer, tasks w !! k = Some (TAttempt r n) -> record_id r' = record_id r ->
     submitters w !! i = Some (SubInsert r') ->
     submit_step w i answer = Some (set_submitters w (<[i := SubDone]> (submitters w)))).
Proof.
  assert (Hg : guarded new_worker) by (constructor; constructor).
  destruct (run_kept guarded step_guarded schedule _ _ Hg Hr) as [H1 H2].
  assert (Hf : forall k r n, tasks w !! k = Some (TAttempt r n) -> record_id r ∈ in_flight_ w).
  { intros k r n Hk. rewrite list.Forall_forall in H2. apply H2. unfold live. apply elem_of_app. right.
    apply list_elem_of_In, in_concat. exists (task_ids (TAttempt r n)). split; [|by left].
    apply in_map, list_elem_of_In. by eapply list.list_elem_of_lookup_2. }
  split_and!; [|exact Hf|].
  - unfold live in H1. apply list.NoDup_app in H1 as (_ & _ & H1). intros k1 k2 r1 r2 n1 n2. by apply distinct_tasks.
  - intros k r n i r' answer Hk E Hi. unfold submit_step. rewrite Hi, E, bool_decide_eq_true_2; [done|]. by eapply Hf.
Qed.

(** The worker's effort is bounded and its books balance: under every
    interleaving it makes at most one submission plus the configured retries per
    accepted record; the pending counter is the number of accepted records that
    are not settled, up to submitters that have not counted theirs yet; every
    settled or refused record has published exactly one event; and every
    committed one has been handed to the commit callback. *)
Theorem anchoring_bounded (schedule : list Action) (w : LedgerWorker)
    (Hr : run new_worker schedule = Some w) :
  len (submissions w) <= (max_retries policy + 1) * len (tasks w) /\
  pending_count_ w = total attempting (tasks w) - total uncounted (submitters w) /\
  len (events w) = committed_count_ w + failed_count_ w /\
  committed_count_ w = len (commits w).
Proof.
  assert (Hc : counted new_worker) by (constructor; cbn -[len]; [lia|done|done|apply List.Forall_nil|unfold len; cbn; lia]).
  destruct (run_kept counted step_counted schedule _ _ Hc Hr) as [H1 H2 H3 H4 H5]. split_and!; try done.
  enough (0 <= total remaining (tasks w)) by lia. clear -H4.
  induction H4 as [|t l Ht _ IH]; [done|]. rewrite total_cons. destruct t; cbn [in_budget remaining] in *; lia.
Qed.

(** *** Termination *)

(** The steps a task has left. *)
Definition left_steps (t : Task) : Z :=
  match t with TAttempt _ n => max_retries policy + 2 - n | TErase _ => 1 | TDone => 0 end.

Definition moves (k : nat) (schedule : list Action) : Z :=
  total (fun a => match a with Processing j _ => if Nat.eqb j k then 1 else 0 | _ => 0 end) schedule.

Lemma submit_step_tasks w i answer w' :
  submit_step w i answer = Some w' -> tasks w' = tasks w \/ exists t, tasks w' = tasks w ++ [t].
Proof.
  unfold submit_step. intros Hs. repeat (case_match; try done); simplify_eq; eauto.
Qed.

Lemma task_step_left w k answer w' t :
  counted w -> tasks w !! k = Some t -> task_step w k answer = Some w' ->
  exists t', tasks w' = <[k := t']> (tasks w) /\ left_steps t' + 1 <= left_steps t.
Proof.
  intros [_ _ _ H4 _] Hk Hs. pose proof (proj1 (list.Forall_lookup _ _) H4 _ _ Hk) as Hb. cbv beta in Hb.
  unfold task_step in Hs. rewrite Hk in Hs. destruct t as [r n|r|]; try discriminate Hs.
  - destruct answer as [entry|]; [|destruct (negb _ || _)]; injection Hs as <-; eexists;
      (split; [reflexivity|]); cbn in *; lia.
  - injection Hs as <-. eexists. split; [reflexivity|]. cbn. lia.
Qed.

Lemma step_left w a w' k t :
  counted w -> tasks w !! k = Some t -> step w a = Some w' ->
  exists t', tasks w' !! k = Some t' /\ moves k [a] + left_steps t' <= left_steps t.
Proof.
  intros Hc Hk Hs. unfold moves. rewrite total_cons, total_nil. destruct a as [|r|i answer|j answer| |]; cbn [step] in Hs.
  - destruct (running_ w); simplify_eq. exists t. split; [done|lia].
  - injection Hs as <-. exists t. split; [done|lia].
  - exists t. split; [|lia]. destruct (submit_step_tasks _ _ _ _ Hs) as [->|[x ->]]; [done|]. by apply list.lookup_app_l_Some.
  - destruct (tasks w !! j) as [tj|] eqn:Ej; [|by unfold task_step in Hs; rewrite Ej in Hs].
    destruct (task_step_left _ _ _ _ _ Hc Ej Hs) as (t' & -> & Hl). destruct (Nat.eqb_spec j k) as [->|Hn].
    + simplify_eq. exists t'. split; [|lia]. apply list.list_lookup_insert_eq. by eapply list.lookup_lt_Some.
    + exists t. rewrite list.list_lookup_insert_ne by done. split; [done|lia].
  - destruct (running_ w); simplify_eq. exists t. split; [done|lia].
  - destruct (_ && _ && _); simplify_eq. exists t. split; [done|lia].
Qed.

Lemma run_left schedule w w' k t :
  counted w -> tasks w !! k = Some t -> run w schedule = Some w' ->
  exists t', tasks w' !! k = Some t' /\ moves k schedule + left_steps t' <= left_steps t.
Proof.
  revert w t. induction schedule as [|a schedule IH]; intros w t Hc Hk Hr; cbn [run] in Hr.
  { simplify_eq. exists t. split; [done|]. unfold moves. rewrite total_nil. lia. }
  destruct (step w a) as [w1|] eqn:Es; [|done]. destruct (step_left _ _ _ _ _ Hc Hk Es) as (t1 & Ht1 & H1).
  destruct (IH w1 t1) as (t' & Ht' & H2); [by eapply step_counted|done|done|]. exists t'. split; [done|].
  unfold moves in *. rewrite total_cons in H1 |- *. rewrite total_nil in H1. lia.
Qed.

(** C35: Anchoring a record terminates: from the moment its task is in the pool it
    takes at most two steps more than the configured retries, whatever the
    ledger answers and whatever the other threads do; until then it is never
    stuck; and when those steps are used up it has returned. *)
Theorem anchoring_terminates (before after : list Action) (w w' : LedgerWorker) (k : nat) (r : SignatureRecord)
    (H0 : run new_worker before = Some w) (Hk : tasks w !! k = Some (TAttempt r 0)) (H1 : run w after = Some w') :
  exists t, tasks w' !! k = Some t /\ moves k after <= max_retries policy + 2 /\
    (t <> TDone -> forall answer, task_step w' k answer <> None) /\
    (moves k after = max_retries policy + 2 -> t = TDone).
Proof.
  assert (Hc : counted new_worker) by (constructor; cbn -[len]; [lia|done|done|apply List.Forall_nil|unfold len; cbn; lia]).
  pose proof (run_kept counted step_counted _ _ _ Hc H0) as Hw.
  destruct (run_left _ _ _ _ _ Hw Hk H1) as (t & Ht & Hl).
  pose proof (run_kept counted step_counted _ _ _ Hw H1) as [_ _ _ H4 _].
  pose proof (proj1 (list.Forall_lookup _ _) H4 _ _ Ht) as Hb. cbv beta in Hb. cbn [left_steps] in Hl.
  exists t. split; [done|]. split; [destruct t; cbn in *; lia|]. split.
  - intros Hn answer. unfold task_step. rewrite Ht. destruct t as [r' n|r'|]; [|done..].
    destruct answer; [done|]. by destruct (negb _ || _).
  - intros E. destruct t; cbn in *; [lia..|done].
Qed.

End Process.

(** *** Schedules *)

Definition rec_1 : SignatureRecord :=
  mkRecord (bytes_of "id-1") 5 0 [] [] [] [] [] [] [] 0 [] None None None None [] [] None None.

Definition quick : RetryPolicy := mkRetry 2 10 1000 2.

Definition anchored : LedgerEntry := mkEntry (bytes_of "id-1") [] [] [] 5 (bytes_of "tx-9") 3.

Definition accept (i : nat) : list Action :=
  [Submit rec_1; Submitting i (Accepted true); Submitting i (Accepted true); Submitting i (Accepted true); Submitting i (Accepted true)].

(** A record whose first submission fails, a duplicate meanwhile. *)
Definition schedule_1 : list Action :=
  [Start] ++ accept 0 ++ [Processing 0 None; Submit rec_1; Submitting 1 (Accepted true)].

Lemma anchoring_exclusive_witness :
  exists w, run quick new_worker schedule_1 = Some w /\ tasks w !! 0%nat = Some (TAttempt rec_1 1) /\
  submitters w !! 1%nat = Some (SubInsert rec_1) /\
  submit_step w 1 (Accepted true) = Some (set_submitters w (<[1%nat := SubDone]> (submitters w))).
Proof.
  eexists. split; [vm_compute; reflexivity|]. split; [reflexivity|]. split; [reflexivity|].
  refine (proj2 (proj2 (anchoring_exclusive quick schedule_1 _ _)) 0%nat rec_1 1 1%nat rec_1 (Accepted true) _ _ _); reflexivity.
Defined.

Lemma anchoring_bounded_witness :
  exists w, run quick new_worker (schedule_1 ++ [Processing 0 (Some anchored); Processing 0 None]) = Some w /\
  len (submissions w) = 2 /\ len (submissions w) <= (max_retries quick + 1) * len (tasks w) /\ committed_count_ w = len (commits w).
Proof.
  eexists. split; [vm_compute; reflexivity|]. split; [reflexivity|].
  assert (H : 0 <= max_retries quick) by (cbn; lia).
  match goal with |- context [submissions ?w] =>
    destruct (anchoring_bounded quick H (schedule_1 ++ [Processing 0 (Some anchored); Processing 0 None]) w) as (H1 & _ & _ & H4) end.
  - vm_compute. reflexivity.
  - split; assumption.
Defined.

Definition failing : list Action := [Processing 0 None; Draining; Processing 0 None; Processing 0 None].

Lemma anchoring_terminates_witness :
  exists w w' t, run quick new_worker ([Start] ++ accept 0) = Some w /\ tasks w !! 0%nat = Some (TAttempt rec_1 0) /\
  run quick w failing = Some w' /\ tasks w' !! 0%nat = Some t /\ moves 0 failing <= max_retries quick + 2 /\ t = TDone.
Proof.
  eexists _, _, _. split; [vm_compute; reflexivity|]. split; [reflexivity|]. split; [vm_compute; reflexivity|].
  split; [reflexivity|]. split; [|reflexivity].
  assert (H : 0 <= max_retries quick) by (cbn; lia).
  match goal with |- context [moves 0 failing] =>
    refine (match anchoring_terminates quick H ([Start] ++ accept 0) failing _ _ 0 rec_1 _ _ _ with
            | ex_intro _ _ (conj _ (conj Hm _)) => Hm end) end; vm_compute; reflexivity.
Defined.

(** A record the pool refuses stays in the in-flight set: when it is submitted
    again it is dropped as a duplicate, though nothing is anchoring it. *)
Lemma refused_record_stuck :
  exists w, run quick new_worker ([Start; Submit rec_1; Submitting 0 (Accepted false); Submitting 0 (Accepted false);
      Submitting 0 (Accepted false); Submitting 0 (Accepted false)]
      ++ [Submit rec_1; Submitting 1 (Accepted true); Submitting 1 (Accepted true)]) = Some w /\
  tasks w = [] /\ in_flight_ w = [bytes_of "id-1"] /\ submitters w = [SubDone; SubDone] /\ failed_count_ w = 1.
Proof. eexists. split; [vm_compute; reflexivity|]. by split_and!. Qed.

(** A thread that passed the test of [pool_] before the drain calls [enqueue] on
    the pool after [drain_and_stop] has freed it. *)
Lemma freed_pool_reached :
  exists w, run quick new_worker [Start; Submit rec_1; Submitting 0 (Accepted true); Submitting 0 (Accepted true);
      Draining; Drained; Submitting 0 (Accepted true)] = Some w /\ freed_pool_used w = true.
Proof. eexists. split; [vm_compute; reflexivity|]. done. Qed.

(** Before the cap is applied the delay of retry 23 no longer fits an [int]. *)
Lemma delay_overflows :
  forallb (fun z => z <? 2 ^ 31) (products default_retry 21 (base_delay_ms default_retry)) = true /\
  forallb (fun z => z <? 2 ^ 31) (products default_retry 22 (base_delay_ms default_retry)) = false.
Proof. by split; vm_compute. Qed.

End Worker.

(** ** The pool of the worker and its waits *)

Module Waits.

(** [hw]: what [hardware_concurrency] answers, 0 when it does not know. *)
Definition default_pool_size (windows : bool) (hw : Z) : Z :=
  if windows then
    let hw := Z.max hw 2 in
    let capped := if 16 <=? hw then 4 else hw in
    Z.max 2 capped
  else if hw <=? 2 then 2 else if 4 <=? hw then 4 else hw.

Definition pool_size (windows : bool) (concurrent_workers hw : Z) : Z :=
  if concurrent_workers =? 0 then default_pool_size windows hw else concurrent_workers.

Definition QUANTUM : Z := 50.

(** One element per round of the loop: the clock as the condition reads it, then the
    flag.  The result is the number of quanta slept; [None] while the loop runs. *)
Fixpoint sleep_loop (deadline : Z) (rounds : list (Z * bool)) : option nat :=
  match rounds with
  | [] => None
  | (now, running) :: rounds =>
    if deadline <=? now then Some 0%nat
    else if negb running then Some 0%nat
    else S <$> sleep_loop deadline rounds
  end.

Definition sleep_interruptible (start amount : Z) (rounds : list (Z * bool)) : option nat := sleep_loop (start + amount) rounds.

(** On the systems with [hardware_concurrency] the pool has two to four threads. *)
Lemma default_pool_size_bounds hw : 2 <= default_pool_size false hw <= 4.
Proof. unfold default_pool_size. destruct (Z.leb_spec hw 2), (Z.leb_spec 4 hw); lia. Qed.

(** The wait ends with the first round that sees the flag down: a drain is delayed by
    the quantum in progress and no other. *)
Lemma sleep_interrupted start amount pre now rest :
  exists n, sleep_interruptible start amount (pre ++ (now, false) :: rest) = Some n /\ (n <= length pre)%nat.
Proof.
  unfold sleep_interruptible. induction pre as [|[t r] pre (n & E & Hn)]; cbn.
  - exists 0%nat. by destruct (_ <=? now).
  - destruct (_ <=? t); [exists 0%nat; split; [done|lia]|]. destruct r; cbn; [|exists 0%nat; split; [done|lia]].
    rewrite E. exists (S n). split; [done|lia].
Qed.

(** A clock that advances by a quantum with every round, as [sleep_for] promises. *)
Fixpoint advances (t : Z) (rounds : list (Z * bool)) : Prop :=
  match rounds with [] => True | (now, _) :: rounds => t <= now /\ advances (now + QUANTUM) rounds end.

(** The wait ends by itself, once a round begins [amount] after the start: after
    [amount / 50] quanta, rounded up, at the latest. *)
Lemma sleep_ends start amount rounds :
  advances start rounds -> rounds <> [] -> amount + QUANTUM <= QUANTUM * len rounds ->
  is_Some (sleep_interruptible start amount rounds).
Proof.
  unfold sleep_interruptible, QUANTUM. revert start amount.
  induction rounds as [|[now r] rounds IH]; intros start amount Ha Hne Hl; [done|]. rewrite len_cons in Hl. cbn in Ha |- *.
  destruct Ha as [Hn Ha]. destruct (Z.leb_spec (start + amount) now); [done|]. destruct r; cbn; [|done].
  assert (Hr : rounds <> []) by (intros ->; change (len []) with 0 in Hl; lia).
  destruct (IH (now + QUANTUM) (start + amount - now - QUANTUM) Ha Hr) as [n E]; unfold QUANTUM in *; [lia|].
  replace (now + 50 + (start + amount - now - 50)) with (start + amount) in E by lia. by rewrite E.
Qed.

(** A Windows host with 15 cores gets 15 threads, one with 16 gets 4. *)
Lemma windows_pool_not_small : default_pool_size true 15 = 15 /\ default_pool_size true 16 = 4.
Proof. done. Qed.

End Waits.
