(* ===== verification/Admin.v ===== *)
(** * The administration service

    [src/src/admin/admin_service.cpp] (the login and the backup of a token) and
    [src/src/admin/hsm_admin_grpc.cpp] (the remote procedures over them and over the
    signature store, the ledger queue and the notification repository).

    A call is a step on [AdminService], the objects the service points to: the slots
    with their tokens, the vault files, the database, the ledger worker, the bus and
    the audit log; a null pointer is [None].  The token the service was given is the
    token of a slot.  gRPC, its peer identities and metadata are the record
    [ServerContext], what a call reads from outside (environment variables, clock,
    random bytes, the answers of the systems below) is the record [AdminEnv], and the
    ledger client is the record [LedgerPort] of what it answers. *)

From S2P Require Import Prelude Codec Types Notification Snapshot SecureBuffer Objects ObjectStore Token Session Pkcs11 Vault AuditLog KeyPolicy SignatureStore Delivery NotificationStore ThreadPool Ledger.
Local Open Scope Z_scope.

(** ** Authorization *)

Record ServerContext : Type := mkContext {
  peer_authenticated : bool;
  peer_identities : list (list byte);
  client_metadata : list (list byte * list byte)
}.

(** [env_val]: unset and empty are the same. *)
Definition env_val (v : option (list byte)) : list byte := default [] v.

(** [item == cn] after trimming; an item of blanks only is not trimmed. *)
Definition item_is (cn item : list byte) : bool :=
  bool_decide ((if forallb Notify.is_blank item then item else Notify.trim item) = cn).

(** The loop over the list: [item] is what was read since the last comma. *)
Fixpoint cn_loop (cn item csv : list byte) : bool :=
  match csv with
  | [] => negb (bool_decide (item = [])) && item_is cn item
  | c :: csv => if u8 c =? 44 then item_is cn item || cn_loop cn [] csv else cn_loop cn (item ++ [c]) csv
  end.

Definition cn_in_list (cn csv : list byte) : bool := cn_loop cn [] csv.

Definition TOKEN_KEY : list byte := bytes_of "vhsm-admin-token".

Definition require_admin (allowed_cns admin_token : option (list byte)) (ctx : ServerContext) : bool :=
  let cns := env_val allowed_cns in
  let token := env_val admin_token in
  if negb (bool_decide (cns = [])) then
    peer_authenticated ctx && existsb (fun cn => cn_in_list cn cns) (peer_identities ctx)
  else if negb (bool_decide (token = [])) then
    match List.find (fun p => bool_decide (fst p = TOKEN_KEY)) (client_metadata ctx) with
    | Some (_, v) => bool_decide (v = token)
    | None => false
    end
  else true.

(** ** The service *)

Record LedgerPort : Type := mkLedgerPort {
  lp_get_record : list byte -> option LedgerEntry;
  lp_latest_tail : option (list byte)
}.

(** The audit log: the hash-chained one with its file, or another one. *)
Inductive AuditSink : Type :=
| HashChained (log : HashChainedAuditLog) (file : option (list byte))
| OtherAudit (records : list (list byte * list byte)).

Inductive ProviderEnclaveState : Type := Created | Running | Stopped | Failed | Unknown.

Definition to_state_str (s : ProviderEnclaveState) : string :=
  match s with Created => "Created" | Running => "Running" | Stopped => "Stopped" | Failed => "Failed" | Unknown => "Unknown" end.

(** What the enclave provider reports. *)
Record EnclaveReport : Type := mkEnclave {
  en_state : ProviderEnclaveState;
  en_has_kvm : bool;
  en_is_mock : bool;
  en_is_using_kvm : bool;
  en_measurement_hex : list byte;
  en_guest_elf_path : list byte;
  en_cpu_pin : Z;
  en_mem_mb : Z;
  en_error_detail : list byte;
  en_enabled : bool;
  en_hypercall_ok : bool;
  en_vsock_ok : bool
}.

Section Admin.
Context {C : Vault.Scrypto} {S : SignatureStore.Scrypto} {O : LogOrder}.
Context {W : Type} {RS : RecordSink W} {B : Type} {NB : NotificationBus B}.

Record Database : Type := mkDatabase { sig_conn : Conn; notify_tables : NotifyTables }.

Record AdminService : Type := mkAdmin {
  ad_slots : Slots.v_SlotManagerCore_M1;
  ad_files : Vault.FS;
  ad_db : option Database;
  ad_token : option Z;
  ad_ledger : option LedgerPort;
  ad_worker : option W;
  ad_bus : option B;
  ad_audit : option AuditSink;
  ad_kvm : option EnclaveReport
}.

Definition with_slots (a : AdminService) (s : Slots.v_SlotManagerCore_M1) : AdminService :=
  mkAdmin s (ad_files a) (ad_db a) (ad_token a) (ad_ledger a) (ad_worker a) (ad_bus a) (ad_audit a) (ad_kvm a).
Definition with_files (a : AdminService) (f : Vault.FS) : AdminService :=
  mkAdmin (ad_slots a) f (ad_db a) (ad_token a) (ad_ledger a) (ad_worker a) (ad_bus a) (ad_audit a) (ad_kvm a).
Definition with_db (a : AdminService) (d : option Database) : AdminService :=
  mkAdmin (ad_slots a) (ad_files a) d (ad_token a) (ad_ledger a) (ad_worker a) (ad_bus a) (ad_audit a) (ad_kvm a).
Definition with_worker (a : AdminService) (w : option W) : AdminService :=
  mkAdmin (ad_slots a) (ad_files a) (ad_db a) (ad_token a) (ad_ledger a) w (ad_bus a) (ad_audit a) (ad_kvm a).
Definition with_bus_audit (a : AdminService) (b : option B) (l : option AuditSink) : AdminService :=
  mkAdmin (ad_slots a) (ad_files a) (ad_db a) (ad_token a) (ad_ledger a) (ad_worker a) b l (ad_kvm a).

Record AdminEnv : Type := mkAdminEnv {
  VHSM_ADMIN_ALLOWED_CNS : option (list byte);
  VHSM_ADMIN_TOKEN : option (list byte);
  ae_now_ms : Z;
  ae_instance : list byte;
  ae_fault : Stmt -> bool;
  ae_select_fault : bool;
  ae_notify_fault : bool;
  ae_save : SaveSys;
  ae_salt : list byte;
  ae_nonce : list byte;
  ae_append : AppendSys;
  ae_timestamp : list byte;
  ae_has_kvm : bool;
  ae_order : list Row -> list Row
}.

Definition authorized (env : AdminEnv) (ctx : ServerContext) : bool :=
  require_admin (VHSM_ADMIN_ALLOWED_CNS env) (VHSM_ADMIN_TOKEN env) ctx.

Inductive StatusCode : Type := GRPC_OK | INVALID_ARGUMENT | NOT_FOUND | FAILED_PRECONDITION | UNAUTHENTICATED.

Record Status : Type := mkStatus { s_code : StatusCode; s_message : list byte }.

Definition GrpcOk : Status := mkStatus GRPC_OK [].
Definition refuse (c : StatusCode) (m : string) : Status := mkStatus c (bytes_of m).
Definition unauthenticated : Status := refuse UNAUTHENTICATED "admin authorization required".
Definition not_configured : Status := refuse FAILED_PRECONDITION "signature store not configured".
Definition invalid_request : Status := refuse INVALID_ARGUMENT "invalid request".

Definition slot_token (a : AdminService) (slot : Z) : option v_TokenCore_M1 :=
  match Slots.v_get_slot (ad_slots a) slot with Some s => Slots.get_token s | None => None end.

Definition resolve_token (a : AdminService) (slot : Z) : list byte + v_TokenCore_M1 :=
  match Slots.v_get_slot (ad_slots a) slot with
  | None => inl (bytes_of "slot not found: " ++ to_string slot)
  | Some s => match Slots.get_token s with
              | None => inl (bytes_of "no token present in slot " ++ to_string slot)
              | Some t => inr t
              end
  end.

(** The effect of a call on the token of a slot. *)
Definition put_token (a : AdminService) (slot : Z) (t : v_TokenCore_M1) : AdminService :=
  with_slots a (Slots.mkSlotManager (alter (fun s => Slots.insert_token s t) slot (Slots.v_slots_ (ad_slots a)))
                  (Slots.v_last_registration_at_ (ad_slots a))).

(** The token given to the service. *)
Definition service_token (a : AdminService) : option v_TokenCore_M1 :=
  match ad_token a with Some slot => slot_token a slot | None => None end.

(** ** Login *)

Definition role_name (userType : Z) : list byte := bytes_of (if userType =? CKU_SO then "SO" else "USER").

Definition QUOTE : list byte := [to_u8 34].

Definition login_event (env : AdminEnv) (t : v_TokenCore_M1) (userType : Z) (caller : list byte) : NotificationEvent :=
  mkEvent EventType.ADMIN_LOGIN Severity.INFO (ae_now_ms env) (bytes_of "admin")
    (if bool_decide (caller = []) then role_name userType else caller)
    (role_name userType ++ bytes_of " authenticated via gRPC admin on token " ++ v_label_ t)
    (bytes_of "{" ++ QUOTE ++ bytes_of "token" ++ QUOTE ++ bytes_of ":" ++ QUOTE ++ v_id_ t ++ QUOTE ++ bytes_of ","
       ++ QUOTE ++ bytes_of "role" ++ QUOTE ++ bytes_of ":" ++ QUOTE ++ role_name userType ++ QUOTE ++ bytes_of ","
       ++ QUOTE ++ bytes_of "caller" ++ QUOTE ++ bytes_of ":" ++ QUOTE ++ caller ++ QUOTE ++ bytes_of "}")
    (ae_instance env).

Definition audit_append (env : AdminEnv) (l : AuditSink) (id type : list byte) : AuditSink :=
  match l with
  | HashChained log file =>
    let '(_, log, file, _) := append SignatureStore.hmac_sha256 (ae_append env) (ae_timestamp env) log file id type in
    HashChained log file
  | OtherAudit rs => OtherAudit (rs ++ [(id, type)])
  end.

(** [AdminLoginCore::admin_login] on the token of a slot. *)
Definition admin_login (env : AdminEnv) (a : AdminService) (slot : Z) (t : v_TokenCore_M1) (userType : Z)
    (pin caller : list byte) : CK_RV * AdminService :=
  if negb (userType =? CKU_USER) && negb (userType =? CKU_SO) then (CKR_USER_TYPE_INVALID, a)
  else
    let (rv, t) := Token.login (ae_now_ms env) t userType (Some pin) (len pin) in
    let a := put_token a slot t in
    if negb (rv =? CKR_OK) then (rv, a)
    else match ad_bus a, ad_audit a with
    | Some b, Some l =>
      (CKR_OK, with_bus_audit a (Some (publish_event b (login_event env t userType caller)))
                 (Some (audit_append env l (bytes_of "ADMIN_LOGIN-" ++ int_to_string (ae_now_ms env)) (bytes_of "ADMIN_LOGIN"))))
    | _, _ => (CKR_OK, a)
    end.

Record AdminLoginRequest : Type := mkLoginRequest { al_slot : Z; al_so : bool; al_pin : list byte; al_caller : list byte }.

(** The status, the status text of the response, the service. *)
Definition AdminLogin (env : AdminEnv) (a : AdminService) (q : option AdminLoginRequest) : Status * list byte * AdminService :=
  match q with
  | None => (invalid_request, [], a)
  | Some q =>
    match resolve_token a (al_slot q) with
    | inl err => (mkStatus NOT_FOUND err, [], a)
    | inr t =>
      let (rv, a) := admin_login env a (al_slot q) t (if al_so q then CKU_SO else CKU_USER) (al_pin q) (al_caller q) in
      if rv =? CKR_OK then (GrpcOk, bytes_of "OK", a)
      else if rv =? CKR_PIN_INCORRECT then (refuse UNAUTHENTICATED "PIN_INCORRECT", bytes_of "PIN_INCORRECT", a)
      else if rv =? CKR_PIN_LOCKED then (refuse FAILED_PRECONDITION "PIN_LOCKED", bytes_of "PIN_LOCKED", a)
      else (refuse UNAUTHENTICATED "LOGIN_FAILED", bytes_of "LOGIN_FAILED", a)
    end
  end.

(** ** Backup *)

(** [TokenBackupCore::backup]: a new vault file with the snapshot. *)
Definition backup (env : AdminEnv) (a : AdminService) (t : v_TokenCore_M1) (vault_path vault_password : list byte)
    : Vault.Outcome * AdminService :=
  match Snapshot.serialize_token_snapshot (snapshot_from_token t) with
  | Throw e => (Vault.Thrown e, a)
  | Ok snapshot =>
    let '(o, _, tr) := Vault.create (ae_save env) (ad_files a) vault_path vault_password (ae_salt env) (ae_nonce env) snapshot in
    (o, with_files a (Vault.run_ops (ad_files a) tr))
  end.

(** [TokenBackupCore::restore]. *)
Definition restore (a : AdminService) (t : v_TokenCore_M1) (vault_path vault_password : list byte) : res v_TokenCore_M1 :=
  let* vault := Vault.open_vault (ad_files a) vault_path vault_password in
  if negb (Vault.valid_ vault) then Throw (RuntimeError "vault authentication failed")
  else Vault.restore_token_from_vault (ad_files a) t vault.

Record VaultRequest : Type := mkVaultRequest { vq_slot : Z; vq_path : list byte; vq_password : list byte }.

Definition vault_request_ok (q : VaultRequest) : bool := negb (bool_decide (vq_path q = [])) && negb (bool_decide (vq_password q = [])).

Definition error_reply (e : exn) : Status * list byte :=
  (mkStatus FAILED_PRECONDITION (Client.what e), bytes_of "ERROR:" ++ Client.what e).

Definition vault_required : Status := refuse INVALID_ARGUMENT "vault_path and vault_password are required".

(** [None] for a call that has not returned. *)
Definition BackupToken (env : AdminEnv) (ctx : ServerContext) (a : AdminService) (q : option VaultRequest)
    : option (Status * list byte) * AdminService :=
  if negb (authorized env ctx) then (Some (unauthenticated, []), a)
  else match q with
  | None => (Some (vault_required, []), a)
  | Some q =>
    if negb (vault_request_ok q) then (Some (vault_required, []), a)
    else match resolve_token a (vq_slot q) with
    | inl err => (Some (mkStatus NOT_FOUND err, []), a)
    | inr t =>
      match backup env a t (vq_path q) (vq_password q) with
      | (Vault.Saved, a) => (Some (GrpcOk, bytes_of "OK"), a)
      | (Vault.Thrown e, a) => (Some (error_reply e), a)
      | (Vault.Running, a) => (None, a)
      end
    end
  end.

Definition RestoreToken (env : AdminEnv) (ctx : ServerContext) (a : AdminService) (q : option VaultRequest)
    : Status * list byte * AdminService :=
  if negb (authorized env ctx) then (unauthenticated, [], a)
  else match q with
  | None => (vault_required, [], a)
  | Some q =>
    if negb (vault_request_ok q) then (vault_required, [], a)
    else match resolve_token a (vq_slot q) with
    | inl err => (mkStatus NOT_FOUND err, [], a)
    | inr t =>
      match restore a t (vq_path q) (vq_password q) with
      | Ok t => (GrpcOk, bytes_of "OK", put_token a (vq_slot q) t)
      | Throw e => (error_reply e, a)
      end
    end
  end.

(** ** Signatures *)

Definition to_int64 (v : option (list byte)) : Z :=
  match v with Some s => default 0 (stoll s) | None => 0 end.

Record SignatureDetail : Type := mkDetail {
  sd_id : list byte;
  sd_created_at : Z;
  sd_slot_id : Z;
  sd_token_label : list byte;
  sd_key_id : list byte;
  sd_key_fingerprint : list byte;
  sd_mechanism : list byte;
  sd_payload_digest : list byte;
  sd_signature_b64 : list byte;
  sd_session_handle : list byte;
  sd_user_label : list byte;
  sd_app_context : list byte;
  sd_ledger_tx_id : list byte;
  sd_ledger_block_num : Z;
  sd_ledger_tx_time : list byte;
  sd_ledger_status : list byte;
  sd_pqc_algo : list byte;
  sd_signature_pqc_b64 : list byte;
  sd_key_fingerprint_pqc : list byte
}.

(** [None] when it answers [false]. *)
Definition fill_signature_detail (row : list (option (list byte))) : option SignatureDetail :=
  if Nat.ltb (length row) 21 then None
  else
    let cell i := nth i row None in
    let str i := default [] (cell i) in
    Some (mkDetail (str 0) (to_int64 (cell 1)) (u32 (to_int64 (cell 2))) (str 3) (str 4) (str 5) (str 6) (str 7) (str 8)
            (str 9) (str 10) (str 11) (str 12) (to_int64 (cell 13)) (str 14) (str 17) (str 18) (str 19) (str 20))%nat.

(** The database and the token, when both are given. *)
Definition signature_store (a : AdminService) : option (Database * v_TokenCore_M1) :=
  match ad_db a, service_token a with Some d, Some t => Some (d, t) | _, _ => None end.

Definition GetSignature (env : AdminEnv) (a : AdminService) (q : option (list byte)) : Status * option SignatureDetail :=
  match q with
  | None => (invalid_request, None)
  | Some id =>
    match signature_store a with
    | None => (not_configured, None)
    | Some (d, _) =>
      if bool_decide (id = []) then (refuse INVALID_ARGUMENT "signature_id is required", None)
      else match get_signature_by_id (ae_fault env) (sig_conn d) id with
      | None => (mkStatus NOT_FOUND (bytes_of "signature not found: " ++ id), None)
      | Some row => (GrpcOk, fill_signature_detail row)
      end
    end
  end.

Record SignatureQueryRequest : Type := mkSigQuery { sq_fingerprint : list byte; sq_start : Z; sq_end : Z; sq_limit : Z }.

(** The loop over the identifiers. *)
Fixpoint emit_records (env : AdminEnv) (c : Conn) (limit emitted : Z) (ids : list (list byte)) : list SignatureDetail :=
  match ids with
  | [] => []
  | id :: ids =>
    if (0 <? limit) && (limit <=? emitted) then []
    else match get_signature_by_id (ae_fault env) c id with
    | None => emit_records env c limit emitted ids
    | Some row =>
      match fill_signature_detail row with
      | None => emit_records env c limit emitted ids
      | Some d => d :: emit_records env c limit (u32 (emitted + 1)) ids
      end
    end
  end.

Definition query_ids (env : AdminEnv) (c : Conn) (q : SignatureQueryRequest) : list (list byte) :=
  if negb (bool_decide (sq_fingerprint q = [])) then get_signature_ids_by_key_fingerprint (ae_select_fault env) c (sq_fingerprint q)
  else get_signature_ids_by_time_range (ae_select_fault env) c (sq_start q) (sq_end q).

Definition QuerySignatures (env : AdminEnv) (a : AdminService) (q : option SignatureQueryRequest) : Status * list SignatureDetail :=
  match q with
  | None => (invalid_request, [])
  | Some q =>
    match signature_store a with
    | None => (not_configured, [])
    | Some (d, _) =>
      if bool_decide (sq_fingerprint q = []) && (sq_start q =? 0) && (sq_end q =? 0)
      then (refuse INVALID_ARGUMENT "provide key_fingerprint or a time range", [])
      else (GrpcOk, emit_records env (sig_conn d) (sq_limit q) 0 (query_ids env (sig_conn d) q))
    end
  end.

Record VerifyResponse : Type := mkVerifyResponse {
  vr_record_found : bool;
  vr_valid : bool;
  vr_ledger_cross_check_ok : bool;
  vr_ledger_status : list byte;
  vr_ledger_tx_id : list byte;
  vr_ledger_block_num : Z;
  vr_error_detail : list byte;
  vr_integrity_hmac_ok : bool
}.

Definition ledger_matches (r : VerificationResult) : bool :=
  ledger_record_exists r && payload_digest_match r && signature_b64_match r && key_fingerprint_match r.

Definition verify_response (r : VerificationResult) (check_ledger : bool) : VerifyResponse :=
  let ledger_ok := if check_ledger then ledger_matches r else true in
  mkVerifyResponse (local_record_exists r) (local_record_exists r && integrity_hmac_ok r && ledger_ok) ledger_ok
    (if ledger_ok && ledger_record_exists r then COMMITTED else if negb (local_record_exists r) then [] else PENDING)
    (default [] (v_ledger_tx_id r)) (default 0 (v_ledger_block_num r)) (default [] (error_detail r)) (integrity_hmac_ok r).

Definition VerifySignature (env : AdminEnv) (a : AdminService) (q : option (list byte * bool)) : Status * option VerifyResponse :=
  match q with
  | None => (invalid_request, None)
  | Some (id, check_ledger) =>
    match signature_store a with
    | None => (not_configured, None)
    | Some (d, t) =>
      if bool_decide (id = []) then (refuse INVALID_ARGUMENT "signature_id is required", None)
      else (GrpcOk, Some (verify_response
              (verify_signature (ae_fault env) t (sig_conn d) (option_map lp_get_record (ad_ledger a)) id check_ledger) check_ledger))
    end
  end.

(** ** Records to anchor *)

Definition ListPendingLedgerCommits (env : AdminEnv) (a : AdminService) : Status * list (list byte) :=
  match ad_db a with
  | None => (not_configured, [])
  | Some d => (GrpcOk, scan_pending_ids (ae_fault env) (sig_conn d))
  end.

(** The status, the text and the number of records submitted. *)
Definition RetryLedgerCommits (env : AdminEnv) (ctx : ServerContext) (a : AdminService) : Status * (list byte * Z) * AdminService :=
  if negb (authorized env ctx) then (unauthenticated, ([], 0), a)
  else match ad_db a with
  | None => (not_configured, ([], 0), a)
  | Some d =>
    match load_pending_records (ae_fault env) (sig_conn d) with
    | [] => (GrpcOk, (bytes_of "OK", 0), a)
    | records =>
      match ad_worker a with
      | None => (refuse FAILED_PRECONDITION "ledger worker not configured", ([], 0), a)
      | Some w => (GrpcOk, (bytes_of "OK", u32 (len records)), with_worker a (Some (fold_left submit_record records w)))
      end
    end
  end.

(** ** Subscribers *)

Record Subscriber : Type := mkSub {
  su_id : list byte;
  su_name : list byte;
  su_channel : list byte;
  su_address : list byte;
  su_min_severity : list byte;
  su_event_filter : list byte;
  su_enabled : bool
}.

Definition fill_subscriber (row : list (option (list byte))) : option Subscriber :=
  if Nat.ltb (length row) 7 then None
  else
    let str i := default [] (nth i row None) in
    Some (mkSub (str 0%nat) (str 1%nat) (str 2%nat) (str 3%nat) (str 4%nat) (str 5%nat) (bool_decide (str 6%nat = bytes_of "true"))).

Definition put_notify (a : AdminService) (d : Database) (t : NotifyTables) : AdminService :=
  with_db a (Some (mkDatabase (sig_conn d) t)).

Definition subscriber_complete (q : Subscriber) : bool :=
  negb (bool_decide (su_id q = [])) && negb (bool_decide (su_channel q = []))
  && negb (bool_decide (su_address q = [])) && negb (bool_decide (su_min_severity q = [])).

Definition AddSubscriber (env : AdminEnv) (ctx : ServerContext) (a : AdminService) (q : option Subscriber)
    : Status * list byte * AdminService :=
  if negb (authorized env ctx) then (unauthenticated, [], a)
  else match q with
  | None => (invalid_request, [], a)
  | Some q =>
    match ad_db a with
    | None => (not_configured, [], a)
    | Some d =>
      if negb (subscriber_complete q)
      then (refuse INVALID_ARGUMENT "id, channel, address and min_severity are required", [], a)
      else
        let (ok, t) := add_subscriber (ae_notify_fault env) (notify_tables d) (su_id q) (su_name q) (su_channel q)
                         (su_address q) (su_min_severity q) (nullable (su_event_filter q)) (su_enabled q) in
        let a := put_notify a d t in
        if negb ok then (refuse FAILED_PRECONDITION "failed to add subscriber",
                         bytes_of "ERROR:add_subscriber failed (id already exists?)", a)
        else (GrpcOk, bytes_of "OK", a)
    end
  end.

(** The loop over the identifiers; an exception of [get_subscriber] leaves the call. *)
Fixpoint list_subscribers (fault : bool) (t : NotifyTables) (ids : list (list byte)) : res (list Subscriber) :=
  match ids with
  | [] => Ok []
  | id :: ids =>
    let* row := get_subscriber fault t id in
    let* rest := list_subscribers fault t ids in
    Ok (match row with Some row => option_list (fill_subscriber row) | None => [] end ++ rest)
  end.

Definition ListSubscribers (env : AdminEnv) (a : AdminService) : res (Status * list Subscriber) :=
  match ad_db a with
  | None => Ok (not_configured, [])
  | Some d =>
    let* subs := list_subscribers (ae_notify_fault env) (notify_tables d) (get_all_subscriber_ids (ae_notify_fault env) (notify_tables d)) in
    Ok (GrpcOk, subs)
  end.

Definition RemoveSubscriber (env : AdminEnv) (a : AdminService) (q : option (list byte)) : Status * list byte * AdminService :=
  match q with
  | None => (invalid_request, [], a)
  | Some id =>
    match ad_db a with
    | None => (not_configured, [], a)
    | Some d =>
      if bool_decide (id = []) then (refuse INVALID_ARGUMENT "id is required", [], a)
      else (GrpcOk, bytes_of "OK", put_notify a d (snd (remove_subscriber (ae_notify_fault env) (notify_tables d) id)))
    end
  end.

Record LogQuery : Type := mkLogQuery { lq_subscriber : list byte; lq_since : Z; lq_limit : Z }.

Definition QueryNotificationLog (env : AdminEnv) (a : AdminService) (q : option LogQuery) : Status * list LogRow :=
  match q with
  | None => (invalid_request, [])
  | Some q =>
    match ad_db a with
    | None => (not_configured, [])
    | Some d => (GrpcOk, map (fun e => mkLogRow (lg_id e) (lg_sent_at e) (lg_event_id e) (lg_subscriber_id e) (lg_outcome e)
                                        (u32 (lg_attempt_count e)) (lg_error_detail e))
                           (query_log (ae_notify_fault env) (notify_tables d) (nullable (lq_subscriber q)) (lq_since q) (to_int (lq_limit q))))
    end
  end.

(** ** The integrity report *)

Record IntegrityReport : Type := mkReport {
  ir_ok : bool;
  ir_records_checked : Z;
  ir_rows_ok : Z;
  ir_rows_failed : Z;
  ir_failures : list (list byte);
  ir_chain_ok : bool;
  ir_chain_error : list byte;
  ir_committed_checked : Z;
  ir_cross_ok : Z;
  ir_cross_failed : Z;
  ir_mismatches : list (list byte);
  ir_tail_anchored : list byte
}.

(** The report on the audit log. *)
Definition chain_report (a : AdminService) : IntegrityReport :=
  let report ok err tail := mkReport ok 0 0 0 [] ok err 0 0 0 [] tail in
  match ad_audit a with
  | Some (HashChained log file) =>
    let tail := match ad_ledger a with Some l => default [] (lp_latest_tail l) | None => [] end in
    match verify_chain SignatureStore.hmac_sha256 log file with
    | Some bad => report false (bytes_of "first bad record at line " ++ to_string (Z.of_nat bad)) tail
    | None => report true [] tail
    end
  | _ => report true [] []
  end.

(** One row: its HMAC, and for an anchored one the transaction on the ledger. *)
Definition report_integrity (good : bool) (id : list byte) (r : IntegrityReport) : IntegrityReport :=
  if good
  then mkReport (ir_ok r) (ir_records_checked r) (ir_rows_ok r + 1) (ir_rows_failed r) (ir_failures r) (ir_chain_ok r) (ir_chain_error r)
         (ir_committed_checked r) (ir_cross_ok r) (ir_cross_failed r) (ir_mismatches r) (ir_tail_anchored r)
  else mkReport false (ir_records_checked r) (ir_rows_ok r) (ir_rows_failed r + 1) (ir_failures r ++ [id]) (ir_chain_ok r) (ir_chain_error r)
         (ir_committed_checked r) (ir_cross_ok r) (ir_cross_failed r) (ir_mismatches r) (ir_tail_anchored r).

Definition report_committed (r : IntegrityReport) : IntegrityReport :=
  mkReport (ir_ok r) (ir_records_checked r) (ir_rows_ok r) (ir_rows_failed r) (ir_failures r) (ir_chain_ok r) (ir_chain_error r)
    (ir_committed_checked r + 1) (ir_cross_ok r) (ir_cross_failed r) (ir_mismatches r) (ir_tail_anchored r).

Definition mismatch_text (id local_tx : list byte) (entry : option LedgerEntry) : list byte :=
  id ++ bytes_of ": local tx=" ++ local_tx
  ++ match entry with Some e => bytes_of " ledger tx=" ++ e_tx_id e | None => bytes_of " (ledger missing)" end.

Definition report_cross (id local_tx : list byte) (entry : option LedgerEntry) (r : IntegrityReport) : IntegrityReport :=
  if bool_decide (option_map e_tx_id entry = Some local_tx)
  then mkReport (ir_ok r) (ir_records_checked r) (ir_rows_ok r) (ir_rows_failed r) (ir_failures r) (ir_chain_ok r) (ir_chain_error r)
         (ir_committed_checked r) (ir_cross_ok r + 1) (ir_cross_failed r) (ir_mismatches r) (ir_tail_anchored r)
  else mkReport false (ir_records_checked r) (ir_rows_ok r) (ir_rows_failed r) (ir_failures r) (ir_chain_ok r) (ir_chain_error r)
         (ir_committed_checked r) (ir_cross_ok r) (ir_cross_failed r + 1) (ir_mismatches r ++ [mismatch_text id local_tx entry]) (ir_tail_anchored r).

Definition check_record (env : AdminEnv) (a : AdminService) (d : Database) (t : v_TokenCore_M1) (r : IntegrityReport) (id : list byte)
    : IntegrityReport :=
  let r := report_integrity (verify_integrity (ae_fault env) t (sig_conn d) id) id r in
  match get_by_id (ae_fault env) (sig_conn d) id with
  | None => r
  | Some row =>
    if Nat.ltb (length row) 18 || negb (bool_decide (default [] (nth 17 row None) = COMMITTED)) then r
    else
      let r := report_committed r in
      match ad_ledger a with
      | None => r
      | Some l => report_cross id (default [] (nth 12 row None)) (lp_get_record l id) r
      end
  end.

Definition VerifyIntegrity (env : AdminEnv) (a : AdminService) : Status * IntegrityReport :=
  let r := chain_report a in
  match signature_store a with
  | None => (not_configured, r)
  | Some (d, t) =>
    let ids := get_all_ids (ae_order env) (ae_select_fault env) (sig_conn d) in
    let r := mkReport (ir_ok r) (len ids) 0 0 [] (ir_chain_ok r) (ir_chain_error r) 0 0 0 [] (ir_tail_anchored r) in
    (GrpcOk, fold_left (check_record env a d t) ids r)
  end.

(** ** The enclave *)

Definition GetEnclaveStatus (env : AdminEnv) (ctx : ServerContext) (a : AdminService) : Status * option (string * EnclaveReport) :=
  if negb (authorized env ctx) then (unauthenticated, None)
  else match ad_kvm a with
  | Some s => (GrpcOk, Some (to_state_str (en_state s), s))
  | None => (GrpcOk, Some ("Unknown"%string, mkEnclave Unknown (ae_has_kvm env) false false [] (bytes_of "kvm_module/guest/payload.elf") (-1) 256
                             (bytes_of "enclave provider not injected (composition root not wired)") false false false))
  end.

Definition GetEnclaveMeasurement (env : AdminEnv) (ctx : ServerContext) (a : AdminService) : Status * option (bool * list byte * list byte) :=
  if negb (authorized env ctx) then (unauthenticated, None)
  else match ad_kvm a with
  | Some s => (GrpcOk, Some (en_has_kvm s, en_measurement_hex s, en_error_detail s))
  | None => (GrpcOk, Some (ae_has_kvm env, [], bytes_of "enclave provider not injected"))
  end.

(** [Metrics]: the text of the registry ([Support], Module Metrics). *)
Definition Metrics (prometheus_text : list byte) (response_null : bool) : Status * list byte :=
  if response_null then (invalid_request, []) else (GrpcOk, prometheus_text).

(** ** Calls *)

Inductive Rpc : Type :=
| RLogin (q : option AdminLoginRequest)
| RBackup (q : option VaultRequest)
| RRestore (q : option VaultRequest)
| RGet (q : option (list byte))
| RQuery (q : option SignatureQueryRequest)
| RVerify (q : option (list byte * bool))
| RPending
| RRetry
| RAdd (q : option Subscriber)
| RList
| RRemove (q : option (list byte))
| RLog (q : option LogQuery)
| RIntegrity
| REnclave
| RMeasurement
| RMetrics (prometheus_text : list byte) (response_null : bool).

(** The status, absent when the call does not return or throws, and the service. *)
Definition call (env : AdminEnv) (ctx : ServerContext) (a : AdminService) (rpc : Rpc) : option Status * AdminService :=
  match rpc with
  | RLogin q => let '(s, _, a) := AdminLogin env a q in (Some s, a)
  | RBackup q => let (s, a) := BackupToken env ctx a q in (option_map fst s, a)
  | RRestore q => let '(s, _, a) := RestoreToken env ctx a q in (Some s, a)
  | RGet q => (Some (fst (GetSignature env a q)), a)
  | RQuery q => (Some (fst (QuerySignatures env a q)), a)
  | RVerify q => (Some (fst (VerifySignature env a q)), a)
  | RPending => (Some (fst (ListPendingLedgerCommits env a)), a)
  | RRetry => let '(s, _, a) := RetryLedgerCommits env ctx a in (Some s, a)
  | RAdd q => let '(s, _, a) := AddSubscriber env ctx a q in (Some s, a)
  | RList => (match ListSubscribers env a with Ok (s, _) => Some s | Throw _ => None end, a)
  | RRemove q => let '(s, _, a) := RemoveSubscriber env a q in (Some s, a)
  | RLog q => (Some (fst (QueryNotificationLog env a q)), a)
  | RIntegrity => (Some (fst (VerifyIntegrity env a)), a)
  | REnclave => (Some (fst (GetEnclaveStatus env ctx a)), a)
  | RMeasurement => (Some (fst (GetEnclaveMeasurement env ctx a)), a)
  | RMetrics text null => (Some (fst (Metrics text null)), a)
  end.

(** ** Authorization *)

(** The items of the list, as [cn_loop] cuts them. *)
Fixpoint csv_items (item csv : list byte) : list (list byte) :=
  match csv with
  | [] => if bool_decide (item = []) then [] else [item]
  | c :: csv => if u8 c =? 44 then item :: csv_items [] csv else csv_items (item ++ [c]) csv
  end.

Lemma cn_loop_items cn item csv : cn_loop cn item csv = existsb (item_is cn) (csv_items item csv).
Proof.
  revert item. induction csv as [|c csv IH]; intros item; cbn [cn_loop csv_items].
  - destruct (bool_decide (item = [])); [done|]. cbn. by rewrite orb_false_r.
  - destruct (u8 c =? 44); cbn [existsb]; by rewrite IH.
Qed.

Lemma login_store now t ut p n : v_object_store_ (snd (Token.login now t ut p n)) = v_object_store_ t.
Proof.
  unfold Token.login, v_login, v_verify_user_pin, v_verify_so_pin. destruct (null_with_length p n); [done|].
  destruct (ut =? CKU_USER); [by destruct (v_verify_pin_with_lockout _ _ _ _ _)|].
  destruct (ut =? CKU_SO); [by destruct (v_verify_pin_with_lockout _ _ _ _ _)|done].
Qed.

Lemma slot_token_put a slot t slot' :
  slot_token (put_token a slot t) slot' =
  if slot' =? slot then match Slots.v_get_slot (ad_slots a) slot with Some _ => Some t | None => None end
  else slot_token a slot'.
Proof.
  unfold slot_token, put_token, Slots.v_get_slot. cbn [with_slots ad_slots Slots.v_slots_].
  destruct (Z.eqb_spec slot' slot) as [->|Hne]; [|by rewrite lookup_alter_ne].
  rewrite lookup_alter_eq. by destruct (Slots.v_slots_ _ !! slot).
Qed.

Lemma resolve_token_spec a slot t : resolve_token a slot = inr t <-> slot_token a slot = Some t.
Proof.
  unfold resolve_token, slot_token. destruct (Slots.v_get_slot _ _) as [s|]; [|done]. destruct (Slots.get_token s); [|done].
  split; congruence.
Qed.

(** What a caller without credentials must not change. *)
Record untouched (a a' : AdminService) : Prop := {
  ut_files : ad_files a' = ad_files a;
  ut_worker : ad_worker a' = ad_worker a;
  ut_records : option_map sig_conn (ad_db a') = option_map sig_conn (ad_db a);
  ut_objects : forall slot, option_map v_object_store_ (slot_token a' slot) = option_map v_object_store_ (slot_token a slot)
}.

Lemma untouched_refl a : untouched a a.
Proof. by split. Qed.

Lemma admin_login_untouched env a slot t ut pin caller :
  slot_token a slot = Some t -> untouched a (snd (admin_login env a slot t ut pin caller)) /\
  ad_db (snd (admin_login env a slot t ut pin caller)) = ad_db a.
Proof.
  intros Ht. unfold admin_login. destruct (_ && _); [by split; [apply untouched_refl|]|].
  pose proof (login_store (ae_now_ms env) t ut (Some pin) (len pin)) as Hs.
  destruct (Token.login _ _ _ _ _) as [rv t']. cbn [snd] in Hs.
  assert (Hp : forall slot', option_map v_object_store_ (slot_token (put_token a slot t') slot') = option_map v_object_store_ (slot_token a slot')).
  { intros slot'. rewrite slot_token_put. destruct (Z.eqb_spec slot' slot) as [->|]; [|done]. rewrite Ht. unfold slot_token in Ht.
    destruct (Slots.v_get_slot _ _); [|done]. cbn. by rewrite Hs. }
  destruct (negb _); [by split; [split|]|]. cbn [ad_bus ad_audit put_token with_slots].
  destruct (ad_bus a), (ad_audit a); (split; [split|]; try done).
Qed.

(** The calls that write: a backup file, a token, the ledger's queue, a subscriber. *)
Definition guarded (rpc : Rpc) : bool :=
  match rpc with RBackup _ | RRestore _ | RRetry | RAdd _ => true | _ => false end.

(** A caller without what the configuration asks for: with a list of names, an
    authenticated identity on it; else, with a token, metadata that carries it. *)
Definition lacks_credentials (env : AdminEnv) (ctx : ServerContext) : Prop :=
  let cns := env_val (VHSM_ADMIN_ALLOWED_CNS env) in
  let token := env_val (VHSM_ADMIN_TOKEN env) in
  (cns <> [] /\ (peer_authenticated ctx = false \/ forall cn, cn ∈ peer_identities ctx -> cn_in_list cn cns = false)) \/
  (cns = [] /\ token <> [] /\ (TOKEN_KEY, token) ∉ client_metadata ctx).

Lemma lacks_unauthorized env ctx : lacks_credentials env ctx -> authorized env ctx = false.
Proof.
  unfold lacks_credentials, authorized, require_admin. cbn zeta. intros [[Hc H]|(-> & Ht & Hm)].
  - rewrite bool_decide_eq_false_2 by done. cbn [negb]. destruct H as [->|H]; [done|]. apply andb_false_intro2.
    apply not_true_is_false. intros (cn & Hi & E)%existsb_exists. by rewrite H in E by by apply list_elem_of_In.
  - rewrite bool_decide_eq_true_2, bool_decide_eq_false_2 by done. cbn [negb].
    destruct (List.find _ _) as [[k v]|] eqn:E; [|done]. apply find_some in E as [Hi%list_elem_of_In Hk].
    apply bool_decide_eq_true in Hk. cbn in Hk. subst k. apply bool_decide_eq_false_2. by intros ->.
Qed.

(** C27: Without credentials nothing of value changes: when the caller has neither an
    authenticated identity on the configured list nor, without a list, the configured
    token, BackupToken, RestoreToken, RetryLedgerCommits and AddSubscriber answer
    UNAUTHENTICATED and leave the service as it is; and whichever of the sixteen calls
    of the service is made, the vault files, the records, what is queued for
    the ledger and the objects of every token stay as they were; the subscribers
    change only through RemoveSubscriber, which is not guarded. *)
Theorem unauthorized_calls_confined (env : AdminEnv) (ctx : ServerContext) (a : AdminService) (rpc : Rpc)
    (Hlacks : lacks_credentials env ctx) :
  let (st, a') := call env ctx a rpc in
  (guarded rpc = true -> st = Some unauthenticated /\ a' = a) /\ untouched a a' /\
  (ad_db a' = ad_db a \/ exists id, rpc = RRemove (Some id)).
Proof.
  pose proof (lacks_unauthorized env ctx Hlacks) as Hno.
  destruct rpc; cbn [call guarded]; unfold BackupToken, RestoreToken, RetryLedgerCommits, AddSubscriber, GetEnclaveStatus, GetEnclaveMeasurement;
    rewrite ?Hno; cbn [negb option_map fst];
    try (split_and!; [done|apply untouched_refl|by left]).
  - unfold AdminLogin. destruct q as [q|]; [|split_and!; [done|apply untouched_refl|by left]].
    destruct (resolve_token a (al_slot q)) as [|t] eqn:Et; [split_and!; [done|apply untouched_refl|by left]|].
    apply resolve_token_spec in Et. destruct (admin_login_untouched env a (al_slot q) t (if al_so q then CKU_SO else CKU_USER) (al_pin q) (al_caller q) Et) as [H1 H2].
    destruct (admin_login _ _ _ _ _ _ _) as [rv a']. cbn [snd] in *.
    destruct (rv =? CKR_OK); [|destruct (rv =? CKR_PIN_INCORRECT); [|destruct (rv =? CKR_PIN_LOCKED)]]; (split_and!; [done|done|by left]).
  - unfold RemoveSubscriber. destruct q as [id|]; [|split_and!; [done|apply untouched_refl|by left]].
    destruct (ad_db a) as [d|] eqn:Ed; [|split_and!; [done|apply untouched_refl|by left]].
    destruct (bool_decide (id = [])); [split_and!; [done|apply untouched_refl|by left]|].
    split_and!; [done| |right; by exists id]. split; try done. by rewrite Ed.
Qed.

(** ** What the integrity report says *)

Definition row_good (env : AdminEnv) (d : Database) (t : v_TokenCore_M1) (id : list byte) : bool :=
  verify_integrity (ae_fault env) t (sig_conn d) id.

(** The transaction an anchored row names. *)
Definition claimed_tx (env : AdminEnv) (d : Database) (id : list byte) : option (list byte) :=
  match get_by_id (ae_fault env) (sig_conn d) id with
  | Some row => if bool_decide (default [] (nth 17 row None) = COMMITTED) then Some (default [] (nth 12 row None)) else None
  | None => None
  end.

Definition on_ledger (env : AdminEnv) (l : LedgerPort) (d : Database) (id : list byte) : bool :=
  match claimed_tx env d id with
  | Some tx => bool_decide (option_map e_tx_id (lp_get_record l id) = Some tx)
  | None => true
  end.

Definition ledger_agrees (env : AdminEnv) (a : AdminService) (d : Database) (id : list byte) : bool :=
  match ad_ledger a with Some l => on_ledger env l d id | None => true end.

Definition is_claimed (env : AdminEnv) (d : Database) (id : list byte) : bool := bool_decide (is_Some (claimed_tx env d id)).

Definition mismatches (env : AdminEnv) (a : AdminService) (d : Database) (ids : list (list byte)) : list (list byte) :=
  List.filter (fun id => negb (ledger_agrees env a d id)) ids.

(** The report [r] extended by the rows [ids]. *)
Record extends (env : AdminEnv) (a : AdminService) (d : Database) (t : v_TokenCore_M1) (ids : list (list byte)) (r r' : IntegrityReport) : Prop := {
  ex_ok : ir_ok r' = ir_ok r && forallb (row_good env d t) ids && forallb (ledger_agrees env a d) ids;
  ex_checked : ir_records_checked r' = ir_records_checked r;
  ex_good : ir_rows_ok r' = ir_rows_ok r + len (List.filter (row_good env d t) ids);
  ex_failures : ir_failures r' = ir_failures r ++ List.filter (fun id => negb (row_good env d t id)) ids;
  ex_failed : ir_rows_failed r' = ir_rows_failed r + len (List.filter (fun id => negb (row_good env d t id)) ids);
  ex_chain : ir_chain_ok r' = ir_chain_ok r /\ ir_chain_error r' = ir_chain_error r /\ ir_tail_anchored r' = ir_tail_anchored r;
  ex_committed : ir_committed_checked r' = ir_committed_checked r + len (List.filter (is_claimed env d) ids);
  ex_cross_failed : ir_cross_failed r' = ir_cross_failed r + len (mismatches env a d ids);
  ex_cross_ok : is_Some (ad_ledger a) -> ir_cross_ok r' + ir_cross_failed r' - ir_committed_checked r'
                  = ir_cross_ok r + ir_cross_failed r - ir_committed_checked r
}.

Lemma get_by_id_width fault c id row : get_by_id fault c id = Some row -> Nat.ltb (length row) 18 = false.
Proof. unfold get_by_id. destruct (select_by_id _ _ _) as [[x|]|]; [|done..]. intros [= <-]. by vm_compute. Qed.

Lemma extends_one env a d t r id : extends env a d t [id] r (check_record env a d t r id).
Proof.
  unfold check_record, report_integrity.
  split; unfold mismatches, ledger_agrees, on_ledger, is_claimed, claimed_tx; cbn [List.filter forallb]; fold (row_good env d t id);
    destruct (row_good env d t id) eqn:Eg; cbn [negb];
    (destruct (get_by_id _ _ _) as [row|] eqn:Er; [rewrite (get_by_id_width _ _ _ _ Er); cbn [orb]; destruct (bool_decide (default [] (nth 17 row None) = COMMITTED)); cbn [negb]|]);
    unfold report_committed, report_cross;
    (destruct (ad_ledger a) as [l|]; [try destruct (bool_decide (option_map e_tx_id _ = _))|]);
    cbn [ir_ok ir_records_checked ir_rows_ok ir_rows_failed ir_failures ir_chain_ok ir_chain_error ir_committed_checked ir_cross_ok ir_cross_failed ir_mismatches ir_tail_anchored negb];
    rewrite ?andb_true_r, ?andb_false_r, ?app_nil_r, ?bool_decide_eq_true_2 by done;
    rewrite ?bool_decide_eq_false_2 by (by intros [? ?]); rewrite ?len_cons, ?len_nil; try done; try lia; try (intros; lia).
Qed.

Lemma extends_nil env a d t r : extends env a d t [] r r.
Proof. split; unfold mismatches; cbn [List.filter forallb]; rewrite ?andb_true_r, ?app_nil_r, ?len_nil; try done; lia. Qed.

Lemma extends_app env a d t ids ids' r r' r'' :
  extends env a d t ids r r' -> extends env a d t ids' r' r'' -> extends env a d t (ids ++ ids') r r''.
Proof.
  intros [H1 H2 H3 H4 H5 (H6 & H6b & H6c) H7 H8 H9] [K1 K2 K3 K4 K5 (K6 & K6b & K6c) K7 K8 K9].
  split; unfold mismatches in *; rewrite ?List.filter_app, ?forallb_app, ?len_app; try lia; try congruence.
  - rewrite K1, H1. by destruct (ir_ok r), (forallb (row_good env d t) ids), (forallb (row_good env d t) ids'), (forallb (ledger_agrees env a d) ids).
  - rewrite K4, H4. by rewrite (assoc_L (++)).
  - split_and!; congruence.
  - intros Hs. specialize (H9 Hs). specialize (K9 Hs). lia.
Qed.

Lemma extends_fold env a d t ids r : extends env a d t ids r (fold_left (check_record env a d t) ids r).
Proof.
  revert r. induction ids as [|id ids IH]; intros r; [apply extends_nil|]. cbn [fold_left].
  apply (extends_app env a d t [id] ids r (check_record env a d t r id)); [apply extends_one|apply IH].
Qed.

(** The audit log has no broken link. *)
Definition chain_intact (a : AdminService) : bool :=
  match ad_audit a with
  | Some (HashChained log file) => bool_decide (verify_chain SignatureStore.hmac_sha256 log file = None)
  | _ => true
  end.

Lemma chain_report_ok a : ir_ok (chain_report a) = chain_intact a /\ ir_chain_ok (chain_report a) = chain_intact a.
Proof.
  unfold chain_report, chain_intact. destruct (ad_audit a) as [[log file|rs]|]; [|done..]. by destruct (verify_chain _ _ _).
Qed.

(** The integrity report is exact: every row is checked once, the rows named as
    failures are exactly those whose HMAC does not verify, in order, the counts of
    good and bad rows and of the checks against the ledger add up, and the report is
    positive exactly when the audit log has no broken link, every row verifies and,
    where a ledger is configured, every anchored row names the transaction the
    ledger has for it. *)
Theorem integrity_report_exact (env : AdminEnv) (a : AdminService) (d : Database) (t : v_TokenCore_M1)
    (Hs : signature_store a = Some (d, t)) :
  let ids := get_all_ids (ae_order env) (ae_select_fault env) (sig_conn d) in
  let (st, r) := VerifyIntegrity env a in
  st = GrpcOk /\ ir_records_checked r = len ids /\ ir_rows_ok r + ir_rows_failed r = len ids /\
  ir_failures r = List.filter (fun id => negb (row_good env d t id)) ids /\ ir_rows_failed r = len (ir_failures r) /\
  ir_chain_ok r = chain_intact a /\ ir_committed_checked r = len (List.filter (is_claimed env d) ids) /\
  ir_cross_failed r = len (mismatches env a d ids) /\
  (is_Some (ad_ledger a) -> ir_cross_ok r + ir_cross_failed r = ir_committed_checked r) /\
  (ir_ok r = true <-> chain_intact a = true /\ (forall id, id ∈ ids -> row_good env d t id = true) /\
     (forall id l tx, id ∈ ids -> ad_ledger a = Some l -> claimed_tx env d id = Some tx -> option_map e_tx_id (lp_get_record l id) = Some tx)).
Proof.
  intros ids. unfold VerifyIntegrity. rewrite Hs. fold ids. destruct (chain_report_ok a) as [Hc1 Hc2].
  set (r0 := mkReport _ _ _ _ _ _ _ _ _ _ _ _). destruct (extends_fold env a d t ids r0) as [H1 H2 H3 H4 H5 (H6 & _) H7 H8 H9].
  cbn [r0 ir_ok ir_records_checked ir_rows_ok ir_rows_failed ir_failures ir_chain_ok ir_committed_checked ir_cross_ok ir_cross_failed] in *.
  assert (Hsum : len (List.filter (row_good env d t) ids) + len (List.filter (fun id => negb (row_good env d t id)) ids) = len ids).
  { clear. induction ids as [|x l IH]; [done|]. cbn [List.filter]. destruct (row_good env d t x); cbn [negb]; rewrite ?len_cons in *; lia. }
  split_and!; [done|done|lia|by rewrite H4|rewrite H4; cbn [app]; lia|by rewrite H6|lia|lia|intros Hl; specialize (H9 Hl); lia|].
  rewrite H1, Hc1, !andb_true_iff, !forallb_forall. setoid_rewrite list_elem_of_In. split.
  - intros [[Hch Hg] Hl]. split_and!; [done|done|]. intros id l tx Hin Hlp Htx. specialize (Hl id Hin). unfold ledger_agrees, on_ledger in Hl.
    rewrite Hlp, Htx in Hl. by apply bool_decide_eq_true in Hl.
  - intros (Hch & Hg & Hl). split_and!; [done|done|]. intros id Hin. unfold ledger_agrees, on_ledger.
    destruct (ad_ledger a) as [l|] eqn:El; [|done]. destruct (claimed_tx env d id) as [tx|] eqn:Et; [|done]. apply bool_decide_eq_true. by apply (Hl id l tx).
Qed.

(** ** Login and queries *)

(** Exactly one event and one line of the audit log, when both are configured. *)
Definition announced (env : AdminEnv) (ut : Z) (caller : list byte) (a a' : AdminService) : Prop :=
  exists t', (ad_bus a', ad_audit a') =
    match ad_bus a, ad_audit a with
    | Some b, Some l => (Some (publish_event b (login_event env t' ut caller)),
                         Some (audit_append env l (bytes_of "ADMIN_LOGIN-" ++ int_to_string (ae_now_ms env)) (bytes_of "ADMIN_LOGIN")))
    | b, l => (b, l)
    end.

Definition role_type (q : AdminLoginRequest) : Z := if al_so q then CKU_SO else CKU_USER.

(** A login through the service needs the PIN: for a slot with a token it is
    accepted exactly when the role is not locked and the PIN is the role's PIN; an
    accepted login announces itself once on the bus and in the audit log and counts
    no failure, a refused one announces nothing, answers why, and counts against the
    lockout of the role just as a login of the module does. *)
Theorem admin_login_exact (env : AdminEnv) (a : AdminService) (q : AdminLoginRequest) (t : v_TokenCore_M1)
    (Ht : slot_token a (al_slot q) = Some t) (Hwf : wf_token t) (Hlen : is_u64 (len (al_pin q))) :
  let role := abs_role (role_of t (role_for (role_type q))) in
  let answer := a_verify (not_init_code (role_for (role_type q))) (v_max_failed_attempts_ t) role (al_pin q) in
  let '(st, text, a') := AdminLogin env a (Some q) in
  (st = GrpcOk <-> a_locked role = false /\ a_pin role = Some (al_pin q)) /\
  (st = GrpcOk -> announced env (role_type q) (al_caller q) a a') /\
  (st <> GrpcOk -> (ad_bus a', ad_audit a') = (ad_bus a, ad_audit a) /\
     s_message st = text /\ text = bytes_of (if fst answer =? CKR_PIN_INCORRECT then "PIN_INCORRECT" else if fst answer =? CKR_PIN_LOCKED then "PIN_LOCKED" else "LOGIN_FAILED")) /\
  (exists t', slot_token a' (al_slot q) = Some t' /\ wf_token t' /\ abs_role (role_of t' (role_for (role_type q))) = snd answer).
Proof.
  intros role answer. unfold AdminLogin. rewrite (proj2 (resolve_token_spec a _ t) Ht). fold (role_type q). unfold admin_login.
  assert (Hut : (role_type q =? CKU_USER) || (role_type q =? CKU_SO) = true) by (unfold role_type; by destruct (al_so q)).
  assert (Hut2 : negb (role_type q =? CKU_USER) && negb (role_type q =? CKU_SO) = false) by (by rewrite <- negb_orb, Hut). rewrite Hut2.
  destruct (token_login_spec (ae_now_ms env) t (role_type q) (Some (al_pin q)) (len (al_pin q)) Hwf) as (t' & -> & Hwf' & Hrole & _);
    [by split; [|intros v [= <-]]|done|done|]. change (bytes_at (Some (al_pin q))) with (al_pin q) in *. fold role answer in Hrole. fold role answer.
  assert (Hok : fst answer = CKR_OK <-> a_locked role = false /\ a_pin role = Some (al_pin q)).
  { split; [intros E; apply a_verify_ok in E; [done|by destruct (role_for _)]|]. intros [H1 H2]. unfold answer, a_verify. rewrite H1, H2. by rewrite bool_decide_eq_true_2. }
  assert (Htok : slot_token (put_token a (al_slot q) t') (al_slot q) = Some t').
  { rewrite slot_token_put, Z.eqb_refl. unfold slot_token in Ht. by destruct (Slots.v_get_slot _ _). }
  destruct (Z.eqb_spec (fst answer) CKR_OK) as [E|E]; cbn [negb ad_bus ad_audit put_token with_slots].
  - destruct (ad_bus a) as [b|] eqn:Eb, (ad_audit a) as [l|] eqn:El; cbv iota beta zeta; rewrite ?Z.eqb_refl;
      (split_and!; [by split; [intros _; apply Hok|]|intros _; exists t'; cbn [ad_bus ad_audit put_token with_slots with_bus_audit]; rewrite Eb, El; reflexivity|intros H; by destruct H|exists t'; split; [exact Htok|done]]).
  - rewrite (proj2 (Z.eqb_neq _ _) E).
    destruct (fst answer =? CKR_PIN_INCORRECT); [|destruct (fst answer =? CKR_PIN_LOCKED)]; cbv iota beta zeta;
      (split_and!; [by split; [|intros H; by apply Hok in H]|done|done|exists t'; split; [exact Htok|done]]).
Qed.

Definition signature_detail (env : AdminEnv) (c : Conn) (id : list byte) : option SignatureDetail :=
  match get_signature_by_id (ae_fault env) c id with Some row => fill_signature_detail row | None => None end.

Lemma emit_records_unlimited env c n ids : emit_records env c 0 n ids = omap (signature_detail env c) ids.
Proof.
  revert n. induction ids as [|id ids IH]; intros n; [done|]. cbn [emit_records omap list_omap andb Z.ltb Z.compare]. unfold signature_detail at 1.
  destruct (get_signature_by_id _ _ _) as [row|]; [|done]. destruct (fill_signature_detail row); [|done]. by rewrite IH.
Qed.

Lemma emit_records_limited env c limit n ids :
  0 < limit < 2 ^ 32 -> 0 <= n -> emit_records env c limit n ids = take (Z.to_nat (limit - n)) (omap (signature_detail env c) ids).
Proof.
  intros Hl. revert n. induction ids as [|id ids IH]; intros n Hn; [cbn; by destruct (Z.to_nat _)|]. cbn [emit_records].
  rewrite (proj2 (Z.ltb_lt 0 limit)) by lia. cbn [andb]. destruct (Z.leb_spec limit n).
  { by replace (Z.to_nat (limit - n)) with 0%nat by lia. }
  cbn [omap list_omap]. unfold signature_detail at 1. destruct (get_signature_by_id _ _ _) as [row|]; [|by apply IH].
  destruct (fill_signature_detail row); [|by apply IH]. replace (Z.to_nat (limit - n)) with (Datatypes.S (Z.to_nat (limit - (n + 1)))) by lia. cbn [take].
  f_equal. replace (u32 (n + 1)) with (n + 1) by (unfold u32; rewrite Z.mod_small; lia). apply IH. lia.
Qed.

(** A query answers the details of the matching records, in their order, as many as
    the limit allows (all of them for the limit 0). *)
Lemma query_signatures_exact env a d t q :
  signature_store a = Some (d, t) -> sq_fingerprint q <> [] \/ sq_start q <> 0 \/ sq_end q <> 0 -> 0 <= sq_limit q < 2 ^ 32 ->
  QuerySignatures env a (Some q) =
    (GrpcOk, let found := omap (signature_detail env (sig_conn d)) (query_ids env (sig_conn d) q) in
             if sq_limit q =? 0 then found else take (Z.to_nat (sq_limit q)) found).
Proof.
  intros Hs Hq Hl. unfold QuerySignatures. rewrite Hs.
  assert (E : bool_decide (sq_fingerprint q = []) && (sq_start q =? 0) && (sq_end q =? 0) = false).
  { destruct Hq as [H|[H|H]]; [by rewrite bool_decide_eq_false_2|..]; rewrite (proj2 (Z.eqb_neq _ _) H); by rewrite ?andb_false_r. }
  rewrite E. cbv zeta. destruct (Z.eqb_spec (sq_limit q) 0) as [->|Hn]; [by rewrite emit_records_unlimited|].
  rewrite emit_records_limited by lia. by rewrite Z.sub_0_r.
Qed.

(** ** Backup and restore *)

Context {CL : Vault.ScryptoLaws C}.

(** A backup through the service restores through the service: when the backup
    answers OK, a restore from that file with that password, into any slot, answers
    OK and gives the slot's token every durable field and the KEK of the token that
    was backed up, and no other slot changes; the backup does answer OK when the
    path is new and the system writes the file, and a second backup to the same
    path is refused and writes nothing. *)
Theorem backup_restores_token (env env2 : AdminEnv) (ctx ctx2 : ServerContext) (a : AdminService) (slot slot2 : Z)
    (path password : list byte) (t t2 : v_TokenCore_M1)
    (Hauth : authorized env ctx = true) (Hauth2 : authorized env2 ctx2 = true)
    (Hreq : path <> [] /\ password <> []) (Ht : slot_token a slot = Some t) (Ht2 : slot_token a slot2 = Some t2)
    (Hnew : ad_files a !! path = None)
    (Hs : length (ae_salt env) = Vault.K_VAULT_SALT_LEN) (Hn : length (ae_nonce env) = Vault.K_VAULT_NONCE_LEN)
    (Hsnap : Snapshot.wf_snapshot (snapshot_from_token t)) (Hkek : v_get_kek t <> []) (Hfit : len (v_get_kek t) < 2 ^ 63)
    (Hwf : wf_store (v_object_store_ t2)) (Hroom : has_room (v_object_store_ t2)) :
  let (r1, a1) := BackupToken env ctx a (Some (mkVaultRequest slot path password)) in
  (forall bytes, Snapshot.serialize_token_snapshot (snapshot_from_token t) = Ok bytes ->
     Vault.cooperative (ae_save env) (68 + len bytes) -> r1 = Some (GrpcOk, bytes_of "OK")) /\
  (r1 = Some (GrpcOk, bytes_of "OK") ->
   (let '(st, _, a2) := RestoreToken env2 ctx2 a1 (Some (mkVaultRequest slot2 path password)) in
    st = GrpcOk /\
    (exists t2', slot_token a2 slot2 = Some t2' /\ snapshot_from_token t2' = installed t2 (snapshot_from_token t)) /\
    (forall other, other <> slot2 -> slot_token a2 other = slot_token a other)) /\
   (let (r3, a3) := BackupToken env2 ctx2 a1 (Some (mkVaultRequest slot2 path password)) in
    option_map (fun r => s_code (fst r)) r3 = Some FAILED_PRECONDITION /\ ad_files a3 = ad_files a1)).
Proof.
  destruct Hreq as [Hp Hw]. set (v := Vault.mkVault path password Vault.K_VAULT_FORMAT_VERSION false).
  assert (Hl : 0 < len password) by (destruct password; [done|rewrite len_cons; pose proof (len_nonneg password); lia]).
  destruct (Vault.snapshot_restores (ae_save env) (ad_files a) t t2 v (ae_salt env) (ae_nonce env) Hl Hs Hn Hsnap Hkek Hfit Hwf Hroom)
    as (bytes & Hser & H).
  assert (Hq : forall s, vault_request_ok (mkVaultRequest s path password) = true)
    by (intros s; unfold vault_request_ok; cbn; by rewrite !bool_decide_eq_false_2).
  unfold BackupToken at 1. rewrite Hauth, Hq. cbn [negb vq_slot vq_path vq_password].
  rewrite (proj2 (resolve_token_spec a slot t) Ht). unfold backup. rewrite Hser. unfold Vault.create.
  rewrite (proj2 (Z.ltb_lt 0 (len password))) by done. cbn [negb].
  rewrite bool_decide_eq_false_2 by (rewrite Hnew; by intros [? ?]). fold v.
  pose proof (Vault.save_file (ae_save env) (ad_files a) v (ae_salt env) (ae_nonce env) bytes) as Hfile.
  destruct (Vault.save _ _ _ _ _) as [[o v'] tr]. destruct H as [Hco H]. cbn [Vault.path_ Vault.password_ v] in *.
  destruct o as [|e|]; [|split; [intros b Hb Hc; injection Hb as <-; discriminate (Hco Hc)|done]..].
  split; [done|]. intros _. destruct (H eq_refl) as (_ & Ho & t2' & Hi & Hrest). split.
  - unfold RestoreToken. rewrite Hauth2, Hq. cbn [negb vq_slot vq_path vq_password].
      rewrite (proj2 (resolve_token_spec (with_files a _) slot2 t2) Ht2). unfold restore. cbn [ad_files with_files]. rewrite Ho. cbn [rbind Vault.valid_ negb].
      rewrite Hrest. split_and!; [done| |].
    + exists t2'. split; [|done]. rewrite slot_token_put, Z.eqb_refl. cbn [ad_slots with_files]. unfold slot_token in Ht2.
        by destruct (Slots.v_get_slot _ _).
    + intros other Ho'. rewrite slot_token_put. by rewrite (proj2 (Z.eqb_neq _ _) Ho').
  - unfold BackupToken. rewrite Hauth2, Hq. cbn [negb vq_slot vq_path vq_password].
    rewrite (proj2 (resolve_token_spec (with_files a _) slot2 t2) Ht2). unfold backup. cbn [ad_files with_files].
    unfold Vault.create. rewrite (proj2 (Z.ltb_lt 0 (len password))) by done. cbn [negb].
    rewrite bool_decide_eq_true_2 by (exact (Hfile eq_refl)). by destruct (Snapshot.serialize_token_snapshot (snapshot_from_token t2)).
Qed.

End Admin.

(** ** Witnesses and departures *)

Module Samples.

#[local] Existing Instance Vault.toy_crypto.
#[local] Existing Instance Vault.toy_laws.
#[local] Existing Instance SignatureStore.toy_scrypto.
#[local] Existing Instance SignatureStore.list_sink.

Definition nobody : ServerContext := mkContext false [] [].
Definition operator : ServerContext := mkContext false [] [(TOKEN_KEY, bytes_of "s3cret")].

Definition sample_env (select_fault : bool) : AdminEnv :=
  mkAdminEnv None (Some (bytes_of "s3cret")) 1700000000500 (bytes_of "hsm-1") no_fault select_fault false Vault.sample_sys Vault.sample_salt
    Vault.sample_nonce (mkAppendSys true None true 0) (bytes_of "T") false id.

Definition two_slots : Slots.v_SlotManagerCore_M1 :=
  Slots.mkSlotManager {[ 0 := Slots.insert_token (Slots.new_slot 0) crowded_token; 1 := Slots.insert_token (Slots.new_slot 1) (new_core [] [] 0);
                         2 := Slots.insert_token (Slots.new_slot 2) sample_token; 3 := Slots.insert_token (Slots.new_slot 3) kek_token ]} 0.

Definition sample_admin : AdminService (W := list SignatureRecord) (B := Bus.BoundedNotificationBus) :=
  mkAdmin two_slots ∅ (Some (mkDatabase sample_conn sample_notify)) (Some 3) (Some (mkLedgerPort (fun _ => None) None)) (Some [])
    (Some (Bus.new_bus 4)) (Some (OtherAudit [])) None.

Lemma unauthorized_calls_confined_witness :
  let (st, a') := call (sample_env false) nobody sample_admin (RBackup (Some (mkVaultRequest 0 (bytes_of "/v") (bytes_of "pw")))) in
  (true = true -> st = Some unauthenticated /\ a' = sample_admin) /\ untouched sample_admin a' /\
  (ad_db a' = ad_db sample_admin \/ exists id, RBackup (Some (mkVaultRequest 0 (bytes_of "/v") (bytes_of "pw"))) = RRemove (Some id)).
Proof.
  apply (unauthorized_calls_confined (sample_env false) nobody sample_admin (RBackup (Some (mkVaultRequest 0 (bytes_of "/v") (bytes_of "pw"))))).
  right. split_and!; [reflexivity|discriminate|by intros ?%elem_of_nil].
Defined.

Definition vault_call (slot : Z) : VaultRequest := mkVaultRequest slot (bytes_of "/v") (bytes_of "pw").

Lemma backup_restores_token_witness :
  let (r1, a1) := BackupToken (sample_env false) operator sample_admin (Some (vault_call 0)) in
  r1 = Some (GrpcOk, bytes_of "OK") ->
  let '(st, _, a2) := RestoreToken (sample_env false) operator a1 (Some (vault_call 1)) in
  st = GrpcOk /\
  (exists t2', slot_token a2 1 = Some t2' /\ snapshot_from_token t2' = installed (new_core [] [] 0) (snapshot_from_token crowded_token)) /\
  (forall other, other <> 1 -> slot_token a2 other = slot_token sample_admin other).
Proof.
  pose proof (backup_restores_token (sample_env false) (sample_env false) operator operator sample_admin 0 1 (bytes_of "/v") (bytes_of "pw")
    crowded_token (new_core [] [] 0) eq_refl eq_refl ltac:(by split) ltac:(by vm_compute) ltac:(by vm_compute) eq_refl eq_refl eq_refl
    ltac:(vm_compute; intuition congruence) ltac:(vm_compute; discriminate) ltac:(by vm_compute) new_store_wf ltac:(right; by vm_compute)) as H.
  unfold vault_call. destruct (BackupToken _ _ _ _) as [r1 a1]. destruct H as [_ H]. intros Hr. exact (proj1 (H Hr)).
Defined.

(** The record of the store was never anchored, its HMAC verifies, the audit log is not chained. *)
Lemma integrity_report_exact_witness :
  let (st, r) := VerifyIntegrity (sample_env false) sample_admin in
  st = GrpcOk /\ ir_records_checked r = 1 /\ (ir_ok r = true <-> true = true /\
   (forall id, id ∈ [bytes_of "id-1"] -> row_good (sample_env false) (mkDatabase sample_conn sample_notify) kek_token id = true) /\
   (forall id l tx, id ∈ [bytes_of "id-1"] -> ad_ledger sample_admin = Some l -> claimed_tx (sample_env false) (mkDatabase sample_conn sample_notify) id = Some tx ->
      option_map e_tx_id (lp_get_record l id) = Some tx)).
Proof.
  pose proof (integrity_report_exact (sample_env false) sample_admin (mkDatabase sample_conn sample_notify) kek_token ltac:(by vm_compute)) as H.
  destruct (VerifyIntegrity _ _) as [st r]. destruct H as (H1 & H2 & _ & _ & _ & _ & _ & _ & _ & H3). split; [exact H1|]. split; [exact H2|exact H3].
Defined.

Definition user_login (pin : string) : AdminLoginRequest := mkLoginRequest 2 false (bytes_of pin) (bytes_of "alice").

Lemma admin_login_exact_witness :
  let '(st, _, a') := AdminLogin (sample_env false) sample_admin (Some (user_login "1234")) in
  (st = GrpcOk <-> false = false /\ Some (bytes_of "1234") = Some (bytes_of "1234")) /\
  (st = GrpcOk -> announced (sample_env false) CKU_USER (bytes_of "alice") sample_admin a').
Proof.
  pose proof (admin_login_exact (sample_env false) sample_admin (user_login "1234") sample_token ltac:(by vm_compute) sample_token_wf ltac:(by vm_compute)) as H.
  cbv zeta in H. destruct (AdminLogin _ _ _) as [[st text] a']. destruct H as (H1 & H2 & _). split; [exact H1|exact H2].
Defined.

(** A database that cannot be read gives a positive report on no rows. *)
Lemma unreadable_store_reports_ok :
  let (st, r) := VerifyIntegrity (sample_env true) sample_admin in st = GrpcOk /\ ir_ok r = true /\ ir_records_checked r = 0.
Proof. by vm_compute. Qed.

(** A range without an upper bound finds nothing; one with both bounds finds the record. *)
Lemma open_range_finds_nothing :
  QuerySignatures (sample_env false) sample_admin (Some (mkSigQuery [] 1 0 0)) = (GrpcOk, []) /\
  len (snd (QuerySignatures (sample_env false) sample_admin (Some (mkSigQuery [] 1 1800000000000 0)))) = 1 /\
  QuerySignatures (sample_env false) sample_admin (Some (mkSigQuery [] 1 1800000000 0)) = (GrpcOk, []).
Proof. by vm_compute. Qed.

(** A range given with a fingerprint is not looked at. *)
Lemma range_ignored_with_fingerprint :
  len (snd (QuerySignatures (sample_env false) sample_admin (Some (mkSigQuery (bytes_of "fp") 5 6 0)))) = 1.
Proof. by vm_compute. Qed.

(** Without the ledger being asked, the cross-check is reported as passed, and an anchored record as pending. *)
Lemma unchecked_ledger_reported_ok :
  option_map (fun r => (vr_valid r, vr_ledger_cross_check_ok r, vr_ledger_status r))
    (snd (VerifySignature (sample_env false) sample_admin (Some (bytes_of "id-1", false)))) = Some (true, true, PENDING).
Proof. by vm_compute. Qed.

(** Anyone may remove a subscriber, and is told it worked when it did not. *)
Lemma removal_unguarded_and_unchecked :
  (let '(st, text, a') := RemoveSubscriber (sample_env false) sample_admin (Some (bytes_of "s1")) in
   st = GrpcOk /\ text = bytes_of "OK" /\ option_map notify_tables (ad_db a') = Some sample_notify) /\
  authorized (sample_env false) nobody = false.
Proof. by vm_compute. Qed.

(** An empty item of the list admits a certificate with an empty name. *)
Lemma empty_item_admits_empty_name :
  require_admin (Some (bytes_of "alice,,bob")) None (mkContext true [[]] []) = true /\
  require_admin (Some (bytes_of " alice , bob,")) None (mkContext true [bytes_of "bob"] []) = true /\
  require_admin (Some (bytes_of "alice,bob,")) None (mkContext true [[]] []) = false.
Proof. by vm_compute. Qed.

(** The caller's name goes into the event's JSON as it is: here a user names the role SO. *)
Lemma caller_not_escaped :
  let json := ev_detail_json (login_event (sample_env false) sample_token CKU_USER
                (QUOTE ++ bytes_of "," ++ QUOTE ++ bytes_of "role" ++ QUOTE ++ bytes_of ":" ++ QUOTE ++ bytes_of "SO")) in
  drop (length json - 13) json = bytes_of "," ++ QUOTE ++ bytes_of "role" ++ QUOTE ++ bytes_of ":" ++ QUOTE ++ bytes_of "SO" ++ QUOTE ++ bytes_of "}".
Proof. by vm_compute. Qed.

End Samples.
