(* ===== verification/Enclave.v ===== *)
(** * The enclave manager

    [src/src/kvm/enclave_manager.cpp]: the owner of the host's enclave, behind the
    port of [src/src/kvm/enclave_provider.h] that the administration service asks.
    The enclave itself ([vhsm_kvm], another repository) is the class [EnclaveLib];
    environment variables, the file system and the presence of [/dev/kvm] are
    fields of [Host], the compile-time switches are [Build].  Every method holds
    the mutex while it touches the state, so it is one step. *)

From S2P Require Import Prelude Codec Types AuditLog KeyPolicy SignatureStore NotificationStore Ledger Admin.

(** [VHSM_HAVE_KVM_ENCLAVE] and [VHSM_KVM_ALLOW_MOCK] of the build. *)
Record Build : Type := mkBuild { have_enclave : bool; mock_compiled : bool }.

Record Host : Type := mkHost {
  VHSM_KVM_GUEST : option (list byte);
  VHSM_KVM_CPU_PIN : option (list byte);
  VHSM_KVM_MEM_MB : option (list byte);
  VHSM_KVM_ALLOW_MOCK : option (list byte);
  file_exists : list byte -> bool;
  host_has_kvm : bool }.

(** [EnclaveManager::Config]. *)
Record Config : Type := mkConfig { guest_elf_path : list byte; mem_mb : Z; cpu_pin : Z; allow_mock : bool }.

(** [std::stoul]: [None] when it throws; a minus sign negates modulo 2^64. *)
Definition stoul (s : list byte) : option Z :=
  let (neg, ds) := signed_value s in
  if negb (starts_with_digit ds) then None
  else let v := strtoull_loop ds 0 in
       if v <? 2 ^ 64 then Some (if neg then u64 (- v) else v) else None.

Definition DEFAULT_GUEST : list byte := bytes_of "kvm_module/guest/payload.elf".

Definition probe_paths : list (list byte) :=
  [bytes_of "kvm_module/guest/payload.elf"; bytes_of "third_party/kvm_module/guest/payload.elf";
   bytes_of "../kvm_module/guest/payload.elf"; bytes_of "../third_party/kvm_module/guest/payload.elf"].

Definition resolve_guest (h : Host) : list byte :=
  let from_env := default [] (VHSM_KVM_GUEST h) in
  if bool_decide (from_env = []) then default DEFAULT_GUEST (List.find (file_exists h) probe_paths) else from_env.

Definition ResolveConfig (b : Build) (h : Host) : Config :=
  mkConfig (resolve_guest h)
    (match VHSM_KVM_MEM_MB h ≫= stoul with Some v => u32 v | None => 256 end)
    (match VHSM_KVM_CPU_PIN h ≫= stoi with Some v => v | None => -1 end)
    (mock_compiled b || match VHSM_KVM_ALLOW_MOCK h with Some v => bool_decide (v = bytes_of "1") | None => false end).

(** The states of an enclave of [vhsm_kvm]. *)
Inductive VState : Type := VCreated | VRunning | VStopped | VFailed | VOther.

#[global] Instance VState_eq_dec : EqDecision VState.
Proof. solve_decision. Defined.

(** The constructor, [start] and the [PING] hypercall of an enclave; [stop] may
    throw, which the manager ignores before it destroys the enclave. *)
Class EnclaveLib (E : Type) : Type := {
  enclave_new : Config -> res E;
  enclave_start : E -> res unit * E;
  enclave_state : E -> VState;
  enclave_measurement : E -> list byte;
  enclave_ping : E -> Z * E }.

Definition provider_state (v : VState) : ProviderEnclaveState :=
  match v with VCreated => Created | VRunning => Running | VStopped => Stopped | VFailed => Failed | VOther => Unknown end.

Definition NO_KVM : list byte :=
  bytes_of "pure isolation requires /dev/kvm (fail-closed); set VHSM_KVM_ALLOW_MOCK=1 for CI mock".

Definition NOT_FOUND (path : list byte) : list byte := bytes_of "guest payload not found: " ++ path.

Section Manager.
Context {E : Type} `{EnclaveLib E}.
Context (b : Build).

Record EnclaveManager : Type := mkManager { enclave_ : option E; started_ : bool; last_error_ : list byte }.

Definition new_manager : EnclaveManager := mkManager None false [].

(** The status of a live enclave. *)
Definition live_status (h : Host) (cfg : Config) (m : EnclaveManager) (e : E) : EnclaveReport * EnclaveManager :=
  let is_mock := allow_mock cfg && negb (host_has_kvm h) in
  let st := provider_state (enclave_state e) in
  let running := bool_decide (enclave_state e = VRunning) in
  let '(rc, e') := if running then enclave_ping e else (1, e) in
  let ok := running && (rc =? 0) in
  let detail :=
    if negb (bool_decide (last_error_ m = [])) then last_error_ m
    else if negb (host_has_kvm h) && negb (allow_mock cfg) then NO_KVM
    else if negb (file_exists h (guest_elf_path cfg)) then NOT_FOUND (guest_elf_path cfg) else [] in
  (mkEnclave st (host_has_kvm h) is_mock (host_has_kvm h && negb is_mock) (enclave_measurement e) (guest_elf_path cfg)
     (cpu_pin cfg) (mem_mb cfg) detail true ok ok, mkManager (Some e') (started_ m) (last_error_ m)).

(** The status without an enclave. *)
Definition probed_status (h : Host) (cfg : Config) (m : EnclaveManager) : EnclaveReport :=
  let is_mock := allow_mock cfg && negb (host_has_kvm h) in
  let '(st, detail) :=
    if negb (file_exists h (guest_elf_path cfg)) then (Unknown, NOT_FOUND (guest_elf_path cfg))
    else if negb (host_has_kvm h) && negb (allow_mock cfg) then (Created, NO_KVM)
    else (Created, last_error_ m) in
  mkEnclave st (host_has_kvm h) is_mock (host_has_kvm h && negb is_mock) [] (guest_elf_path cfg)
    (cpu_pin cfg) (mem_mb cfg) detail (have_enclave b) false false.

Definition ProbeStatus (h : Host) (cfg : Config) (m : EnclaveManager) : EnclaveReport * EnclaveManager :=
  match (if have_enclave b then enclave_ m else None) with
  | Some e => live_status h cfg m e
  | None => (probed_status h cfg m, m)
  end.

Definition GetStatus (h : Host) (m : EnclaveManager) : EnclaveReport * EnclaveManager := ProbeStatus h (ResolveConfig b h) m.

(** [EnclaveMeasurement]: the measurement, whether KVM is there, the error. *)
Definition GetMeasurement (h : Host) (m : EnclaveManager) : list byte * bool * list byte :=
  let cfg := ResolveConfig b h in
  let found := file_exists h (guest_elf_path cfg) in
  match (if have_enclave b then enclave_ m else None) with
  | Some e =>
    let hex := enclave_measurement e in
    let empty := bool_decide (hex = []) in
    (hex, host_has_kvm h,
     if empty && negb found then NOT_FOUND (guest_elf_path cfg)
     else if empty && negb (host_has_kvm h) && negb (allow_mock cfg) then bytes_of "enclave not started and KVM unavailable"
     else if empty then last_error_ m else [])
  | None =>
    ([], host_has_kvm h,
     if negb found then NOT_FOUND (guest_elf_path cfg) ++ bytes_of " and enclave not started"
     else if have_enclave b then bytes_of "enclave not started — measurement available after Start()"
     else bytes_of "VHSM_HAVE_KVM_ENCLAVE not compiled — measurement requires kvm_module build")
  end.

Definition NOT_COMPILED : string := "VHSM_HAVE_KVM_ENCLAVE not compiled".

Definition Start (h : Host) (m : EnclaveManager) : res unit * EnclaveManager :=
  let cfg := ResolveConfig b h in
  if started_ m then (Ok tt, m)
  else if have_enclave b then
    match enclave_new cfg with
    | Throw e => (Throw e, mkManager None false (Client.what e))
    | Ok e =>
      match enclave_start e with
      | (Ok _, e) => (Ok tt, mkManager (Some e) true [])
      | (Throw x, _) => (Throw x, mkManager None false (Client.what x))
      end
    end
  else (Throw (RuntimeError NOT_COMPILED), mkManager (enclave_ m) (started_ m) (bytes_of NOT_COMPILED)).

Definition Stop (m : EnclaveManager) : EnclaveManager :=
  mkManager (if have_enclave b then None else enclave_ m) false (last_error_ m).

(** ** Runs *)

Inductive Op : Type := OStart (h : Host) | OStop | OStatus (h : Host) | OMeasure (h : Host).

Definition step (m : EnclaveManager) (o : Op) : EnclaveManager :=
  match o with
  | OStart h => snd (Start h m)
  | OStop => Stop m
  | OStatus h => snd (GetStatus h m)
  | OMeasure _ => m
  end.

Definition run (ops : list Op) : EnclaveManager := fold_left step ops new_manager.

(** The manager holds an enclave exactly while it is started. *)
Definition held (m : EnclaveManager) : Prop :=
  (is_Some (enclave_ m) <-> started_ m = true) /\ (have_enclave b = false -> enclave_ m = None) /\
  (started_ m = true -> last_error_ m = []).

Lemma step_held m o : held m -> held (step m o).
Proof.
  unfold held. intros (H1 & H2 & H3). destruct o as [h| |h|h]; cbn [step]; [| | |done].
  - unfold Start. destruct (started_ m) eqn:Es; [cbn; rewrite Es in *; tauto|]. destruct (have_enclave b) eqn:Eb.
    + destruct (enclave_new _) as [e|x]; [destruct (enclave_start e) as [[u|x] e']|]; cbn; split_and!; try done;
        (split; [by intros [? [=]] || done|done || (intros _; eauto)]).
    + cbn. rewrite (H2 eq_refl) in *. split_and!; [|done|done]. split; [by intros [? [=]]|done].
  - cbn. destruct (have_enclave b); cbn; split_and!; try done.
    rewrite (H2 eq_refl). split; [by intros [? [=]]|done].
  - unfold GetStatus, ProbeStatus. destruct (have_enclave b) eqn:Eb; [|done].
    destruct (enclave_ m) as [e|] eqn:Ee; [|cbn; rewrite Ee in *; tauto]. unfold live_status.
    destruct (if bool_decide _ then _ else _) as [rc e']. cbn. split_and!; [|done|done].
    split; [intros _; apply H1; eauto|eauto].
Qed.

Lemma run_held ops : held (run ops).
Proof.
  unfold run. assert (held new_manager) as H0 by (unfold held, new_manager; cbn; split_and!; done).
  revert H0. generalize new_manager. induction ops as [|o ops IH]; intros m Hm; [done|].
  cbn [fold_left]. by apply IH, step_held.
Qed.

End Manager.

(** ** Properties *)

Section Truth.
Context {E : Type} `{EnclaveLib E}.

(** after any sequence of starts, stops and reports, on any host, what the
    enclave manager reports is true of the enclave it holds.  It says Running, that
    the enclave answers hypercalls, or gives a measurement, only while it holds a
    started enclave of which that is so; it never says that KVM is in use on a
    host without it or for a mock, nor admits a mock where the configuration does
    not allow one.  A start that throws leaves no enclave and keeps the reason,
    and a build without the enclave never starts one. *)
Theorem enclave_reports_truthful (b : Build) (ops : list Op) (h : Host) :
  let m := run (E := E) b ops in
  let s := (GetStatus b h m).1 in
  (en_state s = Running -> started_ m = true /\ exists e, enclave_ m = Some e /\ enclave_state e = VRunning) /\
  (en_hypercall_ok s = true -> en_state s = Running /\ exists e, enclave_ m = Some e /\ (enclave_ping e).1 = 0) /\
  (en_measurement_hex s <> [] -> exists e, enclave_ m = Some e /\ en_measurement_hex s = enclave_measurement e) /\
  (en_is_using_kvm s = true -> host_has_kvm h = true /\ en_is_mock s = false) /\
  (en_is_mock s = true -> host_has_kvm h = false /\ allow_mock (ResolveConfig b h) = true) /\
  match Start b h m with
  | (Ok _, m') => have_enclave b = true /\ started_ m' = true /\ is_Some (enclave_ m') /\ last_error_ m' = []
  | (Throw x, m') => started_ m' = false /\ enclave_ m' = None /\ last_error_ m' = Client.what x
  end.
Proof.
  cbv zeta. destruct (run_held (E := E) b ops) as (Hin & Hno & Hlast). set (m := run b ops) in *. clearbody m.
  unfold GetStatus, ProbeStatus, probed_status, live_status.
  assert (forall x y : bool, x && negb (y && negb x) = true -> x = true /\ y && negb x = false) as Hkvm by (by intros [] []).
  assert (forall x y : bool, y && negb x = true -> x = false /\ y = true) as Hmock by (by intros [] []).
  split_and!.
  6:{ unfold Start. destruct (started_ m) eqn:Es.
    - destruct (have_enclave b) eqn:Eb; [split_and!; [done|done|by apply Hin|by apply Hlast]|].
      destruct (proj2 Hin eq_refl) as [e He]. rewrite (Hno eq_refl) in He. discriminate.
    - destruct (have_enclave b); [|cbn; split_and!; [done|by apply Hno|done]].
      destruct (enclave_new _) as [e|x]; [destruct (enclave_start e) as [[u|x] e']|]; cbn; eauto. }
  all: set (cfg := ResolveConfig b h); clearbody cfg.
  all: destruct (have_enclave b) eqn:Eb; [destruct (enclave_ m) as [e|] eqn:Ee|]; cbn.
  all: try (destruct (if bool_decide _ then _ else _) as [rc e'] eqn:Ep; cbn).
  all: try (destruct (file_exists h _), (host_has_kvm h), (allow_mock cfg); cbn; done).
  - unfold provider_state. destruct (enclave_state e) eqn:Ev; try done. intros _. split; [apply Hin; eauto|eauto].
  - rewrite andb_true_iff. intros [Hr Hz]. apply bool_decide_eq_true in Hr. rewrite Hr in *.
    split; [done|]. exists e. split; [done|]. rewrite bool_decide_eq_true_2 in Ep by done. rewrite Ep. cbn. lia.
  - eauto.
  - apply Hkvm.
  - apply Hmock.
Qed.

End Truth.

(** ** An enclave *)

(** An enclave that starts when the guest is there, and answers while it runs. *)
Module ToyEnclave.

Record Guest : Type := mkGuest { g_state : VState; g_path : list byte }.

#[global] Instance toy_enclave : EnclaveLib Guest := {
  enclave_new cfg := Ok (mkGuest VCreated (guest_elf_path cfg));
  enclave_start g := if bool_decide (g_path g = bytes_of "bad.elf") then (Throw (RuntimeError "cannot load"), g)
                     else (Ok tt, mkGuest VRunning (g_path g));
  enclave_state := g_state;
  enclave_measurement g := g_path g;
  enclave_ping g := (0, g) }.

Definition host (guest : string) (kvm : bool) : Host := mkHost (Some (bytes_of guest)) None (Some (bytes_of "512")) None (fun _ => true) kvm.

Definition with_enclave : Build := mkBuild true false.
Definition without_enclave : Build := mkBuild false false.

(** The lifecycle: a failed start, a start, a report, a stop. *)
Lemma lifecycle_runs :
  let m := run (E := Guest) with_enclave [OStart (host "bad.elf" true)] in
  let m2 := run (E := Guest) with_enclave [OStart (host "bad.elf" true); OStart (host "ok.elf" true)] in
  last_error_ m = bytes_of "cannot load" /\ enclave_ m = None /\
  en_state (GetStatus with_enclave (host "ok.elf" true) m2).1 = Running /\
  en_hypercall_ok (GetStatus with_enclave (host "ok.elf" true) m2).1 = true /\
  en_mem_mb (GetStatus with_enclave (host "ok.elf" true) m2).1 = 512 /\
  enclave_ (Stop with_enclave m2) = None.
Proof. cbv zeta. split_and!; vm_compute; reflexivity. Qed.

(** ** Where the code departs from its comments *)

(** The status says Created when no enclave was ever created: on a host without
    KVM, where a start is announced to fail, and in a build that cannot start one. *)
Lemma created_without_enclave :
  en_state (GetStatus (E := Guest) with_enclave (host "ok.elf" false) new_manager).1 = Created /\
  en_state (GetStatus (E := Guest) without_enclave (host "ok.elf" true) new_manager).1 = Created /\
  (Start (E := Guest) without_enclave (host "ok.elf" true) new_manager).1 = Throw (RuntimeError NOT_COMPILED).
Proof. split_and!; vm_compute; reflexivity. Qed.

(** A start while the enclave that is held has failed does nothing, and succeeds. *)
Lemma failed_enclave_not_restarted :
  let m := mkManager (Some (mkGuest VFailed (bytes_of "ok.elf"))) true [] in
  Start with_enclave (host "ok.elf" true) m = (Ok tt, m).
Proof. reflexivity. Qed.

(** A memory size of [-1] is taken as almost four terabytes. *)
Lemma negative_memory_wraps :
  mem_mb (ResolveConfig with_enclave (mkHost None None (Some (bytes_of "-1")) None (fun _ => true) true)) = 4294967295.
Proof. vm_compute. reflexivity. Qed.

End ToyEnclave.
