(* ===== verification/Lifecycle.v ===== *)
(** * Start and stop of the module

    [src/src/pkcs11/composition_root.cpp] (how the services are wired from the
    environment, and taken down) and [src/src/pkcs11/p11_init.cpp] ([C_Initialize],
    [C_Finalize] and [C_GetInfo], with the globals they move the services into).

    [System] is what the process answers: environment variables, directories, the
    database that opens at a path, the outcome of each set-up block.  [FS] is the
    file system of [Vault].  Each call gives besides its result the list of [Life]
    events, in the order in which objects are made, started, stopped and freed; an
    object that runs a thread must not outlive what it refers to. *)

From S2P Require Import Prelude Codec Types Notification Snapshot SecureBuffer Objects ObjectStore Token Session Pkcs11 Vault AuditLog KeyPolicy SignatureStore.
Import Vault.
Local Open Scope Z_scope.

(** ** The environment *)

Inductive StoreBackend : Type := Db | Ledger.

#[global] Instance StoreBackend_eq_dec : EqDecision StoreBackend.
Proof. solve_decision. Defined.

(** The options of the build. *)
Record Build : Type := mkBuild { VHSM_LEDGER : bool; VHSM_TEST : bool; VHSM_STORE_BACKEND_ledger : bool }.

Record System : Type := mkSystem {
  getenv : string -> option (list byte);
  create_directories_ok : list byte -> bool;
  path_exists : list byte -> bool;
  dev_config_dir : list byte;
  make_sqlite_connection : list byte -> option Conn;
  bootstrap : Conn -> res (list byte * Conn);
  audit_file : list byte -> option (list byte);
  audit_key_ok : bool;
  notification_ok : bool;
  poller_ok : bool;
  ledger_ok : bool;
  select_fault : Stmt -> bool;
  fips_self_test : bool;
  fips_mode : bool;
  sys_now : Z;
  sys_save : SaveSys;
  sys_salt : list byte;
  sys_nonce : list byte
}.

(** [v && *v]. *)
Definition given (v : option (list byte)) : option (list byte) :=
  match v with Some (b :: s) => Some (b :: s) | _ => None end.

Definition is_given (v : option (list byte)) : bool := bool_decide (is_Some (given v)).

(** ** The store port *)

Module InMemory.

Definition store (data : list SignatureRecord) (rec : SignatureRecord) : option (list byte) * list SignatureRecord :=
  match List.find (fun r => bool_decide (record_id r = record_id rec)) data with
  | Some r => (Some (record_id r), data)
  | None => (Some (record_id rec), data ++ [rec])
  end.

Fixpoint load (data : list SignatureRecord) (id : list byte) : option SignatureRecord :=
  match data with
  | [] => None
  | r :: data => if bool_decide (record_id r = id) then Some r else load data id
  end.

Definition list_all (data : list SignatureRecord) : list SignatureRecord := data.

Definition stored (recs : list SignatureRecord) : list SignatureRecord := fold_left (fun data r => snd (store data r)) recs [].

Lemma load_find data id : load data id = List.find (fun r => bool_decide (record_id r = id)) data.
Proof. induction data as [|r data IH]; [done|]. cbn [load List.find]. rewrite IH. by destruct (bool_decide (record_id r = id)). Qed.

(** The first record stored under an identifier is the one that is loaded, and the
    list has one record for each identifier. *)
Lemma first_record_wins recs id :
  load (stored recs) id = List.find (fun r => bool_decide (record_id r = id)) recs /\ NoDup (map record_id (list_all (stored recs))).
Proof.
  unfold stored, list_all. induction recs as [|r recs [IH1 IH2]] using rev_ind; [split; [done|constructor]|].
  rewrite fold_left_app. cbn [fold_left]. set (data := fold_left _ recs []) in *. unfold store. rewrite load_find in *.
  assert (Happ : forall l, List.find (fun r => bool_decide (record_id r = id)) (l ++ [r]) =
    match List.find (fun r => bool_decide (record_id r = id)) l with Some x => Some x | None => if bool_decide (record_id r = id) then Some r else None end).
  { intros l. induction l as [|x l IH]; [done|]. cbn [app List.find]. rewrite IH. by destruct (bool_decide (record_id x = id)). }
  rewrite Happ, <- IH1. destruct (List.find (fun r0 => bool_decide (record_id r0 = record_id r)) data) as [x|] eqn:E.
  - apply List.find_some in E as Hx. destruct Hx as [Hin Hid]. apply bool_decide_eq_true in Hid. cbn [snd]. split; [|done].
    destruct (List.find (fun r0 => bool_decide (record_id r0 = id)) data) as [y|] eqn:E2; [done|]. case_bool_decide as Hr; [|done].
    apply (find_none _ _ E2) in Hin. apply bool_decide_eq_false in Hin. congruence.
  - cbn [snd]. rewrite Happ. split; [done|]. rewrite map_app. apply list.NoDup_app. split_and!; [done| |apply NoDup_singleton].
    intros y Hy Hr. apply list_elem_of_singleton in Hr. subst y. apply list_elem_of_fmap in Hy as (z & Hz & Hin). apply list_elem_of_In in Hin.
    apply (find_none _ _ E) in Hin. apply bool_decide_eq_false in Hin. congruence.
Qed.

End InMemory.

Inductive StoreKind : Type := InMemoryStore | DbStoreAdapter | FabricStoreAdapter.

(** ** Lifetimes *)

Inductive Part : Type :=
| PDb | PClient | PWorker | PBus | PAudit | PRepo | PNotifier | PPoller | PStore | PDispatcher | PVerification
| PVault | PSlots | PThrottle | PEnclave | PLogger | PEmail | PWebhook | PGrpcPush | PMobile.

#[global] Instance Part_eq_dec : EqDecision Part.
Proof. solve_decision. Defined.

Inductive Life : Type := Made (p : Part) | Started (p : Part) | Stopped (p : Part) | Freed (p : Part).

Definition adapters : list Part := [PEmail; PWebhook; PGrpcPush; PMobile].

(** A call answers, or dereferences a null pointer, or waits for the system. *)
Inductive Call (A : Type) : Type := Answer (a : A) | Crash | Blocked.
Arguments Answer {A} a.
Arguments Crash {A}.
Arguments Blocked {A}.

(** [CKR_CRYPTOKI_ALREADY_INITIALIZED]. *)
Definition CKR_CRYPTOKI_ALREADY_INITIALIZED : CK_RV := 0xD1.

Section Lifecycle.
Context {C : Vault.Scrypto} (build : Build) (derive_audit_chain_key : list byte -> list byte).

Definition allow_inmemory (sys : System) : bool :=
  match getenv sys "VHSM_ALLOW_INMEMORY" with
  | Some v => bool_decide (v = bytes_of "1")
  | None => VHSM_TEST build
  end.

Definition resolve_backend (sys : System) : StoreBackend :=
  let def := if VHSM_STORE_BACKEND_ledger build then Ledger else Db in
  match getenv sys "VHSM_STORE_BACKEND" with
  | Some v => if bool_decide (v = bytes_of "ledger") then Ledger else if bool_decide (v = bytes_of "db") then Db else def
  | None => def
  end.

(** The three variables of the ledger are set and not empty. *)
Definition ledger_configured (sys : System) : bool :=
  is_given (getenv sys "VHSM_LEDGER_ENDPOINT") && is_given (getenv sys "VHSM_LEDGER_CERT") && is_given (getenv sys "VHSM_LEDGER_KEY").

Definition check_backend_exclusivity (sys : System) (backend : StoreBackend) : res unit :=
  if bool_decide (backend = Db) && ledger_configured sys
  then Throw (RuntimeError "VHSM_STORE_BACKEND=db but VHSM_LEDGER_ENDPOINT/CERT/KEY are set. ")
  else Ok tt.

(** [std::filesystem::path::operator/] with a relative name on the right. *)
Definition SLASH : byte := to_u8 47.
Definition path_join (base name : list byte) : list byte :=
  match List.last (map Some base) None with
  | None => name
  | Some c => if bool_decide (c = SLASH) then base ++ name else base ++ [SLASH] ++ name
  end.

Definition base_dir (sys : System) : list byte :=
  match given (getenv sys "VHSM_HOME") with
  | Some home => home
  | None => path_join (default (bytes_of ".") (getenv sys "HOME")) (bytes_of ".vhs")
  end.

Definition MEMORY : list byte := bytes_of ":memory:".
Definition DB_NAME : list byte := bytes_of "vhsm.sqlite".

Definition resolve_db_path_for_container (sys : System) : list byte :=
  match given (getenv sys "VHSM_DB_PATH") with
  | Some p => p
  | None =>
    let base := base_dir sys in
    if create_directories_ok sys base then path_join base DB_NAME else MEMORY
  end.

Definition resolve_fabric_config_dir (sys : System) : list byte :=
  match getenv sys "VHSM_FABRIC_CONFIG_DIR" with
  | Some d => d
  | None =>
    if path_exists sys (bytes_of "/etc/vhsmd") then bytes_of "/etc/vhsmd"
    else if path_exists sys (dev_config_dir sys) then dev_config_dir sys
    else bytes_of "/etc/vhsmd"
  end.

(** The name is swapped at its last occurrence: [Some] what precedes it. *)
Fixpoint before_last (name s : list byte) : option (list byte) :=
  match s with
  | [] => None
  | c :: rest =>
    match before_last name rest with
    | Some pre => Some (c :: pre)
    | None => if bool_decide (take (length name) s = name) then Some [] else None
    end
  end.

Definition ledger_db_path (path : list byte) : list byte :=
  match before_last DB_NAME path with Some pre => pre ++ bytes_of "vhsm_ledger.sqlite" | None => path end.

(** ** The container *)

Inductive AuditChoice : Type :=
| Chained (path : list byte) (log : HashChainedAuditLog)
| Fallback (path : list byte).

Record AppContainer : Type := mkContainer {
  backend : StoreBackend;
  instance_id : list byte;
  db : option Conn;
  db_path : list byte;
  ledger_client : bool;
  ledger_worker : option (list SignatureRecord);
  bounded_bus : option Bus.BoundedNotificationBus;
  audit_log : option AuditChoice;
  notif_repo : bool;
  notif_dispatcher : bool;
  outbox_poller : bool;
  store : option StoreKind;
  dispatcher : bool;
  verification_service : bool;
  vault : option Vault;
  slot_manager : Slots.v_SlotManagerCore_M1;
  login_throttle : option Throttle.LoginThrottle;
  kvm_enclave : bool
}.

Definition DEFAULT_LABEL : list byte := bytes_of "vHSM Software Token".
Definition DEFAULT_ID : list byte := bytes_of "vhsm-token-0".

Definition ensure_default_token_for_container (now : Z) (sm : Slots.v_SlotManagerCore_M1) : Slots.v_SlotManagerCore_M1 :=
  let sm := match Slots.v_get_slot sm 0 with None => snd (Slots.v_register_slot now sm 0) | Some _ => sm end in
  match Slots.v_get_slot sm 0 with
  | None => sm
  | Some slot =>
    match Slots.get_token slot with
    | Some _ => sm
    | None => Slots.mkSlotManager (<[0 := Slots.insert_token slot (new_core DEFAULT_LABEL DEFAULT_ID now)]> (Slots.v_slots_ sm))
                (Slots.v_last_registration_at_ sm)
    end
  end.

Definition token0 (sm : Slots.v_SlotManagerCore_M1) : option v_TokenCore_M1 :=
  match Slots.v_get_slot sm 0 with Some s => Slots.get_token s | None => None end.

Definition put_token0 (sm : Slots.v_SlotManagerCore_M1) (t : v_TokenCore_M1) : Slots.v_SlotManagerCore_M1 :=
  Slots.mkSlotManager (alter (fun s => Slots.insert_token s t) 0 (Slots.v_slots_ sm)) (Slots.v_last_registration_at_ sm).

(** The vault, the slots with the restored token, the files; [None] when the write
    does not come back. *)
Definition open_or_create_vault (sys : System) (fs : FS) (sm : Slots.v_SlotManagerCore_M1)
    : option (option Vault * Slots.v_SlotManagerCore_M1 * FS) :=
  match given (getenv sys "VHSM_VAULT_PATH"), getenv sys "VHSM_VAULT_PASSWORD" with
  | Some path, Some password =>
    match token0 sm with
    | None => Some (None, sm, fs)
    | Some token =>
      if bool_decide (is_Some (fs !! path)) then
        match open_vault fs path password with
        | Throw _ => Some (None, sm, fs)
        | Ok v =>
          if valid_ v then
            match restore_token_from_vault fs token v with
            | Ok token => Some (Some v, put_token0 sm token, fs)
            | Throw _ => Some (None, sm, fs)
            end
          else Some (Some v, sm, fs)
        end
      else
        match Snapshot.serialize_token_snapshot (snapshot_from_token token) with
        | Throw _ => Some (None, sm, fs)
        | Ok snap =>
          match create (sys_save sys) fs path password (sys_salt sys) (sys_nonce sys) snap with
          | (Saved, v, ops) => Some (Some v, sm, run_ops fs ops)
          | (Thrown _, _, ops) => Some (None, sm, run_ops fs ops)
          | (Running, _, _) => None
          end
        end
    end
  | _, _ => Some (None, sm, fs)
  end.

(** What a call to [create_app_container] comes to. *)
Inductive Built : Type :=
| Returned (c : AppContainer)
| Throws (e : exn)
| NullDereference
| Waiting.

Definition when (b : bool) (l : list Life) : list Life := if b then l else [].
Definition present {A} (o : option A) : bool := match o with Some _ => true | None => false end.

(** [~AppContainer]: the members in the reverse of their order. *)
Definition destroy_members (slots : bool) (c : AppContainer) : list Life :=
  [Freed PLogger] ++ when (kvm_enclave c) [Freed PEnclave] ++ when (present (login_throttle c)) [Freed PThrottle] ++ when slots [Freed PSlots]
  ++ when (present (vault c)) [Freed PVault] ++ when (verification_service c) [Freed PVerification] ++ when (dispatcher c) [Freed PDispatcher]
  ++ when (present (store c)) [Freed PStore] ++ when (outbox_poller c) [Stopped PPoller; Freed PPoller]
  ++ when (notif_dispatcher c) [Stopped PNotifier; Freed PNotifier] ++ when (notif_repo c) [Freed PRepo]
  ++ when (present (audit_log c)) [Freed PAudit] ++ when (present (bounded_bus c)) [Freed PBus]
  ++ when (present (ledger_worker c)) [Stopped PWorker; Freed PWorker] ++ when (ledger_client c) [Freed PClient] ++ when (present (db c)) [Freed PDb].

Definition empty_container (backend : StoreBackend) (sm : Slots.v_SlotManagerCore_M1) : AppContainer :=
  mkContainer backend [] None [] false None None None false false false None false false None sm None false.

Definition with_storage (c : AppContainer) (id : list byte) (d : option Conn) (path : list byte) : AppContainer :=
  mkContainer (backend c) id d path (ledger_client c) (ledger_worker c) (bounded_bus c) (audit_log c) (notif_repo c) (notif_dispatcher c)
    (outbox_poller c) (store c) (dispatcher c) (verification_service c) (vault c) (slot_manager c) (login_throttle c) (kvm_enclave c).

(** How the storage comes up: on, an early return, or an exception. *)
Inductive Storage : Type := Continue (c : AppContainer) | Early (c : AppContainer) | Fail (c : AppContainer) (e : exn).

Definition open_storage (sys : System) (c : AppContainer) : Storage :=
  match backend c with
  | Ledger =>
    if VHSM_LEDGER build then
      let path := ledger_db_path (resolve_db_path_for_container sys) in
      match make_sqlite_connection sys path with
      | None => Early (with_storage c [] None path)
      | Some conn =>
        match bootstrap sys conn with
        | Ok (id, conn) => Continue (with_storage c id (Some conn) path)
        | Throw _ => Early (with_storage c [] (Some conn) path)
        end
      end
    else Continue (with_storage c (bytes_of "ledger-no-build") None [])
  | Db =>
    let path := resolve_db_path_for_container sys in
    match make_sqlite_connection sys path with
    | None => Fail (with_storage c [] None path) (RuntimeError "VHSM: cannot open SQLite DB at ")
    | Some conn =>
      match bootstrap sys conn with
      | Ok (id, conn) => Continue (with_storage c id (Some conn) path)
      | Throw _ => Fail (with_storage c [] (Some conn) path) (RuntimeError "VHSM: SQLite schema bootstrap failed at ")
      end
    end
  end.

Definition open_audit (sys : System) (c : AppContainer) : AuditChoice :=
  let kek := match token0 (slot_manager c) with Some t => v_get_kek t | None => [] end in
  let audit_path := db_path c ++ bytes_of ".audit" in
  if negb (bool_decide (kek = [])) && audit_key_ok sys
  then Chained audit_path (open_log (derive_audit_chain_key kek) (audit_file sys audit_path))
  else Fallback (audit_path ++ bytes_of ".fallback").

(** The bus, the throttle and the audit log. *)
Definition add_bus (sys : System) (c : AppContainer) : AppContainer :=
  mkContainer (backend c) (instance_id c) (db c) (db_path c) (ledger_client c) (ledger_worker c) (Some (Bus.new_bus 1024)) (Some (open_audit sys c))
    (notif_repo c) (notif_dispatcher c) (outbox_poller c) (store c) (dispatcher c) (verification_service c) (vault c) (slot_manager c)
    (Some (Throttle.mkThrottle Throttle.default_policy ∅)) (kvm_enclave c).

(** The notification pipeline and the poller of the outbox; the adapters are local
    to the block. *)
Definition add_notifications (sys : System) (c : AppContainer) : AppContainer * list Life :=
  if present (db c) then
    (mkContainer (backend c) (instance_id c) (db c) (db_path c) (ledger_client c) (ledger_worker c) (bounded_bus c) (audit_log c)
       true (notification_ok sys) (poller_ok sys) (store c) (dispatcher c) (verification_service c) (vault c) (slot_manager c) (login_throttle c) (kvm_enclave c),
     [Made PRepo] ++ map Made adapters ++ when (notification_ok sys) [Made PNotifier; Started PNotifier] ++ map Freed (rev adapters)
     ++ when (poller_ok sys) [Made PPoller; Started PPoller])
  else (c, []).

(** The audit log with the publisher of its tail. *)
Definition with_publisher (a : option AuditChoice) : option AuditChoice :=
  option_map (fun x => match x with Chained p log => Chained p (set_tail_publisher log true) | Fallback p => Fallback p end) a.

Definition add_ledger (sys : System) (c : AppContainer) : AppContainer * list Life :=
  match db c with
  | Some conn =>
    if VHSM_LEDGER build && bool_decide (backend c = Ledger) && ledger_configured sys && ledger_ok sys then
      (mkContainer (backend c) (instance_id c) (db c) (db_path c) true (Some (load_pending_records (select_fault sys) conn)) (bounded_bus c)
         (with_publisher (audit_log c)) (notif_repo c) (notif_dispatcher c) (outbox_poller c) (store c) (dispatcher c) (verification_service c)
         (vault c) (slot_manager c) (login_throttle c) (kvm_enclave c),
       [Made PClient; Made PWorker; Started PWorker])
    else (c, [])
  | None => (c, [])
  end.

Definition choose_store (sys : System) (c : AppContainer) : res StoreKind :=
  let memory msg := if allow_inmemory sys then Ok InMemoryStore else Throw (RuntimeError msg) in
  match backend c with
  | Ledger =>
    if VHSM_LEDGER build then
      if ledger_client c then Ok FabricStoreAdapter else memory "VHSM: ledger backend without ledger_client"%string
    else memory "VHSM: ledger backend requested but VHSM_LEDGER not compiled"%string
  | Db => if present (db c) then Ok DbStoreAdapter else memory "VHSM: DB backend without DB connection"%string
  end.

(** The store port, the dispatcher, the verification service, the vault and the enclave. *)
Definition with_services (c : AppContainer) (s : option StoreKind) (d : bool) (v : option Vault) (sm : Slots.v_SlotManagerCore_M1) (k : bool) : AppContainer :=
  mkContainer (backend c) (instance_id c) (db c) (db_path c) (ledger_client c) (ledger_worker c) (bounded_bus c) (audit_log c) (notif_repo c)
    (notif_dispatcher c) (outbox_poller c) s d d v sm (login_throttle c) k.

Definition finish_container (sys : System) (fs : FS) (c : AppContainer) : Built * FS * list Life :=
  match choose_store sys c with
  | Throw e => (Throws e, fs, destroy_members true c)
  | Ok s =>
    match db c with
    | None => (NullDereference, fs, [Made PStore])
    | Some _ =>
      match open_or_create_vault sys fs (slot_manager c) with
      | None => (Waiting, fs, [Made PStore; Made PDispatcher; Made PVerification])
      | Some (v, sm, fs) =>
        (Returned (with_services c (Some s) true v sm true), fs,
         [Made PStore; Made PDispatcher; Made PVerification] ++ when (present v) [Made PVault] ++ [Made PEnclave])
      end
    end
  end.

Definition create_app_container (sys : System) (fs : FS) : Built * FS * list Life :=
  let sm := ensure_default_token_for_container (sys_now sys) (Slots.mkSlotManager ∅ 0) in
  let made := [Made PLogger; Made PSlots] in
  let c := empty_container (resolve_backend sys) sm in
  match check_backend_exclusivity sys (backend c) with
  | Throw e => (Throws e, fs, made ++ destroy_members true c)
  | Ok _ =>
    match open_storage sys c with
    | Fail c e => (Throws e, fs, made ++ when (present (db c)) [Made PDb] ++ destroy_members true c)
    | Early c => (Returned c, fs, made ++ when (present (db c)) [Made PDb])
    | Continue c =>
      let made := made ++ when (present (db c)) [Made PDb] ++ [Made PBus; Made PThrottle; Made PAudit] in
      let c := add_bus sys c in
      match token0 (slot_manager c) with
      | None =>
        if allow_inmemory sys then (Returned (with_services c (Some InMemoryStore) false None (slot_manager c) false), fs, made ++ [Made PStore])
        else (Throws (RuntimeError "VHSM: no token present and no persistent store configured"), fs, made ++ destroy_members true c)
      | Some _ =>
        let (c, t1) := add_notifications sys c in
        let (c, t2) := add_ledger sys c in
        let '(b, fs, t3) := finish_container sys fs c in
        (b, fs, made ++ t1 ++ t2 ++ t3)
      end
    end
  end.

(** [destroy_app_container]. *)
Definition destroy_app_container (c : AppContainer) : list Life :=
  when (outbox_poller c) [Stopped PPoller; Freed PPoller]
  ++ when (notif_dispatcher c) [Stopped PNotifier; Freed PNotifier]
  ++ when (notif_repo c) [Freed PRepo]
  ++ when (present (ledger_worker c)) [Stopped PWorker; Freed PWorker]
  ++ when (ledger_client c) [Freed PClient]
  ++ when (dispatcher c) [Freed PDispatcher]
  ++ when (verification_service c) [Freed PVerification]
  ++ when (present (store c)) [Freed PStore]
  ++ when (kvm_enclave c) [Freed PEnclave]
  ++ when (present (vault c)) [Freed PVault]
  ++ when (present (bounded_bus c)) [Freed PBus]
  ++ when (present (db c)) [Freed PDb]
  ++ [Freed PSlots]
  ++ destroy_members false (mkContainer (backend c) (instance_id c) None (db_path c) false None None (audit_log c) false false false None false false None
       (slot_manager c) (login_throttle c) false).

(** ** The module *)

(** The pointer to the slot manager that the calls use. *)
Inductive Pointer : Type := Null | Live | Dangling.

(** The globals; the slots and the throttle that the calls reach through the
    container are those of [p11].  [g_appContainer] keeps the members that were not
    moved out of it. *)
Record Module_ : Type := mkModule {
  p11 : P11;
  g_dbConnection : option Conn;
  g_boundedBus : option Bus.BoundedNotificationBus;
  g_notificationBus : bool;
  g_auditLog : option AuditChoice;
  g_notificationRepo : bool;
  g_notificationDispatcher : bool;
  g_ledgerClient : bool;
  g_ledgerWorker : option (list SignatureRecord);
  g_signatureDispatcher : bool;
  g_vault : option Vault;
  g_appContainer : option AppContainer;
  slots_ptr : Pointer
}.

Definition no_slots : Slots.v_SlotManagerCore_M1 := Slots.mkSlotManager ∅ 0.

Definition with_lifecycle (st : P11) (init : bool) (sm : Slots.v_SlotManagerCore_M1) (th : option Throttle.LoginThrottle) : P11 :=
  mkP11 init sm (g_sessionManager st) th (events_ st).

(** What is left in the container after the moves. *)
Definition moved_from (c : AppContainer) : AppContainer :=
  mkContainer (backend c) (instance_id c) None (db_path c) false None None None false false (outbox_poller c) (store c) false
    (verification_service c) None (slot_manager c) (login_throttle c) (kvm_enclave c).

Definition C_Initialize (sys : System) (fs : FS) (m : Module_) : Call (CK_RV * Module_ * FS) * list Life :=
  if g_initialized (p11 m) then (Answer (CKR_CRYPTOKI_ALREADY_INITIALIZED, m, fs), [])
  else
    let '(b, fs, life) := create_app_container sys fs in
    match b with
    | Returned c =>
      let m := mkModule (with_lifecycle (p11 m) true (slot_manager c) (login_throttle c)) (db c) (bounded_bus c) (present (bounded_bus c)) (audit_log c)
                 (notif_repo c) (notif_dispatcher c) (ledger_client c) (ledger_worker c) (dispatcher c) (vault c) (Some (moved_from c)) Live in
      if fips_mode sys && negb (fips_self_test sys) then (Answer (CKR_GENERAL_ERROR, m, fs), life)
      else (Answer (CKR_OK, m, fs), life)
    | Throws _ =>
      (Answer (CKR_GENERAL_ERROR,
               mkModule (with_lifecycle (p11 m) false (g_slotManager (p11 m)) None) None None false None false false false None false None None Dangling, fs), life)
    | NullDereference => (Crash, life)
    | Waiting => (Blocked, life)
    end.

(** The default token into the vault; [None] when the write does not come back. *)
Definition persist_default_token (sys : System) (fs : FS) (m : Module_) : option FS :=
  match g_vault m, p11_get_token (p11 m) 0 with
  | Some v, Some token =>
    match persist_token_to_vault (sys_save sys) token v (sys_salt sys) (sys_nonce sys) with
    | (Running, _, _) => None
    | (_, _, ops) => Some (run_ops fs ops)
    end
  | _, _ => Some fs
  end.

Definition finalize_order (m : Module_) : list Life :=
  when (present (g_vault m)) [Freed PVault]
  ++ when (g_notificationDispatcher m) [Stopped PNotifier; Freed PNotifier]
  ++ when (g_notificationRepo m) [Freed PRepo]
  ++ when (present (g_ledgerWorker m)) [Stopped PWorker; Freed PWorker]
  ++ when (g_ledgerClient m) [Freed PClient]
  ++ when (g_signatureDispatcher m) [Freed PDispatcher]
  ++ when (present (g_boundedBus m)) [Freed PBus]
  ++ when (present (g_dbConnection m)) [Freed PDb]
  ++ match g_appContainer m with Some c => destroy_members true c | None => [] end.

Definition C_Finalize (sys : System) (fs : FS) (m : Module_) (pReserved_null : bool) : Call (CK_RV * Module_ * FS) * list Life :=
  if negb (g_initialized (p11 m)) then (Answer (CKR_CRYPTOKI_NOT_INITIALIZED, m, fs), [])
  else if negb pReserved_null then (Answer (CKR_ARGUMENTS_BAD, m, fs), [])
  else match persist_default_token sys fs m with
  | None => (Blocked, [])
  | Some fs =>
    (Answer (CKR_OK, mkModule (with_lifecycle (p11 m) false no_slots None) None None false (g_auditLog m) false false false None false None None Null, fs),
     finalize_order m)
  end.

Record Info : Type := mkInfo {
  cryptokiVersion : Z * Z;
  manufacturerID : list byte;
  i_flags : Z;
  libraryDescription : list byte;
  libraryVersion : Z * Z
}.

(** [memset] and [memcpy] into a field of 32 bytes. *)
Definition field32 (s : string) : list byte := let b := take 32 (bytes_of s) in b ++ replicate (32 - length b) x00.

Definition C_GetInfo (version : Z * Z) (pInfo_null : bool) : CK_RV * option Info :=
  if pInfo_null then (CKR_ARGUMENTS_BAD, None)
  else (CKR_OK, Some (mkInfo (2, 40) (field32 "vHSM") 0 (field32 "vHSM PKCS#11 Module") version)).

(** ** Starting *)

Definition default_token (sys : System) : v_TokenCore_M1 := new_core DEFAULT_LABEL DEFAULT_ID (sys_now sys).

Definition default_slots (sys : System) : Slots.v_SlotManagerCore_M1 :=
  ensure_default_token_for_container (sys_now sys) (Slots.mkSlotManager ∅ 0).

Lemma default_slots_token sys : token0 (default_slots sys) = Some (default_token sys).
Proof. reflexivity. Qed.

Lemma token0_put sm t t0 : token0 sm = Some t0 -> token0 (put_token0 sm t) = Some t.
Proof.
  unfold token0, put_token0, Slots.v_get_slot. cbn [Slots.v_slots_]. rewrite lookup_alter_eq. by destruct (Slots.v_slots_ sm !! 0).
Qed.

(** The database at a path, opened and with its schema. *)
Definition opens (sys : System) (path : list byte) : option (list byte * Conn) :=
  match make_sqlite_connection sys path with
  | Some conn => match bootstrap sys conn with Ok r => Some r | Throw _ => None end
  | None => None
  end.

(** The database of the db backend. *)
Definition primary_store (sys : System) : option (list byte * Conn) :=
  if ledger_configured sys then None else opens sys (resolve_db_path_for_container sys).

Lemma vault_keeps_token sys fs sm t0 v sm' fs' :
  token0 sm = Some t0 -> open_or_create_vault sys fs sm = Some (v, sm', fs') -> is_Some (token0 sm').
Proof.
  intros Ht. unfold open_or_create_vault. rewrite Ht. destruct (given _) as [path|], (getenv sys "VHSM_VAULT_PASSWORD") as [pw|]; try (intros [= <- <- <-]; by rewrite Ht).
  destruct (bool_decide _).
  - destruct (open_vault _ _ _) as [w|]; [|intros [= <- <- <-]; by rewrite Ht]. destruct (valid_ w); [|intros [= <- <- <-]; by rewrite Ht].
    destruct (restore_token_from_vault _ _ _) as [t|]; intros [= <- <- <-]; [|by rewrite Ht]. by rewrite (token0_put sm t t0).
  - destruct (Snapshot.serialize_token_snapshot _); [|intros [= <- <- <-]; by rewrite Ht].
    destruct (create _ _ _ _ _ _ _) as [[[] ?] ?]; [| |done]; intros [= <- <- <-]; by rewrite Ht.
Qed.

(** What [create_app_container] comes to with the db backend. *)
Lemma create_db sys fs :
  resolve_backend sys = Db ->
  fst (create_app_container sys fs) =
  match primary_store sys with
  | None => (Throws (match check_backend_exclusivity sys Db with
                     | Throw e => e
                     | Ok _ => match make_sqlite_connection sys (resolve_db_path_for_container sys) with
                               | None => RuntimeError "VHSM: cannot open SQLite DB at "
                               | Some _ => RuntimeError "VHSM: SQLite schema bootstrap failed at "
                               end
                     end), fs)
  | Some (id, conn) =>
    match open_or_create_vault sys fs (default_slots sys) with
    | None => (Waiting, fs)
    | Some (v, sm, fs) =>
      (Returned (mkContainer Db id (Some conn) (resolve_db_path_for_container sys) false None (Some (Bus.new_bus 1024))
                   (Some (Fallback ((resolve_db_path_for_container sys ++ bytes_of ".audit") ++ bytes_of ".fallback"))) true (notification_ok sys) (poller_ok sys)
                   (Some DbStoreAdapter) true true v sm (Some (Throttle.mkThrottle Throttle.default_policy ∅)) true), fs)
    end
  end.
Proof.
  intros Hb. unfold create_app_container, primary_store, check_backend_exclusivity, opens. rewrite Hb. cbn [empty_container backend].
  change (bool_decide (Db = Db)) with true. cbn [andb]. destruct (ledger_configured sys); [done|].
  unfold open_storage. cbn [backend empty_container]. destruct (make_sqlite_connection _ _) as [conn|]; [|done].
  destruct (bootstrap sys conn) as [[id conn']|e]; [|done].
  change (token0 (slot_manager (add_bus sys _))) with (token0 (default_slots sys)). rewrite default_slots_token.
  unfold add_notifications. cbn [add_bus with_storage db present]. unfold add_ledger. cbn [db backend]. change (bool_decide (Db = Ledger)) with false.
  rewrite andb_false_r. cbn [andb]. unfold finish_container, choose_store. cbn [backend db present slot_manager with_storage empty_container].
  fold (default_slots sys). by destruct (open_or_create_vault _ _ _) as [[[v sm] fs']|].
Qed.


(** ** Restarting *)

Section Restart.
Context {CL : Vault.ScryptoLaws C}.

(** C26: A restart recovers the token: when a module is finalized whose slot 0 holds a
    token under the label and identifier the module gives it, with a KEK and no session
    counted, and the system writes the vault file, the next start on that vault, with
    that password and a database that comes up, answers CKR_OK and its slot 0 holds a
    token with the same snapshot: the flags, the failure counters and locks of both roles,
    the threshold and the KEK.  (The PINs are not in a snapshot and do not come back.)
    The vault is open again for the next restart. *)
Theorem restart_recovers_token (sys sys2 : System) (fs : FS) (m : Module_) (v : Vault) (t : v_TokenCore_M1)
    (Hm : g_initialized (p11 m) = true) (Hv : g_vault m = Some v) (Ht : p11_get_token (p11 m) 0 = Some t)
    (Hown : v_label_ t = DEFAULT_LABEL /\ v_id_ t = DEFAULT_ID /\ v_session_count_ t = 0 /\ v_rw_session_count_ t = 0)
    (Hpath : given (getenv sys2 "VHSM_VAULT_PATH") = Some (path_ v)) (Hpw : getenv sys2 "VHSM_VAULT_PASSWORD" = Some (password_ v))
    (Hne : password_ v <> []) (Hs : length (sys_salt sys) = K_VAULT_SALT_LEN) (Hn : length (sys_nonce sys) = K_VAULT_NONCE_LEN)
    (Hsnap : Snapshot.wf_snapshot (snapshot_from_token t)) (Hkek : v_get_kek t <> []) (Hfit : len (v_get_kek t) < 2 ^ 63)
    (Hb : resolve_backend sys2 = Db) (Hdb : is_Some (primary_store sys2)) (Hfips : fips_mode sys2 = true -> fips_self_test sys2 = true) :
  exists bytes, Snapshot.serialize_token_snapshot (snapshot_from_token t) = Ok bytes /\
  (cooperative (sys_save sys) (68 + len bytes) ->
   exists m1 fs1 m2 t2,
     fst (C_Finalize sys fs m true) = Answer (CKR_OK, m1, fs1) /\ fst (C_Initialize sys2 fs1 m1) = Answer (CKR_OK, m2, fs1) /\
     p11_get_token (p11 m2) 0 = Some t2 /\ snapshot_from_token t2 = snapshot_from_token t /\
     g_vault m2 = Some (mkVault (path_ v) (password_ v) 1 true)).
Proof.
  destruct Hdb as [[id conn] Hdb].
  assert (Hsame : installed (default_token sys2) (snapshot_from_token t) = snapshot_from_token t).
  { destruct Hown as (H1 & H2 & H3 & H4). unfold installed, snapshot_from_token. cbn. by rewrite H1, H2, H3, H4. }
  assert (Hl : 0 < len (password_ v)) by (destruct (password_ v) as [|x l]; [done|rewrite len_cons; pose proof (len_nonneg l); lia]).
  destruct (snapshot_restores (sys_save sys) fs t (default_token sys2) v (sys_salt sys) (sys_nonce sys) Hl Hs Hn Hsnap Hkek Hfit new_store_wf)
    as (bytes & Hser & H); [right; by vm_compute|].
  exists bytes. split; [done|]. intros Hco. unfold C_Finalize, persist_default_token. rewrite Hm, Hv, Ht. unfold persist_token_to_vault. rewrite Hser.
  pose proof (save_file (sys_save sys) fs v (sys_salt sys) (sys_nonce sys) bytes) as Hf.
  destruct (save _ _ _ _ _) as [[o v'] tr]. destruct H as [Ho H]. specialize (Ho Hco). subst o.
  destruct (H eq_refl) as (_ & Hopen & t2 & Ht2 & Hres). rewrite Hsame in Ht2. set (fs1 := run_ops fs tr) in *.
  eexists _, fs1, _, t2. split; [reflexivity|]. unfold C_Initialize. cbn [p11 g_initialized with_lifecycle].
  pose proof (create_db sys2 fs1 Hb) as Hc. rewrite Hdb in Hc. unfold open_or_create_vault in Hc.
  rewrite Hpath, Hpw, default_slots_token, bool_decide_eq_true_2 in Hc by (exact (Hf eq_refl)). rewrite Hopen in Hc. cbn [valid_] in Hc. rewrite Hres in Hc.
  destruct (create_app_container sys2 fs1) as [[b fs2] life]. cbn [fst] in Hc. injection Hc as -> ->.
  assert (E : fips_mode sys2 && negb (fips_self_test sys2) = false) by (destruct (fips_mode sys2); [by rewrite Hfips|done]). rewrite E. cbn [fst].
  split; [reflexivity|]. split; [|by split]. exact (token0_put (default_slots sys2) t2 _ (default_slots_token sys2)).
Qed.

End Restart.

(** ** Teardown *)

(** What the thread of a part uses. *)
Definition borrows (p : Part) : list Part :=
  match p with
  | PWorker => [PClient; PBus; PDb; PAudit; PSlots]
  | PNotifier => adapters ++ [PBus; PRepo; PDb]
  | PPoller => [PDb; PBus]
  | _ => []
  end.

(** The members of the container among them: not the four adapters, which are local to
    the block that sets up the notifications. *)
Definition borrows_members (p : Part) : list Part := List.filter (fun q => negb (bool_decide (q ∈ adapters))) (borrows p).

Definition has (p : Part) (l : list Part) : bool := existsb (fun q => bool_decide (q = p)) l.
Definition without (p : Part) (l : list Part) : list Part := List.filter (fun q => negb (bool_decide (q = p))) l.

(** What is alive and which threads run. *)
Definition life_step (s : list Part * list Part) (e : Life) : list Part * list Part :=
  let (live, running) := s in
  match e with
  | Made p => (p :: live, running)
  | Started p => (live, p :: running)
  | Stopped p => (live, without p running)
  | Freed p => (without p live, running)
  end.

(** No thread uses what is gone; a part is freed once. *)
Definition sound (uses : Part -> list Part) (s : list Part * list Part) : bool :=
  forallb (fun p => has p (fst s) && forallb (fun q => has q (fst s)) (uses p)) (snd s).

Fixpoint safe_from (uses : Part -> list Part) (s : list Part * list Part) (tr : list Life) : bool :=
  match tr with
  | [] => true
  | e :: tr =>
    (match e with Freed p => has p (fst s) | _ => true end)
    && sound uses (life_step s e) && safe_from uses (life_step s e) tr
  end.

Ltac fields :=
  cbn [backend instance_id db db_path ledger_client ledger_worker bounded_bus audit_log notif_repo notif_dispatcher outbox_poller store dispatcher
       verification_service vault slot_manager login_throttle kvm_enclave present].


(** ** What a restart leaves *)

(** The sessions live on across a finalization and the next start. *)
Lemma finalize_keeps_sessions sys fs m rv m' fs' :
  fst (C_Finalize sys fs m true) = Answer (rv, m', fs') -> g_sessionManager (p11 m') = g_sessionManager (p11 m).
Proof.
  unfold C_Finalize. destruct (negb _); [by intros [= <- <- <-]|]. cbn [negb]. destruct (persist_default_token _ _ _); [|done]. by intros [= <- <- <-].
Qed.

Lemma initialize_keeps_sessions sys fs m rv m' fs' :
  fst (C_Initialize sys fs m) = Answer (rv, m', fs') -> g_sessionManager (p11 m') = g_sessionManager (p11 m).
Proof.
  unfold C_Initialize. destruct (g_initialized _); [by intros [= <- <- <-]|]. destruct (create_app_container sys fs) as [[b fs1] life].
  destruct b as [c|e| |]; [|by intros [= <- <- <-]|done..]. destruct (_ && _); by intros [= <- <- <-].
Qed.

End Lifecycle.

(** ** Witnesses and departures *)

Module LifecycleSamples.

#[local] Existing Instance Vault.toy_crypto.
#[local] Existing Instance Vault.toy_laws.

Definition env_of (l : list (string * string)) (name : string) : option (list byte) :=
  option_map (fun p => bytes_of (snd p)) (List.find (fun p => String.eqb (fst p) name) l).

Definition sys_with (env : list (string * string)) (dirs_ok sqlite_ok self_test : bool) : System :=
  mkSystem (env_of env) (fun _ => dirs_ok) (fun _ => false) [] (fun _ => if sqlite_ok then Some empty_db else None)
    (fun c => Ok (bytes_of "inst", c)) (fun _ => None) true true true true no_fault self_test
    (match env_of env "VHSM_FIPS" with Some _ => true | None => false end) 0 Vault.sample_sys Vault.sample_salt Vault.sample_nonce.

Definition plain_build : Build := mkBuild false false false.
Definition ledger_build : Build := mkBuild true false false.
Definition no_key (k : list byte) : list byte := k.

Definition off : Module_ :=
  mkModule (mkP11 false no_slots (SessMgr.new_manager 0) None []) None None false None false false false None false None None Null.

Definition vault_env : list (string * string) := [("VHSM_VAULT_PATH", "/v"); ("VHSM_VAULT_PASSWORD", "pw")]%string.

(** A running module with a vault, and the default token with a KEK and a user PIN. *)
Definition own_token : v_TokenCore_M1 :=
  snd (initialize_user_pin 0 (snd (token_create_object (new_core DEFAULT_LABEL DEFAULT_ID 0) (kek_object (bytes_of "kek")))) (Some (bytes_of "1234")) 4).

Definition vaulted : Module_ :=
  mkModule (mkP11 true (Slots.mkSlotManager {[ 0 := Slots.insert_token (Slots.new_slot 0) own_token ]} 0) (SessMgr.new_manager 0) None [])
    None None false None false false false None false (Some Vault.sample_vault) None Live.

Definition no_database : System := sys_with [] true false true.


Lemma restart_recovers_token_witness :
  exists bytes, Snapshot.serialize_token_snapshot (snapshot_from_token own_token) = Ok bytes /\
  (cooperative Vault.sample_sys (68 + len bytes) ->
   exists m1 fs1 m2 t2,
     fst (C_Finalize (sys_with [] true true true) ∅ vaulted true) = Answer (CKR_OK, m1, fs1) /\
     fst (C_Initialize plain_build no_key (sys_with vault_env true true true) fs1 m1) = Answer (CKR_OK, m2, fs1) /\
     p11_get_token (p11 m2) 0 = Some t2 /\ snapshot_from_token t2 = snapshot_from_token own_token /\
     g_vault m2 = Some (mkVault (bytes_of "/v") (bytes_of "pw") 1 true)).
Proof.
  apply (restart_recovers_token plain_build no_key (sys_with [] true true true) (sys_with vault_env true true true) ∅ vaulted Vault.sample_vault own_token);
    try reflexivity; try discriminate.
  - split_and!; reflexivity.
  - vm_compute. intuition congruence.
  - by eexists.
Defined.

(** Where the directory of the database cannot be made, the module starts on a database in memory. *)
Lemma unwritable_home_runs_in_memory :
  resolve_db_path_for_container (sys_with [] false true true) = MEMORY /\
  match fst (C_Initialize plain_build no_key (sys_with [] false true true) ∅ off) with
  | Answer (rv, m', _) => rv = CKR_OK /\ g_signatureDispatcher m' = true
  | _ => False
  end.
Proof. by vm_compute. Qed.

(** With the ledger backend a database that does not open leaves a module without dispatcher, bus, audit log and throttle, and CKR_OK. *)
Lemma ledger_without_db_answers_ok :
  match fst (C_Initialize ledger_build no_key (sys_with [("VHSM_STORE_BACKEND", "ledger")]%string true false true) ∅ off) with
  | Answer (rv, m', _) => rv = CKR_OK /\ g_signatureDispatcher m' = false /\ g_auditLog m' = None /\ Pkcs11.login_throttle (p11 m') = None
  | _ => False
  end.
Proof. by vm_compute. Qed.

(** A build without the ledger, asked for the ledger backend and allowed the store in memory, makes the dispatcher on no database. *)
Lemma unbuilt_ledger_crashes :
  fst (C_Initialize plain_build no_key (sys_with [("VHSM_STORE_BACKEND", "ledger"); ("VHSM_ALLOW_INMEMORY", "1")]%string true true true) ∅ off) = Crash.
Proof. by vm_compute. Qed.

(** A failed self-test is reported, and the module is initialized all the same: the next call is served, and a new start is refused. *)
Lemma failed_self_test_leaves_initialized :
  match fst (C_Initialize plain_build no_key (sys_with [("VHSM_FIPS", "1")]%string true true false) ∅ off) with
  | Answer (rv, m', _) => rv = CKR_GENERAL_ERROR /\ g_initialized (p11 m') = true /\ fst (fst (C_OpenSession 0 (p11 m') 0 6 false)) = CKR_OK
  | _ => False
  end.
Proof. by vm_compute. Qed.

(** A vault that does not open, here for its password, is left out and the start succeeds with a fresh token. *)
Lemma wrong_vault_password_ignored :
  let fs := run_ops ∅ (snd (persist_token_to_vault Vault.sample_sys crowded_token Vault.sample_vault Vault.sample_salt Vault.sample_nonce)) in
  let sys := sys_with [("VHSM_VAULT_PATH", "/v"); ("VHSM_VAULT_PASSWORD", "no")]%string true true true in
  match fst (C_Initialize plain_build no_key sys fs off) with
  | Answer (rv, m', fs') => rv = CKR_OK /\ g_vault m' = None /\ p11_get_token (p11 m') 0 = Some (default_token sys) /\ fs' !! bytes_of "/v" = fs !! bytes_of "/v"
  | _ => False
  end.
Proof. vm_compute. repeat split; reflexivity. Qed.

(** The audit log is chosen before the vault gives the token its KEK. *)
Lemma audit_not_chained_with_kek :
  let fs := run_ops ∅ (snd (persist_token_to_vault Vault.sample_sys crowded_token Vault.sample_vault Vault.sample_salt Vault.sample_nonce)) in
  match fst (C_Initialize plain_build no_key (sys_with vault_env true true true) fs off) with
  | Answer (rv, m', _) =>
    rv = CKR_OK /\ option_map v_get_kek (p11_get_token (p11 m') 0) = Some (v_get_kek crowded_token) /\ v_get_kek crowded_token <> [] /\
    match g_auditLog m' with Some (Fallback _) => True | _ => False end
  | _ => False
  end.
Proof. vm_compute. repeat split; try reflexivity. discriminate. Qed.

(** [C_Finalize] frees the database and the bus under the running poller; the same container is safe with [destroy_app_container]. *)
Lemma finalize_frees_under_poller :
  let (r, made) := C_Initialize plain_build no_key (sys_with [] true true true) ∅ off in
  match r with
  | Answer (_, m', _) => safe_from borrows_members (fold_left life_step made ([], [])) (finalize_order m') = false
  | _ => False
  end.
Proof. by vm_compute. Qed.

(** The adapters are gone when their block ends, while the dispatcher that points to them runs. *)
Lemma adapters_dangle :
  let '(b, _, made) := create_app_container plain_build no_key (sys_with [] true true true) ∅ in
  safe_from borrows ([], []) made = false /\ safe_from borrows_members ([], []) made = true.
Proof. by vm_compute. Qed.

(** A session logged in before a restart is logged in after it. *)
Lemma login_survives_restart :
  let m := mkModule (snd (C_Login 0 sample_p11 1 CKU_USER (Some (bytes_of "1234")) 4 true)) None None false None false false false None false None None Live in
  match fst (C_Finalize (sys_with [] true true true) ∅ m true) with
  | Answer (_, m1, fs1) =>
    match fst (C_Initialize plain_build no_key (sys_with [] true true true) fs1 m1) with
    | Answer (rv, m2, _) => rv = CKR_OK /\ option_map Sess.userType_ (p11_get_session (p11 m2) 1) = Some CKU_USER
    | _ => False
    end
  | _ => False
  end.
Proof. vm_compute. by split. Qed.

End LifecycleSamples.
