(* ===== verification/Clock.v ===== *)
(** * Clocks and timestamps

    [src/src/core/clock_utils.h], with [frozen_hsm_clock.cpp] and
    [system_hsm_clock.cpp].  A time point is a signed 64-bit number of
    milliseconds since 1970.  [gmtime_r], [timegm], [strftime] and [sscanf] are
    the C library's: the proleptic Gregorian calendar below, the decimal fields
    of [strftime], and the conversions [%4d], [%2d] and [%3d] of [sscanf] (white
    space is skipped, a sign counts as one of the characters, and the text left
    over after the last conversion is not looked at). *)

From S2P Require Import Prelude Codec Types AuditLog KeyPolicy.

#[local] Ltac Zify.zify_post_hook ::= Z.to_euclidean_division_equations.

(** ** The calendar *)

Definition is_leap (y : Z) : bool := (y mod 4 =? 0) && (negb (y mod 100 =? 0) || (y mod 400 =? 0)).

Definition month_lengths (leap : bool) : list Z :=
  [31; if leap then 29 else 28; 31; 30; 31; 30; 31; 31; 30; 31; 30; 31].

(** Days of the year before month [m], counted from 0. *)
Definition days_before_month (leap : bool) (m : nat) : Z := foldr Z.add 0 (take m (month_lengths leap)).

(** Days from 1 January of year 1 to 1 January of year [y]. *)
Definition days_before_year (y : Z) : Z := 365 * (y - 1) + (y - 1) / 4 - (y - 1) / 100 + (y - 1) / 400.

(** 1 January 1970 is day 719162. *)
Definition EPOCH_DAYS : Z := 719162.

(** [std::tm], with the year and the month as [gmtime_r] leaves them. *)
Record tm : Type := mkTm {
  tm_year : Z; tm_mon : Z; tm_mday : Z; tm_hour : Z; tm_min : Z; tm_sec : Z }.

(** [timegm]: the fields beyond the month may be out of their range. *)
Definition timegm (t : tm) : Z :=
  let y := tm_year t + 1900 in
  let days := days_before_year y + days_before_month (is_leap y) (Z.to_nat (tm_mon t)) + tm_mday t - 1 - EPOCH_DAYS in
  days * 86400 + tm_hour t * 3600 + tm_min t * 60 + tm_sec t.

(** The year, and the day of the year from 0, of a day counted from year 1: the
    cycles of 400, 100, 4 and 1 years. *)
Definition year_day (n : Z) : Z * Z :=
  let era := n / 146097 in let doe := n mod 146097 in
  let c := Z.min 3 (doe / 36524) in let doc := doe - 36524 * c in
  let q := doc / 1461 in let doq := doc - 1461 * q in
  let y := Z.min 3 (doq / 365) in
  (400 * era + 100 * c + 4 * q + y + 1, doq - 365 * y).

(** The month, from 0, and the day of the month, from 1. *)
Fixpoint month_day (ls : list Z) (doy : Z) : Z * Z :=
  match ls with
  | [] => (0, doy + 1)
  | l :: ls => if doy <? l then (0, doy + 1) else let '(m, d) := month_day ls (doy - l) in (m + 1, d)
  end.

(** [gmtime_r]: null when the year does not fit an [int]. *)
Definition gmtime_r (t : Z) : option tm :=
  let '(y, doy) := year_day (t / 86400 + EPOCH_DAYS) in
  let '(m, d) := month_day (month_lengths (is_leap y)) doy in
  let s := t mod 86400 in
  if (- 2 ^ 31 <=? y - 1900) && (y - 1900 <? 2 ^ 31) then
    Some (mkTm (y - 1900) m d (s / 3600) (s mod 3600 / 60) (s mod 60))
  else None.

(** ** [to_iso8601] *)

(** [%0nd] of [printf]. *)
Definition pad (n : nat) (z : Z) : list byte :=
  replicate (n - length (int_to_string z)) (to_u8 48) ++ int_to_string z.

(** [strftime] with ["%Y-%m-%dT%H:%M:%S"]. *)
Definition strftime (t : tm) : list byte :=
  int_to_string (tm_year t + 1900) ++ to_u8 45 :: pad 2 (tm_mon t + 1) ++ to_u8 45 :: pad 2 (tm_mday t) ++
  to_u8 84 :: pad 2 (tm_hour t) ++ to_u8 58 :: pad 2 (tm_min t) ++ to_u8 58 :: pad 2 (tm_sec t).

Definition to_epoch_ms (tp : Z) : Z := tp.
Definition from_epoch_ms (ms : Z) : Z := ms.

(** The division and the remainder of C++ round towards zero. *)
Definition split_ms (total_ms : Z) : Z * Z :=
  let seconds := Z.quot total_ms 1000 in
  let ms_part := Z.rem total_ms 1000 in
  (if 0 <=? ms_part then seconds else seconds - 1, if 0 <=? ms_part then ms_part else ms_part + 1000).

Definition to_iso8601 (tp : Z) : res (list byte) :=
  let '(sec_norm, ms_norm) := split_ms (to_epoch_ms tp) in
  match gmtime_r sec_norm with
  | None => Throw (InvalidArgument "gmtime_r got an invalid argument")
  | Some utc_tm => Ok (strftime utc_tm ++ to_u8 46 :: pad 3 ms_norm ++ [to_u8 90])
  end.

(** ** [from_iso8601] *)

(** A directive of the format: [%<width>d] or a character to match. *)
Inductive directive : Type := Conv (width : nat) | Lit (c : byte).

(** The digits among the first [n] characters, their value, and the rest. *)
Fixpoint take_digits (n : nat) (s : list byte) (acc : Z) (some : bool) : option (Z * list byte) :=
  match n, s with
  | S n, c :: r =>
    if is_digit c then take_digits n r (10 * acc + (u8 c - 48)) true
    else if some then Some (acc, s) else None
  | _, _ => if some then Some (acc, s) else None
  end.

Definition conv_int (width : nat) (s : list byte) : option (Z * list byte) :=
  match skip_spaces s with
  | [] => None
  | c :: r =>
    if u8 c =? 45 then
      match take_digits (pred width) r 0 false with Some (v, r) => Some (- v, r) | None => None end
    else if u8 c =? 43 then take_digits (pred width) r 0 false
    else take_digits width (c :: r) 0 false
  end.

(** The values [sscanf] assigns before it stops. *)
Fixpoint sscanf (fmt : list directive) (s : list byte) : list Z :=
  match fmt with
  | [] => []
  | Conv w :: fmt => match conv_int w s with Some (v, r) => v :: sscanf fmt r | None => [] end
  | Lit c :: fmt =>
    match s with d :: r => if bool_decide (c = d) then sscanf fmt r else [] | [] => [] end
  end.

Definition fmt_seconds : list directive :=
  [Conv 4; Lit (to_u8 45); Conv 2; Lit (to_u8 45); Conv 2; Lit (to_u8 84);
   Conv 2; Lit (to_u8 58); Conv 2; Lit (to_u8 58); Conv 2].

Definition fmt_short : list directive := fmt_seconds ++ [Lit (to_u8 90)].
Definition fmt_long : list directive := fmt_seconds ++ [Lit (to_u8 46); Conv 3; Lit (to_u8 90)].

(** The range checks and the conversion to milliseconds. *)
Definition check_fields (year mon mday hour min sec ms : Z) : option Z :=
  let utc_tm := mkTm (year - 1900) (mon - 1) mday hour min sec in
  if (tm_mon utc_tm <? 0) || (11 <? tm_mon utc_tm) then None
  else if (tm_mday utc_tm <? 1) || (31 <? tm_mday utc_tm) then None
  else if 23 <? tm_hour utc_tm then None
  else if 59 <? tm_min utc_tm then None
  else if 60 <? tm_sec utc_tm then None
  else if (ms <? 0) || (999 <? ms) then None
  else
    let t := timegm utc_tm in
    if t =? -1 then None else Some (from_epoch_ms (t * 1000 + ms)).

Definition from_iso8601 (s : list byte) : option Z :=
  if (len s <? 20) || negb (bool_decide (list.last s = Some (to_u8 90))) then None
  else if len s =? 24 then
    match sscanf fmt_long (c_str s) with
    | [y; mo; d; h; mi; se; ms] => check_fields y mo d h mi se ms
    | _ => None
    end
  else if len s =? 20 then
    match sscanf fmt_short (c_str s) with
    | [y; mo; d; h; mi; se] => check_fields y mo d h mi se 0
    | _ => None
    end
  else None.

(** ** The clocks *)

(** [SystemHsmClock::now]: the nanoseconds of the system clock, floored. *)
Definition system_now (ns : Z) : Z := ns / 1000000.

(** [FrozenHsmClock] holds one time point; addition is that of [i64]. *)
Record FrozenHsmClock : Type := mkFrozen { t_ : Z }.

Definition frozen_now (c : FrozenHsmClock) : Z := t_ c.
Definition advance (c : FrozenHsmClock) (delta : Z) : FrozenHsmClock := mkFrozen (t_ c + delta).
Definition set_time (c : FrozenHsmClock) (t : Z) : FrozenHsmClock := mkFrozen t.

(** ** The calendar is sound *)

(** The year of a day starts at most 365 days before it, 366 in a leap year. *)
Lemma year_day_spec n y doy :
  year_day n = (y, doy) -> days_before_year y + doy = n /\ 0 <= doy < (if is_leap y then 366 else 365).
Proof.
  unfold year_day, days_before_year. intros [= <- <-].
  set (era := n / 146097). set (doe := n mod 146097).
  assert (n = 146097 * era + doe /\ 0 <= doe < 146097) as [Hn Hd] by (unfold era, doe; lia).
  clearbody era doe. subst n. set (c := Z.min 3 (doe / 36524)). set (doc := doe - 36524 * c).
  assert (0 <= c <= 3 /\ 0 <= doc <= 36524 /\ (doc = 36524 -> c = 3) /\ doe = 36524 * c + doc)
    as (Hc & Hdoc & Hlast & Hn) by (unfold doc, c; lia).
  clearbody doc c. subst doe. set (q := doc / 1461). set (doq := doc - 1461 * q).
  assert (0 <= q <= 24 /\ 0 <= doq <= 1460 /\ doc = 1461 * q + doq) as (Hq & Hdoq & Hn) by (unfold doq, q; lia).
  clearbody doq q. subst doc. set (y := Z.min 3 (doq / 365)).
  assert (0 <= y <= 3 /\ 0 <= doq - 365 * y <= 365 /\ (doq - 365 * y = 365 -> y = 3)) as (Hy & Hdoy & Hleap)
    by (unfold y; lia).
  clearbody y. set (Y := 400 * era + 100 * c + 4 * q + y).
  assert (Y / 4 = 100 * era + 25 * c + q /\ Y / 100 = 4 * era + c /\ Y / 400 = era) as (E4 & E100 & E400)
    by (unfold Y; lia).
  replace (Y + 1 - 1) with Y by lia. rewrite E4, E100, E400. split; [unfold Y; lia|]. split; [lia|].
  assert (doq - 365 * y = 365 -> is_leap (Y + 1) = true) as Hl.
  { intros H. specialize (Hleap H). unfold is_leap. subst y.
    assert ((Y + 1) mod 4 = 0) as -> by (unfold Y; lia).
    destruct (decide (q = 24)) as [->|].
    - assert (c = 3) as -> by lia. assert ((Y + 1) mod 400 = 0) as -> by (unfold Y; lia). apply orb_true_r.
    - assert ((Y + 1) mod 100 <> 0) by (unfold Y; lia). rewrite (proj2 (Z.eqb_neq ((Y + 1) mod 100) 0)) by done. done. }
  destruct (is_leap (Y + 1)); [lia|]. destruct (decide (doq - 365 * y = 365)) as [H|]; [|lia].
  discriminate (Hl H).
Qed.

(** The month and day of a day of the year. *)
Lemma month_day_spec ls doy m d :
  Forall (fun l => 0 < l <= 31) ls -> 0 <= doy < foldr Z.add 0 ls -> month_day ls doy = (m, d) ->
  0 <= m < len ls /\ 1 <= d <= 31 /\ foldr Z.add 0 (take (Z.to_nat m) ls) + d - 1 = doy.
Proof.
  intros H. revert doy m d. induction H as [|l ls Hl Hls IH]; cbn [foldr month_day]; intros doy m d Hd; [lia|].
  rewrite len_cons. pose proof (len_nonneg ls). destruct (doy <? l) eqn:E.
  - intros [= <- <-]. change (Z.to_nat 0) with 0%nat. cbn [take foldr]. lia.
  - destruct (month_day ls (doy - l)) as [m' d'] eqn:E'. intros [= <- <-].
    apply IH in E' as (Hm & Hd' & Hv); [|lia].
    replace (Z.to_nat (m' + 1)) with (S (Z.to_nat m')) by lia. cbn [take foldr]. lia.
Qed.

Lemma month_lengths_ok leap :
  Forall (fun l => 0 < l <= 31) (month_lengths leap) /\
  foldr Z.add 0 (month_lengths leap) = (if leap then 366 else 365) /\ len (month_lengths leap) = 12.
Proof. destruct leap; split_and!; try reflexivity; repeat constructor; lia. Qed.

(** The fields of a broken-down time, each in its range. *)
Definition tm_ok (t : tm) : Prop :=
  0 <= tm_mon t <= 11 /\ 1 <= tm_mday t <= 31 /\ 0 <= tm_hour t <= 23 /\ 0 <= tm_min t <= 59 /\ 0 <= tm_sec t <= 59.

(** [timegm] undoes [gmtime_r]. *)
Lemma timegm_gmtime t u : gmtime_r t = Some u -> timegm u = t /\ tm_ok u.
Proof.
  unfold gmtime_r. destruct (year_day _) as [y doy] eqn:Ey.
  destruct (month_day _ doy) as [m d] eqn:Em. destruct (_ && _); [|discriminate]. intros [= <-].
  apply year_day_spec in Ey as [Hn Hdoy]. destruct (month_lengths_ok (is_leap y)) as (HF & Hs & Hlen).
  apply month_day_spec in Em as (Hm & Hd & Hv); [|done|by rewrite Hs]. rewrite Hlen in Hm.
  unfold timegm, tm_ok, days_before_month. cbn [tm_year tm_mon tm_mday tm_hour tm_min tm_sec].
  replace (y - 1900 + 1900) with y by lia. split; [|lia].
  replace (days_before_year y + _ + d - 1 - EPOCH_DAYS) with (t / 86400) by lia. lia.
Qed.

(** ** Texts *)

Lemma dec_step fuel z acc :
  0 <= z -> dec (S fuel) z acc = if z <? 10 then digit z :: acc else dec fuel (z / 10) (digit (z mod 10) :: acc).
Proof.
  intros Hz. cbn [dec]. destruct (Z.ltb_spec z 10).
  - rewrite Z.div_small, Z.mod_small by lia. done.
  - rewrite (proj2 (Z.eqb_neq (z / 10) 0)) by lia. done.
Qed.

Lemma u8_digit a : 0 <= a < 10 -> u8 (digit a) = 48 + a.
Proof. intros H. unfold digit. rewrite u8_to_u8. apply Z.mod_small. lia. Qed.

Lemma conv_int_digit w a r :
  0 <= a < 10 -> conv_int (S w) (digit a :: r) = take_digits w r a true.
Proof.
  intros H. unfold conv_int. cbn [skip_spaces]. unfold is_space. rewrite !u8_digit by lia.
  rewrite (proj2 (Z.eqb_neq (48 + a) 32)), (proj2 (Z.leb_gt (48 + a) 13)), andb_false_r by lia. cbn [orb].
  rewrite u8_digit, (proj2 (Z.eqb_neq (48 + a) 45)), (proj2 (Z.eqb_neq (48 + a) 43)) by lia. cbn [take_digits].
  unfold is_digit. rewrite u8_digit by lia. rewrite !(proj2 (Z.leb_le _ _)) by lia. cbn [andb]. f_equal. lia.
Qed.

Lemma take_digits_digit n a r acc b :
  0 <= a < 10 -> take_digits (S n) (digit a :: r) acc b = take_digits n r (10 * acc + a) true.
Proof.
  intros H. cbn [take_digits]. unfold is_digit. rewrite u8_digit by lia.
  rewrite !(proj2 (Z.leb_le _ _)) by lia. cbn [andb]. f_equal. lia.
Qed.

(** The two, three and four digits of a number. *)
Lemma pad2_text z : 0 <= z < 100 -> pad 2 z = [digit (z / 10); digit (z mod 10)].
Proof.
  intros H. unfold pad, int_to_string, to_string. rewrite (proj2 (Z.ltb_ge z 0)), dec_step by lia.
  destruct (Z.ltb_spec z 10).
  - rewrite Z.div_small, Z.mod_small by lia. done.
  - rewrite dec_step, (proj2 (Z.ltb_lt (z / 10) 10)) by lia. done.
Qed.

Lemma pad3_text z : 0 <= z < 1000 -> pad 3 z = [digit (z / 100); digit (z / 10 mod 10); digit (z mod 10)].
Proof.
  intros H. unfold pad, int_to_string, to_string. rewrite (proj2 (Z.ltb_ge z 0)), dec_step by lia.
  replace (z / 100) with (z / 10 / 10) by lia. destruct (Z.ltb_spec z 10).
  - rewrite (Z.div_small z 10), (Z.mod_small z 10) by lia. done.
  - rewrite dec_step by lia. destruct (Z.ltb_spec (z / 10) 10).
    + rewrite (Z.div_small (z / 10) 10), (Z.mod_small (z / 10) 10) by lia. done.
    + rewrite dec_step, (proj2 (Z.ltb_lt (z / 10 / 10) 10)) by lia. done.
Qed.

Lemma year_text z :
  1000 <= z < 10000 -> int_to_string z = [digit (z / 10 / 10 / 10); digit (z / 10 / 10 mod 10); digit (z / 10 mod 10); digit (z mod 10)].
Proof.
  intros H. unfold int_to_string, to_string. rewrite (proj2 (Z.ltb_ge z 0)) by lia.
  do 3 (rewrite dec_step by lia; rewrite (proj2 (Z.ltb_ge _ 10)) by lia).
  rewrite dec_step, (proj2 (Z.ltb_lt _ 10)) by lia. done.
Qed.

Lemma conv_two z r : 0 <= z < 100 -> conv_int 2 (pad 2 z ++ r) = Some (z, r).
Proof.
  intros H. rewrite pad2_text by done. cbn [app]. rewrite conv_int_digit, take_digits_digit by lia.
  cbn [take_digits]. f_equal. f_equal. lia.
Qed.

Lemma conv_three z r : 0 <= z < 1000 -> conv_int 3 (pad 3 z ++ r) = Some (z, r).
Proof.
  intros H. rewrite pad3_text by done. cbn [app]. rewrite conv_int_digit, !take_digits_digit by lia.
  cbn [take_digits]. f_equal. f_equal. lia.
Qed.

Lemma conv_year z r : 1000 <= z < 10000 -> conv_int 4 (int_to_string z ++ r) = Some (z, r).
Proof.
  intros H. rewrite year_text by done. cbn [app]. rewrite conv_int_digit, !take_digits_digit by lia.
  cbn [take_digits]. f_equal. f_equal. lia.
Qed.

(** ** Round trip *)

(** The seconds of the years 1000 to 9999, which have four digits. *)
Definition four_digit_year (sec : Z) : Prop := -30610224000 <= sec < 253402300800.

Lemma gmtime_four_digits sec :
  four_digit_year sec -> exists u, gmtime_r sec = Some u /\ 1000 <= tm_year u + 1900 < 10000.
Proof.
  unfold four_digit_year, gmtime_r. intros H.
  destruct (year_day _) as [y doy] eqn:Ey. destruct (month_day _ doy) as [m d].
  apply year_day_spec in Ey as [Hn Hdoy]. unfold EPOCH_DAYS in Hn.
  assert (0 <= doy < 366) as Hd by (destruct (is_leap y); lia).
  assert (364877 <= days_before_year y + doy <= 3652058) as Hb by lia.
  assert (y <> 999) as H999 by (intros ->; change (is_leap 999) with false in Hdoy; vm_compute (days_before_year 999) in Hb; lia).
  assert (1000 <= y < 10000) as Hy by (unfold days_before_year in Hb; clear - Hb Hd H999; lia).
  rewrite (proj2 (Z.leb_le _ _)), (proj2 (Z.ltb_lt _ _)) by lia. eexists. split; [done|].
  cbn [tm_year]. lia.
Qed.

Lemma split_ms_spec ms : split_ms ms = (ms / 1000, ms mod 1000).
Proof. unfold split_ms. destruct (Z.leb_spec 0 (Z.rem ms 1000)); f_equal; lia. Qed.

(** The text of a time point and what it is made of. *)
Definition iso_text (u : tm) (ms : Z) : list byte := strftime u ++ to_u8 46 :: pad 3 ms ++ [to_u8 90].

Lemma clean_iso u ms :
  tm_ok u -> 1000 <= tm_year u + 1900 < 10000 -> 0 <= ms < 1000 ->
  len (iso_text u ms) = 24 /\ list.last (iso_text u ms) = Some (to_u8 90) /\ x00 ∉ iso_text u ms.
Proof.
  unfold tm_ok, iso_text, strftime. intros (H1 & H2 & H3 & H4 & H5) Hy Hms.
  rewrite year_text, !pad2_text, pad3_text by lia. cbn [app]. split_and!; [done..|].
  assert (forall a, 0 <= a < 10 -> x00 <> digit a) as Hd.
  { intros a Ha E. pose proof (u8_digit a Ha) as E'. rewrite <- E in E'. change (u8 x00) with 0 in E'. lia. }
  repeat (apply not_elem_of_cons; split; [first [apply Hd; lia | by vm_compute]|]). apply not_elem_of_nil.
Qed.

Lemma scan_iso u ms :
  tm_ok u -> 1000 <= tm_year u + 1900 < 10000 -> 0 <= ms < 1000 ->
  sscanf fmt_long (iso_text u ms) =
    [tm_year u + 1900; tm_mon u + 1; tm_mday u; tm_hour u; tm_min u; tm_sec u; ms].
Proof.
  unfold tm_ok, iso_text, strftime, fmt_long, fmt_seconds. intros (H1 & H2 & H3 & H4 & H5) Hy Hms.
  rewrite <- !app_assoc. cbn [app sscanf]. rewrite <- !app_assoc. cbn [app].
  rewrite conv_year by lia. rewrite bool_decide_eq_true_2 by done.
  do 5 (rewrite conv_two by lia; rewrite ?bool_decide_eq_true_2 by done; rewrite <- ?app_assoc; cbn [app]).
  rewrite conv_three by lia. rewrite bool_decide_eq_true_2 by done. done.
Qed.

Lemma check_fields_tm u ms :
  tm_ok u -> 0 <= ms < 1000 -> timegm u <> -1 ->
  check_fields (tm_year u + 1900) (tm_mon u + 1) (tm_mday u) (tm_hour u) (tm_min u) (tm_sec u) ms =
    Some (timegm u * 1000 + ms).
Proof.
  intros (H1 & H2 & H3 & H4 & H5) Hms Ht. unfold check_fields.
  replace (mkTm _ _ _ _ _ _) with u
    by (destruct u; cbn [tm_year tm_mon tm_mday tm_hour tm_min tm_sec]; f_equal; lia).
  rewrite !(proj2 (Z.ltb_ge _ _)) by lia. cbn [orb]. rewrite (proj2 (Z.eqb_neq _ _)) by done. done.
Qed.

(** a time point of the years 1000 to 9999, outside the one second before
    1970, is printed as a text of 24 characters that parses back to exactly that
    time point, to the millisecond, before 1970 as after it. *)
Theorem iso8601_roundtrip ms :
  four_digit_year (ms / 1000) -> ms / 1000 <> -1 ->
  exists s, to_iso8601 (from_epoch_ms ms) = Ok s /\ len s = 24 /\ from_iso8601 s = Some (from_epoch_ms ms).
Proof.
  intros Hr Hne. destruct (gmtime_four_digits _ Hr) as (u & Hu & Hy).
  destruct (timegm_gmtime _ _ Hu) as [Ht Hok]. assert (0 <= ms mod 1000 < 1000) as Hm by lia.
  destruct (clean_iso u (ms mod 1000) Hok Hy Hm) as (Hl & Hz & Hn).
  exists (iso_text u (ms mod 1000)). unfold to_iso8601, from_epoch_ms, to_epoch_ms.
  rewrite split_ms_spec, Hu. split_and!; [done|done|].
  unfold from_iso8601. rewrite Hl, (bool_decide_eq_true_2 _ Hz), (c_str_id _ Hn), scan_iso by done.
  cbn [Z.ltb Z.eqb Z.compare Pos.compare Pos.compare_cont Pos.eqb orb negb].
  rewrite check_fields_tm by (done || congruence). unfold from_epoch_ms. f_equal. rewrite Ht. lia.
Qed.

Lemma iso8601_roundtrip_witness :
  to_iso8601 1700000000123 = Ok (bytes_of "2023-11-14T22:13:20.123Z") /\
  from_iso8601 (bytes_of "2023-11-14T22:13:20.123Z") = Some 1700000000123.
Proof.
  destruct (iso8601_roundtrip 1700000000123) as (s & E & _ & E'); [vm_compute; split; congruence|vm_compute; congruence|].
  assert (s = bytes_of "2023-11-14T22:13:20.123Z") as -> by (vm_compute in E |- *; congruence).
  split; [exact E | exact E'].
Defined.

(** The clock that tests use moves by what it is told, and printing what it shows
    depends on nothing else. *)
Lemma advance_now c a b :
  frozen_now (advance (advance c a) b) = frozen_now (advance c (a + b)) /\ frozen_now (set_time c b) = b.
Proof. unfold frozen_now, advance. cbn [t_]. split; [lia|done]. Qed.

(** [system_now] never runs ahead of the system clock, and is late by less than a
    millisecond, also before 1970. *)
Lemma system_now_floor ns : system_now ns * 1000000 <= ns < system_now ns * 1000000 + 1000000.
Proof. unfold system_now. lia. Qed.

(** ** Where the code departs from its comments *)

(** The second before 1970 is a valid time, but [timegm] answers -1 for it, which
    the code takes for an error: a time point in that second is printed and then
    not read back. *)
Lemma last_second_of_1969_not_parsed :
  to_iso8601 (-1) = Ok (bytes_of "1969-12-31T23:59:59.999Z") /\
  from_iso8601 (bytes_of "1969-12-31T23:59:59.999Z") = None.
Proof. split; vm_compute; reflexivity. Qed.

(** "Returns nullopt if the string is malformed": 31 February, an hour of minus
    one and a letter among the milliseconds are accepted. *)
Lemma malformed_accepted :
  from_iso8601 (bytes_of "2023-02-31T00:00:00.000Z") = from_iso8601 (bytes_of "2023-03-03T00:00:00.000Z") /\
  from_iso8601 (bytes_of "2023-03-01T-1:00:00.000Z") = from_iso8601 (bytes_of "2023-02-28T23:00:00.000Z") /\
  from_iso8601 (bytes_of "2023-03-01T00:00:00.1x?Z") = from_iso8601 (bytes_of "2023-03-01T00:00:00.001Z") /\
  is_Some (from_iso8601 (bytes_of "2023-02-31T00:00:00.000Z")).
Proof. split_and!; [vm_compute; reflexivity..|]. vm_compute. eauto. Qed.
