(* ===== verification/Support.v ===== *)
(** * Supporting services

    The small components around the core: the metrics registry ([Metrics],
    [src/src/metrics/metrics.cpp]), the logger ([Log], [src/src/log/]), the
    post-quantum keyring and signatures ([Keyring], [src/src/crypto/pqc_provider.cpp]),
    the signing engine ([Engine], [src/src/crypto/crypto_engine.cpp]), the asymmetric
    keys and their fingerprints ([Asym], [src/src/crypto/ecc.cpp], [rsa.cpp] and
    [src/src/keystore/key_fingerprint.cpp]), the self-test of FIPS mode ([SelfTest],
    [src/src/crypto/fips.cpp]), the instance
    identity ([Instance], [src/src/signature_store/db_hsm_instance_provider.h]) and
    the two adapters of the store port ([Stores],
    [src/src/domain/signing/adapters/]).

    liboqs and [scrypto] are not in the repository: they are the classes [Oqs],
    [Signers] and [AsymLib].  Directory listings, files and database answers are
    arguments. *)

From S2P Require Import Prelude Codec Types AuditLog KeyPolicy Pkcs11 Evp SignatureStore Schema Ledger.

(** ** Metrics *)

Module Metrics.

Inductive Kind : Type := Counter | Gauge.

Record Metric : Type := mkMetric { kind : Kind; help : list byte; value : Z }.

(** [metrics_]. *)
Abbreviation Registry := (gmap (list byte) Metric).

(** A metric that [operator[]] creates. *)
Definition fresh : Metric := mkMetric Counter [] 0.

Definition declare (m : Registry) (name : list byte) (k : Kind) (h : list byte) : Registry :=
  match m !! name with Some _ => m | None => <[name := mkMetric k h 0]> m end.

Definition inc (m : Registry) (name : list byte) (by_ : Z) : Registry :=
  let x := default fresh (m !! name) in <[name := mkMetric Counter (help x) (value x + by_)]> m.

Definition set (m : Registry) (name : list byte) (v : Z) : Registry :=
  let x := default fresh (m !! name) in <[name := mkMetric Gauge (help x) v]> m.

Definition get (m : Registry) (name : list byte) : Z := match m !! name with Some x => value x | None => 0 end.

Definition NEWLINE : list byte := [to_u8 10].

Definition exposition (kv : list byte * Metric) : list byte :=
  let '(name, x) := kv in
  bytes_of "# HELP vhsm_" ++ name ++ bytes_of " " ++ (if bool_decide (help x = []) then name else help x) ++ NEWLINE ++
  bytes_of "# TYPE vhsm_" ++ name ++ bytes_of " " ++ bytes_of (match kind x with Counter => "counter" | Gauge => "gauge" end) ++ NEWLINE ++
  bytes_of "vhsm_" ++ name ++ bytes_of " " ++ int_to_string (value x) ++ NEWLINE.

(** The order of an unordered map is that of the list. *)
Definition prometheus (order : Registry -> list (list byte * Metric)) (m : Registry) : list byte :=
  List.flat_map exposition (order m).

(** What a sequence of calls makes of a metric: the value last set, plus the
    increments since. *)
Inductive mop : Type := Declaring (name : list byte) (k : Kind) (h : list byte) | Inc (name : list byte) (n : Z) | Set_ (name : list byte) (v : Z).

Definition apply (m : Registry) (o : mop) : Registry :=
  match o with Declaring n k h => declare m n k h | Inc n z => inc m n z | Set_ n v => set m n v end.

Definition effect (name : list byte) (v : Z) (o : mop) : Z :=
  match o with
  | Declaring _ _ _ => v
  | Inc n z => if bool_decide (n = name) then v + z else v
  | Set_ n z => if bool_decide (n = name) then z else v
  end.

Lemma get_apply m o name : get (apply m o) name = effect name (get m name) o.
Proof.
  unfold get. destruct o as [n k h|n z|n z]; cbn [apply effect].
  - unfold declare. destruct (m !! n) eqn:E; [done|]. destruct (decide (n = name)) as [->|Hne].
    + by rewrite lookup_insert_eq, E.
    + by rewrite lookup_insert_ne.
  - unfold inc. case_bool_decide as Hn; [subst; rewrite lookup_insert_eq; by destruct (m !! name)|by rewrite lookup_insert_ne].
  - unfold set. case_bool_decide as Hn; [subst; by rewrite lookup_insert_eq|by rewrite lookup_insert_ne].
Qed.

(** Reading a metric after any calls. *)
Lemma metric_value ops name m : get (fold_left apply ops m) name = fold_left (effect name) ops (get m name).
Proof.
  revert m. induction ops as [|o ops IH]; intros m; [done|]. cbn [fold_left]. by rewrite IH, get_apply.
Qed.

(** The help of the first declaration stays, unless the metric was used before. *)
Lemma help_kept m o name x : m !! name = Some x -> exists y, apply m o !! name = Some y /\ help y = help x.
Proof.
  intros Hx. destruct o as [n k h|n z|n z]; cbn [apply].
  - unfold declare. destruct (m !! n) eqn:E; [eauto|]. rewrite lookup_insert_ne by congruence. eauto.
  - unfold inc. destruct (decide (n = name)) as [->|Hne]; [rewrite lookup_insert_eq, Hx; eauto|rewrite lookup_insert_ne by done; eauto].
  - unfold set. destruct (decide (n = name)) as [->|Hne]; [rewrite lookup_insert_eq, Hx; eauto|rewrite lookup_insert_ne by done; eauto].
Qed.

(** A metric that is used before it is declared never gets its help; an increment
    turns a declared gauge into a counter, and may be negative. *)
Lemma late_declaration_ignored :
  let m := fold_left apply [Inc (bytes_of "outbox_depth") 3; Declaring (bytes_of "outbox_depth") Gauge (bytes_of "depth"); Inc (bytes_of "outbox_depth") (-1)] ∅ in
  m !! bytes_of "outbox_depth" = Some (mkMetric Counter [] 2).
Proof. vm_compute. reflexivity. Qed.

End Metrics.

(** ** Logging *)

Module Log.

Inductive Severity : Type := Critical | Error | Warning | Info | Debug | Trace.

Definition rank (s : Severity) : Z :=
  match s with Critical => 0 | Error => 1 | Warning => 2 | Info => 3 | Debug => 4 | Trace => 5 end.

Definition to_syslog_priority (s : Severity) : Z :=
  match s with Critical => 2 | Error => 3 | Warning => 4 | Info => 6 | Debug => 7 | Trace => 7 end.

Definition severity_name (s : Severity) : string :=
  match s with Critical => "CRIT" | Error => "ERROR" | Warning => "WARN" | Info => "INFO" | Debug => "DEBUG" | Trace => "TRACE" end.

(** The sinks by number, and the level. *)
Record Logger : Type := mkLogger { sinks_ : list nat; min_level_ : Severity }.

Definition new_logger : Logger := mkLogger [] Info.
Definition add_sink (l : Logger) (sink : option nat) : Logger :=
  match sink with Some s => mkLogger (sinks_ l ++ [s]) (min_level_ l) | None => l end.
Definition set_level (l : Logger) (s : Severity) : Logger := mkLogger (sinks_ l) s.

(** What was handed to each sink; what a sink throws is swallowed. *)
Definition log (l : Logger) (s : Severity) (module message : list byte) : list (nat * (Severity * list byte * list byte)) :=
  if rank (min_level_ l) <? rank s then [] else map (fun sink => (sink, (s, module, message))) (sinks_ l).

(** [StderrSink::write]: ["[%-5s] [%s] %s\n"]. *)
Definition stderr_line (s : Severity) (module message : list byte) : list byte :=
  let name := bytes_of (severity_name s) in
  bytes_of "[" ++ name ++ replicate (5 - length name) (to_u8 32) ++ bytes_of "] [" ++ c_str module ++ bytes_of "] " ++ c_str message ++ [to_u8 10].

(** [SyslogSink::write]. *)
Definition syslog_call (s : Severity) (module message : list byte) : Z * list byte :=
  (to_syslog_priority s, bytes_of "[" ++ c_str module ++ bytes_of "] " ++ c_str message).

(** [global_logger]: the installed logger, or the fallback that writes to [stderr]. *)
Definition global_logger (installed : option Logger) (stderr_sink : nat) : Logger :=
  default (add_sink new_logger (Some stderr_sink)) installed.

(** Every sink receives a message once, in the order of registration, exactly when
    the message is at least as severe as the level; a more severe message never
    has a less urgent priority. *)
Lemma log_reaches_every_sink l s module message :
  map fst (log l s module message) = (if rank s <=? rank (min_level_ l) then sinks_ l else []) /\
  Forall (fun r => r.2 = (s, module, message)) (log l s module message) /\
  forall s', rank s <= rank s' -> to_syslog_priority s <= to_syslog_priority s'.
Proof.
  unfold log. rewrite Z.leb_antisym. destruct (rank (min_level_ l) <? rank s); cbn [negb].
  - split_and!; [done|constructor|]. by destruct s, s'.
  - split_and!; [rewrite map_map; apply map_id|by apply Forall_map, Forall_true|]. by destruct s, s'.
Qed.

End Log.

(** ** Post-quantum keys *)

Module Keyring.

Inductive PqcAlgo : Type := Dilithium3 | SphincsSha256.

Definition algo_name (a : PqcAlgo) : list byte :=
  match a with Dilithium3 => bytes_of "DILITHIUM3" | SphincsSha256 => bytes_of "SPHINCS_SHA256" end.

Definition pqc_algo_from_string (s : list byte) : option PqcAlgo :=
  if bool_decide (s = bytes_of "DILITHIUM3") then Some Dilithium3
  else if bool_decide (s = bytes_of "SPHINCS_SHA256") then Some SphincsSha256 else None.

(** liboqs: the sizes of an algorithm when it is enabled, and its operations;
    [None] is any answer but [OQS_SUCCESS].  The random bytes are an argument. *)
Class Oqs : Type := {
  sig_new : PqcAlgo -> option (Z * Z);
  sig_keypair : Z -> PqcAlgo -> option (list byte * list byte);
  sig_sign : PqcAlgo -> list byte -> list byte -> option (list byte);
  sig_verify : PqcAlgo -> list byte -> list byte -> list byte -> bool }.

Class OqsLaws (O : Oqs) : Prop := {
  keypair_sizes : forall rnd a pk sk lp ls, sig_new a = Some (lp, ls) -> sig_keypair rnd a = Some (pk, sk) -> len pk = lp /\ len sk = ls;
  keypair_verifies : forall rnd a pk sk msg sg, sig_keypair rnd a = Some (pk, sk) -> sig_sign a msg sk = Some sg -> sig_verify a msg sg pk = true }.

(** The pairs of secret and public keys, by the fingerprint of the classical key. *)
Abbreviation keys := (gmap (list byte) (list byte * list byte)).

Section Provider.
Context `{O : Oqs}.
(** [VHSM_PQC] of the build. *)
Context (built : bool).

Definition available : bool := built.

Definition keypair (rnd : Z) (a : PqcAlgo) : option (list byte * list byte) :=
  if built then match sig_new a with Some _ => sig_keypair rnd a | None => None end else None.

Definition sign (a : PqcAlgo) (msg sk : list byte) : option (list byte) :=
  if built then
    match sig_new a with
    | Some (_, ls) => if len sk =? ls then sig_sign a msg sk else None
    | None => None
    end
  else None.

Definition verify (a : PqcAlgo) (msg sg pk : list byte) : bool :=
  if built then
    match sig_new a with
    | Some (lp, _) => if len pk =? lp then sig_verify a msg sg pk else false
    | None => false
    end
  else false.

(** *** The directory of keys *)

Definition SK : list byte := bytes_of ".sk".

(** The fingerprint of a name that ends in [.sk]. *)
Definition fingerprint_of (name : list byte) : option (list byte) :=
  let n := (length name - 3)%nat in
  if (3 <? length name)%nat && bool_decide (drop n name = SK) then Some (take n name) else None.

Definition load_entry (read_file : list byte -> option (list byte)) (dir : list byte) (k : keys) (name : list byte) : keys :=
  match fingerprint_of name with
  | None => k
  | Some fp =>
    match read_file (dir ++ bytes_of "/" ++ name), read_file (dir ++ bytes_of "/" ++ fp ++ bytes_of ".pk") with
    | Some sk, Some pk => <[fp := (sk, pk)]> k
    | _, _ => k
    end
  end.

(** [readdir] lists the names; [None] when the directory cannot be opened. *)
Definition load_from_dir (read_file : list byte -> option (list byte)) (readdir : option (list (list byte)))
    (dir : list byte) (k : keys) : keys :=
  if bool_decide (dir = []) then k
  else match readdir with None => k | Some names => fold_left (load_entry read_file dir) names k end.

Definition has (k : keys) (fp : list byte) : bool := bool_decide (is_Some (k !! fp)).
Definition secret_key (k : keys) (fp : list byte) : option (list byte) := fst <$> k !! fp.
Definition public_key (k : keys) (fp : list byte) : option (list byte) := snd <$> k !! fp.

(** What the signature dispatcher asks of the provider and the keyring. *)
Definition dispatcher_port (k : keys) : Pqc := {|
  pqc_available := available;
  pqc_secret_key := secret_key k;
  pqc_public_key := public_key k;
  pqc_sign msg sk := sign Dilithium3 msg sk |}.

End Provider.

Lemma fingerprint_of_name fp : fp <> [] -> fingerprint_of (fp ++ SK) = Some fp.
Proof.
  intros H. unfold fingerprint_of. rewrite length_app. change (length SK) with 3%nat.
  replace (length fp + 3 - 3)%nat with (length fp) by lia. rewrite drop_app_length, take_app_length.
  destruct fp as [|c fp]; [done|]. cbn [length]. replace (3 <? S (length fp) + 3)%nat with true by (symmetry; apply Nat.ltb_lt; lia).
  by rewrite bool_decide_eq_true_2.
Qed.

Lemma fingerprint_of_inv name fp : fingerprint_of name = Some fp -> name = fp ++ SK /\ fp <> [].
Proof.
  unfold fingerprint_of. destruct (3 <? length name)%nat eqn:El; [|done]. apply Nat.ltb_lt in El. cbn [andb].
  case_bool_decide as Hd; [|done]. intros [= <-]. split; [by rewrite <- Hd, take_drop|].
  intros E. apply (f_equal length) in E. rewrite length_take in E. cbn in E. lia.
Qed.

(** The pair of files a fingerprint stands for. *)
Definition pair_of (read_file : list byte -> option (list byte)) (dir fp : list byte) : option (list byte * list byte) :=
  match read_file (dir ++ bytes_of "/" ++ fp ++ SK), read_file (dir ++ bytes_of "/" ++ fp ++ bytes_of ".pk") with
  | Some sk, Some pk => Some (sk, pk)
  | _, _ => None
  end.

(** The keyring after loading a directory: a fingerprint has the contents of its two
    files when its [.sk] file is listed and both can be read, and what it had
    before otherwise. *)
Lemma keyring_loads_pairs read_file names dir k fp :
  dir <> [] -> fp <> [] ->
  load_from_dir read_file (Some names) dir k !! fp =
    if bool_decide (fp ++ SK ∈ names) then (match pair_of read_file dir fp with Some p => Some p | None => k !! fp end) else k !! fp.
Proof.
  intros Hdir Hfp. unfold load_from_dir. rewrite bool_decide_eq_false_2 by done.
  assert (forall n k, load_entry read_file dir k n !! fp =
    if bool_decide (n = fp ++ SK) then match pair_of read_file dir fp with Some p => Some p | None => k !! fp end else k !! fp) as Hone.
  { intros n k'. unfold load_entry, pair_of. case_bool_decide as Hn.
    - subst n. rewrite fingerprint_of_name by done.
      destruct (read_file _) as [sk|]; [|done]. destruct (read_file _) as [pk|]; [|done]. by rewrite lookup_insert_eq.
    - destruct (fingerprint_of n) as [f|] eqn:E; [|done]. apply fingerprint_of_inv in E as [-> _].
      assert (f <> fp) by (intros ->; done).
      destruct (read_file _) as [sk|]; [|done]. destruct (read_file _) as [pk|]; [|done]. by rewrite lookup_insert_ne. }
  revert k. induction names as [|n names IH]; intros k.
  - cbn [fold_left]. by rewrite bool_decide_eq_false_2 by apply not_elem_of_nil.
  - cbn [fold_left]. rewrite IH, Hone. destruct (decide (n = fp ++ SK)) as [->|Hn].
    + rewrite (bool_decide_eq_true_2 (_ = _)) by done. rewrite (bool_decide_eq_true_2 (_ ∈ _ :: _)) by by left.
      case_bool_decide; by destruct (pair_of read_file dir fp).
    + rewrite (bool_decide_eq_false_2 (n = _)) by done.
      by rewrite (bool_decide_ext (fp ++ SK ∈ n :: names) (fp ++ SK ∈ names))
        by (split; [intros [?|?]%elem_of_cons; [congruence|done]|by right]).
Qed.

(** A pair that was generated signs what it verifies; a key of another size does
    neither, and a build without liboqs answers nothing. *)
Lemma pqc_sign_verify `{O : Oqs} {L : OqsLaws O} rnd a pk sk msg sg :
  keypair true rnd a = Some (pk, sk) -> sign true a msg sk = Some sg -> verify true a msg sg pk = true.
Proof.
  unfold keypair, sign, verify. destruct (sig_new a) as [[lp ls]|] eqn:En; [|done]. intros Hk.
  destruct (keypair_sizes rnd a pk sk lp ls En Hk) as [-> ->]. rewrite Z.eqb_refl. intros Hs. rewrite Z.eqb_refl.
  by apply (keypair_verifies rnd a pk sk).
Qed.

Lemma algo_name_roundtrip a : pqc_algo_from_string (algo_name a) = Some a.
Proof. by destruct a. Qed.

End Keyring.

(** ** The signing engine *)

Module Engine.

Inductive MechanismPolicy : Type := RejectMismatch | AllowNativeFallback.

(** [mech.find(needle) != npos]. *)
Fixpoint mentions (needle s : list byte) : bool :=
  bool_decide (take (length needle) s = needle) || match s with [] => false | _ :: r => mentions needle r end.

Definition is_rsa_request (mech : list byte) : bool := mentions (bytes_of "RSA") mech.
Definition is_ec_request (mech : list byte) : bool := mentions (bytes_of "ECDSA") mech.

Definition check_family (requested : list byte) (rsa_key : bool) (policy : MechanismPolicy) : res unit :=
  if bool_decide (requested = []) || match policy with AllowNativeFallback => true | RejectMismatch => false end then Ok tt
  else if (if rsa_key then is_ec_request requested else is_rsa_request requested)
  then Throw (RuntimeError ("CKR_KEY_TYPE_INCONSISTENT: mechanism " ++ String.string_of_list_byte requested ++
                            " does not match " ++ (if rsa_key then "RSA" else "EC") ++ " key")%string)
  else Ok tt.

(** The signatures and the digest of [scrypto]; a key is null or a handle. *)
Class Signers (K : Type) : Type := {
  rsa_sign : K -> list byte -> res (list byte);
  ec_sign : K -> list byte -> res (list byte);
  sha256 : list byte -> list byte }.

Section Engine.
Context {K : Type} `{Signers K}.

(** The lower-case hexadecimal loop of [sha256_hex]. *)
Definition sha256_hex (data : list byte) : list byte :=
  List.flat_map (fun b => [nth (Z.to_nat (Z.shiftr (u8 b) 4)) (bytes_of "0123456789abcdef") x00;
                           nth (Z.to_nat (Z.land (u8 b) 15)) (bytes_of "0123456789abcdef") x00]) (sha256 data).

Definition make_result (sg data : list byte) (mechanism : string) : SignResult :=
  mkSignResult sg (bytes_of mechanism) (bytes_of "SHA-256") (sha256_hex data) (to_int (len data)).

(** [CryptoEngine::sign] for an RSA and for an EC key. *)
Definition sign (rsa_key : bool) (key : option K) (data requested : list byte) (policy : MechanismPolicy) : res SignResult :=
  match key with
  | None => Throw (InvalidArgument "CryptoEngine::sign: key is null")
  | Some k =>
    let* _ := check_family requested rsa_key policy in
    if rsa_key then let* sg := rsa_sign k data in Ok (make_result sg data "CKM_SHA256_RSA_PKCS")
    else let* sg := ec_sign k data in Ok (make_result sg data "CKM_ECDSA_SHA256")
  end.

(** A signature that comes back was made with the algorithm of the key, which the
    result names, over a mechanism that does not name the other family unless the
    caller asked for the fallback. *)
Lemma engine_signs_with_key rsa_key key data requested policy r :
  sign rsa_key key data requested policy = Ok r ->
  (exists k, key = Some k /\ (if rsa_key then rsa_sign k data else ec_sign k data) = Ok (signature r)) /\
  mechanism_str r = bytes_of (if rsa_key then "CKM_SHA256_RSA_PKCS" else "CKM_ECDSA_SHA256") /\
  payload_digest r = sha256_hex data /\
  (policy = RejectMismatch -> (if rsa_key then is_ec_request requested else is_rsa_request requested) = false \/ requested = []).
Proof.
  unfold sign, check_family. destruct key as [k|]; [|done]. cbn [rbind].
  case_bool_decide as Hr; cbn [orb rbind].
  - destruct rsa_key; [destruct (rsa_sign k data) eqn:E|destruct (ec_sign k data) eqn:E]; cbn [rbind]; try done;
      intros [= <-]; split_and!; eauto.
  - destruct policy; cbn [rbind].
    + destruct (if rsa_key then _ else _) eqn:Ef; [done|]. cbn [rbind].
      destruct rsa_key; [destruct (rsa_sign k data) eqn:E|destruct (ec_sign k data) eqn:E]; cbn [rbind]; try done;
        intros [= <-]; split_and!; eauto.
    + destruct rsa_key; [destruct (rsa_sign k data) eqn:E|destruct (ec_sign k data) eqn:E]; cbn [rbind]; try done;
        intros [= <-]; split_and!; eauto; discriminate.
Qed.

(** "A requested mechanism that conflicts with the key family is rejected": only the
    words RSA and ECDSA are looked for, and a request for anything else is signed
    with the key's own algorithm. *)
Lemma foreign_mechanism_signed k data sg :
  rsa_sign k data = Ok sg ->
  sign true (Some k) data (bytes_of "CKM_EDDSA") RejectMismatch = Ok (make_result sg data "CKM_SHA256_RSA_PKCS").
Proof. intros E. unfold sign. change (check_family _ _ _) with (Ok tt). cbn [rbind]. by rewrite E. Qed.

End Engine.

End Engine.

(** ** Asymmetric keys and their fingerprints *)

Module Asym.

Inductive Curve : Type := P256 | P384 | P521.

(** The handles of [scrypto] and the calls on them. *)
Class AsymLib (H : Type) : Type := {
  ec_generate : Curve -> res H;
  ec_sign : H -> Curve -> list byte -> res (list byte);
  ec_verify : H -> Curve -> list byte -> list byte -> res bool;
  ecdh_derive : H -> Curve -> H -> Curve -> res (list byte);
  ec_export_public_spki : H -> Curve -> res (list byte);
  rsa_generate : Z -> res (H * Z);
  rsa_sign : H -> Z -> list byte -> res (list byte);
  rsa_verify : H -> Z -> list byte -> list byte -> res bool;
  rsa_export_public_spki : H -> Z -> res (list byte);
  hash256 : list byte -> list byte }.

(** A null key is [None]. *)
Record ECCKeyPair (H : Type) : Type := mkEcc { ec_key : option H; curve : Curve }.
Record RSAKeyPair (H : Type) : Type := mkRsa { rsa_key : option H; bits : Z }.
Arguments mkEcc {H} _ _. Arguments ec_key {H} _. Arguments curve {H} _.
Arguments mkRsa {H} _ _. Arguments rsa_key {H} _. Arguments bits {H} _.

Section Asym.
Context {H : Type} `{AsymLib H}.

(** The key pair after the call and the handles released by it. *)
Definition ecc_free_key (kp : ECCKeyPair H) : ECCKeyPair H * list H :=
  match ec_key kp with None => (kp, []) | Some h => (mkEcc None (curve kp), [h]) end.

Definition rsa_free_key (kp : RSAKeyPair H) : RSAKeyPair H * list H :=
  match rsa_key kp with None => (kp, []) | Some h => (mkRsa None 0, [h]) end.

Definition ecc_generate_key (c : Curve) : res (ECCKeyPair H) :=
  match ec_generate c with Throw e => Throw e | Ok h => Ok (mkEcc (Some h) c) end.

Definition rsa_generate_key (n : Z) : res (RSAKeyPair H) :=
  if n <? 2048 then Throw (InvalidArgument "RSAUtil::generate_key: key size must be >= 2048 bits")
  else match rsa_generate n with Throw e => Throw e | Ok (h, m) => Ok (mkRsa (Some h) m) end.

Definition ecc_sign (k : ECCKeyPair H) (data : list byte) : res (list byte) :=
  match ec_key k with
  | None => Throw (InvalidArgument "ECC::sign: key is null")
  | Some h => ec_sign h (curve k) data
  end.

Definition ecc_verify (k : ECCKeyPair H) (data signature : list byte) : res bool :=
  match ec_key k with
  | None => Throw (InvalidArgument "ECC::verify: key is null")
  | Some h => ec_verify h (curve k) data signature
  end.

Definition derive_shared_secret (priv peer : ECCKeyPair H) : res (list byte) :=
  match ec_key priv with
  | None => Throw (InvalidArgument "ECC::derive: private key is null")
  | Some h =>
    match ec_key peer with
    | None => Throw (InvalidArgument "ECC::derive: peer key is null")
    | Some h' => ecdh_derive h (curve priv) h' (curve peer)
    end
  end.

Definition rsa_util_sign (k : RSAKeyPair H) (data : list byte) : res (list byte) :=
  match rsa_key k with
  | None => Throw (InvalidArgument "RSAUtil::sign: key is null")
  | Some h => rsa_sign h (bits k) data
  end.

Definition rsa_util_verify (k : RSAKeyPair H) (data signature : list byte) : res bool :=
  match rsa_key k with
  | None => Throw (InvalidArgument "RSAUtil::verify: key is null")
  | Some h => rsa_verify h (bits k) data signature
  end.

(** [std::array<uint8_t, 32>] filled from the hash. *)
Definition from_SPKI (spki : list byte) : list byte := hash256 spki.

Definition ec_fingerprint (k : ECCKeyPair H) : res (list byte) :=
  match ec_key k with
  | None => Throw (RuntimeError "KeyFingerprint: null EC key handle")
  | Some h => match ec_export_public_spki h (curve k) with Throw e => Throw e | Ok spki => Ok (from_SPKI spki) end
  end.

Definition rsa_fingerprint (k : RSAKeyPair H) : res (list byte) :=
  match rsa_key k with
  | None => Throw (RuntimeError "KeyFingerprint: null RSA key handle")
  | Some h => match rsa_export_public_spki h (bits k) with Throw e => Throw e | Ok spki => Ok (from_SPKI spki) end
  end.

(** A key pair releases its handle once, however often it is freed, and a freed pair
    neither signs, verifies, derives nor has a fingerprint. *)
Lemma freed_once (k : ECCKeyPair H) (n : nat) :
  let frees := Nat.iter (S n) (fun s => let '(k, l) := s in let '(k', l') := ecc_free_key k in (k', l ++ l')) (k, []) in
  ec_key (fst frees) = None /\ snd frees = match ec_key k with Some h => [h] | None => [] end.
Proof.
  induction n as [|n IH]; cbn zeta in *.
  - cbn. unfold ecc_free_key. destruct (ec_key k) eqn:E; cbn; [done|]. by rewrite E.
  - rewrite Nat.iter_succ. destruct (Nat.iter _ _ _) as [k' l]. cbn [fst snd] in IH. destruct IH as [E ->].
    unfold ecc_free_key. rewrite E. cbn. by rewrite E, app_nil_r.
Qed.

Lemma freed_unusable (k : ECCKeyPair H) (data sig : list byte) (peer : ECCKeyPair H) :
  let k' := fst (ecc_free_key k) in
  (forall s, ecc_sign k' data <> Ok s) /\ (forall v, ecc_verify k' data sig <> Ok v) /\
  (forall s, derive_shared_secret k' peer <> Ok s) /\ (forall s, derive_shared_secret peer k' <> Ok s) /\
  (forall f, ec_fingerprint k' <> Ok f).
Proof.
  assert (E : ec_key (fst (ecc_free_key k)) = None) by (unfold ecc_free_key; by destruct (ec_key k) eqn:E).
  cbn zeta. unfold ecc_sign, ecc_verify, derive_shared_secret, ec_fingerprint. rewrite E. split_and!; try done.
  by destruct (ec_key peer).
Qed.

(** The fingerprint is of the public key and not of the handle: two pairs, and the
    bytes of a certificate, with the same public key have the same fingerprint. *)
Lemma fingerprint_of_content (k1 k2 : ECCKeyPair H) h1 h2 spki :
  ec_key k1 = Some h1 -> ec_key k2 = Some h2 ->
  ec_export_public_spki h1 (curve k1) = Ok spki -> ec_export_public_spki h2 (curve k2) = Ok spki ->
  ec_fingerprint k1 = Ok (from_SPKI spki) /\ ec_fingerprint k2 = Ok (from_SPKI spki).
Proof. unfold ec_fingerprint. by intros -> -> -> ->. Qed.

(** No RSA key below 2048 bits is made, whatever the library would do. *)
Lemma small_rsa_refused n k : rsa_generate_key n = Ok k -> 2048 <= n.
Proof. unfold rsa_generate_key. destruct (Z.ltb_spec n 2048); [done|]. lia. Qed.
End Asym.
End Asym.

(** ** The self-test of FIPS mode *)

Module SelfTest.
Import Asym.

Section SelfTest.
Context {O : OpenSSL} {H : Type} `{AsymLib H}.

(** SHA-256 of ["abc"], FIPS 180-4. *)
Definition expected : list byte :=
  map to_u8 [0xba; 0x78; 0x16; 0xbf; 0x8f; 0x01; 0xcf; 0xea; 0x41; 0x41; 0x40; 0xde; 0x5d; 0xae; 0x22; 0x23;
             0xb0; 0x03; 0x61; 0xa3; 0x96; 0x17; 0x7a; 0x9c; 0xb4; 0x10; 0xff; 0x61; 0xf2; 0x00; 0x15; 0xad].

(** A context that cannot be made, or a call that fails, is a digest of another value. *)
Definition sha256_kat : bool := bool_decide (p11_hash SHA256 (bytes_of "abc") = expected).

Definition zeros (n : nat) : list byte := replicate n x00.

Definition aes_gcm_kat : bool :=
  match gcm_encrypt (zeros 32) (zeros 12) [] (zeros 16) with
  | None => false
  | Some (ct, tag) =>
    match gcm_decrypt (zeros 32) (zeros 12) [] ct tag with Some dec => bool_decide (dec = zeros 16) | None => false end
  end.

Definition DIGEST : list byte := replicate 32 x01.

(** The key is made outside the [try]: what that throws leaves the test.  The second part
    is the handles released. *)
Definition ecdsa_kat : res bool * list H :=
  match ecc_generate_key P256 with
  | Throw e => (Throw e, [])
  | Ok kp =>
    let ok :=
      match ecc_sign kp DIGEST with
      | Ok sig => match ecc_verify kp DIGEST sig with Ok b => b | Throw _ => false end
      | Throw _ => false
      end in
    (Ok ok, snd (ecc_free_key kp))
  end.

(** [active]: whether FIPS mode is on; the gauge is set unless the test throws. *)
Definition fips_self_test (active : bool) (m : Metrics.Registry) : res bool * Metrics.Registry :=
  let r := if negb sha256_kat then Ok false else if negb aes_gcm_kat then Ok false else fst ecdsa_kat in
  match r with
  | Throw e => (Throw e, m)
  | Ok ok => (Ok ok, Metrics.set m (bytes_of "fips_active") (if active then 1 else 0))
  end.

(** The test passes exactly when the digest is the known answer, the cipher gives its
    input back, and a new key verifies its own signature; a key that was made is
    released either way. *)
Lemma self_test_exact active m :
  (fst (fips_self_test active m) = Ok true <->
   p11_hash SHA256 (bytes_of "abc") = expected /\
   (exists ct tag, gcm_encrypt (zeros 32) (zeros 12) [] (zeros 16) = Some (ct, tag) /\ gcm_decrypt (zeros 32) (zeros 12) [] ct tag = Some (zeros 16)) /\
   (exists h sig, ec_generate P256 = Ok h /\ ec_sign h P256 DIGEST = Ok sig /\ ec_verify h P256 DIGEST sig = Ok true)) /\
  snd ecdsa_kat = match ec_generate P256 with Ok h => [h] | Throw _ => [] end.
Proof.
  split; [|unfold ecdsa_kat, ecc_generate_key; by destruct (ec_generate P256)]. unfold fips_self_test, sha256_kat.
  case_bool_decide as Hs; cbn [negb]; [|by split; [|intros [? _]]]. unfold aes_gcm_kat.
  destruct (gcm_encrypt _ _ _ _) as [[ct tag]|]; [|by split; [|intros (_ & (? & ? & ? & _) & _)]].
  destruct (gcm_decrypt _ _ _ ct tag) as [dec|] eqn:Ed; [|split; [done|intros (_ & (? & ? & [= <- <-] & ?) & _); congruence]].
  case_bool_decide as Hd; cbn [negb]; [subst dec|split; [done|intros (_ & (? & ? & [= <- <-] & ?) & _); congruence]].
  unfold ecdsa_kat, ecc_generate_key, ecc_sign, ecc_verify. destruct (ec_generate P256) as [h|e]; cbn [fst ec_key curve]; [|by split; [|intros (_ & _ & ? & ? & ? & _)]].
  destruct (ec_sign h P256 DIGEST) as [sig|e] eqn:Es; cbn [fst]; [|split; [done|intros (_ & _ & ? & ? & [= <-] & ? & _); congruence]].
  destruct (ec_verify h P256 DIGEST sig) as [b|e] eqn:Ev; cbn [fst].
  - split; [intros [= ->]; split; [done|split; [by exists ct, tag|by exists h, sig]]|]. intros (_ & _ & h' & sig' & [= <-] & Es' & Hv). congruence.
  - split; [done|]. intros (_ & _ & h' & sig' & [= <-] & Es' & Hv). congruence.
Qed.
End SelfTest.

(** A cipher that copies its input passes: the test of AES-GCM has no known answer. *)
Example copying_cipher_passes : aes_gcm_kat (O := Evp.toy_ssl) = true.
Proof. by vm_compute. Qed.

(** A key generation that throws leaves the self-test, and [C_Initialize] with it. *)
Lemma key_generation_escapes {O : OpenSSL} {H : Type} `{AsymLib H} active m e :
  sha256_kat = true -> aes_gcm_kat = true -> ec_generate P256 = Throw e -> fst (fips_self_test active m) = Throw e.
Proof. intros H1 H2 H3. unfold fips_self_test, ecdsa_kat, ecc_generate_key. by rewrite H1, H2, H3. Qed.
End SelfTest.

(** ** The identity of the instance *)

Module Instance.

Record Provider : Type := mkProvider { cached_id_ : option (list byte) }.

Definition getInstanceId (s : Store) (p : Provider) : res (list byte) * Provider :=
  match cached_id_ p with
  | Some id => (Ok id, p)
  | None =>
    if negb (table_exists s "db_meta") then (Throw DbError, p)
    else
      let uuid := get_meta s K_INSTANCE_ID in
      if bool_decide (uuid = []) then (Throw (RuntimeError "HSM instance ID not seeded."), p)
      else (Ok uuid, mkProvider (Some uuid))
  end.

Definition seedInstanceId (s : Store) (p : Provider) (id : list byte) : bool * Store * Provider :=
  match set_meta s K_INSTANCE_ID id with
  | Throw _ => (false, s, p)
  | Ok s => (true, s, mkProvider (Some id))
  end.

Lemma get_set_meta s k v s' : set_meta s k v = Ok s' -> get_meta s' k = c_str v /\ table_exists s' "db_meta" = true.
Proof.
  unfold set_meta, get_meta, table_exists. destruct (s_tables s !! "db_meta") as [t|] eqn:Et; [|done].
  destruct (existsb _ (t_rows t)) eqn:Ex.
  - intros [= <-]. cbn [with_tables s_tables]. rewrite lookup_insert_eq. cbn [t_rows].
    split; [|by rewrite bool_decide_eq_true_2 by eauto].
    induction (t_rows t) as [|r rows IH]; [done|]. cbn [existsb map List.find] in *.
    unfold Cell in *. destruct (bool_decide (r !! 0%nat = Some (Some (bytes_of k)))) eqn:Hr.
    + cbn. by rewrite bool_decide_eq_true_2.
    + rewrite Hr. by apply IH.
  - unfold insert_row. rewrite Et. destruct (row_allowed _ _ _); [|done]. intros [= <-].
    cbn [with_tables s_tables]. rewrite lookup_insert_eq. cbn [t_rows]. split; [|by rewrite bool_decide_eq_true_2 by eauto].
    induction (t_rows t) as [|r rows IH]; [cbn; by rewrite bool_decide_eq_true_2|]. cbn [existsb app List.find] in *.
    apply orb_false_iff in Ex as [Hr Hx]. rewrite Hr. by apply IH.
Qed.

(** After a seeding that succeeded the provider answers the identity, and so does a
    new provider on the same database, as far as the first NUL. *)
Lemma seed_then_get s p id s' p' :
  seedInstanceId s p id = (true, s', p') -> x00 ∉ id -> id <> [] ->
  (getInstanceId s' p').1 = Ok id /\ (getInstanceId s' (mkProvider None)).1 = Ok id.
Proof.
  unfold seedInstanceId. destruct (set_meta _ _ _) as [s1|] eqn:E; [|done]. intros [= <- <-] Hn Hne. split; [done|].
  apply get_set_meta in E as [Eg Et]. unfold getInstanceId. cbn [cached_id_]. rewrite Et, Eg, c_str_id by done. cbn [negb].
  by rewrite bool_decide_eq_false_2.
Qed.

(** The answer is remembered: a later change of the database is not seen. *)
Lemma cached_identity_stays s s2 p id : (getInstanceId s p).1 = Ok id -> (getInstanceId s2 (getInstanceId s p).2).1 = Ok id.
Proof.
  unfold getInstanceId. destruct (cached_id_ p) as [i|] eqn:Ec; [by cbn; rewrite Ec|].
  destruct (negb _); [done|]. case_bool_decide; [done|]. done.
Qed.

End Instance.

(** ** The adapters of the store port *)

Module Stores.

(** A record as it is declared, with the identifier given.  Its three numbers have no
    initial value: they are what the memory held. *)
Definition blank_record (junk : Z * Z * Z) (id : list byte) : SignatureRecord :=
  let '(at_, slot, size) := junk in
  mkRecord id at_ slot [] [] [] [] [] [] [] size [] None None None None [] [] None None.

(** [DbStoreAdapter]; [uuid] is the identifier the repository draws. *)
Definition db_store (fault : Stmt -> bool) (c : Conn) (uuid : list byte) (r : SignatureRecord) : option (list byte) * Conn :=
  insert fault c uuid (created_at r) (slot_id r) (token_label r) (key_id r) (key_fingerprint r) (r_mechanism r)
    (r_payload_digest r) (signature_b64 r) (session_handle r) (r_user_label r) (app_context r).

Definition db_load (junk : Z * Z * Z) (fault : Stmt -> bool) (c : Conn) (id : list byte) : option SignatureRecord :=
  match get_by_id fault c id with
  | None => None
  | Some row => match row !! 0%nat with Some (Some i) => Some (blank_record junk i) | _ => Some (blank_record junk id) end
  end.

Definition db_list : list SignatureRecord := [].

(** [FabricStoreAdapter], in a build with the ledger. *)
Definition fabric_store `{C : Client.Contract} (r : SignatureRecord) : option (list byte) :=
  match Client.submit_record r with Some _ => Some (record_id r) | None => None end.

Definition fabric_load (id : list byte) : option SignatureRecord := None.
Definition fabric_list : list SignatureRecord := [].

(** The ledger adapter answers the identifier of the record exactly when the
    transaction was committed with status 200. *)
Lemma fabric_store_exact `{C : Client.Contract} r id :
  fabric_store r = Some id <->
  id = record_id r /\ exists t, Client.submitTransaction (bytes_of "RecordSignature") (Client.record_args r) = Ok t /\
    Client.committed t = true /\ Client.responseStatus t = 200.
Proof.
  unfold fabric_store, Client.submit_record. destruct (Client.submitTransaction _ _) as [t|e].
  - destruct (Client.committed t) eqn:Ec, (Z.eqb_spec (Client.responseStatus t) 200); cbn; split;
      try (intros [= <-]; eauto; fail); try (intros (-> & t' & [= <-] & ? & ?); congruence); try discriminate.
    all: try (intros (-> & t' & [= <-] & ? & ?); by f_equal).
  - split; [discriminate|]. by intros (_ & t & [=] & _).
Qed.

(** "Implementations must be idempotent for the same record_id": the identifier of
    the record is not used, and storing a record twice stores it twice. *)
Lemma db_store_twice :
  let none := fun _ : Stmt => false in
  let r := blank_record (1, 0, 3) (bytes_of "r-1") in
  let c := mkConn (mkTables [] []) None in
  let c1 := db_store none c (bytes_of "u-1") r in
  let c2 := db_store none c1.2 (bytes_of "u-2") r in
  c1.1 = Some (bytes_of "u-1") /\ c2.1 = Some (bytes_of "u-2") /\ length (signature_records (tables_ c2.2)) = 2%nat /\
  db_load (0, 0, 0) none c2.2 (bytes_of "r-1") = None.
Proof. split_and!; vm_compute; reflexivity. Qed.

(** A record that is loaded has its identifier and nothing else; its numbers are
    whatever the memory held. *)
Lemma db_load_blank junk fault c id r : db_load junk fault c id = Some r -> exists i, r = blank_record junk i.
Proof.
  unfold db_load. destruct (get_by_id _ _ _) as [row|]; [|done].
  destruct (row !! 0%nat) as [[i|]|]; intros [= <-]; eauto.
Qed.

End Stores.
