(* ===== verification/Firmware.v ===== *)
(** * The ESP32 signing device

    [src/firmware/main/hsm.cpp]: the firmware that signs uploaded files for users
    over HTTP.  Its state is the SD card (a map from paths to contents), the audit
    counters, the throttles, the lockout of wrong tokens and a counter.  A request
    is one step: the HTTP server runs its handlers one after the other.

    Outside the model are the radio, the SPI bus and the serial log.  mbedTLS is
    the class [Mbed] with the laws [MbedLaws]; cJSON is the class [CJson], which
    gives the members of the document in order, and a response is the list of the
    members it is printed from.  What the card answers (which opens, stats, tells and
    removals fail, how much a write takes), the random bytes and the clock come with the request in [Io];
    the seconds counter does not advance within a request.  The card is a map from
    paths to contents: that a FAT volume folds case and may bound the length of a
    name is outside the model. *)

From S2P Require Import Prelude Codec SecureBuffer AuditLog.
Local Open Scope Z_scope.

(** ** Configuration and the outside *)

(** The options of [main/Kconfig]. *)
Record Config : Type := mkConfig {
  API_TOKEN : list byte;
  MAX_REQ_PER_MIN : Z;
  MAX_REQ_PER_CONN : Z;
  SIGN_LIMIT_PER_MIN : Z;
  AUTH_FAIL_WINDOW_S : Z;
  AUTH_FAIL_MAX : Z;
  AUTH_LOCK_BASE_S : Z;
  AUTH_LOCK_MAX_S : Z;
  AUDIT_ENABLED : bool
}.

Definition default_config (token : list byte) : Config := mkConfig token 120 30 10 60 5 30 900 true.

Class Mbed : Type := {
  pk_context : Type;
  md_sha256 : list byte -> option (list byte);
  pk_setup : bool;
  ecp_gen_key : list byte -> option pk_context;
  pk_write_key_pem : pk_context -> option (list byte);
  pk_write_pubkey_pem : pk_context -> option (list byte);
  pk_parse_key : list byte -> option pk_context;
  pk_sign : list byte -> pk_context -> list byte -> option (list byte);
  pk_is_rsa : pk_context -> bool;
  pk_is_ec : pk_context -> bool;
  mbedtls_base64_encode : list byte -> option (list byte);
  mbedtls_base64_decode : list byte -> option (list byte);
  (** What a holder of the public key checks. *)
  pk_verify : list byte -> list byte -> list byte -> bool
}.

Class MbedLaws (M : Mbed) : Prop := {
  md_total : forall s, exists h, md_sha256 s = Some h /\ length h = 32%nat;
  (** A key is read back from its PEM text, to which the reader appends a NUL. *)
  parse_written : forall k pem, pk_write_key_pem k = Some pem ->
    pk_parse_key (pem ++ [x00]) = Some k /\ pem <> [] /\ len pem <= 2048;
  sign_verifies : forall seed k h sig pub,
    pk_sign seed k h = Some sig -> pk_write_pubkey_pem k = Some pub -> pk_verify pub h sig = true
}.

(** A member of a request: a string (up to its NUL), a boolean, or anything else. *)
Inductive Item : Type := JString (s : list byte) | JBool (b : bool) | JOther.

(** [cJSON_Parse]: the members of the root, none when it is not an object. *)
Class CJson : Type := cJSON_Parse : list byte -> option (list (list byte * Item)).

(** [cJSON_GetObjectItemCaseSensitive]: the first member of that name. *)
Fixpoint get_item (root : list (list byte * Item)) (name : list byte) : option Item :=
  match root with
  | [] => None
  | (k, v) :: root => if bool_decide (k = name) then Some v else get_item root name
  end.

(** What the outside answers during a request.  [io_stat_fails]: [stat] or [access] fails
    although the file is there. *)
Record Io : Type := mkIo {
  io_now : Z;
  io_open_fails : list byte -> bool;
  io_stat_fails : list byte -> bool;
  io_tell_fails : list byte -> bool;
  io_unlink_fails : list byte -> bool;
  io_room : list byte -> option nat;
  io_seed : list byte;
  io_calloc_fails : bool
}.

(** ** The state *)

Record Window : Type := mkWindow { w_start : Z; w_count : Z }.

Record UserSignLimit : Type := mkLimit { u_userId : list byte; u_window : Window }.

Record AuthFail : Type := mkAuthFail {
  window_start_s : Z;
  failures : Z;
  cooldown_s : Z;
  lock_until_s : Z
}.

Record Device : Type := mkDevice {
  fs : gmap (list byte) (list byte);
  s_audit_seq : Z;
  s_audit_prev_hash : list byte;
  s_global_window : Window;
  s_conns : gmap Z Window;
  s_user_sign_limits : list UserSignLimit;
  s_auth_fail : AuthFail;
  s_sign_count : Z
}.

Definition set_fs (d : Device) (f : gmap (list byte) (list byte)) : Device :=
  mkDevice f (s_audit_seq d) (s_audit_prev_hash d) (s_global_window d) (s_conns d) (s_user_sign_limits d) (s_auth_fail d) (s_sign_count d).
Definition set_audit (d : Device) (n : Z) (h : list byte) : Device :=
  mkDevice (fs d) n h (s_global_window d) (s_conns d) (s_user_sign_limits d) (s_auth_fail d) (s_sign_count d).
Definition set_windows (d : Device) (g : Window) (c : gmap Z Window) : Device :=
  mkDevice (fs d) (s_audit_seq d) (s_audit_prev_hash d) g c (s_user_sign_limits d) (s_auth_fail d) (s_sign_count d).
Definition set_limits (d : Device) (l : list UserSignLimit) : Device :=
  mkDevice (fs d) (s_audit_seq d) (s_audit_prev_hash d) (s_global_window d) (s_conns d) l (s_auth_fail d) (s_sign_count d).
Definition set_auth (d : Device) (a : AuthFail) : Device :=
  mkDevice (fs d) (s_audit_seq d) (s_audit_prev_hash d) (s_global_window d) (s_conns d) (s_user_sign_limits d) a (s_sign_count d).
Definition set_sign_count (d : Device) (n : Z) : Device :=
  mkDevice (fs d) (s_audit_seq d) (s_audit_prev_hash d) (s_global_window d) (s_conns d) (s_user_sign_limits d) (s_auth_fail d) n.

(** ** Names and paths *)

Definition KEYS_DIR : list byte := bytes_of "/sdcard/keys".
Definition TMP_DIR : list byte := bytes_of "/sdcard/tmp".
Definition AUDIT_FILE : list byte := bytes_of "/sdcard/logs/audit.log".
Definition AUDIT_STATE_FILE : list byte := bytes_of "/sdcard/logs/.audit_state".
Definition USERID_MAX_LEN : Z := 64.
Definition FILENAME_MAX_LEN : Z := 128.
Definition MAX_FILE_READ_LEN : Z := 32 * 1024.
Definition MAX_UPLOAD_BYTES : Z := 32 * 1024.
Definition HTTP_BODY_MAX_LEN : Z := 8192.
Definition RATE_WINDOW_S : Z := 60.
Definition MAX_SIGN_LIMIT_ENTRIES : Z := 32.

Definition key_path (userId : list byte) : list byte := KEYS_DIR ++ bytes_of "/" ++ userId ++ bytes_of ".pem".
Definition tmp_path (filename : list byte) : list byte := TMP_DIR ++ bytes_of "/" ++ filename.

Definition allowed_char (c : byte) : bool :=
  let n := u8 c in
  ((65 <=? n) && (n <=? 90)) || ((97 <=? n) && (n <=? 122)) || ((48 <=? n) && (n <=? 57))
  || (n =? 45) || (n =? 95) || (n =? 46).

Definition is_safe_name_component (s : list byte) (max_len : Z) : bool :=
  if (len s =? 0) || (max_len <? len s) || bool_decide (s = bytes_of ".") || bool_decide (s = bytes_of "..") then false
  else forallb allowed_char s.

(** The string of a member that is one, and safe. *)
Definition validate_string_component (item : option Item) (max_len : Z) : option (list byte) :=
  match item with
  | Some (JString s) => if is_safe_name_component s max_len then Some s else None
  | _ => None
  end.

(** ** Throttles *)

Definition rate_limited_window (w : Window) (max window_s now : Z) : bool * Window :=
  let w := if window_s <=? u32 (now - w_start w) then mkWindow now 0 else w in
  if max <=? w_count w then (true, w) else (false, mkWindow (w_start w) (u32 (w_count w + 1))).

Section Firmware.
Context (cfg : Config).

Definition global_rate_limited (io : Io) (d : Device) : bool * Device :=
  let (b, w) := rate_limited_window (s_global_window d) (MAX_REQ_PER_MIN cfg) RATE_WINDOW_S (io_now io) in
  (b, set_windows d w (s_conns d)).

(** [conn] names the TCP connection, whose context holds the window. *)
Definition conn_rate_limited (io : Io) (conn : Z) (d : Device) : bool * Device :=
  match s_conns d !! conn with
  | None => if io_calloc_fails io then (false, d)
            else let (b, w) := rate_limited_window (mkWindow (io_now io) 0) (MAX_REQ_PER_CONN cfg) RATE_WINDOW_S (io_now io) in
                 (b, set_windows d (s_global_window d) (<[conn := w]> (s_conns d)))
  | Some w => let (b, w) := rate_limited_window w (MAX_REQ_PER_CONN cfg) RATE_WINDOW_S (io_now io) in
              (b, set_windows d (s_global_window d) (<[conn := w]> (s_conns d)))
  end.

(** The loop over the known users: [None] when this one is not known. *)
Fixpoint bump_user (l : list UserSignLimit) (userId : list byte) (now : Z) : option (bool * list UserSignLimit) :=
  match l with
  | [] => None
  | u :: l =>
    if bool_decide (u_userId u = userId) then
      let (b, w) := rate_limited_window (u_window u) (SIGN_LIMIT_PER_MIN cfg) RATE_WINDOW_S now in
      Some (b, mkLimit (u_userId u) w :: l)
    else match bump_user l userId now with Some (b, l) => Some (b, u :: l) | None => None end
  end.

Definition user_sign_rate_limited (io : Io) (userId : list byte) (d : Device) : bool * Device :=
  match bump_user (s_user_sign_limits d) userId (io_now io) with
  | Some (b, l) => (b, set_limits d l)
  | None =>
    let l := if MAX_SIGN_LIMIT_ENTRIES <=? len (s_user_sign_limits d) then tail (s_user_sign_limits d) else s_user_sign_limits d in
    (false, set_limits d (l ++ [mkLimit userId (mkWindow (io_now io) 1)]))
  end.

(** ** The lockout of wrong tokens *)

Definition auth_lock_remaining_s (now : Z) (a : AuthFail) : Z :=
  if negb (lock_until_s a =? 0) && (now <? lock_until_s a) then lock_until_s a - now else 0.

Definition record_auth_failure (now : Z) (a : AuthFail) : AuthFail :=
  let a := if AUTH_FAIL_WINDOW_S cfg <=? u32 (now - window_start_s a)
           then mkAuthFail now 0 (cooldown_s a) (lock_until_s a) else a in
  let n := u32 (failures a + 1) in
  if AUTH_FAIL_MAX cfg <=? n then
    let base := if cooldown_s a =? 0 then AUTH_LOCK_BASE_S cfg else cooldown_s a in
    let cooldown := u32 (base * 2) in
    let cooldown := if AUTH_LOCK_MAX_S cfg <? cooldown then AUTH_LOCK_MAX_S cfg else cooldown in
    mkAuthFail now 0 cooldown (u32 (now + cooldown))
  else mkAuthFail (window_start_s a) n (cooldown_s a) (lock_until_s a).

Definition record_auth_success (now : Z) (a : AuthFail) : AuthFail :=
  mkAuthFail now 0 (cooldown_s a) 0.

Definition auth_enabled : bool := negb (bool_decide (API_TOKEN cfg = [])).

(** [header] is what [httpd_req_get_hdr_value_str] read, [None] when there is no
    such header or it does not fit in 160 bytes. *)
Definition check_auth (header : option (list byte)) : bool :=
  if negb auth_enabled then true
  else match header with
       | None => false
       | Some hdr => bool_decide (take 7 hdr = bytes_of "Bearer ") && bool_decide (drop 7 hdr = API_TOKEN cfg)
       end.

(** ** The card *)

(** [fwrite] of [data] at the end of what a file has: how much of it went in. *)
Definition fwrite (io : Io) (path data : list byte) : list byte :=
  match io_room io path with None => data | Some n => take n data end.

Definition contents (f : gmap (list byte) (list byte)) (path : list byte) : list byte := default [] (f !! path).

(** [fopen(path, "wb")] and one write, or [fopen(path, "ab")] and one write:
    whether the whole of [data] was written. *)
Definition write_file (io : Io) (append : bool) (path data : list byte) (f : gmap (list byte) (list byte))
    : option (bool * gmap (list byte) (list byte)) :=
  if io_open_fails io path then None
  else let w := fwrite io path data in
       Some (bool_decide (length w = length data), <[path := (if append then contents f path else []) ++ w]> f).

(** A seek or a read that fails is answered like an open that fails. *)
Definition read_sd_file (io : Io) (f : gmap (list byte) (list byte)) (path : list byte) : option (list byte) :=
  if io_open_fails io path then None
  else match f !! path with
       | None => None
       | Some c => if MAX_FILE_READ_LEN <? len c then None else Some (if bool_decide (c = []) then [x00] else c)
       end.

(** ** The audit log *)

Context `{M : Mbed}.

Definition sha256_hex (data : list byte) : list byte := Utils.hex_encode (default [] (md_sha256 data)).

Definition sanitize_char (c : byte) : byte :=
  if (u8 c =? 44) || (u8 c =? 10) || (u8 c =? 13) || (u8 c =? 34) then x5f else c.

Definition audit_sanitize (s : list byte) : list byte :=
  match s with [] => bytes_of "-" | _ => map sanitize_char s end.

Definition COMMA : byte := x2c.
Definition LF : byte := x0a.

(** The line without its hash, cut to the buffer. *)
Definition audit_raw (seq ts : Z) (event user detail : list byte) : list byte :=
  take 511 (to_string seq ++ COMMA :: to_string ts ++ COMMA :: event ++ COMMA :: user ++ COMMA :: detail).

Definition audit_record (raw prev : list byte) : list byte := raw ++ COMMA :: prev ++ [LF].

Definition audit_state (seq : Z) (prev : list byte) : list byte := to_string seq ++ LF :: prev ++ [LF].

(** [user] and [detail] absent are a dash. *)
Definition audit_log (io : Io) (event : string) (user detail : option (list byte)) (d : Device) : Device :=
  if negb (AUDIT_ENABLED cfg) then d
  else
    let u := audit_sanitize (default (bytes_of "-") user) in
    let det := audit_sanitize (default (bytes_of "-") detail) in
    let raw := audit_raw (s_audit_seq d) (io_now io) (bytes_of event) u det in
    match write_file io true AUDIT_FILE (audit_record raw (s_audit_prev_hash d)) (fs d) with
    | None => d
    | Some (false, f) => set_fs d f
    | Some (true, f) =>
      let d := set_audit (set_fs d f) (u32 (s_audit_seq d + 1)) (sha256_hex raw) in
      match write_file io false AUDIT_STATE_FILE (audit_state (s_audit_seq d) (s_audit_prev_hash d)) (fs d) with
      | None => d
      | Some (_, f) => set_fs d f
      end
    end.

(** [fscanf("%u\n%64s\n")]: both conversions, or [None]. *)
Fixpoint span_digits (s : list byte) : list byte * list byte :=
  match s with
  | c :: r => if is_digit c then let (ds, r) := span_digits r in (c :: ds, r) else ([], s)
  | [] => ([], [])
  end.

Fixpoint span_word (n : nat) (s : list byte) : list byte :=
  match n, s with
  | S n, c :: r => if is_space c then [] else c :: span_word n r
  | _, _ => []
  end.

Definition scan_state (text : list byte) : option (Z * list byte) :=
  let s := skip_spaces text in
  let neg := match s with c :: _ => u8 c =? 45 | [] => false end in
  let s := match s with c :: r => if (u8 c =? 45) || (u8 c =? 43) then r else s | [] => [] end in
  let (ds, rest) := span_digits s in
  match ds with
  | [] => None
  | _ =>
    let v := Z.min (strtoull_loop ds 0) (2 ^ 32 - 1) in
    match span_word 64 (skip_spaces rest) with
    | [] => None
    | h => Some (if neg then u32 (- v) else v, h)
    end
  end.

Definition zero_hash_text : list byte := replicate 64 x30.

Definition audit_init (io : Io) (d : Device) : Device :=
  if negb (AUDIT_ENABLED cfg) then d
  else
    let d := if io_open_fails io AUDIT_STATE_FILE then set_audit d 0 zero_hash_text
             else match fs d !! AUDIT_STATE_FILE with
                  | None => set_audit d 0 zero_hash_text
                  | Some text => match scan_state text with
                                 | Some (n, h) => set_audit d n h
                                 | None => set_audit d 0 zero_hash_text
                                 end
                  end in
    audit_log io "boot" None (Some (bytes_of "ESP32 signing HSM started")) d.

(** ** Answers *)

Inductive Val : Type := VStr (s : list byte) | VNum (z : Z).

Record CmdResult : Type := mkResult { status : Z; body : list (string * Val) }.

Definition error_http_status (code : string) : Z :=
  match List.find (fun p => bool_decide (fst p = code))
    [("invalid_json", 400); ("missing_cmd", 400); ("missing_or_invalid_userId", 400); ("missing_or_invalid_filename", 400);
     ("missing_dataBase64", 400); ("invalid_base64", 400); ("body_too_large_or_empty", 400); ("unauthorized", 401);
     ("unknown_cmd", 404); ("unknown_userId", 404); ("file_not_found", 404); ("file_not_found_or_too_large", 404);
     ("key_already_exists", 409); ("file_too_large", 413); ("rate_limited", 429); ("temporarily_locked", 503)]%string with
  | Some (_, s) => s
  | None => 500
  end.

Definition error_message (code : string) : string :=
  (match List.find (fun p => bool_decide (fst p = code))
    [("invalid_json", "Request body is not valid JSON"); ("missing_cmd", "Missing or invalid 'cmd' field");
     ("unknown_cmd", "Unknown command"); ("missing_or_invalid_userId", "Missing or invalid 'userId'");
     ("missing_or_invalid_filename", "Missing or invalid 'filename'"); ("missing_dataBase64", "Missing 'dataBase64' field");
     ("invalid_base64", "'dataBase64' is not valid base64");
     ("body_too_large_or_empty", "Request body must be non-empty and under 8 KiB");
     ("unauthorized", "Invalid or missing bearer token");
     ("temporarily_locked", "Too many failed auth attempts; device is locked out");
     ("rate_limited", "Operation rate limit exceeded"); ("file_too_large", "Upload exceeds the maximum allowed size");
     ("key_already_exists", "A key for this user already exists"); ("unknown_userId", "No key exists for this user");
     ("file_not_found", "Uploaded file not found"); ("file_not_found_or_too_large", "Uploaded file not found or too large")] with
  | Some (_, s) => s
  | None => "Internal error"
  end)%string.

(** The hints; the first one quotes an example, whose quotes are bytes. *)
Definition error_hint (code : string) : list byte :=
  let commands := ": createKey, uploadStart, uploadChunk, uploadEnd, sign"%string in
  match List.find (fun p => bool_decide (fst p = code))
    [("invalid_json"%string, bytes_of "Send one well-formed JSON object, e.g. {" ++ x22 :: bytes_of "cmd" ++ [x22; x3a; x22]
                       ++ bytes_of "sign" ++ x22 :: bytes_of "}");
     ("missing_cmd"%string, bytes_of "cmd must be one of" ++ bytes_of commands);
     ("unknown_cmd"%string, bytes_of "Supported commands" ++ bytes_of commands);
     ("missing_or_invalid_userId"%string, bytes_of "userId must be 1-64 chars using A-Z a-z 0-9 - _ .");
     ("missing_or_invalid_filename"%string, bytes_of "filename must be 1-128 chars using A-Z a-z 0-9 - _ .");
     ("missing_dataBase64"%string, bytes_of "Include the file chunk, base64-encoded, in 'dataBase64'");
     ("invalid_base64"%string, bytes_of "Re-encode the chunk with standard base64");
     ("body_too_large_or_empty"%string, bytes_of "Send a compact JSON body without wrappers");
     ("unauthorized"%string, bytes_of "Add header 'Authorization: Bearer <token>' (menuconfig HSM_API_TOKEN)");
     ("temporarily_locked"%string, bytes_of "Wait for the cooldown (see the Retry-After header) before retrying");
     ("rate_limited"%string, bytes_of "Slow down: fewer commands per minute");
     ("file_too_large"%string, bytes_of "Files are capped at 32 KiB; upload in smaller chunks");
     ("key_already_exists"%string, bytes_of "Set overwrite:true to replace the existing key");
     ("unknown_userId"%string, bytes_of "Generate a key first with cmd=createKey");
     ("file_not_found"%string, bytes_of "Run uploadStart, uploadChunk, uploadEnd before signing");
     ("file_not_found_or_too_large"%string, bytes_of "Re-upload the file (max 32 KiB)")] with
  | Some (_, s) => s
  | None => []
  end.

Definition make_error (code : string) : CmdResult :=
  mkResult (error_http_status code)
    ([("status", VStr (bytes_of "error")); ("error", VStr (bytes_of code)); ("message", VStr (bytes_of (error_message code)))]%string
     ++ match error_hint code with [] => [] | h => [("hint"%string, VStr h)] end).

Definition make_success (resp : list (string * Val)) : CmdResult :=
  mkResult 200 (resp ++ [("status"%string, VStr (bytes_of "ok"))]).

Definition pk_alg_name_for (k : pk_context) : string :=
  if pk_is_rsa k then "RSA-PKCS1-SHA256" else if pk_is_ec k then "ECDSA-SHA256" else "unknown".

(** ** Commands *)

Inductive KeyLoad : Type := KeyOk (k : pk_context) | KeyMissing | KeyBroken.

Definition load_key_for_user (io : Io) (f : gmap (list byte) (list byte)) (userId : list byte) : KeyLoad :=
  match read_sd_file io f (key_path userId) with
  | None => KeyMissing
  | Some buf => match pk_parse_key (buf ++ [x00]) with Some k => KeyOk k | None => KeyBroken end
  end.

Definition sign_hash (io : Io) (k : pk_context) (hash : list byte) : option (list byte) :=
  match pk_sign (io_seed io) k hash with
  | None => None
  | Some sig => mbedtls_base64_encode sig
  end.

Definition handle_create_key (io : Io) (root : list (list byte * Item)) (d : Device) : CmdResult * Device :=
  match validate_string_component (get_item root (bytes_of "userId")) USERID_MAX_LEN with
  | None => (make_error "missing_or_invalid_userId", d)
  | Some userId =>
    let overwrite := match get_item root (bytes_of "overwrite") with Some (JBool true) => true | _ => false end in
    let existed := bool_decide (is_Some (fs d !! key_path userId)) && negb (io_stat_fails io (key_path userId)) in
    if negb overwrite && existed then (make_error "key_already_exists", d)
    else if negb pk_setup then (make_error "key_setup_failed", d)
    else match ecp_gen_key (io_seed io) with
    | None => (make_error "key_generation_failed", d)
    | Some key =>
      match pk_write_key_pem key, pk_write_pubkey_pem key with
      | Some pem, Some pub =>
        match write_file io false (key_path userId) pem (fs d) with
        | None => (make_error "key_write_failed", d)
        | Some (false, f) => (make_error "key_write_incomplete", set_fs d f)
        | Some (true, f) =>
          (make_success [("userId", VStr userId); ("publicKeyAlgorithm", VStr (bytes_of "ECDSA-P256")); ("publicKeyPem", VStr pub)]%string,
           audit_log io (if existed && overwrite then "key_overwritten" else "key_created") (Some userId)
             (Some (bytes_of "ECDSA-P256")) (set_fs d f))
        end
      | _, _ => (make_error "key_export_failed", d)
      end
    end
  end.

Definition handle_upload_start (io : Io) (root : list (list byte * Item)) (d : Device) : CmdResult * Device :=
  match validate_string_component (get_item root (bytes_of "filename")) FILENAME_MAX_LEN with
  | None => (make_error "missing_or_invalid_filename", d)
  | Some filename =>
    match write_file io false (tmp_path filename) [] (fs d) with
    | None => (make_error "tmp_create_failed", d)
    | Some (_, f) => (make_success [("filename"%string, VStr filename)], set_fs d f)
    end
  end.

Definition handle_upload_chunk (io : Io) (root : list (list byte * Item)) (d : Device) : CmdResult * Device :=
  match validate_string_component (get_item root (bytes_of "filename")) FILENAME_MAX_LEN with
  | None => (make_error "missing_or_invalid_filename", d)
  | Some filename =>
    match get_item root (bytes_of "dataBase64") with
    | Some (JString b64) =>
      match mbedtls_base64_decode b64 with
      | None => (make_error "invalid_base64", d)
      | Some decoded =>
        let cur := if io_stat_fails io (tmp_path filename) then 0 else len (contents (fs d) (tmp_path filename)) in
        if (MAX_UPLOAD_BYTES <=? cur) || (MAX_UPLOAD_BYTES - cur <? len decoded) then (make_error "file_too_large", d)
        else match write_file io true (tmp_path filename) decoded (fs d) with
        | None => (make_error "tmp_open_failed", d)
        | Some (false, f) => (make_error "tmp_write_incomplete", set_fs d f)
        | Some (true, f) =>
          (make_success [("filename", VStr filename); ("bytesWritten", VNum (len decoded));
                         ("totalBytes", VNum (if io_tell_fails io (tmp_path filename) then -1
                                              else len (contents f (tmp_path filename))))]%string, set_fs d f)
        end
      end
    | _ => (make_error "missing_dataBase64", d)
    end
  end.

Definition handle_upload_end (io : Io) (root : list (list byte * Item)) (d : Device) : CmdResult * Device :=
  match validate_string_component (get_item root (bytes_of "filename")) FILENAME_MAX_LEN with
  | None => (make_error "missing_or_invalid_filename", d)
  | Some filename =>
    match (if io_stat_fails io (tmp_path filename) then None else fs d !! tmp_path filename) with
    | None => (make_error "file_not_found", d)
    | Some c => (make_success [("filename", VStr filename); ("totalBytes", VNum (len c))]%string, d)
    end
  end.

Definition unlink (io : Io) (path : list byte) (d : Device) : Device :=
  if io_unlink_fails io path then d else set_fs d (delete path (fs d)).

Definition handle_sign (io : Io) (root : list (list byte * Item)) (d : Device) : CmdResult * Device :=
  match validate_string_component (get_item root (bytes_of "userId")) USERID_MAX_LEN with
  | None => (make_error "missing_or_invalid_userId", d)
  | Some userId =>
  match validate_string_component (get_item root (bytes_of "filename")) FILENAME_MAX_LEN with
  | None => (make_error "missing_or_invalid_filename", d)
  | Some filename =>
    match user_sign_rate_limited io userId d with
    | (true, d) => (make_error "rate_limited", d)
    | (false, d) =>
      match load_key_for_user io (fs d) userId with
      | KeyMissing => (make_error "unknown_userId", d)
      | KeyBroken => (make_error "key_load_failed", d)
      | KeyOk key =>
        match read_sd_file io (fs d) (tmp_path filename) with
        | None => (make_error "file_not_found_or_too_large", d)
        | Some file_buf =>
          match md_sha256 file_buf with
          | None => (make_error "hash_failed", unlink io (tmp_path filename) d)
          | Some hash =>
            let hash_hex := Utils.hex_encode hash in
            match sign_hash io key hash with
            | None => (make_error "signing_failed", unlink io (tmp_path filename) d)
            | Some sig_b64 =>
              let d := unlink io (tmp_path filename) d in
              let d := set_sign_count d (u32 (s_sign_count d + 1)) in
              let d := audit_log io "sign" (Some userId) (Some (filename ++ bytes_of " hash=" ++ hash_hex)) d in
              (make_success [("userId", VStr userId); ("filename", VStr filename); ("hashAlgorithm", VStr (bytes_of "SHA-256"));
                             ("hashHex", VStr hash_hex); ("signatureAlgorithm", VStr (bytes_of (pk_alg_name_for key)));
                             ("signatureBase64", VStr sig_b64)]%string, d)
            end
          end
        end
      end
    end
  end end.

(** The choice of the handler by [cmd]. *)
Definition handle_command (io : Io) (root : list (list byte * Item)) (d : Device) : CmdResult * Device :=
  match get_item root (bytes_of "cmd") with
  | Some (JString cmd) =>
    if bool_decide (cmd = bytes_of "createKey") then handle_create_key io root d
    else if bool_decide (cmd = bytes_of "uploadStart") then handle_upload_start io root d
    else if bool_decide (cmd = bytes_of "uploadChunk") then handle_upload_chunk io root d
    else if bool_decide (cmd = bytes_of "uploadEnd") then handle_upload_end io root d
    else if bool_decide (cmd = bytes_of "sign") then handle_sign io root d
    else (make_error "unknown_cmd", d)
  | _ => (make_error "missing_cmd", d)
  end.

Context `{J : CJson}.

Definition handle_request (io : Io) (json_line : list byte) (d : Device) : CmdResult * Device :=
  match cJSON_Parse json_line with
  | None => (make_error "invalid_json", d)
  | Some root => handle_command io root d
  end.

(** ** The HTTP handler *)

(** A request: its connection, the [Authorization] header, the announced length
    and the bytes received, [None] when the socket failed. *)
Record Request : Type := mkRequest {
  q_conn : Z;
  q_header : option (list byte);
  q_content_len : Z;
  q_body : option (list byte)
}.

Record Response : Type := mkResponse { r_result : option CmdResult; r_retry_after : option Z }.

Definition respond (r : CmdResult) : Response := mkResponse (Some r) None.

Definition cmd_post_handler (io : Io) (q : Request) (d : Device) : Response * Device :=
  let '(limited, d) := match global_rate_limited io d with
                       | (true, d) => (true, d)
                       | (false, d) => conn_rate_limited io (q_conn q) d
                       end in
  if limited then
    (respond (make_error "rate_limited"), audit_log io "rate_limited" None (Some (bytes_of "/cmd global-or-connection")) d)
  else
    let serve (d : Device) : Response * Device :=
      if (q_content_len q <=? 0) || (HTTP_BODY_MAX_LEN <=? q_content_len q) then (respond (make_error "body_too_large_or_empty"), d)
      else match q_body q with
           | None => (mkResponse None None, d)
           | Some b => let (r, d) := handle_request io (c_str b) d in (respond r, d)
           end in
    if negb auth_enabled then serve d
    else
      let remaining := auth_lock_remaining_s (io_now io) (s_auth_fail d) in
      if 0 <? remaining then
        (mkResponse (Some (make_error "temporarily_locked")) (Some remaining), audit_log io "auth_locked" None None d)
      else if negb (check_auth (q_header q)) then
        let d := audit_log io "auth_failed" None None (set_auth d (record_auth_failure (io_now io) (s_auth_fail d))) in
        let now_lock := auth_lock_remaining_s (io_now io) (s_auth_fail d) in
        if 0 <? now_lock then (mkResponse (Some (make_error "temporarily_locked")) (Some now_lock), d)
        else (respond (make_error "unauthorized"), d)
      else serve (set_auth d (record_auth_success (io_now io) (s_auth_fail d))).

(** ** The health report *)

(** [send_json]: the status line of a status. *)
Definition status_line (status : Z) : string :=
  match List.find (fun p => fst p =? status)
    [(200, "200 OK"); (400, "400 Bad Request"); (401, "401 Unauthorized"); (404, "404 Not Found"); (409, "409 Conflict");
     (413, "413 Payload Too Large"); (429, "429 Too Many Requests"); (503, "503 Service Unavailable")]%string with
  | Some (_, l) => l
  | None => "500 Internal Server Error"
  end.

(** What the report asks of the system: the network name, signal and channel when
    associated, the address when there is one, the card's capacity in blocks. *)
Record Health : Type := mkHealth {
  h_version : list byte;
  h_uptime : Z;
  h_free_heap : Z;
  h_ap : option (list byte * Z * Z);
  h_ip : option (list byte);
  h_card : option Z;
  h_keys_dir_opens : bool
}.

Definition SD_BLOCK_SIZE : Z := 512.

Fixpoint strstr (s needle : list byte) : bool :=
  bool_decide (take (length needle) s = needle) || match s with [] => false | _ :: r => strstr r needle end.

(** An entry of the directory of keys that the loop counts. *)
Definition key_entry (path : list byte) : bool :=
  let name := drop (S (length KEYS_DIR)) path in
  bool_decide (take (S (length KEYS_DIR)) path = KEYS_DIR ++ [x2f]) && negb (bool_decide (x2f ∈ name)) && strstr name (bytes_of ".pem").

Definition count_keys (f : gmap (list byte) (list byte)) : Z := Z.of_nat (size (filter (fun p => key_entry (fst p) = true) f)).

Definition flag (b : bool) : Val := VNum (if b then 1 else 0).

Definition health_get_handler (h : Health) (d : Device) : CmdResult :=
  make_success
    ([("status", VStr (bytes_of "ok")); ("service", VStr (bytes_of "vHSM-ESP32")); ("version", VStr (h_version h));
      ("uptimeSeconds", VNum (h_uptime h)); ("freeHeapBytes", VNum (h_free_heap h)); ("authEnabled", flag auth_enabled)]%string
     ++ match h_ap h with
        | Some (ssid, rssi, channel) => [("wifiSsid", VStr ssid); ("wifiRssi", VNum rssi); ("wifiChannel", VNum channel)]%string
        | None => [("wifiSsid", VStr (bytes_of "not-connected")); ("wifiRssi", VNum 0)]%string
        end
     ++ match h_ip h with Some ip => [("ip"%string, VStr ip)] | None => [] end
     ++ match h_card h with Some c => [("sdTotalBytes"%string, VNum (c * SD_BLOCK_SIZE))] | None => [] end
     ++ [("keyCount", VNum (if h_keys_dir_opens h then u32 (count_keys (fs d)) else 0)); ("signCount", VNum (s_sign_count d));
         ("auditEnabled", flag (AUDIT_ENABLED cfg))]%string).

(** ** Booting *)

Definition in_dir (dir path : list byte) : bool := bool_decide (take (S (length dir)) path = dir ++ [x2f]).

(** [clear_tmp_dir]: nothing when the directory does not open; a file that is not
    removed stays. *)
Definition clear_tmp_dir (io : Io) (f : gmap (list byte) (list byte)) : gmap (list byte) (list byte) :=
  if io_open_fails io TMP_DIR then f
  else filter (fun p => in_dir TMP_DIR (fst p) && negb (io_unlink_fails io (fst p)) = false) f.

Definition boot (io : Io) (f : gmap (list byte) (list byte)) : Device :=
  audit_init io (mkDevice (clear_tmp_dir io f) 0 [] (mkWindow 0 0) ∅ [] (mkAuthFail 0 0 0 0) 0).

(** ** What a request can change *)

Definition audit_path (path : list byte) : Prop := path = AUDIT_FILE \/ path = AUDIT_STATE_FILE.

(** Two devices that differ at most in the audit log. *)
Record same_but_audit (d d' : Device) : Prop := {
  a_fs : forall path, ~ audit_path path -> fs d' !! path = fs d !! path;
  a_global : s_global_window d' = s_global_window d;
  a_conns : s_conns d' = s_conns d;
  a_limits : s_user_sign_limits d' = s_user_sign_limits d;
  a_auth : s_auth_fail d' = s_auth_fail d;
  a_count : s_sign_count d' = s_sign_count d
}.

Lemma write_file_frame io append path data f b f' q :
  write_file io append path data f = Some (b, f') -> q <> path -> f' !! q = f !! q.
Proof.
  unfold write_file. destruct (io_open_fails io path); [done|]. intros H Hq. simplify_eq. by rewrite lookup_insert_ne.
Qed.

Lemma audit_log_frame io event user detail d : same_but_audit d (audit_log io event user detail d).
Proof.
  unfold audit_log. destruct (AUDIT_ENABLED cfg); cbn [negb]; [|by split].
  destruct (write_file io true AUDIT_FILE _ (fs d)) as [[[] f]|] eqn:E1; [|split; cbn; try done|by split].
  - match goal with |- context [write_file io false AUDIT_STATE_FILE ?x ?y] =>
      destruct (write_file io false AUDIT_STATE_FILE x y) as [[b f']|] eqn:E2 end; split; cbn in *; try done;
      intros path Hp; unfold audit_path in Hp.
    + rewrite (write_file_frame _ _ _ _ _ _ _ path E2) by tauto. apply (write_file_frame _ _ _ _ _ _ _ path E1). tauto.
    + apply (write_file_frame _ _ _ _ _ _ _ path E1). tauto.
  - intros path Hp. unfold audit_path in Hp. apply (write_file_frame _ _ _ _ _ _ _ path E1). tauto.
Qed.

Lemma check_auth_exact header :
  auth_enabled = true -> check_auth header = true -> header = Some (bytes_of "Bearer " ++ API_TOKEN cfg).
Proof.
  unfold check_auth. intros ->. cbn [negb]. destruct header as [h|]; [|done]. intros H.
  apply andb_true_iff in H as [H1%bool_decide_eq_true H2%bool_decide_eq_true]. f_equal. by rewrite <- (take_drop 7 h), H1, H2.
Qed.

Lemma windows_frame io conn d :
  let d1 := snd (global_rate_limited io d) in let d2 := snd (conn_rate_limited io conn d1) in
  (fs d1 = fs d /\ s_auth_fail d1 = s_auth_fail d /\ s_sign_count d1 = s_sign_count d /\ s_user_sign_limits d1 = s_user_sign_limits d) /\
  (fs d2 = fs d /\ s_auth_fail d2 = s_auth_fail d /\ s_sign_count d2 = s_sign_count d /\ s_user_sign_limits d2 = s_user_sign_limits d).
Proof.
  unfold global_rate_limited, conn_rate_limited. destruct (rate_limited_window _ _ _ _) as [b w]. cbn.
  split; [done|]. destruct (s_conns d !! conn).
  - by destruct (rate_limited_window _ _ _ _).
  - destruct (io_calloc_fails io); [done|]. by destruct (rate_limited_window _ _ _ _).
Qed.

(** C15: Without the token nothing happens: when authentication is on, a request
    whose header is not exactly the configured bearer token, or that comes while
    the device is locked, is answered with an error (rate limited, unauthorized
    or locked), and neither the keys nor the uploads nor the signature counters
    change; only the audit log, the throttles and the lockout may. *)
Theorem fw_requires_token (io : Io) (q : Request) (d : Device)
    (Ha : auth_enabled = true)
    (Hq : q_header q <> Some (bytes_of "Bearer " ++ API_TOKEN cfg) \/ 0 < auth_lock_remaining_s (io_now io) (s_auth_fail d)) :
  let (r, d') := cmd_post_handler io q d in
  (exists e, r_result r = Some e /\ (status e = 429 \/ status e = 401 \/ status e = 503)) /\
  (forall path, ~ audit_path path -> fs d' !! path = fs d !! path) /\
  s_sign_count d' = s_sign_count d /\ s_user_sign_limits d' = s_user_sign_limits d.
Proof.
  unfold cmd_post_handler. pose proof (windows_frame io (q_conn q) d) as Hw. cbv zeta in Hw.
  destruct (global_rate_limited io d) as [b1 d1]. cbn [snd] in Hw.
  assert (Hd : exists b d2, match (b1, d1) with (true, d) => (true, d) | (false, d) => conn_rate_limited io (q_conn q) d end = (b, d2) /\
    fs d2 = fs d /\ s_auth_fail d2 = s_auth_fail d /\ s_sign_count d2 = s_sign_count d /\ s_user_sign_limits d2 = s_user_sign_limits d).
  { destruct b1; [exists true, d1; split; [done|apply Hw]|]. destruct (conn_rate_limited io (q_conn q) d1) as [b2 d2].
    exists b2, d2. split; [done|apply Hw]. }
  destruct Hd as (b & d2 & -> & Ef & Eauth & Ec & El). rewrite Ha. cbn [negb]. rewrite Eauth.
  destruct b.
  { destruct (audit_log_frame io "rate_limited" None (Some (bytes_of "/cmd global-or-connection")) d2) as [F1 _ _ F2 _ F3].
    split_and!; [eexists; split; [reflexivity|by left]|by rewrite <- Ef|congruence..]. }
  destruct (Z.ltb_spec 0 (auth_lock_remaining_s (io_now io) (s_auth_fail d))) as [Hl|Hl].
  { destruct (audit_log_frame io "auth_locked" None None d2) as [F1 _ _ F2 _ F3].
    split_and!; [eexists; split; [reflexivity|by right; right]|by rewrite <- Ef|congruence..]. }
  destruct Hq as [Hq|Hq]; [|lia]. destruct (check_auth (q_header q)) eqn:Eh; [by apply check_auth_exact in Eh|]. cbn [negb].
  set (d3 := set_auth d2 _). destruct (audit_log_frame io "auth_failed" None None d3) as [F1 _ _ F2 _ F3].
  destruct (0 <? _); (split_and!; [eexists; split; [reflexivity|tauto]|intros path Hp; rewrite F1 by done; by rewrite <- Ef|
    rewrite F3; exact Ec|rewrite F2; exact El]).
Qed.

(** ** Confinement of the files *)

Definition safe_user (u : list byte) : Prop := is_safe_name_component u USERID_MAX_LEN = true.
Definition safe_file (n : list byte) : Prop := is_safe_name_component n FILENAME_MAX_LEN = true.

Lemma safe_no_slash s max : is_safe_name_component s max = true -> (x2f ∉ s) /\ s <> [] /\ len s <= max.
Proof.
  unfold is_safe_name_component. destruct (Z.eqb_spec (len s) 0) as [|Hl]; [done|].
  destruct (Z.ltb_spec max (len s)); [done|]. cbn [orb].
  destruct (bool_decide _ || bool_decide _); [done|]. intros Hf. split_and!; [|by intros ->|lia].
  intros Hin%list_elem_of_In. rewrite forallb_forall in Hf. by specialize (Hf _ Hin).
Qed.

(** The files a command may change.  A key that is there may only be replaced by a request
    that asks for it, or when [access] fails on it. *)
Definition may_change (io : Io) (root : list (list byte * Item)) (d : Device) (path : list byte) : Prop :=
  audit_path path \/
  (exists u, safe_user u /\ path = key_path u /\ get_item root (bytes_of "userId") = Some (JString u) /\
     (fs d !! path = None \/ get_item root (bytes_of "overwrite") = Some (JBool true) \/ io_stat_fails io path = true)) \/
  (exists n, safe_file n /\ path = tmp_path n /\ get_item root (bytes_of "filename") = Some (JString n)).

Definition uploads_fit (d : Device) : Prop :=
  forall n, len (contents (fs d) (tmp_path n)) <= MAX_UPLOAD_BYTES.

(** The size of the upload a request names can be read. *)
Definition size_known (io : Io) (root : list (list byte * Item)) : Prop :=
  forall n, get_item root (bytes_of "filename") = Some (JString n) -> io_stat_fails io (tmp_path n) = false.

Definition confined (io : Io) (root : list (list byte * Item)) (d d' : Device) : Prop :=
  (forall q, fs d' !! q = fs d !! q \/ may_change io root d q) /\ (uploads_fit d -> size_known io root -> uploads_fit d').

Lemma validated item max s : validate_string_component item max = Some s ->
  item = Some (JString s) /\ is_safe_name_component s max = true.
Proof.
  unfold validate_string_component. destruct item as [[x| |]|]; try done. destruct (is_safe_name_component x max) eqn:E; [|done].
  intros H. by simplify_eq.
Qed.

Lemma paths_apart u n : key_path u <> tmp_path n.
Proof. unfold key_path, tmp_path. vm_compute. congruence. Qed.

Lemma key_not_audit u : ~ audit_path (key_path u).
Proof. unfold audit_path, key_path. vm_compute. intros [H|H]; congruence. Qed.

Lemma tmp_not_audit n : ~ audit_path (tmp_path n).
Proof. unfold audit_path, tmp_path. vm_compute. intros [H|H]; congruence. Qed.

Lemma tmp_path_inj n m : tmp_path n = tmp_path m -> n = m.
Proof. unfold tmp_path. intros H. by do 2 apply app_inv_head in H. Qed.

Lemma fwrite_le io path data : len (fwrite io path data) <= len data.
Proof. unfold fwrite, len. destruct (io_room io path); [rewrite length_take|]; lia. Qed.

Lemma contents_insert f path c q : contents (<[path := c]> f) q = if bool_decide (q = path) then c else contents f q.
Proof.
  unfold contents. case_bool_decide; subst; [by rewrite lookup_insert_eq|by rewrite lookup_insert_ne by congruence].
Qed.

(** A change of one file of a permitted kind, of an upload of permitted size. *)
Lemma change_one io root d d' path :
  (forall q, q <> path -> ~ audit_path q -> fs d' !! q = fs d !! q) -> may_change io root d path ->
  (forall n, path = tmp_path n -> size_known io root -> len (contents (fs d) path) <= MAX_UPLOAD_BYTES ->
     len (contents (fs d') path) <= MAX_UPLOAD_BYTES) ->
  confined io root d d'.
Proof.
  intros Hf Hm Hs. split.
  - intros q. destruct (decide (q = path)) as [->|Hq]; [by right|].
    destruct (decide (q = AUDIT_FILE)) as [->|H1]; [right; left; by left|].
    destruct (decide (q = AUDIT_STATE_FILE)) as [->|H2]; [right; left; by right|]. left. apply Hf; [done|]. by intros [|].
  - intros Hu Hk n. destruct (decide (tmp_path n = path)) as [E|Hn].
    + rewrite E. apply (Hs n); [done|done|]. rewrite <- E. apply Hu.
    + unfold contents. rewrite Hf; [apply Hu|done|apply tmp_not_audit].
Qed.

Lemma unchanged io root d : confined io root d d.
Proof. split; [by left|done]. Qed.

Lemma create_confined io root d : confined io root d (snd (handle_create_key io root d)).
Proof.
  unfold handle_create_key. destruct (validate_string_component _ _) as [u|] eqn:Ev; [|apply unchanged].
  apply validated in Ev as [Ei Hs]. destruct (negb _ && _) eqn:Eo; [apply unchanged|].
  destruct pk_setup; [|apply unchanged]. cbn [negb]. destruct (ecp_gen_key _) as [k|]; [|apply unchanged].
  destruct (pk_write_key_pem k) as [pem|], (pk_write_pubkey_pem k) as [pub|]; try apply unchanged.
  assert (Hm : may_change io root d (key_path u)).
  { right. left. exists u. split_and!; try done. apply andb_false_iff in Eo as [Eo|Eo].
    - right. left. destruct (get_item root (bytes_of "overwrite")) as [[| []|]|]; done.
    - apply andb_false_iff in Eo as [Eo|Eo]; [left|right; right; by apply negb_false_iff].
      apply bool_decide_eq_false in Eo. by apply eq_None_not_Some. }
  destruct (write_file _ _ _ _ _) as [[[] f]|] eqn:Ew; [| |apply unchanged];
    apply (change_one _ _ _ _ (key_path u)); try done; try (intros n Hn; by apply paths_apart in Hn).
  - intros q Hq Ha. cbn [snd]. match goal with |- context [audit_log io ?e ?us ?de ?dd] => destruct (audit_log_frame io e us de dd) as [F1 _ _ _ _ _] end.
    rewrite F1 by done. cbn. by eapply write_file_frame.
  - intros q Hq _. cbn. by eapply write_file_frame.
Qed.

Lemma write_upload io append n data f b f' :
  write_file io append (tmp_path n) data f = Some (b, f') ->
  len (if append then contents f (tmp_path n) else []) + len data <= MAX_UPLOAD_BYTES ->
  len (contents f' (tmp_path n)) <= MAX_UPLOAD_BYTES.
Proof.
  unfold write_file. destruct (io_open_fails _ _); [done|]. intros H Hl. simplify_eq. rewrite contents_insert, bool_decide_eq_true_2 by done.
  rewrite len_app. pose proof (fwrite_le io (tmp_path n) data). lia.
Qed.

Lemma start_confined io root d : confined io root d (snd (handle_upload_start io root d)).
Proof.
  unfold handle_upload_start. destruct (validate_string_component _ _) as [n|] eqn:Ev; [|apply unchanged].
  apply validated in Ev as [Ei Hs]. destruct (write_file _ _ _ _ _) as [[b f]|] eqn:Ew; [|apply unchanged].
  apply (change_one _ _ _ _ (tmp_path n)).
  - intros q Hq _. cbn. by eapply write_file_frame.
  - right. right. by exists n.
  - intros m _ _ _. cbn. eapply write_upload; [exact Ew|]. unfold len, MAX_UPLOAD_BYTES. cbn. lia.
Qed.

Lemma chunk_confined io root d : confined io root d (snd (handle_upload_chunk io root d)).
Proof.
  unfold handle_upload_chunk. destruct (validate_string_component _ _) as [n|] eqn:Ev; [|apply unchanged].
  apply validated in Ev as [Ei Hs]. destruct (get_item root (bytes_of "dataBase64")) as [[s| |]|]; try apply unchanged.
  destruct (mbedtls_base64_decode s) as [decoded|]; [|apply unchanged].
  set (cur := if io_stat_fails io (tmp_path n) then 0 else len (contents (fs d) (tmp_path n))).
  destruct (Z.leb_spec MAX_UPLOAD_BYTES cur); [apply unchanged|].
  destruct (Z.ltb_spec (MAX_UPLOAD_BYTES - cur) (len decoded)); [apply unchanged|]. cbn [orb].
  destruct (write_file _ _ _ _ _) as [[[] f]|] eqn:Ew; [| |apply unchanged];
    (apply (change_one _ _ _ _ (tmp_path n)); [intros q Hq _; cbn; by eapply write_file_frame|right; right; by exists n|]);
    intros m _ Hk _; refine (write_upload _ _ _ _ _ _ _ Ew _); unfold cur in *; rewrite (Hk n Ei) in *; lia.
Qed.

Lemma limits_fs io u d : fs (snd (user_sign_rate_limited io u d)) = fs d.
Proof. unfold user_sign_rate_limited. by destruct (bump_user _ _ _) as [[]|]. Qed.

Lemma sign_confined io root d : confined io root d (snd (handle_sign io root d)).
Proof.
  unfold handle_sign. destruct (validate_string_component _ _) as [u|] eqn:Ev; [|apply unchanged].
  destruct (validate_string_component (get_item root (bytes_of "filename")) _) as [n|] eqn:Ef; [|apply unchanged].
  apply validated in Ef as [Ei Hs]. pose proof (limits_fs io u d) as Hd.
  destruct (user_sign_rate_limited io u d) as [b d1]. cbn [snd] in Hd.
  assert (Hu : confined io root d d1). { split; [intros q; left; by rewrite Hd|]. intros H _ m. rewrite Hd. apply H. }
  assert (Hx : forall d', (forall q, ~ audit_path q -> fs d' !! q = fs (unlink io (tmp_path n) d1) !! q) -> confined io root d d').
  { intros d'. unfold unlink. destruct (io_unlink_fails io (tmp_path n)); cbn [set_fs fs]; intros H; apply (change_one _ _ _ _ (tmp_path n));
      try (right; right; by exists n).
    - intros q Hq Ha. by rewrite H, Hd.
    - intros m _ _. unfold contents. by rewrite H, Hd by apply tmp_not_audit.
    - intros q Hq Ha. by rewrite H, lookup_delete_ne, Hd.
    - intros m _ _ _. unfold contents. rewrite H by apply tmp_not_audit. rewrite lookup_delete_eq. unfold len, MAX_UPLOAD_BYTES. cbn. lia. }
  destruct b; [exact Hu|]. destruct (load_key_for_user _ _ _); [|exact Hu..].
  destruct (read_sd_file _ _ _); [|exact Hu]. destruct (md_sha256 _); [|by apply Hx]. destruct (sign_hash _ _ _); [|by apply Hx].
  cbn [snd]. apply Hx. intros q Hq.
  match goal with |- context [audit_log io ?e ?us ?de ?dd] => destruct (audit_log_frame io e us de dd) as [F1 _ _ _ _ _] end.
  by rewrite F1 by done.
Qed.

(** C17: A command stays in its place, whatever the card answers: it changes no file
    but the audit log, the key of the user it names and the upload it names, whose
    names hold no directory separator.  A key that exists is replaced only by a request
    that asks to overwrite, or when [access] fails on the key; and no upload grows beyond
    32 KiB, the size the signer reads, as long as [stat] does not fail on the upload. *)
Theorem fw_files_confined (io : Io) (root : list (list byte * Item)) (d : Device) :
  let d' := snd (handle_command io root d) in
  (forall path, fs d' !! path = fs d !! path \/ may_change io root d path) /\
  (uploads_fit d -> size_known io root -> uploads_fit d') /\
  (forall u, safe_user u -> x2f ∉ u) /\ (forall n, safe_file n -> x2f ∉ n).
Proof.
  assert (Hc : confined io root d (snd (handle_command io root d))).
  { unfold handle_command. destruct (get_item root (bytes_of "cmd")) as [[cmd| |]|]; try apply unchanged.
    repeat case_bool_decide; try apply unchanged;
      [apply create_confined|apply start_confined|apply chunk_confined| |apply sign_confined].
    unfold handle_upload_end. destruct (validate_string_component _ _); [|apply unchanged].
    destruct (if io_stat_fails _ _ then _ else _); apply unchanged. }
  cbv zeta. split_and!; [apply Hc..| |]; intros x Hx; by apply safe_no_slash in Hx as [? _].
Qed.

(** ** From upload to signature *)

(** A card on which every operation succeeds. *)
Definition calm (io : Io) : Prop :=
  (forall path, io_open_fails io path = false) /\ (forall path, io_room io path = None) /\
  (forall path, io_stat_fails io path = false) /\ (forall path, io_unlink_fails io path = false).

Lemma write_calm io append path data f :
  calm io -> write_file io append path data f = Some (true, <[path := (if append then contents f path else []) ++ data]> f).
Proof.
  intros (H1 & H2 & _). unfold write_file, fwrite. by rewrite H1, H2, bool_decide_eq_true_2.
Qed.

Lemma read_calm io f path c :
  calm io -> f !! path = Some c -> c <> [] -> len c <= MAX_FILE_READ_LEN -> read_sd_file io f path = Some c.
Proof.
  intros [H1 _] Hf Hc Hl. unfold read_sd_file. rewrite H1, Hf.
  destruct (Z.ltb_spec MAX_FILE_READ_LEN (len c)); [lia|]. by rewrite bool_decide_eq_false_2.
Qed.

Definition cmd_is (c : string) : list byte * Item := (bytes_of "cmd", JString (bytes_of c)).
Definition user_is (u : list byte) : list byte * Item := (bytes_of "userId", JString u).
Definition file_is (n : list byte) : list byte * Item := (bytes_of "filename", JString n).

Definition create_root (u : list byte) := [cmd_is "createKey"; user_is u].
Definition start_root (n : list byte) := [cmd_is "uploadStart"; file_is n].
Definition chunk_root (n b64 : list byte) := [cmd_is "uploadChunk"; file_is n; (bytes_of "dataBase64", JString b64)].
Definition sign_root (u n : list byte) := [cmd_is "sign"; user_is u; file_is n].

(** A chunk: the request's environment, its text and the bytes it decodes to. *)
Record Chunk : Type := mkChunk { c_io : Io; c_b64 : list byte; c_bytes : list byte }.

Definition good_chunk (c : Chunk) : Prop :=
  calm (c_io c) /\ mbedtls_base64_decode (c_b64 c) = Some (c_bytes c) /\ c_bytes c <> [].

Definition upload (n : list byte) (cs : list Chunk) (d : Device) : Device :=
  fold_left (fun d c => snd (handle_command (c_io c) (chunk_root n (c_b64 c)) d)) cs d.

Lemma valid_user u : safe_user u -> validate_string_component (Some (JString u)) USERID_MAX_LEN = Some u.
Proof. unfold safe_user. cbn [validate_string_component]. by intros ->. Qed.

Lemma valid_file n : safe_file n -> validate_string_component (Some (JString n)) FILENAME_MAX_LEN = Some n.
Proof. unfold safe_file. cbn [validate_string_component]. by intros ->. Qed.

Lemma nonempty_len {A} (l : list A) : l <> [] -> 0 < len l.
Proof. destruct l; [done|]. intros _. unfold len. cbn. lia. Qed.

Lemma chunk_step n c d :
  safe_file n -> good_chunk c -> len (contents (fs d) (tmp_path n)) + len (c_bytes c) <= MAX_UPLOAD_BYTES ->
  snd (handle_command (c_io c) (chunk_root n (c_b64 c)) d) =
  set_fs d (<[tmp_path n := contents (fs d) (tmp_path n) ++ c_bytes c]> (fs d)).
Proof.
  intros Hn (Hc & Hb & He) Hl. change (handle_command (c_io c) (chunk_root n (c_b64 c)) d) with
    (handle_upload_chunk (c_io c) (chunk_root n (c_b64 c)) d). unfold handle_upload_chunk.
  change (get_item (chunk_root n (c_b64 c)) (bytes_of "filename")) with (Some (JString n)).
  change (get_item (chunk_root n (c_b64 c)) (bytes_of "dataBase64")) with (Some (JString (c_b64 c))).
  pose proof Hc as (_ & _ & Hst & _). rewrite valid_file, Hb, Hst by done. pose proof (nonempty_len _ He).
  destruct (Z.leb_spec MAX_UPLOAD_BYTES (len (contents (fs d) (tmp_path n)))); [lia|].
  destruct (Z.ltb_spec (MAX_UPLOAD_BYTES - len (contents (fs d) (tmp_path n))) (len (c_bytes c))); [lia|]. cbn [orb].
  by rewrite write_calm.
Qed.

Lemma upload_all n cs d :
  safe_file n -> Forall good_chunk cs ->
  len (contents (fs d) (tmp_path n)) + len (concat (map c_bytes cs)) <= MAX_UPLOAD_BYTES ->
  is_Some (fs d !! tmp_path n) ->
  exists f, upload n cs d = set_fs d f /\
    f !! tmp_path n = Some (contents (fs d) (tmp_path n) ++ concat (map c_bytes cs)) /\
    (forall q, q <> tmp_path n -> f !! q = fs d !! q).
Proof.
  intros Hn Hc. revert d. induction Hc as [|c cs Hg _ IH]; intros d Hl [x Hx].
  { exists (fs d). split; [by destruct d|]. split; [|done]. cbn [map concat]. rewrite app_nil_r. unfold contents. by rewrite Hx. }
  cbn [map concat] in Hl |- *. rewrite len_app in Hl. pose proof (len_nonneg (concat (map c_bytes cs))).
  unfold upload. cbn [fold_left]. rewrite chunk_step by (try done; lia).
  set (d1 := set_fs d _). assert (E1 : contents (fs d1) (tmp_path n) = contents (fs d) (tmp_path n) ++ c_bytes c).
  { cbn [d1 set_fs fs]. rewrite contents_insert. by rewrite bool_decide_eq_true_2. }
  destruct (IH d1) as (f & Hf & H1 & H2).
  - rewrite E1, len_app. lia.
  - cbn [d1 set_fs fs]. rewrite lookup_insert_eq. by eexists.
  - exists f. split_and!.
    + unfold upload in Hf. by rewrite Hf.
    + rewrite H1, E1. by rewrite app_assoc.
    + intros q Hq. rewrite H2 by done. cbn [d1 set_fs fs]. by rewrite lookup_insert_ne.
Qed.

Lemma create_ok io u d k pem pub :
  calm io -> safe_user u -> fs d !! key_path u = None -> pk_setup = true ->
  ecp_gen_key (io_seed io) = Some k -> pk_write_key_pem k = Some pem -> pk_write_pubkey_pem k = Some pub ->
  exists d', handle_command io (create_root u) d =
    (make_success [("userId", VStr u); ("publicKeyAlgorithm", VStr (bytes_of "ECDSA-P256")); ("publicKeyPem", VStr pub)]%string, d') /\
    same_but_audit (set_fs d (<[key_path u := pem]> (fs d))) d'.
Proof.
  intros Hc Hu Hf Hs Hk Hp Hq. change (handle_command io (create_root u) d) with (handle_create_key io (create_root u) d).
  unfold handle_create_key. change (get_item (create_root u) (bytes_of "userId")) with (Some (JString u)).
  change (get_item (create_root u) (bytes_of "overwrite")) with (@None Item).
  rewrite valid_user, Hf by done. rewrite (bool_decide_eq_false_2 (is_Some None)) by (by intros [? ?]). cbn [negb andb].
  rewrite Hs, Hk, Hp, Hq, write_calm by done. cbn [negb app]. eexists. split; [reflexivity|]. apply audit_log_frame.
Qed.

Lemma start_ok io n d :
  calm io -> safe_file n ->
  handle_command io (start_root n) d = (make_success [("filename"%string, VStr n)], set_fs d (<[tmp_path n := []]> (fs d))).
Proof.
  intros Hc Hn. change (handle_command io (start_root n) d) with (handle_upload_start io (start_root n) d).
  unfold handle_upload_start. change (get_item (start_root n) (bytes_of "filename")) with (Some (JString n)).
  by rewrite valid_file, write_calm.
Qed.

Context {L : MbedLaws M}.

Lemma sign_ok io u n d k pem data h sig b64 :
  calm io -> safe_user u -> safe_file n -> fst (user_sign_rate_limited io u d) = false ->
  fs d !! key_path u = Some pem -> pk_write_key_pem k = Some pem ->
  fs d !! tmp_path n = Some data -> data <> [] -> len data <= MAX_UPLOAD_BYTES ->
  md_sha256 data = Some h -> pk_sign (io_seed io) k h = Some sig -> mbedtls_base64_encode sig = Some b64 ->
  exists d', handle_command io (sign_root u n) d =
    (make_success [("userId", VStr u); ("filename", VStr n); ("hashAlgorithm", VStr (bytes_of "SHA-256"));
                   ("hashHex", VStr (Utils.hex_encode h)); ("signatureAlgorithm", VStr (bytes_of (pk_alg_name_for k)));
                   ("signatureBase64", VStr b64)]%string, d') /\
    fs d' !! tmp_path n = None /\ s_sign_count d' = u32 (s_sign_count d + 1).
Proof.
  intros Hc Hu Hn Hr Hk Hp Hf He Hl Hh Hs Hb. change (handle_command io (sign_root u n) d) with (handle_sign io (sign_root u n) d).
  unfold handle_sign. change (get_item (sign_root u n) (bytes_of "userId")) with (Some (JString u)).
  change (get_item (sign_root u n) (bytes_of "filename")) with (Some (JString n)). rewrite valid_user, valid_file by done.
  pose proof (limits_fs io u d) as Hd. assert (Hcount : s_sign_count (snd (user_sign_rate_limited io u d)) = s_sign_count d)
    by (unfold user_sign_rate_limited; by destruct (bump_user _ _ _) as [[]|]).
  destruct (user_sign_rate_limited io u d) as [b d1]. cbn [fst snd] in *. subst b.
  destruct (parse_written k pem Hp) as (Hparse & Hpne & Hpl). unfold load_key_for_user, sign_hash.
  rewrite Hd, (read_calm io (fs d) (key_path u) pem) by (try done; unfold MAX_FILE_READ_LEN; lia). rewrite Hparse.
  rewrite (read_calm io (fs d) (tmp_path n) data) by (try done; unfold MAX_FILE_READ_LEN, MAX_UPLOAD_BYTES in *; lia).
  rewrite Hh, Hs, Hb. eexists. split; [reflexivity|].
  match goal with |- context [audit_log io ?e ?us ?de ?dd] => destruct (audit_log_frame io e us de dd) as [F1 _ _ _ _ F3] end.
  rewrite F1 by apply tmp_not_audit. rewrite F3. unfold unlink. destruct Hc as (_ & _ & _ & Hul). rewrite Hul.
  split; [|by cbn; rewrite Hcount]. cbn [set_sign_count set_fs fs]. by rewrite lookup_delete_eq.
Qed.

(** C16: From a fresh user to a verified signature: after a key is created and a
    file of at least one byte and at most 32 KiB uploaded in any number of chunks that
    are not empty, on a card that fails nothing, the signature the device returns is
    over the SHA-256 of exactly the bytes uploaded, in order, and verifies with
    the public key that was returned at creation; the upload is gone and the
    signature is counted.  (An empty upload is signed as the byte 0.) *)
Theorem fw_signs_upload (io1 io2 io3 : Io) (u n : list byte) (cs : list Chunk) (d : Device)
    (k : pk_context) (pem pub h sig b64 : list byte)
    (Hcalm : calm io1 /\ calm io2 /\ calm io3 /\ Forall good_chunk cs) (Hu : safe_user u) (Hn : safe_file n)
    (Hnew : fs d !! key_path u = None) (Hlim : fst (user_sign_rate_limited io3 u d) = false)
    (Hkey : pk_setup = true /\ ecp_gen_key (io_seed io1) = Some k /\ pk_write_key_pem k = Some pem /\ pk_write_pubkey_pem k = Some pub)
    (Hdata : concat (map c_bytes cs) <> [] /\ len (concat (map c_bytes cs)) <= MAX_UPLOAD_BYTES)
    (Hsign : md_sha256 (concat (map c_bytes cs)) = Some h /\ pk_sign (io_seed io3) k h = Some sig /\ mbedtls_base64_encode sig = Some b64) :
  let (r1, d1) := handle_command io1 (create_root u) d in
  let (r2, d2) := handle_command io2 (start_root n) d1 in
  let (r3, d3) := handle_command io3 (sign_root u n) (upload n cs d2) in
  status r1 = 200 /\ ("publicKeyPem"%string, VStr pub) ∈ body r1 /\ status r2 = 200 /\
  status r3 = 200 /\ ("hashHex"%string, VStr (Utils.hex_encode h)) ∈ body r3 /\ ("signatureBase64"%string, VStr b64) ∈ body r3 /\
  pk_verify pub h sig = true /\
  fs d3 !! tmp_path n = None /\ s_sign_count d3 = u32 (s_sign_count d + 1).
Proof.
  destruct Hcalm as (C1 & C2 & C3 & C4), Hkey as (K1 & K2 & K3 & K4), Hdata as [D1 D2], Hsign as (S1 & S2 & S3).
  destruct (create_ok io1 u d k pem pub) as (d1 & -> & [F1 _ _ F2 _ F3]); try done. rewrite start_ok by done.
  set (d2 := set_fs d1 _). destruct (upload_all n cs d2) as (f & -> & U1 & U2); [done..| | |].
  { cbn [d2 set_fs fs]. rewrite contents_insert, bool_decide_eq_true_2, len_nil by done. lia. }
  { cbn [d2 set_fs fs]. rewrite lookup_insert_eq. by eexists. }
  assert (E : contents (fs d2) (tmp_path n) = []) by (cbn [d2 set_fs fs]; by rewrite contents_insert, bool_decide_eq_true_2).
  rewrite E in U1. cbn [app] in U1. cbn in F2, F3.
  destruct (sign_ok io3 u n (set_fs d2 f) k pem (concat (map c_bytes cs)) h sig b64) as (d3 & -> & Q1 & Q2); try done.
  { assert (El : forall x, s_user_sign_limits x = s_user_sign_limits d -> fst (user_sign_rate_limited io3 u x) = fst (user_sign_rate_limited io3 u d))
      by (intros x Hx; unfold user_sign_rate_limited; rewrite Hx; by destruct (bump_user _ _ _) as [[]|]).
    rewrite (El (set_fs d2 f) F2). exact Hlim. }
  { cbn [set_fs fs]. rewrite U2 by apply paths_apart. cbn [d2 set_fs fs]. rewrite lookup_insert_ne by (by apply not_eq_sym, paths_apart).
    rewrite F1 by apply key_not_audit. cbn [set_fs fs]. by rewrite lookup_insert_eq. }
  split_and!; try done.
  - cbn [body make_success app]. do 2 right. by left.
  - cbn [body make_success app]. do 3 right. by left.
  - cbn [body make_success app]. do 5 right. by left.
  - by eapply sign_verifies.
  - rewrite Q2. cbn. by rewrite F3.
Qed.

(** ** The audit log *)

(** The hash the chain ends with, when each line carries the hash of the text of the one
    before it, without the hash that line carries itself. *)
Fixpoint chain_from (prev : list byte) (lines : list (list byte * list byte)) : option (list byte) :=
  match lines with
  | [] => Some prev
  | (raw, p) :: lines => if bool_decide (p = prev) then chain_from (sha256_hex raw) lines else None
  end.

Lemma chain_from_app prev l1 l2 :
  chain_from prev (l1 ++ l2) = match chain_from prev l1 with Some p => chain_from p l2 | None => None end.
Proof.
  revert prev. induction l1 as [|[raw p] l1 IH]; intros prev; [done|]. cbn [app chain_from]. by destruct (bool_decide _).
Qed.

(** 64 characters without white space. *)
Definition word64 (h : list byte) : Prop := length h = 64%nat /\ Forall (fun c => is_space c = false) h.

Lemma zero_word : word64 zero_hash_text.
Proof. split; [done|]. apply list.Forall_replicate. done. Qed.

Lemma hex_word l : Forall (fun c => is_space c = false) (Utils.hex_encode l).
Proof.
  assert (H : forall b, (negb (is_space (Utils.hex_char (Z.shiftr (u8 b) 4))) && negb (is_space (Utils.hex_char (Z.land (u8 b) 15)))) = true)
    by (apply forall_bytes; vm_compute; reflexivity).
  induction l as [|b l IH]; [constructor|]. cbn [Utils.hex_encode]. specialize (H b).
  apply andb_true_iff in H as [H1%negb_true_iff H2%negb_true_iff]. by repeat constructor.
Qed.

Lemma sha_word s : word64 (sha256_hex s).
Proof.
  unfold sha256_hex. destruct (md_total s) as (h & -> & Hl). split; [|apply hex_word].
  cbn [default]. unfold id. rewrite hex_encode_length, Hl. done.
Qed.

Lemma span_digits_app ds s : digits ds -> match s with c :: _ => is_digit c = false | [] => True end ->
  span_digits (ds ++ s) = (ds, s).
Proof.
  intros Hd Hs. induction Hd as [|c ds Hc _ IH]; cbn [app span_digits].
  - destruct s as [|c s]; [done|]. cbn [span_digits]. by rewrite Hs.
  - by rewrite Hc, IH.
Qed.

Lemma span_word_app h s : Forall (fun c => is_space c = false) h -> match s with c :: _ => is_space c = true | [] => True end ->
  forall n, (length h <= n)%nat -> span_word n (h ++ s) = h.
Proof.
  intros Hh Hs. induction Hh as [|c h Hc _ IH]; intros n Hn; cbn [app].
  - destruct n, s; cbn [span_word]; try done. by rewrite Hs.
  - destruct n as [|n]; [cbn in Hn; lia|]. cbn [span_word]. rewrite Hc, IH; [done|]. cbn in Hn. lia.
Qed.

(** The counters come back from the state file. *)
Lemma scan_state_written n h : 0 <= n < 2 ^ 32 -> word64 h -> scan_state (audit_state n h) = Some (n, h).
Proof.
  intros Hn [Hl Hw]. unfold audit_state, to_string.
  destruct (dec_spec 20 n [] ltac:(cbn; lia) ltac:(lia)) as (ds & E & _ & Hd & _ & Hv). rewrite E, app_nil_r.
  specialize (Hv []). rewrite app_nil_r in Hv. cbn [strtoull_loop] in Hv.
  destruct ds as [|c ds]; [cbn in Hv; subst n; vm_compute in E; discriminate E|].
  pose proof (proj1 (proj1 (list.Forall_cons _ _ _) Hd)) as Hc. unfold is_digit in Hc.
  assert (Hc' : is_space c = false /\ (u8 c =? 45) = false /\ (u8 c =? 43) = false) by (unfold is_space; lia).
  destruct Hc' as (H1 & H2 & H3). unfold scan_state. cbn [app skip_spaces]. rewrite H1, H2, H3. cbn [orb].
  change (c :: ds ++ LF :: h ++ [LF]) with ((c :: ds) ++ LF :: h ++ [LF]). rewrite span_digits_app by done. rewrite Hv.
  destruct h as [|x h]; [done|]. cbn [skip_spaces]. change (is_space LF) with true. cbn [app skip_spaces].
  rewrite (proj1 (proj1 (list.Forall_cons _ _ _) Hw)).
  change (x :: h ++ [LF]) with ((x :: h) ++ [LF]). rewrite span_word_app by (try done; lia). f_equal. f_equal. lia.
Qed.

Definition line_text (l : list byte * list byte) : list byte := audit_record (fst l) (snd l).

(** A line begins with its number. *)
Definition numbered (i : nat) (l : list byte * list byte) : Prop := exists rest, fst l = to_string (Z.of_nat i) ++ COMMA :: rest.

(** The log on the card is [lines], numbered from 0; the counter in memory is the
    number of the next line, and the state file holds the counter and the last hash. *)
Record audited (d : Device) (lines : list (list byte * list byte)) : Prop := {
  l_file : contents (fs d) AUDIT_FILE = concat (map line_text lines);
  l_numbers : forall i l, lines !! i = Some l -> numbered i l;
  l_start : lines = [] -> s_audit_prev_hash d = zero_hash_text;
  l_seq : s_audit_seq d = len lines;
  l_state : fs d !! AUDIT_STATE_FILE =
    match lines with [] => None | _ => Some (audit_state (s_audit_seq d) (s_audit_prev_hash d)) end;
  l_word : word64 (s_audit_prev_hash d)
}.

Definition same_audit (d d' : Device) : Prop :=
  fs d' !! AUDIT_FILE = fs d !! AUDIT_FILE /\ fs d' !! AUDIT_STATE_FILE = fs d !! AUDIT_STATE_FILE /\
  s_audit_seq d' = s_audit_seq d /\ s_audit_prev_hash d' = s_audit_prev_hash d.

Lemma same_audited d d' lines : same_audit d d' -> audited d lines -> audited d' lines.
Proof.
  intros (E1 & E2 & E3 & E4) [H1 H2 Hz H3 H4 H5]. constructor; rewrite ?E3, ?E4, ?E2; try done. unfold contents in *. by rewrite E1.
Qed.

Lemma raw_numbered n ts event user detail :
  is_u32 n -> exists rest, audit_raw n ts event user detail = to_string n ++ COMMA :: rest.
Proof.
  intros Hn. unfold is_u32 in Hn. unfold audit_raw, to_string.
  destruct (dec_spec 20 n [] ltac:(cbn; lia) ltac:(lia)) as (ds & E & _ & _ & Hl & _). rewrite E, app_nil_r.
  rewrite take_app_ge by lia. destruct (511 - length ds)%nat as [|k] eqn:Ek; [lia|]. cbn [take]. by eexists.
Qed.

Lemma log_audited io event user detail d lines :
  AUDIT_ENABLED cfg = true -> calm io -> audited d lines -> len lines + 1 < 2 ^ 32 ->
  exists l, audited (audit_log io event user detail d) (lines ++ [l]).
Proof.
  intros He Hc [H1 H2 Hz H3 H4 H5] Hl. unfold audit_log. rewrite He. cbn [negb].
  destruct (raw_numbered (s_audit_seq d) (io_now io) (bytes_of event) (audit_sanitize (default (bytes_of "-") user))
    (audit_sanitize (default (bytes_of "-") detail))) as [rest Er]; [pose proof (len_nonneg lines); unfold is_u32; lia|].
  set (raw := audit_raw _ _ _ _ _). rewrite write_calm by done. rewrite write_calm by done.
  exists (raw, s_audit_prev_hash d). assert (Eseq : u32 (s_audit_seq d + 1) = len (lines ++ [(raw, s_audit_prev_hash d)])).
  { pose proof (len_nonneg lines). rewrite len_app, len_cons, len_nil, H3. apply u32_id. unfold is_u32. lia. }
  assert (Ne : AUDIT_FILE <> AUDIT_STATE_FILE) by (vm_compute; congruence).
  constructor; cbn [set_fs set_audit fs s_audit_seq s_audit_prev_hash app].
  - unfold contents at 1. rewrite lookup_insert_ne by done. rewrite lookup_insert_eq. cbn [default]. unfold id.
    rewrite H1, map_app, concat_app. cbn [map concat line_text fst snd]. by rewrite app_nil_r.
  - intros i l. rewrite lookup_app_Some. intros [Hi|[Hi Hl']]; [by apply H2|]. apply list_lookup_singleton_Some in Hl' as [Hi' <-].
    exists rest. cbn [fst]. fold raw in Er. rewrite Er, H3. unfold len. do 2 f_equal. lia.
  - by destruct lines.
  - exact Eseq.
  - rewrite lookup_insert_eq. by destruct lines.
  - apply sha_word.
Qed.

(** A change that leaves the log alone, or appends one line to it. *)
Definition logs (io : Io) (d d' : Device) : Prop :=
  same_audit d d' \/ exists event user detail d0, same_audit d d0 /\ d' = audit_log io event user detail d0.

Lemma logs_refl io d : logs io d d.
Proof. by left. Qed.

Lemma other_file d f : f !! AUDIT_FILE = fs d !! AUDIT_FILE -> f !! AUDIT_STATE_FILE = fs d !! AUDIT_STATE_FILE ->
  same_audit d (set_fs d f).
Proof. intros H1 H2. unfold same_audit. by split_and!. Qed.

Lemma insert_other d path c :
  ~ audit_path path -> same_audit d (set_fs d (<[path := c]> (fs d))).
Proof. intros Hp. unfold audit_path in Hp. apply other_file; rewrite lookup_insert_ne by (intros ->; tauto); done. Qed.

Lemma written_other io append path data d b f :
  ~ audit_path path -> write_file io append path data (fs d) = Some (b, f) -> same_audit d (set_fs d f).
Proof.
  intros Hp Hw. unfold audit_path in Hp. apply other_file; eapply write_file_frame; try exact Hw; intros <-; tauto.
Qed.

Lemma command_logs io root d : logs io d (snd (handle_command io root d)).
Proof.
  unfold handle_command. destruct (get_item root (bytes_of "cmd")) as [[cmd| |]|]; try apply logs_refl.
  repeat case_bool_decide; try apply logs_refl.
  - unfold handle_create_key. destruct (validate_string_component _ _) as [u|]; [|apply logs_refl].
    destruct (negb _ && _); [apply logs_refl|]. destruct (negb pk_setup); [apply logs_refl|].
    destruct (ecp_gen_key _) as [k|]; [|apply logs_refl].
    destruct (pk_write_key_pem k), (pk_write_pubkey_pem k); try apply logs_refl.
    destruct (write_file _ _ _ _ _) as [[[] f]|] eqn:Ew; [| |apply logs_refl].
    + right. eexists _, _, _, _. split; [|reflexivity]. by eapply written_other; [apply key_not_audit|].
    + left. by eapply written_other; [apply key_not_audit|].
  - unfold handle_upload_start. destruct (validate_string_component _ _) as [n|]; [|apply logs_refl].
    destruct (write_file _ _ _ _ _) as [[b f]|] eqn:Ew; [|apply logs_refl]. left. by eapply written_other; [apply tmp_not_audit|].
  - unfold handle_upload_chunk. destruct (validate_string_component _ _) as [n|]; [|apply logs_refl].
    destruct (get_item root (bytes_of "dataBase64")) as [[x| |]|]; try apply logs_refl.
    destruct (mbedtls_base64_decode x); [|apply logs_refl]. destruct (_ || _); [apply logs_refl|].
    destruct (write_file _ _ _ _ _) as [[[] f]|] eqn:Ew; [| |apply logs_refl]; left; by eapply written_other; [apply tmp_not_audit|].
  - unfold handle_upload_end. destruct (validate_string_component _ _); [|apply logs_refl].
    destruct (if io_stat_fails _ _ then _ else _); apply logs_refl.
  - unfold handle_sign. destruct (validate_string_component _ _) as [u|]; [|apply logs_refl].
    destruct (validate_string_component _ _) as [n|]; [|apply logs_refl].
    assert (Hd : same_audit d (snd (user_sign_rate_limited io u d)))
      by (unfold user_sign_rate_limited; by destruct (bump_user _ _ _) as [[]|]).
    destruct (user_sign_rate_limited io u d) as [b d1]. cbn [snd] in Hd.
    assert (Hx : same_audit d (unlink io (tmp_path n) d1)).
    { destruct Hd as (E1 & E2 & E3 & E4). pose proof (tmp_not_audit n) as Ht. unfold audit_path in Ht.
      unfold unlink. destruct (io_unlink_fails _ _); [by split_and!|].
      unfold same_audit. split_and!; cbn [set_fs fs s_audit_seq s_audit_prev_hash]; rewrite ?lookup_delete_ne; try done; tauto. }
    destruct b; [by left|]. destruct (load_key_for_user _ _ _); [|by left..]. destruct (read_sd_file _ _ _); [|by left].
    destruct (md_sha256 _); [|by left]. destruct (sign_hash _ _ _); [|by left].
    right. eexists _, _, _, _. split; [|reflexivity]. exact Hx.
Qed.

Lemma same_audit_trans d1 d2 d3 : same_audit d1 d2 -> same_audit d2 d3 -> same_audit d1 d3.
Proof. unfold same_audit. intros (-> & -> & -> & ->) H. exact H. Qed.

Lemma logs_after io d d1 d2 : same_audit d d1 -> logs io d1 d2 -> logs io d d2.
Proof.
  intros H1 [H2|(e & u & x & d0 & H2 & ->)]; [left; by eapply same_audit_trans|].
  right. eexists _, _, _, _. split; [|reflexivity]. by eapply same_audit_trans.
Qed.

Lemma handler_logs io q d : logs io d (snd (cmd_post_handler io q d)).
Proof.
  unfold cmd_post_handler.
  assert (Hw : exists b d1, match global_rate_limited io d with (true, d) => (true, d) | (false, d) => conn_rate_limited io (q_conn q) d end = (b, d1)
    /\ same_audit d d1).
  { unfold global_rate_limited, conn_rate_limited. destruct (rate_limited_window _ _ _ _) as [[] w]; [eexists _, _; split; [reflexivity|done]|].
    cbn [s_conns set_windows]. destruct (s_conns d !! q_conn q).
    - destruct (rate_limited_window _ _ _ _). eexists _, _. by split.
    - destruct (io_calloc_fails io); [eexists _, _; by split|]. destruct (rate_limited_window _ _ _ _). eexists _, _. by split. }
  destruct Hw as (b & d1 & -> & Hd). apply (logs_after io d d1 _ Hd).
  assert (Hlog : forall event user detail d2, same_audit d1 d2 -> logs io d1 (audit_log io event user detail d2))
    by (intros e u x d2 H; right; by eexists _, _, _, _).
  destruct b; [by apply Hlog|].
  assert (Hs : forall d2, same_audit d1 d2 -> logs io d1 (snd
    (if (q_content_len q <=? 0) || (HTTP_BODY_MAX_LEN <=? q_content_len q) then (respond (make_error "body_too_large_or_empty"), d2)
     else match q_body q with
          | None => (mkResponse None None, d2)
          | Some b => let (r, d) := handle_request io (c_str b) d2 in (respond r, d)
          end))).
  { intros d2 H2. destruct (_ || _); [by left|]. destruct (q_body q) as [b|]; [|by left].
    apply (logs_after io d1 d2 _ H2). unfold handle_request. destruct (cJSON_Parse _) as [root|]; [|apply logs_refl].
    pose proof (command_logs io root d2) as Hc. by destruct (handle_command io root d2). }
  destruct (negb auth_enabled); [by apply Hs|]. destruct (0 <? _); [by apply Hlog|].
  destruct (negb (check_auth _)); [destruct (0 <? _); by apply Hlog|]. by apply Hs.
Qed.

Lemma boot_logs io d lines :
  AUDIT_ENABLED cfg = true -> calm io -> audited d lines -> len lines < 2 ^ 32 -> logs io d (boot io (fs d)).
Proof.
  intros He [Ho _] [H1 H2 Hz H3 H4 H5] Hl. unfold boot, audit_init. rewrite He, Ho. cbn [negb].
  assert (Hk : forall path, in_dir TMP_DIR path = false -> clear_tmp_dir io (fs d) !! path = fs d !! path).
  { intros path Hp. unfold clear_tmp_dir. rewrite Ho. destruct (fs d !! path) as [c|] eqn:E.
    - apply map_lookup_filter_Some. split; [done|]. cbn [fst]. by rewrite Hp.
    - apply map_lookup_filter_None. by left. }
  cbn [fs]. rewrite (Hk AUDIT_STATE_FILE), H4 by reflexivity.
  right. destruct lines as [|l lines].
  - eexists _, _, _, _. split; [|reflexivity]. specialize (Hz eq_refl).
    unfold same_audit. cbn [set_audit fs s_audit_seq s_audit_prev_hash]. rewrite !Hk by reflexivity. by split_and!.
  - rewrite scan_state_written; [|pose proof (len_nonneg (l :: lines)); lia|done].
    eexists _, _, _, _. split; [|reflexivity]. unfold same_audit. cbn [set_audit fs s_audit_seq s_audit_prev_hash].
    rewrite !Hk by reflexivity. by split_and!.
Qed.

(** Life of the device: it boots and serves requests. *)
Inductive Life : Type := Boot (io : Io) | Post (io : Io) (q : Request).

Definition io_of (l : Life) : Io := match l with Boot io => io | Post io _ => io end.

Definition live_step (d : Device) (l : Life) : Device :=
  match l with Boot io => boot io (fs d) | Post io q => snd (cmd_post_handler io q d) end.

Lemma step_audited d l lines :
  AUDIT_ENABLED cfg = true -> calm (io_of l) -> audited d lines -> len lines + 1 < 2 ^ 32 ->
  exists more, audited (live_step d l) (lines ++ more) /\ len more <= 1.
Proof.
  intros He Hc Ha Hl.
  assert (Hg : logs (io_of l) d (live_step d l)).
  { destruct l; cbn; [eapply boot_logs; [done..|lia]|apply handler_logs]. }
  destruct Hg as [H|(e & u & x & d0 & H & ->)].
  - exists []. rewrite app_nil_r. split; [by eapply same_audited|]. unfold len. cbn. lia.
  - destruct (log_audited (io_of l) e u x d0 lines) as [y Hy]; [done..|by eapply same_audited|lia|].
    exists [y]. split; [done|]. unfold len. cbn. lia.
Qed.


(** The hash of a line does not cover the hash it carries: any line can be
    replaced, if the hash in the one after it is replaced too, and the chain
    still holds to its unchanged end. *)
Lemma forged_line_verifies prev l1 raw raw' p raw2 p2 l2 last :
  chain_from prev (l1 ++ (raw, p) :: (raw2, p2) :: l2) = Some last ->
  chain_from prev (l1 ++ (raw', p) :: (raw2, sha256_hex raw') :: l2) = Some last.
Proof.
  rewrite !chain_from_app. destruct (chain_from prev l1) as [x|]; [|done]. cbn [chain_from].
  destruct (bool_decide (p = x)); [|done]. rewrite (bool_decide_eq_true_2 (sha256_hex raw' = _)) by done.
  by destruct (bool_decide (p2 = _)).
Qed.

(** ** The lockout and the throttles *)

Definition fail_all (ts : list Z) (a : AuthFail) : AuthFail := fold_left (fun a t => record_auth_failure t a) ts a.

Definition next_cooldown (a : AuthFail) : Z :=
  let c := u32 ((if cooldown_s a =? 0 then AUTH_LOCK_BASE_S cfg else cooldown_s a) * 2) in
  if AUTH_LOCK_MAX_S cfg <? c then AUTH_LOCK_MAX_S cfg else c.

Lemma next_cooldown_bounds a :
  0 < AUTH_LOCK_BASE_S cfg <= AUTH_LOCK_MAX_S cfg -> 0 <= cooldown_s a <= AUTH_LOCK_MAX_S cfg -> 2 * AUTH_LOCK_MAX_S cfg < 2 ^ 32 ->
  (if cooldown_s a =? 0 then AUTH_LOCK_BASE_S cfg <= next_cooldown a <= AUTH_LOCK_MAX_S cfg
   else next_cooldown a = Z.min (2 * cooldown_s a) (AUTH_LOCK_MAX_S cfg)) /\ 0 < next_cooldown a.
Proof.
  intros H1 H2 H3. unfold next_cooldown. destruct (Z.eqb_spec (cooldown_s a) 0); rewrite u32_id by (unfold is_u32; lia);
    match goal with |- context [?x <? ?y] => destruct (Z.ltb_spec x y) end; lia.
Qed.

(** A time that falls in the window of the failures counted so far. *)
Definition in_window (a : AuthFail) (t : Z) : Prop := u32 (t - window_start_s a) < AUTH_FAIL_WINDOW_S cfg.

(** C31: Guessing the token is bounded: the configured number of failures inside
    one tracking window locks the device, and one failure less does not.  A first lock
    lasts between the configured base and the ceiling, each later one twice as long as the
    one before, up to the ceiling; from the last failure to the end of the lock every
    request sees the seconds that remain, and none from then on.  (For options and
    times of the clock whose sums stay below 2^32.) *)
Theorem fw_lockout_after_failures (ts : list Z) (a : AuthFail) (last : Z) (Hl : 0 <= last)
    (Hf : 0 <= failures a < AUTH_FAIL_MAX cfg) (Hm : AUTH_FAIL_MAX cfg < 2 ^ 32)
    (Hopt : 0 < AUTH_LOCK_BASE_S cfg <= AUTH_LOCK_MAX_S cfg) (Hcool : 0 <= cooldown_s a <= AUTH_LOCK_MAX_S cfg)
    (Hsum : 2 * AUTH_LOCK_MAX_S cfg < 2 ^ 32 /\ last + AUTH_LOCK_MAX_S cfg < 2 ^ 32)
    (Hw : Forall (in_window a) (ts ++ [last])) (Hn : failures a + len ts + 1 <= AUTH_FAIL_MAX cfg) :
  let a' := fail_all (ts ++ [last]) a in
  if failures a + len ts + 1 =? AUTH_FAIL_MAX cfg then
    (if cooldown_s a =? 0 then AUTH_LOCK_BASE_S cfg <= cooldown_s a' <= AUTH_LOCK_MAX_S cfg
     else cooldown_s a' = Z.min (2 * cooldown_s a) (AUTH_LOCK_MAX_S cfg)) /\
    failures a' = 0 /\
    (forall now, last <= now -> auth_lock_remaining_s now a' = Z.max 0 (last + cooldown_s a' - now))
  else a' = mkAuthFail (window_start_s a) (failures a + len ts + 1) (cooldown_s a) (lock_until_s a).
Proof.
  assert (Hstep : forall t b, window_start_s b = window_start_s a -> cooldown_s b = cooldown_s a -> in_window a t ->
    0 <= failures b < AUTH_FAIL_MAX cfg ->
    record_auth_failure t b = if failures b + 1 =? AUTH_FAIL_MAX cfg
      then mkAuthFail t 0 (next_cooldown a) (u32 (t + next_cooldown a))
      else mkAuthFail (window_start_s a) (failures b + 1) (cooldown_s a) (lock_until_s b)).
  { intros t b Eb Ec Ht Hb. unfold record_auth_failure, in_window, next_cooldown in *. rewrite Eb.
    destruct (Z.leb_spec (AUTH_FAIL_WINDOW_S cfg) (u32 (t - window_start_s a))); [lia|].
    rewrite (u32_id (failures b + 1)) by (unfold is_u32; lia). rewrite Ec.
    destruct (Z.leb_spec (AUTH_FAIL_MAX cfg) (failures b + 1)), (Z.eqb_spec (failures b + 1) (AUTH_FAIL_MAX cfg)); try lia; [done|].
    by rewrite Eb. }
  assert (Hts : Forall (in_window a) ts -> failures a + len ts < AUTH_FAIL_MAX cfg ->
    fail_all ts a = mkAuthFail (window_start_s a) (failures a + len ts) (cooldown_s a) (lock_until_s a)).
  { clear Hw Hn. induction ts as [|t ts IH] using rev_ind; intros Hin Hlt.
    - rewrite len_nil, Z.add_0_r. by destruct a.
    - rewrite len_app, len_cons, len_nil in Hlt |- *. pose proof (len_nonneg ts). apply List.Forall_app in Hin as [Hi1 Hi2].
      apply list.Forall_cons in Hi2 as [Hi2 _]. unfold fail_all in *. rewrite fold_left_app, IH by (try done; lia). cbn [fold_left].
      rewrite Hstep by (try done; cbn; lia). cbn [failures lock_until_s].
      destruct (Z.eqb_spec (failures a + len ts + 1) (AUTH_FAIL_MAX cfg)); [lia|]. f_equal. lia. }
  apply List.Forall_app in Hw as [Hw1 Hw2]. apply list.Forall_cons in Hw2 as [Hw2 _]. pose proof (len_nonneg ts).
  unfold fail_all in *. rewrite fold_left_app, Hts by (try done; lia). cbn [fold_left].
  rewrite Hstep by (try done; cbn; lia). cbn [failures lock_until_s].
  destruct (Z.eqb_spec (failures a + len ts + 1) (AUTH_FAIL_MAX cfg)) as [E|E]; [|done].
  cbn [cooldown_s]. destruct (next_cooldown_bounds a Hopt Hcool (proj1 Hsum)) as [Hc1 Hc2]. split_and!; [done|done|].
  intros now Hnow. unfold auth_lock_remaining_s. cbn [lock_until_s].
  assert (0 < next_cooldown a <= AUTH_LOCK_MAX_S cfg) as Hc by (destruct (Z.eqb_spec (cooldown_s a) 0); lia).
  rewrite u32_id by (unfold is_u32; lia).
  destruct (Z.eqb_spec (last + next_cooldown a) 0), (Z.ltb_spec now (last + next_cooldown a)); cbn [negb andb]; lia.
Qed.

(** How many of the requests at the times [ts] the window lets through. *)
Fixpoint admitted (w : Window) (max window_s : Z) (ts : list Z) : Z :=
  match ts with
  | [] => 0
  | t :: ts => let (limited, w) := rate_limited_window w max window_s t in
               (if limited then 0 else 1) + admitted w max window_s ts
  end.

(** The times of the clock in order, from [from] to before [until]. *)
Fixpoint ordered (from until : Z) (ts : list Z) : Prop :=
  match ts with [] => True | t :: ts => from <= t < until /\ ordered t until ts end.

(** A window that began at or after [a] admits no more than it has left before
    [a + window_s]: it does not begin again. *)
Lemma admitted_same_window ts w max window_s a from :
  0 <= w_count w <= max -> max < 2 ^ 32 -> 0 <= a <= w_start w -> w_start w <= from -> a + window_s < 2 ^ 32 ->
  ordered from (a + window_s) ts -> admitted w max window_s ts <= max - w_count w.
Proof.
  revert w from. induction ts as [|t ts IH]; intros w from Hc Hm Ha Hf Hu Ho; cbn [admitted]; [lia|].
  destruct Ho as [Ht Ho]. unfold rate_limited_window. rewrite (u32_id (t - _)) by (unfold is_u32; lia).
  destruct (Z.leb_spec window_s (t - w_start w)); [lia|]. destruct (Z.leb_spec max (w_count w)).
  - specialize (IH w t Hc Hm Ha ltac:(lia) Hu Ho). lia.
  - rewrite u32_id by (unfold is_u32; lia).
    specialize (IH (mkWindow (w_start w) (w_count w + 1)) t). cbn in IH. specialize (IH ltac:(lia) Hm Ha ltac:(lia) Hu Ho). lia.
Qed.

(** The throttles keep their promise up to a factor of two: in any stretch of
    time no longer than the window, a throttle lets through at most twice its
    maximum, and at most the maximum when its window began in that stretch. *)
Theorem fw_throttle_bound (ts : list Z) (w : Window) (max window_s a from : Z)
    (Hc : 0 <= w_count w <= max /\ max < 2 ^ 32) (Hw : 0 < window_s) (Hs : 0 <= w_start w <= from /\ 0 <= a <= from)
    (Hu : a + window_s < 2 ^ 32) (Ho : ordered from (a + window_s) ts) :
  admitted w max window_s ts <= 2 * max - w_count w /\ (a <= w_start w -> admitted w max window_s ts <= max - w_count w).
Proof.
  split; [|intros; eapply admitted_same_window; try exact Ho; lia].
  revert w from Hc Hs Ho. induction ts as [|t ts IH]; intros w from Hc Hs Ho; cbn [admitted]; [lia|].
  destruct Ho as [Ht Ho]. unfold rate_limited_window. rewrite (u32_id (t - _)) by (unfold is_u32; lia).
  destruct (Z.leb_spec window_s (t - w_start w)); cbn [w_count w_start].
  - destruct (Z.leb_spec max 0).
    + pose proof (admitted_same_window ts (mkWindow t 0) max window_s a t) as P. cbn in P.
      specialize (P ltac:(lia) ltac:(lia) ltac:(lia) ltac:(lia) Hu Ho). lia.
    + rewrite u32_id by (unfold is_u32; lia).
      pose proof (admitted_same_window ts (mkWindow t (0 + 1)) max window_s a t) as P. cbn [w_start w_count] in P.
      specialize (P ltac:(lia) ltac:(lia) ltac:(lia) ltac:(lia) Hu Ho). lia.
  - destruct (Z.leb_spec max (w_count w)).
    + specialize (IH w t ltac:(lia) ltac:(lia) Ho). lia.
    + rewrite u32_id by (unfold is_u32; lia). specialize (IH (mkWindow (w_start w) (w_count w + 1)) t). cbn [w_start w_count] in IH.
      specialize (IH ltac:(lia) ltac:(lia) Ho). lia.
Qed.

(** ** The health report *)

Lemma strstr_app s t needle : strstr (s ++ needle ++ t) needle = true.
Proof.
  induction s as [|c s IH]; cbn [app strstr].
  - destruct (needle ++ t) eqn:E; cbn [strstr]; rewrite <- ?E; [by destruct needle|]. by rewrite take_app_length, bool_decide_eq_true_2.
  - rewrite IH. apply orb_true_r.
Qed.

Lemma key_path_counts u : safe_user u -> key_entry (key_path u) = true.
Proof.
  intros Hu. apply safe_no_slash in Hu as (Hs & _ & _). unfold key_entry, key_path.
  assert (E : drop (S (length KEYS_DIR)) (KEYS_DIR ++ bytes_of "/" ++ u ++ bytes_of ".pem") = u ++ bytes_of ".pem").
  { rewrite app_assoc. by apply drop_app_length'. }
  rewrite E. rewrite bool_decide_eq_true_2 by (rewrite app_assoc; by apply take_app_length'). cbn [andb].
  rewrite bool_decide_eq_false_2; [rewrite <- (app_nil_r (bytes_of ".pem")); apply strstr_app|].
  intros [H|H]%elem_of_app; [done|]. vm_compute in H. apply list_elem_of_In in H. cbn in H. intuition congruence.
Qed.

Lemma audit_not_counted path : audit_path path -> key_entry path = false.
Proof. by intros [->| ->]. Qed.

(** Devices whose keys are the same files report the same number. *)
Lemma count_keys_ext f g : (forall path, key_entry path = true -> f !! path = g !! path) -> count_keys f = count_keys g.
Proof.
  intros H. unfold count_keys. do 2 f_equal. apply map_eq. intros path. apply option_eq. intros c.
  rewrite !map_lookup_filter_Some. cbn. split; intros [H1 H2]; (split; [|done]); [rewrite <- H|rewrite H]; done.
Qed.

Lemma count_keys_insert f path c :
  key_entry path = true -> f !! path = None -> count_keys (<[path := c]> f) = count_keys f + 1.
Proof.
  intros Hk Hn. unfold count_keys. rewrite map_filter_insert_True by done. rewrite map_size_insert_None; [lia|].
  apply map_lookup_filter_None. by left.
Qed.

(** The report counts the keys: creating one for a new user adds one to the
    number, and for a user who has a key, without [overwrite], nothing. *)
Theorem health_counts_keys (io : Io) (u : list byte) (d : Device) (k : pk_context) (pem pub : list byte)
    (Hc : calm io) (Hu : safe_user u)
    (Hkey : pk_setup = true /\ ecp_gen_key (io_seed io) = Some k /\ pk_write_key_pem k = Some pem /\ pk_write_pubkey_pem k = Some pub) :
  count_keys (fs (snd (handle_command io (create_root u) d))) =
  count_keys (fs d) + (if bool_decide (is_Some (fs d !! key_path u)) then 0 else 1).
Proof.
  destruct Hkey as (K1 & K2 & K3 & K4). destruct (fs d !! key_path u) as [old|] eqn:E.
  - change (handle_command io (create_root u) d) with (handle_create_key io (create_root u) d).
    unfold handle_create_key. change (get_item (create_root u) (bytes_of "userId")) with (Some (JString u)).
    change (get_item (create_root u) (bytes_of "overwrite")) with (@None Item).
    pose proof Hc as (_ & _ & Hst & _).
    rewrite valid_user, E, (bool_decide_eq_true_2 (is_Some (Some old))), Hst by done. cbn [negb andb snd]. lia.
  - destruct (create_ok io u d k pem pub) as (d1 & -> & [F1 _ _ _ _ _]); try done. cbn [snd].
    rewrite bool_decide_eq_false_2 by (by intros [? ?]). rewrite <- (count_keys_insert _ (key_path u) pem) by (try done; by apply key_path_counts).
    apply count_keys_ext. intros path Hp. rewrite F1; [done|]. intros Ha. by rewrite audit_not_counted in Hp.
Qed.

(** Every status the device answers with has a status line of its own number. *)
Lemma error_status_line code : take 3 (bytes_of (status_line (error_http_status code))) = to_string (error_http_status code).
Proof.
  unfold error_http_status. destruct (List.find _ _) as [[c s]|] eqn:E; [|done].
  apply List.find_some in E as [Hin _]. cbn in Hin. repeat (destruct Hin as [Hin|Hin]; [simplify_eq; by vm_compute|]). done.
Qed.

End Firmware.

(** ** A toy device *)

Module FwToy.

#[export] Instance toy_mbed : Mbed := {|
  pk_context := list byte;
  md_sha256 := fun s => Some (take 32 (s ++ replicate 32 x00));
  pk_setup := true;
  ecp_gen_key := fun seed => Some (take 16 seed);
  pk_write_key_pem := fun k => if 100 <? len k then None else Some (x50 :: k);
  pk_write_pubkey_pem := fun k => Some (x51 :: k);
  pk_parse_key := fun s => Some (take (length s - 2) (tail s));
  pk_sign := fun _ k h => Some (h ++ k);
  pk_is_rsa := fun _ => false;
  pk_is_ec := fun _ => true;
  mbedtls_base64_encode := Some;
  mbedtls_base64_decode := Some;
  pk_verify := fun pub h sig => bool_decide (sig = h ++ tail pub)
|}.

#[export] Instance toy_laws : MbedLaws toy_mbed.
Proof.
  split.
  - intros s. eexists. split; [reflexivity|]. rewrite length_take, length_app, length_replicate. lia.
  - intros k pem H. cbn in H. destruct (Z.ltb_spec 100 (len k)); [done|]. simplify_eq. split_and!; [|done|rewrite len_cons; lia].
    cbn. f_equal. rewrite length_app. cbn. replace (length k + 1 - 1)%nat with (length k) by lia. by rewrite take_app_length.
  - intros seed k h sig pub H1 H2. cbn in *. simplify_eq. by apply bool_decide_eq_true_2.
Qed.

(** A document of this toy is a [sign] command with no names. *)
#[export] Instance toy_json : CJson := fun _ => Some [cmd_is "sign"].

Definition cfg : Config := default_config (bytes_of "secret").
Definition io (t : Z) : Io := mkIo t (fun _ => false) (fun _ => false) (fun _ => false) (fun _ => false) (fun _ => None) (replicate 32 x07) false.
Definition blank : Device := mkDevice ∅ 0 zero_hash_text (mkWindow 0 0) ∅ [] (mkAuthFail 0 0 0 0) 0.
Definition bearer (token : string) : option (list byte) := Some (bytes_of "Bearer " ++ bytes_of token).
Definition post (token : string) : Request := mkRequest 3 (bearer token) 10 (Some (bytes_of "{}")).
Definition alice : list byte := bytes_of "alice".
Definition doc : list byte := bytes_of "doc.txt".
Definition chunks : list Chunk := [mkChunk (io 5) (bytes_of "hello ") (bytes_of "hello "); mkChunk (io 6) (bytes_of "world") (bytes_of "world")].

Lemma io_calm t : calm (io t).
Proof. by split_and!. Qed.

End FwToy.
Import FwToy.

Lemma fw_requires_token_witness :
  let (r, d') := cmd_post_handler FwToy.cfg (FwToy.io 1) (FwToy.post "guess") FwToy.blank in
  (exists e, r_result r = Some e /\ (status e = 429 \/ status e = 401 \/ status e = 503)) /\
  (forall path, ~ audit_path path -> fs d' !! path = fs FwToy.blank !! path) /\
  s_sign_count d' = s_sign_count FwToy.blank /\ s_user_sign_limits d' = s_user_sign_limits FwToy.blank.
Proof. apply (fw_requires_token FwToy.cfg (FwToy.io 1) (FwToy.post "guess") FwToy.blank); [reflexivity|left; vm_compute; congruence]. Defined.

Lemma fw_signs_upload_witness :
  let k := replicate 16 x07 in let h := take 32 (bytes_of "hello world" ++ replicate 32 x00) in
  let (r1, d1) := handle_command FwToy.cfg (FwToy.io 1) (create_root FwToy.alice) FwToy.blank in
  let (r2, d2) := handle_command FwToy.cfg (FwToy.io 2) (start_root FwToy.doc) d1 in
  let (r3, d3) := handle_command FwToy.cfg (FwToy.io 9) (sign_root FwToy.alice FwToy.doc) (upload FwToy.cfg FwToy.doc FwToy.chunks d2) in
  status r1 = 200 /\ ("publicKeyPem"%string, VStr (x51 :: k)) ∈ body r1 /\ status r2 = 200 /\
  status r3 = 200 /\ ("hashHex"%string, VStr (Utils.hex_encode h)) ∈ body r3 /\ ("signatureBase64"%string, VStr (h ++ k)) ∈ body r3 /\
  pk_verify (x51 :: k) h (h ++ k) = true /\
  fs d3 !! tmp_path FwToy.doc = None /\ s_sign_count d3 = u32 (s_sign_count FwToy.blank + 1).
Proof.
  intros k h.
  apply (fw_signs_upload FwToy.cfg (M := toy_mbed) (FwToy.io 1) (FwToy.io 2) (FwToy.io 9) FwToy.alice FwToy.doc FwToy.chunks FwToy.blank k (x50 :: k)).
  - split_and!; try apply FwToy.io_calm. repeat (constructor; [split; [apply FwToy.io_calm|by vm_compute]|]). constructor.
  - reflexivity.
  - reflexivity.
  - reflexivity.
  - reflexivity.
  - split_and!; reflexivity.
  - split; [by vm_compute|vm_compute; congruence].
  - split_and!; reflexivity.
Defined.


Lemma fw_lockout_after_failures_witness :
  let a' := fail_all FwToy.cfg ([1; 2; 3; 4] ++ [5]) (mkAuthFail 0 0 0 0) in
  30 <= cooldown_s a' <= 900 /\ failures a' = 0 /\ (forall now, 5 <= now -> auth_lock_remaining_s now a' = Z.max 0 (5 + cooldown_s a' - now)).
Proof.
  apply (fw_lockout_after_failures FwToy.cfg [1; 2; 3; 4] (mkAuthFail 0 0 0 0) 5).
  - lia.
  - cbn. lia.
  - cbn. lia.
  - cbn. lia.
  - cbn. lia.
  - cbn. lia.
  - repeat constructor.
  - vm_compute. congruence.
Defined.

Lemma fw_throttle_bound_witness :
  admitted (mkWindow 0 2) 2 60 [59; 60; 61; 62; 118] <= 2 * 2 - 2 /\
  (59 <= w_start (mkWindow 0 2) -> admitted (mkWindow 0 2) 2 60 [59; 60; 61; 62; 118] <= 2 - 2).
Proof. apply (fw_throttle_bound [59; 60; 61; 62; 118] (mkWindow 0 2) 2 60 59 59); cbn; lia. Defined.

(** When [stat] fails on an upload that is full, it grows; when [access] fails on a key,
    the key is replaced by a request that did not ask for it. *)
Lemma failed_stat_lifts_bounds :
  let io := mkIo 1 (fun _ => false) (fun _ => true) (fun _ => false) (fun _ => false) (fun _ => None) (replicate 32 x07) false in
  let full := replicate (Z.to_nat MAX_UPLOAD_BYTES) x41 in
  let d := set_fs FwToy.blank (<[key_path FwToy.alice := [x50; x08]]> (<[tmp_path FwToy.doc := full]> ∅)) in
  len (contents (fs (snd (handle_command FwToy.cfg io (chunk_root FwToy.doc (bytes_of "more")) d))) (tmp_path FwToy.doc)) = MAX_UPLOAD_BYTES + 4 /\
  status (fst (handle_command FwToy.cfg io (create_root FwToy.alice) d)) = 200.
Proof. by vm_compute. Qed.

(** The device signs an upload of no bytes as if it were the one byte 0. *)
Lemma empty_upload_signed_as_nul :
  let d := set_fs FwToy.blank (<[key_path FwToy.alice := [x50; x07]]> (<[tmp_path FwToy.doc := []]> ∅)) in
  ("hashHex"%string, VStr (Utils.hex_encode (default [] (md_sha256 [x00])))) ∈ body (fst (handle_command FwToy.cfg (FwToy.io 1) (sign_root FwToy.alice FwToy.doc) d)).
Proof. cbn zeta. apply list_elem_of_lookup. exists 3%nat. vm_compute. reflexivity. Qed.

(** The ids of 32 other users, which the caller chooses, make the device forget
    the count of the signatures of this one. *)
Lemma eviction_resets_the_limit :
  let limits := mkLimit FwToy.alice (mkWindow 0 10) :: map (fun i => mkLimit (to_string (Z.of_nat i)) (mkWindow 0 1)) (seq 0 31) in
  let d := set_limits FwToy.blank limits in
  fst (user_sign_rate_limited FwToy.cfg (FwToy.io 1) FwToy.alice d) = true /\
  let d1 := snd (user_sign_rate_limited FwToy.cfg (FwToy.io 1) (bytes_of "mallory") d) in
  fst (user_sign_rate_limited FwToy.cfg (FwToy.io 1) FwToy.alice d1) = false.
Proof. by vm_compute. Qed.

(** A correct token clears the failures but not the cooldown: the next lock is
    twice as long as the one before it, and the first is twice the base. *)
Lemma cooldown_survives_success :
  let fails t := [t; t; t; t; t] in
  let a1 := fail_all FwToy.cfg (fails 1) (mkAuthFail 0 0 0 0) in
  let a2 := fail_all FwToy.cfg (fails 1000) (record_auth_success 500 a1) in
  cooldown_s a1 = 2 * AUTH_LOCK_BASE_S FwToy.cfg /\ cooldown_s a2 = 4 * AUTH_LOCK_BASE_S FwToy.cfg.
Proof. by vm_compute. Qed.
