(* ===== verification/FirmwareBoot.v ===== *)
(** * The start of the signing device

    [app_main] of [src/firmware/main/hsm.cpp] and what it calls before the first
    request: the flash store, the card and its directories, the random generator,
    the radio and the HTTP server.

    [Board] is what the hardware and the ESP-IDF functions answer; [ESP_ERROR_CHECK]
    on a failure restarts the device ([Aborted]); a wait without a time limit whose
    event does not come is [Waiting]; a [return] from [app_main] leaves a device that
    serves nothing ([Halted]).  Each run gives besides its end the list of the steps
    that were taken. *)

From S2P Require Import Prelude Firmware.

Inductive Nvs : Type := NvsOk | NoFreePages | NewVersionFound | NvsFail.

(** The events the radio and the network deliver, as far as the handler tells them
    apart. *)
Inductive WifiEvent : Type := StaDisconnected | GotIp | OtherEvent.

#[global] Instance wifi_event_dec : EqDecision WifiEvent.
Proof. solve_decision. Defined.

Record Board : Type := mkBoard {
  nvs_flash_init : Nvs * Nvs;      (** the first answer, and the one after an erasure *)
  nvs_flash_erase : bool;
  spi_bus_initialize : bool;
  esp_vfs_fat_sdspi_mount : bool;
  mkdir_done : list byte -> bool;  (** made, or there already *)
  ctr_drbg_seed : bool;
  esp_fails : string -> bool;      (** the calls under [ESP_ERROR_CHECK] *)
  wifi_events : list WifiEvent;
  httpd_start : bool
}.

Inductive BootStep : Type :=
| FlashErased | BusUp | BusFreed | Mounted | DirMade (d : list byte) | Prepared | Seeded
| Connecting | Online | Listening (uri : string).

#[global] Instance boot_step_dec : EqDecision BootStep.
Proof. solve_decision. Defined.

Inductive BootEnd : Type := Halted (reason : string) | Aborted | Waiting | Serving (d : Device).

Definition mount_sd_card (b : Board) : bool * list BootStep :=
  if negb (spi_bus_initialize b) then (false, [])
  else if negb (esp_vfs_fat_sdspi_mount b) then (false, [BusUp; BusFreed])
  else (true, [BusUp; Mounted]).

(** A directory that cannot be made is a line in the log. *)
Definition ensure_dir_exists (b : Board) (d : list byte) : list BootStep := if mkdir_done b d then [DirMade d] else [].

(** The flash store, erased once when its pages are full or of another version. *)
Definition flash_ready (b : Board) : bool * list BootStep :=
  match fst (nvs_flash_init b) with
  | NvsOk => (true, [])
  | NvsFail => (false, [])
  | NoFreePages | NewVersionFound =>
    if negb (nvs_flash_erase b) then (false, [])
    else (match snd (nvs_flash_init b) with NvsOk => true | _ => false end, [FlashErased])
  end.

(** Whether the bit is set by this event, and whether the handler connects again. *)
Definition wifi_event_handler (e : WifiEvent) : bool * bool :=
  match e with
  | StaDisconnected => (false, true)
  | GotIp => (true, false)
  | OtherEvent => (false, false)
  end.

(** [xEventGroupWaitBits] without a limit, while the handler runs. *)
Fixpoint wait_connected (es : list WifiEvent) : bool * list BootStep :=
  match es with
  | [] => (false, [])
  | e :: es =>
    let '(up, again) := wifi_event_handler e in
    let steps := if again then [Connecting] else [] in
    if up then (true, steps ++ [Online])
    else let '(r, more) := wait_connected es in (r, steps ++ more)
  end.

Definition checked_calls : list string :=
  ["esp_netif_init"; "esp_event_loop_create_default"; "esp_wifi_init"; "register WIFI_EVENT"; "register IP_EVENT";
   "esp_wifi_set_mode"; "esp_wifi_set_config"; "esp_wifi_start"; "esp_wifi_connect"]%string.

(** [None]: the device restarts. *)
Definition wifi_init_sta (b : Board) : option (bool * list BootStep) :=
  if existsb (esp_fails b) checked_calls then None
  else let '(up, steps) := wait_connected (wifi_events b) in Some (up, Connecting :: steps).

Definition start_http_server (b : Board) : bool * list BootStep :=
  if httpd_start b then (true, [Listening "/cmd"; Listening "/health"]) else (false, []).

Section Boot.
Context (cfg : Config) `{M : Mbed}.

Definition serve_online (b : Board) (d : Device) (done : list BootStep) : BootEnd * list BootStep :=
  match wifi_init_sta b with
  | None => (Aborted, done)
  | Some (false, steps) => (Waiting, done ++ steps)
  | Some (true, steps) =>
    let '(up, urls) := start_http_server b in
    if up then (Serving d, done ++ steps ++ urls) else (Halted "HTTP server failed to start, halting.", done ++ steps)
  end.

Definition app_main (b : Board) (io : Io) (f : gmap (list byte) (list byte)) : BootEnd * list BootStep :=
  let '(flash, s1) := flash_ready b in
  if negb flash then (Aborted, s1)
  else
    let '(card, s2) := mount_sd_card b in
    if negb card then (Halted "SD card mount failed, halting.", s1 ++ s2)
    else
      let s3 := ensure_dir_exists b KEYS_DIR ++ ensure_dir_exists b TMP_DIR in
      let d := boot cfg io f in
      let s4 := s1 ++ s2 ++ s3 ++ [Prepared] in
      if negb (ctr_drbg_seed b) then (Halted "Failed to seed RNG, halting.", s4)
      else serve_online b d (s4 ++ [Seeded]).

(** ** Lemmas *)

Lemma wait_connected_up es : fst (wait_connected es) = true <-> GotIp ∈ es.
Proof.
  induction es as [|e es IH]; cbn; [by split; [|intros ?%elem_of_nil]|].
  rewrite elem_of_cons. destruct e; cbn; [| |]; destruct (wait_connected es) as [r more]; cbn in *.
  - rewrite IH. split; [by right|by intros [|]].
  - split; [by left|done].
  - rewrite IH. split; [by right|by intros [|]].
Qed.

(** Every disconnection before the address comes is answered with another attempt. *)
Lemma wait_connected_steps pre post :
  GotIp ∉ pre ->
  wait_connected (pre ++ GotIp :: post) =
  (true, replicate (length (filter (fun e => e = StaDisconnected) pre)) Connecting ++ [Online]).
Proof.
  induction pre as [|e pre IH]; intros Hp; [done|]. apply not_elem_of_cons in Hp as [He Hp].
  cbn [app wait_connected]. rewrite IH by done. by destruct e.
Qed.

(** The wait ends with the address: its last step. *)
Lemma wait_connected_online es steps : wait_connected es = (true, steps) -> exists pre, steps = pre ++ [Online].
Proof.
  revert steps. induction es as [|e es IH]; intros steps; cbn; [done|]. destruct e; cbn.
  - destruct (wait_connected es) as [r more]. intros [= -> <-]. destruct (IH more eq_refl) as [pre ->]. by exists (Connecting :: pre).
  - intros [= <-]. by exists [].
  - destruct (wait_connected es) as [r more]. intros [= -> <-]. by apply IH.
Qed.

Lemma checked_calls_pass b : existsb (esp_fails b) checked_calls = false <-> forall c, c ∈ checked_calls -> esp_fails b c = false.
Proof.
  rewrite <- not_true_iff_false, existsb_exists. split.
  - intros H c Hc. apply not_true_is_false. intros E. apply H. exists c. by rewrite <- list_elem_of_In.
  - intros H (c & Hc%list_elem_of_In & E). by rewrite H in E.
Qed.

Definition flash_usable (b : Board) : Prop :=
  fst (nvs_flash_init b) = NvsOk \/
  (fst (nvs_flash_init b) = NoFreePages \/ fst (nvs_flash_init b) = NewVersionFound) /\ nvs_flash_erase b = true /\ snd (nvs_flash_init b) = NvsOk.

Lemma flash_ready_spec b : fst (flash_ready b) = true <-> flash_usable b.
Proof.
  unfold flash_ready, flash_usable. destruct (nvs_flash_init b) as [[] []], (nvs_flash_erase b); cbn; intuition congruence.
Qed.

Lemma mount_spec b : fst (mount_sd_card b) = true <-> spi_bus_initialize b = true /\ esp_vfs_fat_sdspi_mount b = true.
Proof. unfold mount_sd_card. destruct (spi_bus_initialize b), (esp_vfs_fat_sdspi_mount b); cbn; intuition congruence. Qed.

Lemma mount_mounted b : fst (mount_sd_card b) = true -> Mounted ∈ snd (mount_sd_card b).
Proof. unfold mount_sd_card. destruct (spi_bus_initialize b), (esp_vfs_fat_sdspi_mount b); cbn; try done. intros _. by right; left. Qed.

(** A mount that fails gives the bus back. *)
Lemma mount_failure_frees_bus b : fst (mount_sd_card b) = false -> BusUp ∈ snd (mount_sd_card b) -> snd (mount_sd_card b) = [BusUp; BusFreed].
Proof.
  unfold mount_sd_card. destruct (spi_bus_initialize b), (esp_vfs_fat_sdspi_mount b); cbn; try done.
  all: by intros _ ?%elem_of_nil.
Qed.

(** What has happened when the device starts to listen. *)
Definition ready (s : list BootStep) : Prop :=
  exists before, s = before ++ [Online; Listening "/cmd"; Listening "/health"] /\
                 Mounted ∈ before /\ Prepared ∈ before /\ Seeded ∈ before.

Definition quiet (s : list BootStep) : Prop := forall u, Listening u ∉ s.

Lemma quiet_app s s' : quiet s -> quiet s' -> quiet (s ++ s').
Proof. intros H H' u. rewrite elem_of_app. by intros [?%H|?%H']. Qed.

Lemma wait_connected_quiet es : quiet (snd (wait_connected es)).
Proof.
  induction es as [|e es IH]; [by intros u ?%elem_of_nil|]. destruct e; cbn.
  all: try destruct (wait_connected es) as [r more]; cbn in *; try done.
  - intros u [[=]|?%IH]%elem_of_cons. done.
  - by intros u [[=]|?%elem_of_nil]%elem_of_cons.
Qed.

Lemma flash_quiet b : quiet (snd (flash_ready b)).
Proof.
  unfold flash_ready. destruct (nvs_flash_init b) as [[] n], (nvs_flash_erase b); cbn; intros u.
  all: rewrite ?list_elem_of_singleton; by try intros ?%elem_of_nil.
Qed.

Lemma mount_quiet b : quiet (snd (mount_sd_card b)).
Proof.
  unfold mount_sd_card. destruct (spi_bus_initialize b), (esp_vfs_fat_sdspi_mount b); cbn; intros u; rewrite ?elem_of_cons, elem_of_nil; intuition discriminate.
Qed.

Lemma ensure_dir_quiet b d : quiet (ensure_dir_exists b d).
Proof. unfold ensure_dir_exists. destruct (mkdir_done b d); intros u; rewrite ?elem_of_cons, elem_of_nil; intuition discriminate. Qed.

#[local] Hint Resolve quiet_app wait_connected_quiet flash_quiet mount_quiet ensure_dir_quiet : core.

Lemma serve_online_spec b d s :
  match serve_online b d s with
  | (Serving d', s') =>
      (forall c, c ∈ checked_calls -> esp_fails b c = false) /\ GotIp ∈ wifi_events b /\ httpd_start b = true /\ d' = d /\
      exists pre, s' = (s ++ pre) ++ [Online; Listening "/cmd"; Listening "/health"]
  | (_, s') => (quiet s -> quiet s') /\ ~ ((forall c, c ∈ checked_calls -> esp_fails b c = false) /\ GotIp ∈ wifi_events b /\ httpd_start b = true)
  end.
Proof.
  unfold serve_online, wifi_init_sta. destruct (existsb _ _) eqn:Ec.
  - split; [done|]. intros (Hc & _). apply (checked_calls_pass b) in Hc. by rewrite Hc in Ec.
  - destruct (wait_connected (wifi_events b)) as [up steps] eqn:Ew.
    pose proof (wait_connected_up (wifi_events b)) as Hu. pose proof (wait_connected_quiet (wifi_events b)) as Hq.
    rewrite Ew in Hu, Hq. cbn [fst snd] in Hu, Hq.
    assert (Hq' : quiet (Connecting :: steps)) by (intros u [[=]|Hs]%elem_of_cons; by apply Hq in Hs).
    destruct up; [|split; [auto|intros (_ & Hg & _); by apply Hu in Hg]].
    unfold start_http_server. destruct (httpd_start b) eqn:Eh; [|split; [auto|by intros (_ & _ & ?)]].
    pose proof (proj1 (checked_calls_pass b) Ec). split_and!; [done|by apply Hu|done|done|].
    destruct (wait_connected_online _ _ Ew) as [pre ->]. exists (Connecting :: pre).
    cbn [app]. by rewrite <- !app_assoc.
Qed.

(** the device serves requests exactly when everything they rely on is there:
    the flash store opens (after one erasure at most), the card is mounted, the
    random generator is seeded, every checked call of the radio succeeded, an
    address was obtained and the server started; and what it serves with is the state
    that [boot] prepared, temporary files cleared and the audit chain continued.  It
    listens after all of that and never in a run that ends otherwise. *)
Theorem serves_only_when_ready (b : Board) (io : Io) (f : gmap (list byte) (list byte)) :
  (forall d, fst (app_main b io f) = Serving d <->
     d = boot cfg io f /\ flash_usable b /\ spi_bus_initialize b = true /\ esp_vfs_fat_sdspi_mount b = true /\
     ctr_drbg_seed b = true /\ (forall c, c ∈ checked_calls -> esp_fails b c = false) /\ GotIp ∈ wifi_events b /\
     httpd_start b = true) /\
  (forall u, Listening u ∈ snd (app_main b io f) -> ready (snd (app_main b io f))).
Proof.
  unfold app_main. pose proof (flash_ready_spec b) as Hf. pose proof (flash_quiet b) as Q1. pose proof (mount_quiet b) as Q2.
  pose proof (mount_spec b) as Hm. pose proof (mount_mounted b) as Hmm.
  destruct (flash_ready b) as [[] s1]; cbn [negb fst snd] in *; [|split; [intros d; intuition discriminate|intros u Hu; by apply Q1 in Hu]].
  destruct (mount_sd_card b) as [[] s2]; cbn [negb fst snd] in *;
    [|split; [intros d; intuition discriminate|intros u Hu; exfalso; revert u Hu; apply quiet_app; auto]].
  set (s4 := s1 ++ s2 ++ (ensure_dir_exists b KEYS_DIR ++ ensure_dir_exists b TMP_DIR) ++ [Prepared]).
  assert (Q4 : quiet s4) by (subst s4; repeat apply quiet_app; auto; by intros u [=]%list_elem_of_singleton).
  destruct (ctr_drbg_seed b); cbn [negb]; [|split; [intros d; intuition discriminate|intros u Hu; exfalso; by apply Q4 in Hu]].
  assert (Q5 : quiet (s4 ++ [Seeded])) by (apply quiet_app; [done|by intros u [=]%list_elem_of_singleton]).
  pose proof (serve_online_spec b (boot cfg io f) (s4 ++ [Seeded])) as Hs.
  destruct (serve_online _ _ _) as [[r| | |d'] s']; cbn [fst snd] in *.
  1-3: destruct Hs as [Hq Hn]; split; [intros d; intuition discriminate|intros u Hu; exfalso; by apply (Hq Q5) in Hu].
  destruct Hs as (H1 & H2 & H3 & -> & pre & ->). split.
  - intros d. split; [intros [= <-]; intuition|by intros [-> _]].
  - intros _ _. exists ((s4 ++ [Seeded]) ++ pre). subst s4. split_and!; [done| | |].
    all: rewrite !elem_of_app, !list_elem_of_singleton; tauto.
Qed.
End Boot.

Import FwToy.

(** A board on which all goes well, and one whose radio never gets an address. *)
Definition good_board : Board :=
  mkBoard (NoFreePages, NvsOk) true true true (fun _ => true) true (fun _ => false) [OtherEvent; StaDisconnected; GotIp] true.
Definition no_network : Board :=
  mkBoard (NvsOk, NvsOk) true true true (fun _ => true) true (fun _ => false) [StaDisconnected; StaDisconnected] true.

Lemma good_board_serves : fst (app_main FwToy.cfg good_board (FwToy.io 1) ∅) = Serving (boot FwToy.cfg (FwToy.io 1) ∅).
Proof. reflexivity. Qed.

(** Without a network the device neither serves nor halts: it waits. *)
Lemma no_network_waits : fst (app_main FwToy.cfg no_network (FwToy.io 1) ∅) = Waiting.
Proof. reflexivity. Qed.

(** A card on which the directories cannot be made is served from all the same. *)
Lemma missing_directories_served :
  let b := mkBoard (NvsOk, NvsOk) true true true (fun _ => false) true (fun _ => false) [GotIp] true in
  fst (app_main FwToy.cfg b (FwToy.io 1) ∅) = Serving (boot FwToy.cfg (FwToy.io 1) ∅) /\
  DirMade KEYS_DIR ∉ snd (app_main FwToy.cfg b (FwToy.io 1) ∅).
Proof. split; [reflexivity|]. cbn. rewrite !elem_of_cons, elem_of_nil. intuition discriminate. Qed.
