(* ===== verification/Double.v ===== *)
(** * Numbers of the JSON library

    What cJSON ([src/firmware/managed_components/espressif__cjson/cJSON/cJSON.c])
    does with numbers, and what it uses of the C library for it: a [double] is an IEEE
    binary64 number ([spec_float] of the Standard Library at precision 53), [strtod]
    reads the longest decimal number at the beginning of a text and rounds it to the
    nearest, and [sprintf] writes ["%d"], ["%1.15g"] and ["%1.17g"].  The text that
    [strtod] gets holds digits, signs, points and exponent letters only, so that its
    other forms (hexadecimal, infinities, white space) do not occur. *)

From Stdlib Require Import Floats.SpecFloat.
From S2P Require Import Prelude AuditLog KeyPolicy.

Definition double : Type := spec_float.

Definition zero : double := S754_zero false.
Definition not_a_number : double := S754_nan.

(** [(double)z]. *)
Definition double_of_Z (z : Z) : double := binary_normalize 53 1024 z 0 false.

Definition INT_MAX : Z := 2 ^ 31 - 1.
Definition INT_MIN : Z := - 2 ^ 31.

(** [(int)d] where the value fits: towards zero. *)
Definition truncate (d : double) : Z :=
  match d with
  | S754_finite s m e =>
    let v := if 0 <=? e then Zpos m * 2 ^ e else Zpos m / 2 ^ (- e) in if s then - v else v
  | _ => 0
  end.

(** "use saturation in case of overflow". *)
Definition saturate (d : double) : Z :=
  if SFleb (double_of_Z INT_MAX) d then INT_MAX
  else if SFleb d (double_of_Z INT_MIN) then INT_MIN
  else truncate d.

(** ** [strtod] *)

Fixpoint span_digits (s : list byte) : list byte * list byte :=
  match s with
  | c :: r => if is_digit c then let (ds, rest) := span_digits r in (c :: ds, rest) else ([], s)
  | [] => ([], [])
  end.

Definition sign_of (s : list byte) : bool * list byte :=
  match s with
  | c :: r => if u8 c =? 45 then (true, r) else if u8 c =? 43 then (false, r) else (false, s)
  | [] => (false, [])
  end.

(** The fraction after a point. *)
Definition fraction (s : list byte) : list byte * list byte :=
  match s with c :: r => if u8 c =? 46 then span_digits r else ([], s) | [] => ([], []) end.

(** The exponent, when at least one digit follows it. *)
Definition exponent (s : list byte) : Z * list byte :=
  match s with
  | c :: r =>
    if (u8 c =? 101) || (u8 c =? 69) then
      let (neg, r) := sign_of r in
      match span_digits r with
      | ([], _) => (0, s)
      | (ds, rest) => (if neg then - strtoull_loop ds 0 else strtoull_loop ds 0, rest)
      end
    else (0, s)
  | [] => (0, [])
  end.

(** [m * 10^e], rounded to the nearest number, [m < 10^n].  Beyond 400 decimal places on
    either side the number is infinite or zero. *)
Definition decimal (neg : bool) (m e n : Z) : double :=
  if m =? 0 then S754_zero neg
  else if 400 <? e then S754_infinity neg
  else if n + e <? -400 then S754_zero neg
  else
    let d := if 0 <=? e then binary_normalize 53 1024 (m * 10 ^ e) 0 false
             else match m, 10 ^ (- e) with
                  | Zpos p, Zpos q => SFdiv 53 1024 (S754_finite false p 0) (S754_finite false q 0)
                  | _, _ => zero
                  end in
    if neg then SFopp d else d.

(** The number and how many bytes it took, 0 when there is none. *)
Definition strtod (s : list byte) : double * nat :=
  let (neg, r) := sign_of s in
  let (whole, r) := span_digits r in
  let (frac, r') := fraction r in
  if bool_decide (whole = []) && bool_decide (frac = []) then (zero, 0%nat)
  else
    let (e, rest) := exponent r' in
    (decimal neg (strtoull_loop (whole ++ frac) 0) (e - len frac) (len (whole ++ frac)), (length s - length rest)%nat).

(** ** [sprintf] *)

(** [10^x <= n/d], compared as integers. *)
Definition pow10_le (x n d : Z) : bool := 10 ^ Z.max 0 x * d <=? n * 10 ^ Z.max 0 (- x).

(** The decimal exponent of [n/d], by its binary one. *)
Definition exponent10 (n d : Z) : Z :=
  let x := (Z.log2 n - Z.log2 d) * 30103 / 100000 in
  if pow10_le (x + 2) n d then x + 2 else if pow10_le (x + 1) n d then x + 1
  else if pow10_le x n d then x else if pow10_le (x - 1) n d then x - 1 else x - 2.

(** [n/d] to the nearest integer, ties to even. *)
Definition round_div (n d : Z) : Z :=
  let q := n / d in
  match Z.compare (2 * (n mod d)) d with
  | Lt => q
  | Gt => q + 1
  | Eq => if Z.even q then q else q + 1
  end.

Fixpoint strip_zeros (rev_digits : list byte) : list byte :=
  match rev_digits with
  | c :: r => if u8 c =? 48 then strip_zeros r else rev_digits
  | [] => []
  end.

Definition trim_zeros (digits : list byte) : list byte := rev (strip_zeros (rev digits)).

Definition with_point (whole frac : list byte) : list byte :=
  if bool_decide (trim_zeros frac = []) then whole else whole ++ to_u8 46 :: trim_zeros frac.

(** [%g] with [p] digits [q], the exponent is [x]. *)
Definition layout (p x q : Z) : list byte :=
  let ds := to_string q in
  if (-4 <=? x) && (x <? p) then
    if 0 <=? x then with_point (take (Z.to_nat (x + 1)) ds) (drop (Z.to_nat (x + 1)) ds)
    else with_point [to_u8 48] (replicate (Z.to_nat (- x - 1)) (to_u8 48) ++ ds)
  else
    let e := to_string (Z.abs x) in
    with_point (take 1 ds) (drop 1 ds)
    ++ [to_u8 101; to_u8 (if x <? 0 then 45 else 43)] ++ (if Z.abs x <? 10 then to_u8 48 :: e else e).

(** ["%1.{p}g"] of [n/d > 0]. *)
Definition format_g (p : Z) (n d : Z) : list byte :=
  let x := exponent10 n d in
  let s := p - 1 - x in
  let q := round_div (n * 10 ^ Z.max 0 s) (d * 10 ^ Z.max 0 (- s)) in
  if 10 ^ p <=? q then layout p (x + 1) (q / 10) else layout p x q.

Definition sprintf_g (p : Z) (d : double) : list byte :=
  match d with
  | S754_finite s m e =>
    (if s then [to_u8 45] else []) ++ format_g p (Zpos m * 2 ^ Z.max 0 e) (2 ^ Z.max 0 (- e))
  | S754_zero s => (if s then [to_u8 45] else []) ++ [to_u8 48]
  | S754_infinity s => (if s then [to_u8 45] else []) ++ bytes_of "inf"
  | S754_nan => bytes_of "nan"
  end.

Definition DBL_EPSILON : double := S754_finite false 4503599627370496 (-104).

Definition compare_double (a b : double) : bool :=
  let maxVal := if SFltb (SFabs b) (SFabs a) then SFabs a else SFabs b in
  SFleb (SFabs (SFsub 53 1024 a b)) (SFmul 53 1024 maxVal DBL_EPSILON).

Definition finite (d : double) : bool := match d with S754_nan | S754_infinity _ => false | _ => true end.

(** The text [print_number] writes for [valuedouble] and [valueint]. *)
Definition number_text (d : double) (valueint : Z) : list byte :=
  if negb (finite d) then bytes_of "null"
  else if SFeqb d (double_of_Z valueint) then int_to_string valueint
  else
    let t := sprintf_g 15 d in
    let (test, n) := strtod t in
    if (Nat.eqb n 0) || negb (compare_double test d) then sprintf_g 17 d else t.

(** ** Integers are exact *)

Lemma digits2_xO_iter n p : Zpos (digits2_pos (Pos.iter xO p n)) = Zpos (digits2_pos p) + Zpos n.
Proof.
  revert p. induction n as [|n IH] using Pos.peano_ind; intros p; [cbn; lia|].
  rewrite Pos.iter_succ. cbn [digits2_pos]. rewrite Pos2Z.inj_succ, IH. lia.
Qed.

Lemma iter_xO_value n p : Zpos (Pos.iter xO p n) = Zpos p * 2 ^ Zpos n.
Proof.
  revert p. induction n as [|n IH] using Pos.peano_ind; intros p; [cbn; lia|].
  rewrite Pos.iter_succ, Pos2Z.inj_succ, Z.pow_succ_r by lia. rewrite (Pos2Z.inj_xO (Pos.iter _ _ _)), IH. lia.
Qed.

Lemma digits2_bounds p : 2 ^ (Zpos (digits2_pos p) - 1) <= Zpos p < 2 ^ Zpos (digits2_pos p).
Proof.
  induction p as [p IH|p IH|]; cbn [digits2_pos]; [| |cbn; lia].
  all: rewrite Pos2Z.inj_succ; replace (Z.succ (Zpos (digits2_pos p)) - 1) with (Z.succ (Zpos (digits2_pos p) - 1)) by lia.
  all: rewrite !Z.pow_succ_r by lia; rewrite ?(Pos2Z.inj_xI p), ?(Pos2Z.inj_xO p); lia.
Qed.

(** A mantissa of 53 digits is not rounded. *)
Lemma round_exact s m e :
  Zpos (digits2_pos m) = 53 -> -1074 <= e <= 971 -> binary_round_aux 53 1024 s (Zpos m) e loc_Exact = S754_finite s m e.
Proof.
  intros Hd He. unfold binary_round_aux, shr_fexp. cbn [Zdigits2 shr_record_of_loc].
  assert (Hf : fexp 53 1024 (Zpos (digits2_pos m) + e) - e = 0) by (unfold fexp, emin; lia).
  rewrite Hf. cbn [shr shr_m loc_of_shr_record round_nearest_even Zdigits2]. rewrite Hf. cbn [shr shr_m].
  by rewrite (proj2 (Z.leb_le e (1024 - 53))) by lia.
Qed.

Lemma round_small s p :
  Zpos (digits2_pos p) <= 53 ->
  exists m, binary_round 53 1024 s p 0 = S754_finite s m (Zpos (digits2_pos p) - 53) /\
            Zpos m = Zpos p * 2 ^ (53 - Zpos (digits2_pos p)) /\ Zpos (digits2_pos m) = 53.
Proof.
  intros Hd. unfold binary_round, shl_align. set (d := Zpos (digits2_pos p)) in *.
  assert (Hf : fexp 53 1024 (d + 0) - 0 = d - 53) by (unfold fexp, emin; lia).
  rewrite Hf. assert (Hf' : fexp 53 1024 (d + 0) = d - 53) by lia. rewrite Hf'.
  destruct (d - 53) as [|q|q] eqn:E; [|lia|].
  - exists p. rewrite round_exact by lia. split_and!; [by f_equal|replace (53 - d) with 0 by lia; lia|lia].
  - exists (Pos.iter xO p q). rewrite round_exact by (rewrite ?digits2_xO_iter; lia). split_and!; [done| |rewrite digits2_xO_iter; lia].
    rewrite iter_xO_value. do 2 f_equal. lia.
Qed.

Definition exact_int (z : Z) : Prop := Z.abs z < 2 ^ 53.

Lemma small_digits p : Zpos p < 2 ^ 53 -> Zpos (digits2_pos p) <= 53.
Proof.
  intros H. pose proof (digits2_bounds p) as [Hb _]. destruct (Z.le_gt_cases (Zpos (digits2_pos p)) 53); [done|].
  pose proof (Z.pow_le_mono_r 2 53 (Zpos (digits2_pos p) - 1) ltac:(lia) ltac:(lia)). lia.
Qed.

Lemma truncate_int z : exact_int z -> truncate (double_of_Z z) = z.
Proof.
  unfold exact_int, double_of_Z. intros Hz. destruct z as [|p|p]; [done| |]; cbn [binary_normalize].
  all: match goal with |- context [binary_round _ _ ?s _ _] => destruct (round_small s p) as (m' & -> & Hm' & _); [apply small_digits; lia|] end.
  all: pose proof (small_digits p ltac:(lia)) as Hd; set (d := Zpos (digits2_pos p)) in *; cbn [truncate].
  all: assert (Hv : (if 0 <=? d - 53 then Zpos m' * 2 ^ (d - 53) else Zpos m' / 2 ^ (- (d - 53))) = Zpos p);
    [|rewrite Hv; lia].
  all: rewrite Hm'; destruct (Z.leb_spec 0 (d - 53)).
  all: try (replace (d - 53) with 0 by lia; replace (53 - d) with 0 by lia; lia).
  all: replace (- (d - 53)) with (53 - d) by lia; apply Z.div_mul, Z.pow_nonzero; lia.
Qed.

Lemma digits2_lt p q : Zpos (digits2_pos p) < Zpos (digits2_pos q) -> Zpos p < Zpos q.
Proof.
  intros H. pose proof (digits2_bounds p). pose proof (digits2_bounds q).
  pose proof (Z.pow_le_mono_r 2 (Zpos (digits2_pos p)) (Zpos (digits2_pos q) - 1) ltac:(lia) ltac:(lia)). lia.
Qed.

Lemma compare_rounded p q m n :
  Zpos (digits2_pos p) <= 53 -> Zpos (digits2_pos q) <= 53 ->
  Zpos m = Zpos p * 2 ^ (53 - Zpos (digits2_pos p)) -> Zpos n = Zpos q * 2 ^ (53 - Zpos (digits2_pos q)) ->
  match Z.compare (Zpos (digits2_pos p) - 53) (Zpos (digits2_pos q) - 53) with
  | Lt => Lt | Gt => Gt | Eq => Pos.compare_cont Eq m n end = Z.compare (Zpos p) (Zpos q).
Proof.
  intros Hp Hq Hm Hn. destruct (Z.compare_spec (Zpos (digits2_pos p) - 53) (Zpos (digits2_pos q) - 53)) as [E|E|E].
  - assert (Ed : Zpos (digits2_pos q) = Zpos (digits2_pos p)) by lia. rewrite Ed in Hn. change (Pos.compare_cont Eq m n) with (Z.compare (Zpos m) (Zpos n)).
    rewrite Hm, Hn. symmetry. apply Zmult_compare_compat_r. pose proof (Z.pow_pos_nonneg 2 (53 - Zpos (digits2_pos p))). lia.
  - symmetry. apply Z.compare_lt_iff, digits2_lt. lia.
  - symmetry. apply Z.compare_gt_iff, digits2_lt. lia.
Qed.

Lemma compare_int a b : exact_int a -> exact_int b -> SFcompare (double_of_Z a) (double_of_Z b) = Some (Z.compare a b).
Proof.
  unfold exact_int, double_of_Z. intros Ha Hb.
  destruct a as [|p|p], b as [|q|q]; cbn [binary_normalize]; try done.
  all: try (destruct (round_small false p) as (m & -> & Hm & _); [apply small_digits; lia|]).
  all: try (destruct (round_small true p) as (m & -> & Hm & _); [apply small_digits; lia|]).
  all: try (destruct (round_small false q) as (n & -> & Hn & _); [apply small_digits; lia|]).
  all: try (destruct (round_small true q) as (n & -> & Hn & _); [apply small_digits; lia|]).
  all: cbn [SFcompare]; try done.
  all: pose proof (compare_rounded p q m n (small_digits p ltac:(lia)) (small_digits q ltac:(lia)) Hm Hn) as E.
  - by rewrite E.
  - change (Zneg p ?= Zneg q) with (CompOpp (Zpos p ?= Zpos q)). rewrite <- E. by destruct (_ ?= _).
Qed.

Lemma saturate_int z : INT_MIN <= z <= INT_MAX -> saturate (double_of_Z z) = z.
Proof.
  unfold INT_MIN, INT_MAX. intros Hz. unfold saturate, SFleb, INT_MIN, INT_MAX.
  rewrite !compare_int by (unfold exact_int; lia).
  destruct (Z.compare_spec (2 ^ 31 - 1) z); [lia|lia|]. destruct (Z.compare_spec z (- 2 ^ 31)); [lia|lia|].
  apply truncate_int. unfold exact_int. lia.
Qed.

Lemma eqb_int z : exact_int z -> SFeqb (double_of_Z z) (double_of_Z z) = true.
Proof. intros Hz. unfold SFeqb. rewrite compare_int by done. by rewrite Z.compare_refl. Qed.

Lemma finite_int z : exact_int z -> finite (double_of_Z z) = true.
Proof.
  unfold exact_int, double_of_Z. intros Hz. destruct z as [|p|p]; [done| |]; cbn [binary_normalize].
  all: match goal with |- context [binary_round _ _ ?s _ _] => destruct (round_small s p) as (m & -> & _); [apply small_digits; lia|] end; done.
Qed.

Lemma opp_int z : 0 <= z -> z <> 0 -> exact_int z -> SFopp (double_of_Z z) = double_of_Z (- z).
Proof.
  unfold exact_int, double_of_Z. intros H0 H1 Hz. destruct z as [|p|p]; [lia| |lia]. change (- Zpos p) with (Zneg p). cbn [binary_normalize].
  destruct (round_small false p) as (m & -> & Hm & _); [apply small_digits; lia|].
  destruct (round_small true p) as (n & -> & Hn & _); [apply small_digits; lia|]. cbn [SFopp negb]. f_equal. lia.
Qed.

(** ** The text of an integer reads back *)

(** What may follow a number in a text: none of the bytes [parse_number] takes. *)
Definition number_char (c : byte) : bool :=
  is_digit c || (u8 c =? 43) || (u8 c =? 45) || (u8 c =? 101) || (u8 c =? 69) || (u8 c =? 46).

Lemma span_digits_all ds : digits ds -> span_digits ds = (ds, []).
Proof. induction 1 as [|c ds Hc _ IH]; [done|]. cbn [span_digits]. by rewrite Hc, IH. Qed.

Lemma digits_number ds : digits ds -> forallb number_char ds = true.
Proof. induction 1 as [|c ds Hc _ IH]; [done|]. cbn [forallb]. unfold number_char at 1. by rewrite Hc. Qed.

Lemma strtod_digits ds :
  digits ds -> ds <> [] -> strtod ds = (decimal false (strtoull_loop ds 0) 0 (len ds), length ds).
Proof.
  intros Hd Hne. unfold strtod. destruct ds as [|c ds]; [done|]. inversion Hd as [|? ? Hc _]; subst.
  cbn [sign_of]. assert (Hu : (u8 c =? 45) = false /\ (u8 c =? 43) = false) by (unfold is_digit in Hc; lia).
  destruct Hu as [-> ->]. rewrite span_digits_all by done. cbn [fraction exponent]. rewrite bool_decide_eq_false_2 by done. cbn [andb].
  rewrite app_nil_r. by rewrite Nat.sub_0_r.
Qed.

Lemma strtod_minus ds :
  digits ds -> ds <> [] -> strtod (to_u8 45 :: ds) = (decimal true (strtoull_loop ds 0) 0 (len ds), S (length ds)).
Proof.
  intros Hd Hne. unfold strtod. cbn [sign_of]. rewrite (u8_to_u8 45). change (45 mod 256 =? 45) with true. cbn iota.
  rewrite span_digits_all by done. cbn [fraction exponent]. rewrite bool_decide_eq_false_2 by done. cbn [andb].
  rewrite app_nil_r. by rewrite Nat.sub_0_r.
Qed.

Lemma decimal_int neg z n : 0 <= z -> exact_int z -> 0 <= n -> (neg = true -> z <> 0) ->
  decimal neg z 0 n = double_of_Z (if neg then - z else z).
Proof.
  intros H0 Hz Hn Hs. unfold decimal. destruct (Z.eqb_spec z 0) as [->|Hne]; [by destruct neg; [destruct Hs|]|].
  cbn [Z.ltb Z.compare]. rewrite (proj2 (Z.ltb_ge (n + 0) (-400))) by lia. change (0 <=? 0) with true. cbn iota.
  change (10 ^ 0) with 1. rewrite Z.mul_1_r. fold (double_of_Z z). destruct neg; [|done]. by apply opp_int.
Qed.

(** ["%d"] of an [int] consists of digits after an optional minus sign, and [strtod]
    reads all of it as the same number. *)
Lemma int_text z :
  INT_MIN <= z <= INT_MAX ->
  strtod (int_to_string z) = (double_of_Z z, length (int_to_string z)) /\ forallb number_char (int_to_string z) = true /\
  int_to_string z <> [] /\ (length (int_to_string z) <= 21)%nat /\
  exists c r, int_to_string z = c :: r /\ (u8 c = 45 \/ is_digit c = true).
Proof.
  unfold INT_MIN, INT_MAX. intros Hz. unfold int_to_string.
  assert (Hd : forall y, 0 <= y <= 2 ^ 31 -> exists ds, to_string y = ds /\ digits ds /\ ds <> [] /\ (length ds <= 20)%nat /\ strtoull_loop ds 0 = y).
  { intros y Hy. destruct (dec_spec 20 y [] ltac:(cbn; lia) ltac:(lia)) as (ds & E & _ & Hds & Hl & Hv). exists ds.
    unfold to_string. rewrite E, app_nil_r. split_and!; try done.
    - intros ->. by apply (dec_some 19 y []).
    - specialize (Hv []). rewrite app_nil_r in Hv. rewrite Hv. done. }
  destruct (Z.ltb_spec z 0) as [Hn|Hn].
  - destruct (Hd (- z) ltac:(lia)) as (ds & -> & Hds & Hne & Hl & Hv). change (bytes_of "-") with [to_u8 45]. cbn [app].
    rewrite strtod_minus, Hv, decimal_int by (unfold exact_int, len; try done; lia). rewrite Z.opp_involutive.
    split_and!; [done|by cbn [forallb]; rewrite digits_number|done|cbn; lia|]. exists (to_u8 45), ds. split; [done|left; by vm_compute].
  - destruct (Hd z ltac:(lia)) as (ds & -> & Hds & Hne & Hl & Hv).
    rewrite strtod_digits, Hv, decimal_int by (unfold exact_int, len; try done; lia).
    split_and!; [done|by apply digits_number|done|lia|]. destruct ds as [|c r]; [done|]. exists c, r. split; [done|right]. by inversion Hds.
Qed.

(** ** The text of a number fits its temporary *)

(** The range of the type. *)
Definition binary64 (d : double) : Prop :=
  match d with S754_finite _ m e => Zpos m < 2 ^ 53 /\ -1074 <= e <= 971 | _ => True end.

Lemma binary64_int z : exact_int z -> binary64 (double_of_Z z).
Proof.
  unfold exact_int, double_of_Z. intros Hz. destruct z as [|p|p]; [done| |]; cbn [binary_normalize].
  all: match goal with |- context [binary_round _ _ ?s _ _] => destruct (round_small s p) as (m & -> & _ & Hd); [apply small_digits; lia|] end.
  all: pose proof (digits2_bounds m) as Hb; pose proof (small_digits p ltac:(lia)); rewrite Hd in Hb; cbn [binary64]; lia.
Qed.

Lemma dec_length fuel k z acc : 0 <= z < 10 ^ Z.of_nat (S k) -> (length (dec fuel z acc) <= S k + length acc)%nat.
Proof.
  revert k z acc. induction fuel as [|fuel IH]; intros k z acc Hz; cbn [dec]; [lia|].
  destruct (Z.eqb_spec (z / 10) 0); [cbn; lia|]. destruct k as [|k].
  - exfalso. change (10 ^ Z.of_nat 1) with 10 in Hz. rewrite Z.div_small in *; lia.
  - rewrite Nat2Z.inj_succ, Z.pow_succ_r in Hz by lia. specialize (IH k (z / 10) (digit (z mod 10) :: acc)).
    cbn [length] in IH. enough (0 <= z / 10 < 10 ^ Z.of_nat (S k)) by (specialize (IH ltac:(done)); lia).
    split; [apply Z.div_pos; lia|apply Z.div_lt_upper_bound; lia].
Qed.

(** The estimate of the decimal exponent is not too small, over the range of the type. *)
Definition estimate (l : Z) : Z := l * 30103 / 100000.

Lemma two_below_ten k : 0 <= k -> 2 ^ k <= 10 ^ (28 * (k / 93) + (k mod 93) * 302 / 1000 + 1).
Proof.
  intros Hk. pose proof (Z.mod_pos_bound k 93 ltac:(lia)) as Hm. rewrite (Z.div_mod k 93) at 1 by lia.
  assert (Ht : 2 ^ (k mod 93) <= 10 ^ ((k mod 93) * 302 / 1000 + 1)).
  { assert (H : forallb (fun i => 2 ^ Z.of_nat i <=? 10 ^ (Z.of_nat i * 302 / 1000 + 1)) (seq 0 93) = true) by (by vm_compute).
    rewrite forallb_forall in H. specialize (H (Z.to_nat (k mod 93))). rewrite in_seq in H. specialize (H ltac:(lia)).
    rewrite Z2Nat.id in H by lia. by apply Z.leb_le. }
  assert (Hq : 0 <= k / 93) by (apply Z.div_pos; lia). assert (Hr : 0 <= k mod 93 * 302 / 1000) by (apply Z.div_pos; lia).
  rewrite <- Z.add_assoc, !Z.pow_add_r, !Z.pow_mul_r by lia.
  apply Z.mul_le_mono_nonneg; [apply Z.pow_nonneg; lia| |apply Z.pow_nonneg; lia|by rewrite <- Z.pow_add_r by lia].
  apply Z.pow_le_mono_l. split; [lia|by vm_compute].
Qed.

Lemma ten_below_two y : 0 <= y -> 10 ^ y <= 2 ^ (196 * (y / 59) + (y mod 59) * 3323 / 1000 + 1).
Proof.
  intros Hk. pose proof (Z.mod_pos_bound y 59 ltac:(lia)) as Hm. rewrite (Z.div_mod y 59) at 1 by lia.
  assert (Ht : 10 ^ (y mod 59) <= 2 ^ ((y mod 59) * 3323 / 1000 + 1)).
  { assert (H : forallb (fun i => 10 ^ Z.of_nat i <=? 2 ^ (Z.of_nat i * 3323 / 1000 + 1)) (seq 0 59) = true) by (by vm_compute).
    rewrite forallb_forall in H. specialize (H (Z.to_nat (y mod 59))). rewrite in_seq in H. specialize (H ltac:(lia)).
    rewrite Z2Nat.id in H by lia. by apply Z.leb_le. }
  assert (Hq : 0 <= y / 59) by (apply Z.div_pos; lia). assert (Hr : 0 <= y mod 59 * 3323 / 1000) by (apply Z.div_pos; lia).
  rewrite <- Z.add_assoc, !Z.pow_add_r, !Z.pow_mul_r by lia.
  apply Z.mul_le_mono_nonneg; [apply Z.pow_nonneg; lia| |apply Z.pow_nonneg; lia|by rewrite <- Z.pow_add_r by lia].
  apply Z.pow_le_mono_l. split; [lia|by vm_compute].
Qed.

Lemma estimate_enough l : -1100 <= l < 1100 ->
  2 ^ Z.max 0 (l + 1) * 10 ^ Z.max 0 (- (estimate l + 3)) <= 10 ^ Z.max 0 (estimate l + 3) * 2 ^ Z.max 0 (- (l + 1)).
Proof.
  intros Hl. unfold estimate. pose proof (Z.div_mod (l * 30103) 100000 ltac:(lia)). pose proof (Z.mod_pos_bound (l * 30103) 100000 ltac:(lia)).
  set (x := l * 30103 / 100000) in *. destruct (Z.le_gt_cases 0 (l + 1)).
  - rewrite (Z.max_r 0 (l + 1)), (Z.max_l 0 (- (x + 3))), (Z.max_r 0 (x + 3)), (Z.max_l 0 (- (l + 1))), Z.pow_0_r, Z.pow_0_r by lia.
    rewrite !Z.mul_1_r. etransitivity; [apply two_below_ten; lia|]. apply Z.pow_le_mono_r; [lia|].
    pose proof (Z.div_mod (l + 1) 93 ltac:(lia)). pose proof (Z.mod_pos_bound (l + 1) 93 ltac:(lia)). set (q := (l + 1) / 93) in *. set (r := (l + 1) mod 93) in *.
    pose proof (Z.mul_div_le (r * 302) 1000 ltac:(lia)). clearbody q r x. lia.
  - rewrite (Z.max_l 0 (l + 1)), (Z.max_r 0 (- (l + 1))), Z.pow_0_r, Z.mul_1_l by lia.
    assert (0 < 2 ^ (- (l + 1))) by (apply Z.pow_pos_nonneg; lia). destruct (Z.le_gt_cases 0 (x + 3)).
    + rewrite (Z.max_l 0 (- (x + 3))), Z.pow_0_r by lia. assert (0 < 10 ^ Z.max 0 (x + 3)) by (apply Z.pow_pos_nonneg; lia).
      enough (0 < 10 ^ Z.max 0 (x + 3) * 2 ^ (- (l + 1))) by lia. by apply Z.mul_pos_pos.
    + rewrite (Z.max_r 0 (- (x + 3))), (Z.max_l 0 (x + 3)), Z.pow_0_r, Z.mul_1_l by lia.
      etransitivity; [apply ten_below_two; lia|]. apply Z.pow_le_mono_r; [lia|]. set (y := - (x + 3)).
      pose proof (Z.div_mod y 59 ltac:(lia)). pose proof (Z.mod_pos_bound y 59 ltac:(lia)). set (q := y / 59) in *. set (r := y mod 59) in *.
      pose proof (Z.mul_div_le (r * 3323) 1000 ltac:(lia)). subst y. clearbody q r x. lia.
Qed.

Lemma pow_split b a : 0 < b -> b ^ Z.max 0 a = b ^ Z.max 0 a /\ 0 < b ^ Z.max 0 a.
Proof. intros Hb. split; [done|]. apply Z.pow_pos_nonneg; lia. Qed.

(** [n/d] is below the power of ten after its exponent. *)
Lemma below_estimate n d : 0 < n -> 0 < d -> -1100 <= Z.log2 n - Z.log2 d < 1100 ->
  pow10_le (estimate (Z.log2 n - Z.log2 d) + 3) n d = false.
Proof.
  intros Hn Hd Hl. pose proof (estimate_enough _ Hl) as He. set (l := Z.log2 n - Z.log2 d) in *. set (x := estimate l + 3) in *.
  unfold pow10_le. apply Z.leb_gt.
  pose proof (Z.log2_spec n Hn) as [_ Hn2]. pose proof (Z.log2_spec d Hd) as [Hd2 _].
  assert (Hlog : 0 <= Z.log2 n /\ 0 <= Z.log2 d) by (split; apply Z.log2_nonneg).
  (* n * 2^(-(l+1)) < 2^(l+1) * d, by the logarithms *)
  assert (Hnd : n * 2 ^ Z.max 0 (- (l + 1)) < 2 ^ Z.max 0 (l + 1) * d).
  { destruct (Z.le_gt_cases 0 (l + 1)).
    - rewrite (Z.max_l 0 (- (l + 1))), (Z.max_r 0 (l + 1)) by lia. rewrite Z.pow_0_r, Z.mul_1_r.
      apply Z.lt_le_trans with (2 ^ Z.succ (Z.log2 n)); [done|]. replace (Z.succ (Z.log2 n)) with (l + 1 + Z.log2 d) by lia.
      rewrite Z.pow_add_r by lia. apply Z.mul_le_mono_nonneg_l; [apply Z.pow_nonneg; lia|done].
    - rewrite (Z.max_r 0 (- (l + 1))), (Z.max_l 0 (l + 1)) by lia. rewrite Z.pow_0_r, Z.mul_1_l.
      apply Z.lt_le_trans with (2 ^ Z.succ (Z.log2 n) * 2 ^ (- (l + 1))).
      + apply Z.mul_lt_mono_pos_r; [apply Z.pow_pos_nonneg; lia|done].
      + rewrite <- Z.pow_add_r by lia. replace (Z.succ (Z.log2 n) + - (l + 1)) with (Z.log2 d) by lia. done. }
  pose proof (proj2 (pow_split 2 (l + 1) ltac:(lia))). pose proof (proj2 (pow_split 2 (- (l + 1)) ltac:(lia))).
  pose proof (proj2 (pow_split 10 x ltac:(lia))). pose proof (proj2 (pow_split 10 (- x) ltac:(lia))).
  set (P := 2 ^ Z.max 0 (l + 1)) in *. set (M := 2 ^ Z.max 0 (- (l + 1))) in *.
  set (A := 10 ^ Z.max 0 x) in *. set (B := 10 ^ Z.max 0 (- x)) in *.
  apply (Z.mul_lt_mono_pos_r M); [done|]. replace (n * B * M) with (n * M * B) by ring.
  apply Z.lt_le_trans with (P * d * B); [by apply Z.mul_lt_mono_pos_r|].
  replace (P * d * B) with (P * B * d) by ring. replace (A * d * M) with (A * M * d) by ring. apply Z.mul_le_mono_nonneg_r; lia.
Qed.

Lemma exponent10_above n d : 0 < n -> 0 < d -> -1100 <= Z.log2 n - Z.log2 d < 1100 ->
  pow10_le (exponent10 n d + 1) n d = false /\
  estimate (Z.log2 n - Z.log2 d) - 2 <= exponent10 n d <= estimate (Z.log2 n - Z.log2 d) + 2.
Proof.
  intros Hn Hd Hl. pose proof (below_estimate n d Hn Hd Hl) as Hb. unfold exponent10. fold (estimate (Z.log2 n - Z.log2 d)).
  set (x := estimate _) in *. destruct (pow10_le (x + 2) n d) eqn:E2; [split; [by replace (x + 2 + 1) with (x + 3) by lia|lia]|].
  destruct (pow10_le (x + 1) n d) eqn:E1; [split; [by replace (x + 1 + 1) with (x + 2) by lia|lia]|].
  destruct (pow10_le x n d) eqn:E0; [split; [done|lia]|]. destruct (pow10_le (x - 1) n d) eqn:E3; split; try lia.
  - by replace (x - 1 + 1) with x by lia.
  - by replace (x - 2 + 1) with (x - 1) by lia.
Qed.

Lemma round_div_le n d q : 0 <= n -> 0 < d -> n < q * d -> 0 <= round_div n d <= q.
Proof.
  intros Hn Hd Hq. unfold round_div. assert (0 <= n / d < q) by (split; [apply Z.div_pos; lia|apply Z.div_lt_upper_bound; lia]).
  destruct (_ ?= _); [destruct (Z.even _)| |]; lia.
Qed.

Lemma round_digits p n d : 0 < p -> 0 < n -> 0 < d -> -1100 <= Z.log2 n - Z.log2 d < 1100 ->
  let s := p - 1 - exponent10 n d in
  0 <= round_div (n * 10 ^ Z.max 0 s) (d * 10 ^ Z.max 0 (- s)) <= 10 ^ p.
Proof.
  intros Hp Hn Hd Hl s. destruct (exponent10_above n d Hn Hd Hl) as [Hb _]. apply Z.leb_gt in Hb.
  set (x := exponent10 n d) in *. pose proof (proj2 (pow_split 10 s ltac:(lia))). pose proof (proj2 (pow_split 10 (- s) ltac:(lia))).
  apply round_div_le; [apply Z.mul_nonneg_nonneg; lia|by apply Z.mul_pos_pos|].
  (* both sides times the power that makes the exponent whole *)
  pose proof (proj2 (pow_split 10 (- (x + 1)) ltac:(lia))). apply (Z.mul_lt_mono_pos_r (10 ^ Z.max 0 (- (x + 1)))); [done|].
  replace (n * 10 ^ Z.max 0 s * 10 ^ Z.max 0 (- (x + 1))) with (n * 10 ^ Z.max 0 (- (x + 1)) * 10 ^ Z.max 0 s) by ring.
  apply Z.lt_le_trans with (10 ^ Z.max 0 (x + 1) * d * 10 ^ Z.max 0 s); [by apply Z.mul_lt_mono_pos_r|].
  replace (10 ^ p * (d * 10 ^ Z.max 0 (- s)) * 10 ^ Z.max 0 (- (x + 1))) with (10 ^ p * 10 ^ Z.max 0 (- s) * 10 ^ Z.max 0 (- (x + 1)) * d) by ring.
  replace (10 ^ Z.max 0 (x + 1) * d * 10 ^ Z.max 0 s) with (10 ^ Z.max 0 (x + 1) * 10 ^ Z.max 0 s * d) by ring.
  apply Z.mul_le_mono_nonneg_r; [lia|]. rewrite <- !Z.pow_add_r by lia. apply Z.pow_le_mono_r; lia.
Qed.

Lemma trim_zeros_length ds : (length (trim_zeros ds) <= length ds)%nat.
Proof.
  unfold trim_zeros. rewrite length_rev, <- (length_rev ds). generalize (rev ds) as r. induction r as [|c r IH]; [done|].
  cbn [strip_zeros]. destruct (u8 c =? 48); cbn [length]; lia.
Qed.

Lemma with_point_length w f : (length (with_point w f) <= length w + 1 + length f)%nat.
Proof. unfold with_point. destruct (bool_decide _); [lia|]. rewrite length_app. cbn. pose proof (trim_zeros_length f). lia. Qed.

Lemma layout_length k x q : -341 <= x <= 341 -> 0 <= q < 10 ^ Z.of_nat (S k) -> (length (layout (Z.of_nat (S k)) x q) <= S k + 6)%nat.
Proof.
  intros Hx Hq. assert (Hl : (length (to_string q) <= S k)%nat) by (pose proof (dec_length 20 k q [] Hq); unfold to_string; cbn [length] in *; lia).
  unfold layout. destruct (_ && _) eqn:E; [destruct (Z.leb_spec 0 x)|].
  - etransitivity; [apply with_point_length|]. rewrite length_take, length_drop. lia.
  - etransitivity; [apply with_point_length|]. rewrite length_app, length_replicate. cbn [length]. lia.
  - rewrite !length_app. pose proof (with_point_length (take 1 (to_string q)) (drop 1 (to_string q))) as Hw. rewrite length_take, length_drop in Hw.
    cbn [length]. destruct (Z.ltb_spec (Z.abs x) 10).
    + pose proof (dec_length 20 0 (Z.abs x) [] ltac:(cbn; lia)) as He. cbn [length] in *. unfold to_string in *. lia.
    + pose proof (dec_length 20 2 (Z.abs x) [] ltac:(cbn; lia)) as He. cbn [length] in *. unfold to_string in *. lia.
Qed.

Lemma format_g_length k n d : 0 < n -> 0 < d -> -1100 <= Z.log2 n - Z.log2 d < 1100 -> (length (format_g (Z.of_nat (S k)) n d) <= S k + 6)%nat.
Proof.
  intros Hn Hd Hl. pose proof (round_digits (Z.of_nat (S k)) n d ltac:(lia) Hn Hd Hl) as Hq. cbn zeta in Hq.
  destruct (exponent10_above n d Hn Hd Hl) as [_ Hx]. unfold format_g. set (q := round_div _ _) in *. set (x := exponent10 n d) in *.
  assert (Hx' : -340 <= x <= 340).
  { clear Hq. clearbody q x. revert Hx Hl. unfold estimate. generalize (Z.log2 n - Z.log2 d) as l. intros l Hx Hl.
    pose proof (Z.div_mod (l * 30103) 100000 ltac:(lia)). pose proof (Z.mod_pos_bound (l * 30103) 100000 ltac:(lia)). lia. }
  destruct (Z.leb_spec (10 ^ Z.of_nat (S k)) q); apply layout_length; try lia.
  assert (1 < 10 ^ Z.of_nat (S k)) by (apply Z.pow_gt_1; lia). split; [apply Z.div_pos; lia|apply Z.div_lt_upper_bound; lia].
Qed.

(** 25 bytes are enough for ["%1.17g"] and ["%1.15g"]. *)
Lemma sprintf_g_length k d : (k <= 16)%nat -> binary64 d -> (length (sprintf_g (Z.of_nat (S k)) d) <= 24)%nat.
Proof.
  intros Hk Hd. destruct d as [s|s| |s m e]; [destruct s; cbn; lia|destruct s; cbn; lia|cbn; lia|]. destruct Hd as [Hm He].
  cbn [sprintf_g]. rewrite length_app. pose proof (format_g_length k (Zpos m * 2 ^ Z.max 0 e) (2 ^ Z.max 0 (- e))) as H.
  rewrite Z.log2_pow2, Z.log2_mul_pow2 in H by lia. assert (Hlm : 0 <= Z.log2 (Zpos m) < 53) by (split; [apply Z.log2_nonneg|apply Z.log2_lt_pow2; lia]).
  assert (0 < 2 ^ Z.max 0 e) by (apply Z.pow_pos_nonneg; lia). assert (0 < 2 ^ Z.max 0 (- e)) by (apply Z.pow_pos_nonneg; lia).
  specialize (H ltac:(lia) ltac:(lia) ltac:(lia)). destruct s; cbn [length]; lia.
Qed.

Lemma number_text_length d i : binary64 d -> INT_MIN <= i <= INT_MAX -> (length (number_text d i) <= 25)%nat.
Proof.
  intros Hd Hi. unfold number_text. destruct (negb _); [cbn; lia|]. destruct (int_text i Hi) as (_ & _ & _ & Hl & _).
  destruct (SFeqb _ _); [lia|]. pose proof (sprintf_g_length 14 d ltac:(lia) Hd). pose proof (sprintf_g_length 16 d ltac:(lia) Hd).
  change (Z.of_nat 15) with 15 in *. change (Z.of_nat 17) with 17 in *. destruct (strtod _). destruct (_ || _); lia.
Qed.

(** ** The text of a number has no NUL *)

Definition nul_free (s : list byte) : Prop := Forall (fun c => u8 c <> 0) s.

Lemma nul_free_app a b : nul_free (a ++ b) <-> nul_free a /\ nul_free b.
Proof. apply Forall_app. Qed.

Lemma digits_nul_free s : digits s -> nul_free s.
Proof. induction 1 as [|c s Hc _ IH]; constructor; [|done]. unfold is_digit in Hc. lia. Qed.

Lemma dec_digits fuel z acc : digits acc -> digits (dec fuel z acc).
Proof.
  revert z acc. induction fuel as [|fuel IH]; intros z acc Ha; [done|]. cbn [dec].
  assert (H : digits (digit (z mod 10) :: acc)) by (constructor; [apply digit_clean, Z.mod_pos_bound; lia|done]).
  destruct (_ =? 0); [done|by apply IH].
Qed.

Lemma to_string_nul_free z : nul_free (to_string z).
Proof. apply digits_nul_free, dec_digits. constructor. Qed.

Lemma with_point_nul_free w f : nul_free w -> nul_free f -> nul_free (with_point w f).
Proof.
  intros Hw Hf. unfold with_point. destruct (bool_decide _); [done|]. apply nul_free_app. split; [done|]. constructor; [by vm_compute|].
  unfold trim_zeros, nul_free in *. apply Forall_rev. apply Forall_rev in Hf. revert Hf. generalize (rev f) as r.
  induction r as [|c r IH]; [done|]. intros Hf. cbn [strip_zeros]. inversion Hf; subst. destruct (_ =? 48); auto.
Qed.

Lemma layout_nul_free p x q : nul_free (layout p x q).
Proof.
  unfold layout. pose proof (to_string_nul_free q) as Hq. pose proof (to_string_nul_free (Z.abs x)) as Hx.
  destruct (_ && _); [destruct (_ <=? _)|].
  - apply with_point_nul_free; [by apply Forall_take|by apply Forall_drop].
  - apply with_point_nul_free; [by repeat constructor; vm_compute|]. apply nul_free_app. split; [|done]. apply Forall_replicate. by vm_compute.
  - apply nul_free_app. split; [apply with_point_nul_free; [by apply Forall_take|by apply Forall_drop]|].
    constructor; [by vm_compute|]. constructor; [by destruct (x <? 0); vm_compute|]. destruct (_ <? _); [|done]. constructor; [by vm_compute|done].
Qed.

Lemma sprintf_g_nul_free p d : nul_free (sprintf_g p d).
Proof.
  assert (Hs : forall (s : bool), nul_free (if s then [to_u8 45] else [])) by (intros []; repeat constructor; by vm_compute).
  destruct d as [s|s| |s m e]; cbn [sprintf_g].
  - apply nul_free_app. split; [done|]. repeat constructor; by vm_compute.
  - apply nul_free_app. split; [done|]. repeat constructor; by vm_compute.
  - repeat constructor; by vm_compute.
  - apply nul_free_app. split; [done|]. unfold format_g. destruct (_ <=? _); apply layout_nul_free.
Qed.

Lemma number_text_nul_free d i : nul_free (number_text d i).
Proof.
  unfold number_text. destruct (negb _); [repeat constructor; by vm_compute|]. destruct (SFeqb _ _).
  - unfold int_to_string. destruct (_ <? _); [|apply to_string_nul_free]. apply nul_free_app. split; [repeat constructor; by vm_compute|apply to_string_nul_free].
  - destruct (strtod _). destruct (_ || _); apply sprintf_g_nul_free.
Qed.

(** ** A number is close to itself *)

Lemma shr_1_nonneg r : 0 <= shr_m r -> 0 <= shr_m (shr_1 r).
Proof. destruct r as [[|[p|p|]|p] a b]; cbn; lia. Qed.

Lemma iter_shr_nonneg p r : 0 <= shr_m r -> 0 <= shr_m (SpecFloat.iter_pos shr_1 p r).
Proof.
  revert r. induction p as [p IH|p IH|]; intros r Hr; cbn [SpecFloat.iter_pos]; auto using shr_1_nonneg.
Qed.

Lemma shr_fexp_nonneg m e l : 0 <= m -> 0 <= shr_m (fst (shr_fexp 53 1024 m e l)).
Proof.
  intros Hm. unfold shr_fexp, shr. assert (Hr : 0 <= shr_m (shr_record_of_loc m l)) by (by destruct l as [|[]]).
  destruct (_ - e); cbn [fst]; [done|by apply iter_shr_nonneg|done].
Qed.

Lemma round_not_negative m e : SFleb zero (binary_round_aux 53 1024 false (Zpos m) e loc_Exact) = true.
Proof.
  unfold binary_round_aux. pose proof (shr_fexp_nonneg (Zpos m) e loc_Exact ltac:(lia)) as H1. destruct (shr_fexp 53 1024 (Zpos m) e loc_Exact) as [r1 e1]. cbn [fst] in H1.
  assert (H2 : 0 <= round_nearest_even (shr_m r1) (loc_of_shr_record r1)).
  { destruct (loc_of_shr_record r1) as [|[]]; cbn; try lia. destruct (Z.even _); lia. }
  pose proof (shr_fexp_nonneg _ e1 loc_Exact H2) as H3. destruct (shr_fexp 53 1024 _ e1 loc_Exact) as [r2 e2]. cbn [fst] in H3.
  destruct (shr_m r2); [done| |lia]. by destruct (_ <=? _).
Qed.

Lemma compare_double_refl d : finite d = true -> compare_double d d = true.
Proof.
  intros Hf. unfold compare_double. destruct d as [s|s| |s m e]; [by destruct s|done|done|]. cbn [SFabs].
  assert (Es : SFsub 53 1024 (S754_finite s m e) (S754_finite s m e) = zero) by (cbn [SFsub]; rewrite Z.sub_diag; done). rewrite Es.
  destruct (SFltb _ _); cbn [SFabs]; apply round_not_negative.
Qed.
