(* ===== verification/Cjson.v ===== *)
(** * The JSON reader of the firmware

    The parser of cJSON 1.7.19,
    [src/firmware/managed_components/espressif__cjson/cJSON/cJSON.c], which reads every
    command the device gets.

    The text is a list of bytes of which nothing outside exists: an access outside it,
    or a write outside the block that was allocated for a string, is [Stray].  Offsets
    are [nat]; none is larger than a text that is in memory.  [hooks] says which of the
    allocations succeed; [mem] counts the blocks that are alive.  The list of a node's
    children is the chain of their [next] pointers; the [prev] pointers follow from it.
    The mutual recursion of [parse_value], [parse_array] and [parse_object] is bounded by
    fuel, and [NoFuel] is shown not to occur. *)

From S2P Require Import Prelude AuditLog KeyPolicy Double.

(** ** The document *)

Definition cJSON_Invalid : Z := 0.
Definition cJSON_False : Z := 1.
Definition cJSON_True : Z := 2.
Definition cJSON_NULL : Z := 4.
Definition cJSON_Number : Z := 8.
Definition cJSON_String : Z := 16.
Definition cJSON_Array : Z := 32.
Definition cJSON_Object : Z := 64.
Definition cJSON_Raw : Z := 128.
Definition cJSON_IsReference : Z := 256.
Definition cJSON_StringIsConst : Z := 512.

(** A text is the bytes of its block before the NUL at its end. *)
#[warnings="-register-all"]
Inductive cJSON : Type :=
| Node (type : Z) (valuestring : option (list byte)) (valueint : Z) (valuedouble : double)
       (string : option (list byte)) (child : list cJSON).

Definition ntype (n : cJSON) : Z := let 'Node t _ _ _ _ _ := n in t.
Definition valuestring (n : cJSON) : option (list byte) := let 'Node _ v _ _ _ _ := n in v.
Definition valueint (n : cJSON) : Z := let 'Node _ _ v _ _ _ := n in v.
Definition valuedouble (n : cJSON) : double := let 'Node _ _ _ v _ _ := n in v.
Definition nstring (n : cJSON) : option (list byte) := let 'Node _ _ _ _ s _ := n in s.
Definition child (n : cJSON) : list cJSON := let 'Node _ _ _ _ _ c := n in c.

Definition with_name (name : list byte) (n : cJSON) : cJSON :=
  let 'Node t v i d _ c := n in Node t v i d (Some name) c.

(** [cJSON_New_Item]: all zero. *)
Definition new_node : cJSON := Node cJSON_Invalid None 0 zero None [].

Definition has_flag (t f : Z) : bool := negb (Z.land t f =? 0).

Definition present {A} (o : option A) : Z := match o with Some _ => 1 | None => 0 end.

(** The blocks [cJSON_Delete] releases for a node and what is below it. *)
Fixpoint blocks (n : cJSON) : Z :=
  let 'Node t v _ _ s c := n in
  1 + (if has_flag t cJSON_IsReference then 0 else fold_right (fun n a => blocks n + a) 0 c + present v)
  + (if has_flag t cJSON_StringIsConst then 0 else present s).

Definition blocks_all (ns : list cJSON) : Z := fold_right (fun n a => blocks n + a) 0 ns.

(** ** Memory *)

Record Mem : Type := mkMem { made : nat; live : Z }.

Record parse_buffer : Type := mkBuf { content : list byte; offset : nat; depth : nat; mem : Mem }.

Definition at_offset (b : parse_buffer) (o : nat) : parse_buffer := mkBuf (content b) o (depth b) (mem b).
Definition at_depth (b : parse_buffer) (d : nat) : parse_buffer := mkBuf (content b) (offset b) d (mem b).
Definition with_mem (b : parse_buffer) (m : Mem) : parse_buffer := mkBuf (content b) (offset b) (depth b) m.

Definition deallocate (n : Z) (b : parse_buffer) : parse_buffer :=
  with_mem b (mkMem (made (mem b)) (live (mem b) - n)).

Inductive outcome (A : Type) : Type :=
| Done (a : A) (b : parse_buffer)
| Failed (b : parse_buffer)
| Stray
| NoFuel.
Arguments Done {A} _ _.
Arguments Failed {A} _.
Arguments Stray {A}.
Arguments NoFuel {A}.

Definition byte_at (b : parse_buffer) (i : nat) : option byte := content b !! (offset b + i)%nat.

Notation "'read!' c ':=' b '@' i 'in' k" := (match byte_at b i with Some c => k | None => Stray end)
  (at level 10, c name, b at level 9, i at level 9, k at level 200).

Definition can_read (b : parse_buffer) (size : nat) : bool := (offset b + size <=? length (content b))%nat.
Definition can_access_at_index (b : parse_buffer) (i : nat) : bool := (offset b + i <? length (content b))%nat.

Definition CJSON_NESTING_LIMIT : nat := 1000.

Definition QUOTE : byte := to_u8 34.
Definition BACKSLASH : byte := to_u8 92.

(** [strncmp(text, literal, n) == 0], [None] when it reads past the end. *)
Fixpoint strncmp_eq (literal text : list byte) : option bool :=
  match literal with
  | [] => Some true
  | x :: literal =>
    match text with
    | [] => None
    | c :: text => if bool_decide (c = x) then strncmp_eq literal text else Some false
    end
  end.

Definition starts (b : parse_buffer) (literal : string) : option bool :=
  strncmp_eq (bytes_of literal) (drop (offset b) (content b)).

Fixpoint count_while (p : byte -> bool) (l : list byte) : nat :=
  match l with
  | c :: l => if p c then S (count_while p l) else 0%nat
  | [] => 0%nat
  end.

Definition buffer_skip_whitespace (b : parse_buffer) : parse_buffer :=
  if negb (can_access_at_index b 0) then b
  else
    let o := (offset b + count_while (fun c => (u8 c <=? 32)%Z) (drop (offset b) (content b)))%nat in
    if Nat.eqb o (length (content b)) then at_offset b (pred o) else at_offset b o.

(** [None]: the null pointer. *)
Definition skip_utf8_bom (b : parse_buffer) : option parse_buffer :=
  if negb (Nat.eqb (offset b) 0) then None
  else if can_access_at_index b 4 && bool_decide (take 3 (drop (offset b) (content b)) = [to_u8 239; to_u8 187; to_u8 191])
  then Some (at_offset b 3) else Some b.

(** ** Strings *)

Definition hex_digit (c : byte) : option Z :=
  let v := u8 c in
  if (48 <=? v) && (v <=? 57) then Some (v - 48)
  else if (65 <=? v) && (v <=? 70) then Some (10 + v - 65)
  else if (97 <=? v) && (v <=? 102) then Some (10 + v - 97)
  else None.

Fixpoint hex4_loop (input : list byte) (h : Z) : Z :=
  match input with
  | [] => h
  | c :: input =>
    match hex_digit c with
    | None => 0
    | Some v => let h := h + v in hex4_loop input (match input with [] => h | _ => Z.shiftl h 4 end)
    end
  end.

Definition parse_hex4 (input : list byte) : Z := hex4_loop (take 4 input) 0.

Definition hex4_at (text : list byte) (i : nat) : option Z :=
  if (i + 4 <=? length text)%nat then Some (parse_hex4 (drop i text)) else None.

(** The bytes after the first one, last first, and what is left of the code point. *)
Fixpoint utf8_tail (n : nat) (codepoint : Z) (acc : list byte) : Z * list byte :=
  match n with
  | O => (codepoint, acc)
  | S n => utf8_tail n (Z.shiftr codepoint 6) (to_u8 (Z.land (Z.lor codepoint 128) 191) :: acc)
  end.

(** [None] for a code point that is too large. *)
Definition utf8_encode (codepoint : Z) : option (list byte) :=
  let encode (len : nat) (mark : Z) :=
    let (cp, rest) := utf8_tail len codepoint [] in to_u8 (Z.land (Z.lor cp mark) 255) :: rest in
  if codepoint <? 128 then Some [to_u8 (Z.land codepoint 127)]
  else if codepoint <? 2048 then Some (encode 1%nat 192)
  else if codepoint <? 65536 then Some (encode 2%nat 224)
  else if codepoint <=? 1114111 then Some (encode 3%nat 240)
  else None.

Definition encoded (sequence_length : nat) (codepoint : Z) : nat * list byte :=
  match utf8_encode codepoint with Some s => (sequence_length, s) | None => (0%nat, []) end.

(** The length of the sequence, 0 for a failure, and the bytes it stands for; [None]
    when it reads outside the text.  [p] is [input_pointer], [e] is [input_end]. *)
Definition utf16_literal_to_utf8 (text : list byte) (p e : nat) : option (nat * list byte) :=
  if (e <? p + 6)%nat then Some (0%nat, [])
  else
    match hex4_at text (p + 2) with
    | None => None
    | Some first_code =>
      if (0xDC00 <=? first_code) && (first_code <=? 0xDFFF) then Some (0%nat, [])
      else if (0xD800 <=? first_code) && (first_code <=? 0xDBFF) then
        if (e <? p + 6 + 6)%nat then Some (0%nat, [])
        else
          match text !! (p + 6)%nat, text !! (p + 7)%nat with
          | Some c0, Some c1 =>
            if negb (bool_decide (c0 = BACKSLASH)) || negb (u8 c1 =? 117) then Some (0%nat, [])
            else
              match hex4_at text (p + 8) with
              | None => None
              | Some second_code =>
                if (second_code <? 0xDC00) || (0xDFFF <? second_code) then Some (0%nat, [])
                else Some (encoded 12 (0x10000 + Z.lor (Z.shiftl (Z.land first_code 0x3FF) 10) (Z.land second_code 0x3FF)))
              end
          | _, _ => None
          end
      else Some (encoded 6 first_code)
    end.

(** The first pass: the length of the literal up to the closing quote and the number of
    escapes in it; [None] when there is no closing quote. *)
Fixpoint scan (text : list byte) : option (nat * nat) :=
  match text with
  | [] => None
  | c :: text =>
    if bool_decide (c = QUOTE) then Some (0%nat, 0%nat)
    else if bool_decide (c = BACKSLASH) then
      match text with
      | [] => None
      | _ :: text => match scan text with Some (n, s) => Some (S (S n), S s) | None => None end
      end
    else match scan text with Some (n, s) => Some (S n, s) | None => None end
  end.

Inductive unescaped : Type :=
| Text (out : list byte)
| BadAt (p : nat)
| OutOfBounds
| OutOfFuel.

(** The byte a short escape stands for. *)
Definition escape (c : byte) : option byte :=
  let v := u8 c in
  if v =? 98 then Some (to_u8 8)
  else if v =? 102 then Some (to_u8 12)
  else if v =? 110 then Some (to_u8 10)
  else if v =? 114 then Some (to_u8 13)
  else if v =? 116 then Some (to_u8 9)
  else if (v =? 34) || (v =? 92) || (v =? 47) then Some c
  else None.

(** The second pass, into a block of [cap] bytes. *)
Fixpoint unescape (fuel : nat) (text : list byte) (p e cap : nat) (out : list byte) : unescaped :=
  if negb (p <? e)%nat then (if (length out <? cap)%nat then Text out else OutOfBounds)
  else
    match fuel with
    | O => OutOfFuel
    | S fuel =>
      let put (bytes : list byte) (n : nat) :=
        if (length out + length bytes <=? cap)%nat then unescape fuel text (p + n) e cap (out ++ bytes) else OutOfBounds in
      match text !! p with
      | None => OutOfBounds
      | Some c =>
        if negb (bool_decide (c = BACKSLASH)) then put [c] 1%nat
        else if (e <? p + 1)%nat then BadAt p
        else
          match text !! (p + 1)%nat with
          | None => OutOfBounds
          | Some x =>
            match escape x with
            | Some y => put [y] 2%nat
            | None =>
              if u8 x =? 117 then
                match utf16_literal_to_utf8 text p e with
                | None => OutOfBounds
                | Some (O, _) => BadAt p
                | Some (n, bytes) => put bytes n
                end
              else BadAt p
            end
          end
      end
    end.

Section Parser.
Context (hooks : nat -> bool).

Definition allocate (b : parse_buffer) : bool * parse_buffer :=
  let m := mem b in
  if hooks (made m) then (true, with_mem b (mkMem (S (made m)) (live m + 1)))
  else (false, with_mem b (mkMem (S (made m)) (live m))).

Definition parse_string (b : parse_buffer) : outcome (list byte) :=
  let start := (offset b + 1)%nat in
  read! c := b @ 0%nat in
  if negb (bool_decide (c = QUOTE)) then Failed (at_offset b start)
  else
    match scan (drop start (content b)) with
    | None => Failed (at_offset b start)
    | Some (n, skipped_bytes) =>
      let input_end := (start + n)%nat in
      let allocation_length := (input_end - offset b - skipped_bytes)%nat in
      let (ok, b) := allocate b in
      if negb ok then Failed (at_offset b start)
      else
        match unescape n (content b) start input_end (allocation_length + 1) [] with
        | Text out => Done out (at_offset b (input_end + 1))
        | BadAt p => Failed (at_offset (deallocate 1 b) p)
        | OutOfBounds => Stray
        | OutOfFuel => NoFuel
        end
    end.

Definition string_node (s : list byte) : cJSON := Node cJSON_String (Some s) 0 zero None [].

(** ** Numbers *)

Definition number_node (d : double) : cJSON := Node cJSON_Number None (saturate d) d None [].

Definition parse_number (b : parse_buffer) : outcome cJSON :=
  let rest := drop (offset b) (content b) in
  let number_c_string := take (count_while number_char rest) rest in
  let (ok, b) := allocate b in
  if negb ok then Failed b
  else
    let (number, used) := strtod number_c_string in
    if Nat.eqb used 0 then Failed (deallocate 1 b)
    else Done (number_node number) (at_offset (deallocate 1 b) (offset b + used)).

(** ** Arrays, objects and values *)

Definition array_node (head : list cJSON) : cJSON := Node cJSON_Array None 0 zero None head.
Definition object_node (head : list cJSON) : cJSON := Node cJSON_Object None 0 zero None head.

(** The end of the two functions below: [close] is the bracket, [node] makes the item. *)
Definition close_list (node : list cJSON -> cJSON) (b : parse_buffer) (head : list cJSON) : outcome cJSON :=
  Done (node head) (mkBuf (content b) (offset b + 1) (depth b - 1) (mem b)).

(** What [parse_array] and [parse_object] share around their loops, [elements]; only the
    second asks whether there is a first character ([guard]). *)
Definition parse_list (guard : bool) (open_ close : Z) (node : list cJSON -> cJSON) (elements : parse_buffer -> outcome (list cJSON))
    (b : parse_buffer) : outcome cJSON :=
  if (CJSON_NESTING_LIMIT <=? depth b)%nat then Failed b
  else
    let b := at_depth b (depth b + 1) in
    if guard && negb (can_access_at_index b 0) then Failed b
    else
    read! c := b @ 0%nat in
    if negb (u8 c =? open_) then Failed b
    else
      let b := buffer_skip_whitespace (at_offset b (offset b + 1)) in
      if negb (can_access_at_index b 0) then Failed (at_offset b (offset b - 1))
      else
        read! c := b @ 0%nat in
        if u8 c =? close then close_list node b []
        else
          match elements (at_offset b (offset b - 1)) with
          | Done head b =>
            if negb (can_access_at_index b 0) then Failed (deallocate (blocks_all head) b)
            else
              read! c := b @ 0%nat in
              if negb (u8 c =? close) then Failed (deallocate (blocks_all head) b) else close_list node b head
          | Failed b => Failed b
          | Stray => Stray
          | NoFuel => NoFuel
          end.

Definition parse_array : (parse_buffer -> outcome (list cJSON)) -> parse_buffer -> outcome cJSON := parse_list false 91 93 array_node.
Definition parse_object : (parse_buffer -> outcome (list cJSON)) -> parse_buffer -> outcome cJSON := parse_list true 123 125 object_node.

(** The next character is a comma. *)
Definition at_comma (b : parse_buffer) : option bool :=
  if can_access_at_index b 0 then (fun c => u8 c =? 44) <$> byte_at b 0 else Some false.

(** The name of a member and its colon; what is allocated for [current_item] is released
    on failure. *)
Definition parse_name (b : parse_buffer) : outcome (list byte) :=
  if negb (can_access_at_index b 1) then Failed (deallocate 1 b)
  else
    match parse_string (buffer_skip_whitespace (at_offset b (offset b + 1))) with
    | Done name b =>
      let b := buffer_skip_whitespace b in
      if negb (can_access_at_index b 0) then Failed (deallocate 2 b)
      else
        read! c := b @ 0%nat in
        if negb (u8 c =? 58) then Failed (deallocate 2 b) else Done name b
    | Failed b => Failed (deallocate 1 b)
    | Stray => Stray
    | NoFuel => NoFuel
    end.

Fixpoint parse_value (fuel : nat) (b : parse_buffer) : outcome cJSON :=
  match fuel with
  | O => NoFuel
  | S fuel =>
    match if can_read b 4 then starts b "null" else Some false with
    | None => Stray
    | Some true => Done (Node cJSON_NULL None 0 zero None []) (at_offset b (offset b + 4))
    | Some false =>
      match if can_read b 5 then starts b "false" else Some false with
      | None => Stray
      | Some true => Done (Node cJSON_False None 0 zero None []) (at_offset b (offset b + 5))
      | Some false =>
        match if can_read b 4 then starts b "true" else Some false with
        | None => Stray
        | Some true => Done (Node cJSON_True None 1 zero None []) (at_offset b (offset b + 4))
        | Some false =>
          if negb (can_access_at_index b 0) then Failed b
          else
            read! c := b @ 0%nat in
            if bool_decide (c = QUOTE) then
              match parse_string b with
              | Done s b => Done (string_node s) b
              | Failed b => Failed b
              | Stray => Stray
              | NoFuel => NoFuel
              end
            else if (u8 c =? 45) || is_digit c then parse_number b
            else if u8 c =? 91 then parse_array (fun b => parse_elements fuel b []) b
            else if u8 c =? 123 then parse_object (fun b => parse_members fuel b []) b
            else Failed b
        end
      end
    end
  end
with parse_elements (fuel : nat) (b : parse_buffer) (done_ : list cJSON) : outcome (list cJSON) :=
  match fuel with
  | O => NoFuel
  | S fuel =>
    let (ok, b) := allocate b in
    if negb ok then Failed (deallocate (blocks_all done_) b)
    else
      match parse_value fuel (buffer_skip_whitespace (at_offset b (offset b + 1))) with
      | Done v b =>
        let b := buffer_skip_whitespace b in
        match at_comma b with
        | None => Stray
        | Some true => parse_elements fuel b (done_ ++ [v])
        | Some false => Done (done_ ++ [v]) b
        end
      | Failed b => Failed (deallocate (blocks_all done_ + 1) b)
      | Stray => Stray
      | NoFuel => NoFuel
      end
  end
with parse_members (fuel : nat) (b : parse_buffer) (done_ : list cJSON) : outcome (list cJSON) :=
  match fuel with
  | O => NoFuel
  | S fuel =>
    let (ok, b) := allocate b in
    if negb ok then Failed (deallocate (blocks_all done_) b)
    else
      match parse_name b with
      | Done name b =>
        match parse_value fuel (buffer_skip_whitespace (at_offset b (offset b + 1))) with
        | Done v b =>
          let b := buffer_skip_whitespace b in
          match at_comma b with
          | None => Stray
          | Some true => parse_members fuel b (done_ ++ [with_name name v])
          | Some false => Done (done_ ++ [with_name name v]) b
          end
        | Failed b => Failed (deallocate (blocks_all done_ + 2) b)
        | Stray => Stray
        | NoFuel => NoFuel
        end
      | Failed b => Failed (deallocate (blocks_all done_) b)
      | Stray => Stray
      | NoFuel => NoFuel
      end
  end.

(** ** The entry points *)

(** [Parsed] with the position after the document; [Rejected] with the position of the
    error, [None] for a null pointer. *)
Inductive parsed : Type :=
| Parsed (item : cJSON) (parse_end : nat) (m : Mem)
| Rejected (position : option nat) (m : Mem)
| Wild.

Definition error_position (b : parse_buffer) : nat :=
  if (offset b <? length (content b))%nat then offset b else (length (content b) - 1)%nat.

Definition fuel_for (text : list byte) : nat := (2 * length text + 2)%nat.

(** [value] is the [buffer_length] bytes at the pointer. *)
Definition cJSON_ParseWithLengthOpts (value : option (list byte)) (require_null_terminated : bool) (m : Mem) : parsed :=
  match value with
  | None => Rejected None m
  | Some [] => Rejected (Some 0%nat) m
  | Some text =>
    let (ok, b) := allocate (mkBuf text 0 0 m) in
    if negb ok then Rejected (Some (error_position b)) (mem b)
    else
      match skip_utf8_bom b with
      | None => Rejected (Some (error_position b)) (mem (deallocate 1 b))
      | Some b =>
        match parse_value (fuel_for text) (buffer_skip_whitespace b) with
        | Failed b => Rejected (Some (error_position b)) (mem (deallocate 1 b))
        | Done item b =>
          if require_null_terminated then
            let b := buffer_skip_whitespace b in
            if negb (can_access_at_index b 0) then Rejected (Some (error_position b)) (mem (deallocate (blocks item) b))
            else
              match byte_at b 0 with
              | None => Wild
              | Some c =>
                if negb (bool_decide (c = x00)) then Rejected (Some (error_position b)) (mem (deallocate (blocks item) b))
                else Parsed item (offset b) (mem b)
              end
          else Parsed item (offset b) (mem b)
        | Stray | NoFuel => Wild
        end
      end
  end.

(** [value] is a C string: its bytes, then a NUL. *)
Definition cJSON_ParseWithOpts (value : option (list byte)) (require_null_terminated : bool) (m : Mem) : parsed :=
  cJSON_ParseWithLengthOpts ((fun s => c_str s ++ [x00]) <$> value) require_null_terminated m.

Definition cJSON_Parse (value : option (list byte)) (m : Mem) : parsed := cJSON_ParseWithOpts value false m.

Definition cJSON_ParseWithLength (value : option (list byte)) (m : Mem) : parsed := cJSON_ParseWithLengthOpts value false m.

End Parser.

(** ** Access *)

Definition cJSON_IsString (n : option cJSON) : bool := match n with Some n => Z.land (ntype n) 255 =? cJSON_String | None => false end.
Definition cJSON_IsNumber (n : option cJSON) : bool := match n with Some n => Z.land (ntype n) 255 =? cJSON_Number | None => false end.
Definition cJSON_IsTrue (n : option cJSON) : bool := match n with Some n => Z.land (ntype n) 255 =? cJSON_True | None => false end.
Definition cJSON_IsBool (n : option cJSON) : bool :=
  match n with Some n => negb (Z.land (ntype n) (Z.lor cJSON_True cJSON_False) =? 0) | None => false end.

Definition tolower (c : byte) : byte := if (65 <=? u8 c) && (u8 c <=? 90) then to_u8 (u8 c + 32) else c.

(** [case_insensitive_strcmp(a, b) == 0] of two C strings. *)
Definition case_insensitive_eq (a b : list byte) : bool := bool_decide (map tolower (c_str a) = map tolower (c_str b)).

(** The first child with the name; with regard to case the search ends at a child that
    has no name. *)
Fixpoint find_item (case_sensitive : bool) (name : list byte) (ns : list cJSON) : option cJSON :=
  match ns with
  | [] => None
  | n :: ns =>
    match nstring n with
    | None => if case_sensitive then None else find_item case_sensitive name ns
    | Some s =>
      if (if case_sensitive then bool_decide (c_str name = c_str s) else case_insensitive_eq name s) then Some n
      else find_item case_sensitive name ns
    end
  end.

Definition get_object_item (object : option cJSON) (name : option (list byte)) (case_sensitive : bool) : option cJSON :=
  match object, name with
  | Some o, Some name => find_item case_sensitive name (child o)
  | _, _ => None
  end.

Definition cJSON_GetObjectItem (object : option cJSON) (name : option (list byte)) : option cJSON := get_object_item object name false.
Definition cJSON_GetObjectItemCaseSensitive (object : option cJSON) (name : option (list byte)) : option cJSON :=
  get_object_item object name true.

Definition cJSON_GetStringValue (n : option cJSON) : option (list byte) :=
  if cJSON_IsString n then match n with Some n => valuestring n | None => None end else None.

Definition cJSON_GetArraySize (n : option cJSON) : nat := match n with Some n => length (child n) | None => 0%nat end.
Definition cJSON_GetArrayItem (n : option cJSON) (index : Z) : option cJSON :=
  if index <? 0 then None else match n with Some n => child n !! Z.to_nat index | None => None end.

(** ** The string block is large enough *)

(** Where the first pass saw an escape begin, for each byte before the closing quote. *)
Fixpoint marks (text : list byte) : list bool :=
  match text with
  | [] => []
  | c :: text =>
    if bool_decide (c = QUOTE) then []
    else if bool_decide (c = BACKSLASH) then match text with [] => [] | _ :: text => true :: false :: marks text end
    else false :: marks text
  end.

Definition count_true (l : list bool) : nat := length (filter (fun x => x = true) l).

(** Induction along the first pass, which takes an escape at once. *)
Lemma pass_ind (P : list byte -> Prop) :
  P [] -> (forall c l, P l -> (forall d r, l = d :: r -> P r) -> P (c :: l)) -> forall l, P l.
Proof.
  intros H0 H1 l. enough (P l /\ (forall d r, l = d :: r -> P r)) by tauto.
  induction l as [|c l [IH IH']]; [done|]. split; [by apply H1|]. by intros d r [= -> ->].
Qed.

Lemma scan_marks text n s :
  scan text = Some (n, s) -> length (marks text) = n /\ count_true (marks text) = s /\ text !! n = Some QUOTE.
Proof.
  revert n s. induction text as [|c text IH IH'] using pass_ind; intros n s; cbn [scan marks]; [done|].
  case_bool_decide as Hq; [intros [= <- <-]; subst; done|]. case_bool_decide as Hb.
  - destruct text as [|d text]; [done|]. destruct (scan text) as [[n' s']|] eqn:E; [|done]. intros [= <- <-].
    destruct (IH' d text eq_refl n' s' E) as (<- & <- & Hq'). split_and!; [done|by cbn|done].
  - destruct (scan text) as [[n' s']|] eqn:E; [|done]. intros [= <- <-]. destruct (IH n' s' eq_refl) as (<- & <- & Hq').
    split_and!; [done|by cbn|done].
Qed.

Lemma marks_backslash text i : marks text !! i = Some true -> text !! i = Some BACKSLASH /\ marks text !! S i = Some false.
Proof.
  revert i. induction text as [|c text IH IH'] using pass_ind; intros i; cbn [marks]; [done|].
  case_bool_decide; [done|]. case_bool_decide as Hb; [destruct text as [|d text]; [done|]|].
  - destruct i as [|[|i]]; [by subst|done|]. intros Hi. by apply (IH' d text).
  - destruct i as [|i]; [done|]. intros Hi. by apply IH.
Qed.

(** The escapes the first pass saw begin before position [i]. *)
Definition escapes_before (text : list byte) (i : nat) : nat := count_true (take i (marks text)).

Lemma escapes_succ text i :
  escapes_before text (S i) = (escapes_before text i + (if bool_decide (marks text !! i = Some true) then 1 else 0))%nat.
Proof.
  unfold escapes_before, count_true. destruct (marks text !! i) as [x|] eqn:E.
  - erewrite take_S_r by done. rewrite list.filter_app, length_app. f_equal. destruct x; [by rewrite bool_decide_eq_true_2|by rewrite bool_decide_eq_false_2].
  - rewrite bool_decide_eq_false_2 by done. apply lookup_ge_None in E. rewrite !take_ge by lia. lia.
Qed.

Lemma escapes_two text i : (escapes_before text (i + 2) <= escapes_before text i + 1)%nat.
Proof.
  replace (i + 2)%nat with (S (S i)) by lia. rewrite !escapes_succ. case_bool_decide as H1; case_bool_decide as H2; try lia.
  apply marks_backslash in H1 as [_ H1]. congruence.
Qed.

Lemma escapes_pairs text i k : (escapes_before text (i + 2 * k) <= escapes_before text i + k)%nat.
Proof.
  induction k as [|k IH]; [rewrite Nat.add_0_r; lia|]. pose proof (escapes_two text (i + 2 * k)) as H.
  replace (i + 2 * S k)%nat with (i + 2 * k + 2)%nat by lia. lia.
Qed.

Lemma escapes_total text n s i : scan text = Some (n, s) -> (n <= i)%nat -> escapes_before text i = s.
Proof. intros Hs Hi. apply scan_marks in Hs as (Hn & Hc & _). unfold escapes_before. by rewrite take_ge by lia. Qed.

Lemma escapes_bound text n s i : scan text = Some (n, s) -> (escapes_before text i <= s)%nat.
Proof.
  intros Hs. apply scan_marks in Hs as (_ & <- & _). unfold escapes_before, count_true.
  rewrite <- (take_drop i (marks text)) at 2. rewrite list.filter_app, length_app. lia.
Qed.

Lemma utf8_tail_length n cp acc : length (snd (utf8_tail n cp acc)) = (n + length acc)%nat.
Proof. revert cp acc. induction n as [|n IH]; intros cp acc; [done|]. cbn [utf8_tail]. rewrite IH. cbn. lia. Qed.

Lemma utf8_encode_length cp s : utf8_encode cp = Some s -> (1 <= length s <= if (cp <? 65536)%Z then 3 else 4)%nat.
Proof.
  unfold utf8_encode. assert (Ht : forall n, length (let (c, rest) := utf8_tail n cp [] in to_u8 0 :: rest) = S n).
  { intros n. pose proof (utf8_tail_length n cp []) as H. destruct (utf8_tail n cp []). cbn in *. lia. }
  destruct (Z.ltb_spec cp 128); [intros [= <-]; cbn; destruct (Z.ltb_spec cp 65536); lia|].
  destruct (Z.ltb_spec cp 2048); [|destruct (Z.ltb_spec cp 65536); [|destruct (Z.leb_spec cp 1114111); [|done]]].
  - intros [= <-]. specialize (Ht 1%nat). destruct (utf8_tail 1 cp []). destruct (Z.ltb_spec cp 65536); cbn in *; lia.
  - intros [= <-]. specialize (Ht 2%nat). destruct (utf8_tail 2 cp []). cbn in *. lia.
  - intros [= <-]. specialize (Ht 3%nat). destruct (utf8_tail 3 cp []). cbn in *. lia.
Qed.

Lemma hex_digit_range c v : hex_digit c = Some v -> 0 <= v < 16.
Proof.
  unfold hex_digit. destruct (_ && _) eqn:E1; [intros [= <-]; lia|]. destruct ((65 <=? _) && _) eqn:E2; [intros [= <-]; lia|].
  destruct ((97 <=? _) && _) eqn:E3; [intros [= <-]; lia|done].
Qed.

Lemma parse_hex4_range input : 0 <= parse_hex4 input < 65536.
Proof.
  unfold parse_hex4.
  assert (Hd : forall c, match hex_digit c with Some v => 0 <= v < 16 | None => True end)
    by (intros c; destruct (hex_digit c) eqn:E; [by apply hex_digit_range in E|done]).
  destruct input as [|a input]; [cbn; lia|]. pose proof (Hd a). destruct input as [|b input]; cbn [take hex4_loop].
  { destruct (hex_digit a); [cbn|]; lia. }
  pose proof (Hd b). destruct input as [|c input]; cbn [take hex4_loop].
  { destruct (hex_digit a), (hex_digit b); rewrite ?Z.shiftl_mul_pow2 by lia; lia. }
  pose proof (Hd c). destruct input as [|d input]; cbn [take hex4_loop].
  { destruct (hex_digit a), (hex_digit b), (hex_digit c); rewrite ?Z.shiftl_mul_pow2 by lia; lia. }
  pose proof (Hd d). rewrite firstn_O. cbn [hex4_loop]. destruct (hex_digit a), (hex_digit b), (hex_digit c), (hex_digit d); rewrite ?Z.shiftl_mul_pow2 by lia; lia.
Qed.

Lemma hex4_at_some text i : (i + 4 <= length text)%nat -> exists v, hex4_at text i = Some v /\ 0 <= v < 65536.
Proof.
  intros Hi. unfold hex4_at. rewrite (proj2 (Nat.leb_le _ _) Hi). eexists. split; [done|]. apply parse_hex4_range.
Qed.

(** A sequence is read inside the literal, and what it stands for is half as long. *)
Lemma utf16_in_bounds text p e :
  (e < length text)%nat -> (p + 1 <= e)%nat ->
  exists n bytes, utf16_literal_to_utf8 text p e = Some (n, bytes) /\
    (n = 0 \/ (n = 6 \/ n = 12) /\ p + n <= e /\ length bytes + length bytes <= n)%nat.
Proof.
  intros He Hp. unfold utf16_literal_to_utf8. destruct (Nat.ltb_spec e (p + 6)); [by eexists _, _; split; [done|left]|].
  destruct (hex4_at_some text (p + 2)) as (v & -> & Hv); [lia|].
  destruct ((0xDC00 <=? v) && (v <=? 0xDFFF)); [by eexists _, _; split; [done|left]|].
  assert (Henc : forall k cp, (k = 6 /\ (cp < 65536)%Z \/ k = 12)%nat -> (p + k <= e)%nat ->
     exists n bytes, Some (encoded k cp) = Some (n, bytes) /\
       (n = 0 \/ (n = 6 \/ n = 12) /\ p + n <= e /\ length bytes + length bytes <= n)%nat).
  { intros k cp Hk Hpk. unfold encoded. destruct (utf8_encode cp) as [s|] eqn:Eu; [|by eexists _, _; split; [done|left]].
    apply utf8_encode_length in Eu. eexists _, _. split; [done|]. right. destruct Hk as [[-> Hc]| ->].
    - rewrite (proj2 (Z.ltb_lt _ _) Hc) in Eu. lia.
    - destruct (cp <? 65536); lia. }
  destruct ((0xD800 <=? v) && (v <=? 0xDBFF)); [|apply Henc; [left; lia|lia]].
  destruct (Nat.ltb_spec e (p + 6 + 6)); [by eexists _, _; split; [done|left]|].
  destruct (lookup_lt_is_Some_2 text (p + 6)) as [c0 ->]; [lia|]. destruct (lookup_lt_is_Some_2 text (p + 7)) as [c1 ->]; [lia|].
  destruct (_ || _); [by eexists _, _; split; [done|left]|]. destruct (hex4_at_some text (p + 8)) as (w & -> & Hw); [lia|].
  destruct (_ || _); [by eexists _, _; split; [done|left]|]. apply Henc; [by right|lia].
Qed.

(** The second pass reads inside the text and writes inside the block, although its
    escapes need not be those of the first pass. *)
Lemma unescape_in_bounds text start n s :
  scan (drop start text) = Some (n, s) ->
  forall fuel p out,
    (start <= p <= start + n + 1)%nat -> (start + n <= p + fuel)%nat ->
    (length out + escapes_before (drop start text) (p - start) <= p - start)%nat ->
    match unescape fuel text p (start + n) (n + 1 - s + 1) out with
    | Text _ => True
    | BadAt _ => True
    | _ => False
    end.
Proof.
  intros Hs. set (l := drop start text). pose proof (scan_marks _ _ _ Hs) as (Hn & _ & Hq). rewrite lookup_drop in Hq.
  pose proof (lookup_lt_Some _ _ _ Hq) as He.
  assert (Htot : forall i, (n <= i)%nat -> escapes_before l i = s) by (intros i Hi; by apply (escapes_total l n)).
  assert (Hle : forall i, (escapes_before l i <= s)%nat) by (intros i; by apply (escapes_bound l n)).
  assert (Hsn : (s <= n)%nat).
  { rewrite <- (Htot n) by lia. clear. induction n as [|k IH]; [done|]. rewrite escapes_succ. destruct (bool_decide _); lia. }
  assert (Hrest : forall k i, (escapes_before l (i + k) <= escapes_before l i + k)%nat).
  { intros k. induction k as [|k IH]; intros i; [rewrite Nat.add_0_r; lia|]. rewrite Nat.add_succ_r, escapes_succ. specialize (IH i). destruct (bool_decide _); lia. }
  assert (Hfit : forall p o, (start <= p <= start + n + 1)%nat -> (o + escapes_before l (p - start) <= p - start)%nat -> (o < n + 1 - s + 1)%nat).
  { intros p o Hp Ho. destruct (Nat.le_gt_cases n (p - start)) as [Hnp|Hnp]; [rewrite Htot in Ho by done; lia|].
    pose proof (Hrest (n - (p - start))%nat (p - start)%nat) as Hr. rewrite (Htot (p - start + (n - (p - start)))%nat) in Hr by lia. lia. }
  induction fuel as [|fuel IH]; intros p out Hp Hf Ho; cbn [unescape].
  { rewrite (proj2 (Nat.ltb_ge p (start + n))) by lia. cbn [negb]. by rewrite (proj2 (Nat.ltb_lt _ _) (Hfit p _ Hp Ho)). }
  destruct (Nat.ltb_spec p (start + n)) as [Hlt|Hge]; cbn [negb]; [|by rewrite (proj2 (Nat.ltb_lt _ _) (Hfit p _ Hp Ho))].
  destruct (lookup_lt_is_Some_2 text p) as [c Hc]; [lia|]. rewrite Hc.
  (* one step of [k] bytes *)
  assert (Hput : forall bytes k, (1 <= k)%nat -> (p + k <= start + n + 1)%nat ->
    (length bytes + escapes_before l (p + k - start) <= escapes_before l (p - start) + k)%nat ->
    match (if (length out + length bytes <=? n + 1 - s + 1)%nat then unescape fuel text (p + k) (start + n) (n + 1 - s + 1) (out ++ bytes) else OutOfBounds) with
    | Text _ | BadAt _ => True | _ => False end).
  { intros bytes k Hk Hpk Hb. assert (Hi : (length (out ++ bytes) + escapes_before l (p + k - start) <= p + k - start)%nat) by (rewrite length_app; lia).
    pose proof (Hfit (p + k)%nat _ ltac:(lia) Hi) as Hcap. rewrite length_app in Hcap. rewrite (proj2 (Nat.leb_le _ _)) by lia. apply IH; [lia|lia|done]. }
  case_bool_decide as Hb; cbn [negb].
  - rewrite (proj2 (Nat.ltb_ge (start + n) (p + 1))) by lia. destruct (lookup_lt_is_Some_2 text (p + 1)) as [x ->]; [lia|].
    destruct (escape x) as [y|].
    + apply Hput; [lia|lia|]. replace (p + 2 - start)%nat with (p - start + 2)%nat by lia. pose proof (escapes_two l (p - start)). cbn. lia.
    + destruct (u8 x =? 117); [|done]. destruct (utf16_in_bounds text p (start + n)) as (k & bytes & -> & Hk); [lia|lia|].
      destruct k as [|k]; [done|]. destruct Hk as [|(Hk & Hpk & Hlen)]; [done|]. apply Hput; [lia|lia|].
      assert (Hpairs : exists j, (S k = 2 * j)%nat) by (destruct Hk as [->| ->]; [by exists 3%nat|by exists 6%nat]). destruct Hpairs as [j Hj].
      pose proof (escapes_pairs l (p - start) j) as Hpr. replace (p + S k - start)%nat with (p - start + 2 * j)%nat by lia. lia.
  - apply Hput; [lia|lia|]. replace (p + 1 - start)%nat with (S (p - start)) by lia. rewrite escapes_succ.
    rewrite bool_decide_eq_false_2; [cbn; lia|]. intros Hm. apply marks_backslash in Hm as [Hm _]. subst l. rewrite lookup_drop in Hm.
    replace (start + (p - start))%nat with p in Hm by lia. congruence.
Qed.

(** ** Every read and write is inside, and every block is accounted for *)

(** The text stays, the nesting is restored and the position moves forward. *)
Record advanced (b b' : parse_buffer) : Prop := mkAdvanced {
  adv_content : content b' = content b;
  adv_depth : depth b' = depth b;
  adv_offset : (offset b < offset b' <= length (content b))%nat
}.

(** A call that succeeds leaves [size] of its result in memory, one that fails [left_]. *)
Definition sound {A} (b : parse_buffer) (size : A -> Z) (left_ : Z) (o : outcome A) : Prop :=
  match o with
  | Done a b' => advanced b b' /\ live (mem b') = live (mem b) + size a
  | Failed b' => content b' = content b /\ live (mem b') = live (mem b) + left_
  | Stray | NoFuel => False
  end.

Lemma byte_at_some b i : (offset b + i < length (content b))%nat -> exists c, byte_at b i = Some c.
Proof. intros H. by apply lookup_lt_is_Some_2. Qed.

Lemma can_access_spec b i : can_access_at_index b i = true <-> (offset b + i < length (content b))%nat.
Proof. apply Nat.ltb_lt. Qed.

Lemma count_while_le p l : (count_while p l <= length l)%nat.
Proof. induction l as [|c l IH]; [done|]. cbn. destruct (p c); lia. Qed.

(** White space is skipped, not beyond the last byte. *)
Record skipped (b b' : parse_buffer) : Prop := mkSkipped {
  sk_content : content b' = content b;
  sk_depth : depth b' = depth b;
  sk_mem : mem b' = mem b;
  sk_forward : (offset b <= offset b')%nat;
  sk_inside : (offset b < length (content b))%nat -> (offset b' < length (content b))%nat;
  sk_within : (offset b <= length (content b))%nat -> (offset b' <= length (content b))%nat
}.

Lemma skip_whitespace_spec b : skipped b (buffer_skip_whitespace b).
Proof.
  unfold buffer_skip_whitespace, can_access_at_index. rewrite Nat.add_0_r.
  destruct (Nat.ltb_spec (offset b) (length (content b))); cbn [negb]; [|split; done || lia].
  pose proof (count_while_le (fun c => (u8 c <=? 32)%Z) (drop (offset b) (content b))) as Hc. rewrite length_drop in Hc.
  destruct (Nat.eqb_spec (offset b + count_while (fun c => (u8 c <=? 32)%Z) (drop (offset b) (content b))) (length (content b)));
    split; cbn [at_offset offset content depth mem]; done || lia.
Qed.

Section Sound.
Context (hooks : nat -> bool).

Lemma allocate_spec b :
  let (ok, b') := allocate hooks b in
  content b' = content b /\ depth b' = depth b /\ offset b' = offset b /\ live (mem b') = live (mem b) + (if ok then 1 else 0).
Proof. unfold allocate. destruct (hooks _); cbn; split_and!; done || lia. Qed.

Lemma parse_string_sound b : (offset b < length (content b))%nat -> sound b (fun _ => 1) 0 (parse_string hooks b).
Proof.
  intros Ho. unfold parse_string. destruct (byte_at_some b 0) as [c ->]; [lia|].
  destruct (negb _); [cbn; split; [done|lia]|]. destruct (scan _) as [[n s]|] eqn:Es; [|cbn; split; [done|lia]].
  pose proof (scan_marks _ _ _ Es) as (_ & _ & Hq). rewrite lookup_drop in Hq. pose proof (lookup_lt_Some _ _ _ Hq) as He.
  pose proof (allocate_spec b) as Ha. destruct (allocate hooks b) as [[] b1]; destruct Ha as (Hc & Hd & Hof & Hl); cbn [negb]; [|cbn; split; [done|lia]].
  rewrite Hc. replace (offset b + 1 + n - offset b - s + 1)%nat with (n + 1 - s + 1)%nat by lia.
  pose proof (unescape_in_bounds (content b) (offset b + 1) n s Es n (offset b + 1)%nat [] ltac:(lia) ltac:(lia)) as Hu.
  rewrite Nat.sub_diag in Hu. specialize (Hu ltac:(done)). destruct (unescape _ _ _ _ _ _) as [out|p| |]; [| |done|done].
  - cbn. split; [constructor; cbn; [done|done|lia]|lia].
  - cbn. split; [done|lia].
Qed.

Lemma span_digits_length s : (length (fst (span_digits s)) + length (snd (span_digits s)) = length s)%nat.
Proof.
  induction s as [|c s IH]; [done|]. cbn [span_digits]. destruct (is_digit c); [|done]. destruct (span_digits s). cbn in *. lia.
Qed.

Lemma strtod_used s : (snd (strtod s) <= length s)%nat.
Proof.
  unfold strtod. destruct (sign_of s). destruct (span_digits l). destruct (fraction _). destruct (_ && _); [cbn; lia|].
  destruct (exponent _). cbn. lia.
Qed.

Lemma parse_number_sound b : (offset b < length (content b))%nat -> sound b (fun n => blocks n - 1) 0 (parse_number hooks b).
Proof.
  intros Ho. unfold parse_number. pose proof (allocate_spec b) as Ha.
  destruct (allocate hooks b) as [[] b1]; destruct Ha as (Hc & Hd & Hof & Hl); cbn [negb]; [|cbn; split; [done|lia]].
  set (s := take _ _). pose proof (strtod_used s) as Hu. destruct (strtod s) as [d used]. cbn [snd] in Hu.
  assert (Hs : (length s <= length (content b) - offset b)%nat) by (subst s; rewrite length_take, length_drop; lia).
  destruct (Nat.eqb_spec used 0); [cbn; split; [done|lia]|]. cbn [sound]. change (blocks (number_node d)) with 1.
  cbn. split; [constructor; cbn; [done|done|lia]|lia].
Qed.

Lemma starts_some b lit : (offset b + length (bytes_of lit) <= length (content b))%nat -> exists x, starts b lit = Some x.
Proof.
  unfold starts. intros H.
  assert (Hl : (length (bytes_of lit) <= length (drop (offset b) (content b)))%nat) by (rewrite length_drop; lia).
  clear H. revert Hl. generalize (drop (offset b) (content b)) as t. induction (bytes_of lit) as [|x l IH]; intros t Hl; [by eexists|].
  destruct t as [|c t]; [cbn in Hl; lia|]. cbn [strncmp_eq]. case_bool_decide; [|by eexists]. apply IH. cbn in Hl. lia.
Qed.

Lemma blocks_all_app l k : blocks_all (l ++ k) = blocks_all l + blocks_all k.
Proof. unfold blocks_all. induction l as [|n l IH]; cbn [app fold_right]; [done|]. rewrite IH. lia. Qed.

Lemma blocks_named name n : nstring n = None -> has_flag (ntype n) cJSON_StringIsConst = false -> blocks (with_name name n) = blocks n + 1.
Proof. destruct n as [t v i d s c]. cbn [nstring ntype with_name blocks]. intros -> ->. unfold present at 2 4. lia. Qed.

(** What the parser makes is unnamed and owns its texts. *)
Definition plain_node (n : cJSON) : Prop := nstring n = None /\ has_flag (ntype n) cJSON_StringIsConst = false.

(** [sound], of a call that makes a node. *)
Definition sound_value (b : parse_buffer) (o : outcome cJSON) : Prop :=
  sound b (fun n => blocks n - 1) 0 o /\ match o with Done n _ => plain_node n | _ => True end.

Lemma parse_list_sound g o c node elements b :
  (forall l, blocks (node l) = 1 + blocks_all l /\ plain_node (node l)) -> (offset b < length (content b))%nat ->
  (forall b1, content b1 = content b -> (offset b <= offset b1)%nat -> (offset b1 + 1 < length (content b))%nat ->
     sound b1 blocks_all 0 (elements b1)) ->
  sound_value b (parse_list g o c node elements b).
Proof.
  intros Hnode Ho Hel. unfold parse_list. destruct (_ <=? depth b)%nat; [cbn; split; [split; [done|lia]|done]|].
  assert (Hb1 : exists b1, b1 = at_depth b (depth b + 1)) by eauto. destruct Hb1 as [b1 E1]. rewrite <- E1.
  assert (F : content b1 = content b /\ depth b1 = (depth b + 1)%nat /\ offset b1 = offset b /\ mem b1 = mem b) by (by subst b1).
  clear E1. destruct F as (F1 & F2 & F3 & F4). destruct (g && _); [cbn; split; [split; [done|rewrite F4; lia]|done]|].
  destruct (byte_at_some b1 0) as [x ->]; [rewrite F1, F3; lia|]. destruct (negb _); [cbn; split; [split; [done|rewrite F4; lia]|done]|].
  destruct (skip_whitespace_spec (at_offset b1 (offset b1 + 1))) as [Kc Kd Km Kf Ki Kw].
  set (b3 := buffer_skip_whitespace _) in *. clearbody b3. cbn [at_offset content depth mem offset] in *. rewrite F1, F2, F3, F4 in *.
  destruct (can_access_at_index b3 0) eqn:Ea; cbn [negb]; [|cbn; split; [split; [done|cbn; rewrite Km; lia]|done]].
  apply can_access_spec in Ea. destruct (byte_at_some b3 0) as [y ->]; [done|]. rewrite Kc in Ea.
  assert (Hclose : forall b' head, content b' = content b -> depth b' = (depth b + 1)%nat ->
    (offset b < offset b' + 1 <= length (content b))%nat -> live (mem b') = live (mem b) + blocks_all head ->
    sound_value b (close_list node b' head)).
  { intros b' head E1 E2 E3 E4. destruct (Hnode head) as [Hb Hp]. split; [|done]. cbn [sound close_list]. rewrite Hb.
    split; [constructor; cbn; [done|lia|lia]|cbn; lia]. }
  destruct (u8 y =? c); [apply Hclose; [done|done|lia|rewrite Km; cbn; lia]|].
  specialize (Hel (at_offset b3 (offset b3 - 1))). cbn [at_offset content offset] in Hel. specialize (Hel Kc ltac:(lia) ltac:(lia)).
  destruct (elements _) as [head b4|b4| |]; [| |done|done].
  - destruct Hel as [[A1 A2 A3] Hl]. cbn [at_offset content offset depth mem] in *. rewrite Kc in A1, A3. rewrite Km in Hl.
    destruct (can_access_at_index b4 0) eqn:Eb; cbn [negb]; [|cbn; split; [split; [done|cbn; lia]|done]].
    apply can_access_spec in Eb. destruct (byte_at_some b4 0) as [z ->]; [done|]. rewrite A1 in Eb.
    destruct (negb _); [cbn; split; [split; [done|cbn; lia]|done]|]. apply Hclose; [done|lia|lia|done].
  - destruct Hel as [A1 Hl]. cbn [at_offset content mem] in *. cbn. split; [|done]. split; [congruence|]. rewrite Hl, Km. done.
Qed.

Lemma parse_name_sound b : (offset b < length (content b))%nat ->
  sound b (fun _ => 1) (-1) (parse_name hooks b) /\
  match parse_name hooks b with Done _ b' => (offset b' < length (content b))%nat | _ => True end.
Proof.
  intros Ho. unfold parse_name. destruct (can_access_at_index b 1) eqn:Ea; cbn [negb]; [|cbn; split; [split; [done|lia]|done]].
  apply can_access_spec in Ea. destruct (skip_whitespace_spec (at_offset b (offset b + 1))) as [Kc Kd Km Kf Ki Kw].
  cbn [at_offset content depth mem offset] in *. specialize (Ki Ea). set (b1 := buffer_skip_whitespace _) in *. clearbody b1.
  pose proof (parse_string_sound b1 ltac:(rewrite Kc; lia)) as Hs. destruct (parse_string hooks b1) as [name b2|b2| |]; [| |done|done].
  - destruct Hs as [[A1 A2 A3] Hl]. destruct (skip_whitespace_spec b2) as [Lc Ld Lm Lf Li Lw]. set (b3 := buffer_skip_whitespace b2) in *. clearbody b3.
    rewrite Km in Hl. rewrite Kc in A1, A3. rewrite A1 in Lc, Li, Lw.
    destruct (can_access_at_index b3 0) eqn:Eb; cbn [negb]; [|cbn; split; [split; [done|cbn; rewrite Lm; lia]|done]].
    apply can_access_spec in Eb. destruct (byte_at_some b3 0) as [c ->]; [done|]. rewrite Lc in Eb.
    destruct (negb _); [cbn; split; [split; [done|cbn; rewrite Lm; lia]|done]|].
    cbn. split; [split; [constructor; [done|lia|lia]|rewrite Lm; lia]|lia].
  - destruct Hs as [A1 Hl]. cbn. split; [|done]. split; [congruence|]. cbn. rewrite Hl, Km. lia.
Qed.

Lemma at_comma_some b : exists x, at_comma b = Some x /\ (x = true -> (offset b < length (content b))%nat).
Proof.
  unfold at_comma. destruct (can_access_at_index b 0) eqn:E; [|by exists false].
  apply can_access_spec in E. destruct (byte_at_some b 0) as [c ->]; [done|]. eexists. split; [done|]. lia.
Qed.

Definition elements_sound (b : parse_buffer) (done_ : list cJSON) (o : outcome (list cJSON)) : Prop :=
  sound b (fun l => blocks_all l - blocks_all done_) (- blocks_all done_) o.

Definition value_fuel (fuel : nat) : Prop :=
  forall b, (offset b <= length (content b))%nat -> (2 * (length (content b) - offset b) + 2 <= fuel)%nat -> sound_value b (parse_value hooks fuel b).

Definition list_fuel (parse : nat -> parse_buffer -> list cJSON -> outcome (list cJSON)) (fuel : nat) : Prop :=
  forall b done_, (offset b < length (content b))%nat -> (2 * (length (content b) - offset b) + 1 <= fuel)%nat -> elements_sound b done_ (parse fuel b done_).

(** After a value: the loop goes on at a comma, with a list that is larger by [v]. *)
Lemma next_sound parse fuel b b1 b2 done_ v extra :
  list_fuel parse fuel -> content b1 = content b -> depth b1 = depth b -> (offset b < offset b1)%nat ->
  live (mem b1) = live (mem b) + extra -> (2 * (length (content b) - offset b) <= fuel)%nat ->
  advanced b1 b2 -> live (mem b2) = live (mem b1) + (blocks v - extra) ->
  elements_sound b done_ (match at_comma (buffer_skip_whitespace b2) with
                    | None => Stray
                    | Some true => parse fuel (buffer_skip_whitespace b2) (done_ ++ [v])
                    | Some false => Done (done_ ++ [v]) (buffer_skip_whitespace b2)
                    end).
Proof.
  intros IH Hc Hd Ho Hl Hf [A1 A2 A3] Hm. destruct (skip_whitespace_spec b2) as [Lc Ld Lm Lf Li Lw].
  set (b3 := buffer_skip_whitespace b2) in *. clearbody b3. rewrite Hc in A1, A3. rewrite A1 in Lc, Li, Lw.
  assert (Hv : blocks_all (done_ ++ [v]) = blocks_all done_ + blocks v) by (rewrite blocks_all_app; cbn; lia).
  destruct (at_comma_some b3) as (x & -> & Hx). destruct x.
  - specialize (Hx eq_refl). rewrite Lc in Hx. specialize (IH b3 (done_ ++ [v])). rewrite Lc in IH. specialize (IH Hx ltac:(lia)).
    unfold elements_sound in *. rewrite Hv in IH. destruct (parse _ _ _) as [l b4|b4| |]; [| |done|done].
    + destruct IH as [[B1 B2 B3] Hb]. split; [constructor; [congruence|congruence|rewrite Lc in B3; lia]|]. rewrite Hb, Lm. lia.
    + destruct IH as [B1 Hb]. split; [congruence|]. rewrite Hb, Lm. lia.
  - split; [constructor; [done|lia|lia]|]. rewrite Lm, Hv. lia.
Qed.

(** The buffer a value is parsed from, and what the first allocation has done. *)
Lemma before_value b : 
  let b' := buffer_skip_whitespace (at_offset b (offset b + 1)) in
  (offset b < length (content b))%nat ->
  content b' = content b /\ depth b' = depth b /\ mem b' = mem b /\ (offset b < offset b' <= length (content b))%nat.
Proof.
  intros b' Ho. destruct (skip_whitespace_spec (at_offset b (offset b + 1))) as [Kc Kd Km Kf Ki Kw]. subst b'.
  cbn [at_offset content depth mem offset] in *. split_and!; try done; lia.
Qed.

Lemma elements_step fuel : value_fuel fuel -> list_fuel (parse_elements hooks) fuel -> list_fuel (parse_elements hooks) (S fuel).
Proof.
  intros IHv IHe b done_ Ho Hf. cbn [parse_elements]. pose proof (allocate_spec b) as Ha. destruct (allocate hooks b) as [ok b1].
  destruct Ha as (Hc & Hd & Hof & Hl). destruct ok; cbn [negb]; [|cbn; split; [done|cbn; lia]].
  destruct (before_value b1) as (Kc & Kd & Km & Ko); [rewrite Hc, Hof; lia|]. set (b2 := buffer_skip_whitespace _) in *. clearbody b2.
  destruct (IHv b2) as [Hs _]; [rewrite Kc, Hc in *; lia|rewrite Kc, Hc in *; lia|].
  destruct (parse_value hooks fuel b2) as [v b3|b3| |]; [| |done|done].
  - destruct Hs as [Hadv Hm]. apply (next_sound (parse_elements hooks) fuel b b2 b3 done_ v 1); try done; try lia; try congruence.
  - destruct Hs as [A1 Hm]. cbn. split; [congruence|]. cbn. rewrite Hm, Km. lia.
Qed.

Lemma members_step fuel : value_fuel fuel -> list_fuel (parse_members hooks) fuel -> list_fuel (parse_members hooks) (S fuel).
Proof.
  intros IHv IHe b done_ Ho Hf. cbn [parse_members]. pose proof (allocate_spec b) as Ha. destruct (allocate hooks b) as [ok b1].
  destruct Ha as (Hc & Hd & Hof & Hl). destruct ok; cbn [negb]; [|cbn; split; [done|cbn; lia]].
  destruct (parse_name_sound b1 ltac:(rewrite Hc, Hof; lia)) as [Hn Hin]. destruct (parse_name hooks b1) as [name b2|b2| |]; [| |done|done].
  2:{ destruct Hn as [A1 Hm]. cbn. split; [congruence|]. cbn. rewrite Hm. lia. }
  destruct Hn as [[A1 A2 A3] Hm]. destruct (before_value b2) as (Kc & Kd & Km & Ko); [rewrite A1; lia|].
  set (b3 := buffer_skip_whitespace _) in *. clearbody b3.
  destruct (IHv b3) as [Hs Hp]; [rewrite Kc in *; lia|rewrite Kc, A1, Hc in *; lia|].
  destruct (parse_value hooks fuel b3) as [v b4|b4| |]; [| |done|done].
  - destruct Hs as [Hadv Hmv]. destruct Hp as [Hp1 Hp2].
    apply (next_sound (parse_members hooks) fuel b b3 b4 done_ (with_name name v) 2); try done; try lia; try congruence.
    + rewrite Km. lia.
    + rewrite blocks_named by done. lia.
  - destruct Hs as [B1 Hmv]. cbn. split; [congruence|]. cbn. rewrite Hmv, Km. lia.
Qed.

(** A literal: the text is there, so that it is compared inside. *)
Lemma literal_some b lit n :
  length (bytes_of lit) = n -> exists x, (if can_read b n then starts b lit else Some false) = Some x /\ (x = true -> (offset b + n <= length (content b))%nat).
Proof.
  intros Hn. destruct (can_read b n) eqn:E; [|by exists false]. apply Nat.leb_le in E.
  destruct (starts_some b lit) as [x Hx]; [lia|]. by exists x.
Qed.

Lemma constant_sound b t i n : (0 < n)%nat -> (offset b + n <= length (content b))%nat -> has_flag t cJSON_IsReference = false -> has_flag t cJSON_StringIsConst = false ->
  sound_value b (Done (Node t None i zero None []) (at_offset b (offset b + n))).
Proof.
  intros Hn Ho Hr Hc. split; [|done]. split; [constructor; cbn; done || lia|]. cbn [at_offset mem blocks fold_right]. rewrite Hr, Hc. cbn. lia.
Qed.

Lemma value_step fuel : list_fuel (parse_elements hooks) fuel -> list_fuel (parse_members hooks) fuel -> value_fuel (S fuel).
Proof.
  intros IHe IHm b Ho Hf. cbn [parse_value].
  destruct (literal_some b "null" 4 eq_refl) as (x & -> & Hx). destruct x; [apply constant_sound; auto; lia|].
  destruct (literal_some b "false" 5 eq_refl) as (y & -> & Hy). destruct y; [apply constant_sound; auto; lia|].
  destruct (literal_some b "true" 4 eq_refl) as (z & -> & Hz). destruct z; [apply constant_sound; auto; lia|].
  destruct (can_access_at_index b 0) eqn:Ea; cbn [negb]; [|split; [split; [done|lia]|done]].
  apply can_access_spec in Ea. destruct (byte_at_some b 0) as [c ->]; [done|].
  assert (Hlist : forall parse b1, list_fuel parse fuel -> content b1 = content b -> (offset b <= offset b1)%nat ->
    (offset b1 + 1 < length (content b))%nat -> sound b1 blocks_all 0 (parse fuel b1 [])).
  { intros parse b1 IH Hc H1 H2. specialize (IH b1 []). rewrite Hc in IH. specialize (IH ltac:(lia) ltac:(lia)). unfold elements_sound in IH.
    destruct (parse fuel b1 []); cbn in *; try done. destruct IH as [IH ->]. split; [done|]. unfold blocks_all. lia. }
  assert (Hnode : forall t l, has_flag t cJSON_IsReference = false -> has_flag t cJSON_StringIsConst = false ->
    blocks (Node t None 0 zero None l) = 1 + blocks_all l /\ plain_node (Node t None 0 zero None l)).
  { intros t l H1 H2. cbn [blocks]. rewrite H1, H2. unfold blocks_all. cbn [present]. split; [lia|]. by split. }
  case_bool_decide.
  - pose proof (parse_string_sound b ltac:(lia)) as Hs. destruct (parse_string hooks b) as [s b1|b1| |]; [|by split|done|done]. by split.
  - destruct (_ || _).
    { pose proof (parse_number_sound b ltac:(lia)) as Hs. split; [done|]. unfold parse_number. destruct (allocate hooks b) as [ok b1].
      destruct ok; [|done]. cbn [negb]. destruct (strtod _). by destruct (Nat.eqb _ _). }
    destruct (u8 c =? 91); [apply parse_list_sound; [intros l; by apply Hnode|lia|intros b1 ? ? ?; by apply Hlist]|].
    destruct (u8 c =? 123); [apply parse_list_sound; [intros l; by apply Hnode|lia|intros b1 ? ? ?; by apply Hlist]|].
    split; [split; [done|lia]|done].
Qed.

Lemma parse_all_sound fuel : value_fuel fuel /\ list_fuel (parse_elements hooks) fuel /\ list_fuel (parse_members hooks) fuel.
Proof.
  induction fuel as [|fuel (IHv & IHe & IHm)].
  - split_and!; intros b; intros; lia.
  - split_and!; [by apply value_step|by apply elements_step|by apply members_step].
Qed.

Lemma skip_bom_spec b : offset b = 0%nat -> exists b', skip_utf8_bom b = Some b' /\ content b' = content b /\ mem b' = mem b /\ depth b' = depth b /\ (offset b' <= length (content b))%nat.
Proof.
  intros Ho. unfold skip_utf8_bom. rewrite Ho. cbn [Nat.eqb negb]. destruct (_ && _) eqn:E; eexists; split_and!; try done; [|lia].
  apply andb_true_iff in E as [E _]. apply can_access_spec in E. cbn. lia.
Qed.

(** C18: parsing is safe and does not leak, whatever the text and whichever allocations
    fail: no read is outside the text and no write outside the block of a string, the
    recursion ends, a document that is returned owns exactly the blocks that were added
    to the memory and ends inside the text, and a parse that fails leaves the memory as
    it was, the error inside the text. *)
Theorem cJSON_parse_memory_safe value require_null_terminated m :
  match cJSON_ParseWithLengthOpts hooks value require_null_terminated m with
  | Parsed item parse_end m' => exists text, value = Some text /\ (parse_end <= length text)%nat /\ live m' = live m + blocks item
  | Rejected position m' =>
    live m' = live m /\ match value, position with Some text, Some p => (p < length text \/ text = [])%nat | None, None => True | _, _ => False end
  | Wild => False
  end.
Proof.
  unfold cJSON_ParseWithLengthOpts. destruct value as [[|x text]|]; [cbn; auto| |cbn; auto].
  set (t := x :: text). assert (Ht : (0 < length t)%nat) by (cbn; lia). clearbody t.
  pose proof (allocate_spec (mkBuf t 0 0 m)) as Ha. destruct (allocate hooks _) as [ok b]. destruct Ha as (Hc & _ & Ho & Hl). cbn [content offset mem] in *.
  assert (Hpos : forall b' : parse_buffer, content b' = t -> (error_position b' < length t \/ t = [])%nat).
  { intros b' E. left. unfold error_position. rewrite E. destruct (Nat.ltb_spec (offset b') (length t)); lia. }
  destruct ok; cbn [negb]; [|split; [lia|by apply Hpos]].
  destruct (skip_bom_spec b Ho) as (b1 & -> & Bc & Bm & Bd & Bo). destruct (skip_whitespace_spec b1) as [Kc Kd Km Kf Ki Kw].
  set (b2 := buffer_skip_whitespace b1) in *. clearbody b2. rewrite Bc, Hc in *. specialize (Kw Bo).
  destruct (proj1 (parse_all_sound (fuel_for t)) b2) as [Hs _]; [rewrite Kc; lia|unfold fuel_for; rewrite Kc; lia|].
  destruct (parse_value hooks (fuel_for t) b2) as [item b3|b3| |]; [| |done|done].
  2:{ destruct Hs as [A1 Hm]. split; [cbn; rewrite Hm, Km, Bm; lia|apply Hpos; congruence]. }
  destruct Hs as [[A1 A2 A3] Hm]. rewrite Kc in A1, A3. destruct require_null_terminated.
  - destruct (skip_whitespace_spec b3) as [Lc Ld Lm Lf Li Lw]. set (b4 := buffer_skip_whitespace b3) in *. clearbody b4. rewrite A1 in Lc, Li, Lw.
    assert (Hrej : live (mem (deallocate (blocks item) b4)) = live m /\ (error_position b4 < length t \/ t = [])%nat).
    { split; [cbn; rewrite Lm, Hm, Km, Bm; lia|by apply Hpos]. }
    destruct (can_access_at_index b4 0) eqn:Ea; cbn [negb]; [|done].
    apply can_access_spec in Ea. destruct (byte_at_some b4 0) as [c ->]; [done|]. destruct (negb _); [done|].
    exists t. split_and!; [done|lia|rewrite Lm, Hm, Km, Bm; lia].
  - exists t. split_and!; [done|lia|rewrite Hm, Km, Bm; lia].
Qed.
End Sound.
