(* ===== verification/CjsonPrint.v ===== *)
(** * The JSON writer of the firmware

    The printer of cJSON 1.7.19,
    [src/firmware/managed_components/espressif__cjson/cJSON/cJSON.c].

    The output is written into a block whose bytes are arbitrary before they are
    written ([junk]); a read or a write outside the block is [Astray].  The size of the
    block is the length of its list of bytes, so that [p->length] is not kept apart: it
    is 0 exactly when the block is gone or empty.  Sizes are natural numbers compared
    with [INT_MAX] as the code does; [ensure] keeps every one of them below
    [2 * INT_MAX], so that no [size_t] wraps, on the 32-bit target either.  [text_of] is
    the document's text as one function, which the printer is shown to write. *)

From S2P Require Import Prelude AuditLog KeyPolicy Double Cjson.

(** [allocate] succeeds as [serves] says; [reallocate] is there only with the
    allocator of the C library. *)
Record internal_hooks : Type := mkHooks { serves : nat -> bool; has_reallocate : bool }.

(** A function of the hooks: the one of the C library or the program's own. *)
Inductive allocator : Type := libc | custom (answers : nat -> bool).

(** [heap]: when [malloc] succeeds.  Whether the program's own functions release a block
    makes no difference here, so that [free_fn] says only if there is one. *)
Definition cJSON_InitHooks (heap : nat -> bool) (hooks : option (option allocator * option allocator)) : internal_hooks :=
  match hooks with
  | None => mkHooks heap true
  | Some (malloc_fn, free_fn) =>
    let allocate := default libc malloc_fn in
    let deallocate := default libc free_fn in
    mkHooks (match allocate with libc => heap | custom answers => answers end)
            (match allocate, deallocate with libc, libc => true | _, _ => false end)
  end.

Record printbuffer : Type := mkPrint {
  buffer : option (list byte);
  poffset : nat;
  pdepth : nat;
  noalloc : bool;
  format : bool;
  pmem : Mem
}.

Inductive step : Type :=
| Wrote (p : printbuffer)
| Unable (p : printbuffer)
| Astray.

Notation "p '<~' a ';;' k" := (match a with Wrote p => k | Unable q => Unable q | Astray => Astray end)
  (at level 100, a at next level, right associativity).

Definition with_buffer (p : printbuffer) (b : option (list byte)) : printbuffer :=
  mkPrint b (poffset p) (pdepth p) (noalloc p) (format p) (pmem p).
Definition advance (n : nat) (p : printbuffer) : printbuffer :=
  mkPrint (buffer p) (poffset p + n) (pdepth p) (noalloc p) (format p) (pmem p).
Definition at_pdepth (d : nat) (p : printbuffer) : printbuffer :=
  mkPrint (buffer p) (poffset p) d (noalloc p) (format p) (pmem p).
Definition with_pmem (p : printbuffer) (m : Mem) : printbuffer :=
  mkPrint (buffer p) (poffset p) (pdepth p) (noalloc p) (format p) m.

(** Writes [bytes] at the position; the position stays. *)
Definition write (bytes : list byte) (p : printbuffer) : step :=
  match buffer p with
  | Some b =>
    if (poffset p + length bytes <=? length b)%nat
    then Wrote (with_buffer p (Some (take (poffset p) b ++ bytes ++ drop (poffset p + length bytes) b)))
    else Astray
  | None => Astray
  end.

Fixpoint strlen (s : list byte) : option nat :=
  match s with
  | [] => None
  | c :: s => if bool_decide (c = x00) then Some 0%nat else S <$> strlen s
  end.

Definition update_offset (p : printbuffer) : step :=
  match buffer p with
  | None => Wrote p
  | Some b => match strlen (drop (poffset p) b) with Some n => Wrote (advance n p) | None => Astray end
  end.

Section Printer.
Context (hooks : internal_hooks) (junk : nat -> list byte).

(** [size] fresh bytes. *)
Definition fresh (k size : nat) : list byte := take size (junk k ++ replicate size x00).

(** The request for a block: the number of it, whether it is served. *)
Definition request (m : Mem) : bool * Mem :=
  (serves hooks (made m), mkMem (S (made m)) (if serves hooks (made m) then live m + 1 else live m)).

Definition release (n : Z) (m : Mem) : Mem := mkMem (made m) (live m - n).

(** [reallocate] of a block to [size]: what was there stays, up to the smaller size. *)
Definition resized (b : list byte) (k size : nat) : list byte := take size b ++ drop (length b) (fresh k size).

Definition ensure (needed : nat) (p : printbuffer) : step :=
  match buffer p with
  | None => Unable p
  | Some b =>
    if ((0 <? length b) && (length b <=? poffset p))%nat then Unable p
    else if INT_MAX <? Z.of_nat needed then Unable p
    else
      let needed := (needed + (poffset p + 1))%nat in
      if (needed <=? length b)%nat then Wrote p
      else if noalloc p then Unable p
      else if (INT_MAX / 2 <? Z.of_nat needed) && (INT_MAX <? Z.of_nat needed) then Unable p
      else
        let newsize := if INT_MAX / 2 <? Z.of_nat needed then Z.to_nat INT_MAX else (needed * 2)%nat in
        let (served, m) := request (pmem p) in
        let k := made (pmem p) in
        if has_reallocate hooks then
          if served then Wrote (with_pmem (with_buffer p (Some (resized b k newsize))) (release 1 m))
          else Unable (with_pmem (with_buffer p None) (release 1 m))
        else if served then
          if (length b <? poffset p + 1)%nat then Astray
          else Wrote (with_pmem (with_buffer p (Some (take (poffset p + 1) b ++ drop (poffset p + 1) (fresh k newsize)))) (release 1 m))
        else Unable (with_pmem (with_buffer p None) (release 1 m))
  end.

(** [ensure] of [needed] bytes, then [bytes] written. *)
Definition put (needed : nat) (bytes : list byte) (p : printbuffer) : step := p <~ ensure needed p ;; write bytes p.

(** ** Values *)

(** The temporary text has 26 bytes. *)
Definition print_number (n : cJSON) (p : printbuffer) : step :=
  let text := number_text (valuedouble n) (valueint n) in
  if (25 <? length text)%nat then Astray
  else
    p <~ put (length text + 1) (text ++ [x00]) p ;;
    Wrote (advance (length text) p).

Definition hex_lower (v : Z) : byte := to_u8 (if v <? 10 then 48 + v else 87 + v).

(** The letter of a short escape. *)
Definition short_escape (c : byte) : option byte :=
  let v := u8 c in
  if v =? 92 then Some c
  else if v =? 34 then Some c
  else if v =? 8 then Some (to_u8 98)
  else if v =? 12 then Some (to_u8 102)
  else if v =? 10 then Some (to_u8 110)
  else if v =? 13 then Some (to_u8 114)
  else if v =? 9 then Some (to_u8 116)
  else None.

(** What one byte of a text becomes: ["u%04x"] of a byte has two leading zeros. *)
Definition escaped_byte (c : byte) : list byte :=
  if (31 <? u8 c) && negb (u8 c =? 34) && negb (u8 c =? 92) then [c]
  else
    BACKSLASH :: match short_escape c with
                 | Some x => [x]
                 | None => [to_u8 117; to_u8 48; to_u8 48; hex_lower (u8 c / 16); hex_lower (u8 c mod 16)]
                 end.

Definition escaped (s : list byte) : list byte := flat_map escaped_byte s.

(** How many bytes the first pass adds for a byte. *)
Definition escape_size (c : byte) : nat :=
  match short_escape c with Some _ => 1%nat | None => if u8 c <? 32 then 5%nat else 0%nat end.

(** [input] is a C string; its end is the first NUL. *)
Definition print_string_ptr (input : option (list byte)) (p : printbuffer) : step :=
  match input with
  | None => put 3 [QUOTE; QUOTE; x00] p
  | Some s =>
    let s := c_str s in
    let escape_characters := list_sum (map escape_size s) in
    let output_length := (length s + escape_characters)%nat in
    p <~ ensure (output_length + 3) p ;;
    if Nat.eqb escape_characters 0 then write (QUOTE :: s ++ [QUOTE; x00]) p
    else
      (* the closing quote is written where the length says *)
      p <~ write (QUOTE :: escaped s) p ;;
      match write [QUOTE; x00] (advance (output_length + 1) p) with
      | Wrote q => Wrote (with_buffer p (buffer q))
      | o => o
      end
  end.

Definition TAB : byte := to_u8 9.
Definition LF : byte := to_u8 10.

Section Children.
Context (print_value : cJSON -> printbuffer -> step).

Fixpoint print_elements (l : list cJSON) (p : printbuffer) : step :=
  match l with
  | [] => Wrote p
  | n :: l =>
    p <~ print_value n p ;;
    p <~ update_offset p ;;
    match l with
    | [] => Wrote p
    | _ =>
      let comma := to_u8 44 :: (if format p then [to_u8 32] else []) in
      p <~ put (length comma + 1) (comma ++ [x00]) p ;;
      print_elements l (advance (length comma) p)
    end
  end.

Definition print_member (n : cJSON) (last : bool) (p : printbuffer) : step :=
  p <~ (if format p
        then let d := pdepth p in p <~ put d (replicate d TAB) p ;; Wrote (advance d p)
        else Wrote p) ;;
  p <~ print_string_ptr (nstring n) p ;;
  p <~ update_offset p ;;
  let colon := to_u8 58 :: (if format p then [TAB] else []) in
  p <~ put (length colon) colon p ;;
  p <~ print_value n (advance (length colon) p) ;;
  p <~ update_offset p ;;
  let comma := (if last then [] else [to_u8 44]) ++ (if format p then [LF] else []) in
  p <~ put (length comma + 1) (comma ++ [x00]) p ;;
  Wrote (advance (length comma) p).

Fixpoint print_members (l : list cJSON) (p : printbuffer) : step :=
  match l with
  | [] => Wrote p
  | n :: l =>
    p <~ print_member n (bool_decide (l = [])) p ;;
    print_members l p
  end.
End Children.

Definition print_array (print_elements : list cJSON -> printbuffer -> step) (l : list cJSON) (p : printbuffer) : step :=
  if (CJSON_NESTING_LIMIT <=? pdepth p)%nat then Unable p
  else
    p <~ put 1 [to_u8 91] p ;;
    p <~ print_elements l (at_pdepth (pdepth p + 1) (advance 1 p)) ;;
    p <~ put 2 [to_u8 93; x00] p ;;
    Wrote (at_pdepth (pdepth p - 1) p).

Definition print_object (print_members : list cJSON -> printbuffer -> step) (l : list cJSON) (p : printbuffer) : step :=
  if (CJSON_NESTING_LIMIT <=? pdepth p)%nat then Unable p
  else
    let open_ := to_u8 123 :: (if format p then [LF] else []) in
    p <~ put (length open_ + 1) open_ p ;;
    p <~ print_members l (advance (length open_) (at_pdepth (pdepth p + 1) p)) ;;
    p <~ put (if format p then pdepth p + 1 else 2)
             ((if format p then replicate (pdepth p - 1) TAB else []) ++ [to_u8 125; x00]) p ;;
    Wrote (at_pdepth (pdepth p - 1) p).

Fixpoint print_value (n : cJSON) (p : printbuffer) {struct n} : step :=
  match n with
  | Node t v _ _ _ c =>
    let kind := Z.land t 255 in
    if kind =? cJSON_NULL then put 5 (bytes_of "null" ++ [x00]) p
    else if kind =? cJSON_False then put 6 (bytes_of "false" ++ [x00]) p
    else if kind =? cJSON_True then put 5 (bytes_of "true" ++ [x00]) p
    else if kind =? cJSON_Number then print_number n p
    else if kind =? cJSON_Raw then
      match v with
      | None => Unable p
      | Some raw => put (length (c_str raw) + 1) (c_str raw ++ [x00]) p
      end
    else if kind =? cJSON_String then print_string_ptr v p
    else if kind =? cJSON_Array then print_array (print_elements print_value) c p
    else if kind =? cJSON_Object then print_object (print_members print_value) c p
    else Unable p
  end.

(** ** The entry points *)

Inductive printed : Type :=
| Printed (text : list byte) (m : Mem)
| Unprinted (m : Mem)
| Overrun.

Definition default_buffer_size : nat := 256.

(** The blocks a failed print still owns: its buffer. *)
Definition owned (p : printbuffer) : Z := present (buffer p).

(** The text is what a reader of the C string sees. *)
Definition print (n : option cJSON) (fmt : bool) (m : Mem) : printed :=
  let (served, m1) := request m in
  if negb served then Unprinted m1
  else
    match n with
    | None => Unprinted (release 1 m1)
    | Some n =>
      match print_value n (mkPrint (Some (fresh (made m) default_buffer_size)) 0 0 false fmt m1) with
      | Astray => Overrun
      | Unable p => Unprinted (release (owned p) (pmem p))
      | Wrote p =>
        match update_offset p with
        | Astray => Overrun
        | Unable p => Unprinted (release (owned p) (pmem p))
        | Wrote p =>
          match buffer p with
          | None => Overrun
          | Some b =>
            let (served, m2) := request (pmem p) in
            let k := made (pmem p) in
            if negb served then Unprinted (release 1 m2)
            else if has_reallocate hooks then Printed (c_str (resized b k (poffset p + 1))) (release 1 m2)
            else
              let n := Nat.min (length b) (poffset p + 1) in
              (* the last byte is set to NUL *)
              Printed (c_str (take (poffset p) (take n b ++ drop n (fresh k (poffset p + 1))))) (release 1 m2)
          end
        end
      end
    end.

Definition cJSON_Print (n : option cJSON) (m : Mem) : printed := print n true m.
Definition cJSON_PrintUnformatted (n : option cJSON) (m : Mem) : printed := print n false m.

Definition cJSON_PrintBuffered (n : option cJSON) (prebuffer : Z) (fmt : bool) (m : Mem) : printed :=
  if prebuffer <? 0 then Unprinted m
  else
    let (served, m1) := request m in
    if negb served then Unprinted m1
    else
      match n with
      | None => Unprinted (release 1 m1)
      | Some n =>
        match print_value n (mkPrint (Some (fresh (made m) (Z.to_nat prebuffer))) 0 0 false fmt m1) with
        | Astray => Overrun
        | Unable p => Unprinted (release (owned p) (pmem p))
        | Wrote p => match buffer p with Some b => Printed (c_str b) (pmem p) | None => Overrun end
        end
      end.

(** [target] is the caller's buffer of [length target] bytes; the result and the buffer
    afterwards. *)
Definition cJSON_PrintPreallocated (n : option cJSON) (target : option (list byte)) (fmt : bool) (m : Mem) : option (bool * list byte) :=
  match target, n with
  | None, _ => Some (false, [])
  | Some b, None => Some (false, b)
  | Some b, Some n =>
    match print_value n (mkPrint (Some b) 0 0 true fmt m) with
    | Astray => None
    | Unable p => Some (false, default [] (buffer p))
    | Wrote p => Some (true, default [] (buffer p))
    end
  end.
End Printer.

(** ** The text of a document *)

Definition quoted (s : option (list byte)) : list byte := QUOTE :: escaped (c_str (default [] s)) ++ [QUOTE].

Section Texts.
Context (text_of : cJSON -> option (list byte)) (fmt : bool) (d : nat).

Fixpoint elements_text (l : list cJSON) : option (list byte) :=
  match l with
  | [] => Some []
  | n :: l =>
    match text_of n, elements_text l with
    | Some t, Some r =>
      Some (t ++ (match l with [] => [] | _ => to_u8 44 :: (if fmt then [to_u8 32] else []) end) ++ r)
    | _, _ => None
    end
  end.

Definition member_text (n : cJSON) (last : bool) : option (list byte) :=
  (fun t =>
     (if fmt then replicate d TAB else []) ++ quoted (nstring n) ++ to_u8 58 :: (if fmt then [TAB] else []) ++
     t ++ (if last then [] else [to_u8 44]) ++ (if fmt then [LF] else [])) <$> text_of n.

Fixpoint members_text (l : list cJSON) : option (list byte) :=
  match l with
  | [] => Some []
  | n :: l =>
    match member_text n (bool_decide (l = [])), members_text l with
    | Some t, Some r => Some (t ++ r)
    | _, _ => None
    end
  end.
End Texts.

Definition array_text (r : list byte) : list byte := to_u8 91 :: r ++ [to_u8 93].

Definition object_text (fmt : bool) (d : nat) (r : list byte) : list byte :=
  to_u8 123 :: (if fmt then [LF] else []) ++ r ++ (if fmt then replicate d TAB else []) ++ [to_u8 125].

(** [None] for a document that has no text: an item of no known type, raw text that is
    missing, nesting that is too deep. *)
Fixpoint text_of (fmt : bool) (d : nat) (n : cJSON) {struct n} : option (list byte) :=
  match n with
  | Node t v i x _ c =>
    let kind := Z.land t 255 in
    if kind =? cJSON_NULL then Some (bytes_of "null")
    else if kind =? cJSON_False then Some (bytes_of "false")
    else if kind =? cJSON_True then Some (bytes_of "true")
    else if kind =? cJSON_Number then Some (number_text x i)
    else if kind =? cJSON_Raw then c_str <$> v
    else if kind =? cJSON_String then Some (quoted v)
    else if kind =? cJSON_Array then
      if (CJSON_NESTING_LIMIT <=? d)%nat then None else array_text <$> elements_text (text_of fmt (d + 1)) fmt c
    else if kind =? cJSON_Object then
      if (CJSON_NESTING_LIMIT <=? d)%nat then None else object_text fmt d <$> members_text (text_of fmt (d + 1)) fmt (d + 1) c
    else None
  end.

(** ** The printer writes the text *)

Lemma cJSON_induction (P : cJSON -> Prop) :
  (forall t v i d s c, Forall P c -> P (Node t v i d s c)) -> forall n, P n.
Proof.
  intros H. fix IH 1. intros [t v i d s c]. apply H. induction c as [|n c IHc]; constructor; [apply IH|apply IHc].
Qed.

(** The numbers of every node are of their types. *)
Fixpoint typed_node (n : cJSON) : Prop :=
  let 'Node _ _ i d _ c := n in binary64 d /\ INT_MIN <= i <= INT_MAX /\ fold_right (fun n P => typed_node n /\ P) True c.

Lemma typed_children t v i d s c : typed_node (Node t v i d s c) <-> binary64 d /\ INT_MIN <= i <= INT_MAX /\ Forall typed_node c.
Proof.
  cbn [typed_node].
  assert (E : fold_right (fun n P => typed_node n /\ P) True c <-> Forall typed_node c).
  { induction c as [|n c IH]; cbn [fold_right].
    - split; [constructor|done].
    - split; [intros [H1 H2]; constructor; tauto|intros H; inversion H; subst; tauto]. }
  tauto.
Qed.

Lemma nul_free_not_in s : nul_free s -> x00 ∉ s.
Proof. induction 1 as [|c s Hc _ IH]; [apply not_elem_of_nil|]. apply not_elem_of_cons. split; [|done]. intros <-. by apply Hc. Qed.

Lemma c_str_nul_free s : nul_free (c_str s).
Proof.
  induction s as [|c s IH]; [constructor|]. cbn [c_str]. case_bool_decide as Hc; [constructor|]. constructor; [|done].
  intros Hu. apply Hc. rewrite <- (to_u8_u8 c), Hu. by vm_compute.
Qed.

Lemma c_str_prefix s r : nul_free s -> c_str (s ++ x00 :: r) = s.
Proof.
  induction 1 as [|c s Hc _ IH]; cbn [app c_str]; [by rewrite bool_decide_eq_true_2|].
  rewrite bool_decide_eq_false_2, IH; [done|]. intros ->. by apply Hc.
Qed.

Lemma strlen_prefix s r : nul_free s -> strlen (s ++ x00 :: r) = Some (length s).
Proof.
  induction 1 as [|c s Hc _ IH]; cbn [app strlen]; [by rewrite bool_decide_eq_true_2|].
  rewrite bool_decide_eq_false_2, IH; [done|]. intros ->. by apply Hc.
Qed.

Lemma escape_size_spec c : length (escaped_byte c) = (1 + escape_size c)%nat /\ nul_free (escaped_byte c) \/ u8 c = 0.
Proof.
  assert (H : forallb (fun v => let c := to_u8 (Z.of_nat v) in (Nat.eqb (length (escaped_byte c)) (1 + escape_size c)) && forallb (fun x => negb (u8 x =? 0)) (escaped_byte c) || (u8 c =? 0)) (seq 0 256) = true) by (by vm_compute).
  rewrite forallb_forall in H. pose proof (u8_range c) as Hc. specialize (H (Z.to_nat (u8 c))). rewrite in_seq in H. specialize (H ltac:(lia)).
  cbn zeta in H. rewrite Z2Nat.id, to_u8_u8 in H by lia. apply orb_true_iff in H as [H|H]; [left|right; lia].
  apply andb_true_iff in H as [Hl Hn]. split; [by apply Nat.eqb_eq|]. rewrite forallb_forall in Hn. apply List.Forall_forall. intros x Hx. specialize (Hn x Hx). lia.
Qed.

Lemma escaped_length s : nul_free s -> length (escaped s) = (length s + list_sum (map escape_size s))%nat /\ nul_free (escaped s).
Proof.
  induction 1 as [|c s Hc _ [IHl IHn]]; [split; [done|constructor]|]. change (escaped (c :: s)) with (escaped_byte c ++ escaped s).
  destruct (escape_size_spec c) as [[Hl Hn]|]; [|done]. rewrite length_app, Hl, IHl. 
  split; [|by apply nul_free_app]. change (list_sum (map escape_size (c :: s))) with (escape_size c + list_sum (map escape_size s))%nat. cbn [length]. lia.
Qed.

Lemma escaped_plain s : list_sum (map escape_size s) = 0%nat -> escaped s = s.
Proof.
  induction s as [|c s IH]; intros H; [done|]. cbn [map] in H. change (list_sum (escape_size c :: map escape_size s)) with (escape_size c + list_sum (map escape_size s))%nat in H.
  change (escaped (c :: s)) with (escaped_byte c ++ escaped s). rewrite IH by lia. assert (Hz : escape_size c = 0%nat) by lia.
  unfold escape_size in Hz. unfold escaped_byte. destruct (short_escape c) eqn:E; [done|]. unfold short_escape in E.
  destruct (u8 c =? 92), (u8 c =? 34); try done. destruct (Z.ltb_spec (u8 c) 32); [done|]. rewrite (proj2 (Z.ltb_lt 31 (u8 c))) by lia. done.
Qed.

Lemma nul_free_cons c s : u8 c <> 0 -> nul_free s -> nul_free (c :: s).
Proof. by constructor. Qed.

Ltac nul_parts :=
  repeat match goal with
  | |- nul_free (_ ++ _) => apply nul_free_app; split
  | |- nul_free (_ :: _) => apply nul_free_cons; [by vm_compute|]
  | |- nul_free [] => constructor
  end.

Lemma literal_nul_free (l : list byte) : forallb (fun c => negb (u8 c =? 0)) l = true -> nul_free l.
Proof. intros H. apply List.Forall_forall. rewrite forallb_forall in H. intros x Hx. specialize (H x Hx). lia. Qed.

Lemma quoted_nul_free s : nul_free (quoted s).
Proof.
  unfold quoted. constructor; [by vm_compute|]. apply nul_free_app. split; [|repeat constructor; by vm_compute].
  apply escaped_length, c_str_nul_free.
Qed.

Lemma texts_nul_free text fmt d l :
  Forall (fun n => forall t, text n = Some t -> nul_free t) l ->
  (forall t, elements_text text fmt l = Some t -> nul_free t) /\ (forall t, members_text text fmt d l = Some t -> nul_free t).
Proof.
  pose proof literal_nul_free as Hc.
  induction 1 as [|n l Hn _ [IHe IHm]]; cbn [elements_text members_text].
  - split; intros t [= <-]; constructor.
  - unfold member_text. destruct (text n) as [t|]; [|done]. specialize (Hn t eq_refl). cbn [fmap option_fmap option_map]. split.
    + destruct (elements_text text fmt l) as [r|]; [|done]. intros ? [= <-]. nul_parts; [done| |by apply IHe]. apply Hc. by destruct l, fmt.
    + destruct (members_text text fmt d l) as [r|]; [|done]. intros ? [= <-]. nul_parts; try done; try (by apply IHm); try (apply escaped_length, c_str_nul_free); try (by apply Hc; destruct fmt); try (by apply Hc; destruct (bool_decide _)).
      destruct fmt; [|constructor]. apply Forall_replicate. by vm_compute.
Qed.

Lemma text_of_nul_free fmt n : forall d t, text_of fmt d n = Some t -> nul_free t.
Proof.
  induction n as [ty v i x s c IH] using cJSON_induction. intros d t. cbn [text_of].
  pose proof literal_nul_free as Hc.
  destruct (texts_nul_free (text_of fmt (d + 1)) fmt (d + 1) c) as [He Hm]; [eapply Forall_impl; [|exact IH]; intros n Hn; apply Hn|].
  repeat match goal with |- context [if _ =? ?k then _ else _] => destruct (_ =? k) end; try done.
  all: try (intros [= <-]; by apply Hc).
  - intros [= <-]. apply number_text_nul_free.
  - destruct v; [|done]. intros [= <-]. apply c_str_nul_free.
  - intros [= <-]. apply quoted_nul_free.
  - destruct (_ <=? _)%nat; [done|]. destruct (elements_text _ _ _) as [r|]; [|done]. intros [= <-]. unfold array_text. nul_parts. by apply He.
  - destruct (_ <=? _)%nat; [done|]. destruct (members_text _ _ _ _) as [r|]; [|done]. intros [= <-]. unfold object_text. nul_parts; [by apply Hc; destruct fmt|by apply Hm|]. destruct fmt; [|constructor]. apply Forall_replicate. by vm_compute.
Qed.

Section Correct.
Context (hooks : internal_hooks) (junk : nat -> list byte).

(** [total] bytes of output can be had. *)
Definition budget (p : printbuffer) (total : nat) : Prop :=
  Z.of_nat total <= INT_MAX /\
  if noalloc p then match buffer p with Some b => (total <= length b)%nat | None => False end
  else forall k, serves hooks k = true.

Definition kept (p p' : printbuffer) : Prop :=
  noalloc p' = noalloc p /\ format p' = format p /\ live (pmem p') = live (pmem p) /\
  (noalloc p = true -> length <$> buffer p' = length <$> buffer p).

(** [pre] is written and the position is after it. *)
Definition ready (p : printbuffer) (pre : list byte) : Prop :=
  exists rest, buffer p = Some (pre ++ rest) /\ poffset p = length pre /\
    (rest <> [] \/ pre = [] /\ rest = [] /\ (has_reallocate hooks = true \/ noalloc p = true)).

Definition ready_after (p : printbuffer) (pre t : list byte) : Prop := ready p (pre ++ t).

(** [t] is written after [pre], and its NUL; the position is not beyond that. *)
Definition written (p : printbuffer) (pre t : list byte) : Prop :=
  exists rest, buffer p = Some (pre ++ t ++ x00 :: rest) /\ (length pre <= poffset p <= length pre + length t)%nat.

Definition balanced (p p' : printbuffer) : Prop := live (pmem p') - owned p' = live (pmem p) - 1.

(** A step writes the text if it has one; it refuses only when there is none or no
    budget for it and two bytes more, and then owns what it owned or nothing. *)
Definition does (Q : printbuffer -> list byte -> list byte -> Prop) (d : nat) (p : printbuffer) (pre : list byte)
    (ot : option (list byte)) (o : step) : Prop :=
  match o with
  | Wrote p' => exists t, ot = Some t /\ Q p' pre t /\ kept p p' /\ pdepth p' = d
  | Unable p' => balanced p p' /\ forall t, ot = Some t -> ~ budget p (length pre + length t + 2)
  | Astray => False
  end.

Definition joined (a b : option (list byte)) : option (list byte) :=
  match a, b with Some a, Some b => Some (a ++ b) | _, _ => None end.

Definition extendable (Q : printbuffer -> list byte -> list byte -> Prop) : Prop :=
  forall p pre t1 t2, Q p (pre ++ t1) t2 -> Q p pre (t1 ++ t2).

Lemma written_extends : extendable written.
Proof.
  intros p pre t1 t2 (rest & Hb & Ho). exists rest. rewrite length_app in *. rewrite <- !app_assoc in *. split; [done|lia].
Qed.

Lemma ready_extends : extendable ready_after.
Proof. intros p pre t1 t2 H. unfold ready_after in *. by rewrite app_assoc. Qed.

Lemma kept_trans p q r : kept p q -> kept q r -> kept p r.
Proof.
  intros (A1 & A2 & A3 & A4) (B1 & B2 & B3 & B4). unfold kept. split_and!; try congruence.
  intros H. rewrite B4, A4; congruence.
Qed.

Lemma budget_kept p q n : kept p q -> budget p n -> budget q n.
Proof.
  intros (K1 & _ & _ & K4) [Hi Hb]. split; [done|]. rewrite K1. destruct (noalloc p); [|done]. specialize (K4 eq_refl).
  destruct (buffer p) as [b|]; [|done]. destruct (buffer q) as [c|]; [|done]. cbn in K4. by injection K4 as ->.
Qed.

Lemma budget_le p n m : (m <= n)%nat -> budget p n -> budget p m.
Proof. intros H [Hi Hb]. split; [lia|]. destruct (noalloc p); [destruct (buffer p); [lia|done]|done]. Qed.

(** The first step of two, the rest follows from where it ended. *)
Lemma does_then Q d d1 p pre ot1 ot2 o k :
  extendable Q -> does ready_after d1 p pre ot1 o ->
  (forall p' t, ot1 = Some t -> ready p' (pre ++ t) -> kept p p' -> pdepth p' = d1 -> does Q d p' (pre ++ t) ot2 (k p')) ->
  does Q d p pre (joined ot1 ot2) (p <~ o ;; k p).
Proof.
  intros HQ H1 H2. destruct o as [p1|p1|]; [| |done].
  - destruct H1 as (t & -> & Hr & Hk & Hd). specialize (H2 p1 t eq_refl Hr Hk Hd). destruct (k p1) as [p2|p2|]; [| |done].
    + destruct H2 as (t2 & -> & Hq & Hk2 & Hd2). exists (t ++ t2). split_and!; [done|by apply HQ|by eapply kept_trans|done].
    + destruct H2 as [Hb H2]. split.
      * unfold balanced in *. destruct Hk as (_ & _ & Hk & _). by rewrite Hk in Hb.
      * intros t' E. destruct ot2 as [t2|]; [|done]. injection E as <-. intros Hbud. apply (H2 t2 eq_refl).
        eapply budget_kept; [done|]. eapply budget_le; [|done]. rewrite !length_app. lia.
  - destruct H1 as [Hb H1]. split; [done|]. intros t' E. destruct ot1 as [t|]; [|done]. destruct ot2 as [t2|]; [|done]. injection E as <-.
    intros Hbud. apply (H1 t eq_refl). eapply budget_le; [|done]. rewrite !length_app. lia.
Qed.

Lemma fresh_length k n : length (fresh junk k n) = n.
Proof. unfold fresh. rewrite length_take, length_app, length_replicate. lia. Qed.

Lemma INT_MAX_half : 2 * (INT_MAX / 2) <= INT_MAX.
Proof. by vm_compute. Qed.

Lemma ensure_spec p pre needed :
  ready p pre ->
  match ensure hooks junk needed p with
  | Wrote p' => kept p p' /\ pdepth p' = pdepth p /\ poffset p' = length pre /\ exists rest, buffer p' = Some (pre ++ rest) /\ (needed + 1 <= length rest)%nat
  | Unable p' => balanced p p' /\ ~ budget p (length pre + needed + 1)
  | Astray => False
  end.
Proof.
  intros (rest & Hb & Ho & Hr). unfold ensure. rewrite Hb, Ho. unfold balanced, budget, owned. rewrite Hb, length_app.
  destruct (_ && _)%nat eqn:E1.
  { exfalso. apply andb_true_iff in E1 as [E1 E2]. apply Nat.ltb_lt in E1. apply Nat.leb_le in E2.
    destruct Hr as [Hr|(-> & -> & _)]; [|cbn in *; lia]. destruct rest; [done|cbn in *; lia]. }
  destruct (Z.ltb_spec INT_MAX (Z.of_nat needed)) as [Hbig|Hbig].
  { rewrite Hb. cbn [present]. split; [lia|]. intros [? _]. lia. }
  destruct (Nat.leb_spec (needed + (length pre + 1)) (length pre + length rest)) as [Hfit|Hfit].
  { unfold kept. split_and!; try done. exists rest. split; [done|lia]. }
  destruct (noalloc p) eqn:En; [rewrite Hb; cbn [present]; split; [lia|intros [_ ?]; lia]|].
  destruct ((INT_MAX / 2 <? Z.of_nat (needed + (length pre + 1))) && (INT_MAX <? Z.of_nat (needed + (length pre + 1)))) eqn:E3.
  { rewrite Hb. cbn [present]. split; [lia|]. apply andb_true_iff in E3 as [_ E3]. apply Z.ltb_lt in E3. intros [? _]. lia. }
  set (newsize := if INT_MAX / 2 <? _ then _ else _). pose proof INT_MAX_half.
  assert (Hnew : (needed + (length pre + 1) <= newsize)%nat).
  { subst newsize. destruct (Z.ltb_spec (INT_MAX / 2) (Z.of_nat (needed + (length pre + 1)))); [|lia]. cbn [andb] in E3. apply Z.ltb_ge in E3. lia. }
  clearbody newsize. unfold request. set (k := made (pmem p)). destruct (serves hooks k) eqn:Es.
  - destruct (has_reallocate hooks) eqn:Eh.
    + unfold kept. cbn. rewrite En. split_and!; try done; try lia. exists (rest ++ drop (length (pre ++ rest)) (fresh junk k newsize)).
      unfold resized. rewrite take_ge by (rewrite length_app; lia). rewrite <- app_assoc. split; [done|].
      rewrite length_app, length_drop, fresh_length, length_app. lia.
    + rewrite (proj2 (Nat.ltb_ge _ _)). 2:{ destruct Hr as [Hr|(_ & _ & [?|?])]; [|congruence|congruence]. destruct rest; [done|cbn; lia]. }
      unfold kept. cbn. rewrite En. split_and!; try done; try lia. exists (take 1 rest ++ drop (length pre + 1) (fresh junk k newsize)). split.
      * rewrite app_assoc. do 2 f_equal. rewrite Nat.add_comm. rewrite take_app_ge by lia. do 2 f_equal. lia.
      * destruct rest as [|c rest]; [destruct Hr as [?|(_ & _ & [?|?])]; congruence|]. cbn [take app length]. rewrite take_0. cbn [app]. rewrite length_drop, fresh_length. lia.
  - assert (Hno : ~ (Z.of_nat (length pre + needed + 1) <= INT_MAX /\ forall k, serves hooks k = true)) by (intros [_ Hall]; by rewrite Hall in Es).
    destruct (has_reallocate hooks); cbn; split; try done; lia.
Qed.

(** [bytes] fit the place [ensure] has made. *)
Lemma put_spec p pre needed bytes :
  ready p pre -> (length bytes <= needed + 1)%nat ->
  match put hooks junk needed bytes p with
  | Wrote p' => kept p p' /\ pdepth p' = pdepth p /\ poffset p' = length pre /\
                exists rest, buffer p' = Some (pre ++ bytes ++ rest) /\ (needed + 1 <= length bytes + length rest)%nat
  | Unable p' => balanced p p' /\ ~ budget p (length pre + needed + 1)
  | Astray => False
  end.
Proof.
  intros Hr Hl. unfold put. pose proof (ensure_spec p pre needed Hr) as He. destruct (ensure hooks junk needed p) as [p1|p1|]; [|done|done].
  destruct He as (Hk & Hd & Ho & rest & Hb & Hlen). unfold write. rewrite Hb, Ho, length_app, (proj2 (Nat.leb_le _ _)) by lia.
  split_and!; [|done|done|].
  - eapply kept_trans; [done|]. unfold kept. cbn. split_and!; try done. intros _. rewrite Hb. cbn. f_equal.
    rewrite !length_app, length_take, length_drop, length_app. lia.
  - exists (drop (length bytes) rest). cbn. split.
    + rewrite take_app_length, drop_app_ge by lia. do 4 f_equal. lia.
    + rewrite length_drop. lia.
Qed.

Lemma put_then Q d p pre needed t z ot k :
  extendable Q -> ready p pre -> (length t <= needed <= length t + 1)%nat -> (length z <= needed - length t + 1)%nat ->
  (forall p', ready p' (pre ++ t) -> kept p p' -> pdepth p' = pdepth p -> does Q d p' (pre ++ t) ot (k p')) ->
  does Q d p pre (joined (Some t) ot) (p' <~ put hooks junk needed (t ++ z) p ;; k (advance (length t) p')).
Proof.
  intros HQ Hr Hn Hz Hk. pose proof (put_spec p pre needed (t ++ z) Hr) as Hp. rewrite length_app in Hp. specialize (Hp ltac:(lia)).
  assert (E : (p' <~ put hooks junk needed (t ++ z) p ;; k (advance (length t) p')) =
              (p' <~ (p' <~ put hooks junk needed (t ++ z) p ;; Wrote (advance (length t) p')) ;; k p')) by (by destruct (put _ _ _ _ _)).
  rewrite E. clear E. eapply does_then with (d1 := pdepth p); [done| |intros p' t' Et; injection Et as <-; by apply Hk].
  destruct (put _ _ _ _ _) as [p1|p1|]; [| |done].
  - destruct Hp as (Hk1 & Hd & Ho & rest & Hb & Hlen). exists t. split_and!; [done| |done|done].
    exists (z ++ rest). cbn. rewrite Hb, Ho, length_app, <- !app_assoc. split_and!; [done|done|]. left. intros Hnil.
    apply (f_equal length) in Hnil. rewrite length_app in Hnil. cbn in Hnil. lia.
  - destruct Hp as [Hbal Hbud]. split; [done|]. intros t' Et. injection Et as <-. intros Hb. apply Hbud. eapply budget_le; [|done]. lia.
Qed.

(** As it stands in the code: what is written may have its NUL. *)
Lemma put_on Q d p pre needed t z n bytes ot k :
  bytes = t ++ z -> n = length t -> (length z <= needed - length t + 1)%nat ->
  extendable Q -> ready p pre -> (length t <= needed <= length t + 1)%nat ->
  (forall p', ready p' (pre ++ t) -> kept p p' -> pdepth p' = pdepth p -> does Q d p' (pre ++ t) ot (k p')) ->
  does Q d p pre (joined (Some t) ot) (p' <~ put hooks junk needed bytes p ;; k (advance n p')).
Proof. intros -> ->. intros. by apply put_then. Qed.

Lemma put_ends p pre needed t :
  ready p pre -> (length t <= needed <= length t + 1)%nat -> does written (pdepth p) p pre (Some t) (put hooks junk needed (t ++ [x00]) p).
Proof.
  intros Hr Hn. pose proof (put_spec p pre needed (t ++ [x00]) Hr) as Hp. rewrite length_app in Hp. cbn [length] in Hp. specialize (Hp ltac:(lia)).
  destruct (put _ _ _ _ _) as [p1|p1|]; [| |done].
  - destruct Hp as (Hk1 & Hd & Ho & rest & Hb & Hlen). exists t. split_and!; [done| |done|done].
    exists rest. rewrite Hb, Ho, <- app_assoc. split; [done|lia].
  - destruct Hp as [Hbal Hbud]. split; [done|]. intros t' Et. injection Et as <-. intros Hb. apply Hbud. eapply budget_le; [|done]. lia.
Qed.

(** A value, and the position moved behind it. *)
Lemma value_then Q d d1 p pre ot1 ot2 o k :
  extendable Q -> does written d1 p pre ot1 o -> (forall t, ot1 = Some t -> nul_free t) ->
  (forall p' t, ot1 = Some t -> ready p' (pre ++ t) -> kept p p' -> pdepth p' = d1 -> does Q d p' (pre ++ t) ot2 (k p')) ->
  does Q d p pre (joined ot1 ot2) (p <~ o ;; p <~ update_offset p ;; k p).
Proof.
  intros HQ H1 Hn H2.
  assert (E : (p <~ o ;; p <~ update_offset p ;; k p) = (p <~ (p <~ o ;; update_offset p) ;; k p)) by (by destruct o).
  rewrite E. clear E. eapply does_then; [done| |done]. destruct o as [p1|p1|]; [| |done].
  - destruct H1 as (t & -> & (rest & Hb & Ho) & Hk & Hd). specialize (Hn t eq_refl). unfold update_offset. rewrite Hb.
    assert (Hdrop : drop (poffset p1) (pre ++ t ++ x00 :: rest) = drop (poffset p1 - length pre) t ++ x00 :: rest).
    { rewrite drop_app_ge by lia. rewrite drop_app_le by lia. done. }
    rewrite Hdrop, strlen_prefix by (by apply Forall_drop). exists t. split_and!; [done| |done|done].
    exists (x00 :: rest). cbn. rewrite Hb, length_drop, length_app, <- app_assoc. split_and!; [done|lia|by left].
  - done.
Qed.

Lemma deeper_ends d p pre ot o :
  does written d p pre ot o -> does written (d - 1) p pre ot (p <~ o ;; Wrote (at_pdepth (pdepth p - 1) p)).
Proof. intros H. destruct o as [p1|p1|]; [|done|done]. destruct H as (t & E & Hq & Hk & Hd). exists t. split_and!; try done. cbn. lia. Qed.

Lemma print_number_does n p pre :
  ready p pre -> typed_node n -> does written (pdepth p) p pre (Some (number_text (valuedouble n) (valueint n))) (print_number hooks junk n p).
Proof.
  intros Hr Ht. destruct n as [ty v i x s c]. apply typed_children in Ht as (Hd & Hi & _). cbn [valuedouble valueint]. unfold print_number. cbn [valuedouble valueint].
  rewrite (proj2 (Nat.ltb_ge _ _)) by (by apply number_text_length). set (text := number_text x i).
  pose proof (put_spec p pre (length text + 1) (text ++ [x00]) Hr) as H. rewrite length_app in H. cbn [length] in H. specialize (H ltac:(lia)).
  destruct (put _ _ _ _ _) as [p1|p1|]; [| |done].
  - destruct H as (Hk & Hdp & Ho & rest & Hb & _). exists text. split_and!; [done| |done|done].
    exists rest. cbn. rewrite Hb, Ho, <- app_assoc. split; [done|lia].
  - destruct H as [Hbal Hbud]. split; [done|]. intros t Et. injection Et as <-. intros Hb. apply Hbud. eapply budget_le; [|done]. lia.
Qed.

Lemma print_string_does s p pre : ready p pre -> does written (pdepth p) p pre (Some (quoted s)) (print_string_ptr hooks junk s p).
Proof.
  intros Hr. destruct s as [s|]; [|by apply (put_ends p pre 3 [QUOTE; QUOTE] Hr); cbn; lia].
  unfold print_string_ptr, quoted. change (default [] (Some s)) with s. pose proof (c_str_nul_free s) as Hn. set (u := c_str s) in *. clearbody u.
  destruct (escaped_length u Hn) as [Hl _]. set (x := list_sum _) in *.
  pose proof (put_spec p pre (length u + x + 3) (QUOTE :: escaped u ++ [QUOTE; x00]) Hr) as Hp.
  assert (Hlen : length (QUOTE :: escaped u ++ [QUOTE; x00]) = (length u + x + 3)%nat) by (cbn [length]; rewrite length_app, Hl; cbn [length]; lia).
  rewrite Hlen in Hp. specialize (Hp ltac:(lia)). pose proof (ensure_spec p pre (length u + x + 3) Hr) as He. unfold put in Hp.
  destruct (ensure _ _ _ _) as [p1|p1|]; [| |done].
  2:{ destruct Hp as [Hbal Hbud]. split; [done|]. intros t Et. injection Et as <-. intros Hb. apply Hbud. eapply budget_le; [|done].
      cbn [length]. rewrite length_app, Hl. cbn [length]. lia. }
  assert (Hone : (if Nat.eqb x 0 then write (QUOTE :: u ++ [QUOTE; x00]) p1
          else p2 <~ write (QUOTE :: escaped u) p1 ;;
               match write [QUOTE; x00] (advance (length u + x + 1) p2) with Wrote q => Wrote (with_buffer p2 (buffer q)) | o => o end) =
         write (QUOTE :: escaped u ++ [QUOTE; x00]) p1).
  { destruct (Nat.eqb_spec x 0) as [Hx|Hx]; [by rewrite escaped_plain|].
    destruct He as (_ & _ & Ho & rest & Hb & Hr1). unfold write at 1. rewrite Hb, Ho, length_app. cbn [length]. rewrite Hl, (proj2 (Nat.leb_le _ _)) by lia.
    unfold write at 1. cbn [advance with_buffer buffer poffset]. rewrite Ho. rewrite (proj2 (Nat.leb_le _ _)).
    2:{ rewrite !length_app, length_take, length_drop, length_app. cbn [length]. rewrite Hl. lia. }
    unfold write. rewrite Hb, Ho, Hlen, length_app, (proj2 (Nat.leb_le _ _)) by lia.
    unfold with_buffer. cbn [poffset pdepth noalloc format pmem buffer]. do 3 f_equal. set (b := pre ++ rest). set (t := QUOTE :: escaped u).
    replace (QUOTE :: escaped u ++ [QUOTE; x00]) with (t ++ [QUOTE; x00]) by done.
    assert (Ht : length t = (length u + x + 1)%nat) by (subst t; cbn [length]; lia). clearbody t. cbn [length].
    replace (S (length u + x)) with (length t) by lia. assert (Hpre : length (take (length pre) b) = length pre) by (subst b; rewrite length_take, length_app; lia).
    rewrite take_app_ge by lia. rewrite Hpre. replace (length pre + (length u + x + 1) - length pre)%nat with (length t) by lia.
    rewrite take_app_length. rewrite <- !app_assoc. do 3 f_equal. rewrite drop_app_ge by lia. rewrite Hpre.
    rewrite drop_app_ge by lia. rewrite drop_drop. f_equal. lia. }
  rewrite Hone. destruct (write _ p1) as [p2|p2|]; [| |done].
  - destruct Hp as (Hk & Hd & Ho & rest & Hb & _). exists (QUOTE :: escaped u ++ [QUOTE]). split_and!; [done| |done|done].
    exists rest. rewrite Hb, Ho. split; [|lia]. do 2 f_equal. cbn [app]. by rewrite <- !app_assoc.
  - destruct Hp as [Hbal Hbud]. split; [done|]. intros t Et. injection Et as <-. intros Hb. apply Hbud. eapply budget_le; [|done].
    cbn [length]. rewrite length_app, Hl. cbn [length]. lia.
Qed.

Section Lists.
Context (pv : cJSON -> printbuffer -> step) (text : cJSON -> option (list byte)) (fmt : bool) (d : nat).

(** The printer of values writes the text of [n], which has no NUL. *)
Definition value_ok (n : cJSON) : Prop :=
  (forall p pre, ready p pre -> pdepth p = d -> format p = fmt -> does written d p pre (text n) (pv n p)) /\
  forall t, text n = Some t -> nul_free t.

Lemma elements_text_cons n l :
  elements_text text fmt (n :: l) =
  joined (text n) (match l with [] => Some [] | _ => joined (Some (to_u8 44 :: (if fmt then [to_u8 32] else []))) (elements_text text fmt l) end).
Proof. cbn [elements_text]. destruct (text n) as [t|]; [|done]. destruct l as [|m l]; [done|]. cbn [joined]. by destruct (elements_text _ _ _). Qed.

Lemma member_text_joined n last :
  member_text text fmt d n last =
  joined (Some (if fmt then replicate d TAB else [])) (joined (Some (quoted (nstring n))) (joined (Some (to_u8 58 :: (if fmt then [TAB] else [])))
    (joined (text n) (joined (Some ((if last then [] else [to_u8 44]) ++ (if fmt then [LF] else []))) (Some []))))).
Proof.
  unfold member_text. destruct (text n) as [t|]; [|done]. cbn [fmap option_fmap option_map joined]. f_equal. by rewrite app_nil_r.
Qed.

Lemma ready_same p pre : ready p pre -> pdepth p = d -> does ready_after d p pre (Some []) (Wrote p).
Proof. intros Hr Hd. exists []. split_and!; [done| |done|done]. unfold ready_after. by rewrite app_nil_r. Qed.

Lemma print_elements_does l : Forall value_ok l ->
  forall p pre, ready p pre -> pdepth p = d -> format p = fmt -> does ready_after d p pre (elements_text text fmt l) (print_elements hooks junk pv l p).
Proof.
  induction 1 as [|n l [Hn Hf] _ IH]; intros p pre Hr Hd Hfm; [by apply ready_same|]. rewrite elements_text_cons. cbn [print_elements].
  apply value_then with (d1 := d); [apply ready_extends|by apply Hn|done|]. intros p1 t _ Hr1 Hk1 Hd1.
  destruct Hk1 as (_ & Hf1 & _). destruct l as [|m l]; [by apply ready_same|]. rewrite Hf1, Hfm.
  apply put_then; [apply ready_extends|done|lia|cbn; lia|]. intros p2 Hr2 Hk2 Hd2. apply IH; [done|congruence|]. destruct Hk2 as (_ & Hf2 & _). congruence.
Qed.

Lemma print_member_does n last p pre : value_ok n -> ready p pre -> pdepth p = d -> format p = fmt ->
  does ready_after d p pre (member_text text fmt d n last) (print_member hooks junk pv n last p).
Proof.
  intros [Hn Hf] Hr Hd Hfm. rewrite member_text_joined. unfold print_member. apply does_then with (d1 := d); [apply ready_extends| |].
  { rewrite Hfm, Hd. destruct fmt; [|by apply ready_same]. rewrite <- (app_nil_r (replicate d TAB)) at 1.
    change (Some (replicate d TAB ++ [])) with (joined (Some (replicate d TAB)) (Some [])).
    apply put_on with (z := []) (k := Wrote); rewrite ?app_nil_r, ?length_replicate; try done; try lia; [cbn; lia|apply ready_extends|].
    intros p' Hr' _ Hd'. apply ready_same; congruence. }
  intros p1 t1 _ Hr1 (_ & Hf1 & _) Hd1. apply value_then with (d1 := d); [apply ready_extends|rewrite <- Hd1; by apply print_string_does| |].
  { intros t E. injection E as <-. apply quoted_nul_free. }
  intros p2 t2 _ Hr2 (_ & Hf2 & _) Hd2. assert (Hfm2 : format p2 = fmt) by congruence. rewrite Hfm2. cbn zeta. set (colon := to_u8 58 :: _).
  apply put_on with (z := []) (k := fun p => p <~ pv n p ;; p <~ update_offset p ;; _); rewrite ?app_nil_r; try done; try lia; [cbn; lia|apply ready_extends|].
  intros p3 Hr3 (_ & Hf3 & _) Hd3. apply value_then with (d1 := d); [apply ready_extends|apply Hn; congruence|done|].
  intros p4 t4 _ Hr4 (_ & Hf4 & _) Hd4. assert (Hfm4 : format p4 = fmt) by congruence. rewrite Hfm4. cbn zeta.
  apply put_on with (z := [x00]) (k := Wrote); try done; try lia; [cbn; lia|apply ready_extends|].
  intros p5 Hr5 _ Hd5. apply ready_same; congruence.
Qed.

Lemma print_members_does l : Forall value_ok l ->
  forall p pre, ready p pre -> pdepth p = d -> format p = fmt -> does ready_after d p pre (members_text text fmt d l) (print_members hooks junk pv l p).
Proof.
  induction 1 as [|n l Hn _ IH]; intros p pre Hr Hd Hfm; [by apply ready_same|]. cbn [print_members].
  change (members_text text fmt d (n :: l)) with (joined (member_text text fmt d n (bool_decide (l = []))) (members_text text fmt d l)).
  apply does_then with (d1 := d); [apply ready_extends|by apply print_member_does|]. intros p1 t _ Hr1 (_ & Hf1 & _) Hd1. apply IH; congruence.
Qed.
End Lists.

Lemma print_array_does text fmt c p pre elements :
  ready p pre -> format p = fmt ->
  (forall p' pre', ready p' pre' -> pdepth p' = (pdepth p + 1)%nat -> format p' = fmt ->
     does ready_after (pdepth p + 1) p' pre' (elements_text text fmt c) (elements c p')) ->
  does written (pdepth p) p pre (if (CJSON_NESTING_LIMIT <=? pdepth p)%nat then None else array_text <$> elements_text text fmt c)
    (print_array hooks junk elements c p).
Proof.
  intros Hr Hf He. unfold print_array. destruct (_ <=? _)%nat.
  { split; [|done]. destruct Hr as (rest & Hb & _). unfold balanced, owned. by rewrite Hb. }
  replace (array_text <$> elements_text text fmt c) with (joined (Some [to_u8 91]) (joined (elements_text text fmt c) (Some [to_u8 93])))
    by (by destruct (elements_text text fmt c)).
  apply put_on with (z := []) (k := fun p => p <~ elements c (at_pdepth (pdepth p + 1) p) ;; _); try done; try (cbn; lia); [apply written_extends|].
  intros p1 Hr1 (_ & Hf1 & _) Hd1. cbn [advance pdepth at_pdepth] in *.
  apply (does_then written (pdepth p) (pdepth p + 1) p1); [apply written_extends| |].
  - pose proof (He (at_pdepth (pdepth p1 + 1) p1) (pre ++ [to_u8 91]) Hr1 ltac:(cbn; congruence) ltac:(cbn; congruence)) as H. exact H.
  - intros p2 t _ Hr2 _ Hd2. replace (pdepth p) with (pdepth p + 1 - 1)%nat by lia. apply deeper_ends. rewrite <- Hd2.
    apply (put_ends p2 _ 2 [to_u8 93] Hr2). cbn. lia.
Qed.

Lemma print_object_does text fmt c p pre members :
  ready p pre -> format p = fmt ->
  (forall p' pre', ready p' pre' -> pdepth p' = (pdepth p + 1)%nat -> format p' = fmt ->
     does ready_after (pdepth p + 1) p' pre' (members_text text fmt (pdepth p + 1) c) (members c p')) ->
  does written (pdepth p) p pre (if (CJSON_NESTING_LIMIT <=? pdepth p)%nat then None else object_text fmt (pdepth p) <$> members_text text fmt (pdepth p + 1) c)
    (print_object hooks junk members c p).
Proof.
  intros Hr Hf He. unfold print_object. destruct (_ <=? _)%nat.
  { split; [|done]. destruct Hr as (rest & Hb & _). unfold balanced, owned. by rewrite Hb. }
  replace (object_text fmt (pdepth p) <$> members_text text fmt (pdepth p + 1) c)
    with (joined (Some (to_u8 123 :: (if fmt then [LF] else []))) (joined (members_text text fmt (pdepth p + 1) c)
            (Some ((if fmt then replicate (pdepth p) TAB else []) ++ [to_u8 125])))) by (by destruct (members_text _ _ _ _)).
  rewrite Hf. cbn zeta.
  apply put_on with (z := []) (k := fun p => p <~ members c (at_pdepth (pdepth p + 1) p) ;; _); rewrite ?app_nil_r; try done; try (cbn; lia); [apply written_extends|].
  intros p1 Hr1 (_ & Hf1 & _) Hd1.
  apply (does_then written (pdepth p) (pdepth p + 1) p1); [apply written_extends| |].
  - pose proof (He (at_pdepth (pdepth p1 + 1) p1) (pre ++ to_u8 123 :: (if fmt then [LF] else [])) Hr1 ltac:(cbn; congruence) ltac:(cbn; congruence)) as H. exact H.
  - intros p2 t _ Hr2 (_ & Hf2 & _) Hd2. assert (Hfm2 : format p2 = fmt) by (rewrite Hf2; cbn; congruence). rewrite Hfm2, Hd2.
    replace (pdepth p + 1 - 1)%nat with (pdepth p) by lia. replace (pdepth p) with (pdepth p + 1 - 1)%nat at 1 by lia. apply deeper_ends. rewrite <- Hd2.
    replace ((if fmt then replicate (pdepth p) TAB else []) ++ [to_u8 125; x00]) with (((if fmt then replicate (pdepth p) TAB else []) ++ [to_u8 125]) ++ [x00]) by (by rewrite <- app_assoc).
    apply put_ends; [done|]. rewrite length_app. destruct fmt; [rewrite length_replicate|]; cbn [length]; lia.
Qed.

Lemma print_value_does n : typed_node n -> forall fmt d p pre, ready p pre -> pdepth p = d -> format p = fmt ->
  does written d p pre (text_of fmt d n) (print_value hooks junk n p).
Proof.
  induction n as [t v i x s c IH] using cJSON_induction. intros Ht fmt d p pre Hr <- Hf.
  assert (Hchild : forall d', Forall (value_ok (print_value hooks junk) (text_of fmt d') fmt d') c).
  { intros d'. apply typed_children in Ht as (_ & _ & Hc). revert IH Hc. clear. induction 1 as [|n c Hn _ IH]; intros Hc; constructor; inversion Hc; subst; [|auto].
    split; [intros; by apply Hn|apply text_of_nul_free]. }
  cbn [print_value text_of].
  destruct (_ =? cJSON_NULL); [apply put_ends; [done|cbn; lia]|].
  destruct (_ =? cJSON_False); [apply put_ends; [done|cbn; lia]|].
  destruct (_ =? cJSON_True); [apply put_ends; [done|cbn; lia]|].
  destruct (_ =? cJSON_Number); [by apply (print_number_does (Node t v i x s c))|].
  assert (Hno : does written (pdepth p) p pre None (Unable p)).
  { split; [|done]. destruct Hr as (rest & Hb & _). unfold balanced, owned. by rewrite Hb. }
  destruct (_ =? cJSON_Raw); [destruct v as [raw|]; [by apply put_ends; [|lia]|done]|].
  destruct (_ =? cJSON_String); [by apply print_string_does|].
  destruct (_ =? cJSON_Array); [apply print_array_does; [done|done|]; intros; by apply print_elements_does|].
  destruct (_ =? cJSON_Object); [apply print_object_does; [done|done|]; intros; by apply print_members_does|done].
Qed.

(** The first call, into a fresh block of [size] bytes. *)
Lemma print_first n fmt m m1 size :
  typed_node n -> (0 < size)%nat \/ has_reallocate hooks = true -> live m1 = live m + 1 ->
  let p0 := mkPrint (Some (fresh junk (made m) size)) 0 0 false fmt m1 in
  match print_value hooks junk n p0 with
  | Wrote p => exists t rest, text_of fmt 0 n = Some t /\ buffer p = Some (t ++ x00 :: rest) /\ (poffset p <= length t)%nat /\ live (pmem p) = live m + 1
  | Unable p => live (pmem p) - owned p = live m /\
      forall t, text_of fmt 0 n = Some t -> (forall k, serves hooks k = true) -> INT_MAX < Z.of_nat (length t) + 2
  | Astray => False
  end.
Proof.
  intros Ht Hs Hm p0. assert (Hr : ready p0 []).
  { exists (fresh junk (made m) size). split_and!; [done|done|]. destruct (Nat.eq_dec size 0%nat) as [->|Hne].
    - right. split_and!; [done|done|]. left. destruct Hs; [lia|done].
    - left. intros E. apply (f_equal length) in E. rewrite fresh_length in E. cbn in E. lia. }
  pose proof (print_value_does n Ht fmt 0%nat p0 [] Hr eq_refl eq_refl) as H. destruct (print_value hooks junk n p0) as [p|p|]; [| |done].
  - destruct H as (t & E & (rest & Hb & Ho) & (_ & _ & Hl & _) & _). exists t, rest. cbn in *. split_and!; try done; [lia|]. rewrite Hl. done.
  - destruct H as [Hb H]. unfold balanced in Hb. cbn in Hb. split; [lia|]. intros t E Hk. specialize (H t E).
    destruct (Z.lt_ge_cases INT_MAX (Z.of_nat (length t) + 2)); [done|]. exfalso. apply H. split; [cbn; lia|done].
Qed.

Lemma print_exact n fmt m : typed_node n ->
  match print hooks junk (Some n) fmt m with
  | Printed t m' => text_of fmt 0 n = Some t /\ live m' = live m + 1
  | Unprinted m' => live m' = live m /\
      forall t, text_of fmt 0 n = Some t -> (forall k, serves hooks k = true) -> INT_MAX < Z.of_nat (length t) + 2
  | Overrun => False
  end.
Proof.
  intros Ht. unfold print. unfold request. destruct (serves hooks (made m)) eqn:Es; cbn [negb].
  2:{ split; [done|]. intros t _ Hall. by rewrite Hall in Es. }
  pose proof (print_first n fmt m (mkMem (S (made m)) (live m + 1)) default_buffer_size Ht ltac:(left; unfold default_buffer_size; lia) eq_refl) as H.
  cbn zeta in H. destruct (print_value _ _ _ _) as [p|p|]; [| |done].
  2:{ destruct H as [H1 H2]. split; [done|exact H2]. }
  destruct H as (t & rest & E & Hb & Ho & Hl). pose proof (text_of_nul_free _ _ _ _ E) as Hn. unfold update_offset. rewrite Hb.
  rewrite drop_app_le, strlen_prefix by (done || by apply Forall_drop). cbn [buffer advance pmem poffset]. rewrite Hb, length_drop. unfold request.
  replace (poffset p + (length t - poffset p))%nat with (length t) by lia.
  destruct (serves hooks (made (pmem p))) eqn:Es2; cbn [negb].
  2:{ split; [cbn; lia|]. intros t' _ Hall. by rewrite Hall in Es2. }
  destruct (has_reallocate hooks).
  + split; [|cbn; lia]. rewrite E. f_equal. unfold resized. rewrite take_app_ge by lia. replace (length t + 1 - length t)%nat with 1%nat by lia.
    cbn [take]. rewrite <- app_assoc. cbn [app]. by rewrite c_str_prefix.
  + split; [|cbn; lia]. rewrite E. f_equal. rewrite length_app. cbn [length]. replace (Nat.min _ _) with (length t + 1)%nat by lia.
    rewrite take_app_le by (rewrite length_take, length_app; cbn; lia). rewrite take_take. replace (Nat.min _ _) with (length t) by lia.
    rewrite take_app_length. symmetry. by apply c_str_id, nul_free_not_in.
Qed.

Lemma print_buffered_exact n fmt m : typed_node n ->
  (forall prebuffer, 0 < prebuffer \/ has_reallocate hooks = true ->
   match cJSON_PrintBuffered hooks junk (Some n) prebuffer fmt m with
   | Printed t m' => text_of fmt 0 n = Some t /\ live m' = live m + 1
   | Unprinted m' => live m' = live m
   | Overrun => False
   end).
Proof.
  intros Ht. intros prebuffer Hp. unfold cJSON_PrintBuffered. destruct (Z.ltb_spec prebuffer 0); [done|]. unfold request.
  destruct (serves hooks (made m)) eqn:Es; cbn [negb]; [|done].
  pose proof (print_first n fmt m (mkMem (S (made m)) (live m + 1)) (Z.to_nat prebuffer) Ht ltac:(destruct Hp; [left; lia|by right]) eq_refl) as Hf.
  cbn zeta in Hf. destruct (print_value _ _ _ _) as [p|p|]; [| |done]; [|by destruct Hf].
  destruct Hf as (t & rest & E & Hb & Ho & Hl). rewrite Hb, c_str_prefix by (by eapply text_of_nul_free). by split.
Qed.

Lemma print_preallocated_exact n fmt m : typed_node n ->
  (forall target, Z.of_nat (length target) <= INT_MAX ->
   match cJSON_PrintPreallocated hooks junk (Some n) (Some target) fmt m with
   | Some (true, target') => exists t rest, text_of fmt 0 n = Some t /\ target' = t ++ x00 :: rest /\ length target' = length target
   | Some (false, _) => forall t, text_of fmt 0 n = Some t -> (length target < length t + 2)%nat
   | None => False
   end).
Proof.
  intros Ht. intros target Hl. unfold cJSON_PrintPreallocated. set (p0 := mkPrint (Some target) 0 0 true fmt m).
  assert (Hr : ready p0 []) by (exists target; split_and!; [done|done|]; destruct target; [right; split_and!; auto|by left]).
  pose proof (print_value_does n Ht fmt 0%nat p0 [] Hr eq_refl eq_refl) as H. destruct (print_value hooks junk n p0) as [p|p|]; [| |done].
  + destruct H as (t & E & (rest & Hb & Ho) & (_ & _ & _ & Hlen) & _). specialize (Hlen eq_refl). cbn in Hlen. rewrite Hb in *. cbn [app] in *.
    exists t, rest. split_and!; [done|done|]. cbn in Hlen. by injection Hlen.
  + destruct H as [_ H]. intros t E. specialize (H t E). destruct (Nat.lt_ge_cases (length target) (length t + 2)); [done|]. exfalso. apply H.
    split; [cbn; lia|cbn; lia].
Qed.

(** C19: printing writes exactly the text of the document.  Whatever the allocator does and
    whatever the blocks held before, no byte outside the buffer is read or written, the
    26 bytes for a number are enough, a text that is returned is [text_of] and is the
    only new block, and a print that fails leaves no block.  It fails only when the
    document has no text, an allocation fails or the text does not fit an [int]; a
    caller's buffer that is two bytes longer than the text is always large enough.  (For
    [cJSON_PrintBuffered] the first buffer has at least one byte, or there is a
    [realloc].) *)
Theorem cJSON_print_exact n fmt m : typed_node n ->
  match print hooks junk (Some n) fmt m with
  | Printed t m' => text_of fmt 0 n = Some t /\ live m' = live m + 1
  | Unprinted m' => live m' = live m /\
      forall t, text_of fmt 0 n = Some t -> (forall k, serves hooks k = true) -> INT_MAX < Z.of_nat (length t) + 2
  | Overrun => False
  end /\
  (forall prebuffer, 0 < prebuffer \/ has_reallocate hooks = true ->
   match cJSON_PrintBuffered hooks junk (Some n) prebuffer fmt m with
   | Printed t m' => text_of fmt 0 n = Some t /\ live m' = live m + 1
   | Unprinted m' => live m' = live m
   | Overrun => False
   end) /\
  (forall target, Z.of_nat (length target) <= INT_MAX ->
   match cJSON_PrintPreallocated hooks junk (Some n) (Some target) fmt m with
   | Some (true, target') => exists t rest, text_of fmt 0 n = Some t /\ target' = t ++ x00 :: rest /\ length target' = length target
   | Some (false, _) => forall t, text_of fmt 0 n = Some t -> (length target < length t + 2)%nat
   | None => False
   end).
Proof.
  intros Ht. split_and!; [by apply print_exact|by apply print_buffered_exact|by apply print_preallocated_exact].
Qed.
End Correct.
