(* ===== verification/CjsonRoundtrip.v ===== *)
(** * What is printed parses back

    A document that consists of what the parser itself makes (texts without NUL, numbers
    that are an [int], at most 1000 levels) is printed, formatted or not, to a text that
    the parser of [Cjson] reads as the same document. *)

From S2P Require Import Prelude AuditLog KeyPolicy Double Cjson CjsonPrint.

(** ** Documents *)

(** What a value is made of, apart from its name. *)
Fixpoint plain (n : cJSON) : Prop :=
  let 'Node t v i d _ c := n in
  (t = cJSON_NULL /\ v = None /\ i = 0 /\ d = zero /\ c = []) \/
  (t = cJSON_False /\ v = None /\ i = 0 /\ d = zero /\ c = []) \/
  (t = cJSON_True /\ v = None /\ i = 1 /\ d = zero /\ c = []) \/
  (t = cJSON_Number /\ v = None /\ INT_MIN <= i <= INT_MAX /\ d = double_of_Z i /\ c = []) \/
  (t = cJSON_String /\ (exists s, v = Some s /\ nul_free s) /\ i = 0 /\ d = zero /\ c = []) \/
  (t = cJSON_Array /\ v = None /\ i = 0 /\ d = zero /\ fold_right (fun n P => (plain n /\ nstring n = None) /\ P) True c) \/
  (t = cJSON_Object /\ v = None /\ i = 0 /\ d = zero /\
   fold_right (fun n P => (plain n /\ exists s, nstring n = Some s /\ nul_free s) /\ P) True c).

Definition unnamed (n : cJSON) : cJSON := let 'Node t v i d _ c := n in Node t v i d None c.

Fixpoint height (n : cJSON) : nat :=
  let 'Node t _ _ _ _ c := n in
  if (t =? cJSON_Array) || (t =? cJSON_Object) then S (fold_right (fun n h => Nat.max (height n) h) 0%nat c) else 0%nat.

Definition heights (c : list cJSON) : nat := fold_right (fun n h => Nat.max (height n) h) 0%nat c.

(** [plain], by cases. *)
Inductive plain_view : cJSON -> Prop :=
| PlainNull s : plain_view (Node cJSON_NULL None 0 zero s [])
| PlainFalse s : plain_view (Node cJSON_False None 0 zero s [])
| PlainTrue s : plain_view (Node cJSON_True None 1 zero s [])
| PlainNumber i s : INT_MIN <= i <= INT_MAX -> plain_view (Node cJSON_Number None i (double_of_Z i) s [])
| PlainString v s : nul_free v -> plain_view (Node cJSON_String (Some v) 0 zero s [])
| PlainArray c s : Forall plain c -> Forall (fun n => nstring n = None) c -> plain_view (Node cJSON_Array None 0 zero s c)
| PlainObject c s : Forall plain c -> Forall (fun n => exists k, nstring n = Some k /\ nul_free k) c -> plain_view (Node cJSON_Object None 0 zero s c).

Lemma fold_conj {A} (P : A -> Prop) l : fold_right (fun x Q => P x /\ Q) True l -> Forall P l.
Proof. induction l as [|x l IH]; cbn [fold_right]; [constructor|]. intros [Hx Hl]. constructor; [done|by apply IH]. Qed.

Lemma plain_cases n : plain n -> plain_view n.
Proof.
  destruct n as [t v i d s c]. cbn [plain].
  intros [(-> & -> & -> & -> & ->)|[(-> & -> & -> & -> & ->)|[(-> & -> & -> & -> & ->)|[(-> & -> & Hi & -> & ->)|[(-> & (k & -> & Hk) & -> & -> & ->)|[(-> & -> & -> & -> & Hc)|(-> & -> & -> & -> & Hc)]]]]]].
  all: try by constructor.
  all: apply fold_conj in Hc; constructor; eapply Forall_impl; try exact Hc; cbn; tauto.
Qed.

(** ** Views *)

Definition view (b : parse_buffer) : list byte := drop (offset b) (content b).

Definition moved (b : parse_buffer) (k : nat) (m : Mem) : parse_buffer := mkBuf (content b) (offset b + k) (depth b) m.

Lemma view_byte b c r : view b = c :: r -> byte_at b 0 = Some c.
Proof. unfold view, byte_at. intros H. rewrite Nat.add_0_r, <- (Nat.add_0_r (offset b)), <- lookup_drop, H. done. Qed.

Lemma view_length b : length (view b) = (length (content b) - offset b)%nat.
Proof. apply length_drop. Qed.

Lemma view_access b i : (i < length (view b))%nat -> can_access_at_index b i = true.
Proof. rewrite view_length. intros H. apply Nat.ltb_lt. lia. Qed.

Lemma view_moved b k m : view (moved b k m) = drop k (view b).
Proof. unfold view, moved. cbn. by rewrite drop_drop. Qed.

Lemma view_at b k : view (at_offset b (offset b + k)) = drop k (view b).
Proof. unfold view. cbn. by rewrite drop_drop. Qed.

Definition blank (s : list byte) : Prop := Forall (fun c => u8 c <= 32) s.

Lemma count_blank ws c r : blank ws -> 32 < u8 c -> count_while (fun c => u8 c <=? 32) (ws ++ c :: r) = length ws.
Proof.
  intros Hw Hc. induction Hw as [|x ws Hx _ IH]; cbn [app count_while].
  - by rewrite (proj2 (Z.leb_gt _ _)).
  - by rewrite (proj2 (Z.leb_le _ _)), IH.
Qed.

Lemma skip_blank b ws c r : view b = ws ++ c :: r -> blank ws -> 32 < u8 c -> buffer_skip_whitespace b = at_offset b (offset b + length ws).
Proof.
  intros Hv Hw Hc. pose proof (view_length b) as Hl. rewrite Hv, length_app in Hl. cbn [length] in Hl.
  unfold buffer_skip_whitespace. rewrite view_access by (rewrite Hv, length_app; cbn; lia). cbn [negb]. fold (view b).
  rewrite Hv, count_blank by done. destruct (Nat.eqb_spec (offset b + length ws) (length (content b))); [lia|done].
Qed.

Lemma skip_none b c r : view b = c :: r -> 32 < u8 c -> buffer_skip_whitespace b = b.
Proof. intros Hv Hc. rewrite (skip_blank b [] c r) by (done || constructor). cbn [length]. rewrite Nat.add_0_r. by destruct b. Qed.

(** ** Strings *)

(** What the bytes of a text may become, by the reader. *)
Lemma escaped_cases c : u8 c <> 0 ->
  (escaped_byte c = [c] /\ c <> QUOTE /\ c <> BACKSLASH) \/
  (exists x, escaped_byte c = [BACKSLASH; x] /\ escape x = Some c) \/
  (exists h l, escaped_byte c = [BACKSLASH; to_u8 117; to_u8 48; to_u8 48; h; l] /\ parse_hex4 [to_u8 48; to_u8 48; h; l] = u8 c /\ h <> QUOTE /\ l <> QUOTE /\ h <> BACKSLASH /\ l <> BACKSLASH /\ u8 c < 32).
Proof.
  intros H0.
  assert (H : forallb (fun v => let c := to_u8 (Z.of_nat v) in
    (u8 c =? 0) || match escaped_byte c with
    | [x] => bool_decide (x = c) && negb (bool_decide (c = QUOTE)) && negb (bool_decide (c = BACKSLASH))
    | [y; x] => bool_decide (y = BACKSLASH) && bool_decide (escape x = Some c)
    | [y; u; a; b; h; l] => bool_decide ([y; u; a; b] = [BACKSLASH; to_u8 117; to_u8 48; to_u8 48]) && (parse_hex4 [to_u8 48; to_u8 48; h; l] =? u8 c)
       && negb (bool_decide (h = QUOTE)) && negb (bool_decide (l = QUOTE)) && negb (bool_decide (h = BACKSLASH)) && negb (bool_decide (l = BACKSLASH)) && (u8 c <? 32)
    | _ => false end) (seq 0 256) = true) by (by vm_compute).
  rewrite forallb_forall in H. pose proof (u8_range c) as Hc. specialize (H (Z.to_nat (u8 c))). rewrite in_seq in H. specialize (H ltac:(lia)).
  cbn zeta in H. rewrite Z2Nat.id, to_u8_u8 in H by lia. rewrite (proj2 (Z.eqb_neq _ _) H0) in H. cbn [orb] in H.
  destruct (escaped_byte c) as [|y [|x [|a [|b [|h [|l [|]]]]]]]; try done.
  - left. rewrite !andb_true_iff, !negb_true_iff, !bool_decide_eq_false, bool_decide_eq_true in H. destruct H as [[-> ?] ?]. done.
  - right. left. exists x. rewrite andb_true_iff, !bool_decide_eq_true in H. destruct H as [-> ?]. done.
  - right. right. exists h, l. rewrite !andb_true_iff, !negb_true_iff, !bool_decide_eq_false, bool_decide_eq_true in H.
    destruct H as [[[[[[[= -> -> -> ->] ?] ?] ?] ?] ?] ?]. split_and!; try done; lia.
Qed.

(** The first pass finds the closing quote, and counts one escape for each byte that is
    longer. *)
Lemma scan_escaped s post : nul_free s -> exists k, scan (escaped s ++ QUOTE :: post) = Some (length (escaped s), k) /\ (length s + k <= length (escaped s))%nat.
Proof.
  induction 1 as [|c s Hc _ (k & IH & Hk)]; [by exists 0%nat|]. change (escaped (c :: s)) with (escaped_byte c ++ escaped s).
  rewrite <- app_assoc, length_app. destruct (escaped_cases c Hc) as [(-> & H1 & H2)|[(x & -> & _)|(h & l & -> & _ & H1 & H2 & H3 & H4 & _)]].
  - exists k. cbn [app scan]. rewrite (bool_decide_eq_false_2 _ H1), (bool_decide_eq_false_2 _ H2), IH. split; [done|cbn; lia].
  - exists (S k). cbn [app scan]. change (bool_decide (BACKSLASH = QUOTE)) with false. change (bool_decide (BACKSLASH = BACKSLASH)) with true. cbn iota.
    rewrite IH. split; [done|cbn; lia].
  - exists (S k). cbn [app scan]. change (bool_decide (BACKSLASH = QUOTE)) with false. change (bool_decide (BACKSLASH = BACKSLASH)) with true. cbn iota.
    change (bool_decide (to_u8 48 = QUOTE)) with false. change (bool_decide (to_u8 48 = BACKSLASH)) with false. cbn iota.
    rewrite (bool_decide_eq_false_2 _ H1), (bool_decide_eq_false_2 _ H2), (bool_decide_eq_false_2 _ H3), (bool_decide_eq_false_2 _ H4), IH. split; [done|cbn; lia].
Qed.

Lemma lookup_view (text : list byte) p t r i : drop p text = t ++ r -> (i < length t)%nat -> text !! (p + i)%nat = t !! i.
Proof. intros H Hi. rewrite <- lookup_drop, H. by apply lookup_app_l. Qed.

(** The escape of a control character is read as that character. *)
Lemma utf16_control text p e h l r v :
  drop p text = [BACKSLASH; to_u8 117; to_u8 48; to_u8 48; h; l] ++ r -> (p + 6 <= e)%nat ->
  parse_hex4 [to_u8 48; to_u8 48; h; l] = v -> 0 <= v < 32 -> utf16_literal_to_utf8 text p e = Some (6%nat, [to_u8 v]).
Proof.
  intros Hd He Hv Hr. unfold utf16_literal_to_utf8. rewrite (proj2 (Nat.ltb_ge _ _)) by lia.
  assert (Hlen : (p + 6 <= length text)%nat) by (apply (f_equal length) in Hd; rewrite length_drop, length_app in Hd; cbn in Hd; lia).
  unfold hex4_at. rewrite (proj2 (Nat.leb_le _ _)) by lia. rewrite <- drop_drop, Hd. cbn [app drop].
  assert (Hx : parse_hex4 (to_u8 48 :: to_u8 48 :: h :: l :: r) = v) by (rewrite <- Hv; reflexivity). rewrite Hx.
  rewrite (proj2 (Z.leb_gt 0xDC00 v)), (proj2 (Z.leb_gt 0xD800 v)) by lia. cbn [andb]. unfold encoded, utf8_encode.
  rewrite (proj2 (Z.ltb_lt v 128)) by lia. do 3 f_equal. change 127 with (Z.ones 7). rewrite Z.land_ones, Z.mod_small by lia. done.
Qed.

(** The second pass gives the text back. *)
Lemma unescape_escaped text e cap s post : nul_free s ->
  forall fuel p out, drop p text = escaped s ++ QUOTE :: post -> e = (p + length (escaped s))%nat -> (length (escaped s) <= fuel)%nat ->
  (length out + length s < cap)%nat -> unescape fuel text p e cap out = Text (out ++ s).
Proof.
  induction 1 as [|c s Hc _ IH]; intros fuel p out Hd He Hf Hcap.
  - cbn in He. subst e. rewrite Nat.add_0_r. destruct fuel; cbn [unescape]; rewrite Nat.ltb_irrefl; cbn [negb]; rewrite (proj2 (Nat.ltb_lt _ _)), app_nil_r by (cbn in Hcap; lia); done.
  - change (escaped (c :: s)) with (escaped_byte c ++ escaped s) in *. rewrite length_app in *. cbn [length] in Hcap.
    destruct fuel as [|fuel]; [exfalso; destruct (escape_size_spec c) as [[? _]|]; [lia|done]|].
    assert (Hput : forall n, n = length (escaped_byte c) -> (0 < n)%nat ->
      (if (length out + length [c] <=? cap)%nat then unescape fuel text (p + n) e cap (out ++ [c]) else OutOfBounds) = Text (out ++ c :: s)).
    { intros n Hn Hpos. rewrite (proj2 (Nat.leb_le _ _)) by (cbn; lia). rewrite IH; [by rewrite <- app_assoc| |lia|lia|rewrite length_app; cbn; lia].
      rewrite <- drop_drop, Hd, <- app_assoc, Hn, drop_app_length. done. }
    rewrite <- app_assoc in Hd. cbn [unescape].
    assert (Hpos : (0 < length (escaped_byte c))%nat) by (destruct (escape_size_spec c) as [[-> _]|]; [lia|done]).
    rewrite (proj2 (Nat.ltb_lt p e)) by lia. cbn [negb]. rewrite <- (Nat.add_0_r p) at 1. rewrite (lookup_view _ _ _ _ 0%nat Hd) by done.
    destruct (escaped_cases c Hc) as [(E & H1 & H2)|[(x & E & Hx)|(h & l & E & Hx & _ & _ & _ & _ & H32)]]; rewrite E in *; cbn [lookup list_lookup].
    + rewrite (bool_decide_eq_false_2 _ H2). cbn [negb]. by apply Hput.
    + change (bool_decide (BACKSLASH = BACKSLASH)) with true. cbn [negb length] in *. rewrite (proj2 (Nat.ltb_ge e (p + 1))) by lia.
      rewrite (lookup_view _ _ _ _ 1%nat Hd) by (cbn; lia). cbn [lookup list_lookup]. rewrite Hx. by apply Hput.
    + change (bool_decide (BACKSLASH = BACKSLASH)) with true. cbn [negb length] in *. rewrite (proj2 (Nat.ltb_ge e (p + 1))) by lia.
      rewrite (lookup_view _ _ _ _ 1%nat Hd) by (cbn; lia). cbn [lookup list_lookup]. change (escape (to_u8 117)) with (@None byte). cbn iota.
      change (u8 (to_u8 117) =? 117) with true. cbn iota. pose proof (u8_range c).
      rewrite (utf16_control text p e h l (escaped s ++ QUOTE :: post) (u8 c)) by (done || lia). rewrite to_u8_u8. by apply Hput.
Qed.

Definition ok : nat -> bool := fun _ => true.

Lemma allocate_ok b : allocate ok b = (true, with_mem b (mkMem (S (made (mem b))) (live (mem b) + 1))).
Proof. done. Qed.

Lemma parse_string_quoted b s post : nul_free s -> view b = quoted (Some s) ++ post ->
  exists m, parse_string ok b = Done s (moved b (length (quoted (Some s))) m).
Proof.
  intros Hn Hv. unfold quoted in *. change (default [] (Some s)) with s in *. rewrite (c_str_id s) in * by (by apply nul_free_not_in).
  cbn [app] in Hv. rewrite <- app_assoc in Hv. cbn [app] in Hv. unfold parse_string. rewrite (view_byte _ _ _ Hv).
  change (bool_decide (QUOTE = QUOTE)) with true. cbn [negb]. unfold view in Hv.
  assert (Hd : drop (offset b + 1) (content b) = escaped s ++ QUOTE :: post) by (rewrite <- drop_drop, Hv; done). rewrite Hd.
  destruct (scan_escaped s post Hn) as (k & -> & Hk). unfold allocate, ok. cbn [negb content with_mem].
  erewrite (unescape_escaped (content b) _ _ s post Hn _ _ [] Hd eq_refl) by (cbn; lia). cbn [app]. unfold moved, at_offset. cbn.
  eexists. do 2 f_equal. rewrite length_app. cbn [length]. lia.
Qed.

(** ** Numbers *)

Definition stops (post : list byte) : Prop := exists c r, post = c :: r /\ number_char c = false.

Lemma count_number t post : forallb number_char t = true -> stops post -> count_while number_char (t ++ post) = length t.
Proof.
  intros Ht (c & r & -> & Hc). induction t as [|x t IH]; cbn [app count_while length]; [by rewrite Hc|].
  cbn [forallb] in Ht. apply andb_true_iff in Ht as [-> Ht]. by rewrite IH.
Qed.

Lemma number_text_int i : INT_MIN <= i <= INT_MAX -> number_text (double_of_Z i) i = int_to_string i.
Proof.
  intros Hi. unfold number_text. assert (He : exact_int i) by (unfold exact_int, INT_MIN, INT_MAX in *; lia).
  by rewrite finite_int, eqb_int.
Qed.

Lemma parse_number_int b i post : INT_MIN <= i <= INT_MAX -> view b = int_to_string i ++ post -> stops post ->
  exists m, parse_number ok b = Done (Node cJSON_Number None i (double_of_Z i) None []) (moved b (length (int_to_string i)) m).
Proof.
  intros Hi Hv Hs. destruct (int_text i Hi) as (Hd & Hc & Hne & _ & _). unfold parse_number. fold (view b). rewrite Hv, count_number by done.
  rewrite take_app_length, Hd. unfold allocate, ok. cbn [negb]. destruct (Nat.eqb_spec (length (int_to_string i)) 0) as [E|_]; [by destruct (int_to_string i)|].
  unfold number_node. rewrite saturate_int by done. by eexists.
Qed.

(** ** Lists *)

Definition begins (close : Z) (t : list byte) : Prop := exists c r, t = c :: r /\ 32 < u8 c /\ u8 c <> close /\ u8 c < 128.

Lemma moved_moved b k j m m' : moved (moved b k m) j m' = moved b (k + j) m'.
Proof. unfold moved. cbn. f_equal. lia. Qed.

(** Up to the first byte of the contents. *)
Lemma parse_list_open g o close node el b ws c r :
  view b = o :: ws ++ c :: r -> blank ws -> 32 < u8 c -> (depth b < CJSON_NESTING_LIMIT)%nat ->
  parse_list g (u8 o) close node el b =
  let b' := mkBuf (content b) (offset b + 1 + length ws) (depth b + 1) (mem b) in
  if u8 c =? close then close_list node b' []
  else match el (at_offset b' (offset b + length ws)) with
       | Done head b => if negb (can_access_at_index b 0) then Failed (deallocate (blocks_all head) b)
                        else match byte_at b 0 with
                             | Some c => if negb (u8 c =? close) then Failed (deallocate (blocks_all head) b) else close_list node b head
                             | None => Stray end
       | Failed b => Failed b | Stray => Stray | NoFuel => NoFuel end.
Proof.
  intros Hv Hw Hc Hd. unfold parse_list. rewrite (proj2 (Nat.leb_gt _ _)) by lia.
  set (b1 := at_depth b (depth b + 1)). assert (Hv1 : view b1 = o :: ws ++ c :: r) by done.
  rewrite view_access by (rewrite Hv1; cbn; lia). rewrite andb_false_r, (view_byte _ _ _ Hv1), Z.eqb_refl. cbn [negb].
  rewrite (skip_blank _ ws c r); [|by rewrite view_at, Hv1|done|done].
  set (b2 := at_offset _ (_ + length ws)). assert (Hv2 : view b2 = c :: r).
  { subst b2. unfold view in *. cbn [at_offset offset content]. rewrite <- !drop_drop, Hv1. cbn [drop]. by rewrite drop_0, drop_app_length. }
  rewrite view_access by (rewrite Hv2; cbn; lia). cbn [negb]. rewrite (view_byte _ _ _ Hv2).
  subst b2 b1. unfold at_offset, at_depth. cbn [content offset depth mem]. cbn zeta.
  replace (offset b + 1 + length ws - 1)%nat with (offset b + length ws)%nat by lia. done.
Qed.

Lemma parse_list_empty g o c node el b ws post :
  view b = o :: ws ++ c :: post -> blank ws -> 32 < u8 c -> (depth b < CJSON_NESTING_LIMIT)%nat ->
  parse_list g (u8 o) (u8 c) node el b = Done (node []) (moved b (length ws + 2) (mem b)).
Proof.
  intros Hv Hw Hc Hd. erewrite parse_list_open by done. cbn zeta. rewrite Z.eqb_refl. unfold close_list, moved. cbn. f_equal. f_equal; lia.
Qed.

Lemma parse_list_items g o c node el b ws z r k m post head :
  view b = o :: ws ++ z :: r -> blank ws -> 32 < u8 z -> u8 z <> u8 c -> (depth b < CJSON_NESTING_LIMIT)%nat ->
  drop k (z :: r) = c :: post ->
  (let b' := mkBuf (content b) (offset b + length ws) (depth b + 1) (mem b) in el b' = Done head (moved b' (1 + k) m)) ->
  parse_list g (u8 o) (u8 c) node el b = Done (node head) (moved b (length ws + k + 2) m).
Proof.
  intros Hv Hw Hz Hzc Hd Hk He. cbn zeta in He. erewrite parse_list_open by done. cbn zeta. rewrite (proj2 (Z.eqb_neq _ _) Hzc).
  unfold at_offset. cbn [content depth mem]. rewrite He. set (b' := mkBuf _ _ _ _).
  assert (Hv' : view (moved b' (1 + k) m) = c :: post).
  { rewrite view_moved. subst b'. unfold view in *. cbn [content offset]. rewrite drop_drop, <- Nat.add_assoc, <- drop_drop, Hv.
    rewrite app_comm_cons, drop_app_ge by (cbn; lia). replace (length ws + (1 + k) - length (o :: ws))%nat with k by (cbn; lia). done. }
  rewrite view_access by (rewrite Hv'; cbn; lia). cbn [negb]. rewrite (view_byte _ _ _ Hv'), Z.eqb_refl. cbn [negb].
  unfold close_list, moved. subst b'. cbn. do 2 f_equal; lia.
Qed.

(** [n] is read from the text [t]. *)
Definition reads (n : cJSON) (t : list byte) : Prop :=
  forall b post fuel, view b = t ++ post -> stops post -> (depth b + height n <= CJSON_NESTING_LIMIT)%nat -> (2 * length (view b) + 2 <= fuel)%nat ->
  exists m, parse_value ok fuel b = Done (unnamed n) (moved b (length t) m).

(** After a value: the position of the next byte that is not blank, and whether it is a
    comma. *)
Lemma after_value b ws c r : view b = ws ++ c :: r -> blank ws -> 32 < u8 c ->
  buffer_skip_whitespace b = at_offset b (offset b + length ws) /\ at_comma (at_offset b (offset b + length ws)) = Some (u8 c =? 44) /\
  view (at_offset b (offset b + length ws)) = c :: r.
Proof.
  intros Hv Hw Hc. pose proof (skip_blank b ws c r Hv Hw Hc) as Hs.
  assert (Hv' : view (at_offset b (offset b + length ws)) = c :: r) by (rewrite view_at, Hv, drop_app_length; done).
  split_and!; [done| |done]. unfold at_comma. rewrite view_access by (rewrite Hv'; cbn; lia). by rewrite (view_byte _ _ _ Hv').
Qed.

(** The value that follows blanks after the byte at the position. *)
Lemma value_after b x ws t post n fuel :
  view b = x :: ws ++ t ++ post -> blank ws -> (exists c r, t = c :: r /\ 32 < u8 c) -> reads n t -> stops post ->
  (depth b + height n <= CJSON_NESTING_LIMIT)%nat -> (2 * length (view b) <= fuel)%nat ->
  exists m, parse_value ok fuel (buffer_skip_whitespace (at_offset b (offset b + 1))) = Done (unnamed n) (moved b (1 + length ws + length t) m).
Proof.
  intros Hv Hw (c & r & Et & Hc) Hr Hs Hd Hf.
  assert (H1 : view (at_offset b (offset b + 1)) = ws ++ c :: r ++ post) by (rewrite view_at, Hv, Et; done).
  rewrite (skip_blank _ ws c (r ++ post) H1 Hw Hc). set (b2 := at_offset _ (_ + length ws)).
  assert (H2 : view b2 = t ++ post) by (subst b2; rewrite view_at, H1, Et, drop_app_length; done).
  destruct (Hr b2 post fuel H2 Hs Hd) as [m Hm].
  { rewrite H2. rewrite Hv in Hf. cbn [length] in Hf. rewrite length_app in Hf. lia. }
  exists m. rewrite Hm. f_equal. unfold moved. subst b2. cbn. f_equal. lia.
Qed.

Lemma stops_cons c r : number_char c = false -> stops (c :: r).
Proof. intros H. by exists c, r. Qed.

Lemma unnamed_none n : nstring n = None -> unnamed n = n.
Proof. destruct n. cbn. by intros ->. Qed.

Lemma unnamed_with_name k n : nstring n = Some k -> with_name k (unnamed n) = n.
Proof. destruct n. cbn. by intros ->. Qed.

(** The texts of a list's values are there and are read back. *)
Definition item_reads (text : cJSON -> option (list byte)) (n : cJSON) : Prop := exists t, text n = Some t /\ reads n t /\ begins 93 t.

Lemma elements_read text fmt l :
  Forall (item_reads text) l -> Forall (fun n => nstring n = None) l -> l <> [] ->
  forall b x ws r done_ post fuel,
    elements_text text fmt l = Some r -> view b = x :: ws ++ r ++ to_u8 93 :: post -> blank ws ->
    (depth b + heights l <= CJSON_NESTING_LIMIT)%nat -> (2 * length (view b) + 1 <= fuel)%nat ->
    exists m, parse_elements ok fuel b done_ = Done (done_ ++ l) (moved b (1 + length ws + length r) m).
Proof.
  induction 1 as [|n l (t & Et & Hr & Hb) _ IH]; [done|]. intros Hnames _ b x ws r done_ post fuel Er Hv Hw Hd Hf.
  inversion Hnames as [|? ? Hname Hnames']; subst. destruct fuel as [|fuel]; [lia|]. cbn [parse_elements]. rewrite allocate_ok. cbn [negb].
  set (b1 := with_mem b _). assert (Hv1 : view b1 = view b) by done. destruct Hb as (c & t' & Ec & Hc & _). cbn [heights fold_right] in Hd.
  cbn [elements_text] in Er. rewrite Et in Er. destruct (elements_text text fmt l) as [r'|] eqn:El; [|done].
  destruct l as [|n2 l].
  - injection El as <-. injection Er as <-. cbn [app] in *. rewrite !app_nil_r in *. rewrite <- Hv1 in Hv.
    destruct (value_after b1 x ws t (to_u8 93 :: post) n fuel Hv Hw) as [m Hm]; [by exists c, t'|done|by apply stops_cons|cbn in *; lia|rewrite Hv1; lia|].
    rewrite Hm. set (b3 := moved b1 _ m). assert (Hv3 : view b3 = [] ++ to_u8 93 :: post).
    { subst b3. rewrite view_moved, Hv. cbn. rewrite app_assoc, drop_app_ge by (rewrite length_app; lia). rewrite length_app, Nat.sub_diag. done. }
    destruct (after_value b3 [] (to_u8 93) post Hv3) as (-> & -> & _); [constructor|done|]. change (u8 (to_u8 93) =? 44) with false. cbn iota.
    exists m. rewrite (unnamed_none n Hname). subst b3. unfold moved, at_offset. cbn. do 2 f_equal. lia.
  - injection Er as <-. set (sep := if fmt then [to_u8 32] else []) in *.
    assert (Hv' : view b1 = x :: ws ++ t ++ to_u8 44 :: sep ++ r' ++ to_u8 93 :: post) by (rewrite Hv1, Hv, <- !app_assoc; cbn; by rewrite <- ?app_assoc).
    destruct (value_after b1 x ws t _ n fuel Hv' Hw) as [m Hm]; [by exists c, t'|done|by apply stops_cons|cbn in *; lia|rewrite Hv1; lia|].
    rewrite Hm. set (b3 := moved b1 _ m). assert (Hv3 : view b3 = [] ++ to_u8 44 :: sep ++ r' ++ to_u8 93 :: post).
    { subst b3. rewrite view_moved, Hv'. cbn. rewrite app_assoc, drop_app_ge by (rewrite length_app; lia). rewrite length_app, Nat.sub_diag. done. }
    destruct (after_value b3 [] (to_u8 44) (sep ++ r' ++ to_u8 93 :: post) Hv3) as (-> & -> & Hv4); [constructor|done|]. change (u8 (to_u8 44) =? 44) with true. cbn iota.
    assert (Hlen : (length (view b3) + 2 <= length (view b))%nat).
    { rewrite Hv3, <- Hv1, Hv', Ec. cbn [app]. repeat (rewrite length_app || cbn [length]). lia. }
    cbn [length] in *. rewrite Nat.add_0_r in *. rewrite Hv3 in Hlen. rewrite <- Hv4 in Hlen.
    destruct (IH Hnames' ltac:(done) _ (to_u8 44) sep r' (done_ ++ [unnamed n]) post fuel eq_refl Hv4) as [m' Hm'].
    + subst sep. destruct fmt; repeat constructor; by vm_compute.
    + subst b3. cbn. cbn in Hd. lia.
    + cbn [app] in Hlen. lia.
    + exists m'. rewrite Hm', <- app_assoc, (unnamed_none n Hname). cbn [app]. f_equal. subst b3. unfold moved, at_offset. cbn. f_equal. repeat (rewrite length_app || cbn [length]). lia.
Qed.

Lemma parse_name_read b x ws k r : view b = x :: ws ++ quoted (Some k) ++ to_u8 58 :: r -> nul_free k -> blank ws ->
  exists m, parse_name ok b = Done k (moved b (1 + length ws + length (quoted (Some k))) m).
Proof.
  intros Hv Hk Hw. unfold parse_name. rewrite view_access by (rewrite Hv; cbn; rewrite !length_app; cbn; lia). cbn [negb].
  assert (Hq : quoted (Some k) ++ to_u8 58 :: r = QUOTE :: (escaped (c_str k) ++ [QUOTE]) ++ to_u8 58 :: r) by done.
  assert (H1 : view (at_offset b (offset b + 1)) = ws ++ quoted (Some k) ++ to_u8 58 :: r) by (rewrite view_at, Hv; done).
  rewrite (skip_blank _ ws QUOTE _ ltac:(rewrite H1, Hq; done) Hw) by done. set (b2 := at_offset _ (_ + length ws)).
  assert (H2 : view b2 = quoted (Some k) ++ to_u8 58 :: r) by (subst b2; rewrite view_at, H1, drop_app_length; done).
  destruct (parse_string_quoted b2 k _ Hk H2) as [m ->]. set (b3 := moved b2 _ m).
  assert (H3 : view b3 = to_u8 58 :: r) by (subst b3; rewrite view_moved, H2, drop_app_length; done).
  rewrite (skip_none b3 (to_u8 58) r H3) by done. rewrite view_access by (rewrite H3; cbn; lia). cbn [negb]. rewrite (view_byte _ _ _ H3).
  change (u8 (to_u8 58) =? 58) with true. cbn [negb]. exists m. subst b3 b2. unfold moved. cbn. do 2 f_equal. lia.
Qed.

Lemma blank_stops ws c r : blank ws -> number_char c = false -> stops (ws ++ c :: r).
Proof.
  intros Hw Hc. destruct Hw as [|x ws Hx _]; cbn [app]; apply stops_cons; [done|]. unfold number_char, is_digit. lia.
Qed.

(** The text of the members after the blanks before the first. *)
Definition members_core (text : cJSON -> option (list byte)) (fmt : bool) (d : nat) (l : list cJSON) (core : list byte) : Prop :=
  members_text text fmt d l = Some ((if fmt then replicate d TAB else []) ++ core).

Lemma members_core_cons text fmt d n l core t k :
  members_core text fmt d (n :: l) core -> text n = Some t -> nstring n = Some k ->
  (l = [] /\ core = quoted (Some k) ++ to_u8 58 :: (if fmt then [TAB] else []) ++ t ++ (if fmt then [LF] else [])) \/
  (exists core', members_core text fmt d l core' /\ l <> [] /\
     core = quoted (Some k) ++ to_u8 58 :: (if fmt then [TAB] else []) ++ t ++ to_u8 44 :: ((if fmt then [LF] else []) ++ (if fmt then replicate d TAB else [])) ++ core').
Proof.
  unfold members_core. intros H Ht Hk. cbn [members_text] in H. unfold member_text in H. rewrite Ht, Hk in H. cbn [fmap option_fmap option_map] in H.
  destruct (members_text text fmt d l) as [r|] eqn:El; [|done]. injection H as H. destruct l as [|n2 l].
  - left. split; [done|]. injection El as <-. rewrite bool_decide_eq_true_2 in H by done. rewrite app_nil_r in H. apply app_inv_head in H. done.
  - right. assert (Hr : exists core', r = (if fmt then replicate d TAB else []) ++ core').
    { cbn [members_text] in El. unfold member_text in El. destruct (text n2); [|done]. cbn [fmap option_fmap option_map] in El.
      destruct (members_text text fmt d l); [|done]. injection El as <-. eexists. by rewrite <- app_assoc. }
    destruct Hr as [core' ->]. exists core'. split_and!; [done|done|]. rewrite bool_decide_eq_false_2 in H by done.
    rewrite <- app_assoc in H. apply app_inv_head in H. rewrite <- H. unfold quoted. repeat (rewrite <- app_assoc || cbn [app]). done.
Qed.

Lemma drop_exact {A} (a r l : list A) k : l = a ++ r -> k = length a -> drop k l = r.
Proof. intros -> ->. apply drop_app_length. Qed.

Ltac app_shape := repeat (rewrite <- app_assoc || cbn [app]); reflexivity.
Ltac app_length := repeat (rewrite length_app || cbn [length]); lia.

(** One member up to the next comma or the closing brace. *)
Lemma member_read b x ws k t mid n fuel c post :
  view b = x :: ws ++ quoted (Some k) ++ to_u8 58 :: mid ++ t ++ c ++ post -> blank ws -> blank mid -> nul_free k ->
  (exists c r, t = c :: r /\ 32 < u8 c) -> reads n t -> stops (c ++ post) ->
  (depth b + height n <= CJSON_NESTING_LIMIT)%nat -> (2 * length (view b) <= fuel)%nat ->
  exists m1 m2, parse_name ok b = Done k (moved b (1 + length ws + length (quoted (Some k))) m1) /\
    (let b' := moved b (1 + length ws + length (quoted (Some k))) m1 in
     parse_value ok fuel (buffer_skip_whitespace (at_offset b' (offset b' + 1))) =
     Done (unnamed n) (moved b (2 + length ws + length (quoted (Some k)) + length mid + length t) m2)).
Proof.
  intros Hv Hw Hmid Hk Ht Hr Hs Hd Hf. destruct (parse_name_read b x ws k _ Hv Hk Hw) as [m1 H1]. exists m1.
  set (b' := moved b _ m1) in *. assert (Hv' : view b' = to_u8 58 :: mid ++ t ++ c ++ post).
  { subst b'. rewrite view_moved, Hv. apply (drop_exact (x :: ws ++ quoted (Some k))); [app_shape|app_length]. }
  destruct (value_after b' (to_u8 58) mid t (c ++ post) n fuel Hv' Hmid Ht Hr Hs) as [m2 H2]; [done| |].
  { rewrite Hv' . rewrite Hv in Hf. repeat (rewrite length_app in Hf || cbn [length] in Hf). repeat (rewrite length_app || cbn [length]). lia. }
  exists m2. split; [done|]. cbn zeta. rewrite H2. subst b'. rewrite moved_moved. do 2 f_equal. lia.
Qed.

Lemma members_read text fmt d l :
  Forall (item_reads text) l -> Forall (fun n => exists k, nstring n = Some k /\ nul_free k) l -> l <> [] ->
  forall b x ws core done_ tl post fuel,
    members_core text fmt d l core -> view b = x :: ws ++ core ++ tl ++ to_u8 125 :: post -> blank ws -> blank tl ->
    (depth b + heights l <= CJSON_NESTING_LIMIT)%nat -> (2 * length (view b) + 1 <= fuel)%nat ->
    exists m, parse_members ok fuel b done_ = Done (done_ ++ l) (moved b (1 + length ws + length core + length tl) m).
Proof.
  induction 1 as [|n l (t & Et & Hr & Hb) _ IH]; [done|]. intros Hnames _ b x ws core done_ tl post fuel Ecore Hv Hw Htl Hd Hf.
  inversion Hnames as [|? ? (k & Hname & Hk) Hnames']; subst. destruct fuel as [|fuel]; [lia|]. cbn [parse_members]. rewrite allocate_ok. cbn [negb].
  set (b1 := with_mem b _). assert (Hv1 : view b1 = view b) by done. destruct Hb as (c & t' & Ec & Hc & _). cbn [heights fold_right] in Hd.
  set (mid := if fmt then [TAB] else []) in *. set (lf := if fmt then [LF] else []) in *.
  assert (Hmid : blank mid) by (subst mid; destruct fmt; repeat constructor; by vm_compute).
  assert (Hlf : blank lf) by (subst lf; destruct fmt; repeat constructor; by vm_compute).
  destruct (members_core_cons _ _ _ _ _ _ t k Ecore Et Hname) as [[-> ->]|(core' & Ecore' & Hne & ->)].
  - assert (Hv' : view b1 = x :: ws ++ quoted (Some k) ++ to_u8 58 :: mid ++ t ++ (lf ++ tl) ++ to_u8 125 :: post)
      by (rewrite Hv1, Hv; repeat (rewrite <- app_assoc || cbn [app]); done).
    assert (Hblank : blank (lf ++ tl)) by (by apply Forall_app).
    destruct (member_read b1 x ws k t mid n fuel (lf ++ tl) (to_u8 125 :: post) Hv' Hw Hmid Hk) as (m1 & m2 & Hp & Hm);
      [by exists c, t'|done|by apply blank_stops|cbn in *; lia|rewrite Hv1; lia|].
    rewrite Hp. cbn zeta in Hm. rewrite Hm. set (b3 := moved b1 _ m2). assert (Hv3 : view b3 = (lf ++ tl) ++ to_u8 125 :: post).
    { subst b3. rewrite view_moved, Hv'. apply (drop_exact (x :: ws ++ quoted (Some k) ++ to_u8 58 :: mid ++ t)); [app_shape|app_length]. }
    destruct (after_value b3 _ (to_u8 125) post Hv3 Hblank) as (-> & -> & _); [done|]. change (u8 (to_u8 125) =? 44) with false. cbn iota.
    exists m2. rewrite (unnamed_with_name k n Hname). subst b3 b1. unfold moved, at_offset, with_mem. cbn [content depth mem offset]. do 2 f_equal. fold mid lf. app_length.
  - set (tabs := if fmt then replicate d TAB else []) in *.
    assert (Htabs : blank (lf ++ tabs)) by (apply Forall_app; split; [done|]; subst tabs; destruct fmt; [apply Forall_replicate; by vm_compute|constructor]).
    assert (Hv' : view b1 = x :: ws ++ quoted (Some k) ++ to_u8 58 :: mid ++ t ++ [to_u8 44] ++ (lf ++ tabs) ++ core' ++ tl ++ to_u8 125 :: post)
      by (rewrite Hv1, Hv; app_shape).
    destruct (member_read b1 x ws k t mid n fuel [to_u8 44] _ Hv' Hw Hmid Hk) as (m1 & m2 & Hp & Hm);
      [by exists c, t'|done|by apply stops_cons|cbn in *; lia|rewrite Hv1; lia|].
    rewrite Hp. cbn zeta in Hm. rewrite Hm. set (b3 := moved b1 _ m2).
    assert (Hv3 : view b3 = [] ++ to_u8 44 :: (lf ++ tabs) ++ core' ++ tl ++ to_u8 125 :: post).
    { subst b3. rewrite view_moved, Hv'. apply (drop_exact (x :: ws ++ quoted (Some k) ++ to_u8 58 :: mid ++ t)); [app_shape|app_length]. }
    destruct (after_value b3 [] (to_u8 44) _ Hv3) as (-> & -> & Hv4); [constructor|done|]. change (u8 (to_u8 44) =? 44) with true. cbn iota.
    assert (Hlen : (length (view b3) + 2 <= length (view b))%nat) by (rewrite Hv3, <- Hv1, Hv'; cbn [app]; app_length).
    cbn [length] in *. rewrite Nat.add_0_r in *. rewrite Hv3 in Hlen. cbn [app] in Hlen. rewrite <- Hv4 in Hlen.
    destruct (IH Hnames' Hne _ (to_u8 44) (lf ++ tabs) core' (done_ ++ [with_name k (unnamed n)]) tl post fuel Ecore' Hv4 Htabs Htl) as [m' Hm'];
      [change (depth (at_offset b3 (offset b3))) with (depth b); unfold heights; lia|lia|].
    exists m'. rewrite Hm', <- app_assoc, (unnamed_with_name k n Hname). cbn [app]. f_equal. subst b3 b1.
    unfold moved, at_offset, with_mem. cbn [content depth mem offset]. f_equal. fold mid lf tabs. app_length.
Qed.

(** ** Values *)

Lemma literal_no b lit n c r x l : view b = c :: r -> bytes_of lit = x :: l -> c <> x -> (if can_read b n then starts b lit else Some false) = Some false.
Proof.
  intros Hv Hl Hc. destruct (can_read b n); [|done]. unfold starts. fold (view b). rewrite Hv, Hl. cbn [strncmp_eq]. by rewrite bool_decide_eq_false_2.
Qed.

Lemma literal_yes b lit n post : view b = bytes_of lit ++ post -> length (bytes_of lit) = n -> (0 < n)%nat ->
  (if can_read b n then starts b lit else Some false) = Some true.
Proof.
  intros Hv Hn Hpos. pose proof (view_length b) as Hl. rewrite Hv, length_app in Hl. unfold can_read. rewrite (proj2 (Nat.leb_le _ _)) by lia.
  unfold starts. fold (view b). rewrite Hv. clear. induction (bytes_of lit) as [|x l IH]; [done|]. cbn [app strncmp_eq]. by rewrite bool_decide_eq_true_2.
Qed.

(** A value that is none of the literals is told by its first byte. *)
Lemma parse_value_other b fuel c r : view b = c :: r -> u8 c <> 110 -> u8 c <> 102 -> u8 c <> 116 ->
  parse_value ok (S fuel) b =
  if bool_decide (c = QUOTE) then
    match parse_string ok b with Done s b => Done (string_node s) b | Failed b => Failed b | Stray => Stray | NoFuel => NoFuel end
  else if (u8 c =? 45) || is_digit c then parse_number ok b
  else if u8 c =? 91 then parse_array (fun b => parse_elements ok fuel b []) b
  else if u8 c =? 123 then parse_object (fun b => parse_members ok fuel b []) b
  else Failed b.
Proof.
  intros Hv H1 H2 H3. cbn [parse_value].
  rewrite (literal_no b "null" 4 c r _ _ Hv eq_refl) by (intros ->; by apply H1). rewrite (literal_no b "false" 5 c r _ _ Hv eq_refl) by (intros ->; by apply H2).
  rewrite (literal_no b "true" 4 c r _ _ Hv eq_refl) by (intros ->; by apply H3).
  rewrite view_access by (rewrite Hv; cbn; lia). cbn [negb]. by rewrite (view_byte _ _ _ Hv).
Qed.

Lemma constants_read s :
  reads (Node cJSON_NULL None 0 zero s []) (bytes_of "null") /\ reads (Node cJSON_False None 0 zero s []) (bytes_of "false") /\
  reads (Node cJSON_True None 1 zero s []) (bytes_of "true").
Proof.
  split_and!; intros b post fuel Hv _ _ Hf; (destruct fuel as [|fuel]; [lia|]); cbn [parse_value].
  - rewrite (literal_yes b "null" 4 post Hv) by (done || lia). by eexists.
  - rewrite (literal_no b "null" 4 _ _ _ _ Hv eq_refl), (literal_yes b "false" 5 post Hv) by (done || lia). by eexists.
  - rewrite (literal_no b "null" 4 _ _ _ _ Hv eq_refl), (literal_no b "false" 5 _ _ _ _ Hv eq_refl), (literal_yes b "true" 4 post Hv) by (done || lia). by eexists.
Qed.

Lemma string_reads v s : nul_free v -> reads (Node cJSON_String (Some v) 0 zero s []) (quoted (Some v)).
Proof.
  intros Hn b post fuel Hv _ _ Hf. destruct fuel as [|fuel]; [lia|].
  rewrite (parse_value_other b fuel QUOTE _ Hv) by done. rewrite bool_decide_eq_true_2 by done.
  destruct (parse_string_quoted b v post Hn Hv) as [m ->]. by exists m.
Qed.

Lemma number_reads i s : INT_MIN <= i <= INT_MAX -> reads (Node cJSON_Number None i (double_of_Z i) s []) (int_to_string i).
Proof.
  intros Hi b post fuel Hv Hs _ Hf. destruct fuel as [|fuel]; [lia|]. destruct (int_text i Hi) as (_ & _ & _ & _ & c & r & E & Hc).
  assert (Hv' := Hv). rewrite E in Hv'. cbn [app] in Hv'.
  assert (Hn : u8 c <> 110 /\ u8 c <> 102 /\ u8 c <> 116 /\ u8 c <> 34) by (unfold is_digit in Hc; lia). destruct Hn as (H1 & H2 & H3 & H4).
  rewrite (parse_value_other b fuel c _ Hv') by done. rewrite bool_decide_eq_false_2 by (intros ->; by apply H4).
  assert (Hn : (u8 c =? 45) || is_digit c = true) by (destruct Hc as [->| ->]; [done|apply orb_true_r]). rewrite Hn.
  apply (parse_number_int b i post Hi Hv Hs).
Qed.

Lemma heights_children t v i d s c : height (Node t v i d s c) = if (t =? cJSON_Array) || (t =? cJSON_Object) then S (heights c) else 0%nat.
Proof. done. Qed.

Lemma array_reads fmt d c s :
  Forall (item_reads (text_of fmt (d + 1))) c -> Forall (fun n => nstring n = None) c ->
  exists r, elements_text (text_of fmt (d + 1)) fmt c = Some r /\ reads (Node cJSON_Array None 0 zero s c) (array_text r).
Proof.
  intros Hc Hn. assert (Hr : exists r, elements_text (text_of fmt (d + 1)) fmt c = Some r /\ (c <> [] -> begins 93 r)).
  { clear Hn. induction Hc as [|n l (t & Et & _ & Hb) _ (r & IH & _)]; [by exists []|]. cbn [elements_text]. rewrite Et, IH. eexists. split; [done|].
    intros _. destruct Hb as (x & t' & -> & Hx). by eexists x, _. }
  destruct Hr as (r & Er & Hb). exists r. split; [done|]. intros b post fuel Hv Hs Hd Hf. destruct fuel as [|fuel]; [lia|].
  unfold array_text in *. cbn [app] in Hv. rewrite <- app_assoc in Hv. cbn [app] in Hv. rewrite heights_children in Hd. change (_ || _) with true in Hd. cbn iota in Hd.
  rewrite (parse_value_other b fuel _ _ Hv) by done. change (bool_decide (to_u8 91 = QUOTE)) with false. cbn iota. change ((u8 (to_u8 91) =? 45) || is_digit (to_u8 91)) with false. cbn iota.
  change (u8 (to_u8 91) =? 91) with true. cbn iota. unfold parse_array. change 91 with (u8 (to_u8 91)). change 93 with (u8 (to_u8 93)).
  destruct c as [|n l].
  - injection Er as <-. cbn [app] in *. rewrite (parse_list_empty _ _ _ _ _ b [] post Hv (Forall_nil _)) by (done || lia). by eexists.
  - destruct (Hb ltac:(done)) as (z & r' & Ez & Hz & Hz93 & _). set (b1 := mkBuf (content b) (offset b) (depth b + 1) (mem b)).
    destruct (elements_read (text_of fmt (d + 1)) fmt (n :: l) Hc Hn ltac:(done) b1 (to_u8 91) [] r [] post fuel Er Hv) as [m Hm];
      [constructor|cbn [b1 depth]; lia|change (view b1) with (view b); lia|].
    rewrite Ez in Hv. cbn [app] in Hv.
    rewrite (parse_list_items _ (to_u8 91) (to_u8 93) _ _ b [] z (r' ++ to_u8 93 :: post) (length r) m post (n :: l)); try done; [|constructor|lia| |].
    + exists m. cbn [unnamed]. f_equal. cbn [length]. f_equal. app_length.
    + apply (drop_exact (z :: r')); [done|by rewrite Ez].
    + cbn zeta. cbn [length]. rewrite Nat.add_0_r. fold b1. rewrite Hm. done.
Qed.

Lemma last_before {A} (o : A) ws rest : exists x, drop (length ws) (o :: ws ++ rest) = x :: rest.
Proof. revert o. induction ws as [|y ws IH]; intros o; [by exists o|]. cbn [length app drop]. apply IH. Qed.

Lemma members_text_some text fmt d c :
  Forall (item_reads text) c -> exists r, members_text text fmt d c = Some r /\
    (c <> [] -> Forall (fun n => exists k, nstring n = Some k /\ nul_free k) c -> exists core, r = (if fmt then replicate d TAB else []) ++ core /\ exists r', core = QUOTE :: r').
Proof.
  induction 1 as [|n l (t & Et & _ & Hb) _ (r & IH & _)]; [by exists []|]. cbn [members_text]. unfold member_text. rewrite Et, IH.
  cbn [fmap option_fmap option_map]. eexists. split; [done|]. intros _ _. eexists. split; [by rewrite <- app_assoc|]. unfold quoted. cbn [app]. by eexists.
Qed.

Lemma tabs_blank (fmt : bool) d : blank (if fmt then replicate d TAB else []).
Proof. destruct fmt; [apply Forall_replicate; by vm_compute|constructor]. Qed.

Lemma object_reads fmt d c s :
  Forall (item_reads (text_of fmt (d + 1))) c -> Forall (fun n => exists k, nstring n = Some k /\ nul_free k) c ->
  exists r, members_text (text_of fmt (d + 1)) fmt (d + 1) c = Some r /\ reads (Node cJSON_Object None 0 zero s c) (object_text fmt d r).
Proof.
  intros Hc Hn. destruct (members_text_some _ fmt (d + 1) c Hc) as (r & Er & Hcore). exists r. split; [done|].
  intros b post fuel Hv Hs Hd Hf. destruct fuel as [|fuel]; [lia|]. set (lf := if fmt then [LF] else []).
  set (tl := if fmt then replicate d TAB else []). assert (Hlf : blank lf) by (subst lf; destruct fmt; repeat constructor; by vm_compute).
  assert (Htl : blank tl) by apply tabs_blank. unfold object_text in *. fold lf tl in Hv. fold lf tl.
  assert (Hv' : view b = to_u8 123 :: lf ++ r ++ tl ++ to_u8 125 :: post) by (rewrite Hv; app_shape). clear Hv.
  rewrite heights_children in Hd. change (_ || _) with true in Hd. cbn iota in Hd.
  rewrite (parse_value_other b fuel _ _ Hv') by done. change (bool_decide (to_u8 123 = QUOTE)) with false. cbn iota.
  change ((u8 (to_u8 123) =? 45) || is_digit (to_u8 123)) with false. cbn iota. change (u8 (to_u8 123) =? 91) with false. cbn iota.
  change (u8 (to_u8 123) =? 123) with true. cbn iota. unfold parse_object. change 123 with (u8 (to_u8 123)). change 125 with (u8 (to_u8 125)).
  destruct c as [|n l].
  - injection Er as <-. cbn [app] in *. rewrite (parse_list_empty _ _ _ _ _ b (lf ++ tl) post); [|by rewrite Hv', <- app_assoc|by apply Forall_app|done|lia].
    eexists. cbn [unnamed]. f_equal. f_equal. app_length.
  - destruct (Hcore ltac:(done) Hn) as (core & -> & r' & Eq). set (tabs := if fmt then replicate (d + 1) TAB else []) in *.
    assert (Hws : blank (lf ++ tabs)) by (apply Forall_app; split; [done|apply tabs_blank]).
    assert (Hv : view b = to_u8 123 :: (lf ++ tabs) ++ core ++ tl ++ to_u8 125 :: post) by (rewrite Hv'; app_shape).
    set (b1 := mkBuf (content b) (offset b + length (lf ++ tabs)) (depth b + 1) (mem b)).
    destruct (last_before (to_u8 123) (lf ++ tabs) (core ++ tl ++ to_u8 125 :: post)) as [x Hx].
    assert (Hv1 : view b1 = x :: core ++ tl ++ to_u8 125 :: post).
    { unfold view, b1 in *. cbn [content offset]. rewrite <- drop_drop, Hv. exact Hx. }
    destruct (members_read (text_of fmt (d + 1)) fmt (d + 1) (n :: l) Hc Hn ltac:(done) b1 x [] core [] tl post fuel Er Hv1 (Forall_nil _) Htl) as [m Hm].
    { cbn [b1 depth]. lia. }
    { rewrite Hv1. rewrite Hv in Hf. repeat (rewrite length_app in Hf || cbn [length] in Hf). repeat (rewrite length_app || cbn [length]). lia. }
    assert (Hvz : view b = to_u8 123 :: (lf ++ tabs) ++ QUOTE :: r' ++ tl ++ to_u8 125 :: post) by (rewrite Hv, Eq; app_shape).
    rewrite (parse_list_items _ (to_u8 123) (to_u8 125) _ _ b _ _ _ (length core + length tl) m post (n :: l) Hvz Hws); try done; try lia.
    + exists m. cbn [unnamed]. f_equal. f_equal. app_length.
    + apply (drop_exact (core ++ tl)); [rewrite Eq; app_shape|app_length].
Qed.

(** ** The round trip *)

Lemma heights_forall c k : (heights c <= k)%nat -> Forall (fun n => (height n <= k)%nat) c.
Proof. induction c as [|n c IH]; cbn [heights fold_right]; intros H; constructor; [|apply IH; unfold heights]; lia. Qed.

Lemma plain_reads n : plain n -> forall fmt d, (d + height n <= CJSON_NESTING_LIMIT)%nat -> item_reads (text_of fmt d) n.
Proof.
  induction n as [t v i x s c IH] using cJSON_induction. intros Hp fmt d Hd. rewrite heights_children in Hd.
  assert (Hitems : (d + 1 + heights c <= CJSON_NESTING_LIMIT)%nat -> Forall plain c -> Forall (item_reads (text_of fmt (d + 1))) c).
  { intros Hk Hc. assert (Hh := heights_forall c _ (le_n _)). clear Hp Hd. revert IH Hc Hh Hk. generalize (heights c) as h. intros h.
    induction 1 as [|n c Hn _ IHc]; intros Hc Hh Hk; constructor; inversion Hc; inversion Hh; subst; [apply Hn; [done|lia]|by apply IHc]. }
  apply plain_cases in Hp. inversion Hp as [?|?|?|? ? Hi|? ? Hv|? ? Hc Hn|? ? Hc Hn]; subst.
  - exists (bytes_of "null"). split_and!; [done|apply constants_read|by eexists _, _].
  - exists (bytes_of "false"). split_and!; [done|apply constants_read|by eexists _, _].
  - exists (bytes_of "true"). split_and!; [done|apply constants_read|by eexists _, _].
  - exists (int_to_string i). split_and!; [by rewrite <- (number_text_int i Hi)|by apply number_reads|].
    destruct (int_text i Hi) as (_ & _ & _ & _ & y & r & -> & Hy). exists y, r. unfold is_digit in Hy. split_and!; [done|lia|lia|lia].
  - exists (quoted (Some v0)). split_and!; [done|by apply string_reads|by eexists _, _].
  - change (_ || _) with true in Hd. cbn iota in Hd. destruct (array_reads fmt d c s (Hitems ltac:(lia) Hc) Hn) as (r & Er & Hr).
    exists (array_text r). split_and!; [|done|by eexists _, _]. cbn [text_of]. change (Z.land cJSON_Array 255) with cJSON_Array. cbn [Z.eqb Pos.eqb cJSON_Array cJSON_NULL cJSON_False cJSON_True cJSON_Number cJSON_Raw cJSON_String].
    rewrite (proj2 (Nat.leb_gt CJSON_NESTING_LIMIT d)) by lia. by rewrite Er.
  - change (_ || _) with true in Hd. cbn iota in Hd. destruct (object_reads fmt d c s (Hitems ltac:(lia) Hc) Hn) as (r & Er & Hr).
    exists (object_text fmt d r). split_and!; [|done|by eexists _, _]. cbn [text_of]. change (Z.land cJSON_Object 255) with cJSON_Object. cbn [Z.eqb Pos.eqb cJSON_Object cJSON_Array cJSON_NULL cJSON_False cJSON_True cJSON_Number cJSON_Raw cJSON_String].
    rewrite (proj2 (Nat.leb_gt CJSON_NESTING_LIMIT d)) by lia. by rewrite Er.
Qed.

Lemma plain_typed n : plain n -> typed_node n.
Proof.
  induction n as [t v i x s c IH] using cJSON_induction. intros Hp. apply typed_children. apply plain_cases in Hp.
  assert (Hz : INT_MIN <= 0 <= INT_MAX /\ INT_MIN <= 1 <= INT_MAX) by (unfold INT_MIN, INT_MAX; lia).
  assert (Hc : Forall plain c -> Forall typed_node c).
  { revert IH. clear. induction 1 as [|n c Hn _ IH]; intros H; constructor; inversion H; subst; auto. }
  inversion Hp; subst; split_and!; try done; try (by constructor); try lia; try (by apply Hc).
  apply binary64_int. unfold exact_int, INT_MIN, INT_MAX in *. lia.
Qed.

Lemma parse_document n t req m :
  reads n t -> begins 93 t -> nul_free t -> (height n <= CJSON_NESTING_LIMIT)%nat -> nstring n = None ->
  exists m', cJSON_ParseWithOpts ok (Some t) req m = Parsed n (length t) m'.
Proof.
  intros Hr (c & r & Ec & Hc & _ & Hc128) Hn Hh Hname. unfold cJSON_ParseWithOpts. cbn [fmap option_fmap option_map]. rewrite c_str_id by (by apply nul_free_not_in).
  unfold cJSON_ParseWithLengthOpts. assert (Ex : t ++ [x00] = c :: r ++ [x00]) by (by rewrite Ec).
  rewrite Ex. rewrite <- Ex. rewrite allocate_ok. cbn [negb]. set (b := with_mem _ _). assert (Hv : view b = t ++ [x00]) by done.
  assert (Hbom : skip_utf8_bom b = Some b).
  { unfold skip_utf8_bom. change (offset b) with 0%nat. cbn [Nat.eqb negb]. rewrite bool_decide_eq_false_2; [by rewrite andb_false_r|].
    change (content b) with (t ++ [x00]). rewrite Ex. cbn [drop take]. intros [= E _]. rewrite E in Hc128. by vm_compute in Hc128. }
  rewrite Hbom, (skip_none b c (r ++ [x00])) by (done || by rewrite Hv). 
  destruct (Hr b [x00] (fuel_for (t ++ [x00])) Hv) as [m1 Hm]; [by apply stops_cons|done|rewrite Hv; unfold fuel_for; lia|].
  rewrite Hm, (unnamed_none n Hname). destruct req; [|by exists m1].
  set (b1 := moved b (length t) m1). assert (Hv1 : view b1 = [x00]) by (subst b1; rewrite view_moved, Hv, drop_app_length; done).
  assert (Hs : buffer_skip_whitespace b1 = b1).
  { unfold buffer_skip_whitespace. rewrite view_access by (rewrite Hv1; cbn; lia). cbn [negb]. fold (view b1). rewrite Hv1. cbn [count_while].
    change (u8 x00 <=? 32) with true. cbn iota. pose proof (view_length b1) as Hl. rewrite Hv1 in Hl. cbn [length] in Hl.
    rewrite (proj2 (Nat.eqb_eq _ _)) by lia. replace (pred (offset b1 + 1)) with (offset b1) by lia. by destruct b1. }
  rewrite Hs, view_access by (rewrite Hv1; cbn; lia). cbn [negb]. rewrite (view_byte _ _ _ Hv1), bool_decide_eq_true_2 by done. cbn [negb]. by exists m1.
Qed.

(** C20: a document survives printing and parsing: for a document the parser could have
    made, with texts without NUL, [int] numbers and at most 1000 levels, the printer
    writes its text, with or without format, when the memory suffices, and the parser
    reads that text, also where nothing may follow it, as the same document. *)
Theorem cJSON_roundtrip n fmt :
  plain n -> nstring n = None -> (height n <= CJSON_NESTING_LIMIT)%nat ->
  exists t, text_of fmt 0 n = Some t /\
    (Z.of_nat (length t) + 2 <= INT_MAX -> forall hooks junk m, (forall k, serves hooks k = true) ->
       exists m', print hooks junk (Some n) fmt m = Printed t m') /\
    (forall require_null_terminated m, exists m', cJSON_ParseWithOpts ok (Some t) require_null_terminated m = Parsed n (length t) m').
Proof.
  intros Hp Hn Hh. destruct (plain_reads n Hp fmt 0%nat Hh) as (t & Et & Hr & Hb). exists t. split_and!; [done| |].
  - intros Hl hooks junk m Hk. pose proof (print_exact hooks junk n fmt m (plain_typed n Hp)) as H. destruct (print _ _ _ _ _) as [t' m'|m'|]; [| |done].
    + destruct H as [H _]. rewrite Et in H. injection H as <-. by exists m'.
    + destruct H as [_ H]. specialize (H t Et Hk). lia.
  - intros req m. apply parse_document; try done. by eapply text_of_nul_free.
Qed.

(** ** Unicode escapes *)

(** UTF-8, as RFC 3629 defines it. *)
Definition utf8_reference (cp : Z) : list byte :=
  map to_u8
    (if cp <? 128 then [cp]
     else if cp <? 2048 then [192 + cp / 64; 128 + cp mod 64]
     else if cp <? 65536 then [224 + cp / 4096; 128 + cp / 64 mod 64; 128 + cp mod 64]
     else [240 + cp / 262144; 128 + cp / 4096 mod 64; 128 + cp / 64 mod 64; 128 + cp mod 64]).

Definition hex4_text (v : Z) : list byte := map hex_lower [v / 4096; v / 256 mod 16; v / 16 mod 16; v mod 16].

(** The escape of a code point: one sequence, or two for a surrogate pair. *)
Definition json_escape (cp : Z) : list byte :=
  let u (v : Z) := BACKSLASH :: to_u8 117 :: hex4_text v in
  if cp <? 65536 then u cp else u (0xD800 + (cp - 65536) / 1024) ++ u (0xDC00 + (cp - 65536) mod 1024).

Definition scalar_value (cp : Z) : Prop := 0 <= cp <= 0x10FFFF /\ ~ 0xD800 <= cp <= 0xDFFF.

Lemma small_case (P : Z -> bool) n z : forallb (fun i => P (Z.of_nat i)) (seq 0 n) = true -> 0 <= z < Z.of_nat n -> P z = true.
Proof.
  intros H Hz. rewrite forallb_forall in H. specialize (H (Z.to_nat z)). rewrite Z2Nat.id in H by lia. apply H, in_seq. lia.
Qed.

Lemma hex_digit_lower d : 0 <= d < 16 -> hex_digit (hex_lower d) = Some d.
Proof.
  intros Hd. pose proof (small_case (fun d => match hex_digit (hex_lower d) with Some x => x =? d | None => false end) 16 d ltac:(by vm_compute) ltac:(lia)) as H.
  cbn beta in H. destruct (hex_digit _); [|done]. f_equal. lia.
Qed.

Lemma parse_hex4_text v r : 0 <= v < 65536 -> parse_hex4 (hex4_text v ++ r) = v.
Proof.
  intros Hv. unfold parse_hex4, hex4_text. cbn [map app]. cbn [take hex4_loop]. rewrite take_0.
  assert (H1 : 0 <= v / 4096 < 16) by (split; [apply Z.div_pos|apply Z.div_lt_upper_bound]; lia).
  do 4 (rewrite hex_digit_lower by (done || apply Z.mod_pos_bound; lia); cbn [hex4_loop]). cbn zeta. rewrite !Z.shiftl_mul_pow2 by lia. change (2 ^ 4) with 16.
  pose proof (Z.div_mod v 16 ltac:(lia)). pose proof (Z.div_mod (v / 16) 16 ltac:(lia)). pose proof (Z.div_mod (v / 256) 16 ltac:(lia)).
  assert (E1 : v / 16 / 16 = v / 256) by (by rewrite Z.div_div by lia). assert (E2 : v / 256 / 16 = v / 4096) by (by rewrite Z.div_div by lia). lia.
Qed.

Lemma tail_byte cp : 0 <= cp -> Z.land (Z.lor cp 128) 191 = 128 + cp mod 64.
Proof.
  intros Hc. assert (E : Z.land (Z.lor cp 128) 191 = Z.land (Z.lor (cp mod 256) 128) 191).
  { change 191 with (Z.land 255 191) at 1. rewrite Z.land_assoc, Z.land_lor_distr_l. change 255 with (Z.ones 8) at 1.
    rewrite Z.land_ones by lia. done. }
  rewrite E. assert (Hm : cp mod 64 = (cp mod 256) mod 64) by (rewrite Z.mod_mod_divide; [done|by exists 4]). rewrite Hm.
  apply Z.eqb_eq. apply (small_case (fun x => Z.land (Z.lor x 128) 191 =? 128 + x mod 64) 256); [by vm_compute|apply Z.mod_pos_bound; lia].
Qed.

Lemma first_byte mark n x :
  forallb (fun i => Z.land (Z.lor (Z.of_nat i) mark) 255 =? mark + Z.of_nat i) (seq 0 n) = true -> 0 <= x < Z.of_nat n -> Z.land (Z.lor x mark) 255 = mark + x.
Proof. intros H Hx. apply Z.eqb_eq. by apply (small_case (fun x => Z.land (Z.lor x mark) 255 =? mark + x) n). Qed.

Lemma utf8_encode_reference cp : 0 <= cp <= 0x10FFFF -> utf8_encode cp = Some (utf8_reference cp).
Proof.
  intros Hc. unfold utf8_encode, utf8_reference.
  destruct (Z.ltb_spec cp 128); [change 127 with (Z.ones 7); rewrite Z.land_ones, Z.mod_small by lia; done|].
  assert (Hd : 0 <= cp / 64 /\ 0 <= cp / 64 / 64 /\ 0 <= cp / 64 / 64 / 64) by (split_and!; repeat apply Z.div_pos; lia). destruct Hd as (Hd1 & Hd2 & Hd3).
  cbn [utf8_tail map]. rewrite !Z.shiftr_div_pow2 by lia. change (2 ^ 6) with 64. rewrite !tail_byte by (done || lia).
  replace (cp / 4096) with (cp / 64 / 64) by (rewrite Z.div_div by lia; done). replace (cp / 262144) with (cp / 64 / 64 / 64) by (rewrite !Z.div_div by lia; done).
  destruct (Z.ltb_spec cp 2048).
  { rewrite (first_byte 192 32); [done|by vm_compute|]. split; [done|apply Z.div_lt_upper_bound; lia]. }
  destruct (Z.ltb_spec cp 65536).
  { rewrite (first_byte 224 16); [done|by vm_compute|]. split; [done|rewrite Z.div_div by lia; apply Z.div_lt_upper_bound; lia]. }
  rewrite (proj2 (Z.leb_le cp 1114111)) by lia.
  rewrite (first_byte 240 8); [done|by vm_compute|]. split; [done|rewrite !Z.div_div by lia; apply Z.div_lt_upper_bound; lia].
Qed.

Lemma hex4_at_text text p v r : drop p text = hex4_text v ++ r -> 0 <= v < 65536 -> hex4_at text p = Some v.
Proof.
  intros Hd Hv. unfold hex4_at. pose proof (f_equal length Hd) as Hl. rewrite length_drop, length_app in Hl. change (length (hex4_text v)) with 4%nat in Hl.
  rewrite (proj2 (Nat.leb_le _ _)) by lia. by rewrite Hd, parse_hex4_text.
Qed.

(** The halves of a pair make the code point. *)
Lemma surrogates h l : 0 <= h < 1024 -> 0 <= l < 1024 ->
  Z.lor (Z.shiftl (Z.land (0xD800 + h) 0x3FF) 10) (Z.land (0xDC00 + l) 0x3FF) = 1024 * h + l.
Proof.
  intros Hh Hl. change 0x3FF with (Z.ones 10). rewrite !Z.land_ones by lia. change (2 ^ 10) with 1024.
  rewrite (Z.add_comm 0xD800), (Z.add_comm 0xDC00). change 0xD800 with (54 * 1024). change 0xDC00 with (55 * 1024). rewrite !Z.mod_add, !Z.mod_small by lia.
  rewrite lor_shiftl_add by lia. change (2 ^ 10) with 1024. lia.
Qed.

(** C24: a [\u] escape stands for its code point: for every Unicode scalar value the
    escape of one or two sequences is decoded as its UTF-8 encoding, and its whole
    length is consumed. *)
Theorem utf16_escape_decodes text p e cp r :
  scalar_value cp -> drop p text = json_escape cp ++ r -> (p + length (json_escape cp) <= e)%nat ->
  utf16_literal_to_utf8 text p e = Some (length (json_escape cp), utf8_reference cp).
Proof.
  intros [Hc Hs] Hd He. unfold utf16_literal_to_utf8, json_escape in *. destruct (Z.ltb_spec cp 65536).
  - change (length (BACKSLASH :: to_u8 117 :: hex4_text cp)) with 6%nat in *. rewrite (proj2 (Nat.ltb_ge _ _)) by lia.
    rewrite (hex4_at_text text (p + 2) cp r); [|by rewrite <- drop_drop, Hd|lia].
    rewrite (proj2 (andb_false_iff _ _)) by lia. rewrite (proj2 (andb_false_iff (0xD800 <=? cp) _)) by lia.
    unfold encoded. by rewrite utf8_encode_reference.
  - set (h := (cp - 65536) / 1024) in *. set (l := (cp - 65536) mod 1024) in *.
    assert (Hh : 0 <= h < 1024) by (split; [apply Z.div_pos|apply Z.div_lt_upper_bound]; lia). assert (Hl : 0 <= l < 1024) by (apply Z.mod_pos_bound; lia).
    rewrite length_app in *. change (length (BACKSLASH :: to_u8 117 :: hex4_text (0xD800 + h))) with 6%nat in *. change (length (BACKSLASH :: to_u8 117 :: hex4_text (0xDC00 + l))) with 6%nat in *.
    rewrite <- app_assoc in Hd. rewrite (proj2 (Nat.ltb_ge e (p + 6))) by lia.
    rewrite (hex4_at_text text (p + 2) (0xD800 + h) ((BACKSLASH :: to_u8 117 :: hex4_text (0xDC00 + l)) ++ r)); [|by rewrite <- drop_drop, Hd|lia].
    rewrite (proj2 (andb_false_iff _ _)) by lia. rewrite (proj2 (andb_true_iff (0xD800 <=? 0xD800 + h) _)) by lia.
    rewrite (proj2 (Nat.ltb_ge e (p + 6 + 6))) by lia.
    assert (H6 : drop (p + 6) text = (BACKSLASH :: to_u8 117 :: hex4_text (0xDC00 + l)) ++ r) by (rewrite <- drop_drop, Hd; done).
    replace (p + 7)%nat with (p + 6 + 1)%nat by lia. rewrite <- (Nat.add_0_r (p + 6)) at 1. rewrite !(lookup_view text (p + 6) _ r) by (done || cbn; lia).
    cbn [lookup list_lookup]. change (negb (bool_decide (BACKSLASH = BACKSLASH)) || negb (u8 (to_u8 117) =? 117)) with false. cbn iota.
    rewrite (hex4_at_text text (p + 8) (0xDC00 + l) r); [|replace (p + 8)%nat with (p + 6 + 2)%nat by lia; by rewrite <- drop_drop, H6|lia].
    rewrite (proj2 (orb_false_iff _ _)) by lia. rewrite surrogates by done.
    assert (Ecp : 0x10000 + (1024 * h + l) = cp) by (pose proof (Z.div_mod (cp - 65536) 1024 ltac:(lia)); lia). rewrite Ecp.
    unfold encoded. by rewrite utf8_encode_reference.
Qed.

(** ** Witnesses *)

Definition text_node (name : option string) (s : string) : cJSON := Node cJSON_String (Some (bytes_of s)) 0 zero (bytes_of <$> name) [].
Definition int_node (name : option string) (i : Z) : cJSON := Node cJSON_Number None i (double_of_Z i) (bytes_of <$> name) [].

Definition no_memory : Mem := mkMem 0 0.

(** A document with every kind of value. *)
Definition sample : cJSON :=
  Node cJSON_Object None 0 zero None
    [Node cJSON_Array None 0 zero (Some (bytes_of "list")) [int_node None (-7); Node cJSON_True None 1 zero None []; Node cJSON_NULL None 0 zero None []];
     text_node (Some "key"%string) "value";
     Node cJSON_Object None 0 zero (Some [to_u8 10; QUOTE]) []].

Lemma sample_plain : plain sample.
Proof.
  assert (Hn : forall l : list byte, forallb (fun c => negb (u8 c =? 0)) l = true -> nul_free l) by exact literal_nul_free.
  assert (H7 : INT_MIN <= -7 <= INT_MAX) by (unfold INT_MIN, INT_MAX; lia).
  cbn. do 6 right. split_and!; try done; try (eexists; split; [done|by apply Hn]).
  - do 5 right. left. split_and!; try done; [do 3 right; left; done|do 2 right; left; done|by left].
  - do 4 right. left. split_and!; try done. eexists. split; [done|]. by apply Hn.
  - by do 6 right.
Qed.

Lemma cJSON_roundtrip_witness : exists t, text_of true 0 sample = Some t /\
    (Z.of_nat (length t) + 2 <= INT_MAX -> forall hooks junk m, (forall k, serves hooks k = true) -> exists m', print hooks junk (Some sample) true m = Printed t m') /\
    (forall require_null_terminated m, exists m', cJSON_ParseWithOpts ok (Some t) require_null_terminated m = Parsed sample (length t) m').
Proof. apply (cJSON_roundtrip sample true); [apply sample_plain|reflexivity|vm_compute; lia]. Defined.

Lemma cJSON_print_exact_witness :
  match print (mkHooks ok false) (fun _ => []) (Some sample) false no_memory with
  | Printed t m' => text_of false 0 sample = Some t /\ live m' = live no_memory + 1
  | Unprinted m' => live m' = live no_memory /\
      forall t, text_of false 0 sample = Some t -> (forall k, serves (mkHooks ok false) k = true) -> INT_MAX < Z.of_nat (length t) + 2
  | Overrun => False
  end.
Proof.
  destruct (cJSON_print_exact (mkHooks ok false) (fun _ => []) sample false no_memory (plain_typed sample sample_plain)) as [H _]. exact H.
Defined.

(** The grinning face, as a pair. *)
Lemma utf16_escape_decodes_witness :
  utf16_literal_to_utf8 (json_escape 0x1F600 ++ [QUOTE]) 0 12 = Some (length (json_escape 0x1F600), utf8_reference 0x1F600) /\
  utf8_reference 0x1F600 = map to_u8 [0xF0; 0x9F; 0x98; 0x80].
Proof.
  split; [|vm_compute; reflexivity].
  apply (utf16_escape_decodes (json_escape 0x1F600 ++ [QUOTE]) 0 12 0x1F600 [QUOTE]); [split; lia|apply drop_0|vm_compute; lia].
Defined.

(** ** Departures *)

(** An escape whose four digits are not hexadecimal is a NUL, not an error; the text of
    the C string ends there. *)
Example bad_escape_accepted :
  match cJSON_Parse ok (Some ([QUOTE; to_u8 97; BACKSLASH; to_u8 117; to_u8 90; to_u8 90; to_u8 90; to_u8 90; to_u8 98; QUOTE])) no_memory with
  | Parsed n _ _ => valuestring n = Some [to_u8 97; x00; to_u8 98] /\ c_str (default [] (valuestring n)) = [to_u8 97]
  | _ => False
  end.
Proof. vm_compute. done. Qed.

(** What follows the document is not looked at. *)
Example trailing_text_accepted :
  match cJSON_Parse ok (Some (bytes_of "true]]x")) no_memory with Parsed n k _ => ntype n = cJSON_True /\ k = 4%nat | _ => False end.
Proof. vm_compute. done. Qed.

(** Control characters inside a string are accepted, and a number may begin with zeros. *)
Example lax_values_accepted :
  match cJSON_Parse ok (Some [QUOTE; to_u8 10; QUOTE]) no_memory with Parsed n _ _ => valuestring n = Some [to_u8 10] | _ => False end /\
  match cJSON_Parse ok (Some (bytes_of "007")) no_memory with Parsed n _ _ => valueint n = 7 | _ => False end.
Proof. vm_compute. done. Qed.

Definition reparsed (n : cJSON) : option cJSON :=
  match text_of false 0 n with
  | Some t => match cJSON_Parse ok (Some t) no_memory with Parsed n _ _ => Some n | _ => None end
  | None => None
  end.

(** 15 digits are taken as soon as they are within one part in 2^52: the double after 0.3
    is printed as 0.3, and the largest double as a text that reads as infinity. *)
Example number_not_recovered :
  let d := decimal false 30000000000000004 (-17) 17 in
  let big := decimal false 17976931348623157 292 17 in
  reparsed (number_node d) = Some (number_node (decimal false 3 (-1) 1)) /\ d <> decimal false 3 (-1) 1 /\
  finite big = true /\ option_map (fun n => finite (valuedouble n)) (reparsed (number_node big)) = Some false.
Proof. vm_compute. split_and!; done. Qed.

(** With hooks of its own, so without [realloc], a print into a buffer of no bytes reads
    one byte of it. *)
Example print_buffered_zero_overruns : cJSON_PrintBuffered (mkHooks ok false) (fun _ => []) (Some sample) 0 false no_memory = Overrun.
Proof. vm_compute. done. Qed.
