(* ===== verification/CjsonTree.v ===== *)
(** * Making, copying and comparing JSON documents

    The constructors of cJSON 1.7.19
    ([src/firmware/managed_components/espressif__cjson/cJSON/cJSON.c]), what adds a new
    item to an object, the copy, the comparison and the minifier.

    A document is the tree of [Cjson]: an item that is added was made for that purpose,
    so that no pointer to it is kept in two places.  [hooks] says which allocations
    succeed and [Mem] counts the blocks, as in the parser. *)

From S2P Require Import Prelude AuditLog KeyPolicy Double Cjson CjsonPrint CjsonRoundtrip.

(** ** Types and values *)

Definition kind (n : cJSON) : Z := Z.land (ntype n) 255.

Definition is_kind (k : Z) (n : option cJSON) : bool := match n with Some n => kind n =? k | None => false end.

Definition cJSON_IsInvalid : option cJSON -> bool := is_kind cJSON_Invalid.
Definition cJSON_IsFalse : option cJSON -> bool := is_kind cJSON_False.
Definition cJSON_IsNull : option cJSON -> bool := is_kind cJSON_NULL.
Definition cJSON_IsArray : option cJSON -> bool := is_kind cJSON_Array.
Definition cJSON_IsObject : option cJSON -> bool := is_kind cJSON_Object.
Definition cJSON_IsRaw : option cJSON -> bool := is_kind cJSON_Raw.

Definition cJSON_HasObjectItem (object : option cJSON) (name : option (list byte)) : bool :=
  match cJSON_GetObjectItem object name with Some _ => true | None => false end.

Definition cJSON_GetNumberValue (n : option cJSON) : double :=
  if cJSON_IsNumber n then match n with Some n => valuedouble n | None => not_a_number end else not_a_number.

(** The result and the item afterwards. *)
Definition cJSON_SetNumberHelper (n : option cJSON) (number : double) : double * option cJSON :=
  match n with
  | None => (not_a_number, None)
  | Some (Node t v _ _ s c) => (number, Some (Node t v (saturate number) number s c))
  end.

Section Make.
Context (hooks : nat -> bool).

Definition block (m : Mem) : bool * Mem :=
  (hooks (made m), mkMem (S (made m)) (if hooks (made m) then live m + 1 else live m)).

Definition freed (n : Z) (m : Mem) : Mem := mkMem (made m) (live m - n).

(** What [cJSON_Delete] releases. *)
Definition blocks_opt (o : option cJSON) : Z := match o with Some n => blocks n | None => 0 end.

(** A copy of a C string. *)
Definition cJSON_strdup (s : option (list byte)) (m : Mem) : option (list byte) * Mem :=
  match s with
  | None => (None, m)
  | Some s => let (served, m) := block m in if served then (Some (c_str s), m) else (None, m)
  end.

(** [separate]: the new text is another block than the item's, so that [strcpy] is
    defined; the result is null when it is not. *)
Definition cJSON_SetValuestring (n : option cJSON) (s : option (list byte)) (separate : bool) (m : Mem) : option (list byte) * option cJSON * Mem :=
  match n with
  | Some (Node t v i d k c) =>
    if negb (has_flag t cJSON_String) || has_flag t cJSON_IsReference then (None, n, m)
    else
      match v, s with
      | Some old, Some new =>
        if (length (c_str new) <=? length (c_str old))%nat then
          if negb separate then (None, n, m)
          else (Some (c_str new), Some (Node t (Some (c_str new)) i d k c), m)
        else
          let (copy, m) := cJSON_strdup s m in
          match copy with
          | None => (None, n, m)
          | Some copy => (Some copy, Some (Node t (Some copy) i d k c), freed 1 m)
          end
      | _, _ => (None, n, m)
      end
  | None => (None, None, m)
  end.

(** ** Constructors *)

Definition create (n : cJSON) (m : Mem) : option cJSON * Mem :=
  let (served, m) := block m in (if served then Some n else None, m).

Definition bare (t : Z) : cJSON := Node t None 0 zero None [].

Definition cJSON_CreateNull : Mem -> option cJSON * Mem := create (bare cJSON_NULL).
Definition cJSON_CreateTrue : Mem -> option cJSON * Mem := create (bare cJSON_True).
Definition cJSON_CreateFalse : Mem -> option cJSON * Mem := create (bare cJSON_False).
Definition cJSON_CreateBool (boolean : bool) : Mem -> option cJSON * Mem := create (bare (if boolean then cJSON_True else cJSON_False)).
Definition cJSON_CreateNumber (num : double) : Mem -> option cJSON * Mem := create (number_node num).
Definition cJSON_CreateArray : Mem -> option cJSON * Mem := create (bare cJSON_Array).
Definition cJSON_CreateObject : Mem -> option cJSON * Mem := create (bare cJSON_Object).

(** An item with a copy of the text. *)
Definition create_text (t : Z) (s : option (list byte)) (m : Mem) : option cJSON * Mem :=
  let (n, m) := create (bare t) m in
  match n with
  | None => (None, m)
  | Some _ =>
    let (copy, m) := cJSON_strdup s m in
    match copy with
    | None => (None, freed (blocks (bare t)) m)
    | Some copy => (Some (Node t (Some copy) 0 zero None []), m)
    end
  end.

Definition cJSON_CreateString : option (list byte) -> Mem -> option cJSON * Mem := create_text cJSON_String.
Definition cJSON_CreateRaw : option (list byte) -> Mem -> option cJSON * Mem := create_text cJSON_Raw.

(** The text or the items stay the caller's. *)
Definition cJSON_CreateStringReference (s : option (list byte)) : Mem -> option cJSON * Mem :=
  create (Node (Z.lor cJSON_String cJSON_IsReference) s 0 zero None []).
Definition cJSON_CreateObjectReference (child : list cJSON) : Mem -> option cJSON * Mem :=
  create (Node (Z.lor cJSON_Object cJSON_IsReference) None 0 zero None child).
Definition cJSON_CreateArrayReference (child : list cJSON) : Mem -> option cJSON * Mem :=
  create (Node (Z.lor cJSON_Array cJSON_IsReference) None 0 zero None child).

(** The loop of the array constructors: [head] has been made. *)
Fixpoint fill_array {A} (make : A -> Mem -> option cJSON * Mem) (xs : list A) (head : list cJSON) (m : Mem) : option cJSON * Mem :=
  match xs with
  | [] => (Some (array_node head), m)
  | x :: xs =>
    let (n, m) := make x m in
    match n with
    | None => (None, freed (blocks (array_node head)) m)
    | Some n => fill_array make xs (head ++ [n]) m
    end
  end.

(** The caller's array has [count] elements at least. *)
Definition create_array {A} (make : A -> Mem -> option cJSON * Mem) (xs : option (list A)) (count : Z) (m : Mem) : option cJSON * Mem :=
  match xs with
  | None => (None, m)
  | Some xs =>
    if count <? 0 then (None, m)
    else
      let (a, m) := cJSON_CreateArray m in
      match a with
      | None => (None, m)
      | Some _ => fill_array make (take (Z.to_nat count) xs) [] m
      end
  end.

Definition cJSON_CreateIntArray : option (list Z) -> Z -> Mem -> option cJSON * Mem := create_array (fun i => cJSON_CreateNumber (double_of_Z i)).
(** A [float] is a [double] as it stands. *)
Definition cJSON_CreateFloatArray : option (list double) -> Z -> Mem -> option cJSON * Mem := create_array cJSON_CreateNumber.
Definition cJSON_CreateDoubleArray : option (list double) -> Z -> Mem -> option cJSON * Mem := create_array cJSON_CreateNumber.
Definition cJSON_CreateStringArray : option (list (option (list byte))) -> Z -> Mem -> option cJSON * Mem := create_array cJSON_CreateString.

(** ** Members *)

Definition append_child (o n : cJSON) : cJSON := let 'Node t v i d s c := o in Node t v i d s (c ++ [n]).

Inductive added : Type :=
| Added (object : cJSON) (m : Mem)
| NotAdded (m : Mem).

Definition add_item_to_object (object : option cJSON) (name : option (list byte)) (item : option cJSON) (constant_key : bool) (m : Mem) : added :=
  match object, name, item with
  | Some o, Some key, Some (Node t v i d s c) =>
    let release (m : Mem) := if has_flag t cJSON_StringIsConst then m else freed (present s) m in
    if constant_key then Added (append_child o (Node (Z.lor t cJSON_StringIsConst) v i d (Some key) c)) (release m)
    else
      let (new_key, m) := cJSON_strdup name m in
      match new_key with
      | None => NotAdded m
      | Some k => Added (append_child o (Node (Z.ldiff t cJSON_StringIsConst) v i d (Some k) c)) (release m)
      end
  | _, _, _ => NotAdded m
  end.

Definition cJSON_AddItemToObject (object : option cJSON) (name : option (list byte)) (item : option cJSON) (m : Mem) : added :=
  add_item_to_object object name item false m.
Definition cJSON_AddItemToObjectCS (object : option cJSON) (name : option (list byte)) (item : option cJSON) (m : Mem) : added :=
  add_item_to_object object name item true m.

(** A new item is added, or deleted when it cannot be. *)
Definition add_created (make : Mem -> option cJSON * Mem) (object : option cJSON) (name : option (list byte)) (m : Mem) : added :=
  let (item, m) := make m in
  match add_item_to_object object name item false m with
  | Added o m => Added o m
  | NotAdded m => NotAdded (match item with Some n => freed (blocks n) m | None => m end)
  end.

Definition cJSON_AddNullToObject : option cJSON -> option (list byte) -> Mem -> added := add_created cJSON_CreateNull.
Definition cJSON_AddTrueToObject : option cJSON -> option (list byte) -> Mem -> added := add_created cJSON_CreateTrue.
Definition cJSON_AddFalseToObject : option cJSON -> option (list byte) -> Mem -> added := add_created cJSON_CreateFalse.
Definition cJSON_AddBoolToObject (o : option cJSON) (k : option (list byte)) (boolean : bool) : Mem -> added := add_created (cJSON_CreateBool boolean) o k.
Definition cJSON_AddNumberToObject (o : option cJSON) (k : option (list byte)) (number : double) : Mem -> added := add_created (cJSON_CreateNumber number) o k.
Definition cJSON_AddStringToObject (o : option cJSON) (k s : option (list byte)) : Mem -> added := add_created (cJSON_CreateString s) o k.
Definition cJSON_AddRawToObject (o : option cJSON) (k raw : option (list byte)) : Mem -> added := add_created (cJSON_CreateRaw raw) o k.
Definition cJSON_AddObjectToObject : option cJSON -> option (list byte) -> Mem -> added := add_created cJSON_CreateObject.
Definition cJSON_AddArrayToObject : option cJSON -> option (list byte) -> Mem -> added := add_created cJSON_CreateArray.

(** ** Copies *)

Definition CJSON_CIRCULAR_LIMIT : nat := (10 * 1000)%nat.

Section Children.
Context (duplicate : cJSON -> Mem -> option cJSON * Mem).

(** The children so far, and whether all could be copied. *)
Fixpoint duplicate_children (c : list cJSON) (copied : list cJSON) (m : Mem) : bool * list cJSON * Mem :=
  match c with
  | [] => (true, copied, m)
  | n :: c =>
    let (copy, m) := duplicate n m in
    match copy with
    | None => (false, copied, m)
    | Some copy => duplicate_children c (copied ++ [copy]) m
    end
  end.
End Children.

Fixpoint cJSON_Duplicate_rec (n : cJSON) (depth : nat) (recurse : bool) (m : Mem) {struct n} : option cJSON * Mem :=
  match n with
  | Node t v i d s c =>
    let (served, m) := block m in
    if negb served then (None, m)
    else
      let t' := Z.ldiff t cJSON_IsReference in
      let (v', m) := cJSON_strdup v m in
      let newitem := Node t' v' i d None [] in
      if bool_decide (v <> None) && bool_decide (v' = None) then (None, freed (blocks newitem) m)
      else
        let (s', m) := if has_flag t cJSON_StringIsConst then (s, m) else cJSON_strdup s m in
        let newitem := Node t' v' i d s' [] in
        if bool_decide (s <> None) && bool_decide (s' = None) then (None, freed (blocks newitem) m)
        else if negb recurse then (Some newitem, m)
        else
          let '(complete, c', m) :=
            match c with
            | [] => (true, [], m)
            | _ => if (CJSON_CIRCULAR_LIMIT <=? depth)%nat then (false, [], m)
                   else duplicate_children (fun n => cJSON_Duplicate_rec n (depth + 1) true) c [] m
            end in
          let newitem := Node t' v' i d s' c' in
          if complete then (Some newitem, m) else (None, freed (blocks newitem) m)
  end.

Definition cJSON_Duplicate (n : option cJSON) (recurse : bool) (m : Mem) : option cJSON * Mem :=
  match n with None => (None, m) | Some n => cJSON_Duplicate_rec n 0 recurse m end.
End Make.

(** ** Comparison *)

(** Two different items; [fuel] is a bound of the levels. *)
Fixpoint compare (fuel : nat) (case_sensitive : bool) (a b : cJSON) : bool :=
  match fuel with
  | O => false
  | S fuel =>
    let k := kind a in
    if negb (k =? kind b) then false
    else if (k =? cJSON_False) || (k =? cJSON_True) || (k =? cJSON_NULL) then true
    else if k =? cJSON_Number then compare_double (valuedouble a) (valuedouble b)
    else if (k =? cJSON_String) || (k =? cJSON_Raw) then
      match valuestring a, valuestring b with
      | Some x, Some y => bool_decide (c_str x = c_str y)
      | _, _ => false
      end
    else if k =? cJSON_Array then
      (fix loop (xs ys : list cJSON) : bool :=
         match xs, ys with
         | [], [] => true
         | x :: xs, y :: ys => if compare fuel case_sensitive x y then loop xs ys else false
         | _, _ => false
         end) (child a) (child b)
    else if k =? cJSON_Object then
      let within (a b : cJSON) :=
        forallb (fun x => match get_object_item (Some b) (nstring x) case_sensitive with
                          | Some y => compare fuel case_sensitive x y
                          | None => false
                          end) (child a) in
      within a b && within b a
    else false
  end.

Fixpoint levels (n : cJSON) : nat := let 'Node _ _ _ _ _ c := n in S (fold_right (fun n h => Nat.max (levels n) h) 0%nat c).

Definition cJSON_Compare (a b : option cJSON) (case_sensitive : bool) : bool :=
  match a, b with Some a, Some b => compare (levels a) case_sensitive a b | _, _ => false end.

(** ** The minifier *)

Definition SLASH : byte := to_u8 47.
Definition STAR : byte := to_u8 42.

Inductive scan_state : Type := InText | InString | InLine | InBlock.

(** [json] is read up to its NUL; what is written never passes what has been read. *)
Fixpoint minify (st : scan_state) (json : list byte) : list byte :=
  match json with
  | [] => []
  | c :: r =>
    match st with
    | InText =>
      if (u8 c =? 32) || (u8 c =? 9) || (u8 c =? 13) || (u8 c =? 10) then minify InText r
      else if bool_decide (c = SLASH) then
        match r with
        | x :: r' => if bool_decide (x = SLASH) then minify InLine r' else if bool_decide (x = STAR) then minify InBlock r' else minify InText r
        | [] => []
        end
      else if bool_decide (c = QUOTE) then c :: minify InString r
      else c :: minify InText r
    | InString =>
      if bool_decide (c = QUOTE) then c :: minify InText r
      else if bool_decide (c = BACKSLASH) then
        match r with
        | x :: r' => if bool_decide (x = QUOTE) then c :: x :: minify InString r' else c :: minify InString r
        | [] => [c]
        end
      else c :: minify InString r
    | InLine => if u8 c =? 10 then minify InText r else minify InLine r
    | InBlock =>
      match r with
      | x :: r' => if bool_decide (c = STAR) && bool_decide (x = SLASH) then minify InText r' else minify InBlock r
      | [] => []
      end
    end
  end.

Definition cJSON_Minify (json : option (list byte)) : option (list byte) := (fun s => minify InText (c_str s)) <$> json.

(** ** Copies are exact and accounted for *)

(** What a copy is: its own texts and children, no longer a reference. *)
Fixpoint copied (n : cJSON) : cJSON :=
  let 'Node t v i d s c := n in
  Node (Z.ldiff t cJSON_IsReference) (c_str <$> v) i d (if has_flag t cJSON_StringIsConst then s else c_str <$> s) (map copied c).

Lemma has_flag_bit t k : 0 <= k -> has_flag t (2 ^ k) = Z.testbit t k.
Proof.
  intros Hk. unfold has_flag. destruct (Z.testbit t k) eqn:E.
  - rewrite (proj2 (Z.eqb_neq _ _)); [done|]. intros H. apply (f_equal (fun z => Z.testbit z k)) in H. rewrite Z.land_spec, E, Z.pow2_bits_true, Z.bits_0 in H by done. done.
  - rewrite (proj2 (Z.eqb_eq _ _)); [done|]. apply Z.bits_inj'. intros j Hj. rewrite Z.land_spec, Z.bits_0. destruct (Z.eq_dec k j) as [<-|Hne]; [by rewrite E|].
    by rewrite Z.pow2_bits_false, andb_false_r.
Qed.

Lemma copy_flags t :
  has_flag (Z.ldiff t cJSON_IsReference) cJSON_IsReference = false /\
  has_flag (Z.ldiff t cJSON_IsReference) cJSON_StringIsConst = has_flag t cJSON_StringIsConst.
Proof.
  change cJSON_IsReference with (2 ^ 8). change cJSON_StringIsConst with (2 ^ 9). rewrite !has_flag_bit by lia. rewrite !Z.ldiff_spec, Z.pow2_bits_true, Z.pow2_bits_false by lia.
  split; [apply andb_false_r|apply andb_true_r].
Qed.

Lemma blocks_copy t v i d s c :
  blocks (Node (Z.ldiff t cJSON_IsReference) v i d s c) = 1 + blocks_all c + present v + (if has_flag t cJSON_StringIsConst then 0 else present s).
Proof. cbn [blocks]. destruct (copy_flags t) as [-> ->]. unfold blocks_all. lia. Qed.

Section Copies.
Context (hooks : nat -> bool).

Lemma strdup_spec s m :
  let (s', m') := cJSON_strdup hooks s m in
  live m' = live m + present s' /\ (s' = c_str <$> s \/ s' = None /\ s <> None /\ exists k, hooks k = false).
Proof.
  unfold cJSON_strdup, block. destruct s as [s|]; [|by cbn; split; [lia|left]]. destruct (hooks (made m)) eqn:E; cbn; (split; [lia|]); [by left|].
  right. split_and!; [done|done|by eexists].
Qed.

Definition copy_ok (n : cJSON) (budget : nat) (m : Mem) (r : option cJSON * Mem) : Prop :=
  match r with
  | (Some n', m') => n' = copied n /\ live m' = live m + blocks n'
  | (None, m') => live m' = live m /\ ((exists k, hooks k = false) \/ (CJSON_CIRCULAR_LIMIT < budget)%nat)
  end.

Lemma duplicate_children_spec dup budget c : Forall (fun n => forall m, copy_ok n (budget n) m (dup n m)) c ->
  forall l m, let '(ok, l', m') := duplicate_children dup c l m in
    live m' = live m + blocks_all l' - blocks_all l /\
    if ok then l' = l ++ map copied c else (exists k, hooks k = false) \/ exists n, n ∈ c /\ (CJSON_CIRCULAR_LIMIT < budget n)%nat.
Proof.
  induction 1 as [|n c Hn _ IH]; intros l m; cbn [duplicate_children map]; [rewrite app_nil_r; split; [lia|done]|].
  specialize (Hn m). destruct (dup n m) as [[n'|] m1]; cbn [copy_ok] in Hn.
  - destruct Hn as [-> Hl]. specialize (IH (l ++ [copied n]) m1). destruct (duplicate_children dup c _ m1) as [[b l'] m']. destruct IH as [IH1 IH2].
    rewrite blocks_all_app in IH1. split; [unfold blocks_all in *; cbn [fold_right] in *; lia|]. destruct b; [by rewrite IH2, <- app_assoc|].
    destruct IH2 as [?|(x & Hx & ?)]; [by left|right]. exists x. split; [by right|done].
  - destruct Hn as [Hl Hw]. split; [lia|]. destruct Hw as [?|?]; [by left|right]. exists n. split; [left|done].
Qed.

Lemma levels_child c n : n ∈ c -> (levels n <= fold_right (fun n h => Nat.max (levels n) h) 0 c)%nat.
Proof. induction 1 as [n c|n x c _ IH]; cbn [fold_right]; lia. Qed.

Lemma children_step c depth m :
  Forall (fun n => forall depth m, copy_ok n (depth + levels n - 1) m (cJSON_Duplicate_rec hooks n depth true m)) c ->
  let '(complete, c', m') :=
    match c with
    | [] => (true, [], m)
    | _ => if (CJSON_CIRCULAR_LIMIT <=? depth)%nat then (false, [], m)
           else duplicate_children (fun n => cJSON_Duplicate_rec hooks n (depth + 1) true) c [] m
    end in
  live m' = live m + blocks_all c' /\
  if complete then c' = map copied c
  else (exists k, hooks k = false) \/ (CJSON_CIRCULAR_LIMIT < depth + S (fold_right (fun n h => Nat.max (levels n) h) 0 c) - 1)%nat.
Proof.
  intros IH. destruct c as [|x c]; [cbn; split; [lia|done]|]. destruct (Nat.leb_spec CJSON_CIRCULAR_LIMIT depth).
  { split; [cbn; lia|]. right. cbn [fold_right]. assert (0 < levels x)%nat by (destruct x; cbn; lia). lia. }
  pose proof (duplicate_children_spec (fun n => cJSON_Duplicate_rec hooks n (depth + 1) true) (fun n => (depth + 1 + levels n - 1)%nat) (x :: c)) as Hd.
  specialize (Hd ltac:(eapply Forall_impl; [|exact IH]; intros n Hn m'; apply Hn) [] m).
  destruct (duplicate_children _ _ _ _) as [[complete c'] m']. destruct Hd as [Hl Hd]. cbn in Hl. split; [lia|]. destruct complete; [done|].
  destruct Hd as [?|(n & Hn & Hlim)]; [by left|right]. apply levels_child in Hn. lia.
Qed.

Lemma duplicate_spec n : forall depth m, copy_ok n (depth + levels n - 1) m (cJSON_Duplicate_rec hooks n depth true m).
Proof.
  induction n as [t v i d s c IH] using cJSON_induction. intros depth m. cbn [cJSON_Duplicate_rec]. unfold block at 1.
  destruct (hooks (made m)) eqn:E0; cbn [negb]; [|cbn; split; [done|left; by eexists]]. set (m0 := mkMem _ _).
  pose proof (strdup_spec v m0) as Hv. destruct (cJSON_strdup hooks v m0) as [v' m1]. destruct Hv as [Hl1 Hv].
  destruct (bool_decide (v <> None) && bool_decide (v' = None)) eqn:E1.
  { apply andb_true_iff in E1 as [E1 E1']. apply bool_decide_eq_true in E1, E1'. subst v'. cbn [copy_ok]. split; [unfold freed; cbn [live]; rewrite blocks_copy; cbn in *; destruct (has_flag t _); lia|].
    left. destruct Hv as [Hv|(_ & _ & ?)]; [by destruct v|done]. }
  assert (Ev : v' = c_str <$> v). { destruct Hv as [?|(-> & Hn & _)]; [done|]. rewrite !bool_decide_eq_true_2 in E1 by done. done. } clear Hv E1.
  assert (Hs : let (s', m2) := if has_flag t cJSON_StringIsConst then (s, m1) else cJSON_strdup hooks s m1 in
     live m2 = live m1 + (if has_flag t cJSON_StringIsConst then 0 else present s') /\
     (s' = (if has_flag t cJSON_StringIsConst then s else c_str <$> s) \/ s' = None /\ s <> None /\ exists k, hooks k = false)).
  { destruct (has_flag t cJSON_StringIsConst); [split; [lia|by left]|apply strdup_spec]. }
  destruct (if has_flag t cJSON_StringIsConst then (s, m1) else cJSON_strdup hooks s m1) as [s' m2]. destruct Hs as [Hl2 Hs].
  destruct (bool_decide (s <> None) && bool_decide (s' = None)) eqn:E2.
  { apply andb_true_iff in E2 as [E2 E2']. apply bool_decide_eq_true in E2, E2'. subst s'. cbn [copy_ok]. split; [unfold freed; cbn [live]; rewrite blocks_copy; cbn in *; destruct (has_flag t _); lia|].
    left. destruct Hs as [Hs|(_ & _ & ?)]; [|done]. destruct (has_flag t _); [by subst|by destruct s]. }
  assert (Es : s' = (if has_flag t cJSON_StringIsConst then s else c_str <$> s)).
  { destruct Hs as [?|(-> & Hn & _)]; [done|]. rewrite !bool_decide_eq_true_2 in E2 by done. done. } clear Hs E2. cbn [negb].
  pose proof (children_step c depth m2 IH) as Hc. cbn zeta in Hc.
  destruct (match c with [] => _ | _ => _ end) as [[complete c'] m3]. destruct Hc as [Hl3 Hc].
  assert (Hlive : live m3 = live m + blocks (Node (Z.ldiff t cJSON_IsReference) v' i d s' c')) by (rewrite blocks_copy; subst m0; cbn [live] in *; lia).
  destruct complete.
  - subst v' s' c'. by split.
  - split; [unfold freed; cbn [live]; lia|done].
Qed.

(** a copy is exact and leaks nothing: a recursive copy has the same types, numbers,
    texts and children, owns every block that was added to the memory and is no reference
    any more; when an allocation fails everything the copy had made is released again,
    and with enough memory only a document deeper than the limit fails. *)
Theorem cJSON_duplicate_exact n m :
  match cJSON_Duplicate hooks (Some n) true m with
  | (Some n', m') => n' = copied n /\ live m' = live m + blocks n'
  | (None, m') => live m' = live m /\ ((exists k, hooks k = false) \/ (CJSON_CIRCULAR_LIMIT < levels n - 1)%nat)
  end.
Proof. pose proof (duplicate_spec n 0 m) as H. cbn [cJSON_Duplicate]. by destruct (cJSON_Duplicate_rec hooks n 0 true m) as [[n'|] m']. Qed.
End Copies.

(** ** Members are added or nothing is left *)

Section Adding.
Context (hooks : nat -> bool).

(** A constructor: what it makes is what was allocated, is unnamed and owns itself. *)
Definition makes (make : Mem -> option cJSON * Mem) (n : cJSON) : Prop :=
  forall m, match make m with
  | (Some n', m') => n' = n /\ live m' = live m + blocks n
  | (None, m') => live m' = live m /\ exists k, hooks k = false
  end.

Definition own (n : cJSON) : Prop := nstring n = None /\ has_flag (ntype n) cJSON_IsReference = false /\ has_flag (ntype n) cJSON_StringIsConst = false.

Lemma create_makes n : blocks n = 1 -> makes (create hooks n) n.
Proof. intros Hb m. unfold create, block. destruct (hooks (made m)) eqn:E; cbn; [split; [done|lia]|split; [done|by eexists]]. Qed.

Lemma create_text_makes t s : (t = cJSON_String \/ t = cJSON_Raw) -> makes (create_text hooks t (Some s)) (Node t (Some (c_str s)) 0 zero None []).
Proof.
  intros Ht m. unfold create_text. pose proof (create_makes (bare t) ltac:(by destruct Ht as [->| ->]) m) as H1.
  destruct (create hooks (bare t) m) as [[n|] m1]; [|done]. destruct H1 as [-> H1].
  pose proof (strdup_spec hooks (Some s) m1) as H2. destruct (cJSON_strdup hooks (Some s) m1) as [copy m2]. destruct H2 as [H2 [->|(-> & _ & Hk)]].
  - cbn [fmap option_fmap option_map present] in *. split; [done|]. destruct Ht as [->| ->]; change (blocks (bare _)) with 1 in H1; change (blocks _) with 2; lia.
  - cbn [present] in H2. split; [unfold freed; cbn [live]; lia|done].
Qed.

Lemma blocks_append o n : has_flag (ntype o) cJSON_IsReference = false -> blocks (append_child o n) = blocks o + blocks n.
Proof.
  destruct o as [t v i d s c]. cbn [ntype append_child blocks]. intros ->. change (fold_right (fun n a => blocks n + a) 0 (c ++ [n])) with (blocks_all (c ++ [n])).
  change (fold_right (fun n a => blocks n + a) 0 c) with (blocks_all c). rewrite blocks_all_app. cbn. lia.
Qed.

Lemma ldiff_clear t : has_flag t cJSON_StringIsConst = false -> Z.ldiff t cJSON_StringIsConst = t.
Proof.
  unfold has_flag. intros H. apply negb_false_iff, Z.eqb_eq in H.
  apply Z.bits_inj'. intros k Hk. rewrite Z.ldiff_spec. apply (f_equal (fun z => Z.testbit z k)) in H. rewrite Z.land_spec, ?Z.bits_0 in H.
  destruct (Z.testbit t k); [cbn in *; by rewrite H|done].
Qed.

(** The member that is added: the item under a copy of the name. *)
Lemma add_created_spec make n object name m :
  makes make n -> own n ->
  match add_created hooks make object name m with
  | Added o' m' => exists o k, object = Some o /\ name = Some k /\ o' = append_child o (with_name (c_str k) n) /\
      (has_flag (ntype o) cJSON_IsReference = false -> live m' - live m = blocks o' - blocks o)
  | NotAdded m' => live m' = live m /\ (object = None \/ name = None \/ exists k, hooks k = false)
  end.
Proof.
  intros Hm (H1 & H2 & H3). unfold add_created. specialize (Hm m). destruct (make m) as [[n'|] m1].
  2:{ destruct Hm as [Hm Hk]. destruct object, name; cbn; split; try done; auto. }
  destruct Hm as [-> Hm]. destruct object as [o|]; [|split; [unfold freed; cbn [live]; lia|by left]]. destruct name as [k|]; [|split; [unfold freed; cbn [live]; lia|auto]].
  destruct n as [t v i d s c]. cbn [nstring ntype] in H1, H2, H3. subst s. cbn [add_item_to_object].
  pose proof (strdup_spec hooks (Some k) m1) as Hs. destruct (cJSON_strdup hooks (Some k) m1) as [s m2]. destruct Hs as [Hs [->|(-> & _ & Hk)]].
  - cbn [fmap option_fmap option_map]. rewrite H3, (ldiff_clear t H3). exists o, k. split_and!; [done|done|done|]. intros Hr. rewrite blocks_append by done.
    cbn [with_name]. cbn in Hs.
    pose proof (blocks_named (c_str k) (Node t v i d None c) eq_refl H3) as Hb. cbn [with_name] in Hb. rewrite Hb. cbn [freed live present]. lia.
  - cbn [present] in Hs. split; [cbn [freed live]; lia|auto].
Qed.

(** What was added under a new name is found under it. *)
Lemma find_item_app cs name l n :
  Forall (fun x => exists k, nstring x = Some k /\ c_str k <> c_str name) l -> nstring n = Some name -> find_item true name (l ++ n :: cs) = Some n.
Proof.
  intros Hl Hn. induction Hl as [|x l (k & Hx & Hk) _ IH]; cbn [app find_item].
  - rewrite Hn. by rewrite bool_decide_eq_true_2.
  - rewrite Hx. rewrite bool_decide_eq_false_2; [done|congruence].
Qed.
End Adding.

(** ** The minifier undoes the formatting *)

(** No text of the document has a backslash. *)
Fixpoint no_backslash (n : cJSON) : Prop :=
  let 'Node _ v _ _ s c := n in
  (BACKSLASH ∉ default [] v) /\ (BACKSLASH ∉ default [] s) /\ fold_right (fun n P => no_backslash n /\ P) True c.

(** A byte that is kept outside strings, on its own. *)
Definition solid (c : byte) : bool :=
  negb ((u8 c =? 32) || (u8 c =? 9) || (u8 c =? 13) || (u8 c =? 10)) && negb (bool_decide (c = SLASH)) && negb (bool_decide (c = QUOTE)).

Definition layout_space (c : byte) : bool := (u8 c =? 32) || (u8 c =? 9) || (u8 c =? 13) || (u8 c =? 10).

Lemma minify_solid t r : forallb solid t = true -> minify InText (t ++ r) = t ++ minify InText r.
Proof.
  induction t as [|c t IH]; [done|]. cbn [forallb app minify]. unfold solid at 1. rewrite !andb_true_iff, !negb_true_iff. intros [[[H1 H2] H3] Ht].
  by rewrite H1, H2, H3, IH.
Qed.

Lemma minify_space ws r : forallb layout_space ws = true -> minify InText (ws ++ r) = minify InText r.
Proof. induction ws as [|c ws IH]; [done|]. cbn [forallb app minify]. unfold layout_space at 1. intros H. apply andb_true_iff in H as [-> H]. by apply IH. Qed.

Lemma tabs_space d : forallb layout_space (replicate d TAB) = true.
Proof. induction d as [|d IH]; [done|]. cbn [replicate forallb]. by rewrite IH. Qed.

Lemma minify_char c r : c <> QUOTE -> c <> BACKSLASH -> minify InString (c :: r) = c :: minify InString r.
Proof. intros H1 H2. cbn [minify]. by rewrite (bool_decide_eq_false_2 _ H1), (bool_decide_eq_false_2 _ H2). Qed.

Lemma minify_escape x r : x <> BACKSLASH -> minify InString (BACKSLASH :: x :: r) = BACKSLASH :: x :: minify InString r.
Proof.
  intros Hx. destruct (decide (x = QUOTE)) as [->|Hq]; [done|]. rewrite <- (minify_char x r Hq Hx). cbn [minify].
  change (bool_decide (BACKSLASH = QUOTE)) with false. change (bool_decide (BACKSLASH = BACKSLASH)) with true. cbn iota.
  by rewrite (bool_decide_eq_false_2 _ Hq).
Qed.

Lemma minify_string s r : nul_free s -> BACKSLASH ∉ s -> minify InString (escaped s ++ QUOTE :: r) = escaped s ++ QUOTE :: minify InText r.
Proof.
  induction 1 as [|c s Hc _ IH]; intros Hb; [done|]. apply not_elem_of_cons in Hb as [Hb Hs]. specialize (IH Hs).
  change (escaped (c :: s)) with (escaped_byte c ++ escaped s). rewrite <- !app_assoc.
  destruct (escaped_cases c Hc) as [(-> & H1 & H2)|[(x & -> & Hx)|(h & l & -> & _ & H1 & H2 & H3 & H4 & _)]]; cbn [app].
  - by rewrite minify_char, IH.
  - rewrite minify_escape, IH; [done|]. intros ->. change (escape BACKSLASH) with (Some BACKSLASH) in Hx. congruence.
  - rewrite minify_escape by done. rewrite !minify_char by done. by rewrite IH.
Qed.

Lemma minify_quoted s r : nul_free s -> BACKSLASH ∉ s -> minify InText (quoted (Some s) ++ r) = quoted (Some s) ++ minify InText r.
Proof.
  intros Hn Hb. unfold quoted. change (default [] (Some s)) with s. rewrite (c_str_id s) by (by apply nul_free_not_in). cbn [app]. rewrite <- !app_assoc. cbn [app].
  rewrite <- minify_string by done. done.
Qed.

Lemma number_solid t : forallb number_char t = true -> forallb solid t = true.
Proof.
  induction t as [|c t IH]; [done|]. cbn [forallb]. rewrite !andb_true_iff. intros [Hc Ht]. split; [|by apply IH].
  unfold number_char, is_digit in Hc. unfold solid. rewrite (bool_decide_eq_false_2 (c = SLASH)), (bool_decide_eq_false_2 (c = QUOTE)).
  - rewrite !andb_true_r, negb_true_iff. lia.
  - intros ->. by vm_compute in Hc.
  - intros ->. by vm_compute in Hc.
Qed.

(** The formatted text of [n] becomes the other one. *)
Definition unformats (d : nat) (n : cJSON) : Prop :=
  exists t t', text_of true d n = Some t /\ text_of false d n = Some t' /\ forall r, minify InText (t ++ r) = t' ++ minify InText r.

Lemma elements_unformat d l : Forall (unformats d) l ->
  exists t t', elements_text (text_of true d) true l = Some t /\ elements_text (text_of false d) false l = Some t' /\
    forall r, minify InText (t ++ r) = t' ++ minify InText r.
Proof.
  induction 1 as [|n l (t & t' & E & E' & H) _ (u & u' & F & F' & IH)]; [by exists [], []|]. cbn [elements_text]. rewrite E, E', F, F'.
  eexists _, _. split_and!; [done|done|]. intros r. rewrite <- !app_assoc, H. f_equal. destruct l as [|m l]; [cbn [app]; apply IH|].
  cbn [app]. change (to_u8 44 :: to_u8 32 :: u ++ r) with ([to_u8 44] ++ [to_u8 32] ++ u ++ r). rewrite minify_solid, minify_space by done. cbn [app]. by rewrite IH.
Qed.

Lemma members_unformat d l :
  Forall (unformats d) l -> Forall (fun n => exists k, nstring n = Some k /\ nul_free k /\ BACKSLASH ∉ k) l ->
  exists t t', members_text (text_of true d) true d l = Some t /\ members_text (text_of false d) false d l = Some t' /\
    forall r, minify InText (t ++ r) = t' ++ minify InText r.
Proof.
  induction 1 as [|n l (t & t' & E & E' & H) _ IH]; [by exists [], []|]. intros Hk. inversion Hk as [|? ? (k & En & Hn & Hb) Hl]; subst.
  destruct (IH Hl) as (u & u' & F & F' & IH'). cbn [members_text]. unfold member_text. rewrite E, E', F, F'. cbn [fmap option_fmap option_map].
  eexists _, _. split_and!; [done|done|]. intros r. rewrite En. repeat (rewrite <- app_assoc || cbn [app]).
  rewrite minify_space by apply tabs_space. rewrite minify_quoted by done. f_equal.
  match goal with |- minify InText (to_u8 58 :: TAB :: ?x) = _ => change (to_u8 58 :: TAB :: x) with ([to_u8 58] ++ [TAB] ++ x) end.
  rewrite minify_solid, minify_space by done. cbn [app]. f_equal. rewrite H. f_equal. destruct (bool_decide (l = [])); cbn [app].
  - change (LF :: u ++ r) with ([LF] ++ u ++ r). by rewrite minify_space.
  - change (to_u8 44 :: LF :: u ++ r) with ([to_u8 44] ++ [LF] ++ u ++ r). rewrite minify_solid, minify_space by done. cbn [app]. by rewrite IH'.
Qed.

Lemma backslash_free n : no_backslash n ->
  (BACKSLASH ∉ default [] (valuestring n)) /\ (BACKSLASH ∉ default [] (nstring n)) /\ Forall no_backslash (child n).
Proof. destruct n as [t v i d s c]. cbn. intros (H1 & H2 & H3). split_and!; [done|done|]. by apply fold_conj. Qed.

Lemma plain_unformats n : plain n -> no_backslash n -> forall d, (d + height n <= CJSON_NESTING_LIMIT)%nat -> unformats d n.
Proof.
  induction n as [t v i x s c IH] using cJSON_induction. intros Hp Hb d Hd. apply backslash_free in Hb as (Hb1 & _ & Hbc). cbn [valuestring child] in Hb1, Hbc.
  rewrite heights_children in Hd.
  assert (Hitems : (d + 1 + heights c <= CJSON_NESTING_LIMIT)%nat -> Forall plain c -> Forall (unformats (d + 1)) c).
  { intros Hk Hc. assert (Hh := heights_forall c _ (le_n _)). clear Hp Hd. revert IH Hc Hbc Hh Hk. generalize (heights c) as h. intros h.
    induction 1 as [|n c Hn _ IHc]; intros Hc Hbc Hh Hk; constructor; inversion Hc; inversion Hbc; inversion Hh; subst; [apply Hn; [done|done|lia]|by apply IHc]. }
  apply plain_cases in Hp. inversion Hp as [?|?|?|? ? Hi|? ? Hv|? ? Hc Hn|? ? Hc Hn]; subst.
  - exists (bytes_of "null"), (bytes_of "null"). split_and!; [done|done|]. intros r. by apply minify_solid.
  - exists (bytes_of "false"), (bytes_of "false"). split_and!; [done|done|]. intros r. by apply minify_solid.
  - exists (bytes_of "true"), (bytes_of "true"). split_and!; [done|done|]. intros r. by apply minify_solid.
  - exists (int_to_string i), (int_to_string i). rewrite <- (number_text_int i Hi). split_and!; [done|done|]. intros r. apply minify_solid, number_solid.
    rewrite (number_text_int i Hi). apply (int_text i Hi).
  - exists (quoted (Some v0)), (quoted (Some v0)). split_and!; [done|done|]. intros r. by apply minify_quoted.
  - change (_ || _) with true in Hd. cbn iota in Hd. destruct (elements_unformat (d + 1) c (Hitems ltac:(lia) Hc)) as (u & u' & E & E' & H).
    exists (array_text u), (array_text u'). cbn [text_of]. change (Z.land cJSON_Array 255) with cJSON_Array.
    cbn [Z.eqb Pos.eqb cJSON_Array cJSON_NULL cJSON_False cJSON_True cJSON_Number cJSON_Raw cJSON_String].
    rewrite (proj2 (Nat.leb_gt CJSON_NESTING_LIMIT d)), E, E' by lia. split_and!; [done|done|]. intros r. unfold array_text. cbn [app]. rewrite <- !app_assoc.
    change (to_u8 91 :: u ++ [to_u8 93] ++ r) with ([to_u8 91] ++ u ++ [to_u8 93] ++ r). rewrite minify_solid, H, minify_solid by done. done.
  - change (_ || _) with true in Hd. cbn iota in Hd. destruct (members_unformat (d + 1) c (Hitems ltac:(lia) Hc)) as (u & u' & E & E' & H).
    { revert Hn Hbc. clear. induction 1 as [|n c (k & Hk & Hn) _ IH]; intros Hb; constructor; inversion Hb as [|? ? Hb1 Hb2]; subst; [|by apply IH].
      exists k. split_and!; [done|done|]. apply backslash_free in Hb1 as (_ & Hb1 & _). by rewrite Hk in Hb1. }
    exists (object_text true d u), (object_text false d u'). cbn [text_of]. change (Z.land cJSON_Object 255) with cJSON_Object.
    cbn [Z.eqb Pos.eqb cJSON_Object cJSON_Array cJSON_NULL cJSON_False cJSON_True cJSON_Number cJSON_Raw cJSON_String].
    rewrite (proj2 (Nat.leb_gt CJSON_NESTING_LIMIT d)), E, E' by lia. split_and!; [done|done|]. intros r. unfold object_text. cbn [app]. rewrite <- !app_assoc.
    change (to_u8 123 :: LF :: u ++ replicate d TAB ++ [to_u8 125] ++ r) with ([to_u8 123] ++ [LF] ++ u ++ replicate d TAB ++ [to_u8 125] ++ r).
    rewrite minify_solid, minify_space, H, minify_space, minify_solid by (done || apply tabs_space). done.
Qed.

(** minifying undoes formatting: for a document whose texts have no backslash, the
    minifier turns the formatted text into exactly the text without formatting. *)
Theorem cJSON_minify_unformats n :
  plain n -> no_backslash n -> (height n <= CJSON_NESTING_LIMIT)%nat ->
  exists t t', text_of true 0 n = Some t /\ text_of false 0 n = Some t' /\ cJSON_Minify (Some t) = Some t'.
Proof.
  intros Hp Hb Hh. destruct (plain_unformats n Hp Hb 0%nat Hh) as (t & t' & E & E' & H). exists t, t'. split_and!; [done|done|].
  unfold cJSON_Minify. cbn [fmap option_fmap option_map]. rewrite c_str_id by (eapply nul_free_not_in, text_of_nul_free, E).
  specialize (H []). rewrite app_nil_r in H. rewrite H. cbn [minify]. by rewrite app_nil_r.
Qed.

(** ** A copy compares equal *)

Definition name_of (n : cJSON) : list byte := c_str (default [] (nstring n)).

(** Values of known types, finite numbers, and members that all have a name of their
    own. *)
Fixpoint comparable (n : cJSON) : Prop :=
  let 'Node t v _ d _ c := n in
  let k := Z.land t 255 in
  (k = cJSON_False \/ k = cJSON_True \/ k = cJSON_NULL) \/
  (k = cJSON_Number /\ finite d = true) \/
  ((k = cJSON_String \/ k = cJSON_Raw) /\ v <> None) \/
  (k = cJSON_Array /\ fold_right (fun n P => comparable n /\ P) True c) \/
  (k = cJSON_Object /\ NoDup (map name_of c) /\ Forall (fun x => nstring x <> None) c /\ fold_right (fun n P => comparable n /\ P) True c).

Lemma c_str_idem s : c_str (c_str s) = c_str s.
Proof. apply c_str_id, nul_free_not_in, c_str_nul_free. Qed.

Lemma kind_copied n : kind (copied n) = kind n.
Proof.
  destruct n as [t v i d s c]. unfold kind. cbn [copied ntype]. apply Z.bits_inj'. intros k Hk. rewrite !Z.land_spec, Z.ldiff_spec.
  change 255 with (Z.ones 8). change cJSON_IsReference with (2 ^ 8). destruct (Z.lt_ge_cases k 8).
  - rewrite Z.pow2_bits_false by lia. by rewrite andb_true_r.
  - rewrite Z.ones_spec_high by lia. by rewrite !andb_false_r.
Qed.

Lemma name_copied n : name_of (copied n) = name_of n /\ (nstring n <> None -> nstring (copied n) <> None).
Proof.
  destruct n as [t v i d s c]. unfold name_of. cbn [copied nstring]. destruct (has_flag t _); [done|]. destruct s as [s|]; [|done]. cbn. split; [apply c_str_idem|done].
Qed.

(** Among distinct names the first of a name is the only one. *)
Lemma find_unique (g : cJSON -> cJSON) l x k :
  (forall y, name_of (g y) = name_of y /\ (nstring y <> None -> nstring (g y) <> None)) ->
  NoDup (map name_of l) -> Forall (fun y => nstring y <> None) l -> x ∈ l -> c_str k = name_of x -> find_item true k (map g l) = Some (g x).
Proof.
  intros Hg. induction l as [|y l IH]; intros Hd Hn Hx Hk; [by apply not_elem_of_nil in Hx|]. cbn [map find_item]. inversion Hd as [|? ? Hy Hd']; subst. inversion Hn; subst.
  destruct (Hg y) as [E1 E2]. destruct (nstring (g y)) as [s|] eqn:Es; [|by destruct E2]. unfold name_of in E1 at 1. rewrite Es in E1. change (c_str s = name_of y) in E1.
  apply elem_of_cons in Hx as [->|Hx]; [by rewrite bool_decide_eq_true_2 by congruence|].
  rewrite bool_decide_eq_false_2; [by apply IH|]. intros E. apply Hy. assert (Eq : name_of y = name_of x) by congruence. rewrite Eq.
  apply list_elem_of_fmap. by exists x.
Qed.

Definition equal_copies (fuel : nat) (n : cJSON) : Prop := compare fuel true n (copied n) = true /\ compare fuel true (copied n) n = true.

(** The members of [map g l] are found, and equal, among those of [map h l]. *)
Lemma within_copies fuel (g h : cJSON -> cJSON) l t v i d s :
  (forall y, name_of (g y) = name_of y /\ (nstring y <> None -> nstring (g y) <> None)) ->
  (forall y, name_of (h y) = name_of y /\ (nstring y <> None -> nstring (h y) <> None)) ->
  NoDup (map name_of l) -> Forall (fun y => nstring y <> None) l -> (forall x, x ∈ l -> compare fuel true (g x) (h x) = true) ->
  forallb (fun x => match get_object_item (Some (Node t v i d s (map h l))) (nstring x) true with Some y => compare fuel true x y | None => false end) (map g l) = true.
Proof.
  intros Hg Hh Hd Hn Hc. apply forallb_forall. intros x Hx. apply in_map_iff in Hx as (y & <- & Hy). apply list_elem_of_In in Hy.
  destruct (Hg y) as [E1 E2]. assert (Hy' : nstring y <> None) by (rewrite list.Forall_forall in Hn; by apply Hn). specialize (E2 Hy').
  destruct (nstring (g y)) as [k|] eqn:Ek; [|done]. cbn [get_object_item child]. rewrite (find_unique h l y k Hh Hd Hn Hy); [by apply Hc|].
  unfold name_of in E1 at 1. by rewrite Ek in E1.
Qed.

Lemma same_name : forall y, name_of (id y) = name_of y /\ (nstring y <> None -> nstring (id y) <> None).
Proof. done. Qed.

Lemma compare_elements fuel c : Forall (equal_copies fuel) c ->
  (fix loop (xs ys : list cJSON) : bool :=
     match xs, ys with [], [] => true | x :: xs, y :: ys => if compare fuel true x y then loop xs ys else false | _, _ => false end) c (map copied c) = true /\
  (fix loop (xs ys : list cJSON) : bool :=
     match xs, ys with [], [] => true | x :: xs, y :: ys => if compare fuel true x y then loop xs ys else false | _, _ => false end) (map copied c) c = true.
Proof. induction 1 as [|n c [H1 H2] _ [IH1 IH2]]; [done|]. cbn [map]. rewrite H1, H2. done. Qed.

Lemma compare_copies n : comparable n -> forall fuel, (levels n <= fuel)%nat -> equal_copies fuel n.
Proof.
  induction n as [t v i d s c IH] using cJSON_induction. intros Hc fuel Hf. destruct fuel as [|fuel]; [cbn in Hf; lia|]. cbn [levels] in Hf.
  pose proof (kind_copied (Node t v i d s c)) as Hk. unfold equal_copies. cbn [compare]. rewrite Hk, Z.eqb_refl. cbn [negb]. unfold kind. cbn [ntype valuedouble valuestring child copied].
  assert (Hch : fold_right (fun n P => comparable n /\ P) True c -> Forall (equal_copies fuel) c).
  { intros H. apply fold_conj in H. apply list.Forall_forall. intros n Hn. pose proof (levels_child c n Hn). rewrite list.Forall_forall in IH, H. apply IH; [done|by apply H|lia]. }
  cbn [comparable] in Hc. destruct Hc as [Hc|[[Hc Hd]|[[Hc Hv]|[[Hc Hl]|(Hc & Hd & Hn & Hl)]]]].
  - by destruct Hc as [->|[->| ->]].
  - rewrite Hc. cbn [Z.eqb Pos.eqb orb cJSON_Number cJSON_False cJSON_True cJSON_NULL]. by rewrite compare_double_refl.
  - destruct v as [v|]; [|done]. cbn [fmap option_fmap option_map]. destruct Hc as [->| ->]; cbn; rewrite c_str_idem; by rewrite bool_decide_eq_true_2.
  - rewrite Hc. cbn [Z.eqb Pos.eqb orb cJSON_Array cJSON_String cJSON_Raw cJSON_Number cJSON_False cJSON_True cJSON_NULL]. by apply compare_elements, Hch.
  - rewrite Hc. cbn [Z.eqb Pos.eqb orb cJSON_Object cJSON_Array cJSON_String cJSON_Raw cJSON_Number cJSON_False cJSON_True cJSON_NULL]. specialize (Hch Hl).
    assert (Hx : forall x, x ∈ c -> equal_copies fuel x) by (intros x Hx; rewrite list.Forall_forall in Hch; by apply Hch).
    pose proof (within_copies fuel id copied c (Z.ldiff t cJSON_IsReference) (c_str <$> v) i d (if has_flag t cJSON_StringIsConst then s else c_str <$> s) same_name name_copied Hd Hn ltac:(intros; by apply Hx)) as W1.
    pose proof (within_copies fuel copied id c t v i d s name_copied same_name Hd Hn ltac:(intros; by apply Hx)) as W2. rewrite map_id in W1, W2. rewrite W1, W2. done.
Qed.

Lemma levels_copied n : levels (copied n) = levels n.
Proof.
  induction n as [t v i d s c IH] using cJSON_induction. cbn [copied levels]. f_equal. induction IH as [|n c Hn _ IHc]; [done|]. cbn [map fold_right]. by rewrite Hn, IHc.
Qed.

(** a copy compares equal to its original, from either side, when every member of an
    object has a name of its own and every number is finite. *)
Theorem cJSON_duplicate_compares hooks n m :
  comparable n -> (forall k, hooks k = true) -> (levels n <= CJSON_CIRCULAR_LIMIT)%nat ->
  exists n' m', cJSON_Duplicate hooks (Some n) true m = (Some n', m') /\ cJSON_Compare (Some n) (Some n') true = true /\ cJSON_Compare (Some n') (Some n) true = true.
Proof.
  intros Hc Hk Hl. pose proof (duplicate_spec hooks n 0 m) as H. cbn [cJSON_Duplicate]. destruct (cJSON_Duplicate_rec hooks n 0 true m) as [[n'|] m'].
  - destruct H as [-> _]. exists (copied n), m'. split; [done|]. cbn [cJSON_Compare]. split; [by apply compare_copies|].
    apply compare_copies; [done|]. by rewrite levels_copied.
  - exfalso. destruct H as [_ [[k H]|H]]; [by rewrite Hk in H|lia].
Qed.

(** ** Witnesses and departures *)

Lemma sample_names : NoDup (map name_of (child sample)).
Proof. apply (bool_decide_eq_true_1 (NoDup (map name_of (child sample)))). vm_compute. reflexivity. Qed.

Lemma sample_comparable : comparable sample.
Proof.
  pose proof sample_names as Hn. cbn [comparable sample fold_right text_node int_node child] in *. do 4 right. split; [done|]. split; [exact Hn|].
  split; [by repeat constructor|]. split; [|split; [|split; [|done]]].
  - do 3 right. left. split; [done|]. split; [right; left; done|]. split; [left; right; left; done|]. split; [left; right; right; done|done].
  - right. right. left. split; [by left|done].
  - do 4 right. split_and!; try done; constructor.
Qed.

Lemma cJSON_duplicate_compares_witness :
  exists n' m', cJSON_Duplicate ok (Some sample) true no_memory = (Some n', m') /\ cJSON_Compare (Some sample) (Some n') true = true /\ cJSON_Compare (Some n') (Some sample) true = true.
Proof. apply (cJSON_duplicate_compares ok sample no_memory); [apply sample_comparable|reflexivity|]. unfold CJSON_CIRCULAR_LIMIT. vm_compute. lia. Defined.

Lemma cJSON_minify_unformats_witness :
  exists t t', text_of true 0 sample = Some t /\ text_of false 0 sample = Some t' /\ cJSON_Minify (Some t) = Some t'.
Proof.
  apply (cJSON_minify_unformats sample); [apply sample_plain| |vm_compute; lia].
  cbn. repeat split; refine (bool_decide_unpack _ _); vm_compute; exact I.
Defined.

(** A string that ends in a backslash hides its closing quote from the minifier, and a
    blank inside the next string is lost. *)
Definition backslash_sample : cJSON := array_node [string_node [BACKSLASH]; string_node (bytes_of "a b")].

Example minify_loses_blank :
  option_map (fun t => option_map (fun t' => match cJSON_Parse ok (Some t') no_memory with Parsed n _ _ => map valuestring (child n) | _ => [] end) (cJSON_Minify (Some t)))
    (text_of true 0 backslash_sample) = Some (Some [Some [BACKSLASH]; Some (bytes_of "ab")]).
Proof. vm_compute. done. Qed.

(** With two members of one name a document is not equal to its own copy. *)
Definition twice_sample : cJSON := object_node [with_name (bytes_of "k") (number_node (double_of_Z 1)); with_name (bytes_of "k") (number_node (double_of_Z 2))].

Example repeated_name_differs : cJSON_Compare (Some twice_sample) (Some (copied twice_sample)) true = false.
Proof. vm_compute. done. Qed.
