(* ===== verification/CjsonList.v ===== *)
(** * The item lists of the JSON library

    How cJSON 1.7.19
    ([src/firmware/managed_components/espressif__cjson/cJSON/cJSON.c]) links the items of
    an array or object: the children are a chain of [next] pointers from [child], the
    [prev] pointers go back, and the one of the first child points to the last so that an
    item can be appended at once.

    Items live in a heap, a map from addresses to the C struct; reading or writing through
    a pointer that is null or dangling is [None].  [children] says that the chain of a
    parent is a list of addresses, and every operation is shown to do to that list what
    its name says. *)

From S2P Require Import Prelude AuditLog KeyPolicy Double Cjson.

Abbreviation loc := nat (only parsing).

Record item : Type := mkItem {
  i_next : option loc;
  i_prev : option loc;
  i_child : option loc;
  i_type : Z;
  i_valuestring : option (list byte);
  i_valueint : Z;
  i_valuedouble : double;
  i_string : option (list byte)
}.

Abbreviation heap := (gmap nat item) (only parsing).

Definition set_next (x : option loc) (i : item) : item :=
  mkItem x (i_prev i) (i_child i) (i_type i) (i_valuestring i) (i_valueint i) (i_valuedouble i) (i_string i).
Definition set_prev (x : option loc) (i : item) : item :=
  mkItem (i_next i) x (i_child i) (i_type i) (i_valuestring i) (i_valueint i) (i_valuedouble i) (i_string i).
Definition set_child (x : option loc) (i : item) : item :=
  mkItem (i_next i) (i_prev i) x (i_type i) (i_valuestring i) (i_valueint i) (i_valuedouble i) (i_string i).
Definition set_key (t : Z) (s : option (list byte)) (i : item) : item :=
  mkItem (i_next i) (i_prev i) (i_child i) t (i_valuestring i) (i_valueint i) (i_valuedouble i) s.

(** [p->field = x]. *)
Definition upd (p : loc) (f : item -> item) (h : heap) : option heap := (fun i => <[p := f i]> h) <$> h !! p.

(** ** The operations *)

Definition suffix_object (prev item : loc) (h : heap) : option heap :=
  h ← upd prev (set_next (Some item)) h;
  upd item (set_prev (Some prev)) h.

Fixpoint walk (index : nat) (current : option loc) (h : heap) : option (option loc) :=
  match index, current with
  | S index, Some p => i ← h !! p; walk index (i_next i) h
  | _, _ => Some current
  end.

Definition get_array_item (array : option loc) (index : nat) (h : heap) : option (option loc) :=
  match array with
  | None => Some None
  | Some a => i ← h !! a; walk index (i_child i) h
  end.

(** [strcmp] or [case_insensitive_strcmp] finds the names equal. *)
Definition same_name (case_sensitive : bool) (name s : list byte) : bool :=
  if case_sensitive then bool_decide (c_str name = c_str s) else case_insensitive_eq name s.

(** The first item of the name; with regard to case the search ends at an item that has no
    name.  [fuel] bounds the chain. *)
Fixpoint find_named (fuel : nat) (case_sensitive : bool) (name : list byte) (current : option loc) (h : heap) : option (option loc) :=
  match current with
  | None => Some None
  | Some p =>
    match fuel with
    | O => None
    | S fuel =>
      i ← h !! p;
      match i_string i with
      | None => if case_sensitive then Some None else find_named fuel case_sensitive name (i_next i) h
      | Some s => if same_name case_sensitive name s then Some (Some p) else find_named fuel case_sensitive name (i_next i) h
      end
    end
  end.

Definition get_object_item (fuel : nat) (object : option loc) (name : option (list byte)) (case_sensitive : bool) (h : heap) : option (option loc) :=
  match object, name with
  | Some o, Some name => i ← h !! o; find_named fuel case_sensitive name (i_child i) h
  | _, _ => Some None
  end.

(** [new]: the block that [cJSON_New_Item] gets. *)
Definition create_reference (new item : option loc) (h : heap) : option (option loc * heap) :=
  match item, new with
  | Some p, Some r =>
    i ← h !! p;
    Some (Some r, <[r := mkItem None None (i_child i) (Z.lor (i_type i) cJSON_IsReference) (i_valuestring i) (i_valueint i) (i_valuedouble i) None]> h)
  | _, _ => Some (None, h)
  end.

Definition add_item_to_array (array item : option loc) (h : heap) : option (bool * heap) :=
  match array, item with
  | Some a, Some x =>
    if bool_decide (a = x) then Some (false, h)
    else
      ai ← h !! a;
      match i_child ai with
      | None =>
        h ← upd a (set_child (Some x)) h;
        h ← upd x (set_prev (Some x)) h;
        h ← upd x (set_next None) h;
        Some (true, h)
      | Some c =>
        ci ← h !! c;
        match i_prev ci with
        | Some last =>
          h ← suffix_object last x h;
          h ← upd c (set_prev (Some x)) h;
          Some (true, h)
        | None => Some (true, h)
        end
      end
  | _, _ => Some (false, h)
  end.

(** [served]: the key could be copied. *)
Definition add_item_to_object (object : option loc) (name : option (list byte)) (item : option loc) (constant_key served : bool) (h : heap) : option (bool * heap) :=
  match object, name, item with
  | Some o, Some k, Some x =>
    if bool_decide (o = x) then Some (false, h)
    else if negb constant_key && negb served then Some (false, h)
    else
      i ← h !! x;
      h ← upd x (if constant_key then set_key (Z.lor (i_type i) cJSON_StringIsConst) (Some k) else set_key (Z.ldiff (i_type i) cJSON_StringIsConst) (Some (c_str k))) h;
      add_item_to_array object item h
  | _, _, _ => Some (false, h)
  end.

Definition cJSON_AddItemToArray : option loc -> option loc -> heap -> option (bool * heap) := add_item_to_array.

Definition cJSON_AddItemReferenceToArray (new array item : option loc) (h : heap) : option (bool * heap) :=
  match array with
  | None => Some (false, h)
  | Some _ => '(r, h) ← create_reference new item h; add_item_to_array array r h
  end.

Definition cJSON_AddItemReferenceToObject (new object : option loc) (name : option (list byte)) (item : option loc) (served : bool) (h : heap) : option (bool * heap) :=
  match object, name with
  | Some _, Some _ => '(r, h) ← create_reference new item h; add_item_to_object object name r false served h
  | _, _ => Some (false, h)
  end.

Definition cJSON_DetachItemViaPointer (parent item : option loc) (h : heap) : option (option loc * heap) :=
  match parent, item with
  | Some a, Some x =>
    ai ← h !! a; xi ← h !! x;
    let first := bool_decide (i_child ai = Some x) in
    if negb first && bool_decide (i_prev xi = None) then Some (None, h)
    else
      h ← (if first then Some h else p ← i_prev xi; upd p (set_next (i_next xi)) h);
      h ← match i_next xi with Some y => upd y (set_prev (i_prev xi)) h | None => Some h end;
      h ← (if first then upd a (set_child (i_next xi)) h
           else match i_next xi with None => c ← i_child ai; upd c (set_prev (i_prev xi)) h | Some _ => Some h end);
      h ← upd x (set_prev None) h;
      h ← upd x (set_next None) h;
      Some (Some x, h)
  | _, _ => Some (None, h)
  end.

Definition cJSON_DetachItemFromArray (array : option loc) (which : Z) (h : heap) : option (option loc * heap) :=
  if which <? 0 then Some (None, h)
  else x ← get_array_item array (Z.to_nat which) h; cJSON_DetachItemViaPointer array x h.

Definition cJSON_DetachItemFromObject (fuel : nat) (object : option loc) (name : option (list byte)) (h : heap) : option (option loc * heap) :=
  x ← get_object_item fuel object name false h; cJSON_DetachItemViaPointer object x h.

Definition cJSON_DetachItemFromObjectCaseSensitive (fuel : nat) (object : option loc) (name : option (list byte)) (h : heap) : option (option loc * heap) :=
  x ← get_object_item fuel object name true h; cJSON_DetachItemViaPointer object x h.

Definition cJSON_InsertItemInArray (array : option loc) (which : Z) (newitem : option loc) (h : heap) : option (bool * heap) :=
  match newitem with
  | None => Some (false, h)
  | Some n =>
    if which <? 0 then Some (false, h)
    else
      after ← get_array_item array (Z.to_nat which) h;
      match after, array with
      | Some x, Some a =>
        ai ← h !! a; xi ← h !! x;
        if negb (bool_decide (i_child ai = Some x)) && bool_decide (i_prev xi = None) then Some (false, h)
        else
          h ← upd n (set_next (Some x)) h;
          h ← upd n (set_prev (i_prev xi)) h;
          h ← upd x (set_prev (Some n)) h;
          h ← (if bool_decide (i_child ai = Some x) then upd a (set_child (Some n)) h
               else p ← i_prev xi; upd p (set_next (Some n)) h);
          Some (true, h)
      | _, _ => add_item_to_array array newitem h
      end
  end.

(** The pointers of [cJSON_ReplaceItemViaPointer], before the old item is deleted. *)
Definition replace_links (a x r : loc) (h : heap) : option heap :=
  ai ← h !! a; xi ← h !! x;
  h ← upd r (set_next (i_next xi)) h;
  h ← upd r (set_prev (i_prev xi)) h;
  h ← match i_next xi with Some y => upd y (set_prev (Some r)) h | None => Some h end;
  h ← (if bool_decide (i_child ai = Some x) then
         c ← h !! x;
         h ← (if bool_decide (i_prev c = Some x) then upd r (set_prev (Some r)) h else Some h);
         upd a (set_child (Some r)) h
       else
         h ← match i_prev xi with Some p => upd p (set_next (Some r)) h | None => Some h end;
         match i_next xi with
         | None => c ← i_child ai; upd c (set_prev (Some r)) h
         | Some _ => Some h
         end);
  h ← upd x (set_next None) h;
  upd x (set_prev None) h.

(** [fuel] bounds the items that are deleted. *)
Fixpoint cJSON_Delete (fuel : nat) (item : option loc) (h : heap) : option heap :=
  match item with
  | None => Some h
  | Some p =>
    match fuel with
    | O => None
    | S fuel =>
      i ← h !! p;
      h ← (if has_flag (i_type i) cJSON_IsReference then Some h else cJSON_Delete fuel (i_child i) h);
      cJSON_Delete fuel (i_next i) (delete p h)
    end
  end.

Definition cJSON_DeleteItemFromArray (fuel : nat) (array : option loc) (which : Z) (h : heap) : option heap :=
  '(x, h) ← cJSON_DetachItemFromArray array which h; cJSON_Delete fuel x h.

Definition cJSON_DeleteItemFromObject (fuel : nat) (object : option loc) (name : option (list byte)) (h : heap) : option heap :=
  '(x, h) ← cJSON_DetachItemFromObject fuel object name h; cJSON_Delete fuel x h.

Definition cJSON_DeleteItemFromObjectCaseSensitive (fuel : nat) (object : option loc) (name : option (list byte)) (h : heap) : option heap :=
  '(x, h) ← cJSON_DetachItemFromObjectCaseSensitive fuel object name h; cJSON_Delete fuel x h.

Definition cJSON_ReplaceItemViaPointer (fuel : nat) (parent item replacement : option loc) (h : heap) : option (bool * heap) :=
  match parent, item, replacement with
  | Some a, Some x, Some r =>
    ai ← h !! a;
    if bool_decide (i_child ai = None) then Some (false, h)
    else if bool_decide (r = x) then Some (true, h)
    else h ← replace_links a x r h; h ← cJSON_Delete fuel (Some x) h; Some (true, h)
  | _, _, _ => Some (false, h)
  end.

Definition cJSON_ReplaceItemInArray (fuel : nat) (array : option loc) (which : Z) (newitem : option loc) (h : heap) : option (bool * heap) :=
  if which <? 0 then Some (false, h)
  else x ← get_array_item array (Z.to_nat which) h; cJSON_ReplaceItemViaPointer fuel array x newitem h.

(** The old name is released, then the new one is made; without memory the replacement
    is left without a name. *)
Definition replace_item_in_object (fuel : nat) (object : option loc) (name : option (list byte)) (replacement : option loc) (case_sensitive served : bool) (h : heap) : option (bool * heap) :=
  match replacement, name with
  | Some r, Some k =>
    i ← h !! r;
    if negb served then h ← upd r (set_key (i_type i) None) h; Some (false, h)
    else
      h ← upd r (set_key (Z.ldiff (i_type i) cJSON_StringIsConst) (Some (c_str k))) h;
      x ← get_object_item fuel object name case_sensitive h;
      cJSON_ReplaceItemViaPointer fuel object x replacement h
  | _, _ => Some (false, h)
  end.

Definition cJSON_ReplaceItemInObject (fuel : nat) (object : option loc) (name : option (list byte)) (newitem : option loc) : bool -> heap -> option (bool * heap) :=
  replace_item_in_object fuel object name newitem false.
Definition cJSON_ReplaceItemInObjectCaseSensitive (fuel : nat) (object : option loc) (name : option (list byte)) (newitem : option loc) : bool -> heap -> option (bool * heap) :=
  replace_item_in_object fuel object name newitem true.

(** ** The list of a parent *)

Definition hd_or (l : list loc) (e : option loc) : option loc := match l with p :: _ => Some p | [] => e end.
Definition last_or (b : loc) (l : list loc) : loc := List.last l b.

(** The items of [l] are linked, [b] before the first and [e] after the last. *)
Fixpoint segment (h : heap) (b : loc) (l : list loc) (e : option loc) : Prop :=
  match l with
  | [] => True
  | p :: l => (exists i, h !! p = Some i /\ i_prev i = Some b /\ i_next i = hd_or l e) /\ segment h p l e
  end.

(** The children of [a] are [l]. *)
Definition children (h : heap) (a : loc) (l : list loc) : Prop :=
  NoDup (a :: l) /\ (exists i, h !! a = Some i /\ i_child i = hd_or l None) /\ segment h (last_or a l) l None.

(** What a link does not hold. *)
Definition data_of (i : item) : Z * option (list byte) * Z * double * option (list byte) :=
  (i_type i, i_valuestring i, i_valueint i, i_valuedouble i, i_string i).

Definition same_data (h h' : heap) : Prop := forall q, data_of <$> h' !! q = data_of <$> h !! q.

Lemma last_indep z k b b' : List.last (z :: k) b = List.last (z :: k) b' :> loc.
Proof. revert z. induction k as [|y k IH]; intros z; [done|]. apply (IH y). Qed.

Lemma last_or_cons b x l : last_or b (x :: l) = last_or x l.
Proof. unfold last_or. destruct l as [|y l]; [done|]. apply (last_indep y l b x). Qed.

Lemma last_or_app b l k : last_or b (l ++ k) = last_or (last_or b l) k.
Proof. revert b. induction l as [|x l IH]; intros b; [done|]. cbn [app]. by rewrite !last_or_cons, IH. Qed.

Lemma hd_or_app l k e : hd_or (l ++ k) e = hd_or l (hd_or k e).
Proof. by destruct l. Qed.

Lemma segment_app h b l k e : segment h b (l ++ k) e <-> segment h b l (hd_or k e) /\ segment h (last_or b l) k e.
Proof.
  revert b. induction l as [|p l IH]; intros b; [cbn; tauto|]. cbn [app segment]. rewrite last_or_cons, hd_or_app. rewrite IH. tauto.
Qed.

Lemma upd_some p f h i : h !! p = Some i -> upd p f h = Some (<[p := f i]> h).
Proof. unfold upd. by intros ->. Qed.

Lemma segment_outside h b l e p i : p ∉ l -> segment h b l e -> segment (<[p := i]> h) b l e.
Proof.
  revert b. induction l as [|q l IH]; intros b Hp Hs; [done|]. apply not_elem_of_cons in Hp as [Hq Hp]. destruct Hs as [(j & Hj & H1 & H2) Hs].
  split; [|by apply IH]. exists j. by rewrite lookup_insert_ne.
Qed.

(** The pointer back from the first item. *)
Lemma segment_first h b b' c l e i : c ∉ l -> h !! c = Some i -> segment h b (c :: l) e -> segment (<[c := set_prev (Some b') i]> h) b' (c :: l) e.
Proof.
  intros Hc Hi [(j & Hj & H1 & H2) Hs]. rewrite Hi in Hj. injection Hj as <-. split; [|by apply segment_outside].
  exists (set_prev (Some b') i). rewrite lookup_insert_eq. done.
Qed.

(** The pointer forward from the last item. *)
Lemma segment_last h b l p e e' i : p ∉ l -> h !! p = Some i -> segment h b (l ++ [p]) e -> segment (<[p := set_next e' i]> h) b (l ++ [p]) e'.
Proof.
  intros Hp Hi Hs. apply segment_app in Hs as [Hl [(j & Hj & H1 & H2) _]]. rewrite Hi in Hj. injection Hj as <-. apply segment_app. split; [by apply segment_outside|].
  split; [|done]. exists (set_next e' i). rewrite lookup_insert_eq. done.
Qed.

(** Only items of [touched] are changed, and only their pointers. *)
Definition touches (touched : list loc) (h h' : heap) : Prop := same_data h h' /\ forall q, q ∉ touched -> h' !! q = h !! q.

Lemma touches_refl S h : touches S h h.
Proof. done. Qed.

Lemma touches_upd S h0 h p f i : touches S h0 h -> h !! p = Some i -> p ∈ S -> data_of (f i) = data_of i -> touches S h0 (<[p := f i]> h).
Proof.
  intros [Hd Ho] Hi Hp Hf. split; intros q.
  - destruct (decide (p = q)) as [<-|Hne]; [rewrite <- Hd, lookup_insert_eq, Hi; cbn; by rewrite Hf|by rewrite lookup_insert_ne].
  - intros Hq. rewrite <- Ho by done. apply lookup_insert_ne. by intros ->.
Qed.

(** ** Every operation does to the list what its name says *)

Lemma children_first h a c t : children h a (c :: t) -> exists ai ci, h !! a = Some ai /\ i_child ai = Some c /\ h !! c = Some ci /\ i_prev ci = Some (last_or c t).
Proof.
  intros (_ & (ai & Ha & Hc) & (ci & Hci & Hp & _) & _). exists ai, ci. rewrite last_or_cons in Hp. done.
Qed.

(** The last item of a list that is not empty. *)
Lemma split_last (c : loc) t : exists l0, c :: t = l0 ++ [last_or c t].
Proof.
  revert c. induction t as [|d t IH]; intros c; [by exists []|]. destruct (IH d) as [l0 E]. exists (c :: l0). cbn [app]. by rewrite last_or_cons, <- E.
Qed.

Lemma nodup_new (l k : list loc) x : NoDup l -> x ∉ l -> k ≡ₚ x :: l -> NoDup k.
Proof. intros Hd Hx Hp. rewrite Hp. by apply list.NoDup_cons. Qed.

Lemma nodup_front (l k : list loc) x : NoDup (l ++ x :: k) -> x ∉ l.
Proof. intros H Hx. apply list.NoDup_app in H as (_ & H & _). apply (H x Hx). by left. Qed.

Ltac look := repeat (rewrite lookup_insert_eq || (rewrite lookup_insert_ne by (congruence || done))).

(** The next write of an operation. *)
Ltac write_as p i := rewrite (upd_some p _ _ i) by (look; done); cbn [mbind option_bind].

Ltac member :=
  first [solve [repeat (rewrite elem_of_cons || rewrite elem_of_app); intuition] | solve [repeat (rewrite ?elem_of_cons, ?elem_of_app in * ); tauto]].

Ltac touched := repeat first [apply touches_refl | eapply touches_upd; [|by look|member|reflexivity]].

Lemma add_item_appends h a l x xi :
  children h a l -> h !! x = Some xi -> i_next xi = None -> x ∉ a :: l ->
  exists h', add_item_to_array (Some a) (Some x) h = Some (true, h') /\ children h' a (l ++ [x]) /\ touches (a :: x :: l) h h'.
Proof.
  intros Hch Hx Hn Hnew. assert (Hd' : NoDup (a :: l ++ [x])) by (apply (nodup_new (a :: l) _ x); [apply Hch|done|solve_Permutation]).
  apply not_elem_of_cons in Hnew as [Hxa Hxl]. unfold add_item_to_array. rewrite bool_decide_eq_false_2 by done.
  destruct l as [|c t].
  - destruct Hch as (Hd & (ai & Ha & Hc) & _). cbn [hd_or] in Hc. rewrite Ha. cbn [mbind option_bind]. rewrite Hc.
    write_as a ai. write_as x xi. write_as x (set_prev (Some x) xi). eexists. split; [done|]. split; [|touched].
    split; [done|]. split; [exists (set_child (Some x) ai); by look|]. split; [|done]. exists (set_next None (set_prev (Some x) xi)). by look.
  - destruct (children_first h a c t Hch) as (ai & ci & Ha & Hac & Hc & Hcp). rewrite Ha. cbn [mbind option_bind]. rewrite Hac, Hc. cbn [mbind option_bind]. rewrite Hcp.
    destruct Hch as (Hd & _ & Hs). rewrite last_or_cons in Hs. destruct (split_last c t) as [l0 E]. remember (last_or c t) as p eqn:Ep.
    assert (Hp : exists pi, h !! p = Some pi). { rewrite E in Hs. apply segment_app in Hs as [_ [(pi & Hpi & _) _]]. by exists pi. }
    destruct Hp as [pi Hp]. assert (Hpl : p ∈ c :: t) by (rewrite E; apply elem_of_app; right; by left).
    assert (Hxp : x <> p) by (intros ->; done). assert (Hxc : x <> c) by (intros ->; apply Hxl; by left).
    assert (Hap : a <> p) by (intros ->; inversion Hd; subst; done). assert (Hacn : a <> c) by (intros ->; inversion Hd as [|? ? Hin]; subst; apply Hin; by left).
    unfold suffix_object. write_as p pi. write_as x xi.
    assert (Hc2 : exists ci2, <[x:=set_prev (Some p) xi]> (<[p:=set_next (Some x) pi]> h) !! c = Some ci2).
    { destruct (decide (c = p)) as [Hcp'|Hne]; [exists (set_next (Some x) pi); rewrite Hcp' in *|exists ci]; by look. }
    destruct Hc2 as (ci2 & Hc2). rewrite (upd_some c _ _ ci2 Hc2). cbn [mbind option_bind]. eexists. split; [done|]. split.
    + split; [done|]. split; [exists ai; by look|]. rewrite last_or_app. cbn [last_or List.last]. apply segment_app. cbn [hd_or]. rewrite last_or_cons, <- Ep. split.
      * eapply segment_first; [inversion Hd as [|? ? _ Hd2]; by inversion Hd2|done|]. apply segment_outside; [done|]. rewrite E. apply segment_last with (e := None); [|done|by rewrite <- E].
        rewrite E in Hd. inversion Hd. by eapply nodup_front.
      * split; [|done]. exists (set_prev (Some p) xi). by look.
    + eapply touches_upd; [|done|member|reflexivity]. touched.
Qed.

(** The item in the middle of a list, and the parts around it. *)
Lemma children_at h a l1 x l2 : children h a (l1 ++ x :: l2) ->
  exists ai xi, h !! a = Some ai /\ i_child ai = hd_or l1 (Some x) /\ h !! x = Some xi /\
    i_prev xi = Some (last_or (last_or x l2) l1) /\ i_next xi = hd_or l2 None /\
    segment h (last_or x l2) l1 (Some x) /\ segment h x l2 None.
Proof.
  intros (_ & (ai & Ha & Hc) & Hs). rewrite last_or_app, last_or_cons in Hs. apply segment_app in Hs as [H1 [(xi & Hx & Hp & Hn) H2]].
  exists ai, xi. rewrite hd_or_app in Hc. done.
Qed.

Lemma nodup_parts (a x : loc) (l1 l2 : list loc) : NoDup (a :: l1 ++ x :: l2) ->
  a <> x /\ (a ∉ l1) /\ (a ∉ l2) /\ (x ∉ l1) /\ (x ∉ l2) /\ (forall q, q ∈ l1 -> q ∉ l2) /\ NoDup l1 /\ NoDup l2 /\ NoDup (a :: l1 ++ l2).
Proof.
  intros H. assert (Hp : a :: l1 ++ x :: l2 ≡ₚ x :: a :: l1 ++ l2) by solve_Permutation. rewrite Hp in H. apply list.NoDup_cons in H as [Hx H].
  assert (H' := H). apply list.NoDup_cons in H as [Ha H]. apply list.NoDup_app in H as (Hl1 & Hd & Hl2).
  rewrite elem_of_cons, elem_of_app in Hx. rewrite elem_of_app in Ha. split_and!; try done; try tauto. intros ->. tauto.
Qed.

Lemma front_of (l : list loc) p : exists c t, l ++ [p] = c :: t /\ (c ∈ l ++ [p]) /\ forall e, hd_or (l ++ [p]) e = Some c.
Proof. destruct l as [|c l]; eexists _, _; (split; [done|split; [by left|done]]). Qed.

Lemma before_facts h b (a x p : loc) (l1 l2 : list loc) e :
  segment h b (l1 ++ [p]) e -> a ∉ l1 ++ [p] -> x ∉ l1 ++ [p] -> (forall q, q ∈ l1 ++ [p] -> q ∉ l2) -> NoDup (l1 ++ [p]) ->
  (exists pi, h !! p = Some pi) /\ a <> p /\ p <> x /\ (p ∉ l1) /\ (p ∉ l2).
Proof.
  intros Hs Ha Hx Hl Hd. assert (Hp : p ∈ l1 ++ [p]) by (apply elem_of_app; right; by left). apply segment_app in Hs as [_ [(pi & Hpi & _) _]].
  split_and!; [by exists pi|by intros ->|by intros ->|by eapply nodup_front|by apply Hl].
Qed.

Lemma detach_removes h a l1 x l2 :
  children h a (l1 ++ x :: l2) ->
  exists h', cJSON_DetachItemViaPointer (Some a) (Some x) h = Some (Some x, h') /\ children h' a (l1 ++ l2) /\
    (exists xi, h' !! x = Some xi /\ i_next xi = None /\ i_prev xi = None) /\ touches (a :: l1 ++ x :: l2) h h'.
Proof.
  intros Hch. destruct (children_at _ _ _ _ _ Hch) as (ai & xi & Ha & Hac & Hx & Hxp & Hxn & H1 & H2).
  destruct (nodup_parts a x l1 l2 ltac:(apply Hch)) as (Nax & Na1 & Na2 & Nx1 & Nx2 & N12 & Nl1 & Nl2 & Nnew). clear Hch.
  unfold cJSON_DetachItemViaPointer. rewrite Ha, Hx. cbn [mbind option_bind]. rewrite Hac, Hxp, Hxn. rewrite (bool_decide_eq_false_2 (Some _ = None)) by done. rewrite andb_false_r.
  destruct l1 as [|p l1 _] using rev_ind.
  - (* the first item *)
    cbn [hd_or last_or List.last app] in *. rewrite bool_decide_eq_true_2 by done. cbn [mbind option_bind].
    destruct l2 as [|y l2]; cbn [hd_or] in *.
    + cbn [mbind option_bind]. write_as a ai. write_as x xi. write_as x (set_prev None xi). eexists. split; [done|]. split; [|split; [eexists; split; [by look|done]|touched]].
      split; [done|]. split; [|done]. exists (set_child None ai). by look.
    + assert (Nxy : x <> y) by (intros ->; apply Nx2; by left). assert (Nay : a <> y) by (intros ->; apply Na2; by left).
      assert (Hy := H2). destruct Hy as [(yi & Hy & _) _]. write_as y yi. write_as a ai. write_as x xi. write_as x (set_prev None xi). eexists. split; [done|].
      split; [|split; [eexists; split; [by look|done]|touched]].
      split; [done|]. split; [exists (set_child (Some y) ai); by look|]. rewrite (last_or_cons a), last_or_cons. repeat (apply segment_outside; [done|]).
      apply segment_first with (b := x); [by inversion Nl2|done|done].
  - (* another one *)
    destruct (front_of l1 p) as (c & t & Ec & Hin & Eh). rewrite Eh in *.
    assert (Ncx : c <> x) by (by intros ->). rewrite bool_decide_eq_false_2 by congruence.
    rewrite last_or_app in *. cbn [last_or List.last mbind option_bind] in *.
    destruct (before_facts h _ a x p l1 l2 _ H1 Na1 Nx1 N12 Nl1) as ([pi Hp] & Nap & Npx & Npl & Npl2). assert (Nac : a <> c) by (by intros ->).
    write_as p pi. destruct l2 as [|y l2]; cbn [hd_or] in *.
    + cbn [mbind option_bind]. assert (Hseg : segment (<[p:=set_next None pi]> h) x (c :: t) None) by (rewrite <- Ec; by apply segment_last with (e := Some x)).
      assert (Hc := Hseg). destruct Hc as [(ci & Hc & _) _]. rewrite (upd_some c _ _ ci Hc). cbn [mbind option_bind]. write_as x xi. write_as x (set_prev None xi).
      eexists. split; [done|]. split; [|split; [eexists; split; [by look|done]|]].
      * rewrite app_nil_r in *. split; [done|]. split; [exists ai; rewrite Eh; by look|]. rewrite last_or_app. cbn [last_or List.last]. repeat (apply segment_outside; [done|]).
        rewrite Ec in *. apply segment_first with (b := x); [by inversion Nl1|done|done].
      * eapply touches_upd; [|by look|member|reflexivity]. eapply touches_upd; [|by look|member|reflexivity].
        eapply touches_upd; [|done|member|reflexivity]. touched.
    + assert (Nxy : x <> y) by (intros ->; apply Nx2; by left). assert (Nay : a <> y) by (intros ->; apply Na2; by left). assert (Npy : p <> y) by (intros ->; apply Npl2; by left).
      assert (Hy := H2). destruct Hy as [(yi & Hy & _) _]. write_as y yi. write_as x xi. write_as x (set_prev None xi). eexists. split; [done|].
      split; [|split; [eexists; split; [by look|done]|touched]]. split; [done|]. split; [exists ai; rewrite hd_or_app, Eh; by look|].
      rewrite last_or_app, last_or_cons. apply segment_app. rewrite last_or_app. cbn [last_or List.last hd_or]. split.
      * repeat (apply segment_outside; [done|]). apply segment_outside; [intros Hy1; apply (N12 y Hy1); by left|].
        apply segment_last with (e := Some x); [done|done|]. by rewrite last_or_cons in H1.
      * repeat (apply segment_outside; [done|]). apply segment_first with (b := x); [by inversion Nl2|by look|by apply segment_outside].
Qed.

(** The item at an index, null beyond the end. *)
Lemma walk_lookup h b l k : segment h b l None -> walk k (hd_or l None) h = Some (l !! k).
Proof.
  revert b k. induction l as [|p l IH]; intros b k Hs; [by destruct k|]. destruct k as [|k]; [done|]. destruct Hs as [(i & Hi & _ & Hn) Hs].
  cbn [hd_or walk]. rewrite Hi. cbn [mbind option_bind]. rewrite Hn. by apply (IH p).
Qed.

Lemma get_array_item_lookup h a l k : children h a l -> get_array_item (Some a) k h = Some (l !! k).
Proof. intros (_ & (ai & Ha & Hc) & Hs). cbn [get_array_item]. rewrite Ha. cbn [mbind option_bind]. rewrite Hc. by eapply walk_lookup. Qed.

Lemma insert_inserts h a l1 x l2 n ni :
  children h a (l1 ++ x :: l2) -> h !! n = Some ni -> n ∉ a :: l1 ++ x :: l2 ->
  exists h', cJSON_InsertItemInArray (Some a) (Z.of_nat (length l1)) (Some n) h = Some (true, h') /\ children h' a (l1 ++ n :: x :: l2) /\
    touches (n :: a :: l1 ++ x :: l2) h h'.
Proof.
  intros Hch Hn Hnew. assert (Hd' : NoDup (a :: l1 ++ n :: x :: l2)) by (apply (nodup_new (a :: l1 ++ x :: l2) _ n); [apply Hch|done|solve_Permutation]).
  unfold cJSON_InsertItemInArray. rewrite (proj2 (Z.ltb_ge _ _)) by lia. rewrite Nat2Z.id, (get_array_item_lookup h a _ _ Hch), list_lookup_middle by done. cbn [mbind option_bind].
  destruct (children_at _ _ _ _ _ Hch) as (ai & xi & Ha & Hac & Hx & Hxp & Hxn & H1 & H2).
  destruct (nodup_parts a x l1 l2 ltac:(apply Hch)) as (Nax & Na1 & Na2 & Nx1 & Nx2 & N12 & Nl1 & Nl2 & _). clear Hch.
  rewrite elem_of_cons, elem_of_app, elem_of_cons in Hnew. assert (Nna : n <> a) by tauto. assert (Nnx : n <> x) by tauto. assert (Nn1 : n ∉ l1) by tauto. assert (Nn2 : n ∉ l2) by tauto.
  rewrite Ha, Hx. cbn [mbind option_bind]. rewrite Hac, Hxp. rewrite (bool_decide_eq_false_2 (Some _ = None)) by done. rewrite andb_false_r.
  write_as n ni. write_as n (set_next (Some x) ni). write_as x xi. destruct l1 as [|p l1 _] using rev_ind.
  - cbn [hd_or last_or List.last app] in *. rewrite bool_decide_eq_true_2 by done. write_as a ai. eexists. split; [done|]. split; [|touched].
    split; [done|]. split; [exists (set_child (Some n) ai); by look|]. rewrite (last_or_cons a), last_or_cons. split; [|split].
    + exists (set_prev (Some (last_or x l2)) (set_next (Some x) ni)). by look.
    + exists (set_prev (Some n) xi). by look.
    + by repeat (apply segment_outside; [done|]).
  - destruct (front_of l1 p) as (c & t & Ec & Hin & Eh). rewrite Eh in *.
    assert (Ncx : c <> x) by (by intros ->). rewrite bool_decide_eq_false_2 by congruence.
    rewrite last_or_app in *. cbn [last_or List.last mbind option_bind] in *.
    destruct (before_facts h _ a x p l1 l2 _ H1 Na1 Nx1 N12 Nl1) as ([pi Hp] & Nap & Npx & Npl & Npl2).
    assert (Nnp : n <> p) by (intros ->; apply Nn1, elem_of_app; right; by left).
    write_as p pi. eexists. split; [done|]. split; [|touched]. split; [done|]. split; [exists ai; rewrite hd_or_app, Eh; by look|].
    rewrite last_or_app, !last_or_cons. apply segment_app. rewrite last_or_app. cbn [last_or List.last hd_or]. split; [|split; [|split]].
    + apply segment_last with (e := Some x); [done|by look|]. by repeat (apply segment_outside; [done|]).
    + exists (set_prev (Some p) (set_next (Some x) ni)). by look.
    + exists (set_prev (Some n) xi). by look.
    + by repeat (apply segment_outside; [done|]).
Qed.

Lemma replace_replaces h a l1 x l2 r ri :
  children h a (l1 ++ x :: l2) -> h !! r = Some ri -> r ∉ a :: l1 ++ x :: l2 ->
  exists h', replace_links a x r h = Some h' /\ children h' a (l1 ++ r :: l2) /\
    (exists xi, h' !! x = Some xi /\ i_next xi = None /\ i_child xi = i_child (default ri (h !! x)) /\ i_type xi = i_type (default ri (h !! x))) /\
    touches (r :: a :: l1 ++ x :: l2) h h'.
Proof.
  intros Hch Hr Hnew. destruct (children_at _ _ _ _ _ Hch) as (ai & xi & Ha & Hac & Hx & Hxp & Hxn & H1 & H2).
  destruct (nodup_parts a x l1 l2 ltac:(apply Hch)) as (Nax & Na1 & Na2 & Nx1 & Nx2 & N12 & Nl1 & Nl2 & Nnew). clear Hch.
  assert (Hd' : NoDup (a :: l1 ++ r :: l2)) by (apply (nodup_new (a :: l1 ++ l2) _ r); [done|member|solve_Permutation]).
  rewrite elem_of_cons, elem_of_app, elem_of_cons in Hnew. assert (Nra : r <> a) by tauto. assert (Nrx : r <> x) by tauto. assert (Nr1 : r ∉ l1) by tauto. assert (Nr2 : r ∉ l2) by tauto.
  unfold replace_links. rewrite Ha, Hx. cbn [mbind option_bind default from_option]. rewrite Hac, Hxp, Hxn. write_as r ri. write_as r (set_next (hd_or l2 None) ri).
  assert (Hlast : last_or x l2 = x <-> l2 = []).
  { destruct l2 as [|y l2]; [done|]. split; [|done]. rewrite last_or_cons. intros E. exfalso. apply Nx2. destruct (split_last y l2) as [k Ek]. rewrite Ek, E. apply elem_of_app. right. by left. }
  destruct l1 as [|p l1 _] using rev_ind.
  - cbn [hd_or last_or List.last app] in *. rewrite (bool_decide_eq_true_2 (Some x = Some x)) by done. destruct l2 as [|y l2]; cbn [hd_or] in *.
    + cbn [mbind option_bind]. look. rewrite Hx. cbn [mbind option_bind]. rewrite Hxp. cbn [last_or List.last]. rewrite bool_decide_eq_true_2 by done.
      write_as r (set_prev (Some x) (set_next None ri)). write_as a ai. write_as x xi. rewrite (upd_some x _ _ (set_next None xi)) by (by look).
      eexists. split; [done|]. split; [|split; [eexists; split; [by look|done]|touched]]. split; [done|]. split; [exists (set_child (Some r) ai); by look|].
      split; [|done]. exists (set_prev (Some r) (set_prev (Some x) (set_next None ri))). by look.
    + assert (Nxy : x <> y) by (intros ->; apply Nx2; by left). assert (Nay : a <> y) by (intros ->; apply Na2; by left). assert (Nry : r <> y) by (intros ->; apply Nr2; by left).
      assert (Hy := H2). destruct Hy as [(yi & Hy & _) _]. write_as y yi. look. rewrite Hx. cbn [mbind option_bind]. rewrite Hxp.
      rewrite bool_decide_eq_false_2 by (intros [= E]; by apply Hlast in E). cbn [mbind option_bind]. write_as a ai. write_as x xi. rewrite (upd_some x _ _ (set_next None xi)) by (by look).
      eexists. split; [done|]. split; [|split; [eexists; split; [by look|done]|touched]]. split; [done|]. split; [exists (set_child (Some r) ai); by look|].
      rewrite (last_or_cons a), last_or_cons in *. split; [eexists; split; [by look|]; cbn [set_prev set_next i_prev i_next]; by rewrite ?last_or_cons|].
      repeat (apply segment_outside; [done|]). apply segment_first with (b := x); [by inversion Nl2|by look|]. by repeat (apply segment_outside; [done|]).
  - destruct (front_of l1 p) as (c & t & Ec & Hin & Eh). rewrite Eh in *. assert (Ncx : c <> x) by (by intros ->). rewrite bool_decide_eq_false_2 by congruence.
    rewrite last_or_app in *. cbn [last_or List.last] in *. destruct (before_facts h _ a x p l1 l2 _ H1 Na1 Nx1 N12 Nl1) as ([pi Hp] & Nap & Npx & Npl & Npl2).
    assert (Nac : a <> c) by (by intros ->). assert (Nrp : r <> p) by (intros ->; apply Nr1, elem_of_app; right; by left). assert (Nrc : r <> c) by (by intros ->).
    destruct l2 as [|y l2]; cbn [hd_or mbind option_bind] in *.
    + write_as p pi. set (h2 := <[r:=_]> (<[r:=_]> h)).
      assert (Hseg : segment (<[p:=set_next (Some r) pi]> h2) x (c :: t) (Some r)).
      { rewrite <- Ec. apply segment_last with (e := Some x); [done|subst h2; by look|]. subst h2. by repeat (apply segment_outside; [done|]). }
      assert (Hc := Hseg). destruct Hc as [(ci & Hc & _) _]. rewrite (upd_some c _ _ ci Hc). cbn [mbind option_bind]. subst h2. write_as x xi. rewrite (upd_some x _ _ (set_next None xi)) by (by look).
      eexists. split; [done|]. split; [|split; [eexists; split; [by look|done]|]].
      * split; [done|]. split; [exists ai; rewrite hd_or_app, Eh; by look|]. rewrite last_or_app. cbn [last_or List.last]. apply segment_app. cbn [hd_or]. rewrite last_or_app. cbn [last_or List.last]. split.
        -- repeat (apply segment_outside; [done|]). rewrite Ec in *. apply segment_first with (b := x); [by inversion Nl1|done|done].
        -- split; [|done]. exists (set_prev (Some p) (set_next None ri)). by look.
      * eapply touches_upd; [|by look|member|reflexivity]. eapply touches_upd; [|by look|member|reflexivity]. eapply touches_upd; [|done|member|reflexivity]. touched.
    + assert (Nxy : x <> y) by (intros ->; apply Nx2; by left). assert (Nay : a <> y) by (intros ->; apply Na2; by left). assert (Nry : r <> y) by (intros ->; apply Nr2; by left).
      assert (Npy : p <> y) by (intros ->; apply Npl2; by left). assert (Hy := H2). destruct Hy as [(yi & Hy & _) _]. write_as y yi. write_as p pi. cbn [mbind option_bind]. write_as x xi.
      rewrite (upd_some x _ _ (set_next None xi)) by (by look). eexists. split; [done|]. split; [|split; [eexists; split; [by look|done]|touched]].
      split; [done|]. split; [exists ai; rewrite hd_or_app, Eh; by look|]. rewrite last_or_app, !last_or_cons in *. apply segment_app. rewrite last_or_app. cbn [last_or List.last hd_or]. split; [|split].
      * repeat (apply segment_outside; [done|]). apply segment_last with (e := Some x); [done|by look|]. apply segment_outside; [intros Hy1; apply (N12 y Hy1); by left|].
        by repeat (apply segment_outside; [done|]).
      * exists (set_prev (Some p) (set_next (Some y) ri)). by look.
      * repeat (apply segment_outside; [done|]). apply segment_first with (b := x); [by inversion Nl2|by look|]. by repeat (apply segment_outside; [done|]).
Qed.

(** ** Lookup by name *)

Definition named (h : heap) (p : loc) : Prop := exists i s, h !! p = Some i /\ i_string i = Some s.

Definition has_name (case_sensitive : bool) (name : list byte) (h : heap) (p : loc) : bool :=
  match i ← h !! p; i_string i with Some s => same_name case_sensitive name s | None => false end.

Lemma find_named_first fuel case_sensitive name h b l :
  segment h b l None -> Forall (named h) l -> (length l <= fuel)%nat ->
  find_named fuel case_sensitive name (hd_or l None) h = Some (snd <$> list_find (fun p => has_name case_sensitive name h p = true) l).
Proof.
  revert b fuel. induction l as [|p l IH]; intros b fuel Hs Hn Hf; [by destruct fuel|]. destruct Hs as [(i & Hi & _ & Hx) Hs].
  apply list.Forall_cons in Hn as [(i' & s & Hi' & E) Hn]. rewrite Hi in Hi'. injection Hi' as <-. destruct fuel as [|fuel]; [cbn in Hf; lia|].
  cbn [hd_or find_named list_find]. rewrite Hi. cbn [mbind option_bind]. rewrite E.
  assert (Hh : has_name case_sensitive name h p = same_name case_sensitive name s) by (unfold has_name; rewrite Hi; cbn [mbind option_bind]; by rewrite E).
  destruct (same_name case_sensitive name s).
  - rewrite decide_True by done. done.
  - rewrite decide_False by congruence. rewrite Hx, (IH p fuel Hs Hn) by (cbn in Hf; lia). by destruct (list_find _ l) as [[]|].
Qed.

Lemma get_object_item_first fuel case_sensitive name h a l :
  children h a l -> Forall (named h) l -> (length l <= fuel)%nat ->
  get_object_item fuel (Some a) (Some name) case_sensitive h = Some (snd <$> list_find (fun p => has_name case_sensitive name h p = true) l).
Proof.
  intros (_ & (i & Hi & Hc) & Hs) Hn Hf. unfold get_object_item. rewrite Hi. cbn [mbind option_bind]. rewrite Hc. by apply (find_named_first _ _ _ _ (last_or a l)).
Qed.

(** ** Deletion releases a subtree and nothing else *)

(** The items a deletion reaches: along [next], and below what is no reference. *)
Definition below (i : item) : option loc := if has_flag (i_type i) cJSON_IsReference then None else i_child i.

Inductive owns (h : heap) : option loc -> list loc -> Prop :=
| owns_none : owns h None []
| owns_item p i sub rest :
    h !! p = Some i ->
    owns h (below i) sub -> owns h (i_next i) rest -> NoDup (p :: sub ++ rest) -> owns h (Some p) (p :: sub ++ rest).

(** Ownership is a matter of the items owned. *)
Lemma ownership_frame h h' fuel item fp : (length fp <= fuel)%nat -> owns h item fp -> (forall q, q ∈ fp -> h' !! q = h !! q) -> owns h' item fp.
Proof.
  revert item fp. induction fuel as [|fuel IH]; intros item fp Hf Ho Hq; inversion Ho as [|p i sub rest Hi Hsub Hrest Hd]; subst; try constructor; [cbn in Hf; lia|].
  cbn [length] in Hf. rewrite length_app in Hf. apply (owns_item _ p i sub rest); [rewrite Hq by (by left); done| | |done].
  - apply IH; [lia|done|]. intros q Hin. apply Hq. right. apply elem_of_app. by left.
  - apply IH; [lia|done|]. intros q Hin. apply Hq. right. apply elem_of_app. by right.
Qed.

Lemma delete_below fuel i h : (if has_flag (i_type i) cJSON_IsReference then Some h else cJSON_Delete fuel (i_child i) h) = cJSON_Delete fuel (below i) h.
Proof. unfold below. destruct (has_flag _ _); [by destruct fuel|done]. Qed.

Lemma delete_exact fuel item fp h : owns h item fp -> (length fp <= fuel)%nat ->
  exists h', cJSON_Delete fuel item h = Some h' /\ forall q, h' !! q = if bool_decide (q ∈ fp) then None else h !! q.
Proof.
  revert item fp h. induction fuel as [|fuel IH]; intros item fp h Ho Hf; inversion Ho as [|p i sub rest Hi Hsub Hrest Hd]; subst; try (cbn in Hf; lia).
  - exists h. split; [done|]. intros q. by rewrite bool_decide_eq_false_2 by apply not_elem_of_nil.
  - exists h. split; [done|]. intros q. by rewrite bool_decide_eq_false_2 by apply not_elem_of_nil.
  - cbn [length] in Hf. rewrite length_app in Hf. cbn [cJSON_Delete]. rewrite Hi. cbn [mbind option_bind].
    apply list.NoDup_cons in Hd as [Hp Hd]. apply list.NoDup_app in Hd as (_ & Hsr & _). rewrite elem_of_app in Hp.
    rewrite (delete_below fuel i h). destruct (IH (below i) sub h Hsub ltac:(lia)) as (h1 & -> & H1). cbn [mbind option_bind].
    assert (Hrest' : owns (delete p h1) (i_next i) rest).
    { apply (ownership_frame h _ (length rest)); [lia|done|]. intros q Hq. rewrite lookup_delete_ne by (intros ->; tauto). rewrite H1, bool_decide_eq_false_2; [done|]. intros Hin. by apply (Hsr q). }
    destruct (IH (i_next i) rest (delete p h1) Hrest' ltac:(lia)) as (h2 & -> & H2). exists h2. split; [done|]. intros q. rewrite H2.
    destruct (decide (q = p)) as [->|Hne].
    + rewrite (bool_decide_eq_true_2 (p ∈ p :: sub ++ rest)) by (by left). rewrite lookup_delete_eq. by destruct (bool_decide _).
    + rewrite lookup_delete_ne, H1 by congruence. destruct (decide (q ∈ rest)) as [Hr|Hr].
      * rewrite !bool_decide_eq_true_2; [done|right; apply elem_of_app; by right|done].
      * rewrite (bool_decide_eq_false_2 (q ∈ rest)) by done. destruct (decide (q ∈ sub)) as [Hs|Hs].
        -- rewrite !bool_decide_eq_true_2; [done|right; apply elem_of_app; by left|done].
        -- rewrite !bool_decide_eq_false_2; [done|rewrite elem_of_cons, elem_of_app; tauto|done].
Qed.

Lemma children_frame h h' a l : children h a l -> (forall q, q ∈ a :: l -> h' !! q = h !! q) -> children h' a l.
Proof.
  intros (Hd & (ai & Ha & Hc) & Hs) Hq. split; [done|]. split; [exists ai; by rewrite Hq by (by left)|].
  assert (Hq' : forall q, q ∈ l -> h' !! q = h !! q) by (intros q Hin; apply Hq; by right). clear Hd Hq Hc. revert Hs. generalize (last_or a l) as b.
  induction l as [|p l IH]; intros b Hs; [done|]. destruct Hs as [(i & Hi & H1) Hs]. split; [exists i; by rewrite Hq' by (by left)|].
  apply IH; [|done]. intros q Hin. apply Hq'. by right.
Qed.

(** No item but [a] gets other children. *)
Definition same_below (a : loc) (h h' : heap) : Prop := forall q, q <> a -> i_child <$> h' !! q = i_child <$> h !! q.

Lemma same_below_refl a h : same_below a h h.
Proof. done. Qed.

Lemma same_below_trans a h1 h2 h3 : same_below a h1 h2 -> same_below a h2 h3 -> same_below a h1 h3.
Proof. intros H1 H2 q Hq. by rewrite H2, H1. Qed.

Lemma upd_below a p f h h' : upd p f h = Some h' -> (p = a \/ forall i, i_child (f i) = i_child i) -> same_below a h h'.
Proof.
  unfold upd. intros E Hf q Hq. destruct (h !! p) as [i|] eqn:Ep; [|done]. injection E as <-.
  destruct (decide (p = q)) as [->|Hne]; [|by rewrite lookup_insert_ne]. rewrite lookup_insert_eq, Ep. cbn.
  destruct Hf as [->|Hf]; [done|by rewrite Hf].
Qed.

(** Follow the writes of an operation that succeeded. *)
Ltac follow_writes :=
  repeat (match goal with
  | H : mbind _ _ = Some _ |- _ => apply bind_Some in H as (? & ? & ?)
  | H : Some _ = Some _ |- _ => injection H as H; subst
  | H : (_, _) = (_, _) |- _ => injection H as ? ?; subst
  | H : None = Some _ |- _ => discriminate H
  | H : (if ?b then _ else _) = Some _ |- _ => destruct b eqn:?
  | H : match ?o with Some _ => _ | None => _ end = Some _ |- _ => destruct o eqn:?
  end).
Ltac below_kept :=
  solve [repeat first
    [ apply same_below_refl
    | match goal with H : upd ?p ?f ?h = Some ?h' |- same_below ?a _ ?h' =>
        apply (same_below_trans a _ h); [|apply (upd_below a p f _ _ H); first [by left|by right]] end ]].

Lemma add_below a x h b h' : add_item_to_array (Some a) (Some x) h = Some (b, h') -> same_below a h h'.
Proof. unfold add_item_to_array, suffix_object. intros H. follow_writes; below_kept. Qed.

Lemma detach_below a x h r h' : cJSON_DetachItemViaPointer (Some a) (Some x) h = Some (r, h') -> same_below a h h'.
Proof. unfold cJSON_DetachItemViaPointer. intros H. follow_writes; below_kept. Qed.

Lemma insert_below a k n h b h' : cJSON_InsertItemInArray (Some a) k (Some n) h = Some (b, h') -> same_below a h h'.
Proof. unfold cJSON_InsertItemInArray. intros H. follow_writes; first [below_kept|by eapply add_below]. Qed.

Lemma replace_below a x r h h' : replace_links a x r h = Some h' -> same_below a h h'.
Proof. unfold replace_links. intros H. follow_writes; below_kept. Qed.

(** [cJSON_ReplaceItemViaPointer], the deletion of the old item included. *)
Lemma replace_and_delete h a l1 x l2 r ri xi sub fuel :
  children h a (l1 ++ x :: l2) -> h !! r = Some ri -> r ∉ a :: l1 ++ x :: l2 -> h !! x = Some xi ->
  owns h (below xi) sub -> (forall q, q ∈ sub -> q ∉ r :: a :: l1 ++ x :: l2) -> NoDup sub ->
  (S (length sub) <= fuel)%nat ->
  exists h', cJSON_ReplaceItemViaPointer fuel (Some a) (Some x) (Some r) h = Some (true, h') /\ children h' a (l1 ++ r :: l2) /\
    (forall q, q ∈ x :: sub -> h' !! q = None) /\ (forall q, q ∉ r :: a :: l1 ++ x :: l2 ++ sub -> h' !! q = h !! q) /\
    (forall q, q ∉ x :: sub -> data_of <$> h' !! q = data_of <$> h !! q /\ (q <> a -> i_child <$> h' !! q = i_child <$> h !! q)).
Proof.
  intros Hch Hr Hnew Hx Hsub Hdis Hnd Hf. unfold cJSON_ReplaceItemViaPointer. destruct (children_at _ _ _ _ _ Hch) as (ai & xi' & Ha & Hac & Hx' & _).
  rewrite Ha. cbn [mbind option_bind]. rewrite bool_decide_eq_false_2 by (rewrite Hac; by destruct l1).
  rewrite bool_decide_eq_false_2 by (intros ->; apply Hnew; right; apply elem_of_app; right; by left).
  destruct (replace_replaces h a l1 x l2 r ri Hch Hr Hnew) as (h1 & E1 & Hch1 & (xi1 & Hx1 & Hn1 & Hc1 & Ht1) & [Hdata Hout]).
  pose proof (replace_below _ _ _ _ _ E1) as Hbelow. rewrite E1. cbn [mbind option_bind].
  rewrite Hx in Hc1, Ht1. change (default ri (Some xi)) with xi in *.
  assert (Hxsub : x ∉ sub) by (intros Hin; apply (Hdis x Hin); right; right; apply elem_of_app; right; by left).
  assert (Hown : owns h1 (Some x) (x :: sub ++ [])).
  { apply (owns_item _ x xi1); [done| |rewrite Hn1; constructor|rewrite app_nil_r; by apply list.NoDup_cons]. unfold below. rewrite Ht1, Hc1.
    apply (ownership_frame h _ (length sub)); [lia|done|]. intros q Hq. by apply Hout, Hdis. }
  rewrite app_nil_r in Hown. destruct (delete_exact fuel (Some x) (x :: sub) h1 Hown ltac:(cbn; lia)) as (h2 & -> & H2). cbn [mbind option_bind].
  exists h2. split; [done|]. split_and!.
  - apply (children_frame h1); [done|]. intros q Hq. rewrite H2, bool_decide_eq_false_2; [done|]. rewrite elem_of_cons. intros [->|Hin].
    + destruct (nodup_parts a x l1 l2 ltac:(apply Hch)) as (Nax & _ & _ & Nx1 & Nx2 & _). rewrite elem_of_cons, elem_of_app, elem_of_cons in Hq.
      destruct Hq as [?|[?|[->|?]]]; try done. apply Hnew. right. apply elem_of_app. right. by left.
    + apply (Hdis q Hin). rewrite !elem_of_cons, !elem_of_app, !elem_of_cons in *. tauto.
  - intros q Hq. by rewrite H2, bool_decide_eq_true_2.
  - intros q Hq. rewrite !elem_of_cons, !elem_of_app, !elem_of_cons, elem_of_app in Hq. rewrite H2, bool_decide_eq_false_2 by (rewrite elem_of_cons; tauto).
    apply Hout. rewrite !elem_of_cons, !elem_of_app, !elem_of_cons. tauto.
  - intros q Hq. rewrite H2, bool_decide_eq_false_2 by done. split; [apply Hdata|apply Hbelow].
Qed.


(** An array of two items. *)
Definition leaf (next prev child : option loc) (t : Z) : item := mkItem next prev child t None 0 zero None.

Definition two_items : heap :=
  <[0%nat := leaf None None (Some 1%nat) cJSON_Array]> (<[1%nat := leaf (Some 2%nat) (Some 2%nat) None cJSON_NULL]> (<[2%nat := leaf None (Some 1%nat) None cJSON_NULL]> ∅)).

Lemma two_items_children : children two_items 0%nat [1%nat; 2%nat].
Proof.
  split; [apply (bool_decide_eq_true_1 (NoDup [0%nat; 1%nat; 2%nat])); vm_compute; reflexivity|]. split; [by eexists|].
  split; [eexists; split; [by vm_compute|done]|]. split; [eexists; split; [by vm_compute|done]|done].
Qed.


(** An item whose [next] is not null is appended with all that follows it: the list of the
    parent then goes on behind the item it takes for its last. *)
Definition stale_item : heap := <[3%nat := leaf (Some 4%nat) None None cJSON_NULL]> (<[4%nat := leaf None (Some 3%nat) None cJSON_True]> two_items).

Example stale_next_is_kept :
  match add_item_to_array (Some 0%nat) (Some 3%nat) stale_item with
  | Some (true, h) => get_array_item (Some 0%nat) 3 h = Some (Some 4%nat) /\ i_prev <$> h !! 1%nat = Some (Some 3%nat)
  | _ => False
  end.
Proof. vm_compute. done. Qed.
