(* ===== verification/CjsonSort.v ===== *)
(** * Sorting the members of an object

    The merge sort of cJSON's utilities,
    [src/firmware/managed_components/espressif__cjson/cJSON/cJSON_Utils.c], on the item
    lists of [CjsonList]: it relinks the items in place.  The list it leaves is the one
    that a merge sort of the names gives ([merge_sort]); the pointer from its first item to
    its last is not repaired. *)

From Stdlib Require Import Sorting.Sorted.
From S2P Require Import Prelude AuditLog KeyPolicy Double Cjson CjsonList.

(** ** Names *)

(** [strcmp]: the difference of the first bytes that differ.  Only its sign is used. *)
Fixpoint strcmp (a b : list byte) : Z :=
  match a, b with
  | [], [] => 0
  | [], y :: _ => - (1 + u8 y)
  | x :: _, [] => 1 + u8 x
  | x :: a, y :: b => if bool_decide (x = y) then strcmp a b else u8 x - u8 y
  end.

Definition compare_strings (string1 string2 : option (list byte)) (case_sensitive : bool) : Z :=
  match string1, string2 with
  | Some a, Some b =>
    if case_sensitive then strcmp (c_str a) (c_str b) else strcmp (map tolower (c_str a)) (map tolower (c_str b))
  | _, _ => 1
  end.

Lemma strcmp_opp a b : strcmp b a = - strcmp a b.
Proof.
  revert b. induction a as [|x a IH]; intros [|y b]; cbn [strcmp]; [done|lia|lia|]. destruct (decide (x = y)) as [->|Hne]; [by rewrite !bool_decide_eq_true_2 by done|].
  rewrite !bool_decide_eq_false_2 by congruence. lia.
Qed.

Lemma strcmp_zero a b : strcmp a b = 0 <-> a = b.
Proof.
  revert b. induction a as [|x a IH]; intros [|y b]; cbn [strcmp]; pose proof u8_range as Hu; [done| | |].
  - specialize (Hu y). split; [lia|done].
  - specialize (Hu x). split; [lia|done].
  - destruct (decide (x = y)) as [->|Hne].
    + rewrite bool_decide_eq_true_2, IH by done. split; [by intros ->|by intros [= ->]].
    + rewrite bool_decide_eq_false_2 by done. split; [|congruence]. intros E. destruct Hne. apply u8_inj. lia.
Qed.

(** ** The sort as a function on lists *)

Section MergeSort.
Context {A : Type} (less : A -> A -> bool).

(** Every item is before the next one. *)
Fixpoint ascending (l : list A) : bool :=
  match l with
  | x :: (y :: _) as k => less x y && ascending k
  | _ => true
  end.

Fixpoint merge (first : list A) : list A -> list A :=
  fix merge_second (second : list A) : list A :=
    match first, second with
    | [], _ => second
    | _, [] => first
    | x :: first', y :: second' => if less x y then x :: merge first' second else y :: merge_second second'
    end.

(** Where the list is cut: the slow pointer after the fast one has reached the end. *)
Definition half (n : nat) : nat := Nat.div2 (S n).

Fixpoint merge_sort (fuel : nat) (l : list A) : list A :=
  match fuel with
  | O => l
  | S fuel =>
    if (length l <=? 1)%nat || ascending l then l
    else merge (merge_sort fuel (take (half (length l)) l)) (merge_sort fuel (drop (half (length l)) l))
  end.

(** No item is before one that is smaller. *)
Definition not_after (x y : A) : Prop := less y x = false.

Lemma merge_perm f s : merge f s ≡ₚ f ++ s.
Proof.
  revert s. induction f as [|x f IH]; intros s; [by destruct s|]. induction s as [|y s IHs]; [by rewrite app_nil_r|]. cbn [merge].
  destruct (less x y); [by rewrite IH|]. rewrite IHs. solve_Permutation.
Qed.

Lemma merge_sort_perm fuel l : merge_sort fuel l ≡ₚ l.
Proof.
  revert l. induction fuel as [|fuel IH]; intros l; [done|]. cbn [merge_sort]. destruct (_ || _); [done|]. by rewrite merge_perm, !IH, take_drop.
Qed.

Hypothesis less_asym : forall x y, less x y = true -> less y x = false.

Lemma ascending_sorted l : ascending l = true -> Sorted not_after l.
Proof.
  induction l as [|x l IH]; intros H; [done|]. destruct l as [|y l]; [by repeat constructor|]. cbn [ascending] in H. apply andb_true_iff in H as [H1 H2].
  constructor; [by apply IH|]. constructor. by apply less_asym.
Qed.

Lemma merge_sorted f s : Sorted not_after f -> Sorted not_after s -> Sorted not_after (merge f s).
Proof.
  revert s. induction f as [|x f IH]; intros s Hf Hs; [by destruct s|]. induction s as [|y s IHs]; [done|]. cbn [merge].
  inversion Hf as [|? ? Hf' Hxf]; subst. inversion Hs as [|? ? Hs' Hys]; subst. destruct (less x y) eqn:E.
  - constructor; [by apply IH|]. destruct f as [|z f].
    + constructor. by apply less_asym.
    + cbn [merge]. destruct (less z y); constructor; [by inversion Hxf|by apply less_asym].
  - constructor; [by apply IHs|]. destruct s as [|z s].
    + by constructor.
    + cbn [merge]. destruct (less x z); constructor; [done|by inversion Hys].
Qed.

Lemma half_bounds n : (2 <= n)%nat -> (1 <= half n < n)%nat.
Proof. unfold half. intros H. pose proof (Nat.div2_odd (S n)) as E. destruct (Nat.odd (S n)); cbn [Nat.b2n] in E; lia. Qed.

Lemma merge_sort_sorted fuel l : (length l <= fuel)%nat -> Sorted not_after (merge_sort fuel l).
Proof.
  revert l. induction fuel as [|fuel IH]; intros l Hl; [destruct l; [constructor|cbn in Hl; lia]|]. cbn [merge_sort].
  destruct (Nat.leb_spec (length l) 1) as [H1|H1]; cbn [orb].
  - destruct l as [|x [|y l]]; [constructor|by repeat constructor|cbn in H1; lia].
  - destruct (ascending l) eqn:E; [by apply ascending_sorted|]. pose proof (half_bounds (length l) ltac:(lia)).
    apply merge_sorted; apply IH; [rewrite length_take|rewrite length_drop]; lia.
Qed.
End MergeSort.

(** ** The sort of the code *)

(** [compare_strings(p->string, q->string) < 0]. *)
Definition smaller (case_sensitive : bool) (h : gmap nat item) (p q : nat) : option bool :=
  i ← h !! p; j ← h !! q; Some (compare_strings (i_string i) (i_string j) case_sensitive <? 0).

(** The test for a list that is sorted: whether the first loop reaches the last item.
    [fuel] bounds the chain. *)
Fixpoint test_sorted (fuel : nat) (case_sensitive : bool) (current_item : nat) (h : gmap nat item) : option bool :=
  match fuel with
  | O => None
  | S fuel =>
    i ← h !! current_item;
    match i_next i with
    | None => Some true
    | Some next => less ← smaller case_sensitive h current_item next; if less : bool then test_sorted fuel case_sensitive next h else Some false
    end
  end.

(** The two pointers that find the middle. *)
Fixpoint find_middle (fuel : nat) (second current_item : option nat) (h : gmap nat item) : option (option nat) :=
  match current_item with
  | None => Some second
  | Some c =>
    match fuel with
    | O => None
    | S fuel =>
      s ← second; si ← h !! s; ci ← h !! c;
      match i_next ci with
      | None => find_middle fuel (i_next si) None h
      | Some c' => i ← h !! c'; find_middle fuel (i_next si) (i_next i) h
      end
    end
  end.

Definition split_lists (second : option nat) (h : gmap nat item) : option (gmap nat item) :=
  match second with
  | None => Some h
  | Some s =>
    si ← h !! s;
    match i_prev si with
    | None => Some h
    | Some p => h ← upd p (set_next None) h; upd s (set_prev None) h
    end
  end.

(** [result_tail->next = rest; rest->prev = result_tail]. *)
Definition append_rest (result_tail rest : nat) (h : gmap nat item) : option (gmap nat item) :=
  h ← upd result_tail (set_next (Some rest)) h; upd rest (set_prev (Some result_tail)) h.

(** The merge; [built] is the first and the last item of the list so far. *)
Fixpoint merge_lists (fuel : nat) (case_sensitive : bool) (first second : option nat) (built : option (nat * nat)) (h : gmap nat item)
    : option (option nat * gmap nat item) :=
  match first, second with
  | Some f, Some s =>
    match fuel with
    | O => None
    | S fuel =>
      less ← smaller case_sensitive h f s;
      let small := if less : bool then f else s in
      h ← match built with None => Some h | Some (_, tail) => append_rest tail small h end;
      let result := match built with None => small | Some (result, _) => result end in
      i ← h !! small;
      if less then merge_lists fuel case_sensitive (i_next i) second (Some (result, small)) h
      else merge_lists fuel case_sensitive first (i_next i) (Some (result, small)) h
    end
  | None, None => Some (fst <$> built, h)
  | Some rest, None | None, Some rest =>
    match built with
    | None => Some (Some rest, h)
    | Some (result, tail) => h ← append_rest tail rest h; Some (Some result, h)
    end
  end.

(** [fuel] bounds the number of items. *)
Fixpoint sort_list (fuel : nat) (case_sensitive : bool) (list : option nat) (h : gmap nat item) : option (option nat * gmap nat item) :=
  match list with
  | None => Some (None, h)
  | Some p =>
    i ← h !! p;
    match i_next i with
    | None => Some (list, h)
    | Some _ =>
      match fuel with
      | O => None
      | S fuel =>
        is_sorted ← test_sorted (S fuel) case_sensitive p h;
        if is_sorted : bool then Some (list, h)
        else
          second ← find_middle (S fuel) list list h;
          h ← split_lists second h;
          '(first, h) ← sort_list fuel case_sensitive list h;
          '(second, h) ← sort_list fuel case_sensitive second h;
          merge_lists (S fuel) case_sensitive first second None h
      end
    end
  end.

Definition sort_object (fuel : nat) (object : option nat) (case_sensitive : bool) (h : gmap nat item) : option (gmap nat item) :=
  match object with
  | None => Some h
  | Some o => i ← h !! o; '(c, h) ← sort_list fuel case_sensitive (i_child i) h; upd o (set_child c) h
  end.

Definition cJSONUtils_SortObject (fuel : nat) (object : option nat) : gmap nat item -> option (gmap nat item) := sort_object fuel object false.
Definition cJSONUtils_SortObjectCaseSensitive (fuel : nat) (object : option nat) : gmap nat item -> option (gmap nat item) := sort_object fuel object true.

(** The loop of the two operations below: where it stops and what is left of [which]. *)
Fixpoint walk_down (which : nat) (c : option nat) (h : gmap nat item) : option (option nat * nat) :=
  match c, which with
  | Some p, S which' => i ← h !! p; walk_down which' (i_next i) h
  | _, _ => Some (c, which)
  end.

Definition detach_item_from_array (array : nat) (which : nat) (h : gmap nat item) : option (option nat * gmap nat item) :=
  ai ← h !! array;
  '(c, _) ← walk_down which (i_child ai) h;
  match c with
  | None => Some (None, h)
  | Some x =>
    xi ← h !! x;
    let first := bool_decide (i_child ai = Some x) in
    h ← (if first then Some h else p ← i_prev xi; upd p (set_next (i_next xi)) h);
    h ← match i_next xi with Some y => upd y (set_prev (i_prev xi)) h | None => Some h end;
    h ← (if first then upd array (set_child (i_next xi)) h
         else match i_next xi with None => c ← i_child ai; upd c (set_prev (i_prev xi)) h | Some _ => Some h end);
    h ← upd x (set_prev None) h;
    h ← upd x (set_next None) h;
    Some (Some x, h)
  end.

Definition insert_item_in_array (array : nat) (which : nat) (newitem : nat) (h : gmap nat item) : option (bool * gmap nat item) :=
  ai ← h !! array;
  '(c, left_) ← walk_down which (i_child ai) h;
  if (0 <? left_)%nat then Some (false, h)
  else
    match c with
    | None => '(_, h) ← cJSON_AddItemToArray (Some array) (Some newitem) h; Some (true, h)
    | Some x =>
      xi ← h !! x;
      h ← upd newitem (set_next (Some x)) h;
      h ← upd newitem (set_prev (i_prev xi)) h;
      h ← upd x (set_prev (Some newitem)) h;
      h ← (if bool_decide (i_child ai = Some x) then upd array (set_child (Some newitem)) h
           else p ← i_prev xi; upd p (set_next (Some newitem)) h);
      Some (true, h)
    end.

(** ** Chains *)

(** A chain of [next] pointers through [l] to [e], with the [prev] pointers back; what is
    before the first item does not matter. *)
Definition chain (h : gmap nat item) (l : list nat) (e : option nat) : Prop :=
  match l with
  | [] => True
  | p :: k => (exists i, h !! p = Some i /\ i_next i = hd_or k e) /\ segment h p k e
  end.

Lemma chain_tail h p l e : chain h (p :: l) e -> chain h l e.
Proof. destruct l as [|q l]; intros [_ H]; [done|]. destruct H as [(i & Hi & _ & Hn) Hs]. split; [by exists i|done]. Qed.

Lemma chain_app h l k e : l <> [] -> chain h (l ++ k) e <-> chain h l (hd_or k e) /\ segment h (last_or 0%nat l) k e.
Proof.
  destruct l as [|p l]; [done|]. intros _. cbn [app chain]. rewrite segment_app, hd_or_app, last_or_cons. tauto.
Qed.

Lemma chain_outside h l e p i : p ∉ l -> chain h l e -> chain (<[p := i]> h) l e.
Proof.
  destruct l as [|q l]; [done|]. intros Hp [(j & Hj & Hn) Hs]. apply not_elem_of_cons in Hp as [Hq Hp].
  split; [exists j; by rewrite lookup_insert_ne|by apply segment_outside].
Qed.

Lemma chain_next h l e j p : chain h l e -> l !! j = Some p -> exists i, h !! p = Some i /\ i_next i = match l !! S j with Some q => Some q | None => e end.
Proof.
  revert j. induction l as [|q l IH]; intros j Hc Hj; [done|]. destruct j as [|j]; [|by apply (IH j (chain_tail _ _ _ _ Hc))].
  injection Hj as ->. destruct Hc as [(i & Hi & Hn) _]. exists i. rewrite Hn. by destruct l.
Qed.

(** A new beginning or a new end. *)
Lemma chain_first h p l e x i : p ∉ l -> h !! p = Some i -> chain h (p :: l) e -> chain (<[p := set_prev x i]> h) (p :: l) e.
Proof.
  intros Hp Hi [(j & Hj & Hn) Hs]. rewrite Hi in Hj. injection Hj as <-. split; [exists (set_prev x i); by rewrite lookup_insert_eq|by apply segment_outside].
Qed.

Lemma chain_last h l p e e' i : p ∉ l -> h !! p = Some i -> chain h (l ++ [p]) e -> chain (<[p := set_next e' i]> h) (l ++ [p]) e'.
Proof.
  intros Hp Hi Hc. destruct l as [|q l]; [split; [exists (set_next e' i); by rewrite lookup_insert_eq|done]|].
  destruct Hc as [(j & Hj & Hn) Hs]. apply not_elem_of_cons in Hp as [Hq Hp]. split; [|by apply segment_last with (e := e)].
  exists j. rewrite lookup_insert_ne by congruence. split; [done|]. rewrite Hn. by destruct l.
Qed.

Lemma chain_frame h h' l e : (forall q, q ∈ l -> h' !! q = h !! q) -> chain h l e -> chain h' l e.
Proof.
  destruct l as [|p l]; [done|]. intros Hq [(i & Hi & Hn) Hs]. split; [exists i; by rewrite Hq by (by left)|]. clear Hi Hn i.
  assert (Hl : forall q, q ∈ l -> h' !! q = h !! q) by (intros q H; apply Hq; by right). clear Hq. revert p Hs.
  induction l as [|x l IH]; intros p Hs; [done|]. destruct Hs as [(i & Hi & Hr) Hs]. split; [exists i; by rewrite Hl by (by left)|].
  apply IH; [|done]. intros q H. apply Hl. by right.
Qed.

(** Membership in a list that is written out. *)
Ltac member := repeat (rewrite elem_of_app || rewrite elem_of_cons || rewrite elem_of_nil); tauto.

Lemma touches_trans S S' h1 h2 h3 : touches S h1 h2 -> touches S' h2 h3 -> S ⊆ S' -> touches S' h1 h3.
Proof. intros [D1 O1] [D2 O2] HS. split; intros q; [by rewrite D2|]. intros Hq. rewrite O2 by done. apply O1. intros H. by apply Hq, HS. Qed.

Lemma touches_mono S S' h1 h2 : touches S h1 h2 -> S ⊆ S' -> touches S' h1 h2.
Proof. intros H HS. apply (touches_trans S S' h1 h2 h2); [done|apply touches_refl|done]. Qed.

(** The order of the names, which relinking does not change. *)
Definition less_in (case_sensitive : bool) (h : gmap nat item) (p q : nat) : bool := default false (smaller case_sensitive h p q).

Lemma smaller_less case_sensitive h p q : is_Some (h !! p) -> is_Some (h !! q) -> smaller case_sensitive h p q = Some (less_in case_sensitive h p q).
Proof. intros [i Hi] [j Hj]. unfold less_in, smaller. by rewrite Hi, Hj. Qed.

Lemma same_data_name h h' p : same_data h h' -> i_string <$> h' !! p = i_string <$> h !! p.
Proof. intros H. specialize (H p). destruct (h !! p) as [i|], (h' !! p) as [j|]; cbn in *; unfold data_of in *; congruence. Qed.

Lemma less_same case_sensitive h h' p q : same_data h h' -> less_in case_sensitive h' p q = less_in case_sensitive h p q.
Proof.
  intros H. pose proof (same_data_name h h' p H) as E1. pose proof (same_data_name h h' q H) as E2. unfold less_in, smaller.
  destruct (h !! p), (h' !! p), (h !! q), (h' !! q); cbn in *; congruence.
Qed.

Lemma less_in_asym case_sensitive h p q : less_in case_sensitive h p q = true -> less_in case_sensitive h q p = false.
Proof.
  unfold less_in, smaller, compare_strings. destruct (h !! p) as [i|], (h !! q) as [j|]; cbn; try done. destruct (i_string i), (i_string j); try done.
  destruct case_sensitive; intros H%Z.ltb_lt; apply Z.ltb_ge; rewrite strcmp_opp; lia.
Qed.

Lemma chain_some h l e p : chain h l e -> p ∈ l -> is_Some (h !! p).
Proof. intros Hc Hp. apply list_elem_of_lookup in Hp as [j Hj]. destruct (chain_next h l e j p Hc Hj) as (i & Hi & _). by exists i. Qed.

Lemma test_sorted_spec case_sensitive h fuel p l : chain h (p :: l) None -> (length l < fuel)%nat ->
  test_sorted fuel case_sensitive p h = Some (ascending (less_in case_sensitive h) (p :: l)).
Proof.
  revert p fuel. induction l as [|q l IH]; intros p fuel Hc Hf; (destruct fuel as [|fuel]; [lia|]); cbn [test_sorted];
    destruct Hc as [(i & Hi & Hn) Hs]; rewrite Hi; cbn [mbind option_bind]; rewrite Hn; [done|]. cbn [hd_or].
  assert (Hq : chain h (q :: l) None) by (apply (chain_tail h p); split; [by exists i|done]).
  rewrite smaller_less; [|by exists i|apply (chain_some h (q :: l) None q Hq); by left]. cbn [mbind option_bind]. cbn [ascending].
  destruct (less_in case_sensitive h p q); [|done]. apply (IH q fuel Hq). cbn in Hf. lia.
Qed.

Lemma find_middle_spec h l fuel j : chain h l None -> (2 * j <= length l + 1)%nat -> (length l <= 2 * fuel + 2 * j)%nat -> (1 <= length l)%nat ->
  find_middle fuel (l !! j) (l !! (2 * j)%nat) h = Some (l !! half (length l)).
Proof.
  intros Hc. revert j. induction fuel as [|fuel IH]; intros j Hj Hf Hl; destruct (Nat.lt_ge_cases (2 * j) (length l)) as [Hlt|Hge]; try lia.
  1,3: rewrite (lookup_ge_None_2 l (2 * j)) by done; cbn [find_middle]; repeat f_equal; unfold half; pose proof (Nat.div2_odd (S (length l))) as E; destruct (Nat.odd (S (length l))); cbn [Nat.b2n] in E; lia.
  destruct (lookup_lt_is_Some_2 l (2 * j) Hlt) as [c Ec]. destruct (lookup_lt_is_Some_2 l j ltac:(lia)) as [s Es]. rewrite Ec, Es. cbn [find_middle mbind option_bind].
  destruct (chain_next h l None _ s Hc Es) as (si & Hs & Hsn). destruct (chain_next h l None _ c Hc Ec) as (ci & Hci & Hcn). rewrite Hs. cbn [mbind option_bind]. rewrite Hci. cbn [mbind option_bind].
  assert (Esn : i_next si = l !! S j) by (rewrite Hsn; by destruct (l !! S j)). rewrite Esn, Hcn.
  assert (E2 : S (S (2 * j)) = (2 * S j)%nat) by lia. destruct (l !! S (2 * j)) as [c'|] eqn:Ec'.
  - destruct (chain_next h l None _ c' Hc Ec') as (i & Hi & Hin). rewrite Hi. cbn [mbind option_bind]. rewrite Hin, E2.
    pose proof (IH (S j) ltac:(lia) ltac:(lia) Hl) as HI. by destruct (l !! (2 * S j)%nat).
  - apply lookup_ge_None in Ec'. pose proof (IH (S j) ltac:(lia) ltac:(lia) Hl) as HI. by rewrite (lookup_ge_None_2 l (2 * S j)) in HI by lia.
Qed.

Lemma split_lists_spec h a s b : a <> [] -> chain h (a ++ s :: b) None -> NoDup (a ++ s :: b) ->
  exists h', split_lists (Some s) h = Some h' /\ chain h' a None /\ chain h' (s :: b) None /\ touches (a ++ s :: b) h h'.
Proof.
  intros Ha Hc Hd. destruct (exists_last Ha) as (a0 & p & ->). rewrite <- app_assoc in Hd. cbn [app] in Hd.
  apply chain_app in Hc as [H1 H2]; [|by destruct a0]. rewrite last_or_app in H2. cbn [last_or List.last hd_or] in *.
  assert (Hsb : chain h (s :: b) None) by (destruct H2 as [(i & Hi & _ & Hn) Hs]; split; [by exists i|done]).
  destruct H2 as [(si & Hs & Hsp & Hsn) _]. unfold split_lists. rewrite Hs. cbn [mbind option_bind]. rewrite Hsp.
  destruct (chain_some h _ _ p H1 ltac:(apply elem_of_app; right; by left)) as [pi Hp].
  apply list.NoDup_app in Hd as (Hd0 & Hx & Hd1). apply list.NoDup_cons in Hd1 as [Hpn Hd1]. pose proof Hpn as [Nps Npb]%not_elem_of_cons.
  apply list.NoDup_cons in Hd1 as [Nsb _]. assert (Npa : p ∉ a0) by (intros H; apply (Hx p H); by left).
  assert (Nsa : s ∉ a0 ++ [p]). { rewrite elem_of_app, elem_of_cons, elem_of_nil. intros [H|[->|[]]]; [apply (Hx s H); right; by left|done]. }
  rewrite (upd_some p _ h pi Hp). cbn [mbind option_bind]. rewrite (upd_some s _ _ si) by (by rewrite lookup_insert_ne). eexists. split; [done|]. split_and!.
  - apply chain_outside; [done|]. by apply chain_last with (e := Some s).
  - apply chain_first; [done|by rewrite lookup_insert_ne|]. by apply chain_outside.
  - apply touches_upd; [apply touches_upd; [apply touches_refl|done|member|done]|by rewrite lookup_insert_ne|member|done].
Qed.

Lemma append_rest_spec h d t p k e : chain h (d ++ [t]) e -> chain h (p :: k) None -> NoDup ((d ++ [t]) ++ p :: k) ->
  exists h', append_rest t p h = Some h' /\ chain h' ((d ++ [t]) ++ p :: k) None /\ touches [t; p] h h'.
Proof.
  intros H1 H2 Hd. destruct (chain_some h _ _ t H1 ltac:(member)) as [ti Ht]. destruct (chain_some h _ _ p H2 ltac:(member)) as [pi Hp].
  apply list.NoDup_app in Hd as (Hd1 & Hx & Hd2). apply list.NoDup_cons in Hd2 as [Npk _]. apply list.NoDup_app in Hd1 as (_ & Hy & _).
  assert (Ntd : t ∉ d) by (intros H; apply (Hy t H); by left). assert (Ntp : t ∉ p :: k) by (apply Hx; member). pose proof Ntp as [Ntp' Ntk]%not_elem_of_cons.
  assert (Npd : p ∉ d ++ [t]) by (intros H; apply (Hx p H); by left).
  unfold append_rest. rewrite (upd_some t _ h ti Ht). cbn [mbind option_bind]. rewrite (upd_some p _ _ pi) by (by rewrite lookup_insert_ne). eexists. split; [done|]. split.
  - apply chain_app; [by destruct d|]. rewrite last_or_app. cbn [last_or List.last hd_or]. split.
    + apply chain_outside; [done|]. by apply chain_last with (e := e).
    + destruct H2 as [(i & Hi & Hn) Hs]. rewrite Hp in Hi. injection Hi as <-. split; [exists (set_prev (Some t) pi); by rewrite lookup_insert_eq|].
      by repeat (apply segment_outside; [done|]).
  - apply touches_upd; [apply touches_upd; [apply touches_refl|done|member|done]|by rewrite lookup_insert_ne|member|done].
Qed.

(** The head of a list goes over to what is built. *)
Lemma append_head h d t x f e k : chain h (d ++ [t]) e -> chain h (x :: f) None -> chain h k None -> NoDup ((d ++ [t]) ++ x :: f ++ k) ->
  exists h' xi, append_rest t x h = Some h' /\ chain h' ((d ++ [t]) ++ [x]) (hd_or f None) /\ chain h' f None /\ chain h' k None /\
    h' !! x = Some xi /\ i_next xi = hd_or f None /\ touches [t; x] h h'.
Proof.
  intros Hb Hf Hk Hd. assert (Hd' := Hd). rewrite (app_assoc _ [x] (f ++ k)), (app_assoc _ f k), <- (app_assoc _ [x] f) in Hd'. cbn [app] in Hd'.
  apply list.NoDup_app in Hd' as (Hd' & Hx & _). destruct (append_rest_spec h d t x f e Hb Hf Hd') as (h' & E & Hc & Ht).
  assert (Hxi := Hc). apply chain_app in Hxi as [_ [(xi & Hi & _ & Hn) _]]; [|by destruct d]. rewrite (app_assoc _ [x] f) in Hc.
  apply chain_app in Hc as [H1 H2]; [|by destruct d]. exists h', xi. split_and!; try done.
  - destruct f as [|z f]; [done|]. destruct H2 as [(i & ? & _ & ?) ?]. split; [by exists i|done].
  - apply (chain_frame h); [|done]. intros q Hq. apply Ht. intros Hin. apply (Hx q); [|done]. revert Hin. rewrite !elem_of_app, !elem_of_cons, elem_of_nil. tauto.
Qed.

Lemma nodup_perm (l k : list nat) : l ≡ₚ k -> NoDup l -> NoDup k.
Proof. by intros ->. Qed.

(** The merge behind what is built: the list [d ++ [t]]. *)
Lemma merge_lists_behind case_sensitive h0 fuel h f s d t c e :
  same_data h0 h -> chain h (d ++ [t]) e -> chain h f None -> chain h s None -> NoDup ((d ++ [t]) ++ f ++ s) -> f ++ s <> [] ->
  (length f + length s <= fuel)%nat ->
  exists h', merge_lists fuel case_sensitive (hd_or f None) (hd_or s None) (Some (c, t)) h = Some (Some c, h') /\
    chain h' ((d ++ [t]) ++ merge (less_in case_sensitive h0) f s) None /\ touches ((d ++ [t]) ++ f ++ s) h h'.
Proof.
  revert h f s d t e. induction fuel as [|fuel IH]; intros h f s d t e H0 Hb Hf Hs Hd Hne Hl.
  { destruct f, s; cbn in Hl, Hne; try lia; done. }
  destruct f as [|x f]; [|destruct s as [|y s]].
  - destruct s as [|y s]; [done|]. cbn [hd_or merge_lists merge app] in *. destruct (append_rest_spec h d t y s e Hb Hs Hd) as (h' & -> & Hc & Ht). cbn [mbind option_bind].
    exists h'. split; [done|]. split; [done|]. apply (touches_mono [t; y]); [done|]. intros q. member.
  - cbn [hd_or merge_lists merge] in *. rewrite app_nil_r in *. destruct (append_rest_spec h d t x f e Hb Hf Hd) as (h' & -> & Hc & Ht). cbn [mbind option_bind].
    exists h'. split; [done|]. split; [done|]. apply (touches_mono [t; x]); [done|]. intros q. member.
  - cbn [hd_or merge_lists]. rewrite smaller_less; [|apply (chain_some _ _ _ _ Hf); by left|apply (chain_some _ _ _ _ Hs); by left]. cbn [mbind option_bind].
    rewrite (less_same case_sensitive h0 h) by done. cbn [merge]. destruct (less_in case_sensitive h0 x y) eqn:E.
    + destruct (append_head h d t x f e (y :: s) Hb Hf Hs Hd) as (h1 & xi & -> & H1 & H2 & H3 & Hx & Hn & Ht). cbn [mbind option_bind]. rewrite Hx. cbn [mbind option_bind]. rewrite Hn.
      destruct (IH h1 f (y :: s) (d ++ [t]) x (hd_or f None)) as (h2 & E2 & Hc2 & Ht2); try done.
      * intros q. rewrite <- H0. apply Ht.
      * by rewrite <- (app_assoc _ [x]).
      * by destruct f.
      * cbn in *. lia.
      * exists h2. rewrite <- (app_assoc _ [x]) in Hc2, Ht2. split; [done|]. split; [done|]. apply (touches_trans [t; x] _ _ h1); [done|done|]. intros q. member.
    + assert (Hd' : NoDup ((d ++ [t]) ++ y :: s ++ x :: f)) by (eapply nodup_perm; [|exact Hd]; solve_Permutation).
      destruct (append_head h d t y s e (x :: f) Hb Hs Hf Hd') as (h1 & yi & -> & H1 & H2 & H3 & Hy & Hn & Ht). cbn [mbind option_bind]. rewrite Hy. cbn [mbind option_bind]. rewrite Hn.
      destruct (IH h1 (x :: f) s (d ++ [t]) y (hd_or s None)) as (h2 & E2 & Hc2 & Ht2); try done.
      * intros q. rewrite <- H0. apply Ht.
      * eapply nodup_perm; [|exact Hd]. solve_Permutation.
      * cbn in *. lia.
      * exists h2. split; [done|]. rewrite <- (app_assoc _ [y]) in Hc2. split; [done|].
        apply (touches_trans [t; y] _ _ h1); [done| |intros q; member]. apply (touches_mono _ _ _ _ Ht2). intros q. member.
Qed.

Lemma merge_lists_spec case_sensitive h0 fuel h f s :
  same_data h0 h -> chain h f None -> chain h s None -> NoDup (f ++ s) -> f <> [] -> s <> [] -> (length f + length s <= fuel)%nat ->
  exists h', merge_lists fuel case_sensitive (hd_or f None) (hd_or s None) None h = Some (hd_or (merge (less_in case_sensitive h0) f s) None, h') /\
    chain h' (merge (less_in case_sensitive h0) f s) None /\ touches (f ++ s) h h'.
Proof.
  intros H0 Hf Hs Hd Nf Ns Hl. destruct f as [|x f], s as [|y s]; try done. destruct fuel as [|fuel]; [cbn in Hl; lia|]. cbn [hd_or merge_lists merge].
  rewrite smaller_less; [|apply (chain_some _ _ _ _ Hf); by left|apply (chain_some _ _ _ _ Hs); by left]. cbn [mbind option_bind].
  rewrite (less_same case_sensitive h0 h) by done. destruct (less_in case_sensitive h0 x y).
  - assert (H1 := Hf). destruct H1 as [(xi & Hx & Hn) _]. rewrite Hx. cbn [mbind option_bind]. rewrite Hn.
    destruct (merge_lists_behind case_sensitive h0 fuel h f (y :: s) [] x x (hd_or f None)) as (h' & E & Hc & Ht); try done.
    + split; [by exists xi|done].
    + by apply chain_tail in Hf.
    + by destruct f.
    + cbn in *. lia.
    + by exists h'.
  - assert (H1 := Hs). destruct H1 as [(yi & Hy & Hn) _]. rewrite Hy. cbn [mbind option_bind]. rewrite Hn.
    destruct (merge_lists_behind case_sensitive h0 fuel h (x :: f) s [] y y (hd_or s None)) as (h' & E & Hc & Ht); try done.
    + split; [by exists yi|done].
    + by apply chain_tail in Hs.
    + eapply nodup_perm; [|exact Hd]. solve_Permutation.
    + cbn in *. lia.
    + exists h'. split; [done|]. split; [done|]. apply (touches_mono _ _ _ _ Ht). intros q. member.
Qed.

(** A list and its halves. *)
Lemma two_halves {A} (l : list A) : (2 <= length l)%nat ->
  exists a y b, take (half (length l)) l = a /\ drop (half (length l)) l = y :: b /\ l = a ++ y :: b /\ a <> [] /\ l !! half (length l) = Some y.
Proof.
  intros Hl. pose proof (half_bounds (length l) Hl) as Hh. set (k := half (length l)) in *. clearbody k. destruct (drop k l) as [|y b] eqn:E.
  { apply (f_equal length) in E. rewrite length_drop in E. cbn in E. lia. }
  exists (take k l), y, b. split_and!; try done.
  - by rewrite <- E, take_drop.
  - intros Ht. apply (f_equal length) in Ht. rewrite length_take in Ht. cbn in Ht. lia.
  - rewrite <- (take_drop k l) at 1. rewrite lookup_app_r, length_take, E by (rewrite length_take; lia). by replace (k - k `min` length l)%nat with 0%nat by lia.
Qed.

Lemma sort_list_spec case_sensitive h0 fuel h l :
  same_data h0 h -> chain h l None -> NoDup l -> (length l <= fuel)%nat ->
  exists h', sort_list fuel case_sensitive (hd_or l None) h = Some (hd_or (merge_sort (less_in case_sensitive h0) fuel l) None, h') /\
    chain h' (merge_sort (less_in case_sensitive h0) fuel l) None /\ touches l h h'.
Proof.
  revert h l. induction fuel as [|fuel IH]; intros h l H0 Hc Hd Hl.
  { destruct l; [|cbn in Hl; lia]. by exists h. }
  destruct l as [|x l]; [by exists h|]. assert (Hx := Hc). destruct Hx as [(xi & Hx & Hn) _]. cbn [hd_or sort_list]. rewrite Hx. cbn [mbind option_bind]. rewrite Hn.
  destruct l as [|x' l]; [by exists h|]. cbn [hd_or]. rewrite (test_sorted_spec case_sensitive h (S fuel) x (x' :: l) Hc) by (cbn in *; lia). cbn [mbind option_bind].
  set (L := x :: x' :: l) in *. assert (EL : (length L <=? 1)%nat = false) by done. cbn [merge_sort]. rewrite EL. cbn [orb].
  assert (Ea : ascending (less_in case_sensitive h) L = ascending (less_in case_sensitive h0) L).
  { clear - H0. induction L as [|a L IH]; [done|]. destruct L as [|b L]; [done|]. cbn [ascending] in *. by rewrite (less_same case_sensitive h0 h) by done; rewrite IH. }
  rewrite Ea. destruct (ascending (less_in case_sensitive h0) L); [by exists h|].
  assert (Hm := find_middle_spec h L (S fuel) 0 Hc ltac:(lia) ltac:(lia) ltac:(cbn; lia)). change (L !! 0%nat) with (Some x) in Hm. change (L !! (2 * 0)%nat) with (Some x) in Hm.
  rewrite Hm. cbn [mbind option_bind]. assert (H2 : (2 <= length L)%nat) by (cbn; lia).
  destruct (two_halves L H2) as (a & y & b & Et & Ed & Es & Na & Ey). rewrite Ey, Et, Ed. rewrite Es in Hc, Hd, Hl.
  destruct (split_lists_spec h a y b Na Hc Hd) as (h1 & -> & Hca & Hcb & Ht1). cbn [mbind option_bind].
  pose proof (half_bounds (length L) H2) as Hh. assert (La : length a = half (length L)) by (rewrite <- Et, length_take; lia). rewrite length_app in Hl.
  assert (Lb : (length (y :: b) <= fuel)%nat) by (assert (length L = (length a + length (y :: b))%nat) by (rewrite Es at 1; by rewrite length_app); lia).
  assert (Hd' := Hd). apply list.NoDup_app in Hd' as (Hda & Hab & Hdb). assert (H01 : same_data h0 h1) by (intros q; rewrite <- H0; apply Ht1).
  destruct (IH h1 a H01 Hca Hda ltac:(cbn in Hl; lia)) as (h2 & E2 & Hc2 & Ht2). replace (hd_or a None) with (Some x) in E2 by (destruct a; [done|by injection Es as <- _]).
  rewrite E2. cbn [mbind option_bind]. assert (H02 : same_data h0 h2) by (intros q; rewrite <- H01; apply Ht2).
  assert (Hcb2 : chain h2 (y :: b) None). { apply (chain_frame h1); [|done]. intros q Hq. apply Ht2. intros Hin. by apply (Hab q Hin). }
  destruct (IH h2 (y :: b) H02 Hcb2 Hdb Lb) as (h3 & E3 & Hc3 & Ht3). cbn [hd_or] in E3. rewrite E3. cbn [mbind option_bind].
  set (sa := merge_sort (less_in case_sensitive h0) fuel a) in *. set (sb := merge_sort (less_in case_sensitive h0) fuel (y :: b)) in *.
  assert (Pa : sa ≡ₚ a) by apply merge_sort_perm. assert (Pb : sb ≡ₚ y :: b) by apply merge_sort_perm.
  destruct (merge_lists_spec case_sensitive h0 (S fuel) h3 sa sb) as (h4 & E4 & Hc4 & Ht4).
  - intros q. rewrite <- H02. apply Ht3.
  - apply (chain_frame h2); [|done]. intros q Hq. apply Ht3. rewrite Pa in Hq. by apply Hab.
  - done.
  - by rewrite Pa, Pb.
  - intros E. rewrite E in Pa. by apply Permutation_nil in Pa.
  - intros E. rewrite E in Pb. by apply Permutation_nil in Pb.
  - rewrite Pa, Pb. cbn in *. lia.
  - exists h4. split; [done|]. split; [done|]. rewrite Es. apply (touches_trans (a ++ y :: b) _ _ h3); [|apply (touches_mono _ _ _ _ Ht4); intros q; by rewrite Pa, Pb|done].
    apply (touches_trans (a ++ y :: b) _ _ h2); [|apply (touches_mono _ _ _ _ Ht3); intros q; member|done].
    apply (touches_trans (a ++ y :: b) _ _ h1); [done|apply (touches_mono _ _ _ _ Ht2); intros q; member|done].
Qed.

Lemma walk_chain h l k : chain h l None -> walk k (hd_or l None) h = Some (l !! k).
Proof.
  destruct l as [|p l]; [by destruct k|]. intros [(i & Hi & Hn) Hs]. destruct k as [|k]; [done|]. cbn [hd_or walk]. rewrite Hi. cbn [mbind option_bind]. rewrite Hn. exact (walk_lookup h p l k Hs).
Qed.

(** sorting an object returns, and puts its members in the order of their names: the
    items that a walk along the list then meets are the members as before, each once, and
    none comes right before one with a smaller name, with or without regard to case.  Only
    pointers of the object and its members are written. *)
Theorem sort_object_sorts h o l case_sensitive fuel :
  children h o l -> (length l <= fuel)%nat ->
  exists h' l', sort_object fuel (Some o) case_sensitive h = Some h' /\ l' ≡ₚ l /\
    Sorted (not_after (less_in case_sensitive h)) l' /\
    (forall k, get_array_item (Some o) k h' = Some (l' !! k)) /\ touches (o :: l) h h'.
Proof.
  intros (Hd & (oi & Ho & Hoc) & Hs) Hf. apply list.NoDup_cons in Hd as [Nol Hd].
  assert (Hc : chain h l None) by (destruct l as [|p l]; [done|destruct Hs as [(i & ? & _ & ?) ?]; split; [by exists i|done]]).
  destruct (sort_list_spec case_sensitive h fuel h l ltac:(done) Hc Hd Hf) as (h1 & E & Hc1 & Ht). set (l' := merge_sort (less_in case_sensitive h) fuel l) in *.
  assert (P : l' ≡ₚ l) by apply merge_sort_perm. assert (No : o ∉ l') by (by rewrite P). assert (Ho1 : h1 !! o = Some oi) by (rewrite <- Ho; by apply Ht).
  exists (<[o := set_child (hd_or l' None) oi]> h1), l'. unfold sort_object. rewrite Ho. cbn [mbind option_bind]. rewrite Hoc, E. cbn [mbind option_bind].
  rewrite (upd_some o _ h1 oi Ho1). split_and!; [done|done|apply merge_sort_sorted; [apply less_in_asym|done]| |].
  - intros k. unfold get_array_item. rewrite lookup_insert_eq. cbn [mbind option_bind set_child i_child]. by apply walk_chain, chain_outside.
  - apply touches_upd; [|done|by left|done]. apply (touches_mono l); [done|]. intros q. by right.
Qed.

(** ** The operations by index *)

Lemma walk_down_segment h b l which : segment h b l None ->
  walk_down which (hd_or l None) h = Some (l !! which, (which - length l)%nat).
Proof.
  revert b which. induction l as [|p l IH]; intros b which Hs; [by destruct which|]. destruct which as [|which]; [done|].
  destruct Hs as [(i & Hi & _ & Hn) Hs]. cbn [hd_or walk_down]. rewrite Hi. cbn [mbind option_bind]. rewrite Hn. exact (IH p which Hs).
Qed.

(** They do what the library's operations on a pointer do, where there is an item. *)
Lemma detach_by_index h a l which : children h a l ->
  detach_item_from_array a which h = match l !! which with Some x => cJSON_DetachItemViaPointer (Some a) (Some x) h | None => Some (None, h) end.
Proof.
  intros Hc. assert (Hc' := Hc). destruct Hc' as (_ & (ai & Ha & Hac) & Hs). unfold detach_item_from_array. rewrite Ha. cbn [mbind option_bind]. rewrite Hac.
  rewrite (walk_down_segment h _ l which Hs). cbn [mbind option_bind]. destruct (l !! which) as [x|] eqn:E; [|done].
  apply list_elem_of_split_length in E as (l1 & l2 & -> & _). destruct (children_at _ _ _ _ _ Hc) as (ai' & xi & Ha' & _ & Hx & Hxp & _). rewrite Ha in Ha'. injection Ha' as <-.
  unfold cJSON_DetachItemViaPointer. rewrite Ha, Hx. cbn [mbind option_bind]. rewrite Hac, Hxp, (bool_decide_eq_false_2 (Some _ = None)), andb_false_r by done. done.
Qed.

Lemma insert_by_index h a l which n : children h a l ->
  insert_item_in_array a which n h =
  if (length l <? which)%nat then Some (false, h) else '(_, h') ← cJSON_InsertItemInArray (Some a) (Z.of_nat which) (Some n) h; Some (true, h').
Proof.
  intros Hc. assert (Hc' := Hc). destruct Hc' as (_ & (ai & Ha & Hac) & Hs). unfold insert_item_in_array, cJSON_InsertItemInArray.
  rewrite Ha. cbn [mbind option_bind]. rewrite Hac. rewrite (walk_down_segment h _ l which Hs). cbn [mbind option_bind].
  rewrite (proj2 (Z.ltb_ge _ _)), Nat2Z.id, (get_array_item_lookup h a l which Hc) by lia. cbn [mbind option_bind].
  destruct (Nat.ltb_spec (length l) which) as [Hlt|Hge]; [by rewrite (proj2 (Nat.ltb_lt _ _)) by lia|]. rewrite (proj2 (Nat.ltb_ge _ _)) by lia.
  destruct (l !! which) as [x|] eqn:E; [|done]. apply list_elem_of_split_length in E as (l1 & l2 & -> & _).
  destruct (children_at _ _ _ _ _ Hc) as (ai' & xi & Ha' & _ & Hx & Hxp & _). rewrite Ha in Ha'. injection Ha' as <-. cbn [mbind option_bind]. rewrite Hx. cbn [mbind option_bind].
  rewrite ?Hac, Hxp, (bool_decide_eq_false_2 (Some _ = None)), andb_false_r by done. repeat (destruct (upd _ _ _); cbn [mbind option_bind]; [|done]).
  by destruct (bool_decide _); cbn [mbind option_bind]; destruct (upd _ _ _).
Qed.

(** ** Witness and departures *)

(** An object at 0 whose members have the names given, from address 1 on. *)
Fixpoint link_members (names : list string) (p : nat) (h : gmap nat item) : gmap nat item :=
  match names with
  | [] => h
  | n :: names =>
    <[p := mkItem (if names is [] then None else Some (S p)) (Some (p - 1)%nat) None cJSON_NULL None 0 zero (Some (bytes_of n))]> (link_members names (S p) h)
  end.

Definition named_object (names : list string) : gmap nat item :=
  let h := <[0%nat := mkItem None None (Some 1%nat) cJSON_Object None 0 zero None]> (link_members names 1 ∅) in
  default h (upd 1%nat (set_prev (Some (length names))) h).

(** The names met on a walk of the members. *)
Fixpoint names_along (fuel : nat) (current : option nat) (h : gmap nat item) : list (list byte) :=
  match fuel, current with
  | S fuel, Some p => match h !! p with Some i => default [] (i_string i) :: names_along fuel (i_next i) h | None => [] end
  | _, _ => []
  end.

Definition member_names (h : gmap nat item) : list (list byte) := names_along 10 (h !! 0%nat ≫= i_child) h.

Lemma named_object_children : children (named_object ["b"; "a"]%string) 0%nat [1%nat; 2%nat].
Proof.
  split; [apply (bool_decide_eq_true_1 (NoDup [0%nat; 1%nat; 2%nat])); vm_compute; reflexivity|]. split; [by eexists|].
  split; [eexists; split; [by vm_compute|done]|]. split; [eexists; split; [by vm_compute|done]|done].
Qed.

Lemma sort_object_sorts_witness :
  exists h' l', sort_object 2 (Some 0%nat) true (named_object ["b"; "a"]%string) = Some h' /\ l' ≡ₚ [1%nat; 2%nat] /\
    get_array_item (Some 0%nat) 0 h' = Some (l' !! 0%nat) /\ member_names h' = [bytes_of "a"; bytes_of "b"].
Proof.
  destruct (sort_object_sorts (named_object ["b"; "a"]%string) 0%nat [1%nat; 2%nat] true 2 named_object_children ltac:(cbn; lia)) as (h' & l' & E & P & _ & H & _).
  exists h', l'. split; [done|]. split; [done|]. split; [apply H|]. vm_compute in E. injection E as <-. vm_compute. reflexivity.
Defined.

(** The members of an object that was sorted and then given a new member. *)
Definition sorted_then_added (names : list string) : option (bool * list (list byte)) :=
  let new := 9%nat in
  h ← sort_object (length names) (Some 0%nat) true (<[new := mkItem None None None cJSON_NULL None 0 zero (Some (bytes_of "new"))]> (named_object names));
  '(ok, h) ← cJSON_AddItemToArray (Some 0%nat) (Some new) h;
  Some (ok, member_names h).

(** The first item of a sorted list does not point to its last.  A member that is added
    then is lost although the addition reports success, or it takes the place of members
    that were there. *)
Example sorted_object_loses_members :
  sorted_then_added ["b"; "a"]%string = Some (true, [bytes_of "a"; bytes_of "b"]) /\
  sorted_then_added ["a"; "c"; "b"]%string = Some (true, [bytes_of "a"; bytes_of "b"; bytes_of "new"]).
Proof. vm_compute. done. Qed.
