(* ===== verification/CjsonPointer.v ===== *)
(** * JSON pointers

    The JSON pointers (RFC 6901) of cJSON's utilities,
    [src/firmware/managed_components/espressif__cjson/cJSON/cJSON_Utils.c]: the pointer to an
    item of a document, and the item of a pointer.

    A C string is the list of its bytes before the NUL; the end of the list is the NUL the
    code looks for.  An item is identified by its position, the indices of the children on
    the way to it, as the code identifies it by its address.  Memory is there; [size_t] has
    the 32 bits it has on the device. *)

From S2P Require Import Prelude AuditLog KeyPolicy Double Cjson CjsonPrint CjsonRoundtrip CjsonTree.

Definition TILDE : byte := to_u8 126.
Definition ZERO : byte := to_u8 48.
Definition ONE : byte := to_u8 49.

(** ** Names in a pointer *)

(** At the end of a pointer's token. *)
Definition token_ends (pointer : list byte) : bool := match pointer with [] => true | c :: _ => bool_decide (c = SLASH) end.

Definition same_char (case_sensitive : bool) (a b : byte) : bool :=
  if case_sensitive then bool_decide (a = b) else bool_decide (tolower a = tolower b).

Fixpoint compare_token (case_sensitive : bool) (name pointer : list byte) : bool :=
  match name, pointer with
  | n :: name', p :: pointer' =>
    if bool_decide (p = SLASH) then false
    else if bool_decide (p = TILDE) then
      match pointer' with
      | c :: pointer'' =>
        if (bool_decide (c = ZERO) && bool_decide (n = TILDE)) || (bool_decide (c = ONE) && bool_decide (n = SLASH))
        then compare_token case_sensitive name' pointer'' else false
      | [] => false
      end
    else if same_char case_sensitive n p then compare_token case_sensitive name' pointer' else false
  | [], _ => token_ends pointer
  | _ :: _, [] => false
  end.

Definition compare_pointers (name : option (list byte)) (pointer : list byte) (case_sensitive : bool) : bool :=
  match name with Some name => compare_token case_sensitive (c_str name) pointer | None => false end.

Definition encode_char (c : byte) : list byte :=
  if bool_decide (c = SLASH) then [TILDE; ONE] else if bool_decide (c = TILDE) then [TILDE; ZERO] else [c].

(** What [encode_string_as_pointer] writes before the NUL. *)
Definition encode_string_as_pointer (source : list byte) : list byte := flat_map encode_char (c_str source).

Definition pointer_encoded_length (string : list byte) : nat :=
  fold_right (fun c n => if bool_decide (c = TILDE) || bool_decide (c = SLASH) then S (S n) else S n) 0%nat (c_str string).

(** ** The pointer to an item *)

(** [Crash]: a member without a name is read as a string. *)
Inductive found : Type :=
| Pointer (p : list byte)
| NotFound
| Crash.

Fixpoint find_from (n : cJSON) (here target : list nat) {struct n} : found :=
  if bool_decide (here = target) then Pointer []
  else
    let 'Node t _ _ _ _ c := n in
    (fix search (c : list cJSON) (child_index : nat) : found :=
       match c with
       | [] => NotFound
       | x :: c =>
         match find_from x (here ++ [child_index]) target with
         | Pointer p =>
           if Z.land t 255 =? cJSON_Array then Pointer (SLASH :: to_string (Z.of_nat child_index) ++ p)
           else if Z.land t 255 =? cJSON_Object then
             match nstring x with Some s => Pointer (SLASH :: encode_string_as_pointer s ++ p) | None => Crash end
           else NotFound
         | NotFound => search c (S child_index)
         | Crash => Crash
         end
       end) c 0%nat.

Definition cJSONUtils_FindPointerFromObjectTo (object : option cJSON) (target : option (list nat)) : found :=
  match object, target with Some n, Some path => find_from n [] path | _, _ => NotFound end.

(** ** The item of a pointer *)

Fixpoint index_value (digits : list byte) (parsed_index : Z) : Z :=
  match digits with
  | [] => parsed_index
  | c :: digits => index_value digits (u32 (10 * parsed_index + (u8 c - 48)))
  end.

Definition decode_array_index_from_pointer (pointer : list byte) : option Z :=
  let padded := match pointer with c :: rest => bool_decide (c = ZERO) && negb (token_ends rest) | [] => false end in
  if padded then None
  else let (ds, rest) := span_digits pointer in if token_ends rest then Some (index_value ds 0) else None.

Fixpoint skip_token (pointer : list byte) : list byte :=
  match pointer with
  | [] => []
  | c :: rest => if bool_decide (c = SLASH) then pointer else skip_token rest
  end.

(** [fuel] bounds the tokens. *)
Fixpoint follow (fuel : nat) (case_sensitive : bool) (current_element : cJSON) (pointer : list byte) : option cJSON :=
  match pointer with
  | [] => Some current_element
  | c :: rest =>
    if negb (bool_decide (c = SLASH)) then Some current_element
    else
      match fuel with
      | O => None
      | S fuel =>
        let next :=
          if kind current_element =? cJSON_Array then
            index ← decode_array_index_from_pointer rest; child current_element !! Z.to_nat index
          else if kind current_element =? cJSON_Object then
            List.find (fun x => compare_pointers (nstring x) rest case_sensitive) (child current_element)
          else None in
        x ← next; follow fuel case_sensitive x (skip_token rest)
      end
  end.

Definition get_item_from_pointer (object : option cJSON) (pointer : option (list byte)) (case_sensitive : bool) : option cJSON :=
  match object, pointer with Some n, Some p => follow (length p) case_sensitive n (c_str p) | _, _ => None end.

Definition cJSONUtils_GetPointer (object : option cJSON) (pointer : option (list byte)) : option cJSON := get_item_from_pointer object pointer false.
Definition cJSONUtils_GetPointerCaseSensitive (object : option cJSON) (pointer : option (list byte)) : option cJSON := get_item_from_pointer object pointer true.

(** ** Decoding in place *)

(** The writes of [decode_pointer_inplace] to the bytes at [string], NUL included: [i] is
    where it reads, [d] where it writes.  [None]: it reads or writes outside the bytes. *)
Fixpoint decode_loop (fuel : nat) (b : list byte) (i d : nat) : option (list byte) :=
  match fuel with
  | O => None
  | S fuel =>
    c ← b !! i;
    if bool_decide (c = x00) then (if (d <? length b)%nat then Some (<[d := x00]> b) else None)
    else if bool_decide (c = TILDE) then
      e ← b !! S i;
      if bool_decide (e = ZERO) then (if (d <? length b)%nat then decode_loop fuel (<[d := TILDE]> b) (S (S i)) (S d) else None)
      else if bool_decide (e = ONE) then (if (S d <? length b)%nat then decode_loop fuel (<[S d := SLASH]> b) (S (S i)) (S d) else None)
      else Some b
    else decode_loop fuel b (S i) (S d)
  end.

(** The string that is left. *)
Definition decode_pointer_inplace (string : list byte) : option (list byte) :=
  c_str <$> decode_loop (length (c_str string) + 1) (c_str string ++ [x00]) 0 0.

(** ** Tokens *)

Definition fold_case (case_sensitive : bool) (s : list byte) : list byte := if case_sensitive then s else map tolower s.

Lemma fold_case_cons case_sensitive x a y b :
  fold_case case_sensitive (x :: a) = fold_case case_sensitive (y :: b) <-> same_char case_sensitive x y = true /\ fold_case case_sensitive a = fold_case case_sensitive b.
Proof.
  destruct case_sensitive; cbn [fold_case same_char map]; rewrite bool_decide_eq_true; (split; [intros H; by injection H|intros [E1 E2]; congruence]).
Qed.

Lemma fold_case_some case_sensitive x a : fold_case case_sensitive (x :: a) <> fold_case case_sensitive [].
Proof. destruct case_sensitive; intros H; discriminate H. Qed.

(** The characters with an escape have no other case. *)
Lemma escaped_alone case_sensitive n c : c = SLASH \/ c = TILDE -> same_char case_sensitive n c = bool_decide (n = c).
Proof.
  intros Hc. destruct case_sensitive; [done|]. unfold same_char.
  assert (H : forallb (fun n => Bool.eqb (bool_decide (tolower n = tolower SLASH)) (bool_decide (n = SLASH)) && Bool.eqb (bool_decide (tolower n = tolower TILDE)) (bool_decide (n = TILDE))) all_bytes = true)
    by (vm_compute; reflexivity).
  apply forall_bytes with (b := n) in H. apply andb_true_iff in H as [H1%eqb_prop H2%eqb_prop]. by destruct Hc as [->| ->].
Qed.

(** A token that encodes [s] is matched by the names equal to [s]. *)
Lemma compare_encoded case_sensitive name s rest : token_ends rest = true ->
  compare_token case_sensitive name (flat_map encode_char s ++ rest) = bool_decide (fold_case case_sensitive name = fold_case case_sensitive s).
Proof.
  intros Hr. revert name. induction s as [|c s IH]; intros [|n name]; cbn [flat_map].
  - cbn [app compare_token]. by rewrite bool_decide_eq_true_2.
  - rewrite bool_decide_eq_false_2 by apply fold_case_some. cbn [app compare_token]. destruct rest as [|p rest]; [done|]. cbn [token_ends] in Hr. by rewrite Hr.
  - rewrite bool_decide_eq_false_2 by (intros H; by apply (fold_case_some case_sensitive c s)). unfold encode_char. destruct (decide (c = SLASH)) as [->|H1]; [by rewrite bool_decide_eq_true_2|].
    rewrite (bool_decide_eq_false_2 (c = SLASH)) by done. destruct (decide (c = TILDE)) as [->|H2]; [by rewrite bool_decide_eq_true_2|].
    rewrite (bool_decide_eq_false_2 (c = TILDE)) by done. cbn [app compare_token token_ends]. by rewrite bool_decide_eq_false_2.
  - rewrite (bool_decide_ext _ _ (fold_case_cons case_sensitive n name c s)). unfold encode_char.
    destruct (decide (c = SLASH)) as [->|H1]; [|rewrite (bool_decide_eq_false_2 (c = SLASH)) by done; destruct (decide (c = TILDE)) as [->|H2]].
    + rewrite bool_decide_eq_true_2 by done. cbn [app compare_token]. rewrite (bool_decide_eq_false_2 (TILDE = SLASH)), (bool_decide_eq_true_2 (TILDE = TILDE)) by done.
      rewrite (bool_decide_eq_false_2 (ONE = ZERO)), (bool_decide_eq_true_2 (ONE = ONE)) by done. cbn [andb orb]. rewrite (escaped_alone _ _ SLASH) by tauto.
      rewrite bool_decide_and, IH. destruct (bool_decide (n = SLASH)); [by rewrite (bool_decide_eq_true_2 (true = true))|by rewrite (bool_decide_eq_false_2 (false = true))].
    + rewrite bool_decide_eq_true_2 by done. cbn [app compare_token]. rewrite (bool_decide_eq_false_2 (TILDE = SLASH)), (bool_decide_eq_true_2 (TILDE = TILDE)) by done.
      rewrite (bool_decide_eq_true_2 (ZERO = ZERO)), (bool_decide_eq_false_2 (ZERO = ONE)) by done. cbn [andb]. rewrite orb_false_r. rewrite (escaped_alone _ _ TILDE) by tauto.
      rewrite bool_decide_and, IH. destruct (bool_decide (n = TILDE)); [by rewrite (bool_decide_eq_true_2 (true = true))|by rewrite (bool_decide_eq_false_2 (false = true))].
    + rewrite (bool_decide_eq_false_2 (c = TILDE)) by done. cbn [app compare_token]. rewrite !bool_decide_eq_false_2 by done.
      rewrite bool_decide_and, IH. destruct (same_char case_sensitive n c); [by rewrite (bool_decide_eq_true_2 (true = true))|by rewrite (bool_decide_eq_false_2 (false = true))].
Qed.

Lemma encoded_length s : pointer_encoded_length s = length (encode_string_as_pointer s).
Proof.
  unfold pointer_encoded_length, encode_string_as_pointer. induction (c_str s) as [|c r IH]; [done|]. cbn [fold_right flat_map]. rewrite length_app, IH. unfold encode_char.
  destruct (decide (c = SLASH)) as [->|H1]; [done|]. rewrite !(bool_decide_eq_false_2 (c = SLASH)) by done. by destruct (bool_decide (c = TILDE)).
Qed.

Lemma skip_token_app token rest : SLASH ∉ token -> token_ends rest = true -> skip_token (token ++ rest) = rest.
Proof.
  intros Ht Hr. induction token as [|c token IH].
  - destruct rest as [|c rest]; [done|]. cbn [app skip_token]. cbn [token_ends] in Hr. by rewrite Hr.
  - apply not_elem_of_cons in Ht as [Hc Ht]. cbn [app skip_token]. rewrite bool_decide_eq_false_2 by congruence. by apply IH.
Qed.

Lemma encoded_no_slash s : SLASH ∉ encode_string_as_pointer s.
Proof.
  unfold encode_string_as_pointer. induction (c_str s) as [|c r IH]; [apply not_elem_of_nil|]. cbn [flat_map]. rewrite elem_of_app. intros [H|H]; [|done]. revert H. unfold encode_char.
  destruct (decide (c = SLASH)) as [->|H1]; [rewrite bool_decide_eq_true_2 by done|rewrite bool_decide_eq_false_2 by done; destruct (bool_decide (c = TILDE))]; rewrite !elem_of_cons, elem_of_nil.
  - by intros [H|[H|[]]].
  - by intros [H|[H|[]]].
  - intros [H|[]]. congruence.
Qed.

(** A number has no leading zero. *)
Lemma dec_leads fuel z acc : 0 < z < 10 ^ Z.of_nat fuel -> exists c r, dec fuel z acc = c :: r /\ u8 c <> 48.
Proof.
  revert z acc. induction fuel as [|fuel IH]; intros z acc Hz; [cbn in Hz; lia|]. cbn [dec]. pose proof (Z.mod_pos_bound z 10 ltac:(lia)) as Hm.
  pose proof (Z.div_mod z 10 ltac:(lia)) as Hdm. destruct (Z.eqb_spec (z / 10) 0) as [E|E].
  - eexists _, _. split; [done|]. destruct (digit_clean (z mod 10) Hm) as (_ & _ & ->). lia.
  - apply IH. rewrite Nat2Z.inj_succ, Z.pow_succ_r in Hz by lia. split; [|apply Z.div_lt_upper_bound]; lia.
Qed.

Lemma span_digits_ends ds rest : digits ds -> token_ends rest = true -> span_digits (ds ++ rest) = (ds, rest).
Proof.
  intros Hd Hr. induction Hd as [|c ds Hc _ IH]; cbn [app span_digits]; [|by rewrite Hc, IH]. destruct rest as [|c rest]; [done|].
  cbn [token_ends] in Hr. apply bool_decide_eq_true in Hr as ->. done.
Qed.

Lemma index_value_loop ds acc : digits ds -> 0 <= acc -> strtoull_loop ds acc < 2 ^ 32 -> index_value ds acc = strtoull_loop ds acc.
Proof.
  intros Hd. revert acc. induction Hd as [|c ds Hc Hd IH]; intros acc Ha Hv; [done|]. cbn [index_value strtoull_loop] in *. rewrite Hc in *.
  unfold is_digit in Hc. bool_to_prop.
  assert (Hmono : forall l a, 0 <= a -> a <= strtoull_loop l a).
  { clear. induction l as [|x l IHl]; intros a Ha; cbn [strtoull_loop]; [lia|]. destruct (is_digit x) eqn:E; [|lia]. unfold is_digit in E. bool_to_prop. specialize (IHl (10 * a + (u8 x - 48))). lia. }
  pose proof (Hmono ds (10 * acc + (u8 c - 48)) ltac:(lia)). rewrite u32_id by (unfold is_u32; lia). apply IH; [lia|done].
Qed.

Lemma decode_index i rest : is_u32 (Z.of_nat i) -> token_ends rest = true -> decode_array_index_from_pointer (to_string (Z.of_nat i) ++ rest) = Some (Z.of_nat i).
Proof.
  intros Hi Hr. unfold is_u32 in Hi. unfold to_string. destruct (dec_spec 20 (Z.of_nat i) [] ltac:(cbn; lia) ltac:(lia)) as (ds & E & _ & Hd & _ & Hv). rewrite app_nil_r in E.
  assert (Hp : match ds ++ rest with c :: r => bool_decide (c = ZERO) && negb (token_ends r) | [] => false end = false).
  { rewrite <- E. destruct (decide (Z.of_nat i = 0)) as [->|Hne]; [change (dec 20 0 []) with [ZERO]; cbn [app]; by rewrite Hr, andb_false_r|]. destruct (dec_leads 20 (Z.of_nat i) [] ltac:(cbn; lia)) as (c & r & -> & Hc). cbn [app].
    rewrite bool_decide_eq_false_2; [done|]. intros ->. done. }
  unfold decode_array_index_from_pointer. rewrite E, Hp, span_digits_ends, Hr by done. specialize (Hv []). rewrite app_nil_r in Hv. cbn [strtoull_loop] in Hv.
  f_equal. rewrite index_value_loop; [done|done|lia|]. rewrite Hv. lia.
Qed.

Lemma digits_no_slash ds : digits ds -> SLASH ∉ ds.
Proof.
  induction 1 as [|c ds Hc _ IH]; [apply not_elem_of_nil|]. apply not_elem_of_cons. split; [|done]. by intros <-.
Qed.

(** ** Positions *)

Fixpoint at_path (n : cJSON) (path : list nat) : option cJSON :=
  match path with
  | [] => Some n
  | i :: path => x ← child n !! i; at_path x path
  end.

Definition token_of (n x : cJSON) (i : nat) : list byte :=
  if kind n =? cJSON_Array then to_string (Z.of_nat i) else encode_string_as_pointer (default [] (nstring x)).

Fixpoint pointer_text (n : cJSON) (path : list nat) : list byte :=
  match path with
  | [] => []
  | i :: path => match child n !! i with Some x => SLASH :: token_of n x i ++ pointer_text x path | None => [] end
  end.

(** The way to a position goes through arrays, and through objects whose members have
    different names. *)
Fixpoint addressable (case_sensitive : bool) (n : cJSON) (path : list nat) : Prop :=
  match path with
  | [] => True
  | i :: path =>
    exists x, child n !! i = Some x /\ addressable case_sensitive x path /\
      ((kind n = cJSON_Array /\ is_u32 (Z.of_nat i)) \/
       (kind n = cJSON_Object /\ nstring x <> None /\ NoDup (map (fun y => fold_case case_sensitive (name_of y)) (child n))))
  end.

Lemma text_ends n path : token_ends (pointer_text n path) = true.
Proof. destruct path as [|i path]; [done|]. cbn [pointer_text]. by destruct (child n !! i). Qed.

Lemma find_member case_sensitive (l : list cJSON) i x rest :
  l !! i = Some x -> nstring x <> None -> NoDup (map (fun y => fold_case case_sensitive (name_of y)) l) -> token_ends rest = true ->
  List.find (fun y => compare_pointers (nstring y) (encode_string_as_pointer (default [] (nstring x)) ++ rest) case_sensitive) l = Some x.
Proof.
  intros Hi Hx Hd Hr. revert i Hi. induction l as [|y l IH]; intros i Hi; [done|]. cbn [List.find]. cbn [map] in Hd. apply list.NoDup_cons in Hd as [Hy Hd].
  destruct (nstring x) as [k|] eqn:Ek; [|done]. destruct i as [|i].
  - injection Hi as ->. rewrite Ek. cbn [compare_pointers default]. unfold encode_string_as_pointer. rewrite compare_encoded by done. by rewrite bool_decide_eq_true_2.
  - replace (compare_pointers (nstring y) _ case_sensitive) with false; [by apply (IH Hd i)|]. destruct (nstring y) as [s|] eqn:Es; [|done].
    cbn [compare_pointers]. unfold encode_string_as_pointer. rewrite compare_encoded by done. symmetry. apply bool_decide_eq_false_2. intros E. apply Hy.
    apply list_elem_of_lookup. exists i. rewrite list_lookup_fmap. change (l !! i = Some x) in Hi. rewrite Hi. cbn. unfold name_of. rewrite Ek, Es. cbn. by rewrite E.
Qed.

Lemma follow_text case_sensitive fuel n path : addressable case_sensitive n path -> (length path <= fuel)%nat ->
  follow fuel case_sensitive n (pointer_text n path) = at_path n path.
Proof.
  revert fuel n. induction path as [|i path IH]; intros fuel n Ha Hf; [by destruct fuel|]. destruct Ha as (x & Hx & Ha & Hk). destruct fuel as [|fuel]; [cbn in Hf; lia|].
  cbn [pointer_text at_path]. rewrite Hx. cbn [follow]. rewrite bool_decide_eq_true_2 by done. cbn [negb mbind option_bind]. unfold token_of. destruct Hk as [[Hk Hi]|(Hk & Hn & Hd)]; rewrite Hk.
  - rewrite (Z.eqb_refl cJSON_Array), decode_index by (done || apply text_ends). cbn [mbind option_bind]. rewrite Nat2Z.id, Hx. cbn [mbind option_bind].
    rewrite skip_token_app; [|apply digits_no_slash, dec_digits; constructor|apply text_ends]. apply IH; [done|cbn in Hf; lia].
  - change (cJSON_Object =? cJSON_Array) with false. change (cJSON_Object =? cJSON_Object) with true. cbn iota. rewrite (find_member case_sensitive (child n) i x) by (done || apply text_ends).
    cbn [mbind option_bind]. rewrite skip_token_app; [|apply encoded_no_slash|apply text_ends]. apply IH; [done|cbn in Hf; lia].
Qed.

(** ** The search *)

(** Nothing is found below a position that the target is not below. *)
Lemma find_elsewhere n : forall here target, ~ here `prefix_of` target -> find_from n here target = NotFound.
Proof.
  induction n as [t v i d s c IHc] using cJSON_induction. intros here target Hp. cbn [find_from]. rewrite bool_decide_eq_false_2 by (intros ->; by apply Hp).
  generalize 0%nat as k. induction IHc as [|x c Hx _ IH]; intros k; [done|]. rewrite Hx; [apply IH|]. intros H. apply Hp. by apply prefix_app_l in H.
Qed.

(** The search through the children of [n], from the one at [k] on. *)
Definition search_from (n : cJSON) (here target : list nat) : list cJSON -> nat -> found :=
  fix search (c : list cJSON) (child_index : nat) : found :=
    match c with
    | [] => NotFound
    | x :: c =>
      match find_from x (here ++ [child_index]) target with
      | Pointer p =>
        if kind n =? cJSON_Array then Pointer (SLASH :: to_string (Z.of_nat child_index) ++ p)
        else if kind n =? cJSON_Object then
          match nstring x with Some s => Pointer (SLASH :: encode_string_as_pointer s ++ p) | None => Crash end
        else NotFound
      | NotFound => search c (S child_index)
      | Crash => Crash
      end
    end.

Lemma find_from_eq n here target : find_from n here target = if bool_decide (here = target) then Pointer [] else search_from n here target (child n) 0.
Proof. by destruct n. Qed.

Lemma search_reaches n here i path x c k :
  c !! i = Some x -> find_from x (here ++ [(k + i)%nat]) (here ++ (k + i)%nat :: path) = Pointer (pointer_text x path) ->
  (kind n = cJSON_Array \/ (kind n = cJSON_Object /\ nstring x <> None)) ->
  search_from n here (here ++ (k + i)%nat :: path) c k = Pointer (SLASH :: token_of n x (k + i) ++ pointer_text x path).
Proof.
  intros Hi Hf Hk. revert i k Hi Hf. induction c as [|y c IH]; intros i k Hi Hf; [done|]. destruct i as [|i].
  - injection Hi as ->. rewrite Nat.add_0_r in *. cbn [search_from]. rewrite Hf. unfold token_of. destruct Hk as [->|[-> Hn]]; [done|].
    change (cJSON_Object =? cJSON_Array) with false. change (cJSON_Object =? cJSON_Object) with true. cbn iota. by destruct (nstring x).
  - cbn [search_from]. rewrite find_elsewhere.
    + fold (search_from n here (here ++ (k + S i)%nat :: path)). replace (k + S i)%nat with (S k + i)%nat in * by lia. by apply IH.
    + intros H. apply prefix_app_inv in H. apply prefix_cons_inv_1 in H. lia.
Qed.

Lemma find_from_text case_sensitive n path here : addressable case_sensitive n path -> find_from n here (here ++ path) = Pointer (pointer_text n path).
Proof.
  revert n here. induction path as [|i path IH]; intros n here Ha; rewrite find_from_eq; [by rewrite app_nil_r, bool_decide_eq_true_2|].
  destruct Ha as (x & Hx & Ha & Hk). rewrite bool_decide_eq_false_2; [|intros H; apply (f_equal length) in H; rewrite length_app in H; cbn in H; lia].
  cbn [pointer_text]. rewrite Hx. apply (search_reaches n here i path x (child n) 0 Hx); [|tauto].
  change (0 + i)%nat with i. change (i :: path) with ([i] ++ path). rewrite app_assoc. by apply IH.
Qed.

Lemma text_nul_free n path : nul_free (pointer_text n path).
Proof.
  revert n. induction path as [|i path IH]; intros n; [constructor|]. cbn [pointer_text]. destruct (child n !! i) as [x|]; [|constructor]. constructor; [done|].
  apply nul_free_app. split; [|apply IH]. unfold token_of. destruct (_ =? _); [apply digits_nul_free, dec_digits; constructor|].
  unfold encode_string_as_pointer. pose proof (c_str_nul_free (default [] (nstring x))) as H. induction H as [|c s Hc _ IHs]; [constructor|]. cbn [flat_map]. apply nul_free_app. split; [|done].
  unfold encode_char. destruct (bool_decide (c = SLASH)), (bool_decide (c = TILDE)); by repeat constructor.
Qed.

Lemma text_length case_sensitive n path : addressable case_sensitive n path -> (length path <= length (pointer_text n path))%nat.
Proof.
  revert n. induction path as [|i path IH]; intros n Ha; [done|]. destruct Ha as (x & Hx & Ha & _). cbn [pointer_text]. rewrite Hx. cbn [length]. rewrite length_app.
  specialize (IH x Ha). lia.
Qed.

(** pointers go both ways: for every position of a document that lies in arrays and in
    objects with different names, the search for it returns a pointer, and looking that
    pointer up returns the item at the position; with or without regard to case, according
    to which the names differ.  The characters that separate tokens or begin an escape may
    occur in the names. *)
Theorem pointer_roundtrip case_sensitive n path x :
  addressable case_sensitive n path -> at_path n path = Some x ->
  exists p, cJSONUtils_FindPointerFromObjectTo (Some n) (Some path) = Pointer p /\ get_item_from_pointer (Some n) (Some p) case_sensitive = Some x.
Proof.
  intros Ha Hx. exists (pointer_text n path). split; [by apply (find_from_text case_sensitive n path [])|]. unfold get_item_from_pointer.
  rewrite c_str_id by apply nul_free_not_in, text_nul_free. rewrite <- Hx. apply follow_text; [done|]. by apply (text_length case_sensitive).
Qed.

(** ** Witness and departures *)

(** [{"a/b~c": [null, true]}] *)
Definition pointed : cJSON := object_node [with_name (bytes_of "a/b~c") (array_node [Node cJSON_NULL None 0 zero None []; Node cJSON_True None 1 zero None []])].

Lemma pointer_roundtrip_witness :
  addressable true pointed [0; 1]%nat /\
  exists p, cJSONUtils_FindPointerFromObjectTo (Some pointed) (Some [0; 1]%nat) = Pointer p /\ p = bytes_of "/a~1b~0c/1" /\
    cJSONUtils_GetPointerCaseSensitive (Some pointed) (Some p) = Some (Node cJSON_True None 1 zero None []).
Proof.
  assert (Ha : addressable true pointed [0; 1]%nat).
  { eexists. split; [done|]. split; [|right; split; [done|split; [done|]]].
    - eexists. split; [done|]. split; [done|]. left. split; [done|]. unfold is_u32. cbn. lia.
    - apply (bool_decide_eq_true_1 (NoDup (map (fun y => fold_case true (name_of y)) (child pointed)))). vm_compute. reflexivity. }
  split; [done|]. destruct (pointer_roundtrip true pointed [0; 1]%nat (Node cJSON_True None 1 zero None []) Ha eq_refl) as (p & E & G). exists p. split; [done|]. split; [|done].
  vm_compute in E. injection E as <-. vm_compute. reflexivity.
Defined.

(** Decoding a token that has no escape leaves it. *)
Lemma decode_loop_plain s k i : (forall j, (i <= j < length s)%nat -> s !! j <> Some TILDE) -> x00 ∉ s -> (i + k = length s)%nat ->
  decode_loop (S k) (s ++ [x00]) i i = Some (s ++ [x00]).
Proof.
  revert i. induction k as [|k IH]; intros i Ht Hn Hl.
  - rewrite Nat.add_0_r in Hl. subst i. cbn [decode_loop]. rewrite (list_lookup_middle s [] x00 (length s)) by done. cbn [mbind option_bind].
    rewrite bool_decide_eq_true_2 by done. rewrite (proj2 (Nat.ltb_lt _ _)) by (rewrite length_app; cbn; lia). f_equal. by rewrite insert_app_r_alt, Nat.sub_diag by lia.
  - destruct (lookup_lt_is_Some_2 s i ltac:(lia)) as [c Hc]. remember (S k) as k' eqn:Ek. cbn [decode_loop]. rewrite (lookup_app_l s [x00] i), Hc by lia. cbn [mbind option_bind].
    rewrite bool_decide_eq_false_2 by (intros ->; apply Hn; by eapply list_elem_of_lookup_2).
    rewrite bool_decide_eq_false_2 by (intros ->; by apply (Ht i ltac:(lia))). subst k'. apply IH; [|done|lia]. intros j Hj. apply Ht. lia.
Qed.

Lemma decode_plain s : TILDE ∉ s -> x00 ∉ s -> decode_pointer_inplace s = Some s.
Proof.
  intros Ht Hn. unfold decode_pointer_inplace. rewrite c_str_id, Nat.add_comm by done. cbn [Nat.add]. rewrite (decode_loop_plain s (length s) 0); [|intros j _ H; apply Ht; by eapply list_elem_of_lookup_2|done|done].
  cbn [fmap option_fmap option_map]. f_equal. rewrite <- (c_str_id s Hn) at 2. clear. induction s as [|c s IH]; [done|]. cbn [app c_str]. destruct (bool_decide (c = x00)); [done|by rewrite IH].
Qed.

(** An escape is not decoded: what follows is not moved to the front, and the slash is
    written one byte too far.  RFC 6901 reads ["a/b"] and ["~ab"]. *)
Example escapes_not_decoded :
  decode_pointer_inplace (bytes_of "a~1b") = Some (bytes_of "a~/") /\ decode_pointer_inplace (bytes_of "~0ab") = Some (bytes_of "~0a").
Proof. vm_compute. done. Qed.

(** An index is read modulo the width of [size_t], an empty one as 0, and a pointer that
    does not begin with a slash is the document. *)
Example lax_pointers_followed :
  let l := Some (array_node [Node cJSON_True None 1 zero None []]) in
  get_item_from_pointer l (Some (bytes_of "/4294967296")) true = Some (Node cJSON_True None 1 zero None []) /\
  get_item_from_pointer l (Some (bytes_of "/")) true = Some (Node cJSON_True None 1 zero None []) /\
  get_item_from_pointer l (Some (bytes_of "x")) true = l.
Proof. vm_compute. done. Qed.
