(* ===== verification/CjsonMerge.v ===== *)
(** * JSON merge patches

    [merge_patch] of cJSON's utilities,
    [src/firmware/managed_components/espressif__cjson/cJSON/cJSON_Utils.c], on the trees of
    [CjsonTree]: a document is changed by a patch as RFC 7396 says.  [rfc7396] is that rule, a
    relation of a target, a patch and a result that speaks of the members by their names;
    the code, which takes members out of a list and appends them, is shown to follow it. *)

From S2P Require Import Prelude AuditLog KeyPolicy Double Cjson CjsonPrint CjsonRoundtrip CjsonTree.

(** ** The code *)

Definition with_children (n : cJSON) (c : list cJSON) : cJSON := let 'Node t v i d s _ := n in Node t v i d s c.

(** The first child of the name and the others; with regard to case the search ends at a
    child that has no name. *)
Fixpoint take_named (case_sensitive : bool) (name : list byte) (ns : list cJSON) : option (cJSON * list cJSON) :=
  match ns with
  | [] => None
  | n :: ns =>
    let later := '(x, rest) ← take_named case_sensitive name ns; Some (x, n :: rest) in
    match nstring n with
    | None => if case_sensitive then None else later
    | Some s => if (if case_sensitive then bool_decide (c_str name = c_str s) else case_insensitive_eq name s) then Some (n, ns) else later
    end
  end.

(** [cJSON_DetachItemFromObject] and [cJSON_DetachItemFromObjectCaseSensitive]: the item
    and the object. *)
Definition detach_from_object (object : option cJSON) (name : option (list byte)) (case_sensitive : bool) : option cJSON * option cJSON :=
  match object, name with
  | Some o, Some k =>
    match take_named case_sensitive k (child o) with Some (x, rest) => (Some x, Some (with_children o rest)) | None => (None, object) end
  | _, _ => (None, object)
  end.

Section Merge.
Context (hooks : nat -> bool) (case_sensitive : bool).

Section Members.
Context (merge : option cJSON -> cJSON -> Mem -> option cJSON * Mem).

(** The members of a patch, one after the other; [merge] is the merge of a member. *)
Fixpoint apply_members (c : list cJSON) (target : option cJSON) (m : Mem) : option cJSON * Mem :=
  match c with
  | [] => (target, m)
  | x :: c =>
    let (old, target) := detach_from_object target (nstring x) case_sensitive in
    if kind x =? cJSON_NULL then apply_members c target (freed (blocks_opt old) m)
    else
      let (replacement, m) := merge old x m in
      match replacement with
      | None => (None, freed (blocks_opt target) m)
      | Some r =>
        match cJSON_AddItemToObject hooks target (nstring x) (Some r) m with
        | Added o m => apply_members c (Some o) m
        | NotAdded m => apply_members c target m
        end
      end
  end.
End Members.

Fixpoint merge_patch (target : option cJSON) (patch : cJSON) (m : Mem) {struct patch} : option cJSON * Mem :=
  match patch with
  | Node t v i d s c =>
    if negb (Z.land t 255 =? cJSON_Object) then cJSON_Duplicate hooks (Some (Node t v i d s c)) true (freed (blocks_opt target) m)
    else
      let (target, m) := if cJSON_IsObject target then (target, m) else cJSON_CreateObject hooks (freed (blocks_opt target) m) in
      apply_members (fun old x m => merge_patch old x m) c target m
  end.

Lemma merge_patch_eq target patch m :
  merge_patch target patch m =
  if negb (kind patch =? cJSON_Object) then cJSON_Duplicate hooks (Some patch) true (freed (blocks_opt target) m)
  else
    let (target, m) := if cJSON_IsObject target then (target, m) else cJSON_CreateObject hooks (freed (blocks_opt target) m) in
    apply_members merge_patch (child patch) target m.
Proof. by destruct patch. Qed.
End Merge.

(** A null patch releases the target. *)
Definition merge_patch_pointer (hooks : nat -> bool) (target patch : option cJSON) (case_sensitive : bool) (m : Mem) : option cJSON * Mem :=
  match patch with Some p => merge_patch hooks case_sensitive target p m | None => (None, freed (blocks_opt target) m) end.

Definition cJSONUtils_MergePatch (hooks : nat -> bool) (target patch : option cJSON) : Mem -> option cJSON * Mem := merge_patch_pointer hooks target patch false.
Definition cJSONUtils_MergePatchCaseSensitive (hooks : nat -> bool) (target patch : option cJSON) : Mem -> option cJSON * Mem := merge_patch_pointer hooks target patch true.

(** ** The rule of RFC 7396 *)

Definition member (name : list byte) (n : cJSON) : option cJSON := find_item true name (child n).
Definition member_of (name : list byte) (target : option cJSON) : option cJSON :=
  match target with Some n => if kind n =? cJSON_Object then member name n else None | None => None end.

#[warnings="-register-all"]
Inductive rfc7396 : option cJSON -> cJSON -> cJSON -> Prop :=
| rfc_value target patch result :
    kind patch <> cJSON_Object -> unnamed result = unnamed (copied patch) -> rfc7396 target patch result
| rfc_object target patch result :
    kind patch = cJSON_Object -> kind result = cJSON_Object ->
    (forall name, member name patch = None -> member name result = member_of name target) ->
    (forall name v, member name patch = Some v -> kind v = cJSON_NULL -> member name result = None) ->
    (forall name v, member name patch = Some v -> kind v <> cJSON_NULL ->
     exists w, member name result = Some w /\ rfc7396 (member_of name target) v w) ->
    rfc7396 target patch result.

(** Documents that own what is in them and whose members have different names. *)
Fixpoint proper (n : cJSON) : Prop :=
  let 'Node t _ _ _ _ c := n in
  has_flag t cJSON_IsReference = false /\ has_flag t cJSON_StringIsConst = false /\
  (Z.land t 255 = cJSON_Object -> NoDup (map name_of c) /\ Forall (fun x => nstring x <> None) c) /\
  fold_right (fun n P => proper n /\ P) True c.

Lemma proper_eq n : proper n <->
  has_flag (ntype n) cJSON_IsReference = false /\ has_flag (ntype n) cJSON_StringIsConst = false /\
  (kind n = cJSON_Object -> NoDup (map name_of (child n)) /\ Forall (fun x => nstring x <> None) (child n)) /\ Forall proper (child n).
Proof. destruct n as [t v i d s c]. cbn [proper ntype child]. unfold kind. cbn [ntype]. split; (intros (H1 & H2 & H3 & H4); split_and!; [done..|]); [by apply fold_conj|]. clear - H4. by induction H4. Qed.

(** ** Members by name *)

Definition all_named (l : list cJSON) : Prop := Forall (fun x => nstring x <> None) l.

Definition called (name : list byte) (x : cJSON) : bool := bool_decide (c_str name = name_of x).

Lemma find_called name l : all_named l -> find_item true name l = List.find (called name) l.
Proof.
  induction 1 as [|x l Hx _ IH]; [done|]. cbn [find_item List.find]. unfold called at 1, name_of. destruct (nstring x) as [s|]; [|done]. cbn [default].
  by destruct (bool_decide _).
Qed.

Lemma find_app name l k : List.find (called name) (l ++ k) = match List.find (called name) l with Some x => Some x | None => List.find (called name) k end.
Proof. induction l as [|x l IH]; [done|]. cbn [app List.find]. by destruct (called name x). Qed.

Lemma find_none name l : (forall x, x ∈ l -> name_of x <> c_str name) -> List.find (called name) l = None.
Proof.
  induction l as [|x l IH]; intros H; [done|]. cbn [List.find]. unfold called at 1. rewrite bool_decide_eq_false_2 by (intros E; apply (H x); [by left|done]).
  apply IH. intros y Hy. apply H. by right.
Qed.

Lemma take_named_spec name l : all_named l ->
  match take_named true name l with
  | None => List.find (called name) l = None
  | Some (x, rest) => List.find (called name) l = Some x /\ exists l1 l2, l = l1 ++ x :: l2 /\ rest = l1 ++ l2 /\ name_of x = c_str name
  end.
Proof.
  induction 1 as [|x l Hx _ IH]; [done|]. destruct (nstring x) as [s|] eqn:E; [|done].
  assert (En : name_of x = c_str s) by (unfold name_of; by rewrite E). 
  assert (Ec : called name x = bool_decide (c_str name = c_str s)) by (unfold called; by rewrite En). cbn [take_named List.find]. rewrite E, Ec.
  destruct (decide (c_str name = c_str s)) as [Hs|Hs].
  - rewrite bool_decide_eq_true_2 by done. split; [done|]. exists [], l. split_and!; [done|done|congruence].
  - rewrite bool_decide_eq_false_2 by done. destruct (take_named true name l) as [[y rest]|]; cbn [mbind option_bind]; [|exact IH].
    destruct IH as (Hf & l1 & l2 & -> & -> & Hn). split; [done|]. by exists (x :: l1), l2.
Qed.

Lemma all_named_app l k : all_named (l ++ k) <-> all_named l /\ all_named k.
Proof. apply Forall_app. Qed.

(** What is left when a member is taken out of those with different names. *)
Lemma without_member name l1 x l2 :
  NoDup (map name_of (l1 ++ x :: l2)) -> name_of x = c_str name ->
  NoDup (map name_of (l1 ++ l2)) /\ List.find (called name) (l1 ++ l2) = None /\
  forall other, c_str other <> c_str name -> List.find (called other) (l1 ++ l2) = List.find (called other) (l1 ++ x :: l2).
Proof.
  intros Hd Hx. rewrite map_app in Hd. cbn [map] in Hd. assert (Hp : map name_of l1 ++ name_of x :: map name_of l2 ≡ₚ name_of x :: map name_of l1 ++ map name_of l2) by solve_Permutation.
  rewrite Hp in Hd. apply list.NoDup_cons in Hd as [Hn Hd]. rewrite <- map_app in Hn, Hd. split_and!; [done| |].
  - apply find_none. intros y Hy E. apply Hn. rewrite Hx, <- E. apply list_elem_of_fmap. by exists y.
  - intros other Ho. rewrite !find_app. cbn [List.find]. replace (called other x) with false; [done|]. symmetry. apply bool_decide_eq_false_2. congruence.
Qed.

(** Detaching a member. *)
Lemma detach_spec o name : kind o = cJSON_Object -> proper o ->
  exists o', detach_from_object (Some o) (Some name) true = (member name o, Some o') /\ proper o' /\ kind o' = cJSON_Object /\
    member name o' = None /\ (forall other, c_str other <> c_str name -> member other o' = member other o) /\
    blocks o' = blocks o - blocks_opt (member name o) /\ (forall x, member name o = Some x -> proper x).
Proof.
  intros Hk Hp. assert (Hp' := Hp). apply proper_eq in Hp' as (H1 & H2 & H3 & H4). destruct (H3 Hk) as [Hd Hn]. unfold detach_from_object, member.
  pose proof (take_named_spec name (child o) Hn) as Ht. destruct (take_named true name (child o)) as [[x rest]|].
  - destruct Ht as (Hf & l1 & l2 & El & -> & Hx). rewrite find_called, Hf by done. exists (with_children o (l1 ++ l2)).
    destruct o as [t v i d s c]. cbn [with_children child ntype] in *. unfold kind in *. cbn [ntype] in *. subst c.
    destruct (without_member name l1 x l2 Hd Hx) as (Hd' & Hf' & Ho). apply Forall_app in H4 as [H4 H5]. inversion H5 as [|? ? H6 H7]; subst.
    apply all_named_app in Hn as [Hn1 Hn2]. assert (Hn2' := Hn2). inversion Hn2' as [|? ? _ Hn3]; subst. assert (Hn' : all_named (l1 ++ l2)) by (by apply all_named_app).
    split_and!; try done.
    + apply proper_eq. cbn [ntype child]. unfold kind. cbn [ntype]. split_and!; try done. apply Forall_app. by split.
    + by rewrite find_called.
    + intros other Hne. rewrite !find_called by (done || by apply all_named_app). by apply Ho.
    + cbn [blocks blocks_opt]. rewrite H1, H2. pose proof (blocks_all_app l1 (x :: l2)) as E1. pose proof (blocks_all_app l1 l2) as E2. unfold blocks_all in E1, E2. cbn [fold_right] in E1. lia.
    + by intros y [= <-].
  - rewrite find_called, Ht by done. exists o. split_and!; try done; [|cbn; lia]. by rewrite find_called.
Qed.

Lemma proper_named name n : proper n -> proper (with_name name n).
Proof. by destruct n. Qed.

Lemma kind_named name n : kind (with_name name n) = kind n.
Proof. by destruct n. Qed.

Lemma blocks_rename name n : has_flag (ntype n) cJSON_StringIsConst = false -> blocks (with_name name n) = blocks n - present (nstring n) + 1.
Proof. destruct n as [t v i d s c]. cbn [ntype nstring with_name blocks]. intros ->. unfold present. lia. Qed.

Lemma proper_copied n : proper n -> proper (copied n).
Proof.
  induction n as [t v i d s c IH] using cJSON_induction. intros H. apply proper_eq in H as (H1 & H2 & H3 & H4). cbn [ntype child] in *.
  apply proper_eq. cbn [copied ntype child]. destruct (copy_flags t) as [E1 E2]. split_and!; [done|by rewrite E2| |].
  - intros Hk. change (Z.land (Z.ldiff t cJSON_IsReference) 255) with (kind (copied (Node t v i d s c))) in Hk. pose proof (kind_copied (Node t v i d s c)) as Ek.
    unfold kind in *. cbn [copied ntype] in *. rewrite Ek in Hk. destruct (H3 Hk) as [Hd Hn]. split.
    + rewrite map_map. erewrite map_ext; [exact Hd|]. intros x. apply name_copied.
    + apply Forall_map. eapply Forall_impl; [|exact Hn]. intros x Hx. by apply name_copied.
  - apply Forall_map. rewrite list.Forall_forall in *. intros x Hx. apply IH; [done|by apply H4].
Qed.

Section Enough.
Context (hooks : nat -> bool) (Hmem : forall k, hooks k = true).

Lemma duplicate_done n m : (levels n - 1 <= CJSON_CIRCULAR_LIMIT)%nat ->
  exists m', cJSON_Duplicate hooks (Some n) true m = (Some (copied n), m') /\ live m' = live m + blocks (copied n).
Proof.
  intros Hl. pose proof (duplicate_spec hooks n 0 m) as H. cbn [cJSON_Duplicate]. destruct (cJSON_Duplicate_rec hooks n 0 true m) as [[n'|] m']; cbn [copy_ok] in H.
  - destruct H as [-> H]. by exists m'.
  - destruct H as [_ [[k Hk]|H]]; [by rewrite Hmem in Hk|]. lia.
Qed.

Lemma add_done o name r m : kind o = cJSON_Object -> proper o -> proper r -> member name o = None ->
  exists o' m', cJSON_AddItemToObject hooks (Some o) (Some name) (Some r) m = Added o' m' /\ proper o' /\ kind o' = cJSON_Object /\
    member name o' = Some (with_name (c_str name) r) /\ (forall other, c_str other <> c_str name -> member other o' = member other o) /\
    live m' - blocks o' = live m - blocks o - blocks r.
Proof.
  intros Hk Ho Hr Hm. assert (Ho' := Ho). apply proper_eq in Ho' as (H1 & H2 & H3 & H4). destruct (H3 Hk) as [Hd Hn].
  assert (Hr' := Hr). apply proper_eq in Hr' as (R1 & R2 & _). set (w := with_name (c_str name) r).
  assert (Hw : name_of w = c_str name) by (subst w; destruct r; unfold name_of; cbn; apply c_str_idem).
  assert (Hwn : all_named (child o ++ [w])) by (apply all_named_app; split; [done|subst w; destruct r; by repeat constructor]).
  unfold member in *. rewrite find_called in Hm by done.
  assert (Hnew : name_of w ∉ map name_of (child o)).
  { intros Hin. apply list_elem_of_fmap in Hin as (x & Ex & Hx). apply (List.find_none _ _ Hm) in Hx || (apply list_elem_of_In in Hx; apply (List.find_none _ _ Hm) in Hx).
    unfold called in Hx. apply bool_decide_eq_false in Hx. congruence. }
  exists (append_child o w). destruct o as [t v i d s c], r as [rt rv ri rd rs rc]. cbn [child ntype] in *. eexists. split.
  - unfold cJSON_AddItemToObject. cbn [add_item_to_object]. unfold cJSON_strdup, block. rewrite Hmem. rewrite R2, (ldiff_clear rt R2). subst w. reflexivity.
  - cbn [append_child child]. split_and!.
    + apply proper_eq. cbn [ntype child]. split_and!; [done|done| |apply Forall_app; split; [done|constructor; [exact (proper_named _ _ Hr)|constructor]]].
      intros _. split; [|done]. rewrite map_app. apply list.NoDup_app. split; [done|]. split; [|by apply list.NoDup_singleton].
      intros y Hy Hy'. cbn [map] in Hy'. apply elem_of_cons in Hy' as [->|Hy']; [done|by apply not_elem_of_nil in Hy'].
    + done.
    + rewrite find_called, find_app, Hm by done. cbn [List.find]. unfold called. by rewrite Hw, bool_decide_eq_true_2.
    + intros other Hne. rewrite !find_called, find_app by done. destruct (List.find (called other) c); [done|]. cbn [List.find]. unfold called. by rewrite Hw, bool_decide_eq_false_2.
    + change (Node t v i d s (c ++ [w])) with (append_child (Node t v i d s c) w). rewrite blocks_append by done.
      subst w. rewrite blocks_rename by done. cbn [nstring freed live]. lia.
Qed.

(** What the merge of a patch promises. *)
Definition merges (patch : cJSON) : Prop :=
  forall target m, proper patch -> (forall x, target = Some x -> proper x) -> (levels patch - 1 <= CJSON_CIRCULAR_LIMIT)%nat ->
  exists r m', merge_patch hooks true target patch m = (Some r, m') /\ rfc7396 target patch r /\ proper r /\ live m' - blocks r = live m - blocks_opt target.

Lemma rfc_rename name target patch r : rfc7396 target patch r -> rfc7396 target patch (with_name name r).
Proof.
  intros H. destruct r as [t v i d s c]. inversion H; subst; [by apply rfc_value|by apply rfc_object].
Qed.

Lemma member_ext a b n : c_str a = c_str b -> member a n = member b n.
Proof.
  intros E. unfold member. induction (child n) as [|x l IH]; [done|]. cbn [find_item]. by rewrite IH, E.
Qed.

Lemma find_same a b l : c_str a = c_str b -> List.find (called a) l = List.find (called b) l.
Proof. intros E. induction l as [|x l IH]; [done|]. cbn [List.find]. unfold called at 1 3. by rewrite IH, E. Qed.

(** What the members [c] of a patch make of the object [o]. *)
Definition merged_members (c : list cJSON) (o r : cJSON) : Prop :=
  (forall name, List.find (called name) c = None -> member name r = member name o) /\
  (forall name v, List.find (called name) c = Some v -> kind v = cJSON_NULL -> member name r = None) /\
  (forall name v, List.find (called name) c = Some v -> kind v <> cJSON_NULL -> exists w, member name r = Some w /\ rfc7396 (member name o) v w).

(** One member, then the others. *)
Lemma merged_cons x c k o o' r : nstring x = Some k -> name_of x ∉ map name_of c ->
  (forall other, c_str other <> c_str k -> member other o' = member other o) ->
  (if kind x =? cJSON_NULL then member k o' = None else exists w, member k o' = Some w /\ rfc7396 (member k o) x w) ->
  merged_members c o' r -> merged_members (x :: c) o r.
Proof.
  intros Hx Hn Hother Hk (M1 & M2 & M3). assert (En : name_of x = c_str k) by (unfold name_of; by rewrite Hx).
  assert (Hc : List.find (called k) c = None).
  { apply find_none. intros y Hy E. apply Hn. rewrite En, <- E. apply list_elem_of_fmap. by exists y. }
  assert (Hr : member k r = member k o') by (by apply M1).
  assert (Hcase : forall name, (c_str name = c_str k /\ List.find (called name) (x :: c) = Some x) \/
    (c_str name <> c_str k /\ List.find (called name) (x :: c) = List.find (called name) c)).
  { intros name. cbn [List.find]. unfold called at 1 3. rewrite En. destruct (decide (c_str name = c_str k)) as [E|E]; [left; by rewrite bool_decide_eq_true_2|right; by rewrite bool_decide_eq_false_2]. }
  split_and!; intros name; destruct (Hcase name) as [[E ->]|[E ->]]; try done.
  - intros Hf. rewrite <- Hother by done. by apply M1.
  - intros v [= <-] Hv. rewrite (member_ext name k r E), Hr. by rewrite Hv in Hk.
  - intros v Hf Hv. by apply (M2 name v).
  - intros v [= <-] Hv. rewrite (member_ext name k r E), (member_ext name k o E), Hr. by rewrite (proj2 (Z.eqb_neq _ _) Hv) in Hk.
  - intros v Hf Hv. rewrite <- Hother by done. by apply (M3 name v).
Qed.

Lemma members_merge c : Forall merges c -> all_named c -> NoDup (map name_of c) -> Forall proper c -> Forall (fun x => levels x - 1 <= CJSON_CIRCULAR_LIMIT)%nat c ->
  forall o m, kind o = cJSON_Object -> proper o ->
  exists r m', apply_members hooks true (merge_patch hooks true) c (Some o) m = (Some r, m') /\ proper r /\ kind r = cJSON_Object /\
    live m' - blocks r = live m - blocks o /\ merged_members c o r.
Proof.
  induction 1 as [|x c Hx _ IH]; intros Hn Hd Hp Hl o m Hk Ho.
  { exists o, m. split_and!; try done. }
  inversion Hn as [|? ? Hnx Hn']; subst. inversion Hp as [|? ? Hpx Hp']; subst. inversion Hl as [|? ? Hlx Hl']; subst. cbn [map] in Hd. apply list.NoDup_cons in Hd as [Hd1 Hd].
  destruct (nstring x) as [k|] eqn:Ek; [|done]. cbn [apply_members]. rewrite Ek.
  destruct (detach_spec o k Hk Ho) as (o1 & -> & P1 & K1 & M1 & Other1 & B1 & Pold). destruct (kind x =? cJSON_NULL) eqn:Enull.
  - destruct (IH Hn' Hd Hp' Hl' o1 (freed (blocks_opt (member k o)) m) K1 P1) as (r & m' & -> & Pr & Kr & Lr & Mr). exists r, m'. split_and!; try done.
    + cbn [freed live] in Lr. lia.
    + apply (merged_cons x c k o o1 r); try done. by rewrite Enull.
  - destruct (Hx (member k o) m Hpx Pold Hlx) as (r0 & m1 & -> & Rfc & P0 & L0).
    destruct (add_done o1 k r0 m1 K1 P1 P0 M1) as (o2 & m2 & -> & P2 & K2 & M2 & Other2 & B2).
    destruct (IH Hn' Hd Hp' Hl' o2 m2 K2 P2) as (r & m' & -> & Pr & Kr & Lr & Mr). exists r, m'. split_and!; try done; [lia|].
    apply (merged_cons x c k o o2 r); try done.
    + intros other Hne. by rewrite Other2, Other1.
    + rewrite Enull. exists (with_name (c_str k) r0). split; [done|]. by apply rfc_rename.
Qed.

Lemma every_patch_merges patch : merges patch.
Proof.
  induction patch as [t v i d s c IH] using cJSON_induction. intros target m Hp Ht Hl. set (patch := Node t v i d s c) in *. rewrite merge_patch_eq.
  destruct (Z.eqb_spec (kind patch) cJSON_Object) as [Hk|Hk]; cbn [negb].
  2:{ destruct (duplicate_done patch (freed (blocks_opt target) m) Hl) as (m' & -> & Hm). eexists _, _. split; [done|]. split_and!; [by apply rfc_value|by apply proper_copied|cbn [freed live] in Hm; lia]. }
  assert (Hp' := Hp). apply proper_eq in Hp' as (_ & _ & Hn & Hc). destruct (Hn Hk) as [Hd Hnamed]. change (child patch) with c in *.
  assert (Hlc : Forall (fun x => levels x - 1 <= CJSON_CIRCULAR_LIMIT)%nat c).
  { apply list.Forall_forall. intros x Hx. apply levels_child in Hx. subst patch. cbn [levels] in Hl. lia. }
  assert (Hbase : exists o m0, (if cJSON_IsObject target then (target, m) else cJSON_CreateObject hooks (freed (blocks_opt target) m)) = (Some o, m0) /\
    kind o = cJSON_Object /\ proper o /\ live m0 - blocks o = live m - blocks_opt target /\ forall name, member name o = member_of name target).
  { destruct (cJSON_IsObject target) eqn:Eo.
    - destruct target as [o|]; [|done]. cbn in Eo. apply Z.eqb_eq in Eo. exists o, m. split_and!; try done; [by apply Ht|]. intros name. cbn [member_of]. by rewrite Eo.
    - unfold cJSON_CreateObject, create, block. rewrite Hmem. exists (bare cJSON_Object). eexists. split; [done|]. split_and!; try done.
      + apply proper_eq. split_and!; try done. intros _. by split; constructor.
      + change (blocks (bare cJSON_Object)) with 1. cbn [freed live]. lia.
      + intros name. destruct target as [o|]; [|done]. cbn [member_of]. unfold cJSON_IsObject, is_kind in Eo. by rewrite Eo. }
  destruct Hbase as (o & m0 & -> & Ko & Po & Lo & Mo).
  destruct (members_merge c IH Hnamed Hd Hc Hlc o m0 Ko Po) as (r & m' & -> & Pr & Kr & Lr & (M1 & M2 & M3)). exists r, m'. split; [done|]. split_and!; [|done|lia].
  apply rfc_object; try done; intros name; unfold member at 1; change (child patch) with c; rewrite (find_called name c Hnamed).
  - intros Hf. rewrite <- Mo. by apply M1.
  - intros w Hf Hw. by apply (M2 name w).
  - intros w Hf Hw. rewrite <- Mo. by apply (M3 name w).
Qed.
End Enough.

(** C23: a merge patch does what RFC 7396 says: with memory at hand and names compared with
    regard to case, merging a patch into a target whose objects have no repeated names
    returns a document that the rule allows (a patch that is no object replaces the target
    by its copy; members the patch does not name are as they were, members it sets to null
    are gone, the others are merged in turn), and every block of the target that is not in
    the result has been released. *)
Theorem merge_patch_rfc7396 hooks target patch m :
  (forall k, hooks k = true) -> proper patch -> (forall x, target = Some x -> proper x) -> (levels patch - 1 <= CJSON_CIRCULAR_LIMIT)%nat ->
  exists result m', cJSONUtils_MergePatchCaseSensitive hooks target (Some patch) m = (Some result, m') /\
    rfc7396 target patch result /\ live m' - blocks result = live m - blocks_opt target.
Proof.
  intros Hm Hp Ht Hl. destruct (every_patch_merges hooks Hm patch target m Hp Ht Hl) as (r & m' & E & H1 & _ & H2). by exists r, m'.
Qed.

(** ** Witness and departures *)

(** The first example of the RFC. *)
Definition rfc_target : cJSON :=
  object_node [text_node (Some "a"%string) "b"; with_name (bytes_of "c") (object_node [text_node (Some "d"%string) "e"; text_node (Some "f"%string) "g"])].
Definition null_member (name : string) : cJSON := Node cJSON_NULL None 0 zero (Some (bytes_of name)) [].
Definition rfc_patch : cJSON := object_node [text_node (Some "a"%string) "z"; with_name (bytes_of "c") (object_node [null_member "f"])].
Definition rfc_result : cJSON := object_node [text_node (Some "a"%string) "z"; with_name (bytes_of "c") (object_node [text_node (Some "d"%string) "e"])].

Ltac solve_proper_document :=
  repeat match goal with
  | |- proper _ => apply proper_eq; split_and!; [vm_compute; reflexivity|vm_compute; reflexivity|intros Hk; first [discriminate Hk|split]|]
  | |- NoDup (map name_of ?l) => apply (bool_decide_eq_true_1 (NoDup (map name_of l))); vm_compute; reflexivity
  | |- Forall _ _ => constructor
  | |- _ <> _ => discriminate
  end.

Lemma merge_patch_rfc7396_witness :
  exists m', cJSONUtils_MergePatchCaseSensitive ok (Some rfc_target) (Some rfc_patch) (mkMem 0 (blocks rfc_target)) = (Some rfc_result, m') /\
    rfc7396 (Some rfc_target) rfc_patch rfc_result /\ live m' = blocks rfc_result.
Proof.
  assert (Hp : proper rfc_patch) by solve_proper_document. assert (Ht : proper rfc_target) by solve_proper_document.
  destruct (merge_patch_rfc7396 ok (Some rfc_target) rfc_patch (mkMem 0 (blocks rfc_target)) ltac:(done) Hp ltac:(by intros x [= <-])) as (r & m' & E & H1 & H2).
  { apply Nat.leb_le. vm_compute. reflexivity. }
  assert (Er : r = rfc_result). { vm_compute in E. injection E as <- <-. vm_compute. reflexivity. }
  subst r. exists m'. split; [done|]. split; [done|]. cbn [live blocks_opt] in H2. lia.
Defined.

(** A failed allocation is not noticed when it is the one of the new object or of a name:
    the member that was made is lost, its blocks are never released, and in the second case
    the merge reports success without the member. *)
Example merge_loses_member :
  let fails k := fun n => negb (n =? k)%nat in
  let patch := object_node [text_node (Some "a"%string) "z"] in
  (match cJSONUtils_MergePatchCaseSensitive (fails 0%nat) None (Some patch) no_memory with (None, m') => live m' = 3 | _ => False end) /\
  (match cJSONUtils_MergePatchCaseSensitive (fails 4%nat) None (Some patch) no_memory with (Some r, m') => child r = [] /\ live m' = blocks r + 3 | _ => False end).
Proof. vm_compute. done. Qed.

(** Without regard to case a patch of two names that differ in case keeps only the last. *)
Example case_folds_patch :
  match cJSONUtils_MergePatch ok None (Some (object_node [text_node (Some "a"%string) "x"; text_node (Some "A"%string) "y"])) no_memory with
  | (Some r, _) => map nstring (child r) = [Some (bytes_of "A")]
  | _ => False
  end.
Proof. vm_compute. done. Qed.
