(* ===== verification/FirmwareJson.v ===== *)
(** * The device and its JSON library

    How [src/firmware/main/hsm.cpp] uses cJSON: a command is the parsed root of which the
    handlers ask for members by name, an answer is an object to which strings and numbers
    are added and which is printed without formatting.

    [Firmware] is stated over a class of parsers, [CJson]; here the parser of [Cjson]
    is its instance, and the answers that [Firmware] keeps as lists of members are built,
    printed and read back. *)

From S2P Require Import Prelude AuditLog KeyPolicy Double Cjson CjsonPrint CjsonRoundtrip CjsonTree Firmware.

(** ** Requests *)

(** What the handlers ask of a member. *)
Definition item_of (n : cJSON) : Item :=
  match cJSON_GetStringValue (Some n) with
  | Some s => JString (c_str s)
  | None => if cJSON_IsBool (Some n) then JBool (cJSON_IsTrue (Some n)) else JOther
  end.

(** The members that a search by name can reach. *)
Fixpoint members_of (l : list cJSON) : list (list byte * Item) :=
  match l with
  | [] => []
  | n :: l => match nstring n with Some k => (c_str k, item_of n) :: members_of l | None => [] end
  end.

(** [cJSON_Parse(json_line)] on the device. *)
Definition device_json (hooks : nat -> bool) : CJson :=
  fun json_line => match Cjson.cJSON_Parse hooks (Some json_line) no_memory with Parsed n _ _ => Some (members_of (child n)) | _ => None end.

(** The class's search is the library's. *)
Lemma get_item_members name l : c_str name = name -> get_item (members_of l) name = item_of <$> find_item true name l.
Proof.
  intros Hn. induction l as [|n l IH]; [done|]. cbn [members_of find_item]. destruct (nstring n) as [k|]; [|done]. cbn [get_item]. rewrite Hn.
  destruct (decide (c_str k = name)) as [E|E]; [by rewrite !bool_decide_eq_true_2|]. rewrite !bool_decide_eq_false_2 by congruence. apply IH.
Qed.

(** ** Answers *)

Section Answers.
Context (hooks : internal_hooks) (junk : nat -> list byte).

(** A member is added; when that fails the object stays as it is, and nobody asks. *)
Definition add_member (o : option cJSON) (kv : string * Val) (m : Mem) : option cJSON * Mem :=
  let (k, v) := kv in
  match match v with
        | VStr s => cJSON_AddStringToObject (serves hooks) o (Some (bytes_of k)) (Some s) m
        | VNum z => cJSON_AddNumberToObject (serves hooks) o (Some (bytes_of k)) (double_of_Z z) m
        end with
  | Added o m => (Some o, m)
  | NotAdded m => (o, m)
  end.

Fixpoint add_members (l : list (string * Val)) (o : option cJSON) (m : Mem) : option cJSON * Mem :=
  match l with
  | [] => (o, m)
  | kv :: l => let (o, m) := add_member o kv m in add_members l o m
  end.

(** The body of an answer: the printed object, ["{}"] when it cannot be printed; the object
    and the printed text are released.  [None]: a read or write outside a block. *)
Definition answer_body (members : list (string * Val)) (m : Mem) : option (list byte * Mem) :=
  let (o, m) := cJSON_CreateObject (serves hooks) m in
  let (o, m) := add_members members o m in
  match print hooks junk o false m with
  | Printed t m => Some (t, freed (1 + blocks_opt o) m)
  | Unprinted m => Some (bytes_of "{}", freed (blocks_opt o) m)
  | Overrun => None
  end.
End Answers.

(** ** Answers are safe and readable *)

(** The node of a member. *)
Definition member_node (kv : string * Val) : cJSON :=
  let (k, v) := kv in
  with_name (c_str (bytes_of k)) (match v with VStr s => string_node (c_str s) | VNum z => number_node (double_of_Z z) end).

Definition int_members (l : list (string * Val)) : Prop := Forall (fun kv => match snd kv with VNum z => INT_MIN <= z <= INT_MAX | VStr _ => True end) l.

(** What a reader of the answer finds. *)
Definition member_item (kv : string * Val) : list byte * Item :=
  (c_str (bytes_of (fst kv)), match snd kv with VStr s => JString (c_str s) | VNum _ => JOther end).

Lemma Forall_of_sublist {A} (P : A -> Prop) l k : sublist l k -> Forall P k -> Forall P l.
Proof. induction 1 as [|x l k _ IH|x l k _ IH]; intros H; [done| |]; inversion H; subst; [constructor|]; auto. Qed.

Section Safe.
Context (hooks : internal_hooks) (junk : nat -> list byte).

Definition object_of (l : list cJSON) : cJSON := Node cJSON_Object None 0 zero None l.

Lemma add_member_spec l kv m :
  let (o, m') := add_member hooks (Some (object_of l)) kv m in
  exists l', o = Some (object_of l') /\ live m' - live m = blocks (object_of l') - blocks (object_of l) /\
    (l' = l ++ [member_node kv] \/ l' = l /\ exists k, serves hooks k = false).
Proof.
  destruct kv as [k v]. unfold add_member.
  assert (H : forall make n, makes (serves hooks) make n -> own n ->
    let (o, m') := match add_created (serves hooks) make (Some (object_of l)) (Some (bytes_of k)) m with Added o m => (Some o, m) | NotAdded m => (Some (object_of l), m) end in
    exists l', o = Some (object_of l') /\ live m' - live m = blocks (object_of l') - blocks (object_of l) /\
      (l' = l ++ [with_name (c_str (bytes_of k)) n] \/ l' = l /\ exists k, serves hooks k = false)).
  { intros make n Hm Ho. pose proof (add_created_spec (serves hooks) make n (Some (object_of l)) (Some (bytes_of k)) m Hm Ho) as H.
    destruct (add_created _ _ _ _ _) as [o' m'|m'].
    - destruct H as (o & k' & [= <-] & [= <-] & -> & Hl). eexists. split; [done|]. split; [by apply Hl|by left].
    - destruct H as [Hl H]. exists l. split_and!; [done|lia|]. right. split; [done|]. destruct H as [?|[?|?]]; done. }
  destruct v as [s|z]; apply H; try done.
  - apply create_text_makes. by left.
  - by apply create_makes.
Qed.

Lemma add_members_spec kvs : forall l m,
  let (o, m') := add_members hooks kvs (Some (object_of l)) m in
  exists l', o = Some (object_of (l ++ l')) /\ live m' - live m = blocks (object_of (l ++ l')) - blocks (object_of l) /\
    sublist l' (map member_node kvs) /\ ((forall k, serves hooks k = true) -> l' = map member_node kvs).
Proof.
  induction kvs as [|kv kvs IH]; intros l m; cbn [add_members map]; [exists []; rewrite app_nil_r; split_and!; [done|lia|constructor|done]|].
  pose proof (add_member_spec l kv m) as H. destruct (add_member _ _ _ _) as [o m1]. destruct H as (l1 & -> & Hl1 & H).
  specialize (IH l1 m1). destruct (add_members _ _ _ _) as [o m2]. destruct IH as (l2 & -> & Hl2 & Hs & Hall).
  destruct H as [->|[-> [k Hk]]].
  - exists (member_node kv :: l2). rewrite <- app_assoc in *. cbn [app] in *. split_and!; [done|lia|by constructor|]. intros Hk. by rewrite Hall.
  - exists l2. split_and!; [done|lia|by constructor|]. intros Hall'. by rewrite Hall' in Hk.
Qed.

Lemma member_plain kv : match snd kv with VNum z => INT_MIN <= z <= INT_MAX | VStr _ => True end ->
  plain (member_node kv) /\ exists k, nstring (member_node kv) = Some k /\ nul_free k.
Proof.
  destruct kv as [k [s|z]]; cbn [snd]; intros Hz; (split; [|eexists; split; [done|apply c_str_nul_free]]).
  - cbn [member_node with_name string_node plain]. do 4 right. left. split_and!; try done. eexists. split; [done|apply c_str_nul_free].
  - cbn [member_node with_name number_node plain]. do 3 right. left. rewrite saturate_int by done. done.
Qed.

Lemma object_plain l : Forall (fun n => plain n /\ exists k, nstring n = Some k /\ nul_free k) l -> plain (object_of l).
Proof.
  intros H. cbn [plain object_of]. do 6 right. split_and!; try done. induction H as [|n l Hn _ IH]; cbn [fold_right]; done.
Qed.

Lemma object_height l : Forall (fun n => height n = 0%nat) l -> (height (object_of l) <= CJSON_NESTING_LIMIT)%nat.
Proof.
  intros H. unfold object_of. rewrite heights_children. change (_ || _) with true. cbn iota.
  assert (E : heights l = 0%nat) by (induction H as [|n l Hn _ IH]; [done|]; cbn [heights fold_right]; fold (heights l); by rewrite Hn, IH). rewrite E. unfold CJSON_NESTING_LIMIT. lia.
Qed.

Lemma member_height kv : height (member_node kv) = 0%nat.
Proof. by destruct kv as [k [s|z]]. Qed.

Lemma members_forall kvs : int_members kvs ->
  Forall (fun n => plain n /\ exists k, nstring n = Some k /\ nul_free k) (map member_node kvs) /\ Forall (fun n => height n = 0%nat) (map member_node kvs).
Proof. induction 1 as [|kv kvs Hkv _ [IH1 IH2]]; cbn [map]; split; constructor; try done; [by apply member_plain|apply member_height]. Qed.

Lemma members_read_back kvs : members_of (map member_node kvs) = map member_item kvs.
Proof.
  induction kvs as [|[k v] kvs IH]; [done|]. cbn [map members_of].
  assert (Hn : nstring (member_node (k, v)) = Some (c_str (bytes_of k))) by (by destruct v). rewrite Hn, c_str_idem, IH. unfold member_item. cbn [fst snd].
  do 2 f_equal. destruct v as [s|z]; [|done].
  assert (E : item_of (member_node (k, VStr s)) = JString (c_str (c_str s))) by done. by rewrite E, c_str_idem.
Qed.

(** An answer under any allocator. *)
Lemma answer_accounted kvs m : int_members kvs ->
  exists b m', answer_body hooks junk kvs m = Some (b, m') /\ live m' = live m.
Proof.
  intros Hi. destruct (members_forall kvs Hi) as [Hp _]. unfold answer_body.
  pose proof (create_makes (serves hooks) (object_of []) eq_refl m) as Hc. change (create (serves hooks) (object_of []) m) with (cJSON_CreateObject (serves hooks) m) in Hc.
  destruct (cJSON_CreateObject (serves hooks) m) as [[o|] m1].
  - destruct Hc as [-> Hl]. pose proof (add_members_spec kvs [] m1) as Ha. destruct (add_members hooks kvs _ m1) as [o m2]. destruct Ha as (l & -> & Hl2 & Hs & _).
    cbn [app] in *. assert (Ht : typed_node (object_of l)) by (by apply plain_typed, object_plain, (Forall_of_sublist _ _ _ Hs)).
    pose proof (print_exact hooks junk (object_of l) false m2 Ht) as H. change (blocks (object_of [])) with 1 in *.
    destruct (print _ _ _ _ _) as [t m3|m3|]; [| |done]; eexists _, _; (split; [done|]); unfold freed; cbn [live blocks_opt]; destruct H as [H1 H2]; lia.
  - destruct Hc as [Hl _]. assert (Hnone : forall kvs m, exists m', add_members hooks kvs None m = (None, m') /\ live m' = live m).
    { clear. induction kvs as [|[k v] kvs IH]; intros m; [by exists m|]. cbn [add_members]. unfold add_member.
      assert (H : forall make n, makes (serves hooks) make n -> own n -> exists m1, add_created (serves hooks) make None (Some (bytes_of k)) m = NotAdded m1 /\ live m1 = live m).
      { intros make n Hm Ho. pose proof (add_created_spec (serves hooks) make n None (Some (bytes_of k)) m Hm Ho) as H.
        destruct (add_created _ _ _ _ _) as [o m1|m1]; [by destruct H as (? & ? & ? & _)|]. exists m1. by destruct H. }
      assert (Hv : exists m1, match v with
         | VStr s => cJSON_AddStringToObject (serves hooks) None (Some (bytes_of k)) (Some s) m
         | VNum z => cJSON_AddNumberToObject (serves hooks) None (Some (bytes_of k)) (double_of_Z z) m end = NotAdded m1 /\ live m1 = live m).
      { destruct v as [s|z]; [apply (H _ (string_node (c_str s)))|apply (H _ (number_node (double_of_Z z)))]; try done; [by apply create_text_makes; left|by apply create_makes]. }
      destruct Hv as (m1 & -> & Hm1). destruct (IH m1) as (m2 & -> & Hm2). exists m2. split; [done|lia]. }
    destruct (Hnone kvs m1) as (m2 & -> & Hl2). unfold print, request. destruct (serves hooks (made m2)); cbn [negb]; eexists _, _; (split; [done|]); cbn; lia.
Qed.

(** With enough memory the body is the text of all members, and is read back as them. *)
Lemma answer_complete kvs m : int_members kvs -> (forall k, serves hooks k = true) ->
  exists t, text_of false 0 (object_of (map member_node kvs)) = Some t /\
    (Z.of_nat (length t) + 2 <= INT_MAX -> exists m', answer_body hooks junk kvs m = Some (t, m')) /\
    device_json ok t = Some (map member_item kvs).
Proof.
  intros Hi Hk. destruct (members_forall kvs Hi) as [Hp Hh]. set (l := map member_node kvs) in *.
  destruct (plain_reads (object_of l) (object_plain l Hp) false 0%nat (object_height l Hh)) as (t & Et & Hr & Hb). exists t. split_and!; [done| |].
  - intros Hlen. unfold answer_body.
    assert (Hc : exists m1, cJSON_CreateObject (serves hooks) m = (Some (object_of []), m1)).
    { unfold cJSON_CreateObject, create, block. rewrite Hk. by eexists. }
    destruct Hc as [m1 ->]. pose proof (add_members_spec kvs [] m1) as Ha. destruct (add_members hooks kvs _ m1) as [o m2].
    destruct Ha as (l' & -> & _ & _ & Hall). rewrite (Hall Hk). cbn [app]. fold l.
    pose proof (print_exact hooks junk (object_of l) false m2 (plain_typed _ (object_plain l Hp))) as H.
    destruct (print _ _ _ _ _) as [t' m3|m3|]; [| |done].
    + destruct H as [H _]. rewrite Et in H. injection H as <-. by eexists.
    + destruct H as [_ H]. specialize (H t Et Hk). lia.
  - unfold device_json, Cjson.cJSON_Parse.
    destruct (parse_document (object_of l) t false no_memory Hr Hb (text_of_nul_free _ _ _ _ Et) (object_height l Hh) eq_refl) as [m' ->].
    cbn [child object_of]. subst l. by rewrite members_read_back.
Qed.
End Safe.

(** ** The answers of the commands *)

Definition STATUS : list byte := bytes_of "status".

(** An answer says once whether the command was carried out. *)
Definition says_status (r : CmdResult) : Prop :=
  get_item (map member_item (body r)) STATUS = Some (JString (bytes_of (if status r =? 200 then "ok" else "error"))).

Lemma error_says code : says_status (make_error code).
Proof.
  unfold says_status, make_error. cbn [body map]. assert (Hs : (error_http_status code =? 200) = false).
  { unfold error_http_status. cbn [List.find fst]. repeat (case_bool_decide; [done|]). done. }
  cbn [status]. rewrite Hs. done.
Qed.

Lemma success_says resp : forallb (fun kv => negb (bool_decide (c_str (bytes_of (fst kv)) = STATUS))) resp = true -> says_status (make_success resp).
Proof.
  unfold says_status, make_success. cbn [body status]. change (200 =? 200) with true. cbn iota. rewrite map_app.
  induction resp as [|[k v] resp IH]; [done|]. cbn [forallb map app fst get_item member_item]. intros H. apply andb_true_iff in H as [Hk H].
  apply negb_true_iff in Hk. unfold member_item at 1. cbn [fst get_item]. rewrite Hk. by apply IH.
Qed.

Create HintDb answers.
#[local] Hint Resolve error_says : answers.
#[local] Hint Extern 2 (says_status (make_success _)) => apply success_says; by vm_compute : answers.

Section Device.
Context (cfg : Config) `{M : Mbed}.

Lemma handle_command_says io root d : says_status (fst (handle_command cfg io root d)).
Proof.
  unfold handle_command. destruct (get_item root (bytes_of "cmd")) as [[cmd| |]|]; try (cbn [fst]; by auto with answers).
  repeat match goal with |- context [if bool_decide ?P then _ else _] => destruct (bool_decide P) end; [| | | | |cbn [fst]; by auto with answers].
  - unfold handle_create_key.
    repeat match goal with |- says_status (fst (match ?x with _ => _ end)) => destruct x | |- says_status (fst (if ?x then _ else _)) => destruct x | |- says_status (fst (let _ := ?x in _)) => cbn zeta end; cbn [fst]; auto with answers.
  - unfold handle_upload_start.
    repeat match goal with |- says_status (fst (match ?x with _ => _ end)) => destruct x end; cbn [fst]; auto with answers.
  - unfold handle_upload_chunk.
    repeat match goal with |- says_status (fst (match ?x with _ => _ end)) => destruct x | |- says_status (fst (let _ := ?x in _)) => cbn zeta end; cbn [fst]; auto with answers.
  - unfold handle_upload_end.
    repeat match goal with |- says_status (fst (match ?x with _ => _ end)) => destruct x end; cbn [fst]; auto with answers.
  - unfold handle_sign.
    repeat match goal with |- says_status (fst (match ?x with _ => _ end)) => destruct x | |- says_status (fst (let _ := ?x in _)) => cbn zeta end; cbn [fst]; auto with answers.
Qed.

(** A request that a client prints with the same library reaches the handler as its
    members. *)
Lemma request_understood kvs io d : int_members kvs ->
  exists t, text_of false 0 (object_of (map member_node kvs)) = Some t /\
    handle_request cfg (J := device_json ok) io t d = handle_command cfg io (map member_item kvs) d.
Proof.
  intros Hi. destruct (answer_complete (mkHooks ok true) (fun _ => []) kvs no_memory Hi ltac:(done)) as (t & Et & _ & Ht). exists t. split; [done|].
  unfold handle_request, Firmware.cJSON_Parse. by rewrite Ht.
Qed.

(** C22: what the device answers can be read: for every request line, every device and
    every allocator the answer is built and printed inside its blocks and all of them
    are released again; and with enough memory its body is a JSON text that parses to
    exactly the members of the answer, whose status is ["ok"] exactly when the HTTP
    status is 200. *)
Theorem fw_answers_readable hooks junk io json_line d m :
  let r := fst (handle_request cfg (J := device_json ok) io json_line d) in
  int_members (body r) ->
  (exists b m', answer_body hooks junk (body r) m = Some (b, m') /\ live m' = live m) /\
  ((forall k, serves hooks k = true) ->
   exists t, (Z.of_nat (length t) + 2 <= INT_MAX -> exists m', answer_body hooks junk (body r) m = Some (t, m')) /\
     device_json ok t = Some (map member_item (body r)) /\
     get_item (map member_item (body r)) STATUS = Some (JString (bytes_of (if status r =? 200 then "ok" else "error")))).
Proof.
  intros r Hi. split; [by apply answer_accounted|]. intros Hk. destruct (answer_complete hooks junk (body r) m Hi Hk) as (t & _ & H1 & H2). exists t. split_and!; [done|done|].
  subst r. unfold handle_request. destruct (Firmware.cJSON_Parse json_line); [apply handle_command_says|apply error_says].
Qed.
End Device.

(** ** Witnesses and departures *)

(** The end of an upload, of a file that is there. *)
Definition end_request : list byte :=
  default [] (text_of false 0 (object_of (map member_node [("cmd"%string, VStr (bytes_of "uploadEnd")); ("filename"%string, VStr (bytes_of "doc.txt"))]))).

Definition uploaded : Device := set_fs FwToy.blank {[ tmp_path (bytes_of "doc.txt") := bytes_of "hello" ]}.

Definition end_answer : CmdResult := fst (handle_request FwToy.cfg (M := FwToy.toy_mbed) (J := device_json ok) (FwToy.io 1) end_request uploaded).

Lemma end_answer_body : body end_answer = [("filename", VStr (bytes_of "doc.txt")); ("totalBytes", VNum 5); ("status", VStr (bytes_of "ok"))]%string.
Proof. vm_compute. reflexivity. Qed.

Lemma end_answer_ints : int_members (body end_answer).
Proof. rewrite end_answer_body. repeat constructor; unfold INT_MIN, INT_MAX; cbn; lia. Qed.

Lemma fw_answers_readable_witness :
  exists t, (Z.of_nat (length t) + 2 <= INT_MAX -> exists m', answer_body (mkHooks ok false) (fun _ => []) (body end_answer) no_memory = Some (t, m')) /\
     device_json ok t = Some (map member_item (body end_answer)) /\
     get_item (map member_item (body end_answer)) STATUS = Some (JString (bytes_of (if status end_answer =? 200 then "ok" else "error"))).
Proof.
  destruct (fw_answers_readable FwToy.cfg (M := FwToy.toy_mbed) (mkHooks ok false) (fun _ => []) (FwToy.io 1) end_request uploaded no_memory) as [_ H].
  - exact end_answer_ints.
  - exact (H ltac:(done)).
Defined.
